(* ===== verification/_CoqProject ===== *)
-Q . S2P
Prelude.v
CodecTypes.v
CodecUtils.v
CodecV3.v
CodecV3Proofs.v
CodecFraming.v
CodecVersion.v
CodecV5Types.v
CodecV5.v
CodecV5Lemmas.v
CodecV5Format.v
CodecV5Encode.v
CodecV5Decode.v
CodecV5Safe.v
CodecV5Proofs.v
CodecMqtt.v
Topic.v
Trie.v
BrokerTypes.v
Subscription.v
Router.v
RouterMatch.v
RouterConcurrent.v
RouterAdmin.v
Retain.v
RetainStorage.v
Connection.v
Fitter.v
TopicAlias.v
Delayed.v
CircuitBreaker.v
Queue.v
Inflight.v
Session.v
Json.v
Acl.v
SessionLogic.v
SessionInbound.v
SessionQoS2.v
SessionOutbound.v
SessionDelivery.v
SessionSubscribe.v
SessionLoop.v
SessionAuth.v
SessionRun.v
SessionEnd.v
SessionWill.v
SessionHandover.v
SessionSubs.v
Shared.v
SharedRouting.v
SharedSync.v
Node.v
NodeForward.v
NodeBroker.v
SessionWitness.v
Hook.v
AclBuiltin.v
AclBroker.v
AuthJwt.v
Floats.v
Stats.v
Load.v
Bench.v
Utils.v
SysTopic.v
Settings.v
Handshake.v
HandshakeProofs.v
Connecting.v
BenchCodec.v
BenchCodecProofs.v
BenchTransport.v
BenchBroker.v
BenchOptions.v
BenchClient.v
BenchSession.v
Messages.v
