(* ===== verification/Prelude.v ===== *)
(** * oximqtt: a verification development of the broker's core

    oximqtt is an MQTT 3.1, 3.1.1 and 5 broker. A connection's bytes are
    cut into frames and decoded by a codec ([codec/]), whose version is
    detected from the first CONNECT. Topic filters ([topic.rs]) are kept
    in a topic tree ([trie.rs]) that finds the subscribers of a published
    topic. A subscriber's session queues messages ([queue.rs]) and tracks
    the unacknowledged ones in a window ([inflight.rs]). All paths below
    are relative to [src/oximqtt/src/].

    ** Files

    - [Prelude]: machine integers as [Z] with their wrap-around, the
      [outcome] of fallible code ([Ok], [Err], [Panic], [Diverged]), the
      monad [io] of code that reads or writes a byte buffer, with three
      judgements: [writes] (appends exactly these bytes), [reads]
      (consumes exactly these bytes) and [wp] (neither panics nor
      diverges on this buffer, and a result satisfies a predicate).
    - [CodecTypes], [CodecUtils]: [codec/types.rs], [codec/error.rs],
      [codec/utils.rs]. The class [WireOk] states what the [Decode] and
      [Encode] implementation of a type promises the packet codecs: its
      image, round trip, size, and safety on arbitrary bytes.
    - [CodecV3], [CodecV3Proofs]: the MQTT 3 packets of [codec/v3/].
    - [CodecFraming]: the decoder state machine of [codec/v3/codec.rs],
      parametric in [decode_packet], and the v3 codec.
    - [CodecVersion]: [codec/version.rs].
    - [CodecV5Types], [CodecV5]: the MQTT 5 packets of [codec/v5/];
      [oc] tells whether the build checks integer overflow.
      [CodecV5Format] specifies the wire format, [CodecV5Encode] and
      [CodecV5Decode] relate the two halves of the codec to it,
      [CodecV5Safe] treats arbitrary bytes, [CodecV5Proofs] has the
      properties ([CodecV5Lemmas] the building blocks).
    - [CodecMqtt]: [codec/v5/codec.rs] (Module [V5Framed]) and
      [codec/mod.rs] with the codec switch of [net/stream.rs] (Module
      [Mqtt]).
    - [Topic], [Trie]: [topic.rs] and [trie.rs]; the specification of
      matching is [mqtt_match], the rules of MQTT 4.7.
    - [BrokerTypes]: identities, origins and messages of [types.rs], the
      [Counter] of [utils/counter.rs].
    - [Subscription]: the options, [parse_topic_filter] and the collector
      of [types.rs], and [subscribe.rs]: the class [SharedSubscription] is
      the trait, [SharedSubscriptionOk] what the router relies on, and
      Module [DefaultShared] the default instance.
    - [Router]: add, remove and matches of [router.rs], over [Trie] and
      [Subscription]; [RouterMatch] has the routing theorem,
      [RouterConcurrent] interleaves the atomic steps of add and remove,
      [RouterAdmin] has the routes, queries and counters.
    - [Retain], [RetainStorage]: the tree of retained messages and the
      timed storage of [retain.rs], and [builtins/retainer.rs] (Module
      [RamRetainer]).
    - [Queue]: [queue.rs], as sequential operations and as a step
      relation that interleaves a sender with the receiver.
    - [Inflight]: [inflight.rs], over an interface ([DequeMap]) for the
      ordered map it uses, with an instance.
    - [Connection]: CONNECT information, wills, results, errors, reasons
      and their codes ([types.rs], [codec/error.rs], [net/error.rs]).
    - [Fitter], [TopicAlias], [Delayed], [CircuitBreaker]: [fitter.rs] over
      the listener settings of [net/builder.rs], the topic aliases of
      [types.rs], [delayed.rs], [utils/circuit_breaker.rs].
    - [Session]: the state of a session ([session.rs], [types.rs]), its
      mailbox, the monad its handlers run in, the effects they have. What a
      session asks of the rest of the broker is the class [Broker]; the
      texts of errors are the class [Texts]. [SessionLogic] has the
      judgement [swp] with its rules and the laws [BrokerOk].
      [SessionInbound] (messages from the client), [SessionOutbound]
      (delivery, acknowledgements, retries), [SessionSubscribe],
      [SessionLoop] (the dispatch of packets and mailbox messages, and the
      loop), [SessionEnd] (the end of a connection, the offline loop, the
      will, discarding, [to_offline_info]) hold the handlers;
      [SessionQoS2], [SessionRun], [SessionDelivery], [SessionWill],
      [SessionHandover] their properties. [SessionSubs]: the subscriptions
      a session holds, with their gauges.
    - [Shared]: the table of sessions and mailboxes of [shared.rs], its
      entries, kicking, forwarding. [SharedRouting] composes it with the
      router, [SharedSync] shows that it and the router agree.
    - [Node], [NodeForward]: [SessionState::forwards] over delayed and
      retained messages, router and mailboxes; what a new subscription is
      sent ([Messages]: the message store, [message.rs], and loading what it
      holds). [NodeBroker]: the node is an instance of [Broker] with the
      laws the session's theorems assume; [SessionWitness] runs sessions
      on it.

    - [SessionAuth]: a session under the checks of access control, as the
      class [AclSound].
    - [Json], [Acl], [Hook], [AclBuiltin]: configuration values, the rules
      of [acl.rs], the hook manager and the hooks of [hook.rs], the plugin
      of [builtins/acl.rs]; [AclBroker] puts the plugin, the hook manager
      and a session together.
    - [AuthJwt]: [builtins/auth_jwt.rs] over the class [TokenLibrary] of
      the library that decodes tokens, with its laws [TokenLibraryOk] and a
      sample instance.
    - [Handshake]: what follows a CONNECT packet ([v3.rs], [v5.rs],
      [net/stream.rs], [Session::new]): a monad over the hooks, the table of
      sessions and the counters, whose environment has what other
      connections do while this one waits ([others]) and what reaches its
      mailbox ([incoming]). [HandshakeProofs] has its judgement [hwp] and
      what one handshake establishes, [Connecting] the properties.
    - [Utils], [Settings]: the texts of sizes, durations and addresses
      ([utils/mod.rs]); [conf/mod.rs], [conf/listener.rs] and the builders
      that [oximqtt-bin/src/server.rs] makes of them.
    - [Floats], [Stats], [Load]: [f64] and [f32] on the Standard Library's
      specification of IEEE 754; [utils/rate_counter.rs], [stats.rs],
      [metrics.rs] (Modules [RateCounter], [Stats], [Metrics]);
      [executor.rs] and [node.rs].
    - [SysTopic]: [builtins/sys_topic.rs], from the event to the mailboxes
      of a node.
    - The load generator, [oximqtt-bench/src/], which shares no code with
      the broker. [Bench]: [stats.rs] (Module [Histogram]) and [window.rs]
      (Module [Window]). [BenchCodec]: its own codec ([mqtt/]), with its
      wire format, round trips and safety in [BenchCodecProofs].
      [BenchTransport]: [transport.rs], the reader over any segmentation of
      the stream and the buffered writer. [BenchBroker]: the two codecs
      against each other, over [CodecV3Proofs] and [CodecV5Proofs].
      [BenchOptions]: [options.rs]. [BenchClient]: [client.rs],
      [packets.rs] and [churn.rs], a client from its CONNECT to the end,
      as a sequence of events, one per branch of its [select!];
      [BenchSession] has its properties.

    ** What the theorems show

    Codecs: what is encoded is decoded again, packet by packet and as a
    stream however the network cuts it; the announced sizes are exact;
    decoding never panics on any bytes and only yields well-formed
    packets; limits are enforced in both directions; the diagnostics of
    MQTT 5 are dropped exactly as far as the limit or the client's flags
    ask. Topics: parsing and printing are inverse, the accepted strings
    are characterised, matching agrees with the rules of MQTT but for a
    stated class. Trie: insert and remove refine a set of pairs of filter
    and value, and the iterator yields exactly the subscriptions that
    match. Router: adding and removing refine a map from filter and client
    to subscription, and a published message goes to exactly the eligible
    subscriptions, once per client and once per shared group. Retained
    messages: the storage refines a map from topic to timed message whose
    limits hold at all times, and retrieval finds what matches and has not
    expired. Inflight: packet ids are fresh and non zero, an acknowledged
    message leaves the window, the callbacks count the window. Queue: the
    capacity is never exceeded, callbacks balance, wake-ups are not lost.
    Sessions: a QoS 2 message is handed on once between two PUBRELs of its
    packet id, whatever the client and the broker do; a delivery is
    registered under a fresh packet id, and acknowledged messages leave the
    window; subscribing stays within the limits and what access control
    allows, and every filter of a SUBSCRIBE is answered; the will is
    published at most once and, where it is due, exactly once; a session
    that is discarded reports every message it held, one that is taken over
    hands every message on; what a store holds for a subscription reaches
    its client once. Node: a published message is accounted for, in
    the mailboxes, as dropped or as without subscribers; the sessions and
    the router hold the same subscriptions in every reachable state.

    Access control: handlers run in the order of their priority and the
    first that does not proceed decides; the first rule about the client,
    the operation and the topic decides; the filters made of a client's
    names are its own and go when it goes; and over a whole connection no
    message enters the broker, and no subscription is entered, that the
    rules do not allow.

    Connecting: whatever other connections do meanwhile, a client that is
    accepted was authenticated by the hooks, its entry and its session
    agree, the session is well formed, and the CONNACK says what it does.
    Where they do nothing, exactly the old session that the client asked
    for is taken over, and a refusal touches no other client; what a refusal
    may leave of the client itself is stated case by case. Tokens: a client that the
    module lets in has a token that the library accepts with the claims
    that are configured, and only the rights that its token gives.

    Settings: sizes and durations mean what they say, a size that is
    written reads back, and exactly the sockets of the enabled listeners
    are opened, with their settings. Statistics: the rate counter is exact
    however threads interleave; the statistics of nodes add up; events are
    told on the topics of their clients.

    Load generator: what its writer sends is what its reader reads however
    the stream is cut; the broker decodes what it encodes and it parses
    what the broker encodes, packet by packet and as streams, but for the
    CONNACK of MQTT 5, which it misreads in a way that is stated; the ids
    in flight are the slots of its window, in range and never more than
    the broker allows, whatever arrives; the counters of connections
    balance but for refused handshakes; percentiles are conservative and
    within a quarter.

    Theorems that state a defect are named for it and describe the exact
    condition under which it shows.

    ** Fuel

    [while_remaining] takes the length of the buffer: every iteration
    consumes a byte ([wp_while_remaining] discharges [Diverged]). The
    framing loop makes at most two iterations per call. The trie iterator
    takes the depth of the tree plus one, and [collect] the number of
    items, both computed by the theorems that use them. Packet id probing
    makes the 65535 probes of the code.
    The loops of a session that pop a queue take its length plus one, and
    theorems show that they return. The online and the offline loop are
    sequences of events, one per branch that [tokio::select!] takes, with
    [Elsewhere] for what the rest of the broker does in between.

    [TokenLibraryOk], the laws of the token library, and the laws of the
    other interfaces are hypotheses of the theorems that use them; each has
    an instance that satisfies them, which the witnesses run.

    ** Not modelled

    Sockets, TLS, WebSocket, QUIC and the PROXY protocol ([server.rs],
    [net/]), the task executors, rate limiting by the governor crate, the
    reading of configuration files, command lines and the environment, the
    text of JSON and the tables of reports: I/O and library calls. The
    debug listings of the router, the trie and the session. A message store
    that stores, and what persists sessions, are plugins outside the
    repository. The locks of [extend.rs] and the wiring of [context.rs].
    The test tool [oximqtt-test] is a client around the library. Each
    session runs alone: other tasks are the changes of the broker's state
    between its events. *)

From stdpp Require Import prelude list strings gmap.
From Stdlib Require Import ZArith Lia.

Local Open Scope Z_scope.

(** ** Machine integers

    A [w]-bit unsigned integer is a [Z] in [0, 2^w); the wrap-around of
    an operation is written out with [wrap]. *)

Definition wrap (w z : Z) : Z := z mod 2 ^ w.
Definition is_u (w z : Z) : Prop := 0 <= z < 2 ^ w.

#[global] Instance is_u_dec w z : Decision (is_u w z).
Proof. unfold is_u. apply _. Defined.

Abbreviation u8 := (is_u 8).
Abbreviation u16 := (is_u 16).
Abbreviation u32 := (is_u 32).

Definition U16_MAX : Z := 65535.
Definition U32_MAX : Z := 4294967295.

(** A buffer, a slice or an owned byte string: its bytes in order. *)
Abbreviation bytes := (list Z).

(** [len] is Rust's [usize] length. *)
Definition len {A} (l : list A) : Z := Z.of_nat (length l).

(** ** Outcomes

    A Rust call returns [Ok] or [Err], panics, or does not return. *)

Inductive outcome (E A : Type) : Type :=
| Ok (a : A)
| Err (e : E)
| Panic
| Diverged.
Arguments Ok {E A} a.
Arguments Err {E A} e.
Arguments Panic {E A}.
Arguments Diverged {E A}.

Definition returns {E A} (o : outcome E A) : Prop :=
  match o with Ok _ | Err _ => True | Panic | Diverged => False end.

Definition map_err {E F A} (f : E -> F) (o : outcome E A) : outcome F A :=
  match o with
  | Ok a => Ok a | Err e => Err (f e) | Panic => Panic | Diverged => Diverged
  end.

(** ** The buffer monad

    Code that reads from a [&mut Bytes] or writes to a [&mut BytesMut]:
    the buffer is threaded through, and keeps its contents on an error. *)

Definition io (E A : Type) : Type := bytes -> outcome E A * bytes.

Definition ret {E A} (a : A) : io E A := fun s => (Ok a, s).
Definition throw {E A} (e : E) : io E A := fun s => (Err e, s).
Definition panic {E A} : io E A := fun s => (Panic, s).
Definition diverge {E A} : io E A := fun s => (Diverged, s).
Definition get_state {E} : io E bytes := fun s => (Ok s, s).

Definition bind {E A B} (m : io E A) (k : A -> io E B) : io E B := fun s =>
  match m s with
  | (Ok a, s') => k a s'
  | (Err e, s') => (Err e, s')
  | (Panic, s') => (Panic, s')
  | (Diverged, s') => (Diverged, s')
  end.

Declare Scope io_scope.
Delimit Scope io_scope with io.
Notation "'let!' x ':=' m 'in' k" := (bind m (fun x => k))
  (at level 10, x pattern, m at level 100, k at level 200,
   format "'[v' 'let!'  x  ':='  m  'in' '/' k ']'") : io_scope.
Notation "m ';;;' k" := (bind m (fun _ => k))
  (at level 199, right associativity) : io_scope.
Open Scope io_scope.

(** [r?] on a plain result. *)
Definition lift {E A} (o : outcome E A) : io E A := fun s => (o, s).

(** [ensure!(cond, e)]. *)
Definition ensure {E} (c : bool) (e : E) : io E unit := if c then ret tt else throw e.

(** [while src.has_remaining() { st = body(st)? }]: one unit of fuel per
    iteration. The callers pass the length of the buffer, which is enough
    when each iteration consumes a byte ([wp_while_remaining]). *)
Fixpoint while_remaining {E S} (fuel : nat) (body : S -> io E S) (st : S) : io E S :=
  fun s =>
    match s with
    | [] => (Ok st, s)
    | _ :: _ =>
        match fuel with
        | O => (Diverged, s)
        | Datatypes.S n => bind (body st) (while_remaining n body) s
        end
    end.

(** [for x in l { f(x)? }]. *)
Fixpoint for_each {E A} (f : A -> io E unit) (l : list A) : io E unit :=
  match l with
  | [] => ret tt
  | x :: l' => f x ;;; for_each f l'
  end.

(** [l.iter().map(f).collect::<Result<Vec<_>, _>>()]: stops at the first error. *)
Fixpoint try_collect {E A B} (f : A -> outcome E B) (l : list A) : outcome E (list B) :=
  match l with
  | [] => Ok []
  | x :: l' =>
      match f x with
      | Ok y =>
          match try_collect f l' with
          | Ok ys => Ok (y :: ys)
          | Err e => Err e | Panic => Panic | Diverged => Diverged
          end
      | Err e => Err e | Panic => Panic | Diverged => Diverged
      end
  end.

(** ** Three judgements on buffer code *)

(** [m] returns [a] and appends exactly [w] to the buffer. *)
Definition writes {E A} (m : io E A) (w : bytes) (a : A) : Prop :=
  forall s, m s = (Ok a, s ++ w).

(** [m] consumes exactly [w], whatever follows it, and returns [a]. *)
Definition reads {E A} (m : io E A) (w : bytes) (a : A) : Prop :=
  forall s, m (w ++ s) = (Ok a, s).

(** On a buffer that holds exactly [w], [m] returns [a] and leaves nothing. *)
Definition reads_all {E A} (m : io E A) (w : bytes) (a : A) : Prop := m w = (Ok a, []).

(** On the buffer [s], [m] neither panics nor diverges, and a result
    satisfies [Q]. *)
Definition wp {E A} (m : io E A) (s : bytes) (Q : A -> bytes -> Prop) : Prop :=
  match m s with
  | (Ok a, s') => Q a s'
  | (Err _, _) => True
  | (Panic, _) | (Diverged, _) => False
  end.

Section judgements.
Context {E : Type}.

Lemma writes_ret {A} (a : A) : writes (E := E) (ret a) [] a.
Proof. intros s. by rewrite app_nil_r. Qed.

Lemma writes_bind {A B} (m : io E A) (k : A -> io E B) w1 w2 a b :
  writes m w1 a -> writes (k a) w2 b -> writes (bind m k) (w1 ++ w2) b.
Proof. intros H1 H2 s. unfold bind. by rewrite H1, H2, app_assoc. Qed.

Lemma writes_last {A B} (m : io E A) (k : A -> io E B) w a b :
  writes m w a -> writes (k a) [] b -> writes (bind m k) w b.
Proof. intros H1 H2. rewrite <- (app_nil_r w). by eapply writes_bind. Qed.

Lemma writes_ensure {A} c (e : E) (m : io E A) w a :
  c = true -> writes m w a -> writes (ensure c e ;;; m) w a.
Proof. by intros ->. Qed.

Lemma writes_for_each {A} (f : A -> io E unit) (w : A -> bytes) l :
  (forall x, x ∈ l -> writes (f x) (w x) tt) ->
  writes (for_each f l) (concat (w <$> l)) tt.
Proof.
  induction l as [|x l IH]; intros H; simpl; [apply writes_ret|].
  eapply writes_bind; [apply H, list_elem_of_here|].
  apply IH. intros y Hy. by apply H, list_elem_of_further.
Qed.

Lemma reads_ret {A} (a : A) : reads (E := E) (ret a) [] a.
Proof. done. Qed.

Lemma reads_bind {A B} (m : io E A) (k : A -> io E B) w1 w2 a b :
  reads m w1 a -> reads (k a) w2 b -> reads (bind m k) (w1 ++ w2) b.
Proof. intros H1 H2 s. unfold bind. by rewrite <- app_assoc, H1, H2. Qed.

Lemma reads_last {A B} (m : io E A) (k : A -> io E B) w a b :
  reads m w a -> reads (k a) [] b -> reads (bind m k) w b.
Proof. intros H1 H2. rewrite <- (app_nil_r w). by eapply reads_bind. Qed.

(** A step that leaves the buffer alone. *)
Lemma reads_bind_pure {A B} (m : io E A) (k : A -> io E B) w a b :
  reads m [] a -> reads (k a) w b -> reads (bind m k) w b.
Proof. intros H1 H2. by apply (reads_bind m k [] w a b). Qed.

Lemma reads_ensure {A} c (e : E) (m : io E A) w a :
  c = true -> reads m w a -> reads (ensure c e ;;; m) w a.
Proof. by intros ->. Qed.

Lemma reads_all_intro {A} (m : io E A) w a : reads m w a -> reads_all m w a.
Proof. intros H. unfold reads_all. rewrite <- (app_nil_r w). apply H. Qed.

Lemma reads_all_bind {A B} (m : io E A) (k : A -> io E B) w1 w2 a b :
  reads m w1 a -> reads_all (k a) w2 b -> reads_all (bind m k) (w1 ++ w2) b.
Proof. intros H1 H2. unfold reads_all, bind. by rewrite H1. Qed.

Lemma reads_all_bind_pure {A B} (m : io E A) (k : A -> io E B) w a b :
  reads m [] a -> reads_all (k a) w b -> reads_all (bind m k) w b.
Proof. intros H1 H2. by apply (reads_all_bind m k [] w a b). Qed.

Lemma reads_all_last {A B} (m : io E A) (k : A -> io E B) w a b :
  reads_all m w a -> reads_all (k a) [] b -> reads_all (bind m k) w b.
Proof. intros H1 H2. unfold reads_all, bind. by rewrite H1. Qed.

Lemma reads_all_ret {A} (a : A) : reads_all (E := E) (ret a) [] a.
Proof. done. Qed.

Lemma wp_mono {A} (m : io E A) s (Q Q' : A -> bytes -> Prop) :
  (forall a s', Q a s' -> Q' a s') -> wp m s Q -> wp m s Q'.
Proof. unfold wp. intros HQ. destruct (m s) as [[] ?]; naive_solver. Qed.

Lemma wp_ret {A} (a : A) s (Q : A -> bytes -> Prop) : Q a s -> wp (E := E) (ret a) s Q.
Proof. done. Qed.

Lemma wp_throw {A} (e : E) s (Q : A -> bytes -> Prop) : wp (throw e) s Q.
Proof. done. Qed.

Lemma wp_bind {A B} (m : io E A) (k : A -> io E B) s Q :
  wp m s (fun a s' => wp (k a) s' Q) -> wp (bind m k) s Q.
Proof. unfold wp, bind. by destruct (m s) as [[] ?]. Qed.

Lemma wp_ensure c (e : E) s (Q : unit -> bytes -> Prop) :
  (c = true -> Q tt s) -> wp (ensure c e) s Q.
Proof. destruct c; unfold wp; simpl; auto. Qed.

Lemma wp_get_state s (Q : bytes -> bytes -> Prop) : Q s s -> wp (E := E) get_state s Q.
Proof. done. Qed.

Lemma wp_lift {A} (o : outcome E A) s (Q : A -> bytes -> Prop) :
  returns o -> (forall a, o = Ok a -> Q a s) -> wp (lift o) s Q.
Proof. unfold wp, lift. destruct o; simpl; auto. Qed.

Lemma wp_returns {A} (m : io E A) s Q : wp m s Q -> returns (fst (m s)).
Proof. unfold wp. by destruct (m s) as [[] ?]. Qed.

Lemma while_remaining_step {S} fuel (body : S -> io E S) st s :
  s <> [] ->
  while_remaining (Datatypes.S fuel) body st s =
    bind (body st) (while_remaining fuel body) s.
Proof. by destruct s. Qed.

(** The loop terminates without a panic, and keeps the invariant [I],
    when the body does and consumes at least one byte. *)
Lemma wp_while_remaining {S} (I : S -> bytes -> Prop) (body : S -> io E S) fuel st s :
  (forall st s, s <> [] -> I st s ->
     wp (body st) s (fun st' s' => I st' s' /\ (length s' < length s)%nat)) ->
  I st s -> (length s <= fuel)%nat ->
  wp (while_remaining fuel body st) s (fun st' s' => I st' s' /\ s' = []).
Proof.
  intros Hbody. revert st s.
  induction fuel as [|fuel IH]; intros st [|b s] HI Hf; simpl in Hf; try lia;
    try by (unfold wp; simpl).
  unfold wp. rewrite while_remaining_step by done.
  apply wp_bind. eapply wp_mono; [|by apply Hbody].
  intros st' s' [HI' Hlt]. apply IH; [done|]. simpl in *. lia.
Qed.

(** A loop that reads the items [l], laid out one after the other. *)
Lemma reads_while_remaining {S A} (body : S -> io E S) (w : A -> bytes)
    (upd : A -> S -> S) (l : list A) fuel st :
  (forall x, x ∈ l -> w x <> [] /\ forall st, reads (body st) (w x) (upd x st)) ->
  (length l <= fuel)%nat ->
  reads_all (while_remaining fuel body st) (concat (w <$> l))
    (foldl (fun st x => upd x st) st l).
Proof.
  unfold reads_all.
  revert fuel st. induction l as [|x l IH]; intros fuel st Hl Hf; simpl in *.
  - by destruct fuel.
  - destruct fuel as [|fuel]; [lia|].
    destruct (Hl x) as [Hne Hx]; [apply list_elem_of_here|].
    rewrite while_remaining_step by (by intros [? _]%app_nil).
    unfold bind. rewrite Hx.
    apply IH; [|lia]. intros y Hy. by apply Hl, list_elem_of_further.
Qed.
End judgements.

(** ** Lists *)

(** Pushing at the end, one by one, rebuilds the list. *)
Lemma foldl_snoc {A B} (f : A -> B) (l : list A) (acc : list B) :
  foldl (fun acc x => acc ++ [f x]) acc l = acc ++ (f <$> l).
Proof.
  revert acc. induction l as [|x l IH]; intros acc; simpl; [by rewrite app_nil_r|].
  by rewrite IH, <- app_assoc.
Qed.

Lemma concat_fmap_cons {A B} (w : A -> list B) x l :
  concat (w <$> x :: l) = w x ++ concat (w <$> l).
Proof. done. Qed.

Lemma length_concat_ge {A} (w : A -> bytes) (l : list A) :
  (forall x, x ∈ l -> w x <> []) -> (length l <= length (concat (w <$> l)))%nat.
Proof.
  induction l as [|x l IH]; intros H; csimpl; [lia|]. rewrite length_app.
  specialize (IH (fun y Hy => H y (list_elem_of_further _ _ _ Hy))).
  destruct (w x) eqn:Hx; [by destruct (H x); [apply list_elem_of_here|]|]. simpl. lia.
Qed.

Lemma try_collect_fmap {E A B} (f : B -> A) (g : A -> outcome E B) l :
  (forall x, x ∈ l -> g (f x) = Ok x) -> try_collect g (f <$> l) = Ok l.
Proof.
  induction l as [|x l IH]; intros H; csimpl; [done|].
  rewrite H by apply list_elem_of_here.
  rewrite IH; [done|]. intros y Hy. by apply H, list_elem_of_further.
Qed.

Lemma try_collect_returns {E A B} (g : A -> outcome E B) l :
  (forall x, returns (g x)) -> returns (try_collect g l).
Proof.
  intros H. induction l as [|x l IH]; simpl; [done|].
  specialize (H x). destruct (g x); try done. by destruct (try_collect g l).
Qed.

(** A sum folded from the left is the sum folded from the right. *)
Lemma foldl_add {A} (f : A -> Z) (g : Z -> A -> Z) (l : list A) (acc : Z) :
  (forall acc x, g acc x = acc + f x) ->
  foldl g acc l = acc + foldr (fun x z => f x + z) 0 l.
Proof.
  intros Hg. revert acc. induction l as [|x l IH]; intros acc; simpl; [lia|].
  rewrite IH, Hg. lia.
Qed.

(** ** Folds over the entries of a map *)

Section map_folds.
Context {K : Type} `{Countable K} {A : Type}.

Definition map_sum (f : A -> nat) (m : gmap K A) : nat :=
  map_fold (fun _ a acc => (f a + acc)%nat) 0%nat m.

Definition map_concat {B} (f : K -> A -> list B) (m : gmap K A) : list B :=
  map_fold (fun k a acc => f k a ++ acc) [] m.

Lemma map_sum_delete f (m : gmap K A) k a :
  m !! k = Some a -> map_sum f m = (f a + map_sum f (delete k m))%nat.
Proof.
  intros Ha. unfold map_sum.
  apply (map_fold_delete_L (fun _ a acc => (f a + acc)%nat) 0%nat k a m); [|done]. intros. lia.
Qed.

Lemma map_sum_insert f (m : gmap K A) k a :
  (map_sum f (<[k := a]> m) + from_option f 0 (m !! k) = f a + map_sum f m)%nat.
Proof.
  rewrite (map_sum_delete f (<[k := a]> m) k a) by apply lookup_insert_eq.
  rewrite delete_insert_eq. destruct (m !! k) as [d|] eqn:Hd; simpl.
  - rewrite (map_sum_delete f m k d) by done. lia.
  - rewrite delete_id by done. lia.
Qed.

Lemma map_sum_insert_new f (m : gmap K A) k a :
  m !! k = None -> map_sum f (<[k := a]> m) = (f a + map_sum f m)%nat.
Proof. intros Hk. pose proof (map_sum_insert f m k a) as Hs. rewrite Hk in Hs. simpl in Hs. lia. Qed.

Lemma map_concat_ext {B} (f g : K -> A -> list B) (m : gmap K A) :
  (forall k a, f k a = g k a) -> map_concat f m = map_concat g m.
Proof.
  intros Hfg. unfold map_concat. rewrite !map_fold_foldr.
  induction (map_to_list m) as [|[k a] l IH]; [done|]. simpl. by rewrite Hfg, IH.
Qed.

Lemma length_map_concat {B} (f : K -> A -> list B) (g : A -> nat) (m : gmap K A) :
  (forall k a, m !! k = Some a -> length (f k a) = g a) -> length (map_concat f m) = map_sum g m.
Proof.
  unfold map_concat, map_sum. rewrite !map_fold_foldr. intros Hm.
  assert (Hl : forall k a, (k, a) ∈ map_to_list m -> length (f k a) = g a).
  { intros k a Hin%elem_of_map_to_list. by apply Hm. }
  clear Hm. revert Hl. induction (map_to_list m) as [|[k a] es IH]; intros Hl; [done|]. simpl.
  rewrite length_app, IH, (Hl k a); [done|apply list_elem_of_here|].
  intros k' a' Hin. by apply Hl, list_elem_of_further.
Qed.

Lemma elem_of_map_concat {B} (f : K -> A -> list B) (m : gmap K A) (x : B) :
  x ∈ map_concat f m <-> exists k a, m !! k = Some a /\ x ∈ f k a.
Proof.
  unfold map_concat.
  apply (map_fold_weak_ind (fun r m => x ∈ r <-> exists k a, m !! k = Some a /\ x ∈ f k a)).
  - split; [by intros ?%not_elem_of_nil|]. intros (k & a & Hk & _). by rewrite lookup_empty in Hk.
  - intros k a m' r Hk IH. rewrite elem_of_app, IH. split.
    + intros [Hx|(k' & a' & Hk' & Hx)].
      * exists k, a. by rewrite lookup_insert_eq.
      * exists k', a'. rewrite lookup_insert_ne by congruence. done.
    + intros (k' & a' & [[<- <-]|[Hne Hk']]%lookup_insert_Some & Hx); [by left|].
      right. by eauto.
Qed.

Lemma map_concat_keyed {B C} (g : B -> C) (f : K -> A -> list B) (m : gmap K A) :
  (forall k a, m !! k = Some a -> NoDup (g <$> f k a)) ->
  (forall k k' a a' x, m !! k = Some a -> m !! k' = Some a' ->
     x ∈ g <$> f k a -> x ∈ g <$> f k' a' -> k = k') ->
  NoDup (g <$> map_concat f m) /\
  (forall x, x ∈ g <$> map_concat f m -> exists k a, m !! k = Some a /\ x ∈ g <$> f k a).
Proof.
  unfold map_concat.
  apply (map_fold_weak_ind (fun r m =>
    (forall k a, m !! k = Some a -> NoDup (g <$> f k a)) ->
    (forall k k' a a' x, m !! k = Some a -> m !! k' = Some a' ->
       x ∈ g <$> f k a -> x ∈ g <$> f k' a' -> k = k') ->
    NoDup (g <$> r) /\
    (forall x, x ∈ g <$> r -> exists k a, m !! k = Some a /\ x ∈ g <$> f k a))).
  - intros _ _. split; [constructor|]. by intros x ?%not_elem_of_nil.
  - intros k a m' r Hk IH Hn Hd. destruct IH as [IHn IHe].
    { intros k' a' Hk'. apply (Hn k' a'). by rewrite lookup_insert_ne by congruence. }
    { intros k1 k2 a1 a2 x H1 H2.
      apply Hd; by rewrite lookup_insert_ne by congruence. }
    rewrite fmap_app. split.
    + apply NoDup_app. split_and!; [apply (Hn k a), lookup_insert_eq| |done].
      intros x Hx (k' & a' & Hk' & Hx')%IHe.
      assert (k = k') as <-; [|congruence].
      apply (Hd k k' a a' x); [apply lookup_insert_eq| |done..].
      by rewrite lookup_insert_ne by congruence.
    + intros x [Hx|(k' & a' & Hk' & Hx)%IHe]%elem_of_app.
      * exists k, a. by rewrite lookup_insert_eq.
      * exists k', a'. by rewrite lookup_insert_ne by congruence.
Qed.
End map_folds.
