(* ===== verification/CodecTypes.v ===== *)
(** * Shared codec types: [codec/types.rs] and [codec/error.rs]

    The error enumerations of the codec, the protocol constants, [QoS],
    the [ConnectFlags]/[ConnectAckFlags] bit sets and the packet type
    bytes. *)

From stdpp Require Import prelude list strings.
From Stdlib Require Import ZArith Lia.
From S2P Require Import Prelude.

Local Open Scope Z_scope.

(** ** Errors *)

Inductive DecodeError : Type :=
| InvalidProtocol
| InvalidLength
| MalformedPacket
| UnsupportedProtocolLevel
| ConnectReservedFlagSet
| ConnAckReservedFlagSet
| InvalidClientId
| UnsupportedPacketType
| PacketIdRequired
| MaxSizeExceeded (size max : Z)
| Utf8Error
| Io (msg : bytes).

#[global] Instance DecodeError_eq_dec : EqDecision DecodeError.
Proof. solve_decision. Defined.

Module EncodeError.
Inductive t : Type :=
| OverMaxPacketSize (size max : Z)
| InvalidLength
| MalformedPacket
| PacketIdRequired
| UnsupportedVersion
| Io (msg : bytes).

#[global] Instance eq_dec : EqDecision t.
Proof. solve_decision. Defined.
End EncodeError.
Abbreviation EncodeError := EncodeError.t.

(** ** Protocol *)

Definition bytes_of_string (s : string) : bytes :=
  (fun a => Z.of_N (Ascii.N_of_ascii a)) <$> String.list_ascii_of_string s.

Definition MQTT : bytes := [77; 81; 84; 84].
Definition MQISDP : bytes := [77; 81; 73; 115; 100; 112].
Definition MQTT_LEVEL_31 : Z := 3.
Definition MQTT_LEVEL_311 : Z := 4.
Definition MQTT_LEVEL_5 : Z := 5.
Definition WILL_QOS_SHIFT : Z := 3.
Definition MAX_PACKET_SIZE : Z := 268435455.

(** [Protocol(pub u8)], by its level. *)
Definition Protocol_name (level : Z) : bytes :=
  if level =? MQTT_LEVEL_311 then MQTT
  else if level =? MQTT_LEVEL_31 then MQISDP
  else if level =? MQTT_LEVEL_5 then MQTT
  else MQTT.

Definition Protocol_default : Z := MQTT_LEVEL_311.

(** ** Quality of service *)

Inductive QoS : Type := AtMostOnce | AtLeastOnce | ExactlyOnce.

#[global] Instance QoS_eq_dec : EqDecision QoS.
Proof. solve_decision. Defined.

Definition QoS_try_from (v : Z) : outcome DecodeError QoS :=
  match v with
  | 0 => Ok AtMostOnce
  | 1 => Ok AtLeastOnce
  | 2 => Ok ExactlyOnce
  | _ => Err MalformedPacket
  end.

Definition QoS_value (q : QoS) : Z :=
  match q with AtMostOnce => 0 | AtLeastOnce => 1 | ExactlyOnce => 2 end.

Definition QoS_less_value (self qos : QoS) : QoS :=
  if QoS_value self <? QoS_value qos then self else qos.

(** ** Bit flags *)

Module ConnectFlags.
Definition USERNAME : Z := 128.
Definition PASSWORD : Z := 64.
Definition WILL_RETAIN : Z := 32.
Definition WILL_QOS : Z := 24.
Definition WILL : Z := 4.
Definition CLEAN_START : Z := 2.

(** All the declared bits: bit 0 is reserved. *)
Definition all : Z := 254.

(** [ConnectFlags::from_bits]: [None] when an undeclared bit is set. *)
Definition from_bits (b : Z) : option Z :=
  if Z.land b all =? b then Some b else None.

Definition from_bits_truncate (b : Z) : Z := Z.land b all.

Definition contains (flags f : Z) : bool := Z.land flags f =? f.
End ConnectFlags.

Module ConnectAckFlags.
Definition SESSION_PRESENT : Z := 1.
Definition all : Z := 1.

Definition from_bits (b : Z) : option Z :=
  if Z.land b all =? b then Some b else None.

Definition contains (flags f : Z) : bool := Z.land flags f =? f.
End ConnectAckFlags.

(** ** Packet types *)

Module packet_type.
Definition CONNECT : Z := 16.
Definition CONNACK : Z := 32.
Definition PUBLISH_START : Z := 48.
Definition PUBLISH_END : Z := 63.
Definition PUBACK : Z := 64.
Definition PUBREC : Z := 80.
Definition PUBREL : Z := 98.
Definition PUBCOMP : Z := 112.
Definition SUBSCRIBE : Z := 130.
Definition SUBACK : Z := 144.
Definition UNSUBSCRIBE : Z := 162.
Definition UNSUBACK : Z := 176.
Definition PINGREQ : Z := 192.
Definition PINGRESP : Z := 208.
Definition DISCONNECT : Z := 224.
Definition AUTH : Z := 240.
End packet_type.

Record FixedHeader : Type := mkFixedHeader {
  first_byte : Z;
  remaining_length : Z;
}.

(** ** Publish messages, shared by both protocol versions *)

Record PublishProperties : Type := mkPublishProperties {
  topic_alias : option Z;
  correlation_data : option bytes;
  message_expiry_interval : option Z;
  content_type : option bytes;
  user_properties : list (bytes * bytes);
  is_utf8_payload : bool;
  response_topic : option bytes;
  subscription_ids : list Z;
}.

Record Publish : Type := mkPublish {
  dup : bool;
  retain : bool;
  qos : QoS;
  topic : bytes;
  packet_id : option Z;
  payload : bytes;
  properties : option PublishProperties;
}.

(** [codec/cert.rs]: what the TLS layer reports of the peer. *)
Record CertInfo : Type := mkCertInfo {
  common_name : option bytes;
  subject : bytes;
  serial : option bytes;
  organization : option bytes;
}.

(** ** Facts *)

Lemma QoS_try_from_value q : QoS_try_from (QoS_value q) = Ok q.
Proof. by destruct q. Qed.

Lemma QoS_value_bounds q : 0 <= QoS_value q <= 2.
Proof. destruct q; simpl; lia. Qed.

Lemma QoS_try_from_returns v : returns (QoS_try_from v).
Proof. unfold QoS_try_from. by repeat case_match. Qed.

(** A bounded quantifier over bytes, by evaluation. *)
Definition forall_u8 (p : Z -> bool) : bool :=
  forallb p (Z.of_nat <$> seq 0 256).

Lemma forall_u8_spec p b : forall_u8 p = true -> u8 b -> p b = true.
Proof.
  unfold forall_u8. rewrite forallb_forall. intros H [Hb0 Hb1]. apply H.
  rewrite <- list_elem_of_In. apply list_elem_of_fmap. exists (Z.to_nat b).
  split; [lia|]. apply elem_of_seq. simpl in Hb1. lia.
Qed.

(** [enumerate_u8 b p H]: [p b = true] as [H], from evaluating [p] on the
    256 bytes; the range of [b] is left as the first goal. *)
Ltac enumerate_u8 b p H :=
  assert (H : forall_u8 p = true) by reflexivity;
  apply (forall_u8_spec p b) in H; [cbv beta in H | ..]; swap 1 2.
