(* ===== verification/CodecUtils.v ===== *)
(** * Wire primitives: [codec/utils.rs]

    The [Buf]/[BufMut] reads and writes the codec uses, the [Decode] and
    [Encode] implementations of the primitive types, the variable length
    integer and [take_properties]. The two traits are the record [Wire];
    the class [WireOk] states what an implementation promises to the
    packet codecs that call it. *)

From stdpp Require Import prelude list.
From Stdlib Require Import ZArith Lia.
From S2P Require Import Prelude CodecTypes.

Local Open Scope Z_scope.

(** ** Buffer operations

    [Bytes]/[BytesMut]/[Cursor] reads: they panic past the end. *)

Definition get_u8 {E} : io E Z := fun s =>
  match s with
  | b :: s' => (Ok b, s')
  | [] => (Panic, s)
  end.

Definition get_u16 {E} : io E Z := fun s =>
  match s with
  | b1 :: b0 :: s' => (Ok (b1 * 256 + b0), s')
  | _ => (Panic, s)
  end.

Definition get_u32 {E} : io E Z := fun s =>
  match s with
  | b3 :: b2 :: b1 :: b0 :: s' =>
      (Ok (((b3 * 256 + b2) * 256 + b1) * 256 + b0), s')
  | _ => (Panic, s)
  end.

Definition advance {E} (n : Z) : io E unit := fun s =>
  if n <=? len s then (Ok tt, drop (Z.to_nat n) s) else (Panic, s).

Definition split_to {E} (n : Z) : io E bytes := fun s =>
  if n <=? len s then (Ok (take (Z.to_nat n) s), drop (Z.to_nat n) s) else (Panic, s).

(** [src.split_off(0)], or taking [src] itself. *)
Definition take_rest {E} : io E bytes := fun s => (Ok s, []).

(** [ensure!(src.remaining() >= n, e)]. *)
Definition ensure_remaining {E} (n : Z) (e : E) : io E unit := fun s =>
  ensure (n <=? len s) e s.

(** [ensure!(!src.has_remaining(), e)]. *)
Definition ensure_empty {E} (e : E) : io E unit := fun s =>
  ensure (len s =? 0) e s.

(** Run [m] on a buffer split off from the one at hand. *)
Definition run_on {E A} (buf : bytes) (m : io E A) : io E A := fun s =>
  (fst (m buf), s).

Definition put_slice {E} (w : bytes) : io E unit := fun s => (Ok tt, s ++ w).
Definition put_u8 {E} (b : Z) : io E unit := put_slice [b].
Definition put_u16 {E} (v : Z) : io E unit :=
  put_slice [wrap 8 (Z.shiftr v 8); wrap 8 v].
Definition put_u32 {E} (v : Z) : io E unit :=
  put_slice [wrap 8 (Z.shiftr v 24); wrap 8 (Z.shiftr v 16);
             wrap 8 (Z.shiftr v 8); wrap 8 v].

(** ** UTF-8

    [str::from_utf8], which [ByteString::try_from] runs: the well-formed
    byte sequences of the Unicode standard (no overlong forms, no
    surrogates, nothing above U+10FFFF). *)

Definition between (lo b hi : Z) : bool := (lo <=? b) && (b <=? hi).
Definition utf8_cont (b : Z) : bool := between 128 b 191.

Definition utf8_second_ok (b0 b1 : Z) : bool :=
  if b0 =? 224 then between 160 b1 191
  else if b0 =? 237 then between 128 b1 159
  else if b0 =? 240 then between 144 b1 191
  else if b0 =? 244 then between 128 b1 143
  else utf8_cont b1.

Fixpoint from_utf8 (s : bytes) : bool :=
  match s with
  | [] => true
  | b0 :: s1 =>
      if between 0 b0 127 then from_utf8 s1
      else if between 194 b0 223 then
        match s1 with
        | b1 :: s2 => utf8_cont b1 && from_utf8 s2
        | _ => false
        end
      else if between 224 b0 239 then
        match s1 with
        | b1 :: b2 :: s3 => utf8_second_ok b0 b1 && utf8_cont b2 && from_utf8 s3
        | _ => false
        end
      else if between 240 b0 244 then
        match s1 with
        | b1 :: b2 :: b3 :: s4 =>
            utf8_second_ok b0 b1 && utf8_cont b2 && utf8_cont b3 && from_utf8 s4
        | _ => false
        end
      else false
  end.

(** ** [Decode] *)

Definition bool_decode : io DecodeError bool :=
  ensure_remaining 1 InvalidLength ;;;
  let! v := get_u8 in
  ensure (v <=? 1) MalformedPacket ;;;
  ret (v =? 1).

Definition u16_decode : io DecodeError Z :=
  ensure_remaining 2 InvalidLength ;;; get_u16.

Definition u32_decode : io DecodeError Z :=
  ensure_remaining 4 InvalidLength ;;; get_u32.

(** [NonZero::new(v).ok_or(MalformedPacket)]. *)
Definition nonzero (v : Z) : outcome DecodeError Z :=
  if v =? 0 then Err MalformedPacket else Ok v.

Definition NonZeroU32_decode : io DecodeError Z :=
  let! v := u32_decode in lift (nonzero v).

Definition NonZeroU16_decode : io DecodeError Z :=
  let! v := u16_decode in lift (nonzero v).

Definition Bytes_decode : io DecodeError bytes :=
  let! n := u16_decode in
  ensure_remaining n InvalidLength ;;;
  split_to n.

Definition ByteString_decode : io DecodeError bytes :=
  let! b := Bytes_decode in
  ensure (from_utf8 b) Utf8Error ;;;
  ret b.

Definition UserProperty_decode : io DecodeError (bytes * bytes) :=
  let! key := ByteString_decode in
  let! val := ByteString_decode in
  ret (key, val).

(** ** Variable length integers *)

(** The [loop] of [decode_variable_length_cursor]. *)
Fixpoint var_len_loop (fuel : nat) (shift n : Z) : io DecodeError Z :=
  match fuel with
  | O => diverge
  | S fuel =>
      ensure_remaining 1 MalformedPacket ;;;
      let! val := get_u8 in
      let n := wrap 32 (n + wrap 32 (Z.shiftl (Z.land val 127) shift)) in
      if Z.land val 128 =? 0 then ret n
      else
        ensure (shift <? 21) InvalidLength ;;;
        var_len_loop fuel (shift + 7) n
  end.

(** Four bytes at most: the shift of a fifth one is refused. *)
Definition decode_variable_length_cursor : io DecodeError Z := var_len_loop 4 0 0.

(** [Ok(None)] when the bytes at hand are an incomplete integer. *)
Definition decode_variable_length (src : bytes) : outcome DecodeError (option (Z * Z)) :=
  match decode_variable_length_cursor src with
  | (Ok n, rest) => Ok (Some (n, len src - len rest))
  | (Err MalformedPacket, _) => Ok None
  | (Err e, _) => Err e
  | (Panic, _) => Panic
  | (Diverged, _) => Diverged
  end.

Definition take_properties : io DecodeError bytes :=
  let! n := decode_variable_length_cursor in
  ensure_remaining n InvalidLength ;;;
  split_to n.

Definition write_variable_length {E} (n : Z) : io E unit :=
  if between 0 n 127 then put_u8 (wrap 8 n)
  else if between 128 n 16383 then
    put_slice [wrap 8 (Z.lor (Z.land n 127) 128); wrap 8 (Z.shiftr n 7)]
  else if between 16384 n 2097151 then
    put_slice [wrap 8 (Z.lor (Z.land n 127) 128);
               wrap 8 (Z.lor (Z.land (Z.shiftr n 7) 127) 128);
               wrap 8 (Z.shiftr n 14)]
  else if between 2097152 n 268435455 then
    put_slice [wrap 8 (Z.lor (Z.land n 127) 128);
               wrap 8 (Z.lor (Z.land (Z.shiftr n 7) 127) 128);
               wrap 8 (Z.lor (Z.land (Z.shiftr n 14) 127) 128);
               wrap 8 (Z.shiftr n 21)]
  else panic.

(** ** [Encode] *)

Definition bool_encode (b : bool) : io EncodeError unit := put_u8 (if b then 1 else 0).
Definition u16_encode (v : Z) : io EncodeError unit := put_u16 v.
Definition u32_encode (v : Z) : io EncodeError unit := put_u32 v.

(** [&[u8]] and [Bytes] alike: a length prefix, refused above [u16::MAX]. *)
Definition Bytes_encode (b : bytes) : io EncodeError unit :=
  ensure (len b <=? U16_MAX) EncodeError.InvalidLength ;;;
  put_u16 (len b) ;;;
  put_slice b.

Definition UserProperty_encode (p : bytes * bytes) : io EncodeError unit :=
  Bytes_encode p.1 ;;; Bytes_encode p.2.

Definition Bytes_encoded_size (b : bytes) : Z := 2 + len b.

Definition UserProperty_encoded_size (p : bytes * bytes) : Z :=
  Bytes_encoded_size p.1 + Bytes_encoded_size p.2.

(** ** The traits

    [Decode] and [Encode] for one type, as a dictionary. *)

Record Wire (A : Type) : Type := mkWire {
  decode : io DecodeError A;
  encode : A -> io EncodeError unit;
  encoded_size : A -> Z;
}.
Arguments mkWire {A}.
Arguments decode {A}.
Arguments encode {A}.
Arguments encoded_size {A}.

Definition bool_wire : Wire bool := mkWire bool_decode bool_encode (fun _ => 1).
Definition u16_wire : Wire Z := mkWire u16_decode u16_encode (fun _ => 2).
Definition u32_wire : Wire Z := mkWire u32_decode u32_encode (fun _ => 4).
Definition NonZeroU16_wire : Wire Z := mkWire NonZeroU16_decode u16_encode (fun _ => 2).
Definition NonZeroU32_wire : Wire Z := mkWire NonZeroU32_decode u32_encode (fun _ => 4).
Definition Bytes_wire : Wire bytes := mkWire Bytes_decode Bytes_encode Bytes_encoded_size.
Definition ByteString_wire : Wire bytes :=
  mkWire ByteString_decode Bytes_encode Bytes_encoded_size.
Definition UserProperty_wire : Wire (bytes * bytes) :=
  mkWire UserProperty_decode UserProperty_encode UserProperty_encoded_size.

(** [Property::read_value] on an [Option<T>] field: assigned at most once. *)
Definition read_value {A} (w : Wire A) (self : option A) : io DecodeError (option A) :=
  ensure (match self with None => true | Some _ => false end) MalformedPacket ;;;
  let! v := decode w in
  ret (Some v).

(** What an implementation promises: on the values [wf] of the type (the
    ones Rust's type and the length prefix allow) it writes [image a], of
    the announced size, and reading [image a] gives [a] back; on any
    buffer of bytes it returns, never growing the buffer, with a [wf]
    value. *)
Definition u8s (s : bytes) : Prop := Forall u8 s.

Class WireOk {A} (w : Wire A) (wf : A -> Prop) (image : A -> bytes) : Prop := {
  wire_writes a : wf a -> writes (encode w a) (image a) tt;
  wire_reads a : wf a -> reads (decode w) (image a) a;
  wire_size a : wf a -> len (image a) = encoded_size w a;
  wire_nonempty a : image a <> [];
  wire_total s : u8s s ->
    wp (decode w) s (fun a s' => wf a /\ u8s s' /\ (length s' < length s)%nat);
}.

(** ** The wire format of the primitives, as a specification *)

Definition be16 (v : Z) : bytes := [v / 256; v mod 256].
Definition be32 (v : Z) : bytes :=
  [v / 16777216; v / 65536 mod 256; v / 256 mod 256; v mod 256].
Definition bool_image (b : bool) : bytes := [if b then 1 else 0].
Definition str_image (b : bytes) : bytes := be16 (len b) ++ b.
Definition pair_image (p : bytes * bytes) : bytes := str_image p.1 ++ str_image p.2.

(** Base 128, least significant digit first, the continuation bit on all
    digits but the last. *)
Fixpoint var_int_image (digits : nat) (n : Z) : bytes :=
  match digits with
  | O => [n]
  | S d => if n <? 128 then [n] else (n mod 128 + 128) :: var_int_image d (n / 128)
  end.

Arguments be16 : simpl never.
Arguments be32 : simpl never.
Arguments str_image : simpl never.
Arguments pair_image : simpl never.

Definition wf_bytes (b : bytes) : Prop := u8s b /\ len b <= U16_MAX.
Definition wf_str (b : bytes) : Prop := wf_bytes b /\ from_utf8 b = true.
Definition wf_pair (p : bytes * bytes) : Prop := wf_str p.1 /\ wf_str p.2.
Definition nz (P : Z -> Prop) (v : Z) : Prop := P v /\ v <> 0.

(** ** Bits *)

Lemma land_127 v : Z.land v 127 = v mod 128.
Proof. apply (Z.land_ones v 7). lia. Qed.

Lemma lor_128 v : 0 <= v < 128 -> Z.lor v 128 = v + 128.
Proof.
  intros Hv.
  enumerate_u8 v (fun v => implb (v <? 128) (Z.lor v 128 =? v + 128)) Hc; [unfold is_u; lia|].
  destruct (Z.ltb_spec v 128); [|lia]. by apply Z.eqb_eq in Hc.
Qed.

Lemma land_128 v : u8 v -> (Z.land v 128 =? 0) = (v <? 128).
Proof.
  intros Hv.
  enumerate_u8 v (fun v => eqb (Z.land v 128 =? 0) (v <? 128)) Hc; [done|].
  by apply eqb_prop in Hc.
Qed.

Lemma wrap_small w z : is_u w z -> wrap w z = z.
Proof. intros H. by apply Z.mod_small. Qed.

Lemma len_nonneg {A} (l : list A) : 0 <= len l.
Proof. unfold len. lia. Qed.

Lemma len_cons {A} (x : A) l : len (x :: l) = 1 + len l.
Proof. unfold len. simpl. lia. Qed.

Lemma len_app {A} (l k : list A) : len (l ++ k) = len l + len k.
Proof. unfold len. rewrite length_app. lia. Qed.

Lemma len_fmap {A B} (f : A -> B) (l : list A) : len (f <$> l) = len l.
Proof. unfold len. by rewrite length_fmap. Qed.

Lemma len_nil {A} : len (@nil A) = 0.
Proof. done. Qed.

Lemma drop_len {A} (w s : list A) : drop (Z.to_nat (len w)) (w ++ s) = s.
Proof. unfold len. by rewrite Nat2Z.id, drop_app_length. Qed.

Lemma take_len {A} (w s : list A) : take (Z.to_nat (len w)) (w ++ s) = w.
Proof. unfold len. by rewrite Nat2Z.id, take_app_length. Qed.

Lemma u8s_app s1 s2 : u8s (s1 ++ s2) <-> u8s s1 /\ u8s s2.
Proof. apply Forall_app. Qed.

Lemma u8s_drop n s : u8s s -> u8s (drop n s).
Proof. apply Forall_drop. Qed.

Lemma u8s_take n s : u8s s -> u8s (take n s).
Proof. apply Forall_take. Qed.

Create HintDb wire.
#[export] Hint Resolve u8s_drop u8s_take : wire.

(** ** Reading and writing the buffer *)

Section buffer.
Context {E : Type}.

Lemma wp_get_u8 s (Q : Z -> bytes -> Prop) :
  s <> [] -> (forall b s', s = b :: s' -> Q b s') -> wp (E := E) get_u8 s Q.
Proof. destruct s; unfold wp; simpl; auto. Qed.

Lemma wp_split_to n s (Q : bytes -> bytes -> Prop) :
  n <= len s -> Q (take (Z.to_nat n) s) (drop (Z.to_nat n) s) ->
  wp (E := E) (split_to n) s Q.
Proof.
  intros Hn HQ. unfold wp, split_to.
  by rewrite (proj2 (Z.leb_le _ _) Hn).
Qed.

Lemma wp_advance n s (Q : unit -> bytes -> Prop) :
  n <= len s -> Q tt (drop (Z.to_nat n) s) -> wp (E := E) (advance n) s Q.
Proof.
  intros Hn HQ. unfold wp, advance.
  by rewrite (proj2 (Z.leb_le _ _) Hn).
Qed.

Lemma wp_ensure_remaining n (e : E) s (Q : unit -> bytes -> Prop) :
  (n <= len s -> Q tt s) -> wp (ensure_remaining n e) s Q.
Proof.
  intros HQ. unfold wp, ensure_remaining, ensure.
  destruct (Z.leb_spec n (len s)); simpl; auto.
Qed.

Lemma wp_ensure_empty (e : E) s (Q : unit -> bytes -> Prop) :
  (s = [] -> Q tt s) -> wp (ensure_empty e) s Q.
Proof.
  intros HQ. unfold wp, ensure_empty, ensure.
  destruct s; simpl; auto.
Qed.

Lemma wp_run_on {A} buf (m : io E A) s (Q : A -> bytes -> Prop) :
  wp m buf (fun a _ => Q a s) -> wp (run_on buf m) s Q.
Proof. unfold wp, run_on. by destruct (m buf) as [[] ?]. Qed.

Lemma reads_get_u8 b : reads (E := E) get_u8 [b] b.
Proof. done. Qed.

Lemma reads_get_u16 v : reads (E := E) get_u16 (be16 v) v.
Proof.
  intros s. simpl. do 2 f_equal. rewrite Z.mul_comm. symmetry. apply Z.div_mod. lia.
Qed.

Lemma reads_get_u32 v : reads (E := E) get_u32 (be32 v) v.
Proof.
  intros s. simpl. do 2 f_equal.
  pose proof (Z.div_mod v 256 ltac:(lia)). 
  pose proof (Z.div_mod (v / 256) 256 ltac:(lia)).
  pose proof (Z.div_mod (v / 65536) 256 ltac:(lia)).
  rewrite !Z.div_div in * by lia. change (256 * 256) with 65536 in *.
  change (65536 * 256) with 16777216 in *. lia.
Qed.

Lemma reads_split_to w : reads (E := E) (split_to (len w)) w w.
Proof.
  intros s. unfold split_to. rewrite len_app.
  destruct (Z.leb_spec (len w) (len w + len s)); [|pose proof (len_nonneg s); lia].
  unfold len. by rewrite Nat2Z.id, take_app_length, drop_app_length.
Qed.

Lemma reads_advance w : reads (E := E) (advance (len w)) w tt.
Proof.
  intros s. unfold advance. rewrite len_app.
  destruct (Z.leb_spec (len w) (len w + len s)); [|pose proof (len_nonneg s); lia].
  unfold len. by rewrite Nat2Z.id, drop_app_length.
Qed.

(** The guard holds when the bytes read next are as many. *)
Lemma reads_ensure_remaining {A} n (e : E) (m : io E A) w a :
  n <= len w -> reads m w a -> reads (ensure_remaining n e ;;; m) w a.
Proof.
  intros Hn Hm s. unfold bind, ensure_remaining, ensure. rewrite len_app.
  destruct (Z.leb_spec n (len w + len s)); [apply Hm|pose proof (len_nonneg s); lia].
Qed.

Lemma writes_put_slice w : writes (E := E) (put_slice w) w tt.
Proof. done. Qed.

Lemma writes_put_u8 b : writes (E := E) (put_u8 b) [b] tt.
Proof. done. Qed.

Lemma writes_put_u16 v : u16 v -> writes (E := E) (put_u16 v) (be16 v) tt.
Proof.
  intros [H0 H1] s. unfold put_u16, put_slice, be16.
  rewrite Z.shiftr_div_pow2 by lia. change (2 ^ 8) with 256.
  rewrite (wrap_small 8 (v / 256)); [done|].
  unfold is_u in *. change (2 ^ 16) with 65536 in H1. change (2 ^ 8) with 256.
  split; [apply Z.div_pos; lia|apply Z.div_lt_upper_bound; lia].
Qed.

Lemma writes_put_u32 v : u32 v -> writes (E := E) (put_u32 v) (be32 v) tt.
Proof.
  intros [H0 H1] s. unfold put_u32, put_slice, be32.
  rewrite !Z.shiftr_div_pow2 by lia.
  change (2 ^ 24) with 16777216. change (2 ^ 16) with 65536. change (2 ^ 8) with 256.
  rewrite (wrap_small 8 (v / 16777216)); [done|].
  unfold is_u in *. change (2 ^ 32) with 4294967296 in H1. change (2 ^ 8) with 256.
  split; [apply Z.div_pos; lia|apply Z.div_lt_upper_bound; lia].
Qed.
End buffer.

(** ** Instances *)

#[export] Hint Resolve writes_put_u8 writes_put_slice : wire.

(** Symbolic execution of buffer code on an arbitrary buffer. *)
Ltac wp_step :=
  match goal with
  | |- wp (bind _ _) _ _ => apply wp_bind
  | |- wp (ret _) _ _ => apply wp_ret
  | |- wp (throw _) _ _ => apply wp_throw
  | |- wp (ensure _ _) _ _ => apply wp_ensure; intros
  | |- wp (ensure_remaining _ _) _ _ => apply wp_ensure_remaining; intros
  | |- wp (ensure_empty _) _ _ => apply wp_ensure_empty; intros
  | |- wp (run_on _ _) _ _ => apply wp_run_on
  | |- wp (if ?c then _ else _) _ _ => destruct c eqn:?
  end.
Ltac wp_go := repeat wp_step.

Lemma wp_u16_decode s :
  u8s s -> wp u16_decode s (fun v s' => u16 v /\ u8s s' /\ length s = (2 + length s')%nat).
Proof.
  intros Hs. unfold u16_decode. wp_go.
  destruct s as [|b1 [|b0 s]]; unfold len in *; simpl in *; try lia.
  unfold wp; simpl. do 2 (apply Forall_cons in Hs as [? Hs]).
  unfold is_u in *. change (2 ^ 8) with 256 in *. change (2 ^ 16) with 65536.
  split_and!; [lia..|done|done].
Qed.

Lemma wp_u32_decode s :
  u8s s -> wp u32_decode s (fun v s' => u32 v /\ u8s s' /\ length s = (4 + length s')%nat).
Proof.
  intros Hs. unfold u32_decode. wp_go.
  destruct s as [|b3 [|b2 [|b1 [|b0 s]]]]; unfold len in *; simpl in *; try lia.
  unfold wp; simpl. do 4 (apply Forall_cons in Hs as [? Hs]).
  unfold is_u in *. change (2 ^ 8) with 256 in *. change (2 ^ 32) with 4294967296.
  split_and!; [lia..|done|done].
Qed.

#[export] Instance bool_ok : WireOk bool_wire (fun _ => True) bool_image.
Proof.
  split; simpl.
  - intros a _. apply writes_put_u8.
  - intros a _. unfold bool_decode. apply reads_ensure_remaining; [done|].
    by destruct a.
  - by intros [].
  - by intros [].
  - intros s Hs. unfold bool_decode. wp_go.
    apply wp_get_u8; [by destruct s|]. intros b s' ->. wp_go.
    apply Forall_cons in Hs as [? Hs]. simpl. auto with lia.
Qed.

#[export] Instance u16_ok : WireOk u16_wire u16 be16.
Proof.
  split; simpl.
  - intros a Ha. by apply writes_put_u16.
  - intros a Ha. apply reads_ensure_remaining; [done|apply reads_get_u16].
  - done.
  - done.
  - intros s Hs. eapply wp_mono; [|by apply wp_u16_decode].
    intros a s' (? & ? & ->). split_and!; auto; lia.
Qed.

#[export] Instance u32_ok : WireOk u32_wire u32 be32.
Proof.
  split; simpl.
  - intros a Ha. by apply writes_put_u32.
  - intros a Ha. apply reads_ensure_remaining; [done|apply reads_get_u32].
  - done.
  - done.
  - intros s Hs. eapply wp_mono; [|by apply wp_u32_decode].
    intros a s' (? & ? & ->). split_and!; auto; lia.
Qed.

Lemma nonzero_ok v : v <> 0 -> nonzero v = Ok v.
Proof. intros Hv. unfold nonzero. by destruct (Z.eqb_spec v 0). Qed.

Lemma wp_nonzero v s (Q : Z -> bytes -> Prop) :
  (v <> 0 -> Q v s) -> wp (lift (nonzero v)) s Q.
Proof.
  unfold nonzero. intros HQ. destruct (Z.eqb_spec v 0); unfold wp; simpl; auto.
Qed.

Lemma reads_nonzero {A} v (k : Z -> io DecodeError A) w a :
  v <> 0 -> reads (k v) w a -> reads (let! v := lift (nonzero v) in k v) w a.
Proof. intros Hv Hk s. unfold bind, lift. rewrite nonzero_ok by done. apply Hk. Qed.

#[export] Instance NonZeroU16_ok : WireOk NonZeroU16_wire (nz u16) be16.
Proof.
  split; simpl.
  - intros a [Ha _]. by apply writes_put_u16.
  - intros a [Ha Hnz]. eapply reads_last; [by apply (wire_reads (WireOk := u16_ok))|].
    intros s. unfold lift. by rewrite nonzero_ok.
  - done.
  - done.
  - intros s Hs. apply wp_bind. eapply wp_mono; [|by apply wp_u16_decode].
    intros a s' (? & ? & ->). apply wp_nonzero. intros. split_and!; auto; [split; auto|lia].
Qed.

#[export] Instance NonZeroU32_ok : WireOk NonZeroU32_wire (nz u32) be32.
Proof.
  split; simpl.
  - intros a [Ha _]. by apply writes_put_u32.
  - intros a [Ha Hnz]. eapply reads_last; [by apply (wire_reads (WireOk := u32_ok))|].
    intros s. unfold lift. by rewrite nonzero_ok.
  - done.
  - done.
  - intros s Hs. apply wp_bind. eapply wp_mono; [|by apply wp_u32_decode].
    intros a s' (? & ? & ->). apply wp_nonzero. intros. split_and!; auto; [split; auto|lia].
Qed.

Lemma wf_bytes_u16 b : wf_bytes b -> u16 (len b).
Proof.
  intros [_ H]. pose proof (len_nonneg b). unfold is_u, U16_MAX in *.
  change (2 ^ 16) with 65536. lia.
Qed.

Lemma Bytes_encode_writes b : wf_bytes b -> writes (Bytes_encode b) (str_image b) tt.
Proof.
  intros Hb. apply writes_ensure; [by apply Z.leb_le, Hb|].
  eapply writes_bind; [by apply writes_put_u16, wf_bytes_u16|apply writes_put_slice].
Qed.

Lemma Bytes_decode_reads b : wf_bytes b -> reads Bytes_decode (str_image b) b.
Proof.
  intros Hb. unfold Bytes_decode, str_image.
  eapply reads_bind; [by apply (wire_reads (WireOk := u16_ok)), wf_bytes_u16|].
  apply reads_ensure_remaining; [done|apply reads_split_to].
Qed.

Lemma str_image_len b : len (str_image b) = 2 + len b.
Proof. unfold str_image. by rewrite len_app. Qed.

Lemma str_image_nonempty b : str_image b <> [].
Proof. done. Qed.

Lemma wp_Bytes_decode s :
  u8s s -> wp Bytes_decode s (fun b s' => wf_bytes b /\ u8s s' /\ (length s' < length s)%nat).
Proof.
  intros Hs. unfold Bytes_decode. wp_go.
  eapply wp_mono; [|by apply wp_u16_decode]. intros n s' (Hn & Hs' & Hlen). wp_go.
  apply wp_split_to; [done|]. unfold is_u in Hn. change (2 ^ 16) with 65536 in Hn.
  split_and!; [split|..]; auto with wire.
  - unfold len, U16_MAX. rewrite length_take. lia.
  - rewrite length_drop. lia.
Qed.

#[export] Instance Bytes_ok : WireOk Bytes_wire wf_bytes str_image.
Proof.
  split; simpl.
  - apply Bytes_encode_writes.
  - apply Bytes_decode_reads.
  - intros a _. apply str_image_len.
  - apply str_image_nonempty.
  - apply wp_Bytes_decode.
Qed.

#[export] Instance ByteString_ok : WireOk ByteString_wire wf_str str_image.
Proof.
  split; simpl.
  - intros a [Ha _]. by apply Bytes_encode_writes.
  - intros a [Ha Hu]. eapply reads_last; [by apply Bytes_decode_reads|].
    intros s. unfold ensure. by rewrite Hu.
  - intros a _. apply str_image_len.
  - apply str_image_nonempty.
  - intros s Hs. apply wp_bind. eapply wp_mono; [|by apply wp_Bytes_decode].
    intros b s' (? & ? & ?). wp_go. split_and!; auto. by split.
Qed.

#[export] Instance UserProperty_ok : WireOk UserProperty_wire wf_pair pair_image.
Proof.
  split; simpl.
  - intros [k v] [[Hk _] [Hv _]]. eapply writes_bind; by apply Bytes_encode_writes.
  - intros [k v] [Hk Hv].
    eapply reads_bind; [by apply (wire_reads (WireOk := ByteString_ok))|].
    eapply reads_last; [by apply (wire_reads (WireOk := ByteString_ok))|].
    apply reads_ret.
  - intros [k v] _. unfold pair_image, UserProperty_encoded_size, Bytes_encoded_size.
    by rewrite len_app, !str_image_len.
  - done.
  - intros s Hs. apply wp_bind.
    eapply wp_mono; [|by apply (wire_total (WireOk := ByteString_ok))].
    intros k s' (? & ? & ?). apply wp_bind.
    eapply wp_mono; [|by apply (wire_total (WireOk := ByteString_ok))].
    intros v s'' (? & ? & ?). apply wp_ret. split_and!; auto; [by split|lia].
Qed.

(** ** The variable length integer *)

Lemma wp_var_len_loop fuel shift n s :
  u8s s -> shift = 7 * (4 - Z.of_nat fuel) -> (0 < fuel <= 4)%nat -> is_u shift n ->
  wp (var_len_loop fuel shift n) s
    (fun v s' => is_u 28 v /\ u8s s' /\ (length s' < length s <= length s' + fuel)%nat).
Proof.
  revert shift n s. induction fuel as [|fuel IH]; intros shift n s Hs Hsh Hf Hn; [lia|].
  simpl. wp_go. apply wp_get_u8; [by destruct s|]. intros v s' ->.
  apply Forall_cons in Hs as [Hv Hs].
  rewrite land_128 by done. rewrite land_127, Z.shiftl_mul_pow2 by lia.
  pose proof (Z.mod_pos_bound v 128 ltac:(lia)) as Hm.
  assert (Hsum : is_u (shift + 7) (n + v mod 128 * 2 ^ shift)).
  { unfold is_u in *. rewrite Z.pow_add_r by lia. change (2 ^ 7) with 128. nia. }
  assert (H28 : 2 ^ (shift + 7) <= 2 ^ 28) by (apply Z.pow_le_mono_r; lia).
  assert (2 ^ 28 < 2 ^ 32) by reflexivity. assert (0 < 2 ^ shift) by lia.
  rewrite (wrap_small 32 (v mod 128 * 2 ^ shift)) by (unfold is_u in *; nia).
  rewrite wrap_small by (unfold is_u in *; lia).
  destruct (Z.ltb_spec v 128).
  - wp_go. split_and!; [unfold is_u in *; lia|done|simpl; lia..].
  - wp_go. match goal with H : (_ <? 21) = true |- _ => apply Z.ltb_lt in H end.
    eapply wp_mono; [|apply IH; [done|lia|lia|done]].
    intros v' s'' (? & ? & ?). simpl. split_and!; auto; lia.
Qed.

(** Whatever the bytes, the integer is below 2^28 and at most four bytes
    are consumed. *)
Lemma wp_decode_variable_length_cursor s :
  u8s s ->
  wp decode_variable_length_cursor s
    (fun v s' => is_u 28 v /\ u8s s' /\ (length s' < length s <= length s' + 4)%nat).
Proof. intros Hs. apply wp_var_len_loop; [done|lia|lia|done]. Qed.

Lemma var_len_loop_digit fuel shift n v s :
  u8 v -> 0 <= shift -> shift + 7 <= 28 -> is_u shift n ->
  var_len_loop (S fuel) shift n (v :: s) =
    if v <? 128 then (Ok (n + v * 2 ^ shift), s)
    else (ensure (shift <? 21) InvalidLength ;;;
          var_len_loop fuel (shift + 7) (n + (v - 128) * 2 ^ shift)) s.
Proof.
  intros Hv Hs0 Hs Hn. simpl. unfold bind at 1, ensure_remaining, ensure.
  rewrite len_cons. pose proof (len_nonneg s).
  destruct (Z.leb_spec 1 (1 + len s)); [|lia]. unfold bind at 1. simpl.
  rewrite land_128 by done. rewrite land_127, Z.shiftl_mul_pow2 by lia.
  pose proof (Z.mod_pos_bound v 128 ltac:(lia)) as Hm.
  assert (Hsum : n + v mod 128 * 2 ^ shift < 2 ^ (shift + 7)).
  { unfold is_u in *. rewrite Z.pow_add_r by lia. change (2 ^ 7) with 128. nia. }
  assert (H28 : 2 ^ (shift + 7) <= 2 ^ 28) by (apply Z.pow_le_mono_r; lia).
  assert (2 ^ 28 < 2 ^ 32) by reflexivity. assert (0 < 2 ^ shift) by lia.
  rewrite (wrap_small 32 (v mod 128 * 2 ^ shift)) by (unfold is_u in *; nia).
  rewrite wrap_small by (unfold is_u in *; lia).
  unfold is_u in Hv. change (2 ^ 8) with 256 in Hv.
  destruct (Z.ltb_spec v 128).
  - by rewrite Z.mod_small by lia.
  - replace (v mod 128) with (v - 128); [done|].
    apply (Z.mod_unique_pos v 128 1); lia.
Qed.

Lemma var_len_loop_image digits shift n acc s :
  0 <= n < 128 ^ (Z.of_nat digits + 1) ->
  0 <= shift -> shift + 7 * (Z.of_nat digits + 1) <= 28 -> is_u shift acc ->
  var_len_loop (S digits) shift acc (var_int_image digits n ++ s) =
    (Ok (acc + n * 2 ^ shift), s).
Proof.
  revert shift n acc. induction digits as [|d IH]; intros shift n acc Hn Hs0 Hs Hacc.
  - change (128 ^ (Z.of_nat 0 + 1)) with 128 in Hn. simpl app.
    rewrite var_len_loop_digit by (unfold is_u in *; lia).
    by rewrite (proj2 (Z.ltb_lt _ _)) by lia.
  - simpl var_int_image. destruct (Z.ltb_spec n 128) as [Hlt|Hge].
    + simpl app. rewrite var_len_loop_digit by (unfold is_u in *; lia).
      by rewrite (proj2 (Z.ltb_lt _ _)) by lia.
    + pose proof (Z.mod_pos_bound n 128 ltac:(lia)) as Hm.
      simpl app. rewrite var_len_loop_digit by (unfold is_u in *; lia).
      rewrite (proj2 (Z.ltb_ge _ _)) by lia.
      unfold bind, ensure. rewrite (proj2 (Z.ltb_lt shift 21)) by lia. simpl ret.
      replace (n mod 128 + 128 - 128) with (n mod 128) by lia.
      unfold ret. rewrite IH.
      * do 2 f_equal. rewrite Z.pow_add_r by lia. change (2 ^ 7) with 128.
        pose proof (Z.div_mod n 128 ltac:(lia)). nia.
      * replace (Z.of_nat (S d) + 1) with (1 + (Z.of_nat d + 1)) in Hn by lia.
        rewrite Z.pow_add_r, Z.pow_1_r in Hn by lia.
        split; [apply Z.div_pos; lia|apply Z.div_lt_upper_bound; lia].
      * lia.
      * lia.
      * unfold is_u in *. rewrite Z.pow_add_r by lia. change (2 ^ 7) with 128. nia.
Qed.

Lemma reads_var_int n :
  0 <= n <= MAX_PACKET_SIZE -> reads decode_variable_length_cursor (var_int_image 3 n) n.
Proof.
  intros Hn s. unfold decode_variable_length_cursor, MAX_PACKET_SIZE in *.
  rewrite var_len_loop_image; [by rewrite Z.mul_1_r|simpl; lia|lia|lia|done].
Qed.

Lemma shiftr_lor_digit n k :
  0 <= k -> Z.lor (Z.land (Z.shiftr n k) 127) 128 = n / 2 ^ k mod 128 + 128.
Proof.
  intros Hk. rewrite land_127, Z.shiftr_div_pow2 by done.
  apply lor_128, Z.mod_pos_bound. lia.
Qed.

Lemma writes_var_int {E} n :
  0 <= n <= MAX_PACKET_SIZE ->
  writes (E := E) (write_variable_length n) (var_int_image 3 n) tt.
Proof.
  intros Hn. unfold MAX_PACKET_SIZE, write_variable_length, between in *.
  pose proof (shiftr_lor_digit n 0 ltac:(lia)) as D0.
  rewrite Z.shiftr_0_r, Z.pow_0_r, Z.div_1_r in D0.
  rewrite D0, !shiftr_lor_digit by lia. rewrite !Z.shiftr_div_pow2 by lia.
  change (2 ^ 7) with 128. change (2 ^ 14) with (128 * 128).
  change (2 ^ 21) with (128 * 128 * 128). rewrite <- !Z.div_div by lia.
  assert (Hdiv : forall a, 0 <= a -> 0 <= a / 128 <= a)
    by (intros a Ha; split; [apply Z.div_pos|apply Z.div_le_upper_bound]; lia).
  assert (Hmod : forall a, u8 (a mod 128 + 128))
    by (intros a; pose proof (Z.mod_pos_bound a 128); unfold is_u; lia).
  rewrite !(wrap_small 8 (_ mod 128 + 128)) by apply Hmod.
  pose proof (Hdiv n). pose proof (Hdiv (n / 128)). pose proof (Hdiv (n / 128 / 128)).
  pose proof (Z.div_mod n 128 ltac:(lia)). pose proof (Z.mod_pos_bound n 128 ltac:(lia)).
  pose proof (Z.div_mod (n / 128) 128 ltac:(lia)).
  pose proof (Z.mod_pos_bound (n / 128) 128 ltac:(lia)).
  pose proof (Z.div_mod (n / 128 / 128) 128 ltac:(lia)).
  pose proof (Z.mod_pos_bound (n / 128 / 128) 128 ltac:(lia)).
  simpl var_int_image.
  destruct (Z.ltb_spec n 128).
  { rewrite (proj2 (Z.leb_le 0 n)), (proj2 (Z.leb_le n 127)) by lia. simpl.
    rewrite wrap_small by (unfold is_u; lia). apply writes_put_u8. }
  rewrite (proj2 (Z.leb_gt n 127)), andb_false_r by lia.
  rewrite (proj2 (Z.leb_le 128 n)) by lia.
  destruct (Z.ltb_spec (n / 128) 128).
  { rewrite (proj2 (Z.leb_le n 16383)) by lia. simpl.
    rewrite wrap_small by (unfold is_u; lia). apply writes_put_slice. }
  rewrite (proj2 (Z.leb_gt n 16383)), andb_false_r by lia.
  rewrite (proj2 (Z.leb_le 16384 n)) by lia.
  destruct (Z.ltb_spec (n / 128 / 128) 128).
  { rewrite (proj2 (Z.leb_le n 2097151)) by lia. simpl.
    rewrite wrap_small by (unfold is_u; lia). apply writes_put_slice. }
  rewrite (proj2 (Z.leb_gt n 2097151)), andb_false_r by lia.
  rewrite (proj2 (Z.leb_le 2097152 n)), (proj2 (Z.leb_le n 268435455)) by lia. simpl.
  rewrite wrap_small by (unfold is_u; lia). apply writes_put_slice.
Qed.

(** More bytes after the ones that decided the outcome do not change it. *)
Lemma var_len_loop_app fuel shift n s t :
  match var_len_loop fuel shift n s with
  | (Ok v, r) => var_len_loop fuel shift n (s ++ t) = (Ok v, r ++ t)
  | (Err MalformedPacket, _) => True
  | (Err e, r) => var_len_loop fuel shift n (s ++ t) = (Err e, r ++ t)
  | _ => True
  end.
Proof.
  revert shift n s. induction fuel as [|fuel IH]; intros shift n s; [done|].
  simpl. unfold bind, ensure_remaining, ensure, get_u8, ret.
  destruct s as [|v s]; simpl; [done|].
  rewrite !len_cons. pose proof (len_nonneg s). pose proof (len_nonneg (s ++ t)).
  rewrite !(proj2 (Z.leb_le _ _)) by lia.
  destruct (Z.land v 128 =? 0); [done|].
  destruct (shift <? 21); [|done]. apply IH.
Qed.

Lemma decode_variable_length_app s t :
  match decode_variable_length s with
  | Ok (Some r) => decode_variable_length (s ++ t) = Ok (Some r)
  | Err e => decode_variable_length (s ++ t) = Err e
  | _ => True
  end.
Proof.
  unfold decode_variable_length, decode_variable_length_cursor.
  pose proof (var_len_loop_app 4 0 0 s t) as H.
  destruct (var_len_loop 4 0 0 s) as [[v|[]| |] r] eqn:Hs; try done; rewrite H; try done.
  do 3 f_equal. rewrite !len_app. lia.
Qed.

(** On any bytes: incomplete, an error, or an integer below 2^28 held by
    the first one to four bytes. *)
Lemma decode_variable_length_spec s :
  u8s s ->
  match decode_variable_length s with
  | Ok None => True
  | Ok (Some (n, c)) => is_u 28 n /\ 1 <= c <= 4 /\ c <= len s
  | Err e => e = InvalidLength
  | Panic | Diverged => False
  end.
Proof.
  intros Hs. unfold decode_variable_length.
  pose proof (wp_decode_variable_length_cursor s Hs) as Hwp. unfold wp in Hwp.
  assert (Herr : forall fuel shift n s r e, var_len_loop fuel shift n s = (Err e, r) ->
                   e = MalformedPacket \/ e = InvalidLength).
  { clear. induction fuel as [|fuel IH]; intros shift n s r e; [done|].
    simpl. unfold bind, ensure_remaining, ensure, get_u8, ret.
    destruct (1 <=? len s); simpl; [|naive_solver].
    destruct s as [|v s]; [done|]. destruct (_ =? 0); [done|].
    destruct (shift <? 21); [apply IH|naive_solver]. }
  destruct (decode_variable_length_cursor s) as [[v|e| |] r] eqn:Hd; try done.
  - destruct Hwp as (? & ? & ?). unfold len. split_and!; try done; lia.
  - destruct (Herr _ _ _ _ _ _ Hd) as [-> | ->]; done.
Qed.

Lemma var_int_image_len digits n :
  1 <= len (var_int_image digits n) <= Z.of_nat digits + 1.
Proof.
  revert n. induction digits as [|d IH]; intros n; [done|].
  simpl var_int_image. destruct (n <? 128); rewrite !len_cons; [unfold len; simpl; lia|].
  specialize (IH (n / 128)). lia.
Qed.

Lemma decode_variable_length_image n s :
  0 <= n <= MAX_PACKET_SIZE ->
  decode_variable_length (var_int_image 3 n ++ s) = Ok (Some (n, len (var_int_image 3 n))).
Proof.
  intros Hn. unfold decode_variable_length. rewrite reads_var_int by done.
  do 3 f_equal. rewrite len_app. lia.
Qed.

(** [take_properties]: the block is well formed, and what follows it is
    left in the buffer. *)
Lemma wp_take_properties s :
  u8s s ->
  wp take_properties s (fun p s' => u8s p /\ u8s s' /\ (length p + length s' < length s)%nat).
Proof.
  intros Hs. unfold take_properties. wp_go.
  eapply wp_mono; [|by apply wp_decode_variable_length_cursor].
  intros n s' (Hn & Hs' & Hl). wp_go. apply wp_split_to; [done|].
  split_and!; auto with wire. rewrite length_take, length_drop. lia.
Qed.

Lemma reads_take_properties p :
  len p <= MAX_PACKET_SIZE -> reads take_properties (var_int_image 3 (len p) ++ p) p.
Proof.
  intros Hp. unfold take_properties. pose proof (len_nonneg p).
  eapply reads_bind; [by apply reads_var_int|].
  apply reads_ensure_remaining; [done|apply reads_split_to].
Qed.

(** ** Images are bytes *)

Lemma be16_u8s v : u16 v -> u8s (be16 v).
Proof.
  intros [H0 H1]. change (2 ^ 16) with 65536 in H1.
  pose proof (Z.mod_pos_bound v 256 ltac:(lia)).
  repeat constructor; unfold is_u; change (2 ^ 8) with 256; try lia.
  - apply Z.div_pos; lia.
  - apply Z.div_lt_upper_bound; lia.
Qed.

Lemma str_image_u8s b : wf_bytes b -> u8s (str_image b).
Proof.
  intros Hb. apply u8s_app. split; [by apply be16_u8s, wf_bytes_u16|apply Hb].
Qed.

Lemma var_int_image_u8s digits n :
  0 <= n < 128 ^ (Z.of_nat digits + 1) -> u8s (var_int_image digits n).
Proof.
  revert n. induction digits as [|d IH]; intros n Hn.
  - change (128 ^ (Z.of_nat 0 + 1)) with 128 in Hn.
    constructor; [unfold is_u; lia|constructor].
  - simpl var_int_image. destruct (Z.ltb_spec n 128).
    + constructor; [unfold is_u; lia|constructor].
    + pose proof (Z.mod_pos_bound n 128 ltac:(lia)).
      constructor; [unfold is_u; lia|]. apply IH.
      replace (Z.of_nat (S d) + 1) with (1 + (Z.of_nat d + 1)) in Hn by lia.
      rewrite Z.pow_add_r, Z.pow_1_r in Hn by lia.
      split; [apply Z.div_pos; lia|apply Z.div_lt_upper_bound; lia].
Qed.

Lemma u8s_concat {A} (w : A -> bytes) l :
  (forall x, x ∈ l -> u8s (w x)) -> u8s (concat (w <$> l)).
Proof.
  induction l as [|x l IH]; intros H; csimpl; [constructor|]. apply u8s_app.
  split; [apply H, list_elem_of_here|]. apply IH. intros y Hy. by apply H, list_elem_of_further.
Qed.
#[export] Hint Resolve be16_u8s str_image_u8s : wire.
