(* ===== verification/CodecV3.v ===== *)
(** * The MQTT v3.1/v3.1.1 packet codec: [codec/v3/packet.rs],
    [codec/v3/decode.rs], [codec/v3/encode.rs]

    [decode_packet] and [encode] with all the packet types they handle,
    in the buffer monad of [Prelude]. *)

From stdpp Require Import prelude list.
From Stdlib Require Import ZArith Lia.
From S2P Require Import Prelude CodecTypes CodecUtils.

Local Open Scope Z_scope.

Module V3.

(** ** Packets *)

Inductive ConnectAckReason : Type :=
| ConnectionAccepted
| UnacceptableProtocolVersion
| IdentifierRejected
| ServiceUnavailable
| BadUserNameOrPassword
| NotAuthorized
| Reserved.

Definition ConnectAckReason_try_from (v : Z) : outcome DecodeError ConnectAckReason :=
  match v with
  | 0 => Ok ConnectionAccepted
  | 1 => Ok UnacceptableProtocolVersion
  | 2 => Ok IdentifierRejected
  | 3 => Ok ServiceUnavailable
  | 4 => Ok BadUserNameOrPassword
  | 5 => Ok NotAuthorized
  | 6 => Ok Reserved
  | _ => Err MalformedPacket
  end.

Definition ConnectAckReason_to_u8 (r : ConnectAckReason) : Z :=
  match r with
  | ConnectionAccepted => 0
  | UnacceptableProtocolVersion => 1
  | IdentifierRejected => 2
  | ServiceUnavailable => 3
  | BadUserNameOrPassword => 4
  | NotAuthorized => 5
  | Reserved => 6
  end.

Record LastWill : Type := mkLastWill {
  lw_qos : QoS;
  lw_retain : bool;
  lw_topic : bytes;
  lw_message : bytes;
}.

Record Connect : Type := mkConnect {
  protocol : Z;
  clean_session : bool;
  keep_alive : Z;
  last_will : option LastWill;
  client_id : bytes;
  username : option bytes;
  password : option bytes;
  cert : option CertInfo;
}.

Record ConnectAck : Type := mkConnectAck {
  return_code : ConnectAckReason;
  session_present : bool;
}.

Inductive SubscribeReturnCode : Type :=
| Success (q : QoS)
| Failure.

Inductive Packet : Type :=
| PConnect (c : Connect)
| PConnectAck (a : ConnectAck)
| PPublish (p : Publish)
| PPublishAck (packet_id : Z)
| PPublishReceived (packet_id : Z)
| PPublishRelease (packet_id : Z)
| PPublishComplete (packet_id : Z)
| PSubscribe (packet_id : Z) (topic_filters : list (bytes * QoS))
| PSubscribeAck (packet_id : Z) (status : list SubscribeReturnCode)
| PUnsubscribe (packet_id : Z) (topic_filters : list bytes)
| PUnsubscribeAck (packet_id : Z)
| PPingRequest
| PPingResponse
| PDisconnect.

(** [Packet::packet_type]. *)
Definition packet_type_of (p : Packet) : Z :=
  match p with
  | PConnect _ => packet_type.CONNECT
  | PConnectAck _ => packet_type.CONNACK
  | PPublish _ => packet_type.PUBLISH_START
  | PPublishAck _ => packet_type.PUBACK
  | PPublishReceived _ => packet_type.PUBREC
  | PPublishRelease _ => packet_type.PUBREL
  | PPublishComplete _ => packet_type.PUBCOMP
  | PSubscribe _ _ => packet_type.SUBSCRIBE
  | PSubscribeAck _ _ => packet_type.SUBACK
  | PUnsubscribe _ _ => packet_type.UNSUBSCRIBE
  | PUnsubscribeAck _ => packet_type.UNSUBACK
  | PPingRequest => packet_type.PINGREQ
  | PPingResponse => packet_type.PINGRESP
  | PDisconnect => packet_type.DISCONNECT
  end.

(** ** Decoding *)

Definition decode_ack (f : Z -> Packet) : io DecodeError Packet :=
  let! packet_id := NonZeroU16_decode in
  ensure_empty InvalidLength ;;;
  ret (f packet_id).

(** [&src.as_ref()[0..n] == name]: panics when [src] is shorter. *)
Definition slice_eq {E} (n : Z) (name : bytes) : io E bool := fun s =>
  if n <=? len s then (Ok (bool_decide (take (Z.to_nat n) s = name)), s) else (Panic, s).

(** [a && &src[0..n] == name]: the slice is taken only when [a] holds. *)
Definition and_then {E} (a : bool) (m : io E bool) : io E bool :=
  if a then m else ret false.

Definition decode_protocol_name : io DecodeError unit :=
  let! n := get_u16 in
  let! is_mqtt := and_then (n =? 4) (slice_eq 4 MQTT) in
  if is_mqtt then advance 4
  else
    let! is_mqisdp := and_then (n =? 6) (slice_eq 6 MQISDP) in
    if is_mqisdp then advance 6 else throw InvalidProtocol.

(** [if cond { Some(decode()?) } else { None }]. *)
Definition decode_if {A} (c : bool) (m : io DecodeError A) : io DecodeError (option A) :=
  if c then let! a := m in ret (Some a) else ret None.

(** [opt.ok_or(e)?]. *)
Definition ok_or {E A} (o : option A) (e : E) : io E A :=
  match o with Some a => ret a | None => throw e end.

Definition decode_last_will (flags : Z) : io DecodeError LastWill :=
  let! topic := ByteString_decode in
  let! message := Bytes_decode in
  let! qos := lift (QoS_try_from
                      (Z.shiftr (Z.land flags ConnectFlags.WILL_QOS) WILL_QOS_SHIFT)) in
  ret (mkLastWill qos (ConnectFlags.contains flags ConnectFlags.WILL_RETAIN) topic message).

Definition decode_connect_packet : io DecodeError Packet :=
  ensure_remaining 10 InvalidLength ;;;
  decode_protocol_name ;;;
  let! level := get_u8 in
  ensure ((level =? MQTT_LEVEL_311) || (level =? MQTT_LEVEL_31)) UnsupportedProtocolLevel ;;;
  let! b := get_u8 in
  let! flags := ok_or (ConnectFlags.from_bits b) ConnectReservedFlagSet in
  let! keep_alive := u16_decode in
  let! client_id := ByteString_decode in
  ensure (negb (len client_id =? 0) || ConnectFlags.contains flags ConnectFlags.CLEAN_START)
    InvalidClientId ;;;
  let! last_will := decode_if (ConnectFlags.contains flags ConnectFlags.WILL)
                      (decode_last_will flags) in
  let! username := decode_if (ConnectFlags.contains flags ConnectFlags.USERNAME)
                     ByteString_decode in
  let! password := decode_if (ConnectFlags.contains flags ConnectFlags.PASSWORD)
                     Bytes_decode in
  ret (PConnect {|
    protocol := level;
    clean_session := ConnectFlags.contains flags ConnectFlags.CLEAN_START;
    keep_alive := keep_alive;
    last_will := last_will;
    client_id := client_id;
    username := username;
    password := password;
    cert := None |}).

Definition decode_connect_ack_packet : io DecodeError Packet :=
  ensure_remaining 2 InvalidLength ;;;
  let! b := get_u8 in
  let! flags := ok_or (ConnectAckFlags.from_bits b) ConnAckReservedFlagSet in
  let! c := get_u8 in
  let! return_code := lift (ConnectAckReason_try_from c) in
  ret (PConnectAck (mkConnectAck return_code
         (ConnectAckFlags.contains flags ConnectAckFlags.SESSION_PRESENT))).

Definition decode_publish_packet (packet_flags : Z) : io DecodeError Packet :=
  let! topic := ByteString_decode in
  let! qos := lift (QoS_try_from (Z.shiftr (Z.land packet_flags 6) 1)) in
  let! packet_id :=
    if bool_decide (qos = AtMostOnce) then ret None
    else let! id := NonZeroU16_decode in ret (Some id) in
  let! payload := take_rest in
  ret (PPublish {|
    dup := Z.land packet_flags 8 =? 8;
    retain := Z.land packet_flags 1 =? 1;
    qos := qos;
    topic := topic;
    packet_id := packet_id;
    payload := payload;
    properties := None |}).

Definition subscribe_item (acc : list (bytes * QoS)) : io DecodeError (list (bytes * QoS)) :=
  let! topic := ByteString_decode in
  ensure_remaining 1 InvalidLength ;;;
  let! b := get_u8 in
  let! qos := lift (QoS_try_from (Z.land b 3)) in
  ret (acc ++ [(topic, qos)]).

Definition decode_subscribe_packet : io DecodeError Packet :=
  let! packet_id := NonZeroU16_decode in
  let! src := get_state in
  let! topic_filters := while_remaining (length src) subscribe_item [] in
  ret (PSubscribe packet_id topic_filters).

Definition decode_return_code (code : Z) : outcome DecodeError SubscribeReturnCode :=
  if code =? 128 then Ok Failure
  else match QoS_try_from code with
       | Ok q => Ok (Success q)
       | Err e => Err e | Panic => Panic | Diverged => Diverged
       end.

Definition decode_subscribe_ack_packet : io DecodeError Packet :=
  let! packet_id := NonZeroU16_decode in
  let! src := get_state in
  let! status := lift (try_collect decode_return_code src) in
  ret (PSubscribeAck packet_id status).

Definition unsubscribe_item (acc : list bytes) : io DecodeError (list bytes) :=
  let! topic := ByteString_decode in
  ret (acc ++ [topic]).

Definition decode_unsubscribe_packet : io DecodeError Packet :=
  let! packet_id := NonZeroU16_decode in
  let! src := get_state in
  let! topic_filters := while_remaining (length src) unsubscribe_item [] in
  ret (PUnsubscribe packet_id topic_filters).

Definition decode_body (first_byte : Z) : io DecodeError Packet :=
  if first_byte =? packet_type.CONNECT then decode_connect_packet
  else if first_byte =? packet_type.CONNACK then decode_connect_ack_packet
  else if between packet_type.PUBLISH_START first_byte packet_type.PUBLISH_END then
    decode_publish_packet (Z.land first_byte 15)
  else if first_byte =? packet_type.PUBACK then decode_ack PPublishAck
  else if first_byte =? packet_type.PUBREC then decode_ack PPublishReceived
  else if first_byte =? packet_type.PUBREL then decode_ack PPublishRelease
  else if first_byte =? packet_type.PUBCOMP then decode_ack PPublishComplete
  else if first_byte =? packet_type.SUBSCRIBE then decode_subscribe_packet
  else if first_byte =? packet_type.SUBACK then decode_subscribe_ack_packet
  else if first_byte =? packet_type.UNSUBSCRIBE then decode_unsubscribe_packet
  else if first_byte =? packet_type.UNSUBACK then decode_ack PUnsubscribeAck
  else if first_byte =? packet_type.PINGREQ then ret PPingRequest
  else if first_byte =? packet_type.PINGRESP then ret PPingResponse
  else if first_byte =? packet_type.DISCONNECT then ret PDisconnect
  else throw UnsupportedPacketType.

Definition decode_packet (src : bytes) (first_byte : Z) : outcome DecodeError Packet :=
  fst (decode_body first_byte src).

(** ** Encoding *)

Definition is_qos12 (q : QoS) : bool :=
  bool_decide (q = AtLeastOnce) || bool_decide (q = ExactlyOnce).

Definition get_encoded_publish_size (p : Publish) : Z :=
  if is_qos12 (qos p) then 4 + len (topic p) + len (payload p)
  else 2 + len (topic p) + len (payload p).

Definition get_encoded_subscribe_size (topic_filters : list (bytes * QoS)) : Z :=
  2 + foldl (fun acc f => acc + 2 + len (fst f) + 1) 0 topic_filters.

Definition get_encoded_unsubscribe_size (topic_filters : list bytes) : Z :=
  2 + foldl (fun acc f => acc + 2 + len f) 0 topic_filters.

Definition opt_size (o : option bytes) : Z :=
  match o with Some s => 2 + len s | None => 0 end.

Definition get_encoded_connect_size (c : Connect) : Z :=
  1 + 1 + 2
  + (2 + len (Protocol_name (protocol c)))
  + (2 + len (client_id c))
  + match last_will c with
    | Some w => 2 + len (lw_topic w) + 2 + len (lw_message w)
    | None => 0
    end
  + opt_size (username c)
  + opt_size (password c).

Definition get_encoded_size (p : Packet) : Z :=
  match p with
  | PConnect c => get_encoded_connect_size c
  | PPublish p => get_encoded_publish_size p
  | PConnectAck _ | PPublishAck _ | PPublishReceived _ | PPublishRelease _
  | PPublishComplete _ | PUnsubscribeAck _ => 2
  | PSubscribe _ fs => get_encoded_subscribe_size fs
  | PSubscribeAck _ status => 2 + len status
  | PUnsubscribe _ fs => get_encoded_unsubscribe_size fs
  | PPingRequest | PPingResponse | PDisconnect => 0
  end.

Definition is_some {A} (o : option A) : bool :=
  match o with Some _ => true | None => false end.

Definition flag (c : bool) (f : Z) (flags : Z) : Z := if c then Z.lor flags f else flags.

(** The connect flags, set one after the other. *)
Definition connect_flags (c : Connect) : Z :=
  let flags := 0 in
  let flags := flag (is_some (username c)) ConnectFlags.USERNAME flags in
  let flags := flag (is_some (password c)) ConnectFlags.PASSWORD flags in
  let flags :=
    match last_will c with
    | Some w =>
        let flags := Z.lor flags ConnectFlags.WILL in
        let flags := flag (lw_retain w) ConnectFlags.WILL_RETAIN flags in
        Z.lor flags (ConnectFlags.from_bits_truncate
                       (wrap 8 (Z.shiftl (QoS_value (lw_qos w)) WILL_QOS_SHIFT)))
    | None => flags
    end in
  flag (clean_session c) ConnectFlags.CLEAN_START flags.

Definition encode_opt (o : option bytes) : io EncodeError unit :=
  match o with Some s => Bytes_encode s | None => ret tt end.

Definition encode_connect (c : Connect) : io EncodeError unit :=
  Bytes_encode (Protocol_name (protocol c)) ;;;
  put_slice [MQTT_LEVEL_311; connect_flags c] ;;;
  put_u16 (keep_alive c) ;;;
  Bytes_encode (client_id c) ;;;
  match last_will c with
  | Some w => Bytes_encode (lw_topic w) ;;; Bytes_encode (lw_message w)
  | None => ret tt
  end ;;;
  encode_opt (username c) ;;;
  encode_opt (password c).

Definition b2z (b : bool) : Z := if b then 1 else 0.

Definition return_code_to_u8 (s : SubscribeReturnCode) : Z :=
  match s with Success q => QoS_value q | Failure => 128 end.

Definition publish_first_byte (p : Publish) : Z :=
  Z.lor (Z.lor (Z.lor packet_type.PUBLISH_START (wrap 8 (Z.shiftl (QoS_value (qos p)) 1)))
               (wrap 8 (Z.shiftl (b2z (dup p)) 3)))
        (b2z (retain p)).

Definition encode_publish_body (p : Publish) : io EncodeError unit :=
  Bytes_encode (topic p) ;;;
  (if bool_decide (qos p = AtMostOnce) then
     ensure (negb (is_some (packet_id p))) EncodeError.MalformedPacket
   else
     let! id := ok_or (packet_id p) EncodeError.PacketIdRequired in
     u16_encode id) ;;;
  put_slice (payload p).

(** The shape all the packets share: type byte, remaining length, body. *)
Definition with_header (first_byte content_size : Z) (body : io EncodeError unit)
    : io EncodeError unit :=
  put_u8 first_byte ;;; write_variable_length content_size ;;; body.

Definition encode (packet : Packet) (content_size : Z) : io EncodeError unit :=
  match packet with
  | PConnect c => with_header packet_type.CONNECT content_size (encode_connect c)
  | PConnectAck a =>
      with_header packet_type.CONNACK content_size
        (put_slice [b2z (session_present a); ConnectAckReason_to_u8 (return_code a)])
  | PPublish p => with_header (publish_first_byte p) content_size (encode_publish_body p)
  | PPublishAck id => with_header packet_type.PUBACK content_size (u16_encode id)
  | PPublishReceived id => with_header packet_type.PUBREC content_size (u16_encode id)
  | PPublishRelease id => with_header packet_type.PUBREL content_size (u16_encode id)
  | PPublishComplete id => with_header packet_type.PUBCOMP content_size (u16_encode id)
  | PSubscribe id fs =>
      with_header packet_type.SUBSCRIBE content_size
        (u16_encode id ;;;
         for_each (fun f => Bytes_encode (fst f) ;;; put_u8 (QoS_value (snd f))) fs)
  | PSubscribeAck id status =>
      with_header packet_type.SUBACK content_size
        (u16_encode id ;;; put_slice (return_code_to_u8 <$> status))
  | PUnsubscribe id fs =>
      with_header packet_type.UNSUBSCRIBE content_size
        (u16_encode id ;;; for_each Bytes_encode fs)
  | PUnsubscribeAck id => with_header packet_type.UNSUBACK content_size (u16_encode id)
  | PPingRequest => put_slice [packet_type.PINGREQ; 0]
  | PPingResponse => put_slice [packet_type.PINGRESP; 0]
  | PDisconnect => put_slice [packet_type.DISCONNECT; 0]
  end.

End V3.
