(* ===== verification/CodecV3Proofs.v ===== *)
(** * The v3 codec against its wire format

    [packet_image] specifies the bytes of every packet; [encode] writes
    them, with the size [get_encoded_size] announces, and [decode_packet]
    reads them back. On arbitrary bytes [decode_packet] returns. *)

From stdpp Require Import prelude list strings.
From Stdlib Require Import ZArith Lia.
From S2P Require Import Prelude CodecTypes CodecUtils CodecV3.

Local Open Scope Z_scope.

Module V3Proofs.
Import V3.

(** ** Well-formed packets

    The values of the Rust types whose strings fit their length prefix,
    with the packet identifier the quality of service asks for. *)

Definition opt_wf {A} (P : A -> Prop) (o : option A) : Prop :=
  match o with Some a => P a | None => True end.

Record wf_connect (c : Connect) : Prop := {
  wfc_protocol : protocol c = MQTT_LEVEL_311 \/ protocol c = MQTT_LEVEL_31;
  wfc_keep_alive : u16 (keep_alive c);
  wfc_will : opt_wf (fun w => wf_str (lw_topic w) /\ wf_bytes (lw_message w)) (last_will c);
  wfc_client_id : wf_str (client_id c);
  wfc_clean : client_id c <> [] \/ clean_session c = true;
  wfc_username : opt_wf wf_str (username c);
  wfc_password : opt_wf wf_bytes (password c);
  wfc_cert : cert c = None;
}.

Record wf_publish (p : Publish) : Prop := {
  wfp_topic : wf_str (topic p);
  wfp_packet_id : match qos p with
                  | AtMostOnce => packet_id p = None
                  | _ => exists id, packet_id p = Some id /\ nz u16 id
                  end;
  wfp_payload : u8s (payload p);
  wfp_properties : properties p = None;
}.

Definition wf_packet (p : Packet) : Prop :=
  match p with
  | PConnect c => wf_connect c
  | PConnectAck _ => True
  | PPublish p => wf_publish p
  | PPublishAck id | PPublishReceived id | PPublishRelease id | PPublishComplete id
  | PUnsubscribeAck id => nz u16 id
  | PSubscribe id fs => nz u16 id /\ Forall (fun f => wf_str (fst f)) fs
  | PSubscribeAck id _ => nz u16 id
  | PUnsubscribe id fs => nz u16 id /\ Forall wf_str fs
  | PPingRequest | PPingResponse | PDisconnect => True
  end.

(** ** The wire format *)

Definition opt_image (o : option bytes) : bytes :=
  match o with Some s => str_image s | None => [] end.

Definition will_image (o : option LastWill) : bytes :=
  match o with Some w => str_image (lw_topic w) ++ str_image (lw_message w) | None => [] end.

Definition id_image (o : option Z) : bytes :=
  match o with Some id => be16 id | None => [] end.

Definition body_image (p : Packet) : bytes :=
  match p with
  | PConnect c =>
      str_image (Protocol_name (protocol c)) ++ [MQTT_LEVEL_311] ++ [connect_flags c]
      ++ be16 (keep_alive c) ++ str_image (client_id c) ++ will_image (last_will c)
      ++ opt_image (username c) ++ opt_image (password c)
  | PConnectAck a => [b2z (session_present a)] ++ [ConnectAckReason_to_u8 (return_code a)]
  | PPublish p => str_image (topic p) ++ id_image (packet_id p) ++ payload p
  | PPublishAck id | PPublishReceived id | PPublishRelease id | PPublishComplete id
  | PUnsubscribeAck id => be16 id
  | PSubscribe id fs =>
      be16 id ++ concat ((fun f => str_image (fst f) ++ [QoS_value (snd f)]) <$> fs)
  | PSubscribeAck id status => be16 id ++ (return_code_to_u8 <$> status)
  | PUnsubscribe id fs => be16 id ++ concat (str_image <$> fs)
  | PPingRequest | PPingResponse | PDisconnect => []
  end.

Definition first_byte_of (p : Packet) : Z :=
  match p with PPublish p => publish_first_byte p | _ => packet_type_of p end.

Definition packet_image (p : Packet) : bytes :=
  [first_byte_of p] ++ var_int_image 3 (len (body_image p)) ++ body_image p.

(** [encode_connect] always writes the level of MQTT 3.1.1. *)
Definition normalize (p : Packet) : Packet :=
  match p with
  | PConnect c => PConnect {|
      protocol := MQTT_LEVEL_311; clean_session := clean_session c;
      keep_alive := keep_alive c; last_will := last_will c; client_id := client_id c;
      username := username c; password := password c; cert := cert c |}
  | _ => p
  end.

(** ** Sizes *)

Lemma opt_image_len o : len (opt_image o) = opt_size o.
Proof. destruct o; [apply str_image_len|done]. Qed.

Lemma len_concat {A} (w : A -> bytes) (f : A -> Z) l :
  (forall x, len (w x) = f x) ->
  len (concat (w <$> l)) = foldr (fun x z => f x + z) 0 l.
Proof.
  intros H. induction l as [|x l IH]; csimpl; [done|]. by rewrite len_app, H, IH.
Qed.

Lemma connect_image_len c : len (body_image (PConnect c)) = get_encoded_connect_size c.
Proof.
  destruct c as [l ? ? w cid ? ? ?]. unfold body_image, get_encoded_connect_size.
  cbn [protocol last_will client_id username password keep_alive].
  rewrite !len_app, !opt_image_len, !str_image_len.
  destruct w; unfold will_image; rewrite ?len_app, ?str_image_len; unfold be16, len; simpl; lia.
Qed.

Lemma publish_image_len p :
  wf_publish p -> len (body_image (PPublish p)) = get_encoded_publish_size p.
Proof.
  intros [_ Hid _ _]. destruct p as [? ? q t id pl ?].
  unfold body_image, get_encoded_publish_size. cbn [qos topic packet_id payload] in *.
  rewrite !len_app, str_image_len.
  destruct q; [subst; unfold len; simpl; lia|..];
    destruct Hid as (i & -> & _); unfold is_qos12, len; simpl; lia.
Qed.

(** The announced size is the size of the body, for every packet. *)
Lemma body_image_len p : wf_packet p -> len (body_image p) = get_encoded_size p.
Proof.
  destruct p; intros Hwf; try done.
  - apply connect_image_len.
  - by apply publish_image_len.
  - cbn [body_image get_encoded_size]. unfold get_encoded_subscribe_size.
    rewrite !len_app, (len_concat _ (fun f => 2 + len (fst f) + 1)).
    + rewrite (foldl_add (fun f : bytes * QoS => 2 + len (fst f) + 1)) by (intros; lia). done.
    + intros f. rewrite len_app, str_image_len. done.
  - cbn [body_image get_encoded_size]. rewrite len_app. unfold len. by rewrite length_fmap.
  - cbn [body_image get_encoded_size]. unfold get_encoded_unsubscribe_size.
    rewrite !len_app, (len_concat _ (fun f => 2 + len f)) by apply str_image_len.
    rewrite (foldl_add (fun f : bytes => 2 + len f)) by (intros; lia). done.
Qed.

(** ** Encoding *)

#[local] Hint Resolve writes_put_u8 writes_put_slice writes_ret writes_put_u16
  Bytes_encode_writes : wire.

Lemma wf_str_bytes s : wf_str s -> wf_bytes s.
Proof. by intros [? _]. Qed.

Lemma nz_u16 v : nz u16 v -> u16 v.
Proof. by intros [? _]. Qed.

#[local] Hint Resolve wf_str_bytes nz_u16 : wire.

Lemma Protocol_name_wf l : wf_str (Protocol_name l).
Proof.
  unfold Protocol_name. repeat case_match; (split; [split|]); try done;
    repeat constructor; done.
Qed.
#[local] Hint Resolve Protocol_name_wf : wire.

Lemma encode_opt_writes o : opt_wf wf_bytes o -> writes (encode_opt o) (opt_image o) tt.
Proof. destruct o; simpl; auto with wire. Qed.

Lemma encode_connect_writes c :
  wf_connect c -> writes (encode_connect c) (body_image (PConnect c)) tt.
Proof.
  intros [_ Hk Hw Hc _ Hu Hp _]. unfold encode_connect, body_image.
  eapply writes_bind; [auto with wire|].
  rewrite (app_assoc [_] [_]). eapply writes_bind; [auto with wire|].
  eapply writes_bind; [auto with wire|].
  eapply writes_bind; [auto with wire|].
  eapply writes_bind.
  { destruct (last_will c); cbn [will_image opt_wf] in *; [|auto with wire].
    destruct Hw. eapply writes_bind; auto with wire. }
  eapply writes_bind; apply encode_opt_writes; [|done].
  destruct (username c); simpl in *; auto with wire.
Qed.

Lemma encode_publish_writes p :
  wf_publish p -> writes (encode_publish_body p) (body_image (PPublish p)) tt.
Proof.
  intros [Ht Hid _ _]. unfold encode_publish_body, body_image.
  eapply writes_bind; [auto with wire|].
  eapply writes_bind; [|auto with wire].
  destruct (qos p); cbn [bool_decide] in *;
    [rewrite Hid; apply writes_ret|..];
    destruct Hid as (id & -> & Hid); apply writes_put_u16; auto with wire.
Qed.

Lemma with_header_writes fb size body w :
  0 <= size <= MAX_PACKET_SIZE -> writes body w tt ->
  writes (with_header fb size body) ([fb] ++ var_int_image 3 size ++ w) tt.
Proof.
  intros Hs Hb. eapply writes_bind; [apply writes_put_u8|].
  eapply writes_bind; [by apply writes_var_int|done].
Qed.

(** [encode] writes the image of a well-formed packet, whatever the buffer holds. *)
Lemma encode_writes p :
  wf_packet p -> get_encoded_size p <= MAX_PACKET_SIZE ->
  writes (encode p (get_encoded_size p)) (packet_image p) tt.
Proof.
  intros Hwf Hmax. pose proof (body_image_len p Hwf) as Hlen.
  unfold packet_image. rewrite Hlen.
  assert (Hsz : 0 <= get_encoded_size p <= MAX_PACKET_SIZE)
    by (rewrite <- Hlen; pose proof (len_nonneg (body_image p)); lia).
  destruct p; unfold encode; try (apply with_header_writes; [exact Hsz|]);
    try (apply writes_put_slice); cbn [wf_packet] in Hwf; try (apply writes_put_u16; auto with wire).
  - by apply encode_connect_writes.
  - by apply encode_publish_writes.
  - destruct Hwf as [Hid Hfs]. eapply writes_bind; [apply writes_put_u16; auto with wire|].
    apply writes_for_each. intros f Hf. rewrite Forall_forall in Hfs.
    specialize (Hfs f Hf). eapply writes_bind; auto with wire.
  - eapply writes_bind; [apply writes_put_u16|]; auto with wire.
  - destruct Hwf as [Hid Hfs]. eapply writes_bind; [apply writes_put_u16; auto with wire|].
    apply writes_for_each. intros f Hf. rewrite Forall_forall in Hfs. auto with wire.
Qed.

(** ** Decoding what was encoded *)

Ltac read_field := eapply reads_all_bind; [by apply wire_reads|].

Lemma reads_wire_str s : wf_str s -> reads ByteString_decode (str_image s) s.
Proof. apply (wire_reads (WireOk := ByteString_ok)). Qed.
Lemma reads_wire_bytes s : wf_bytes s -> reads Bytes_decode (str_image s) s.
Proof. apply (wire_reads (WireOk := Bytes_ok)). Qed.
Lemma reads_wire_u16 v : u16 v -> reads u16_decode (be16 v) v.
Proof. apply (wire_reads (WireOk := u16_ok)). Qed.
Lemma reads_wire_id v : nz u16 v -> reads NonZeroU16_decode (be16 v) v.
Proof. apply (wire_reads (WireOk := NonZeroU16_ok)). Qed.
#[local] Hint Resolve reads_wire_str reads_wire_bytes reads_wire_u16 reads_wire_id : wire.

Lemma decode_ack_reads f id : nz u16 id -> reads_all (decode_ack f) (be16 id) (f id).
Proof.
  intros Hid. unfold decode_ack. eapply reads_all_last; [|done].
  apply reads_all_intro. auto with wire.
Qed.

Lemma decode_if_reads {A} (m : io DecodeError A) o w :
  (forall a, o = Some a -> reads m w a) -> (o = None -> w = []) ->
  reads (decode_if (is_some o) m) w o.
Proof.
  intros Hs Hn. destruct o as [a|]; simpl.
  - eapply reads_last; [by apply Hs|apply reads_ret].
  - rewrite Hn by done. apply reads_ret.
Qed.

(** Every flag is read back from the flags byte. *)
Lemma connect_flags_ok c :
  ConnectFlags.from_bits (connect_flags c) = Some (connect_flags c) /\
  ConnectFlags.contains (connect_flags c) ConnectFlags.CLEAN_START = clean_session c /\
  ConnectFlags.contains (connect_flags c) ConnectFlags.WILL = is_some (last_will c) /\
  ConnectFlags.contains (connect_flags c) ConnectFlags.USERNAME = is_some (username c) /\
  ConnectFlags.contains (connect_flags c) ConnectFlags.PASSWORD = is_some (password c) /\
  match last_will c with
  | Some w =>
      QoS_try_from (Z.shiftr (Z.land (connect_flags c) ConnectFlags.WILL_QOS) WILL_QOS_SHIFT)
        = Ok (lw_qos w) /\
      ConnectFlags.contains (connect_flags c) ConnectFlags.WILL_RETAIN = lw_retain w
  | None => True
  end.
Proof.
  destruct c as [? clean ? w ? u p ?]. unfold connect_flags. simpl.
  destruct u, p, clean, w as [[[] [] ? ?]|]; simpl; auto 10.
Qed.

Lemma decode_last_will_reads c w :
  last_will c = Some w -> wf_str (lw_topic w) -> wf_bytes (lw_message w) ->
  reads (decode_last_will (connect_flags c)) (will_image (Some w)) w.
Proof.
  intros Hw Ht Hm. unfold decode_last_will. cbn [will_image].
  destruct (connect_flags_ok c) as (_ & _ & _ & _ & _ & Hq). rewrite Hw in Hq.
  destruct Hq as [Hq Hr].
  eapply reads_bind; [auto with wire|]. eapply reads_last; [auto with wire|].
  intros s. unfold bind, lift. rewrite Hq, Hr. by destruct w.
Qed.

Lemma slice_eq_name {E} (name s : bytes) :
  slice_eq (E := E) (len name) name (name ++ s) = (Ok true, name ++ s).
Proof.
  unfold slice_eq. rewrite len_app. pose proof (len_nonneg s).
  rewrite (proj2 (Z.leb_le _ _)) by lia. unfold len.
  by rewrite Nat2Z.id, take_app_length, bool_decide_true.
Qed.

Lemma decode_protocol_name_reads l :
  reads decode_protocol_name (str_image (Protocol_name l)) tt.
Proof.
  assert (Hn : Protocol_name l = MQTT \/ Protocol_name l = MQISDP)
    by (unfold Protocol_name; repeat case_match; auto).
  intros s. unfold decode_protocol_name, str_image, bind. rewrite <- app_assoc, reads_get_u16.
  destruct Hn as [-> | ->].
  - change (and_then (len MQTT =? 4) (slice_eq 4 MQTT))
      with (slice_eq (E := DecodeError) (len MQTT) MQTT).
    rewrite slice_eq_name. apply (reads_advance MQTT).
  - change (and_then (len MQISDP =? 4) (slice_eq 4 MQTT) (MQISDP ++ s))
      with (@Ok DecodeError bool false, MQISDP ++ s).
    cbv iota beta. change (and_then (len MQISDP =? 6) (slice_eq 6 MQISDP))
      with (slice_eq (E := DecodeError) (len MQISDP) MQISDP).
    rewrite slice_eq_name. apply (reads_advance MQISDP).
Qed.

Lemma connect_image_ge_10 c : 10 <= len (body_image (PConnect c)).
Proof.
  rewrite connect_image_len. unfold get_encoded_connect_size.
  assert (4 <= len (Protocol_name (protocol c)))
    by (unfold Protocol_name; repeat case_match; unfold len; simpl; lia).
  assert (forall o, 0 <= opt_size o)
    by (intros [s|]; simpl; [pose proof (len_nonneg s)|]; lia).
  pose proof (H0 (username c)). pose proof (H0 (password c)).
  pose proof (len_nonneg (client_id c)).
  destruct (last_will c) as [w|]; [|lia].
  pose proof (len_nonneg (lw_topic w)). pose proof (len_nonneg (lw_message w)). lia.
Qed.

Lemma decode_connect_reads c :
  wf_connect c ->
  reads_all decode_connect_packet (body_image (PConnect c)) (normalize (PConnect c)).
Proof.
  intros [_ Hk Hw Hc Hcl Hu Hp Hcert]. apply reads_all_intro. unfold decode_connect_packet.
  apply reads_ensure_remaining; [apply connect_image_ge_10|]. unfold body_image.
  destruct (connect_flags_ok c) as (Hbits & Hclean & Hwill & Huser & Hpass & _).
  eapply reads_bind; [apply decode_protocol_name_reads|].
  eapply reads_bind; [apply reads_get_u8|]. apply reads_ensure; [done|].
  eapply reads_bind; [apply reads_get_u8|]. rewrite Hbits.
  eapply reads_bind_pure; [apply reads_ret|].
  eapply reads_bind; [auto with wire|]. eapply reads_bind; [auto with wire|].
  apply reads_ensure.
  { rewrite Hclean. destruct (client_id c) eqn:Hid; [|done]. simpl.
    destruct Hcl as [|Hcl]; [done|]. by rewrite Hcl. }
  rewrite Hwill, Huser, Hpass, Hclean.
  eapply reads_bind.
  { apply decode_if_reads; [|by intros ->]. intros w Hw'. rewrite Hw' in *. destruct Hw.
    by apply decode_last_will_reads. }
  eapply reads_bind.
  { apply decode_if_reads; [|by intros ->]. intros u Hu'. rewrite Hu' in *. by apply reads_wire_str. }
  eapply reads_last.
  { apply decode_if_reads; [|by intros ->]. intros u Hu'. rewrite Hu' in *. by apply reads_wire_bytes. }
  simpl normalize. rewrite <- Hcert. apply reads_ret.
Qed.

Lemma decode_connect_ack_reads a :
  reads_all decode_connect_ack_packet (body_image (PConnectAck a)) (PConnectAck a).
Proof. destruct a as [[] []]; reflexivity. Qed.

(** The flags of the first byte of a PUBLISH packet. *)
Lemma publish_first_byte_ok p :
  between packet_type.PUBLISH_START (publish_first_byte p) packet_type.PUBLISH_END = true /\
  let flags := Z.land (publish_first_byte p) 15 in
  QoS_try_from (Z.shiftr (Z.land flags 6) 1) = Ok (qos p) /\
  (Z.land flags 8 =? 8) = dup p /\ (Z.land flags 1 =? 1) = retain p.
Proof.
  destruct p as [d r q ? ? ? ?]. unfold publish_first_byte. simpl.
  destruct d, r, q; simpl; auto.
Qed.

Lemma decode_publish_reads p :
  wf_publish p ->
  reads_all (decode_publish_packet (Z.land (publish_first_byte p) 15))
    (body_image (PPublish p)) (PPublish p).
Proof.
  intros [Ht Hid _ Hprops]. unfold decode_publish_packet, body_image.
  destruct (publish_first_byte_ok p) as (_ & Hq & Hd & Hr). cbn zeta in *.
  rewrite Hq, Hd, Hr. eapply reads_all_bind; [auto with wire|].
  eapply reads_all_bind_pure; [by intros s|].
  eapply reads_all_bind.
  { instantiate (1 := packet_id p). destruct (qos p); cbn [bool_decide];
      [rewrite Hid; apply reads_ret|..]; destruct Hid as (id & -> & Hid);
      (eapply reads_last; [by apply reads_wire_id|apply reads_ret]). }
  unfold reads_all, bind, take_rest, ret. destruct p; simpl in *. by subst.
Qed.

Lemma subscribe_item_reads acc f :
  wf_str (fst f) ->
  reads (subscribe_item acc) (str_image (fst f) ++ [QoS_value (snd f)]) (acc ++ [f]).
Proof.
  intros Hf. unfold subscribe_item. eapply reads_bind; [auto with wire|].
  apply reads_ensure_remaining; [done|]. intros s. by destruct f as [? []].
Qed.

Lemma unsubscribe_item_reads acc f :
  wf_str f -> reads (unsubscribe_item acc) (str_image f) (acc ++ [f]).
Proof. intros Hf. eapply reads_last; [by apply reads_wire_str|apply reads_ret]. Qed.

(** A list of items laid out to the end of the buffer. *)
Lemma reads_items {A B} (body : list A -> io DecodeError (list A)) (w : A -> bytes) l
    (f : list A -> B) :
  (forall x, x ∈ l -> w x <> [] /\ forall acc, reads (body acc) (w x) (acc ++ [x])) ->
  reads_all (let! src := get_state in
             let! xs := while_remaining (length src) body [] in
             ret (f xs)) (concat (w <$> l)) (f l).
Proof.
  intros H. unfold reads_all. unfold bind at 1, get_state.
  eapply reads_all_last; [|apply reads_all_ret].
  rewrite <- (list_fmap_id l) at 3. rewrite <- (app_nil_l (id <$> l)), <- foldl_snoc.
  apply (reads_while_remaining body w (fun x acc => acc ++ [id x])); [done|].
  apply length_concat_ge. intros x Hx. by apply H.
Qed.

Lemma decode_packet_image p :
  wf_packet p -> decode_packet (body_image p) (first_byte_of p) = Ok (normalize p).
Proof.
  assert (Hall : forall m w a, reads_all (E := DecodeError) (A := Packet) m w a ->
                   fst (m w) = Ok a) by (intros m w a H; by rewrite H).
  destruct p; intros Hwf; cbn [wf_packet] in Hwf; try done;
    try (by apply Hall, decode_ack_reads).
  - by apply Hall, decode_connect_reads.
  - by apply Hall, decode_connect_ack_reads.
  - unfold decode_packet. simpl first_byte_of. unfold decode_body.
    destruct (publish_first_byte_ok p) as (Hb & _).
    apply andb_true_iff in Hb as Hb'. rewrite !Z.leb_le in Hb'.
    unfold packet_type.PUBLISH_START, packet_type.PUBLISH_END in Hb'.
    unfold packet_type.CONNECT, packet_type.CONNACK.
    rewrite !(proj2 (Z.eqb_neq _ _)), Hb by lia. by apply Hall, decode_publish_reads.
  - destruct Hwf as [Hid Hfs]. rewrite Forall_forall in Hfs. apply Hall.
    eapply reads_all_bind; [auto with wire|].
    apply (reads_items subscribe_item _ _ (PSubscribe packet_id)). intros f Hf.
    split; [by intros [? _]%app_nil|]. intros acc. apply subscribe_item_reads. auto.
  - unfold decode_packet. cbn [body_image]. change (decode_body _) with decode_subscribe_ack_packet.
    unfold decode_subscribe_ack_packet, bind. rewrite reads_wire_id by done.
    unfold get_state, lift. rewrite try_collect_fmap; [done|by intros [[]|] _].
  - destruct Hwf as [Hid Hfs]. rewrite Forall_forall in Hfs. apply Hall.
    eapply reads_all_bind; [auto with wire|].
    apply (reads_items unsubscribe_item str_image _ (PUnsubscribe packet_id)). intros f Hf.
    split; [done|]. intros acc. apply unsubscribe_item_reads. auto.
Qed.

(** ** Decoding arbitrary bytes *)

(** [wp_wire ok x s]: a field read with the implementation [ok]. *)
Ltac wp_wire ok :=
  eapply wp_mono; [|apply (wire_total (WireOk := ok)); done];
  let a := fresh "v" in let s := fresh "s" in
  intros a s (? & ? & ?).

Lemma wp_decode_ack (f : Z -> Packet) s :
  u8s s -> (forall id, nz u16 id -> wf_packet (f id)) ->
  wp (decode_ack f) s (fun p _ => wf_packet p).
Proof.
  intros Hs Hf. unfold decode_ack. wp_go. wp_wire NonZeroU16_ok. wp_go. auto.
Qed.

Lemma wp_slice_eq {E} n name s (Q : bool -> bytes -> Prop) :
  n <= len s -> (forall b, Q b s) -> wp (E := E) (slice_eq n name) s Q.
Proof.
  intros Hn HQ. unfold wp, slice_eq. rewrite (proj2 (Z.leb_le _ _)) by done. apply HQ.
Qed.

Lemma wp_and_then {E} a (m : io E bool) s (Q : bool -> bytes -> Prop) :
  (a = true -> wp m s Q) -> Q false s -> wp (and_then a m) s Q.
Proof. intros Hm HQ. destruct a; [auto|done]. Qed.

Lemma wp_ok_or {E A} (o : option A) (e : E) s (Q : A -> bytes -> Prop) :
  (forall a, o = Some a -> Q a s) -> wp (ok_or o e) s Q.
Proof. intros HQ. destruct o; [by apply HQ|done]. Qed.

(** Two bytes at least are left after the name: the guard on ten bytes. *)
Lemma wp_decode_protocol_name s :
  u8s s -> 10 <= len s ->
  wp decode_protocol_name s (fun _ s' => u8s s' /\ (2 <= length s')%nat).
Proof.
  intros Hs Hlen. unfold decode_protocol_name. apply wp_bind.
  destruct s as [|b1 [|b0 s]]; unfold len in Hlen; simpl in Hlen; try lia.
  do 2 (apply Forall_cons in Hs as [? Hs]). unfold wp at 1. simpl.
  assert (Hadv : forall n, 0 <= n <= 6 -> wp (E := DecodeError) (advance n) s
            (fun _ s' => u8s s' /\ (2 <= length s')%nat)).
  { intros n Hn. apply wp_advance; [unfold len; lia|]. split; [auto with wire|].
    rewrite length_drop. lia. }
  apply wp_bind, wp_and_then.
  - intros _. apply wp_slice_eq; [unfold len; lia|]. intros []; [by apply Hadv|].
    apply wp_bind, wp_and_then; [|done]. intros _. apply wp_slice_eq; [unfold len; lia|].
    intros []; [by apply Hadv|done].
  - apply wp_bind, wp_and_then; [|done]. intros _. apply wp_slice_eq; [unfold len; lia|].
    intros []; [by apply Hadv|done].
Qed.

Lemma wp_decode_if {A} c (m : io DecodeError A) s (P : A -> Prop) :
  u8s s -> (c = true -> wp m s (fun a s' => P a /\ u8s s')) ->
  wp (decode_if c m) s (fun o s' => opt_wf P o /\ u8s s').
Proof.
  intros Hs Hm. destruct c; simpl; [|by wp_go]. apply wp_bind.
  eapply wp_mono; [|by apply Hm]. intros a s' [? ?]. by wp_go.
Qed.

Lemma wp_lift_QoS v s (Q : QoS -> bytes -> Prop) :
  (forall q, QoS_try_from v = Ok q -> Q q s) -> wp (lift (QoS_try_from v)) s Q.
Proof. intros HQ. apply wp_lift; [apply QoS_try_from_returns|done]. Qed.

Lemma wp_decode_last_will flags s :
  u8s s ->
  wp (decode_last_will flags) s (fun w s' =>
    (wf_str (lw_topic w) /\ wf_bytes (lw_message w)) /\ u8s s').
Proof.
  intros Hs. unfold decode_last_will. wp_go. wp_wire ByteString_ok. wp_go.
  wp_wire Bytes_ok. wp_go. apply wp_lift_QoS. intros q _. by wp_go.
Qed.

Lemma wp_decode_connect_packet s :
  u8s s -> wp decode_connect_packet s (fun p _ => wf_packet p).
Proof.
  intros Hs. unfold decode_connect_packet. wp_go.
  eapply wp_mono; [|by apply wp_decode_protocol_name]. intros _ s1 [Hs1 Hl1]. wp_go.
  apply wp_get_u8; [intros ->; simpl in Hl1; lia|]. intros level s2 ->. wp_go.
  apply Forall_cons in Hs1 as [_ Hs2]. simpl in Hl1.
  apply wp_get_u8; [intros ->; simpl in Hl1; lia|]. intros b s3 ->. wp_go.
  apply Forall_cons in Hs2 as [_ Hs3].
  apply wp_ok_or. intros flags _. wp_go. wp_wire u16_ok. wp_go. wp_wire ByteString_ok. wp_go.
  eapply wp_mono; [|apply wp_decode_if; [done|intros _; by apply wp_decode_last_will]].
  intros will s6 [? ?]. wp_go.
  eapply wp_mono; [|apply (wp_decode_if _ _ _ wf_str); [done|intros _]].
  2: { wp_wire ByteString_ok. done. }
  intros user s7 [? ?]. wp_go.
  eapply wp_mono; [|apply (wp_decode_if _ _ _ wf_bytes); [done|intros _]].
  2: { wp_wire Bytes_ok. done. }
  intros pass s8 [? ?]. wp_go. split; simpl; try done.
  - match goal with H : (_ || (level =? _)) = true |- _ => apply orb_true_iff in H end.
    rewrite !Z.eqb_eq in *. done.
  - match goal with H : (negb _ || _) = true |- _ => apply orb_true_iff in H as [H|H] end;
      [left; by intros ->|by right].
Qed.

Lemma wp_decode_connect_ack_packet s :
  wp decode_connect_ack_packet s (fun p _ => wf_packet p).
Proof.
  unfold decode_connect_ack_packet. wp_go.
  destruct s as [|b [|c s]]; unfold len in *; simpl in *; try lia.
  apply wp_get_u8; [done|]. intros ? ? [= <- <-]. wp_go. apply wp_ok_or. intros flags _. wp_go.
  apply wp_get_u8; [done|]. intros ? ? [= <- <-]. wp_go.
  apply wp_lift; [unfold ConnectAckReason_try_from; by repeat case_match|].
  intros r _. by wp_go.
Qed.

Lemma wp_decode_publish_packet flags s :
  u8s s -> wp (decode_publish_packet flags) s (fun p _ => wf_packet p).
Proof.
  intros Hs. unfold decode_publish_packet. wp_go. wp_wire ByteString_ok. wp_go.
  apply wp_lift_QoS. intros q _. wp_go.
  - wp_go. unfold wp, take_rest; simpl.
    match goal with H : bool_decide _ = true |- _ => apply bool_decide_eq_true in H; subst end.
    done.
  - wp_wire NonZeroU16_ok. wp_go. unfold wp, take_rest; simpl.
    match goal with H : bool_decide _ = false |- _ => apply bool_decide_eq_false in H end.
    split; simpl; try done. destruct q; [done|eauto..].
Qed.

(** A list of items read to the end of the buffer. *)
Lemma wp_items {A B} (body : list A -> io DecodeError (list A)) (P : A -> Prop) s
    (f : list A -> B) (Q : B -> Prop) :
  u8s s ->
  (forall acc s, u8s s -> Forall P acc ->
     wp (body acc) s (fun acc' s' => Forall P acc' /\ u8s s' /\ (length s' < length s)%nat)) ->
  (forall l, Forall P l -> Q (f l)) ->
  wp (let! src := get_state in
      let! xs := while_remaining (length src) body [] in
      ret (f xs)) s (fun p _ => Q p).
Proof.
  intros Hs Hbody Hf. apply wp_bind, wp_get_state, wp_bind.
  eapply wp_mono; [|apply (wp_while_remaining (fun acc s => Forall P acc /\ u8s s))].
  - intros acc s' [[Hacc _] _]. apply wp_ret. auto.
  - intros acc s' _ [Hacc Hs']. eapply wp_mono; [|by apply Hbody].
    intros acc' s'' (? & ? & ?). auto.
  - auto.
  - done.
Qed.

Lemma wp_subscribe_item acc s :
  u8s s -> Forall (fun f : bytes * QoS => wf_str (fst f)) acc ->
  wp (subscribe_item acc) s (fun acc' s' =>
    Forall (fun f => wf_str (fst f)) acc' /\ u8s s' /\ (length s' < length s)%nat).
Proof.
  intros Hs Hacc. unfold subscribe_item. wp_go. wp_wire ByteString_ok. wp_go.
  apply wp_get_u8; [intros ->; unfold len in *; simpl in *; lia|]. intros b s' ->.
  match goal with H : u8s (b :: s') |- _ => apply Forall_cons in H as [_ H] end.
  wp_go. apply wp_lift_QoS. intros q _. wp_go. split_and!; [|done|simpl in *; lia].
  apply Forall_app. split; [done|]. by constructor.
Qed.

Lemma wp_unsubscribe_item acc s :
  u8s s -> Forall wf_str acc ->
  wp (unsubscribe_item acc) s (fun acc' s' =>
    Forall wf_str acc' /\ u8s s' /\ (length s' < length s)%nat).
Proof.
  intros Hs Hacc. unfold unsubscribe_item. wp_go. wp_wire ByteString_ok. wp_go.
  split_and!; [|done|done]. apply Forall_app. split; [done|]. by constructor.
Qed.

Lemma decode_return_code_returns c : returns (decode_return_code c).
Proof.
  unfold decode_return_code. destruct (c =? 128); [done|].
  pose proof (QoS_try_from_returns c). by destruct (QoS_try_from c).
Qed.

Lemma wp_decode_body fb s : u8s s -> wp (decode_body fb) s (fun p _ => wf_packet p).
Proof.
  intros Hs. unfold decode_body.
  repeat match goal with
  | |- wp (if ?c then _ else _) _ _ => destruct c
  end; try (by wp_go); try (apply wp_decode_ack; [done|by intros id]).
  - by apply wp_decode_connect_packet.
  - apply wp_decode_connect_ack_packet.
  - by apply wp_decode_publish_packet.
  - unfold decode_subscribe_packet. apply wp_bind. wp_wire NonZeroU16_ok.
    eapply (wp_items _ (fun f => wf_str (fst f)) _ _ wf_packet); [done|apply wp_subscribe_item|].
    intros l Hl. by split.
  - unfold decode_subscribe_ack_packet. apply wp_bind. wp_wire NonZeroU16_ok.
    apply wp_bind, wp_get_state, wp_bind, wp_lift.
    + apply try_collect_returns, decode_return_code_returns.
    + intros st _. by wp_go.
  - unfold decode_unsubscribe_packet. apply wp_bind. wp_wire NonZeroU16_ok.
    eapply (wp_items _ wf_str _ _ wf_packet); [done|apply wp_unsubscribe_item|]. intros l Hl. by split.
Qed.

(** ** Images are bytes *)

Lemma small_u8 b : 0 <= b < 256 -> u8s [b].
Proof. intros H. constructor; [done|constructor]. Qed.

Lemma first_byte_u8 p : u8 (first_byte_of p).
Proof.
  destruct p; try done. simpl. destruct (publish_first_byte_ok p) as [Hb _].
  apply andb_true_iff in Hb. rewrite !Z.leb_le in Hb.
  unfold packet_type.PUBLISH_START, packet_type.PUBLISH_END in Hb. unfold is_u. lia.
Qed.

Lemma connect_flags_u8 c : u8 (connect_flags c).
Proof.
  destruct c as [? clean ? w ? u p ?]. unfold connect_flags. simpl.
  destruct u, p, clean, w as [[[] [] ? ?]|]; done.
Qed.

Lemma opt_image_u8s (P : bytes -> Prop) o :
  (forall s, P s -> wf_bytes s) -> opt_wf P o -> u8s (opt_image o).
Proof. intros HP. destruct o; simpl; [auto with wire|constructor]. Qed.

Lemma connect_image_u8s c : wf_connect c -> u8s (body_image (PConnect c)).
Proof.
  intros [_ Hk Hw Hc _ Hu Hp _]. cbn [body_image]. rewrite !u8s_app.
  split_and!; auto with wire.
  - by apply small_u8.
  - apply small_u8, connect_flags_u8.
  - destruct (last_will c) as [w|]; [|constructor]. destruct Hw.
    apply u8s_app. auto with wire.
  - eapply opt_image_u8s; [|done]. auto with wire.
  - by eapply opt_image_u8s.
Qed.

Lemma publish_image_u8s p : wf_publish p -> u8s (body_image (PPublish p)).
Proof.
  intros [Ht Hid Hp _]. cbn [body_image]. rewrite !u8s_app. split_and!; auto with wire.
  destruct (qos p); [rewrite Hid; constructor|..];
    destruct Hid as (id & -> & Hid); simpl; auto with wire.
Qed.

Lemma body_image_u8s p : wf_packet p -> u8s (body_image p).
Proof.
  destruct p; intros Hwf; cbn [wf_packet] in Hwf; try (by apply be16_u8s, nz_u16);
    try (by constructor).
  - by apply connect_image_u8s.
  - apply u8s_app. split; apply small_u8;
      [by destruct (session_present a)|by destruct (return_code a)].
  - by apply publish_image_u8s.
  - destruct Hwf as [Hid Hfs]. rewrite Forall_forall in Hfs. apply u8s_app.
    split; [auto with wire|].
    apply u8s_concat. intros f Hf. apply u8s_app. split; [auto with wire|].
    apply small_u8. pose proof (QoS_value_bounds (snd f)). lia.
  - apply u8s_app. split; [auto with wire|].
    apply Forall_fmap, Forall_true. intros [q|]; simpl; [|done].
    pose proof (QoS_value_bounds q). unfold is_u. lia.
  - destruct Hwf as [Hid Hfs]. rewrite Forall_forall in Hfs. apply u8s_app.
    split; [auto with wire|]. apply u8s_concat. auto with wire.
Qed.

Lemma packet_image_u8s p :
  wf_packet p -> get_encoded_size p <= MAX_PACKET_SIZE -> u8s (packet_image p).
Proof.
  intros Hwf Hmax. unfold packet_image. rewrite !u8s_app. split_and!.
  - apply small_u8. apply first_byte_u8.
  - apply var_int_image_u8s. rewrite body_image_len by done.
    rewrite <- (body_image_len p) in Hmax |- * by done. pose proof (len_nonneg (body_image p)).
    unfold MAX_PACKET_SIZE in Hmax. change (128 ^ (Z.of_nat 3 + 1)) with 268435456. lia.
  - by apply body_image_u8s.
Qed.

(** ** Properties *)

(** C22. Round trip of the v3 codec: for every well-formed packet that
    fits the remaining length field, [encode] called with
    [get_encoded_size] appends the packet's image (type byte, remaining
    length, body) to the buffer, the announced size is the size of the
    body, and [decode_packet] on the body gives the packet back (with
    the level of MQTT 3.1.1, the one [encode_connect] writes). *)
Theorem v3_encode_decode_roundtrip (p : Packet) (dst : bytes) :
  wf_packet p -> get_encoded_size p <= MAX_PACKET_SIZE ->
  encode p (get_encoded_size p) dst = (Ok tt, dst ++ packet_image p) /\
  len (body_image p) = get_encoded_size p /\
  decode_packet (body_image p) (first_byte_of p) = Ok (normalize p).
Proof.
  intros Hwf Hmax. split_and!.
  - by apply encode_writes.
  - by apply body_image_len.
  - by apply decode_packet_image.
Qed.

Definition sample_publish : Packet :=
  PPublish {| dup := true; retain := true; qos := ExactlyOnce;
              topic := bytes_of_string "topic"; packet_id := Some 17185;
              payload := bytes_of_string "data"; properties := None |}.

Lemma sample_publish_wf : wf_packet sample_publish.
Proof.
  split; simpl.
  - repeat split; repeat constructor; done.
  - exists 17185. repeat split; done.
  - repeat constructor; done.
  - done.
Qed.

Lemma v3_encode_decode_roundtrip_witness :
  wf_packet sample_publish /\ get_encoded_size sample_publish <= MAX_PACKET_SIZE /\
  encode sample_publish (get_encoded_size sample_publish) [] =
    (Ok tt, [] ++ packet_image sample_publish) /\
  packet_image sample_publish =
    [61; 13; 0; 5; 116; 111; 112; 105; 99; 67; 33; 100; 97; 116; 97].
Proof.
  pose proof sample_publish_wf as Hwf.
  split_and!; [done|done|by apply (v3_encode_decode_roundtrip sample_publish [])|reflexivity].
Defined.

(** Safety of the v3 decoder: on every byte sequence and type byte
    [decode_packet] returns (it neither panics nor loops), and a decoded
    packet is well formed: the identifiers are non zero, the strings are
    valid UTF-8 and fit their length prefix, a packet identifier is there
    exactly when the quality of service asks for one. *)
Theorem v3_decode_packet_safe (src : bytes) (fb : Z) :
  u8s src ->
  match decode_packet src fb with
  | Ok p => wf_packet p
  | Err _ => True
  | Panic | Diverged => False
  end.
Proof.
  intros Hs. pose proof (wp_decode_body fb src Hs) as H. unfold wp in H.
  unfold decode_packet. by destruct (decode_body fb src) as [[] ?].
Qed.

Lemma v3_decode_packet_safe_witness :
  u8s [0; 2] /\ decode_packet [0; 2] packet_type.PUBACK = Ok (PPublishAck 2) /\
  wf_packet (PPublishAck 2).
Proof.
  split_and!; [repeat constructor; done|reflexivity|].
  assert (Hs : u8s [0; 2]) by (repeat constructor; done).
  exact (v3_decode_packet_safe [0; 2] packet_type.PUBACK Hs).
Defined.

(** The protocol level of an MQTT 3.1 CONNECT is lost: [encode_connect]
    writes the name of the packet's level but always the level 4, so the
    encoding of a level 3 packet decodes to a level 4 packet. *)
Theorem v3_connect_level_lost (c : Connect) :
  wf_connect c -> protocol c = MQTT_LEVEL_31 ->
  exists c', decode_packet (body_image (PConnect c)) packet_type.CONNECT = Ok (PConnect c') /\
    protocol c' = MQTT_LEVEL_311 /\ PConnect c' <> PConnect c.
Proof.
  intros Hwf Hp. eexists. split; [by apply (decode_packet_image (PConnect c))|].
  split; [done|]. intros [= Heq]. apply (f_equal protocol) in Heq.
  simpl in Heq. rewrite Hp in Heq. done.
Qed.

Definition sample_connect_31 : Connect :=
  {| protocol := MQTT_LEVEL_31; clean_session := true; keep_alive := 60; last_will := None;
     client_id := bytes_of_string "c1"; username := None; password := None; cert := None |}.

Lemma v3_connect_level_lost_witness :
  wf_connect sample_connect_31 /\
  exists c', decode_packet (body_image (PConnect sample_connect_31)) packet_type.CONNECT
    = Ok (PConnect c') /\ protocol c' = MQTT_LEVEL_311 /\
    PConnect c' <> PConnect sample_connect_31.
Proof.
  assert (Hwf : wf_connect sample_connect_31).
  { split; simpl; try done; [by right| |by left]. repeat split; repeat constructor; done. }
  split; [done|]. by apply (v3_connect_level_lost sample_connect_31).
Defined.

End V3Proofs.
