(* ===== verification/CodecFraming.v ===== *)
(** * Framing: [codec/v3/codec.rs]

    The decoder state machine that cuts the byte stream into frames: the
    fixed header first, then the frame once it is complete. The v5 codec
    has the same loop around its own [decode_packet], so the loop is
    parametric in it. The specification [drain] is what the transport
    does with the decoder: call it until it asks for more bytes. *)

From stdpp Require Import prelude list strings.
From Stdlib Require Import ZArith Lia.
From S2P Require Import Prelude CodecTypes CodecUtils CodecV3 CodecV3Proofs.

Local Open Scope Z_scope.

Inductive DecodeState : Type :=
| FrameHeader
| Frame (fixed : FixedHeader).

(** [v3::Codec]. *)
Record Codec : Type := mkCodec {
  state : DecodeState;
  max_size : Z;
}.

Definition Codec_new (max_packet_size : Z) : Codec := mkCodec FrameHeader max_packet_size.
Definition Codec_default : Codec := Codec_new 0.
Definition set_max_size (c : Codec) (size : Z) : Codec := mkCodec (state c) size.

Section framing.
Context {P : Type} (decode_packet : bytes -> Z -> outcome DecodeError P).

(** One call of [Decoder::decode]: the result, the codec and the buffer
    afterwards. [fuel] bounds the iterations of its [loop]. *)
Fixpoint decode_loop (fuel : nat) (c : Codec) (src : bytes)
    : outcome DecodeError (option (P * Z)) * Codec * bytes :=
  match fuel with
  | O => (Diverged, c, src)
  | S fuel =>
      match state c with
      | FrameHeader =>
          if len src <? 2 then (Ok None, c, src)
          else
            match src with
            | [] => (Panic, c, src)
            | first_byte :: tail =>
                match decode_variable_length tail with
                | Ok (Some (remaining_length, consumed)) =>
                    if negb (max_size c =? 0) && (max_size c <? remaining_length) then
                      (Err (MaxSizeExceeded remaining_length (max_size c)), c, src)
                    else
                      match advance (E := DecodeError) (consumed + 1) src with
                      | (Ok _, src) =>
                          let c := mkCodec (Frame (mkFixedHeader first_byte remaining_length))
                                     (max_size c) in
                          if len src <? remaining_length then (Ok None, c, src)
                          else decode_loop fuel c src
                      | (_, src) => (Panic, c, src)
                      end
                | Ok None => (Ok None, c, src)
                | Err e => (Err e, c, src)
                | Panic => (Panic, c, src)
                | Diverged => (Diverged, c, src)
                end
            end
      | Frame fixed =>
          if len src <? remaining_length fixed then (Ok None, c, src)
          else
            match split_to (E := DecodeError) (remaining_length fixed) src with
            | (Ok packet_buf, src) =>
                match decode_packet packet_buf (first_byte fixed) with
                | Ok packet =>
                    (Ok (Some (packet, remaining_length fixed)),
                     mkCodec FrameHeader (max_size c), src)
                | Err e => (Err e, c, src)
                | Panic => (Panic, c, src)
                | Diverged => (Diverged, c, src)
                end
            | (_, src) => (Panic, c, src)
            end
      end
  end.

(** A header iteration is followed by at most one frame iteration. *)
Definition codec_decode (c : Codec) (src : bytes) := decode_loop 2 c src.

(** The transport's loop: the packets decoded until the decoder asks for
    more bytes or fails, the final outcome, codec and buffer. *)
Fixpoint drain_loop (fuel : nat) (c : Codec) (src : bytes)
    : list (P * Z) * outcome DecodeError unit * Codec * bytes :=
  match fuel with
  | O => ([], Diverged, c, src)
  | S fuel =>
      match codec_decode c src with
      | (Ok (Some x), c, src) =>
          let '(xs, r, c, src) := drain_loop fuel c src in (x :: xs, r, c, src)
      | (Ok None, c, src) => ([], Ok tt, c, src)
      | (Err e, c, src) => ([], Err e, c, src)
      | (Panic, c, src) => ([], Panic, c, src)
      | (Diverged, c, src) => ([], Diverged, c, src)
      end
  end.

Definition drain (c : Codec) (src : bytes) := drain_loop (length src + 3) c src.

(** The bytes arrive in chunks; reading stops at the first error. *)
Fixpoint feed (c : Codec) (buf : bytes) (chunks : list bytes)
    : list (P * Z) * outcome DecodeError unit * Codec * bytes :=
  match chunks with
  | [] => ([], Ok tt, c, buf)
  | chunk :: chunks =>
      match drain c (buf ++ chunk) with
      | (xs, Ok _, c, buf) =>
          let '(ys, r, c, buf) := feed c buf chunks in (xs ++ ys, r, c, buf)
      | stop => stop
      end
  end.

(** ** One call of the decoder *)

(** States between calls: a frame that is awaited has a length that the
    limit allows. *)
Definition codec_ok (c : Codec) : Prop :=
  match state c with
  | FrameHeader => True
  | Frame h => is_u 28 (remaining_length h) /\ (max_size c = 0 \/ remaining_length h <= max_size c)
  end.

Definition is_frame (c : Codec) : nat := match state c with FrameHeader => 0 | Frame _ => 1 end.

Hypothesis decode_packet_returns : forall src fb, u8s src -> returns (decode_packet src fb).

Lemma split_to_eq {E} n (s : bytes) :
  n <= len s -> split_to (E := E) n s = (Ok (take (Z.to_nat n) s), drop (Z.to_nat n) s).
Proof. intros H. unfold split_to. by rewrite (proj2 (Z.leb_le _ _)). Qed.

Lemma advance_eq {E} n (s : bytes) :
  n <= len s -> advance (E := E) n s = (Ok tt, drop (Z.to_nat n) s).
Proof. intros H. unfold advance. by rewrite (proj2 (Z.leb_le _ _)). Qed.

(** The frame iteration, once the frame is complete. *)
Lemma decode_frame fuel m h src :
  remaining_length h <= len src ->
  decode_loop (S fuel) (mkCodec (Frame h) m) src =
    (let n := Z.to_nat (remaining_length h) in
     match decode_packet (take n src) (first_byte h) with
     | Ok p => (Ok (Some (p, remaining_length h)), mkCodec FrameHeader m, drop n src)
     | Err e => (Err e, mkCodec (Frame h) m, drop n src)
     | Panic => (Panic, mkCodec (Frame h) m, drop n src)
     | Diverged => (Diverged, mkCodec (Frame h) m, drop n src)
     end).
Proof.
  intros H. simpl. rewrite (proj2 (Z.ltb_ge _ _)) by done. by rewrite split_to_eq.
Qed.

Lemma decode_frame_wait fuel m h src :
  len src < remaining_length h ->
  decode_loop (S fuel) (mkCodec (Frame h) m) src = (Ok None, mkCodec (Frame h) m, src).
Proof. intros H. simpl. by rewrite (proj2 (Z.ltb_lt _ _)). Qed.

(** The header iteration, with the header complete and within the limit. *)
Lemma decode_header fuel m fb tail n k :
  1 <= len tail ->
  decode_variable_length tail = Ok (Some (n, k)) -> 0 <= k <= len tail ->
  (m = 0 \/ n <= m) -> 0 <= m ->
  decode_loop (S (S fuel)) (mkCodec FrameHeader m) (fb :: tail) =
    decode_loop (S fuel) (mkCodec (Frame (mkFixedHeader fb n)) m) (drop (Z.to_nat k) tail).
Proof.
  intros Hlen Hv Hk Hm Hm0. cbn [decode_loop state max_size].
  rewrite len_cons, (proj2 (Z.ltb_ge _ _)), Hv by lia.
  replace (negb (m =? 0) && (m <? n)) with false.
  2: { symmetry. apply andb_false_iff. destruct Hm as [-> |]; [by left|right].
       apply Z.ltb_ge. lia. }
  rewrite advance_eq by (rewrite len_cons; lia).
  replace (Z.to_nat (k + 1)) with (S (Z.to_nat k)) by lia. simpl drop.
  cbn [remaining_length]. by destruct (len (drop (Z.to_nat k) tail) <? n) eqn:?.
Qed.

Definition wf_codec (c : Codec) (src : bytes) : Prop :=
  u8s src /\ 0 <= max_size c /\ codec_ok c.

(** A call returns, keeps the state well formed, and a packet makes
    progress. *)
Lemma codec_decode_progress c src :
  wf_codec c src ->
  match codec_decode c src with
  | (Ok (Some _), c', src') =>
      wf_codec c' src' /\ state c' = FrameHeader /\ max_size c' = max_size c /\
      (length src' + is_frame c' < length src + is_frame c)%nat
  | (Ok None, c', src') => wf_codec c' src' /\ max_size c' = max_size c
  | (Err _, _, _) => True
  | (Panic, _, _) | (Diverged, _, _) => False
  end.
Proof.
  assert (Hframe : forall fuel h m src, u8s src -> 0 <= m ->
    is_u 28 (remaining_length h) -> m = 0 \/ remaining_length h <= m ->
    match decode_loop (S fuel) (mkCodec (Frame h) m) src with
    | (Ok (Some _), c', src') =>
        wf_codec c' src' /\ state c' = FrameHeader /\ max_size c' = m /\
        (length src' + is_frame c' <= length src)%nat
    | (Ok None, c', src') => wf_codec c' src' /\ max_size c' = m
    | (Err _, _, _) => True
    | (Panic, _, _) | (Diverged, _, _) => False
    end).
  { intros fuel h m s Hs Hm Hh Hlim.
    destruct (Z.le_gt_cases (remaining_length h) (len s)).
    - rewrite decode_frame by done. cbn zeta.
      pose proof (decode_packet_returns (take (Z.to_nat (remaining_length h)) s) (first_byte h)
                    (u8s_take _ _ Hs)) as Hr.
      destruct (decode_packet _ _); try done. unfold wf_codec, codec_ok, is_frame; simpl.
      split_and!; auto with wire. rewrite length_drop. lia.
    - rewrite decode_frame_wait by done. done. }
  intros (Hs & Hm & Hok). destruct c as [[|h] m]; simpl in Hm.
  - unfold codec_decode. destruct src as [|fb tail]; [done|].
    apply Forall_cons in Hs as Hs'. destruct Hs' as [Hfb Htail].
    destruct (Z.lt_ge_cases (len tail) 1) as [Hsh|Hlen].
    { cbn [decode_loop state]. by rewrite len_cons, (proj2 (Z.ltb_lt _ _)) by lia. }
    pose proof (decode_variable_length_spec tail Htail) as Hspec.
    destruct (decode_variable_length tail) as [[[n k]|]|e| |] eqn:Hv;
      try (cbn [decode_loop state]; rewrite len_cons, (proj2 (Z.ltb_ge _ _)), Hv by lia; done).
    destruct Hspec as (Hn & Hk & Hkt).
    destruct (negb (m =? 0) && (m <? n)) eqn:Hmax.
    { cbn [decode_loop state max_size]. by rewrite len_cons, (proj2 (Z.ltb_ge _ _)), Hv, Hmax by lia. }
    assert (Hlim : m = 0 \/ n <= m).
    { apply andb_false_iff in Hmax as [H|H]; [left|right].
      - by apply negb_false_iff, Z.eqb_eq in H.
      - by apply Z.ltb_ge in H. }
    rewrite (decode_header 0 m fb tail n k) by (done || lia).
    specialize (Hframe 0%nat (mkFixedHeader fb n) m (drop (Z.to_nat k) tail)
                  (u8s_drop _ _ Htail) Hm Hn Hlim).
    destruct (decode_loop _ _ _) as [[[[x|]|e| |] c'] src']; try done.
    destruct Hframe as (? & Hst & ? & Hl). split_and!; try done.
    rewrite length_drop in Hl. unfold is_frame in *. rewrite Hst in *. simpl. lia.
  - specialize (Hframe 1%nat h m src Hs Hm (proj1 Hok) (proj2 Hok)). unfold codec_decode.
    destruct (decode_loop _ _ _) as [[[[x|]|e| |] c'] src']; try done.
    destruct Hframe as (? & Hst & ? & Hl). split_and!; try done.
    unfold is_frame in *. rewrite Hst in *. simpl. lia.
Qed.

(** Bytes that arrive after the ones that decided a call do not change its
    outcome; when the call asked for more, it is as if they had been
    there from the start. *)
Lemma codec_decode_app c src t :
  u8s src -> 0 <= max_size c -> codec_ok c ->
  match codec_decode c src with
  | (Ok (Some x), c', src') => codec_decode c (src ++ t) = (Ok (Some x), c', src' ++ t)
  | (Ok None, c', src') => codec_decode c (src ++ t) = codec_decode c' (src' ++ t)
  | (Err e, c', src') => codec_decode c (src ++ t) = (Err e, c', src' ++ t)
  | _ => True
  end.
Proof.
  assert (Hframe : forall fuel h m src, 0 <= remaining_length h ->
    match decode_loop (S fuel) (mkCodec (Frame h) m) src with
    | (Ok (Some x), c', src') =>
        decode_loop (S fuel) (mkCodec (Frame h) m) (src ++ t) = (Ok (Some x), c', src' ++ t)
    | (Ok None, c', src') =>
        decode_loop (S fuel) (mkCodec (Frame h) m) (src ++ t) = codec_decode c' (src' ++ t)
    | (Err e, c', src') =>
        decode_loop (S fuel) (mkCodec (Frame h) m) (src ++ t) = (Err e, c', src' ++ t)
    | _ => True
    end).
  { intros fuel h m s Hh. pose proof (len_nonneg t).
    destruct (Z.le_gt_cases (remaining_length h) (len s)) as [Hle|Hgt].
    - rewrite !decode_frame by (rewrite ?len_app; lia). cbn zeta.
      unfold len in Hle. rewrite take_app_le, drop_app_le by lia.
      by destruct (decode_packet _ _).
    - by rewrite decode_frame_wait. }
  intros Hs Hm Hok. destruct c as [[|h] m]; simpl in Hm; [|by apply (Hframe 1%nat), Hok].
  unfold codec_decode at 1. destruct src as [|fb tail]; [done|].
  apply Forall_cons in Hs as [Hfb Htail].
  destruct (Z.lt_ge_cases (len tail) 1) as [Hsh|Hlen].
  { cbn [decode_loop state]. by rewrite len_cons, (proj2 (Z.ltb_lt _ _)) by lia. }
  pose proof (decode_variable_length_spec tail Htail) as Hspec.
  pose proof (decode_variable_length_app tail t) as Happ.
  pose proof (len_nonneg t) as Ht.
  destruct (decode_variable_length tail) as [[[n k]|]|e| |] eqn:Hv;
    try (cbn [decode_loop state]; rewrite len_cons, (proj2 (Z.ltb_ge _ _)), Hv by lia; done).
  2: { cbn [decode_loop state]. rewrite len_cons, (proj2 (Z.ltb_ge _ _)), Hv by lia.
       unfold codec_decode. cbn [decode_loop state app].
       by rewrite len_cons, len_app, (proj2 (Z.ltb_ge _ _)), Happ by lia. }
  destruct Hspec as (Hn & Hk & Hkt).
  destruct (negb (m =? 0) && (m <? n)) eqn:Hmax.
  { cbn [decode_loop state max_size]. rewrite len_cons, (proj2 (Z.ltb_ge _ _)), Hv, Hmax by lia.
    unfold codec_decode. cbn [decode_loop state max_size app].
    by rewrite len_cons, len_app, (proj2 (Z.ltb_ge _ _)), Happ, Hmax by lia. }
  assert (Hlim : m = 0 \/ n <= m).
  { apply andb_false_iff in Hmax as [H|H]; [left|right].
    - by apply negb_false_iff, Z.eqb_eq in H.
    - by apply Z.ltb_ge in H. }
  rewrite (decode_header 0 m fb tail n k) by (done || lia).
  assert (Heq : codec_decode (mkCodec FrameHeader m) ((fb :: tail) ++ t) =
    decode_loop 1 (mkCodec (Frame (mkFixedHeader fb n)) m) (drop (Z.to_nat k) tail ++ t)).
  { unfold codec_decode. simpl app.
    rewrite (decode_header 0 m fb (tail ++ t) n k) by (done || rewrite ?len_app; lia).
    unfold len in Hkt. by rewrite drop_app_le by lia. }
  rewrite Heq. apply Hframe. unfold is_u in Hn. simpl. lia.
Qed.

(** ** The stream *)

Lemma drain_loop_fuel n n' c src :
  wf_codec c src ->
  (length src + is_frame c < n)%nat -> (length src + is_frame c < n')%nat ->
  drain_loop n c src = drain_loop n' c src.
Proof.
  revert n' c src. induction n as [|n IH]; intros n' c src Hwf Hn Hn'; [lia|].
  destruct n' as [|n']; [lia|]. simpl.
  pose proof (codec_decode_progress c src Hwf) as Hp.
  destruct (codec_decode c src) as [[[[x|]|e| |] c'] src']; try done.
  destruct Hp as (Hwf' & _ & _ & Hlt). by rewrite (IH n') by (done || lia).
Qed.

Lemma drain_loop_safe n c src :
  wf_codec c src -> (length src + is_frame c < n)%nat ->
  let '(xs, r, c', src') := drain_loop n c src in
  match r with
  | Ok _ => wf_codec c' src' /\ max_size c' = max_size c
  | Err _ => True
  | Panic | Diverged => False
  end.
Proof.
  revert c src. induction n as [|n IH]; intros c src Hwf Hn; [lia|]. simpl.
  pose proof (codec_decode_progress c src Hwf) as Hp.
  destruct (codec_decode c src) as [[[[x|]|e| |] c'] src']; try done.
  destruct Hp as (Hwf' & _ & Hm & Hlt). specialize (IH c' src' Hwf' ltac:(lia)).
  destruct (drain_loop n c' src') as [[[xs r] c''] src'']. by rewrite Hm in IH.
Qed.

Lemma is_frame_le c : (is_frame c <= 1)%nat.
Proof. unfold is_frame. destruct (state c); lia. Qed.

Lemma drain_safe c src :
  wf_codec c src ->
  let '(xs, r, c', src') := drain c src in
  match r with
  | Ok _ => wf_codec c' src' /\ max_size c' = max_size c
  | Err _ => True
  | Panic | Diverged => False
  end.
Proof. intros H. apply drain_loop_safe; [done|]. pose proof (is_frame_le c). lia. Qed.

Lemma drain_unfold c src :
  wf_codec c src ->
  drain c src =
    match codec_decode c src with
    | (Ok (Some x), c, src) => let '(xs, r, c, src) := drain c src in (x :: xs, r, c, src)
    | (Ok None, c, src) => ([], Ok tt, c, src)
    | (Err e, c, src) => ([], Err e, c, src)
    | (Panic, c, src) => ([], Panic, c, src)
    | (Diverged, c, src) => ([], Diverged, c, src)
    end.
Proof.
  intros Hwf. unfold drain at 1. rewrite Nat.add_succ_r. simpl.
  pose proof (codec_decode_progress c src Hwf) as Hp.
  destruct (codec_decode c src) as [[[[x|]|e| |] c'] src']; try done.
  destruct Hp as (Hwf' & _ & _ & Hlt). unfold drain.
  pose proof (is_frame_le c). pose proof (is_frame_le c').
  by rewrite (drain_loop_fuel (length src + 2) (length src' + 3)) by (done || lia).
Qed.

(** Draining [a], then [b] appended to what is left, is draining [a ++ b]. *)
Lemma drain_app n c a b :
  (length a + is_frame c < n)%nat -> wf_codec c a -> u8s b ->
  let '(xs, r, c1, rest) := drain c a in
  match r with
  | Ok _ => drain c (a ++ b) =
      let '(ys, r, c2, rest) := drain c1 (rest ++ b) in (xs ++ ys, r, c2, rest)
  | Err e => drain c (a ++ b) = (xs, Err e, c1, rest ++ b)
  | _ => False
  end.
Proof.
  revert c a. induction n as [|n IH]; intros c a Hn Hwf Hb; [lia|].
  destruct Hwf as (Ha & Hm & Hok) eqn:?.
  assert (Hwf' : wf_codec c (a ++ b)) by (split_and!; [by apply u8s_app|done|done]).
  rewrite (drain_unfold c a) by done.
  pose proof (codec_decode_progress c a Hwf) as Hp.
  pose proof (codec_decode_app c a b Ha Hm Hok) as Happ.
  destruct (codec_decode c a) as [[[[x|]|e| |] c'] a'] eqn:Hd; try done.
  - rewrite (drain_unfold c (a ++ b)), Happ by done.
    destruct Hp as (Hwf'' & _ & _ & Hlt). specialize (IH c' a' ltac:(lia) Hwf'' Hb).
    destruct (drain c' a') as [[[xs [|e| |]] c1] rest]; try done.
    + rewrite IH. by destruct (drain c1 (rest ++ b)) as [[[ys r] c2] rest'].
    + by rewrite IH.
  - rewrite (drain_unfold c (a ++ b)), Happ by done.
    assert (wf_codec c' (a' ++ b)).
    { destruct Hp as ((? & ? & ?) & _). split_and!; [by apply u8s_app|done|done]. }
    rewrite (drain_unfold c' (a' ++ b)) by done.
    destruct (codec_decode c' (a' ++ b)) as [[[[y|]|e| |] c2] rest]; try done.
    by destruct (drain c2 rest) as [[[ys r] c3] rest'].
  - by rewrite (drain_unfold c (a ++ b)), Happ by done.
Qed.

(** Feeding the chunks one by one is draining their concatenation. *)
Lemma feed_concat c buf chunks :
  wf_codec c buf -> u8s (concat chunks) -> drain c buf = ([], Ok tt, c, buf) ->
  match drain c (buf ++ concat chunks) with
  | (xs, r, c', rest) => exists rest', feed c buf chunks = (xs, r, c', rest') /\
      match r with Ok _ => rest' = rest | _ => True end
  end.
Proof.
  revert c buf. induction chunks as [|ch chunks IH]; intros c buf Hwf Hu Hdry; simpl.
  - rewrite app_nil_r, Hdry. eauto.
  - simpl in Hu. apply u8s_app in Hu as [Hch Hu]. rewrite app_assoc.
    assert (Hwf' : wf_codec c (buf ++ ch)).
    { destruct Hwf as (? & ? & ?). split_and!; [by apply u8s_app|done|done]. }
    pose proof (drain_app _ c (buf ++ ch) (concat chunks) (Nat.lt_succ_diag_r _) Hwf' Hu) as Happ.
    pose proof (drain_safe c (buf ++ ch) Hwf') as Hsafe.
    destruct (drain c (buf ++ ch)) as [[[xs [[]|e| |]] c1] rest] eqn:Hd; try done.
    + rewrite Happ. destruct Hsafe as [Hwf1 _].
      assert (Hdry1 : drain c1 rest = ([], Ok tt, c1, rest)).
      { pose proof (drain_app _ c (buf ++ ch) [] (Nat.lt_succ_diag_r _) Hwf' (Forall_nil_2 _)) as H0.
        rewrite Hd, !app_nil_r, Hd in H0.
        destruct (drain c1 rest) as [[[ys r] c2] rest2]. injection H0 as Hx -> -> ->.
        apply (f_equal length) in Hx. rewrite length_app in Hx.
        destruct ys; [done|simpl in Hx; lia]. }
      specialize (IH c1 rest Hwf1 Hu Hdry1).
      destruct (drain c1 (rest ++ concat chunks)) as [[[ys r] c2] rest2].
      destruct IH as (rest' & -> & ?). eauto.
    + rewrite Happ. eauto.
Qed.
(** A complete frame at the front of the buffer is decoded, alone. *)
Lemma decode_frame_image m fb w t q :
  0 <= m -> len w <= MAX_PACKET_SIZE -> (m = 0 \/ len w <= m) -> decode_packet w fb = Ok q ->
  codec_decode (Codec_new m) (([fb] ++ var_int_image 3 (len w) ++ w) ++ t) =
    (Ok (Some (q, len w)), Codec_new m, t).
Proof.
  intros Hm Hmax Hlim Hq. pose proof (len_nonneg w) as Hpos.
  unfold codec_decode, Codec_new. rewrite <- !app_assoc.
  match goal with |- context [[?b] ++ ?x] => change ([b] ++ x) with (b :: x) end.
  pose proof (var_int_image_len 3 (len w)) as Hv. pose proof (len_nonneg (w ++ t)).
  erewrite (decode_header 0 m _ _ (len w) (len (var_int_image 3 (len w)))); [|..|done|done].
  - rewrite drop_len.
    rewrite decode_frame by (rewrite len_app; cbn [remaining_length]; pose proof (len_nonneg t); lia).
    cbn zeta. simpl remaining_length. rewrite take_len, drop_len. simpl first_byte. by rewrite Hq.
  - rewrite len_app. lia.
  - apply decode_variable_length_image. lia.
  - rewrite len_app. lia.
Qed.

(** Draining the images of a list of packets. *)
Lemma drain_frames {A} m (l : list A) (fb : A -> Z) (w : A -> bytes) (q : A -> P) :
  0 <= m ->
  Forall (fun x => u8 (fb x) /\ u8s (w x) /\ len (w x) <= MAX_PACKET_SIZE /\
                   (m = 0 \/ len (w x) <= m) /\ decode_packet (w x) (fb x) = Ok (q x)) l ->
  let image x := [fb x] ++ var_int_image 3 (len (w x)) ++ w x in
  u8s (concat (image <$> l)) /\
  drain (Codec_new m) (concat (image <$> l)) =
    ((fun x => (q x, len (w x))) <$> l, Ok tt, Codec_new m, []).
Proof.
  intros Hm Hl image. induction Hl as [|x l (Hfb & Hw & Hmax & Hlim & Hq) Hl [IHu IH]];
    [by split; [constructor|]|].
  assert (Hu : u8s (concat (image <$> x :: l))).
  { rewrite concat_fmap_cons. apply u8s_app. split; [|done]. unfold image. rewrite !u8s_app.
    split_and!; [by constructor| |done]. apply var_int_image_u8s.
    pose proof (len_nonneg (w x)). unfold MAX_PACKET_SIZE in Hmax.
    change (128 ^ (Z.of_nat 3 + 1)) with 268435456. lia. }
  split; [done|]. rewrite drain_unfold by (by split_and!). rewrite concat_fmap_cons.
  unfold image at 1. rewrite (decode_frame_image m _ _ _ (q x)) by done.
  by rewrite IH.
Qed.

(** The same, cut into chunks on the way. *)
Lemma feed_frames {A} m (l : list A) (fb : A -> Z) (w : A -> bytes) (q : A -> P) chunks :
  0 <= m ->
  Forall (fun x => u8 (fb x) /\ u8s (w x) /\ len (w x) <= MAX_PACKET_SIZE /\
                   (m = 0 \/ len (w x) <= m) /\ decode_packet (w x) (fb x) = Ok (q x)) l ->
  concat chunks = concat ((fun x => [fb x] ++ var_int_image 3 (len (w x)) ++ w x) <$> l) ->
  feed (Codec_new m) [] chunks =
    ((fun x => (q x, len (w x))) <$> l, Ok tt, Codec_new m, []).
Proof.
  intros Hm Hl Hch. destruct (drain_frames m l fb w q Hm Hl) as [Hu Hd].
  assert (Hwf : wf_codec (Codec_new m) []) by (by split_and!; [constructor|..]).
  rewrite <- Hch in Hu. pose proof (feed_concat (Codec_new m) [] chunks Hwf Hu eq_refl) as H.
  simpl app in H. rewrite Hch, Hd in H. destruct H as (rest' & -> & ->). done.
Qed.
End framing.

(** ** The v3 codec *)

Module V3Codec.
Import V3 V3Proofs.

(** [Decoder for v3::Codec]. *)
Definition v3_decode (c : Codec) (src : bytes) := codec_decode V3.decode_packet c src.

(** [Encoder<Packet> for v3::Codec]: the content size is cast to [u32]. *)
Definition v3_encode (item : Packet) : io EncodeError unit :=
  ensure (match item with
          | PPublish p => negb (is_qos12 (qos p) && negb (is_some (packet_id p)))
          | _ => true
          end) EncodeError.PacketIdRequired ;;;
  V3.encode item (wrap 32 (get_encoded_size item)).

Lemma v3_decode_packet_returns src fb : u8s src -> returns (V3.decode_packet src fb).
Proof.
  intros Hs. eapply (wp_returns (decode_body fb) src). by apply wp_decode_body.
Qed.

Definition fits (m : Z) (p : Packet) : Prop :=
  wf_packet p /\ get_encoded_size p <= MAX_PACKET_SIZE /\ (m = 0 \/ get_encoded_size p <= m).

Lemma v3_encode_writes m p : fits m p -> writes (v3_encode p) (packet_image p) tt.
Proof.
  intros (Hwf & Hmax & _). apply writes_ensure.
  - destruct p; try done. destruct Hwf as [_ Hid _ _].
    destruct (qos p); [done|..]; by destruct Hid as (id & -> & _).
  - rewrite wrap_small; [by apply encode_writes|].
    pose proof (body_image_len p Hwf) as Hl. pose proof (len_nonneg (body_image p)).
    unfold is_u, MAX_PACKET_SIZE in *. change (2 ^ 32) with 4294967296. lia.
Qed.

Definition item_of (p : Packet) : Packet * Z := (normalize p, get_encoded_size p).

Lemma fits_frame m p :
  fits m p ->
  u8 (first_byte_of p) /\ u8s (body_image p) /\ len (body_image p) <= MAX_PACKET_SIZE /\
  (m = 0 \/ len (body_image p) <= m) /\
  V3.decode_packet (body_image p) (first_byte_of p) = Ok (normalize p).
Proof.
  intros (Hwf & Hmax & Hlim). rewrite body_image_len by done.
  split_and!; [apply first_byte_u8|by apply body_image_u8s|done|done|by apply decode_packet_image].
Qed.

(** Chunking does not matter: however the network cuts a byte stream
    into reads, the packets the v3 decoder yields, the way it ends
    (waiting or with the error) and its state are those of the whole
    stream read at once; nothing panics. *)
Theorem v3_chunking_irrelevant (m : Z) (chunks : list bytes) :
  0 <= m -> u8s (concat chunks) ->
  exists xs r c rest rest',
    drain V3.decode_packet (Codec_new m) (concat chunks) = (xs, r, c, rest) /\
    feed V3.decode_packet (Codec_new m) [] chunks = (xs, r, c, rest') /\
    returns r /\ (r = Ok tt -> rest' = rest).
Proof.
  intros Hm Hu.
  assert (Hwf : wf_codec (Codec_new m) []) by (by split_and!; [constructor|..]).
  assert (Hwf' : wf_codec (Codec_new m) (concat chunks)) by (by split_and!).
  pose proof (feed_concat V3.decode_packet v3_decode_packet_returns (Codec_new m) [] chunks
                Hwf Hu eq_refl) as H. simpl app in H.
  pose proof (drain_safe V3.decode_packet v3_decode_packet_returns _ _ Hwf') as Hsafe.
  destruct (drain V3.decode_packet (Codec_new m) (concat chunks)) as [[[xs r] c] rest].
  destruct H as (rest' & Hf & Hrest). exists xs, r, c, rest, rest'. split_and!; auto.
  - by destruct r.
  - by intros ->.
Qed.

Lemma v3_chunking_irrelevant_witness :
  u8s (concat [[192]; [0; 64]; []; [2; 0]; [7; 224]]) /\
  exists xs r c rest rest',
    drain V3.decode_packet (Codec_new 0) (concat [[192]; [0; 64]; []; [2; 0]; [7; 224]])
      = (xs, r, c, rest) /\
    feed V3.decode_packet (Codec_new 0) [] [[192]; [0; 64]; []; [2; 0]; [7; 224]]
      = (xs, r, c, rest') /\
    returns r /\ (r = Ok tt -> rest' = rest).
Proof.
  assert (Hu : u8s (concat [[192]; [0; 64]; []; [2; 0]; [7; 224]]))
    by (repeat constructor; done).
  split; [done|]. apply (v3_chunking_irrelevant 0 [[192]; [0; 64]; []; [2; 0]; [7; 224]]); done.
Defined.

(** End to end: the packets one v3 codec encodes, one after the
    other, into its output buffer are exactly the packets another v3
    codec decodes from these bytes, in order, however the bytes are cut
    into chunks on the way; nothing is left over. *)
Theorem v3_stream_roundtrip (m : Z) (ps : list Packet) (chunks : list bytes) (out : bytes) :
  0 <= m -> Forall (fits m) ps ->
  for_each v3_encode ps [] = (Ok tt, out) -> concat chunks = out ->
  feed V3.decode_packet (Codec_new m) [] chunks = (item_of <$> ps, Ok tt, Codec_new m, []).
Proof.
  intros Hm Hps Hout Hch.
  rewrite (writes_for_each v3_encode packet_image) in Hout.
  2: { intros p Hp. rewrite Forall_forall in Hps. by eapply v3_encode_writes, Hps. }
  injection Hout as <-. simpl in Hch.
  rewrite (feed_frames V3.decode_packet v3_decode_packet_returns m ps first_byte_of body_image
             normalize); [|done| |done].
  - do 3 f_equal. apply list_fmap_ext. intros i p Hp. unfold item_of.
    rewrite Forall_lookup in Hps. destruct (Hps i p Hp) as (? & _). by rewrite body_image_len.
  - eapply Forall_impl; [exact Hps|]. apply fits_frame.
Qed.

Lemma v3_stream_roundtrip_witness :
  Forall (fits 0) [PPingRequest; sample_publish; PDisconnect] /\
  feed V3.decode_packet (Codec_new 0) []
    [[192]; [0; 61; 13; 0; 5; 116; 111; 112; 105]; [99; 67; 33; 100; 97; 116; 97; 224]; [0]]
    = ([(PPingRequest, 0); (sample_publish, 13); (PDisconnect, 0)], Ok tt, Codec_new 0, []).
Proof.
  assert (Hf : Forall (fits 0) [PPingRequest; sample_publish; PDisconnect]).
  { pose proof sample_publish_wf.
    assert (Hfit : forall p, wf_packet p -> get_encoded_size p <= MAX_PACKET_SIZE -> fits 0 p)
      by (unfold fits; auto).
    constructor; [by apply Hfit|constructor; [by apply Hfit|constructor; [by apply Hfit|]]].
    constructor. }
  split; [done|].
  apply (v3_stream_roundtrip 0 [PPingRequest; sample_publish; PDisconnect]
    [[192]; [0; 61; 13; 0; 5; 116; 111; 112; 105]; [99; 67; 33; 100; 97; 116; 97; 224]; [0]]
    [192; 0; 61; 13; 0; 5; 116; 111; 112; 105; 99; 67; 33; 100; 97; 116; 97; 224; 0]); done.
Defined.

(** The limit on inbound packets: a header that announces more than a
    non zero [max_size] is refused before the frame is read, and a packet
    that is returned never exceeded the limit. *)
Theorem v3_max_size_enforced (c : Codec) (src : bytes) :
  wf_codec c src -> max_size c <> 0 ->
  match v3_decode c src with
  | (Ok (Some (_, n)), _, _) => n <= max_size c
  | (Ok None, c', _) =>
      match state c' with Frame h => remaining_length h <= max_size c | FrameHeader => True end
  | (Err _, _, _) => True
  | (Panic, _, _) | (Diverged, _, _) => False
  end.
Proof.
  intros Hwf Hm.
  pose proof (codec_decode_progress V3.decode_packet v3_decode_packet_returns c src Hwf) as Hp.
  unfold v3_decode. destruct Hwf as (Hs & Hm0 & Hok).
  assert (Hfr : forall fuel h s p n c' s', (max_size c = 0 \/ remaining_length h <= max_size c) ->
            decode_loop V3.decode_packet (S fuel) (mkCodec (Frame h) (max_size c)) s
              = (Ok (Some (p, n)), c', s') -> n <= max_size c).
  { intros fuel h s p n c' s' Hl. destruct (Z.le_gt_cases (remaining_length h) (len s)).
    - rewrite decode_frame by done. cbn zeta. destruct (V3.decode_packet _ _); try done.
      intros [=]. subst. lia.
    - by rewrite decode_frame_wait. }
  destruct (codec_decode V3.decode_packet c src) as [[[[[p n]|]|e| |] c'] src'] eqn:Hd; try done.
  - destruct c as [[|h] m]; [|by eapply (Hfr 1%nat), Hd; apply Hok].
    unfold codec_decode in Hd. cbn [decode_loop state max_size] in Hd.
    destruct (len src <? 2); [done|]. destruct src as [|fb tail]; [done|].
    destruct (decode_variable_length tail) as [[[n' k]|]|e| |]; try done.
    destruct (negb (m =? 0) && (m <? n')) eqn:Hmax; [done|].
    destruct (advance (k + 1) (fb :: tail)) as [[[]|e| |] s']; try done.
    destruct (len s' <? n'); [done|].
    eapply (Hfr 0%nat (mkFixedHeader fb n')), Hd. simpl. right.
    apply andb_false_iff in Hmax as [H|H].
    + apply negb_false_iff, Z.eqb_eq in H. done.
    + by apply Z.ltb_ge in H.
  - destruct Hp as ((_ & _ & Hok') & Hmx). unfold codec_ok in Hok'.
    destruct (state c'); [done|]. rewrite Hmx in Hok'. destruct Hok' as [_ [|]]; [done|lia].
Qed.

Lemma v3_max_size_enforced_witness :
  wf_codec (Codec_new 5) [0; 9] /\
  v3_decode (Codec_new 5) [0; 9] = (Err (MaxSizeExceeded 9 5), Codec_new 5, [0; 9]) /\
  match v3_decode (Codec_new 5) [0; 9] with
  | (Ok (Some (_, n)), _, _) => n <= 5
  | (Ok None, c', _) =>
      match state c' with Frame h => remaining_length h <= 5 | FrameHeader => True end
  | (Err _, _, _) => True
  | (Panic, _, _) | (Diverged, _, _) => False
  end.
Proof.
  assert (Hwf : wf_codec (Codec_new 5) [0; 9]) by (split_and!; [repeat constructor; done|done|done]).
  split; [done|]. split; [reflexivity|]. by apply (v3_max_size_enforced (Codec_new 5) [0; 9]).
Defined.

End V3Codec.
