(* ===== verification/CodecVersion.v ===== *)
(** * Protocol version detection: [codec/version.rs]

    [VersionCodec::decode] looks at the CONNECT packet at the front of
    the stream, without consuming it, and tells which codec takes over. *)

From stdpp Require Import prelude list strings.
From Stdlib Require Import ZArith Lia.
From S2P Require Import Prelude CodecTypes CodecUtils CodecV3 CodecV3Proofs.

Local Open Scope Z_scope.

Inductive ProtocolVersion : Type := MQTT3 | MQTT5.

(** [&src[i..j]]: [None] when the slice is out of range. *)
Definition slice (i j : Z) (s : bytes) : option bytes :=
  if (i <=? j) && (j <=? len s)
  then Some (take (Z.to_nat (j - i)) (drop (Z.to_nat i) s)) else None.

(** [r?] and [expr], with a [None] for a panic. *)
Definition or_panic {E A B} (o : option A) (k : A -> outcome E B) : outcome E B :=
  match o with Some a => k a | None => Panic end.

(** The level byte at [pos]. *)
Definition level_version (src : bytes) (pos : Z) : outcome DecodeError (option ProtocolVersion) :=
  or_panic (src !! Z.to_nat pos) (fun level =>
    if (level =? MQTT_LEVEL_31) || (level =? MQTT_LEVEL_311) then Ok (Some MQTT3)
    else if level =? MQTT_LEVEL_5 then Ok (Some MQTT5)
    else Err InvalidProtocol).

(** The protocol name and level, from [consumed] on. *)
Definition connect_version (src : bytes) (consumed : Z)
    : outcome DecodeError (option ProtocolVersion) :=
  if len src <=? consumed + 6 then Ok None
  else
    or_panic (slice consumed (consumed + 2) src) (fun l =>
      match l with
      | [b1; b0] =>
          let protocol_len := b1 * 256 + b0 in
          if protocol_len =? 4 then
            or_panic (slice (consumed + 2) (consumed + 6) src) (fun name =>
              if bool_decide (name = MQTT) then level_version src (consumed + 2 + protocol_len)
              else Err InvalidProtocol)
          else if protocol_len =? 6 then
            if len src <=? consumed + 8 then Ok None
            else
              or_panic (slice (consumed + 2) (consumed + 8) src) (fun name =>
                if bool_decide (name = MQISDP) then level_version src (consumed + 2 + protocol_len)
                else Err InvalidProtocol)
          else Err InvalidProtocol
      | _ => Err InvalidProtocol
      end).

Definition version_decode (src : bytes) : outcome DecodeError (option ProtocolVersion) :=
  if len src <? 2 then Ok None
  else
    match src with
    | [] => Panic
    | first_byte :: tail =>
        match decode_variable_length tail with
        | Ok (Some (_, consumed)) =>
            let consumed := consumed + 1 in
            if first_byte =? packet_type.CONNECT then connect_version src consumed
            else Err UnsupportedPacketType
        | Ok None => Ok None
        | Err e => Err e
        | Panic => Panic
        | Diverged => Diverged
        end
    end.

(** [VersionCodec::encode] always refuses. *)
Definition version_encode (v : ProtocolVersion) : io EncodeError unit :=
  throw EncodeError.UnsupportedVersion.

(** ** Slices *)

Lemma slice_app i j (s t : bytes) w : 0 <= i -> slice i j s = Some w -> slice i j (s ++ t) = Some w.
Proof.
  unfold slice. intros Hi H. pose proof (len_nonneg t).
  destruct (Z.leb_spec i j); [|done]. destruct (Z.leb_spec j (len s)); [|done].
  injection H as <-. rewrite len_app, (proj2 (Z.leb_le _ _)) by lia. simpl. f_equal.
  unfold len in *. rewrite drop_app_le, take_app_le; [done|rewrite length_drop; lia|lia].
Qed.

Lemma slice_some i j (s : bytes) :
  0 <= i <= j -> j <= len s ->
  exists w, slice i j s = Some w /\ len w = j - i.
Proof.
  intros Hi Hj. unfold slice.
  rewrite !(proj2 (Z.leb_le _ _)) by lia. simpl. eexists. split; [done|].
  unfold len in *. rewrite length_take, length_drop. lia.
Qed.

Lemma slice_image i (a w t : bytes) :
  i = len a -> slice i (i + len w) (a ++ w ++ t) = Some w.
Proof.
  intros ->. unfold slice. rewrite !len_app.
  pose proof (len_nonneg a). pose proof (len_nonneg w). pose proof (len_nonneg t).
  rewrite !(proj2 (Z.leb_le _ _)) by lia. simpl.
  replace (len a + len w - len a) with (len w) by lia. by rewrite drop_len, take_len.
Qed.

(** ** Properties *)

Lemma level_version_spec src pos t :
  0 <= pos < len src ->
  level_version (src ++ t) pos = level_version src pos /\ returns (level_version src pos) /\
  level_version src pos <> Ok None.
Proof.
  intros Hp. unfold level_version, or_panic, len in *.
  rewrite lookup_app_l by lia.
  destruct (lookup_lt_is_Some_2 src (Z.to_nat pos)) as [l ->]; [lia|].
  split; [done|]. by repeat case_match.
Qed.

Lemma connect_version_spec src consumed t :
  0 <= consumed ->
  returns (connect_version src consumed) /\
  (connect_version src consumed <> Ok None ->
   connect_version (src ++ t) consumed = connect_version src consumed).
Proof.
  intros Hc. unfold connect_version. pose proof (len_nonneg t).
  destruct (Z.leb_spec (len src) (consumed + 6)); [done|].
  rewrite len_app, (proj2 (Z.leb_gt (len src + len t) (consumed + 6))) by lia.
  destruct (slice_some consumed (consumed + 2) src) as (l & Hl & Hll); [lia|lia|].
  rewrite Hl, (slice_app _ _ _ _ _ Hc Hl). simpl.
  destruct l as [|b1 [|b0 []]]; try done.
  destruct (Z.eqb_spec (b1 * 256 + b0) 4) as [-> |Hn4].
  { destruct (slice_some (consumed + 2) (consumed + 6) src) as (w & Hw & _); [lia|lia|].
    rewrite Hw, (slice_app (consumed + 2) _ _ _ w ltac:(lia) Hw). simpl.
    case_bool_decide; [|done].
    destruct (level_version_spec src (consumed + 2 + 4) t) as (? & ? & ?); [lia|auto]. }
  destruct (Z.eqb_spec (b1 * 256 + b0) 6) as [-> |Hn6]; [|done].
  destruct (Z.leb_spec (len src) (consumed + 8)); [done|].
  rewrite (proj2 (Z.leb_gt (len src + len t) (consumed + 8))) by lia.
  destruct (slice_some (consumed + 2) (consumed + 8) src) as (w & Hw & _); [lia|lia|].
  rewrite Hw, (slice_app (consumed + 2) _ _ _ w ltac:(lia) Hw). simpl.
  case_bool_decide; [|done].
  destruct (level_version_spec src (consumed + 2 + 6) t) as (? & ? & ?); [lia|auto].
Qed.

(** Version detection is safe and decided by a prefix: on any bytes
    [VersionCodec::decode] returns (no index is out of range), and once it
    has decided (a version or an error), bytes that arrive later do not
    change the decision. *)
Theorem version_decode_stable (src t : bytes) :
  u8s src ->
  returns (version_decode src) /\
  (version_decode src <> Ok None -> version_decode (src ++ t) = version_decode src).
Proof.
  intros Hs. unfold version_decode. pose proof (len_nonneg t).
  destruct src as [|fb tail]; [done|]. apply Forall_cons in Hs as [_ Htail].
  rewrite len_cons. destruct (Z.ltb_spec (1 + len tail) 2); [done|].
  simpl app. rewrite len_cons, len_app, (proj2 (Z.ltb_ge _ _)) by lia.
  pose proof (decode_variable_length_spec tail Htail) as Hspec.
  pose proof (decode_variable_length_app tail t) as Happ.
  destruct (decode_variable_length tail) as [[[n k]|]|e| |]; try done; rewrite Happ; [|done].
  destruct (fb =? packet_type.CONNECT); [|done].
  apply (connect_version_spec (fb :: tail) (k + 1) t). lia.
Qed.

Lemma version_decode_stable_witness :
  version_decode [16; 152; 2; 0; 4; 77; 81; 84; 84; 5] = Ok (Some MQTT5) /\
  version_decode ([16; 152; 2; 0; 4; 77; 81; 84; 84; 5] ++ [192; 0; 15]) = Ok (Some MQTT5).
Proof.
  assert (Hs : u8s [16; 152; 2; 0; 4; 77; 81; 84; 84; 5]) by (repeat constructor; done).
  split; [reflexivity|].
  by apply (version_decode_stable [16; 152; 2; 0; 4; 77; 81; 84; 84; 5] [192; 0; 15] Hs).
Defined.

(** The name and level after any header. *)
Lemma connect_version_image (hd name : bytes) (level : Z) (rest : bytes) :
  name = MQTT \/ name = MQISDP ->
  connect_version (hd ++ str_image name ++ level :: rest) (len hd) =
    level_version [level] 0.
Proof.
  intros Hname. unfold connect_version, str_image. pose proof (len_nonneg rest) as Hr.
  assert (Hn : 4 <= len name) by (destruct Hname as [-> | ->]; unfold len; simpl; lia).
  assert (Hl : len (hd ++ (be16 (len name) ++ name) ++ level :: rest) =
               len hd + 3 + len name + len rest)
    by (rewrite !len_app, len_cons; change (len (be16 (len name))) with 2; lia).
  rewrite Hl, (proj2 (Z.leb_gt _ (len hd + 6))) by lia. rewrite <- app_assoc.
  change (len hd + 2) with (len hd + len (be16 (len name))).
  rewrite (slice_image (len hd) hd (be16 (len name)) (name ++ level :: rest)) by done.
  change (len hd + len (be16 (len name))) with (len hd + 2).
  assert (Hlv : level_version (hd ++ be16 (len name) ++ name ++ level :: rest)
                  (len hd + 2 + len name) = level_version [level] 0).
  { unfold level_version. rewrite !app_assoc, lookup_app_r.
    - rewrite !length_app. replace (Z.to_nat _ - _)%nat with 0%nat; [done|].
      unfold len. simpl. lia.
    - rewrite !length_app. unfold len. simpl. lia. }
  assert (Hs : forall k, k = 2 + len name ->
    slice (len hd + 2) (len hd + k) (hd ++ be16 (len name) ++ name ++ level :: rest) = Some name).
  { intros k ->. rewrite app_assoc, Z.add_assoc. apply slice_image. by rewrite len_app. }
  set (src := hd ++ be16 (len name) ++ name ++ level :: rest) in *. clearbody src.
  destruct Hname as [-> | ->]; simpl or_panic.
  - change (len MQTT / 256 * 256 + len MQTT mod 256) with 4. simpl (4 =? 4). cbv iota.
    rewrite (Hs 6) by done. apply Hlv.
  - change (len MQISDP / 256 * 256 + len MQISDP mod 256) with 6. simpl (6 =? _). cbv iota.
    rewrite (proj2 (Z.leb_gt _ (len hd + 8))) by (change (len MQISDP) with 6; lia).
    rewrite (Hs 8) by done. apply Hlv.
Qed.

(** A CONNECT frame: its name and level decide. *)
Lemma version_decode_image (name : bytes) (level : Z) (w t : bytes) :
  name = MQTT \/ name = MQISDP ->
  len (str_image name ++ level :: w) <= MAX_PACKET_SIZE ->
  version_decode ((packet_type.CONNECT
      :: var_int_image 3 (len (str_image name ++ level :: w)) ++ str_image name ++ level :: w) ++ t)
    = level_version [level] 0.
Proof.
  intros Hname Hmax. set (body := str_image name ++ level :: w) in *.
  pose proof (len_nonneg body) as Hpos.
  rewrite <- app_comm_cons, <- app_assoc. unfold version_decode.
  pose proof (var_int_image_len 3 (len body)) as Hv. pose proof (len_nonneg t).
  rewrite len_cons, !len_app, (proj2 (Z.ltb_ge _ _)) by lia.
  rewrite decode_variable_length_image by lia.
  change (packet_type.CONNECT =? packet_type.CONNECT) with true. cbv iota.
  rewrite app_comm_cons. replace (len (var_int_image 3 (len body)) + 1)
    with (len (packet_type.CONNECT :: var_int_image 3 (len body))) by (rewrite len_cons; lia).
  unfold body at 2. rewrite <- app_assoc. by apply connect_version_image.
Qed.

Lemma v3_connect_version c t :
  V3Proofs.wf_connect c -> V3.get_encoded_size (V3.PConnect c) <= MAX_PACKET_SIZE ->
  version_decode (V3Proofs.packet_image (V3.PConnect c) ++ t) = Ok (Some MQTT3).
Proof.
  intros Hwf Hmax. pose proof (V3Proofs.body_image_len (V3.PConnect c) Hwf) as Hl.
  rewrite <- Hl in Hmax. unfold V3Proofs.packet_image. cbn [V3Proofs.body_image] in *.
  apply version_decode_image; [|done]. unfold Protocol_name. repeat case_match; auto.
Qed.

(** Detection agrees with the codec it selects: the bytes the v3 codec
    writes for a CONNECT are recognised as MQTT 3, whatever follows. *)
Theorem version_of_v3_connect (c : V3.Connect) (t : bytes) :
  V3Proofs.wf_connect c -> V3.get_encoded_size (V3.PConnect c) <= MAX_PACKET_SIZE ->
  version_decode (V3Proofs.packet_image (V3.PConnect c) ++ t) = Ok (Some MQTT3).
Proof. apply v3_connect_version. Qed.

Lemma version_of_v3_connect_witness :
  version_decode (V3Proofs.packet_image (V3.PConnect V3Proofs.sample_connect_31) ++ [192; 0])
    = Ok (Some MQTT3).
Proof.
  apply (version_of_v3_connect V3Proofs.sample_connect_31 [192; 0]); [|done].
  split; simpl; try done; [by right| |by left]. repeat split; repeat constructor; done.
Defined.
