(* ===== verification/CodecV5Types.v ===== *)
(** * MQTT 5 packet types: [codec/v5/packet/]

    The property identifiers, the reason code enumerations with their byte
    values, and the packets as the source declares them. An enumeration
    made by [prim_enum!] is an instance of [PrimEnum]; [PrimEnumOk] states
    that its two conversions are inverse. *)

From stdpp Require Import prelude list.
From Stdlib Require Import ZArith Lia.
From S2P Require Import Prelude CodecTypes CodecUtils.

Local Open Scope Z_scope.

(** ** Property identifiers *)

Module pt.
Definition UTF8_PAYLOAD : Z := 1.
Definition MSG_EXPIRY_INT : Z := 2.
Definition CONTENT_TYPE : Z := 3.
Definition RESP_TOPIC : Z := 8.
Definition CORR_DATA : Z := 9.
Definition SUB_ID : Z := 11.
Definition SESS_EXPIRY_INT : Z := 17.
Definition ASSND_CLIENT_ID : Z := 18.
Definition SERVER_KA : Z := 19.
Definition AUTH_METHOD : Z := 21.
Definition AUTH_DATA : Z := 22.
Definition REQ_PROB_INFO : Z := 23.
Definition WILL_DELAY_INT : Z := 24.
Definition REQ_RESP_INFO : Z := 25.
Definition RESP_INFO : Z := 26.
Definition SERVER_REF : Z := 28.
Definition REASON_STRING : Z := 31.
Definition RECEIVE_MAX : Z := 33.
Definition TOPIC_ALIAS_MAX : Z := 34.
Definition TOPIC_ALIAS : Z := 35.
Definition MAX_QOS : Z := 36.
Definition RETAIN_AVAIL : Z := 37.
Definition USER : Z := 38.
Definition MAX_PACKET_SIZE : Z := 39.
Definition WILDCARD_SUB_AVAIL : Z := 40.
Definition SUB_IDS_AVAIL : Z := 41.
Definition SHARED_SUB_AVAIL : Z := 42.
End pt.

Definition RECEIVE_MAX_DEFAULT : Z := 65535.

(** ** Reason codes *)

Class PrimEnum (A : Type) : Type := {
  to_u8 : A -> Z;
  try_from : Z -> outcome DecodeError A;
}.

Class PrimEnumOk (A : Type) `{PrimEnum A} : Prop := {
  try_from_to_u8 a : try_from (to_u8 a) = Ok a;
  to_u8_range a : u8 (to_u8 a);
  try_from_returns v : returns (try_from v : outcome DecodeError A);
}.

Ltac prim_enum_ok tf :=
  split; [by intros []|by intros []|]; intros v; change (returns (tf v)); unfold tf;
  by repeat case_match.

Module ConnectAckReasonM.
Inductive ConnectAckReason : Type :=
| Success
| UnspecifiedError
| MalformedPacket
| ProtocolError
| ImplementationSpecificError
| UnsupportedProtocolVersion
| ClientIdentifierNotValid
| BadUserNameOrPassword
| NotAuthorized
| ServerUnavailable
| ServerBusy
| Banned
| BadAuthenticationMethod
| TopicNameInvalid
| PacketTooLarge
| QuotaExceeded
| PayloadFormatInvalid
| RetainNotSupported
| QosNotSupported
| UseAnotherServer
| ServerMoved
| ConnectionRateExceeded.

#[global] Instance ConnectAckReason_eq_dec : EqDecision ConnectAckReason.
Proof. solve_decision. Defined.

Definition ConnectAckReason_to_u8 (v : ConnectAckReason) : Z :=
  match v with
  | Success => 0
  | UnspecifiedError => 128
  | MalformedPacket => 129
  | ProtocolError => 130
  | ImplementationSpecificError => 131
  | UnsupportedProtocolVersion => 132
  | ClientIdentifierNotValid => 133
  | BadUserNameOrPassword => 134
  | NotAuthorized => 135
  | ServerUnavailable => 136
  | ServerBusy => 137
  | Banned => 138
  | BadAuthenticationMethod => 140
  | TopicNameInvalid => 144
  | PacketTooLarge => 149
  | QuotaExceeded => 151
  | PayloadFormatInvalid => 153
  | RetainNotSupported => 154
  | QosNotSupported => 155
  | UseAnotherServer => 156
  | ServerMoved => 157
  | ConnectionRateExceeded => 159
  end.

Definition ConnectAckReason_try_from (v : Z) : outcome DecodeError ConnectAckReason :=
  match v with
  | 0 => Ok Success
  | 128 => Ok UnspecifiedError
  | 129 => Ok MalformedPacket
  | 130 => Ok ProtocolError
  | 131 => Ok ImplementationSpecificError
  | 132 => Ok UnsupportedProtocolVersion
  | 133 => Ok ClientIdentifierNotValid
  | 134 => Ok BadUserNameOrPassword
  | 135 => Ok NotAuthorized
  | 136 => Ok ServerUnavailable
  | 137 => Ok ServerBusy
  | 138 => Ok Banned
  | 140 => Ok BadAuthenticationMethod
  | 144 => Ok TopicNameInvalid
  | 149 => Ok PacketTooLarge
  | 151 => Ok QuotaExceeded
  | 153 => Ok PayloadFormatInvalid
  | 154 => Ok RetainNotSupported
  | 155 => Ok QosNotSupported
  | 156 => Ok UseAnotherServer
  | 157 => Ok ServerMoved
  | 159 => Ok ConnectionRateExceeded
  | _ => Err CodecTypes.MalformedPacket
  end.

#[global] Instance ConnectAckReason_enum : PrimEnum ConnectAckReason := {
  to_u8 := ConnectAckReason_to_u8; try_from := ConnectAckReason_try_from;
}.

#[global] Instance ConnectAckReason_ok : PrimEnumOk ConnectAckReason.
Proof. prim_enum_ok ConnectAckReason_try_from. Qed.
End ConnectAckReasonM.

Module PublishAckReasonM.
Inductive PublishAckReason : Type :=
| Success
| NoMatchingSubscribers
| UnspecifiedError
| ImplementationSpecificError
| NotAuthorized
| TopicNameInvalid
| PacketIdentifierInUse
| QuotaExceeded
| PayloadFormatInvalid.

#[global] Instance PublishAckReason_eq_dec : EqDecision PublishAckReason.
Proof. solve_decision. Defined.

Definition PublishAckReason_to_u8 (v : PublishAckReason) : Z :=
  match v with
  | Success => 0
  | NoMatchingSubscribers => 16
  | UnspecifiedError => 128
  | ImplementationSpecificError => 131
  | NotAuthorized => 135
  | TopicNameInvalid => 144
  | PacketIdentifierInUse => 145
  | QuotaExceeded => 151
  | PayloadFormatInvalid => 153
  end.

Definition PublishAckReason_try_from (v : Z) : outcome DecodeError PublishAckReason :=
  match v with
  | 0 => Ok Success
  | 16 => Ok NoMatchingSubscribers
  | 128 => Ok UnspecifiedError
  | 131 => Ok ImplementationSpecificError
  | 135 => Ok NotAuthorized
  | 144 => Ok TopicNameInvalid
  | 145 => Ok PacketIdentifierInUse
  | 151 => Ok QuotaExceeded
  | 153 => Ok PayloadFormatInvalid
  | _ => Err CodecTypes.MalformedPacket
  end.

#[global] Instance PublishAckReason_enum : PrimEnum PublishAckReason := {
  to_u8 := PublishAckReason_to_u8; try_from := PublishAckReason_try_from;
}.

#[global] Instance PublishAckReason_ok : PrimEnumOk PublishAckReason.
Proof. prim_enum_ok PublishAckReason_try_from. Qed.
End PublishAckReasonM.

Module PublishAck2ReasonM.
Inductive PublishAck2Reason : Type :=
| Success
| SendOnward
| PacketIdNotFound.

#[global] Instance PublishAck2Reason_eq_dec : EqDecision PublishAck2Reason.
Proof. solve_decision. Defined.

Definition PublishAck2Reason_to_u8 (v : PublishAck2Reason) : Z :=
  match v with
  | Success => 0
  | SendOnward => 2
  | PacketIdNotFound => 146
  end.

Definition PublishAck2Reason_try_from (v : Z) : outcome DecodeError PublishAck2Reason :=
  match v with
  | 0 => Ok Success
  | 2 => Ok SendOnward
  | 146 => Ok PacketIdNotFound
  | _ => Err CodecTypes.MalformedPacket
  end.

#[global] Instance PublishAck2Reason_enum : PrimEnum PublishAck2Reason := {
  to_u8 := PublishAck2Reason_to_u8; try_from := PublishAck2Reason_try_from;
}.

#[global] Instance PublishAck2Reason_ok : PrimEnumOk PublishAck2Reason.
Proof. prim_enum_ok PublishAck2Reason_try_from. Qed.
End PublishAck2ReasonM.

Module RetainHandlingM.
Inductive RetainHandling : Type :=
| AtSubscribe
| AtSubscribeNew
| NoAtSubscribe.

#[global] Instance RetainHandling_eq_dec : EqDecision RetainHandling.
Proof. solve_decision. Defined.

Definition RetainHandling_to_u8 (v : RetainHandling) : Z :=
  match v with
  | AtSubscribe => 0
  | AtSubscribeNew => 1
  | NoAtSubscribe => 2
  end.

Definition RetainHandling_try_from (v : Z) : outcome DecodeError RetainHandling :=
  match v with
  | 0 => Ok AtSubscribe
  | 1 => Ok AtSubscribeNew
  | 2 => Ok NoAtSubscribe
  | _ => Err CodecTypes.MalformedPacket
  end.

#[global] Instance RetainHandling_enum : PrimEnum RetainHandling := {
  to_u8 := RetainHandling_to_u8; try_from := RetainHandling_try_from;
}.

#[global] Instance RetainHandling_ok : PrimEnumOk RetainHandling.
Proof. prim_enum_ok RetainHandling_try_from. Qed.
End RetainHandlingM.

Module SubscribeAckReasonM.
Inductive SubscribeAckReason : Type :=
| GrantedQos0
| GrantedQos1
| GrantedQos2
| UnspecifiedError
| ImplementationSpecificError
| NotAuthorized
| TopicFilterInvalid
| PacketIdentifierInUse
| QuotaExceeded
| SharedSubscriptionNotSupported
| SubscriptionIdentifiersNotSupported
| WildcardSubscriptionsNotSupported.

#[global] Instance SubscribeAckReason_eq_dec : EqDecision SubscribeAckReason.
Proof. solve_decision. Defined.

Definition SubscribeAckReason_to_u8 (v : SubscribeAckReason) : Z :=
  match v with
  | GrantedQos0 => 0
  | GrantedQos1 => 1
  | GrantedQos2 => 2
  | UnspecifiedError => 128
  | ImplementationSpecificError => 131
  | NotAuthorized => 135
  | TopicFilterInvalid => 143
  | PacketIdentifierInUse => 145
  | QuotaExceeded => 151
  | SharedSubscriptionNotSupported => 158
  | SubscriptionIdentifiersNotSupported => 161
  | WildcardSubscriptionsNotSupported => 162
  end.

Definition SubscribeAckReason_try_from (v : Z) : outcome DecodeError SubscribeAckReason :=
  match v with
  | 0 => Ok GrantedQos0
  | 1 => Ok GrantedQos1
  | 2 => Ok GrantedQos2
  | 128 => Ok UnspecifiedError
  | 131 => Ok ImplementationSpecificError
  | 135 => Ok NotAuthorized
  | 143 => Ok TopicFilterInvalid
  | 145 => Ok PacketIdentifierInUse
  | 151 => Ok QuotaExceeded
  | 158 => Ok SharedSubscriptionNotSupported
  | 161 => Ok SubscriptionIdentifiersNotSupported
  | 162 => Ok WildcardSubscriptionsNotSupported
  | _ => Err CodecTypes.MalformedPacket
  end.

#[global] Instance SubscribeAckReason_enum : PrimEnum SubscribeAckReason := {
  to_u8 := SubscribeAckReason_to_u8; try_from := SubscribeAckReason_try_from;
}.

#[global] Instance SubscribeAckReason_ok : PrimEnumOk SubscribeAckReason.
Proof. prim_enum_ok SubscribeAckReason_try_from. Qed.
End SubscribeAckReasonM.

Module UnsubscribeAckReasonM.
Inductive UnsubscribeAckReason : Type :=
| Success
| NoSubscriptionExisted
| UnspecifiedError
| ImplementationSpecificError
| NotAuthorized
| TopicFilterInvalid
| PacketIdentifierInUse.

#[global] Instance UnsubscribeAckReason_eq_dec : EqDecision UnsubscribeAckReason.
Proof. solve_decision. Defined.

Definition UnsubscribeAckReason_to_u8 (v : UnsubscribeAckReason) : Z :=
  match v with
  | Success => 0
  | NoSubscriptionExisted => 17
  | UnspecifiedError => 128
  | ImplementationSpecificError => 131
  | NotAuthorized => 135
  | TopicFilterInvalid => 143
  | PacketIdentifierInUse => 145
  end.

Definition UnsubscribeAckReason_try_from (v : Z) : outcome DecodeError UnsubscribeAckReason :=
  match v with
  | 0 => Ok Success
  | 17 => Ok NoSubscriptionExisted
  | 128 => Ok UnspecifiedError
  | 131 => Ok ImplementationSpecificError
  | 135 => Ok NotAuthorized
  | 143 => Ok TopicFilterInvalid
  | 145 => Ok PacketIdentifierInUse
  | _ => Err CodecTypes.MalformedPacket
  end.

#[global] Instance UnsubscribeAckReason_enum : PrimEnum UnsubscribeAckReason := {
  to_u8 := UnsubscribeAckReason_to_u8; try_from := UnsubscribeAckReason_try_from;
}.

#[global] Instance UnsubscribeAckReason_ok : PrimEnumOk UnsubscribeAckReason.
Proof. prim_enum_ok UnsubscribeAckReason_try_from. Qed.
End UnsubscribeAckReasonM.

Module DisconnectReasonCodeM.
Inductive DisconnectReasonCode : Type :=
| NormalDisconnection
| DisconnectWithWillMessage
| UnspecifiedError
| MalformedPacket
| ProtocolError
| ImplementationSpecificError
| NotAuthorized
| ServerBusy
| ServerShuttingDown
| BadAuthenticationMethod
| KeepAliveTimeout
| SessionTakenOver
| TopicFilterInvalid
| TopicNameInvalid
| ReceiveMaximumExceeded
| TopicAliasInvalid
| PacketTooLarge
| MessageRateTooHigh
| QuotaExceeded
| AdministrativeAction
| PayloadFormatInvalid
| RetainNotSupported
| QosNotSupported
| UseAnotherServer
| ServerMoved
| SharedSubscriptionNotSupported
| ConnectionRateExceeded
| MaximumConnectTime
| SubscriptionIdentifiersNotSupported
| WildcardSubscriptionsNotSupported.

#[global] Instance DisconnectReasonCode_eq_dec : EqDecision DisconnectReasonCode.
Proof. solve_decision. Defined.

Definition DisconnectReasonCode_to_u8 (v : DisconnectReasonCode) : Z :=
  match v with
  | NormalDisconnection => 0
  | DisconnectWithWillMessage => 4
  | UnspecifiedError => 128
  | MalformedPacket => 129
  | ProtocolError => 130
  | ImplementationSpecificError => 131
  | NotAuthorized => 135
  | ServerBusy => 137
  | ServerShuttingDown => 139
  | BadAuthenticationMethod => 140
  | KeepAliveTimeout => 141
  | SessionTakenOver => 142
  | TopicFilterInvalid => 143
  | TopicNameInvalid => 144
  | ReceiveMaximumExceeded => 147
  | TopicAliasInvalid => 148
  | PacketTooLarge => 149
  | MessageRateTooHigh => 150
  | QuotaExceeded => 151
  | AdministrativeAction => 152
  | PayloadFormatInvalid => 153
  | RetainNotSupported => 154
  | QosNotSupported => 155
  | UseAnotherServer => 156
  | ServerMoved => 157
  | SharedSubscriptionNotSupported => 158
  | ConnectionRateExceeded => 159
  | MaximumConnectTime => 160
  | SubscriptionIdentifiersNotSupported => 161
  | WildcardSubscriptionsNotSupported => 162
  end.

Definition DisconnectReasonCode_try_from (v : Z) : outcome DecodeError DisconnectReasonCode :=
  match v with
  | 0 => Ok NormalDisconnection
  | 4 => Ok DisconnectWithWillMessage
  | 128 => Ok UnspecifiedError
  | 129 => Ok MalformedPacket
  | 130 => Ok ProtocolError
  | 131 => Ok ImplementationSpecificError
  | 135 => Ok NotAuthorized
  | 137 => Ok ServerBusy
  | 139 => Ok ServerShuttingDown
  | 140 => Ok BadAuthenticationMethod
  | 141 => Ok KeepAliveTimeout
  | 142 => Ok SessionTakenOver
  | 143 => Ok TopicFilterInvalid
  | 144 => Ok TopicNameInvalid
  | 147 => Ok ReceiveMaximumExceeded
  | 148 => Ok TopicAliasInvalid
  | 149 => Ok PacketTooLarge
  | 150 => Ok MessageRateTooHigh
  | 151 => Ok QuotaExceeded
  | 152 => Ok AdministrativeAction
  | 153 => Ok PayloadFormatInvalid
  | 154 => Ok RetainNotSupported
  | 155 => Ok QosNotSupported
  | 156 => Ok UseAnotherServer
  | 157 => Ok ServerMoved
  | 158 => Ok SharedSubscriptionNotSupported
  | 159 => Ok ConnectionRateExceeded
  | 160 => Ok MaximumConnectTime
  | 161 => Ok SubscriptionIdentifiersNotSupported
  | 162 => Ok WildcardSubscriptionsNotSupported
  | _ => Err CodecTypes.MalformedPacket
  end.

#[global] Instance DisconnectReasonCode_enum : PrimEnum DisconnectReasonCode := {
  to_u8 := DisconnectReasonCode_to_u8; try_from := DisconnectReasonCode_try_from;
}.

#[global] Instance DisconnectReasonCode_ok : PrimEnumOk DisconnectReasonCode.
Proof. prim_enum_ok DisconnectReasonCode_try_from. Qed.
End DisconnectReasonCodeM.

Module AuthReasonCodeM.
Inductive AuthReasonCode : Type :=
| Success
| ContinueAuth
| ReAuth.

#[global] Instance AuthReasonCode_eq_dec : EqDecision AuthReasonCode.
Proof. solve_decision. Defined.

Definition AuthReasonCode_to_u8 (v : AuthReasonCode) : Z :=
  match v with
  | Success => 0
  | ContinueAuth => 24
  | ReAuth => 25
  end.

Definition AuthReasonCode_try_from (v : Z) : outcome DecodeError AuthReasonCode :=
  match v with
  | 0 => Ok Success
  | 24 => Ok ContinueAuth
  | 25 => Ok ReAuth
  | _ => Err CodecTypes.MalformedPacket
  end.

#[global] Instance AuthReasonCode_enum : PrimEnum AuthReasonCode := {
  to_u8 := AuthReasonCode_to_u8; try_from := AuthReasonCode_try_from;
}.

#[global] Instance AuthReasonCode_ok : PrimEnumOk AuthReasonCode.
Proof. prim_enum_ok AuthReasonCode_try_from. Qed.
End AuthReasonCodeM.

Abbreviation ConnectAckReason := ConnectAckReasonM.ConnectAckReason.
Abbreviation PublishAckReason := PublishAckReasonM.PublishAckReason.
Abbreviation PublishAck2Reason := PublishAck2ReasonM.PublishAck2Reason.
Abbreviation RetainHandling := RetainHandlingM.RetainHandling.
Abbreviation SubscribeAckReason := SubscribeAckReasonM.SubscribeAckReason.
Abbreviation UnsubscribeAckReason := UnsubscribeAckReasonM.UnsubscribeAckReason.
Abbreviation DisconnectReasonCode := DisconnectReasonCodeM.DisconnectReasonCode.
Abbreviation AuthReasonCode := AuthReasonCodeM.AuthReasonCode.

Import DisconnectReasonCodeM.

(** [ToReasonCode]: the disconnect reason an error is reported with. *)
Definition DecodeError_to_reason_code (e : DecodeError) : DisconnectReasonCode :=
  match e with
  | CodecTypes.InvalidProtocol => ProtocolError
  | CodecTypes.InvalidLength => MalformedPacket
  | CodecTypes.MalformedPacket => MalformedPacket
  | CodecTypes.UnsupportedProtocolLevel => ImplementationSpecificError
  | CodecTypes.ConnectReservedFlagSet => ProtocolError
  | CodecTypes.ConnAckReservedFlagSet => ProtocolError
  | CodecTypes.InvalidClientId => NotAuthorized
  | CodecTypes.UnsupportedPacketType => ImplementationSpecificError
  | CodecTypes.PacketIdRequired => ProtocolError
  | CodecTypes.MaxSizeExceeded _ _ => PacketTooLarge
  | CodecTypes.Utf8Error => PayloadFormatInvalid
  | CodecTypes.Io _ => UnspecifiedError
  end.

Definition EncodeError_to_reason_code (e : EncodeError) : DisconnectReasonCode :=
  match e with
  | EncodeError.OverMaxPacketSize _ _ => PacketTooLarge
  | EncodeError.InvalidLength => MalformedPacket
  | EncodeError.MalformedPacket => MalformedPacket
  | EncodeError.PacketIdRequired => ProtocolError
  | EncodeError.UnsupportedVersion => ImplementationSpecificError
  | EncodeError.Io _ => UnspecifiedError
  end.

Definition PublishAckReason_to_reason_code (r : PublishAckReason) : DisconnectReasonCode :=
  match r with
  | PublishAckReasonM.Success | PublishAckReasonM.NoMatchingSubscribers => NormalDisconnection
  | PublishAckReasonM.UnspecifiedError => UnspecifiedError
  | PublishAckReasonM.ImplementationSpecificError => ImplementationSpecificError
  | PublishAckReasonM.NotAuthorized => NotAuthorized
  | PublishAckReasonM.TopicNameInvalid => TopicNameInvalid
  | PublishAckReasonM.PacketIdentifierInUse => ProtocolError
  | PublishAckReasonM.QuotaExceeded => QuotaExceeded
  | PublishAckReasonM.PayloadFormatInvalid => PayloadFormatInvalid
  end.

Definition PublishAckReason_should_disconnect (r : PublishAckReason) : bool :=
  match r with
  | PublishAckReasonM.UnspecifiedError | PublishAckReasonM.ImplementationSpecificError
  | PublishAckReasonM.NotAuthorized | PublishAckReasonM.TopicNameInvalid => true
  | _ => false
  end.

Definition PublishAck2Reason_to_reason_code (r : PublishAck2Reason) : DisconnectReasonCode :=
  match r with
  | PublishAck2ReasonM.Success | PublishAck2ReasonM.SendOnward => NormalDisconnection
  | PublishAck2ReasonM.PacketIdNotFound => ImplementationSpecificError
  end.

Definition PublishAck2Reason_should_disconnect (r : PublishAck2Reason) : bool :=
  match r with PublishAck2ReasonM.PacketIdNotFound => true | _ => false end.

(** ** Packets *)

Module V5.

Abbreviation UserProperties := (list (bytes * bytes)).

Record LastWill : Type := mkLastWill {
  lw_qos : QoS;
  lw_retain : bool;
  lw_topic : bytes;
  lw_message : bytes;
  lw_will_delay_interval_sec : option Z;
  lw_correlation_data : option bytes;
  lw_message_expiry_interval : option Z;
  lw_content_type : option bytes;
  lw_user_properties : UserProperties;
  lw_is_utf8_payload : option bool;
  lw_response_topic : option bytes;
}.

Record Connect : Type := mkConnect {
  c_clean_start : bool;
  c_keep_alive : Z;
  c_session_expiry_interval_secs : Z;
  c_auth_method : option bytes;
  c_auth_data : option bytes;
  c_request_problem_info : bool;
  c_request_response_info : bool;
  c_receive_max : option Z;
  c_topic_alias_max : Z;
  c_user_properties : UserProperties;
  c_max_packet_size : option Z;
  c_last_will : option LastWill;
  c_client_id : bytes;
  c_username : option bytes;
  c_password : option bytes;
  c_cert : option CertInfo;
}.

Record ConnectAck : Type := mkConnectAck {
  ca_session_present : bool;
  ca_reason_code : ConnectAckReason;
  ca_session_expiry_interval_secs : option Z;
  ca_receive_max : Z;
  ca_max_qos : QoS;
  ca_max_packet_size : option Z;
  ca_assigned_client_id : option bytes;
  ca_topic_alias_max : Z;
  ca_retain_available : bool;
  ca_wildcard_subscription_available : bool;
  ca_subscription_identifiers_available : bool;
  ca_shared_subscription_available : bool;
  ca_server_keepalive_sec : option Z;
  ca_response_info : option bytes;
  ca_server_reference : option bytes;
  ca_auth_method : option bytes;
  ca_auth_data : option bytes;
  ca_reason_string : option bytes;
  ca_user_properties : UserProperties;
}.

Record PublishAck : Type := mkPublishAck {
  pa_packet_id : Z;
  pa_reason_code : PublishAckReason;
  pa_properties : UserProperties;
  pa_reason_string : option bytes;
}.

Record PublishAck2 : Type := mkPublishAck2 {
  pa2_packet_id : Z;
  pa2_reason_code : PublishAck2Reason;
  pa2_properties : UserProperties;
  pa2_reason_string : option bytes;
}.

Record SubscriptionOptions : Type := mkSubscriptionOptions {
  so_qos : QoS;
  so_no_local : bool;
  so_retain_as_published : bool;
  so_retain_handling : RetainHandling;
}.

Record Subscribe : Type := mkSubscribe {
  s_packet_id : Z;
  s_id : option Z;
  s_user_properties : UserProperties;
  s_topic_filters : list (bytes * SubscriptionOptions);
}.

Record SubscribeAck : Type := mkSubscribeAck {
  sa_packet_id : Z;
  sa_properties : UserProperties;
  sa_reason_string : option bytes;
  sa_status : list SubscribeAckReason;
}.

Record Unsubscribe : Type := mkUnsubscribe {
  u_packet_id : Z;
  u_user_properties : UserProperties;
  u_topic_filters : list bytes;
}.

Record UnsubscribeAck : Type := mkUnsubscribeAck {
  ua_packet_id : Z;
  ua_properties : UserProperties;
  ua_reason_string : option bytes;
  ua_status : list UnsubscribeAckReason;
}.

Record Disconnect : Type := mkDisconnect {
  d_reason_code : DisconnectReasonCode;
  d_session_expiry_interval_secs : option Z;
  d_server_reference : option bytes;
  d_reason_string : option bytes;
  d_user_properties : UserProperties;
}.

Record Auth : Type := mkAuth {
  a_reason_code : AuthReasonCode;
  a_auth_method : option bytes;
  a_auth_data : option bytes;
  a_reason_string : option bytes;
  a_user_properties : UserProperties;
}.

Inductive Packet : Type :=
| PConnect (c : Connect)
| PConnectAck (a : ConnectAck)
| PPublish (p : Publish)
| PPublishAck (a : PublishAck)
| PPublishReceived (a : PublishAck)
| PPublishRelease (a : PublishAck2)
| PPublishComplete (a : PublishAck2)
| PSubscribe (s : Subscribe)
| PSubscribeAck (a : SubscribeAck)
| PUnsubscribe (u : Unsubscribe)
| PUnsubscribeAck (a : UnsubscribeAck)
| PPingRequest
| PPingResponse
| PDisconnect (d : Disconnect)
| PAuth (a : Auth).

(** [Packet::packet_type]. *)
Definition packet_type_of (p : Packet) : Z :=
  match p with
  | PConnect _ => packet_type.CONNECT
  | PConnectAck _ => packet_type.CONNACK
  | PPublish _ => packet_type.PUBLISH_START
  | PPublishAck _ => packet_type.PUBACK
  | PPublishReceived _ => packet_type.PUBREC
  | PPublishRelease _ => packet_type.PUBREL
  | PPublishComplete _ => packet_type.PUBCOMP
  | PSubscribe _ => packet_type.SUBSCRIBE
  | PSubscribeAck _ => packet_type.SUBACK
  | PUnsubscribe _ => packet_type.UNSUBSCRIBE
  | PUnsubscribeAck _ => packet_type.UNSUBACK
  | PPingRequest => packet_type.PINGREQ
  | PPingResponse => packet_type.PINGRESP
  | PDisconnect _ => packet_type.DISCONNECT
  | PAuth _ => packet_type.AUTH
  end.

(** The [Default] values the decoders start from. *)
Definition PublishAck_default : PublishAck := mkPublishAck 1 PublishAckReasonM.Success [] None.
Definition PublishAck2_default : PublishAck2 := mkPublishAck2 1 PublishAck2ReasonM.Success [] None.
Definition Disconnect_new (r : DisconnectReasonCode) : Disconnect := mkDisconnect r None None None [].
Definition Disconnect_default : Disconnect := mkDisconnect NormalDisconnection None None None [].
Definition Auth_default : Auth := mkAuth AuthReasonCodeM.Success None None None [].
Definition PublishProperties_default : PublishProperties :=
  mkPublishProperties None None None None [] false None [].
Definition ConnectAck_default : ConnectAck :=
  mkConnectAck false ConnectAckReasonM.Success None RECEIVE_MAX_DEFAULT ExactlyOnce None None 0
    true true true true None None None None None None [].
End V5.
