(* ===== verification/CodecV5.v ===== *)
(** * The MQTT 5 packet codec: [codec/v5/decode.rs], [encode.rs], [packet/]

    Every packet's [decode], [encoded_size] and [encode]. Sizes are
    computed first, under the peer's limit, and handed to [encode], which
    derives the property length from them; the diagnostics (user
    properties, reason string) that do not fit are left out.

    [oc] tells whether the build checks integer overflow: a [u32]
    subtraction below zero panics with checks and wraps without. *)

From stdpp Require Import prelude list.
From Stdlib Require Import ZArith Lia.
From S2P Require Import Prelude CodecTypes CodecUtils CodecV3 CodecV5Types.

Local Open Scope Z_scope.

(** [r?] between plain results. *)
Definition obind {E A B} (o : outcome E A) (k : A -> outcome E B) : outcome E B :=
  match o with Ok a => k a | Err e => Err e | Panic => Panic | Diverged => Diverged end.

Notation "'let?' x ':=' m 'in' k" := (obind m (fun x => k))
  (at level 10, x pattern, m at level 100, k at level 200) : io_scope.

(** ** Variable length integers by size *)

(** [usize::leading_zeros] and [u32::leading_zeros]. *)
Definition leading_zeros (w v : Z) : Z := if v =? 0 then w else w - 1 - Z.log2 v.

Definition VAR_INT_MAP_64 : list Z :=
  [10; 9; 9; 9; 9; 9; 9; 9; 8; 8; 8; 8; 8; 8; 8; 7; 7; 7; 7; 7; 7; 7; 6; 6; 6; 6; 6; 6; 6; 5; 5;
   5; 5; 5; 5; 5; 4; 4; 4; 4; 4; 4; 4; 3; 3; 3; 3; 3; 3; 3; 2; 2; 2; 2; 2; 2; 2; 1; 1; 1; 1; 1;
   1; 1; 1].

Definition VAR_INT_MAP_32 : list Z :=
  [5; 5; 5; 5; 4; 4; 4; 4; 4; 4; 4; 3; 3; 3; 3; 3; 3; 3; 2; 2; 2; 2; 2; 2; 2; 1; 1; 1; 1; 1; 1;
   1; 1].

(** [MAP[zeros]]: the index is within the table for every value. *)
Definition var_int_len (val : Z) : Z :=
  nth (Z.to_nat (leading_zeros 64 val)) VAR_INT_MAP_64 0.

Definition var_int_len_u32 (val : Z) : Z :=
  nth (Z.to_nat (leading_zeros 32 val)) VAR_INT_MAP_32 0.

Module V5Codec.
Import V5.

Section codec.
Context (oc : bool).

(** [a - b] on [u32]. *)
Definition sub32 (a b : Z) : outcome EncodeError Z :=
  if a <? b then (if oc then Panic else Ok (wrap 32 (a - b))) else Ok (a - b).

Definition var_int_len_from_size (val : Z) : outcome EncodeError Z :=
  let over_size := var_int_len_u32 val in
  let? d := sub32 val over_size in
  let res := d + 1 in
  sub32 val (var_int_len_u32 res).

(** ** Property encoding helpers *)

Fixpoint encoded_size_opt_props_loop (user_props : list (bytes * bytes))
    (reason_str : option bytes) (limit len : Z) : Z :=
  match user_props with
  | up :: user_props =>
      let prop_len := 1 + UserProperty_encoded_size up in
      if limit <? prop_len then len
      else encoded_size_opt_props_loop user_props reason_str (limit - prop_len) (len + prop_len)
  | [] =>
      match reason_str with
      | Some reason =>
          let reason_len := 1 + Bytes_encoded_size reason in
          if reason_len <=? limit then len + reason_len else len
      | None => len
      end
  end.

Definition encoded_size_opt_props (user_props : list (bytes * bytes))
    (reason_str : option bytes) (limit : Z) : Z :=
  encoded_size_opt_props_loop user_props reason_str limit 0.

Fixpoint encode_opt_props (user_props : list (bytes * bytes)) (reason_str : option bytes)
    (size : Z) : io EncodeError unit :=
  match user_props with
  | up :: user_props =>
      let prop_len := 1 + Bytes_encoded_size up.1 + Bytes_encoded_size up.2 in
      if size <? prop_len then ret tt
      else
        put_u8 pt.USER ;;;
        UserProperty_encode up ;;;
        encode_opt_props user_props reason_str (size - prop_len)
  | [] =>
      match reason_str with
      | Some reason =>
          if len reason <? size then put_u8 pt.REASON_STRING ;;; Bytes_encode reason
          else ret tt
      | None => ret tt
      end
  end.

Definition encoded_property_size {A} (w : Wire A) (v : option A) : Z :=
  match v with Some v => 1 + encoded_size w v | None => 0 end.

Definition encoded_property_size_default {A} `{EqDecision A} (w : Wire A) (v default : A) : Z :=
  if bool_decide (v = default) then 0 else 1 + encoded_size w v.

Definition encode_property {A} (w : Wire A) (v : option A) (prop_type : Z)
    : io EncodeError unit :=
  match v with Some v => put_u8 prop_type ;;; encode w v | None => ret tt end.

Definition encode_property_default {A} `{EqDecision A} (w : Wire A) (v default : A)
    (prop_type : Z) : io EncodeError unit :=
  if bool_decide (v = default) then ret tt else put_u8 prop_type ;;; encode w v.

(** [Encode for UserProperties]. *)
Definition UserProperties_encoded_size (ups : list (bytes * bytes)) : Z :=
  foldl (fun len prop => len + (1 + UserProperty_encoded_size prop)) 0 ups.

Definition UserProperties_encode (ups : list (bytes * bytes)) : io EncodeError unit :=
  for_each (fun prop => put_u8 pt.USER ;;; UserProperty_encode prop) ups.

Definition reduce_limit (limit reduction : Z) : Z :=
  if limit <? reduction then 0 else limit - reduction.

(** [while prop_src.has_remaining() { ... }] on a property block. *)
Definition read_props {S} (body : S -> io DecodeError S) (init : S) (props : bytes)
    : io DecodeError S :=
  run_on props (while_remaining (length props) body init).

(** [user_properties.push(UserProperty::decode(src)?)]. *)
Definition push_user (ups : list (bytes * bytes)) : io DecodeError (list (bytes * bytes)) :=
  let! up := UserProperty_decode in
  ret (ups ++ [up]).

Definition has_remaining {E} : io E bool := fun s => (Ok (negb (len s =? 0)), s).

(** ** Acknowledgement properties: [mod ack_props] *)

Definition ack_props_encoded_size (properties : UserProperties) (reason_string : option bytes)
    (limit : Z) : Z :=
  if limit <? 4 then 1
  else
    let len := encoded_size_opt_props properties reason_string (limit - 4) in
    var_int_len len + len.

(** [debug_assert!(size > 0)] is compiled with the overflow checks. *)
Definition ack_props_encode (properties : UserProperties) (reason_string : option bytes)
    (size : Z) : io EncodeError unit :=
  if oc && (size <=? 0) then panic
  else if size =? 1 then put_u8 0
  else
    let! size := lift (var_int_len_from_size size) in
    write_variable_length size ;;;
    encode_opt_props properties reason_string size.

Definition ack_prop (st : option bytes * UserProperties)
    : io DecodeError (option bytes * UserProperties) :=
  let '(reason_string, user_props) := st in
  let! prop_id := get_u8 in
  if prop_id =? pt.REASON_STRING then
    let! r := read_value ByteString_wire reason_string in ret (r, user_props)
  else if prop_id =? pt.USER then
    let! ups := push_user user_props in ret (reason_string, ups)
  else throw MalformedPacket.

Definition ack_props_decode : io DecodeError (UserProperties * option bytes) :=
  let! prop_src := take_properties in
  let! st := read_props ack_prop (None, []) prop_src in
  ret (snd st, fst st).

(** ** CONNECT *)

(** The local variables of the property loop of [Connect::decode]. *)
Record ConnectProps : Type := mkConnectProps {
  cp_session_expiry_interval_secs : option Z;
  cp_auth_method : option bytes;
  cp_auth_data : option bytes;
  cp_request_problem_info : option bool;
  cp_request_response_info : option bool;
  cp_receive_max : option Z;
  cp_topic_alias_max : option Z;
  cp_user_properties : UserProperties;
  cp_max_packet_size : option Z;
}.

Definition connect_prop (st : ConnectProps) : io DecodeError ConnectProps :=
  let '(mkConnectProps sei am ad rpi rri rm tam ups mps) := st in
  let! b := get_u8 in
  if b =? pt.SESS_EXPIRY_INT then
    let! sei := read_value u32_wire sei in ret (mkConnectProps sei am ad rpi rri rm tam ups mps)
  else if b =? pt.AUTH_METHOD then
    let! am := read_value ByteString_wire am in ret (mkConnectProps sei am ad rpi rri rm tam ups mps)
  else if b =? pt.AUTH_DATA then
    let! ad := read_value Bytes_wire ad in ret (mkConnectProps sei am ad rpi rri rm tam ups mps)
  else if b =? pt.REQ_PROB_INFO then
    let! rpi := read_value bool_wire rpi in ret (mkConnectProps sei am ad rpi rri rm tam ups mps)
  else if b =? pt.REQ_RESP_INFO then
    let! rri := read_value bool_wire rri in ret (mkConnectProps sei am ad rpi rri rm tam ups mps)
  else if b =? pt.RECEIVE_MAX then
    let! rm := read_value NonZeroU16_wire rm in ret (mkConnectProps sei am ad rpi rri rm tam ups mps)
  else if b =? pt.TOPIC_ALIAS_MAX then
    let! tam := read_value u16_wire tam in ret (mkConnectProps sei am ad rpi rri rm tam ups mps)
  else if b =? pt.USER then
    let! ups := push_user ups in ret (mkConnectProps sei am ad rpi rri rm tam ups mps)
  else if b =? pt.MAX_PACKET_SIZE then
    let! mps := read_value NonZeroU32_wire mps in ret (mkConnectProps sei am ad rpi rri rm tam ups mps)
  else throw MalformedPacket.

Record WillProps : Type := mkWillProps {
  wp_will_delay_interval_sec : option Z;
  wp_correlation_data : option bytes;
  wp_message_expiry_interval : option Z;
  wp_content_type : option bytes;
  wp_user_properties : UserProperties;
  wp_is_utf8_payload : option bool;
  wp_response_topic : option bytes;
}.

Definition will_prop (st : WillProps) : io DecodeError WillProps :=
  let '(mkWillProps wdi cd mei ct ups up rt) := st in
  let! b := get_u8 in
  if b =? pt.WILL_DELAY_INT then
    let! wdi := read_value u32_wire wdi in ret (mkWillProps wdi cd mei ct ups up rt)
  else if b =? pt.CORR_DATA then
    let! cd := read_value Bytes_wire cd in ret (mkWillProps wdi cd mei ct ups up rt)
  else if b =? pt.MSG_EXPIRY_INT then
    let! mei := read_value NonZeroU32_wire mei in ret (mkWillProps wdi cd mei ct ups up rt)
  else if b =? pt.CONTENT_TYPE then
    let! ct := read_value ByteString_wire ct in ret (mkWillProps wdi cd mei ct ups up rt)
  else if b =? pt.UTF8_PAYLOAD then
    let! up := read_value bool_wire up in ret (mkWillProps wdi cd mei ct ups up rt)
  else if b =? pt.RESP_TOPIC then
    let! rt := read_value ByteString_wire rt in ret (mkWillProps wdi cd mei ct ups up rt)
  else if b =? pt.USER then
    let! ups := push_user ups in ret (mkWillProps wdi cd mei ct ups up rt)
  else throw MalformedPacket.

Definition decode_last_will (flags : Z) : io DecodeError LastWill :=
  let! prop_src := take_properties in
  let! st := read_props will_prop (mkWillProps None None None None [] None None) prop_src in
  let! topic := ByteString_decode in
  let! message := Bytes_decode in
  let! qos := lift (QoS_try_from
                      (Z.shiftr (Z.land flags ConnectFlags.WILL_QOS) WILL_QOS_SHIFT)) in
  ret {| lw_qos := qos;
         lw_retain := ConnectFlags.contains flags ConnectFlags.WILL_RETAIN;
         lw_topic := topic;
         lw_message := message;
         lw_will_delay_interval_sec := wp_will_delay_interval_sec st;
         lw_correlation_data := wp_correlation_data st;
         lw_message_expiry_interval := wp_message_expiry_interval st;
         lw_content_type := wp_content_type st;
         lw_user_properties := wp_user_properties st;
         lw_is_utf8_payload := wp_is_utf8_payload st;
         lw_response_topic := wp_response_topic st |}.

Definition Connect_decode : io DecodeError Connect :=
  ensure_remaining 10 InvalidLength ;;;
  let! n := get_u16 in
  let! is_mqtt := V3.and_then (n =? 4) (V3.slice_eq 4 MQTT) in
  ensure is_mqtt InvalidProtocol ;;;
  advance 4 ;;;
  let! level := get_u8 in
  ensure (level =? MQTT_LEVEL_5) UnsupportedProtocolLevel ;;;
  let! b := get_u8 in
  let! flags := V3.ok_or (ConnectFlags.from_bits b) ConnectReservedFlagSet in
  let! keep_alive := get_u16 in
  let! prop_src := take_properties in
  let! st := read_props connect_prop
               (mkConnectProps None None None None None None None [] None) prop_src in
  let! client_id := ByteString_decode in
  ensure (negb (len client_id =? 0) || ConnectFlags.contains flags ConnectFlags.CLEAN_START)
    InvalidClientId ;;;
  let! last_will := V3.decode_if (ConnectFlags.contains flags ConnectFlags.WILL)
                      (decode_last_will flags) in
  let! username := V3.decode_if (ConnectFlags.contains flags ConnectFlags.USERNAME)
                     ByteString_decode in
  let! password := V3.decode_if (ConnectFlags.contains flags ConnectFlags.PASSWORD)
                     Bytes_decode in
  ret {| c_clean_start := ConnectFlags.contains flags ConnectFlags.CLEAN_START;
         c_keep_alive := keep_alive;
         c_session_expiry_interval_secs := default 0 (cp_session_expiry_interval_secs st);
         c_auth_method := cp_auth_method st;
         c_auth_data := cp_auth_data st;
         c_request_problem_info := default true (cp_request_problem_info st);
         c_request_response_info := default false (cp_request_response_info st);
         c_receive_max := cp_receive_max st;
         c_topic_alias_max := default 0 (cp_topic_alias_max st);
         c_user_properties := cp_user_properties st;
         c_max_packet_size := cp_max_packet_size st;
         c_last_will := last_will;
         c_client_id := client_id;
         c_username := username;
         c_password := password;
         c_cert := None |}.

Definition LastWill_properties_len (w : LastWill) : Z :=
  encoded_property_size u32_wire (lw_will_delay_interval_sec w)
  + encoded_property_size Bytes_wire (lw_correlation_data w)
  + encoded_property_size NonZeroU32_wire (lw_message_expiry_interval w)
  + encoded_property_size ByteString_wire (lw_content_type w)
  + encoded_property_size bool_wire (lw_is_utf8_payload w)
  + encoded_property_size ByteString_wire (lw_response_topic w)
  + UserProperties_encoded_size (lw_user_properties w).

Definition Connect_properties_len (c : Connect) : Z :=
  encoded_property_size ByteString_wire (c_auth_method c)
  + encoded_property_size Bytes_wire (c_auth_data c)
  + encoded_property_size_default u32_wire (c_session_expiry_interval_secs c) 0
  + encoded_property_size_default bool_wire (c_request_problem_info c) true
  + encoded_property_size_default bool_wire (c_request_response_info c) false
  + encoded_property_size NonZeroU16_wire (c_receive_max c)
  + encoded_property_size NonZeroU32_wire (c_max_packet_size c)
  + encoded_property_size_default u16_wire (c_topic_alias_max c) 0
  + UserProperties_encoded_size (c_user_properties c).

Definition opt_encoded_size (o : option bytes) : Z :=
  match o with Some v => Bytes_encoded_size v | None => 0 end.

Definition Connect_encoded_size (c : Connect) (_limit : Z) : Z :=
  let prop_len := Connect_properties_len c in
  6 + 1 + 1 + 2
  + var_int_len prop_len
  + prop_len
  + Bytes_encoded_size (c_client_id c)
  + match c_last_will c with
    | Some will =>
        let prop_len := LastWill_properties_len will in
        var_int_len prop_len + prop_len + Bytes_encoded_size (lw_topic will)
        + Bytes_encoded_size (lw_message will)
    | None => 0
    end
  + opt_encoded_size (c_username c)
  + opt_encoded_size (c_password c).

(** The connect flags, set one after the other. *)
Definition connect_flags (c : Connect) : Z :=
  let flags := 0 in
  let flags := V3.flag (V3.is_some (c_username c)) ConnectFlags.USERNAME flags in
  let flags := V3.flag (V3.is_some (c_password c)) ConnectFlags.PASSWORD flags in
  let flags :=
    match c_last_will c with
    | Some w =>
        let flags := Z.lor flags ConnectFlags.WILL in
        let flags := V3.flag (lw_retain w) ConnectFlags.WILL_RETAIN flags in
        Z.lor flags (ConnectFlags.from_bits_truncate
                       (wrap 8 (Z.shiftl (QoS_value (lw_qos w)) WILL_QOS_SHIFT)))
    | None => flags
    end in
  V3.flag (c_clean_start c) ConnectFlags.CLEAN_START flags.

Definition LastWill_encode (will : LastWill) : io EncodeError unit :=
  write_variable_length (wrap 32 (LastWill_properties_len will)) ;;;
  encode_property u32_wire (lw_will_delay_interval_sec will) pt.WILL_DELAY_INT ;;;
  encode_property bool_wire (lw_is_utf8_payload will) pt.UTF8_PAYLOAD ;;;
  encode_property NonZeroU32_wire (lw_message_expiry_interval will) pt.MSG_EXPIRY_INT ;;;
  encode_property ByteString_wire (lw_content_type will) pt.CONTENT_TYPE ;;;
  encode_property ByteString_wire (lw_response_topic will) pt.RESP_TOPIC ;;;
  encode_property Bytes_wire (lw_correlation_data will) pt.CORR_DATA ;;;
  UserProperties_encode (lw_user_properties will) ;;;
  Bytes_encode (lw_topic will) ;;;
  Bytes_encode (lw_message will).

Definition Connect_encode (c : Connect) (_size : Z) : io EncodeError unit :=
  Bytes_encode MQTT ;;;
  put_slice [MQTT_LEVEL_5; connect_flags c] ;;;
  u16_encode (c_keep_alive c) ;;;
  write_variable_length (wrap 32 (Connect_properties_len c)) ;;;
  encode_property_default u32_wire (c_session_expiry_interval_secs c) 0 pt.SESS_EXPIRY_INT ;;;
  encode_property ByteString_wire (c_auth_method c) pt.AUTH_METHOD ;;;
  encode_property Bytes_wire (c_auth_data c) pt.AUTH_DATA ;;;
  encode_property_default bool_wire (c_request_problem_info c) true pt.REQ_PROB_INFO ;;;
  encode_property_default bool_wire (c_request_response_info c) false pt.REQ_RESP_INFO ;;;
  encode_property NonZeroU16_wire (c_receive_max c) pt.RECEIVE_MAX ;;;
  encode_property NonZeroU32_wire (c_max_packet_size c) pt.MAX_PACKET_SIZE ;;;
  encode_property_default u16_wire (c_topic_alias_max c) 0 pt.TOPIC_ALIAS_MAX ;;;
  UserProperties_encode (c_user_properties c) ;;;
  Bytes_encode (c_client_id c) ;;;
  match c_last_will c with Some will => LastWill_encode will | None => ret tt end ;;;
  V3.encode_opt (c_username c) ;;;
  V3.encode_opt (c_password c).

(** ** CONNACK *)

(** The local variables of [ConnectAck::decode]. *)
Record ConnectAckProps : Type := mkConnectAckProps {
  cap_session_expiry_interval_secs : option Z;
  cap_receive_max : option Z;
  cap_max_qos : option QoS;
  cap_retain_available : option bool;
  cap_max_packet_size : option Z;
  cap_assigned_client_id : option bytes;
  cap_topic_alias_max : option Z;
  cap_reason_string : option bytes;
  cap_user_properties : UserProperties;
  cap_wildcard_sub_avail : option bool;
  cap_sub_ids_avail : option bool;
  cap_shared_sub_avail : option bool;
  cap_server_ka_sec : option Z;
  cap_response_info : option bytes;
  cap_server_reference : option bytes;
  cap_auth_method : option bytes;
  cap_auth_data : option bytes;
}.

Definition connect_ack_prop (st : ConnectAckProps) : io DecodeError ConnectAckProps :=
  let '(mkConnectAckProps sei rm mq ra mps aci tam rs ups wsa sia ssa ska ri sr am ad) := st in
  let! b := get_u8 in
  if b =? pt.SESS_EXPIRY_INT then
    let! sei := read_value u32_wire sei in
    ret (mkConnectAckProps sei rm mq ra mps aci tam rs ups wsa sia ssa ska ri sr am ad)
  else if b =? pt.RECEIVE_MAX then
    let! rm := read_value NonZeroU16_wire rm in
    ret (mkConnectAckProps sei rm mq ra mps aci tam rs ups wsa sia ssa ska ri sr am ad)
  else if b =? pt.MAX_QOS then
    ensure (negb (V3.is_some mq)) MalformedPacket ;;;
    ensure_remaining 1 InvalidLength ;;;
    let! v := get_u8 in
    let! q := lift (QoS_try_from v) in
    let mq := Some q in
    ret (mkConnectAckProps sei rm mq ra mps aci tam rs ups wsa sia ssa ska ri sr am ad)
  else if b =? pt.RETAIN_AVAIL then
    let! ra := read_value bool_wire ra in
    ret (mkConnectAckProps sei rm mq ra mps aci tam rs ups wsa sia ssa ska ri sr am ad)
  else if b =? pt.MAX_PACKET_SIZE then
    let! mps := read_value u32_wire mps in
    ret (mkConnectAckProps sei rm mq ra mps aci tam rs ups wsa sia ssa ska ri sr am ad)
  else if b =? pt.ASSND_CLIENT_ID then
    let! aci := read_value ByteString_wire aci in
    ret (mkConnectAckProps sei rm mq ra mps aci tam rs ups wsa sia ssa ska ri sr am ad)
  else if b =? pt.TOPIC_ALIAS_MAX then
    let! tam := read_value u16_wire tam in
    ret (mkConnectAckProps sei rm mq ra mps aci tam rs ups wsa sia ssa ska ri sr am ad)
  else if b =? pt.REASON_STRING then
    let! rs := read_value ByteString_wire rs in
    ret (mkConnectAckProps sei rm mq ra mps aci tam rs ups wsa sia ssa ska ri sr am ad)
  else if b =? pt.USER then
    let! ups := push_user ups in
    ret (mkConnectAckProps sei rm mq ra mps aci tam rs ups wsa sia ssa ska ri sr am ad)
  else if b =? pt.WILDCARD_SUB_AVAIL then
    let! wsa := read_value bool_wire wsa in
    ret (mkConnectAckProps sei rm mq ra mps aci tam rs ups wsa sia ssa ska ri sr am ad)
  else if b =? pt.SUB_IDS_AVAIL then
    let! sia := read_value bool_wire sia in
    ret (mkConnectAckProps sei rm mq ra mps aci tam rs ups wsa sia ssa ska ri sr am ad)
  else if b =? pt.SHARED_SUB_AVAIL then
    let! ssa := read_value bool_wire ssa in
    ret (mkConnectAckProps sei rm mq ra mps aci tam rs ups wsa sia ssa ska ri sr am ad)
  else if b =? pt.SERVER_KA then
    let! ska := read_value u16_wire ska in
    ret (mkConnectAckProps sei rm mq ra mps aci tam rs ups wsa sia ssa ska ri sr am ad)
  else if b =? pt.RESP_INFO then
    let! ri := read_value ByteString_wire ri in
    ret (mkConnectAckProps sei rm mq ra mps aci tam rs ups wsa sia ssa ska ri sr am ad)
  else if b =? pt.SERVER_REF then
    let! sr := read_value ByteString_wire sr in
    ret (mkConnectAckProps sei rm mq ra mps aci tam rs ups wsa sia ssa ska ri sr am ad)
  else if b =? pt.AUTH_METHOD then
    let! am := read_value ByteString_wire am in
    ret (mkConnectAckProps sei rm mq ra mps aci tam rs ups wsa sia ssa ska ri sr am ad)
  else if b =? pt.AUTH_DATA then
    let! ad := read_value Bytes_wire ad in
    ret (mkConnectAckProps sei rm mq ra mps aci tam rs ups wsa sia ssa ska ri sr am ad)
  else throw MalformedPacket.

Definition ConnectAckProps_init : ConnectAckProps :=
  mkConnectAckProps None None None None None None None None [] None None None None None None
    None None.

Definition ConnectAck_decode : io DecodeError ConnectAck :=
  ensure_remaining 2 InvalidLength ;;;
  let! b := get_u8 in
  let! flags := V3.ok_or (ConnectAckFlags.from_bits b) ConnAckReservedFlagSet in
  let! r := get_u8 in
  let! reason_code := lift (try_from r) in
  let! prop_src := take_properties in
  let! st := read_props connect_ack_prop ConnectAckProps_init prop_src in
  ensure_empty InvalidLength ;;;
  ret {| ca_session_present := ConnectAckFlags.contains flags ConnectAckFlags.SESSION_PRESENT;
         ca_reason_code := reason_code;
         ca_session_expiry_interval_secs := cap_session_expiry_interval_secs st;
         ca_receive_max := default RECEIVE_MAX_DEFAULT (cap_receive_max st);
         ca_max_qos := default ExactlyOnce (cap_max_qos st);
         ca_max_packet_size := cap_max_packet_size st;
         ca_assigned_client_id := cap_assigned_client_id st;
         ca_topic_alias_max := default 0 (cap_topic_alias_max st);
         ca_retain_available := default true (cap_retain_available st);
         ca_wildcard_subscription_available := default true (cap_wildcard_sub_avail st);
         ca_subscription_identifiers_available := default true (cap_sub_ids_avail st);
         ca_shared_subscription_available := default true (cap_shared_sub_avail st);
         ca_server_keepalive_sec := cap_server_ka_sec st;
         ca_response_info := cap_response_info st;
         ca_server_reference := cap_server_reference st;
         ca_auth_method := cap_auth_method st;
         ca_auth_data := cap_auth_data st;
         ca_reason_string := cap_reason_string st;
         ca_user_properties := cap_user_properties st |}.

(** [self.max_qos < QoS::ExactlyOnce]. *)
Definition below_qos2 (q : QoS) : bool := QoS_value q <? QoS_value ExactlyOnce.

(** The properties other than the diagnostics. *)
Definition ConnectAck_prop_len (a : ConnectAck) : Z :=
  encoded_property_size u32_wire (ca_session_expiry_interval_secs a)
  + encoded_property_size_default NonZeroU16_wire (ca_receive_max a) RECEIVE_MAX_DEFAULT
  + (if below_qos2 (ca_max_qos a) then 1 + 1 else 0)
  + encoded_property_size u32_wire (ca_max_packet_size a)
  + encoded_property_size ByteString_wire (ca_assigned_client_id a)
  + encoded_property_size_default bool_wire (ca_retain_available a) true
  + encoded_property_size_default bool_wire (ca_wildcard_subscription_available a) true
  + encoded_property_size_default bool_wire (ca_subscription_identifiers_available a) true
  + encoded_property_size_default bool_wire (ca_shared_subscription_available a) true
  + encoded_property_size u16_wire (ca_server_keepalive_sec a)
  + encoded_property_size ByteString_wire (ca_response_info a)
  + encoded_property_size ByteString_wire (ca_server_reference a)
  + encoded_property_size ByteString_wire (ca_auth_method a)
  + encoded_property_size Bytes_wire (ca_auth_data a)
  + (if 0 <? ca_topic_alias_max a then 1 + encoded_size u16_wire (ca_topic_alias_max a) else 0).

Definition ConnectAck_encoded_size (a : ConnectAck) (limit : Z) : Z :=
  let prop_len := ConnectAck_prop_len a in
  let diag_len := encoded_size_opt_props (ca_user_properties a) (ca_reason_string a)
                    (reduce_limit limit (2 + 4 + prop_len)) in
  let prop_len := prop_len + diag_len in
  2 + var_int_len prop_len + prop_len.

(** [size - (buf.len() - start_len) as u32]. *)
Definition remaining_size (size : Z) (start : bytes) : io EncodeError Z :=
  let! buf := get_state in
  lift (sub32 size (wrap 32 (len buf - len start))).

Definition ConnectAck_encode (a : ConnectAck) (size : Z) : io EncodeError unit :=
  let! start := get_state in
  put_slice [V3.b2z (ca_session_present a); to_u8 (ca_reason_code a)] ;;;
  let! d := lift (sub32 size 2) in
  let! prop_len := lift (var_int_len_from_size d) in
  write_variable_length prop_len ;;;
  encode_property u32_wire (ca_session_expiry_interval_secs a) pt.SESS_EXPIRY_INT ;;;
  encode_property_default NonZeroU16_wire (ca_receive_max a) RECEIVE_MAX_DEFAULT pt.RECEIVE_MAX ;;;
  (if below_qos2 (ca_max_qos a) then put_slice [pt.MAX_QOS; QoS_value (ca_max_qos a)] else ret tt) ;;;
  encode_property_default bool_wire (ca_retain_available a) true pt.RETAIN_AVAIL ;;;
  encode_property u32_wire (ca_max_packet_size a) pt.MAX_PACKET_SIZE ;;;
  encode_property ByteString_wire (ca_assigned_client_id a) pt.ASSND_CLIENT_ID ;;;
  encode_property_default u16_wire (ca_topic_alias_max a) 0 pt.TOPIC_ALIAS_MAX ;;;
  encode_property_default bool_wire (ca_wildcard_subscription_available a) true pt.WILDCARD_SUB_AVAIL ;;;
  encode_property_default bool_wire (ca_subscription_identifiers_available a) true pt.SUB_IDS_AVAIL ;;;
  encode_property_default bool_wire (ca_shared_subscription_available a) true pt.SHARED_SUB_AVAIL ;;;
  encode_property u16_wire (ca_server_keepalive_sec a) pt.SERVER_KA ;;;
  encode_property ByteString_wire (ca_response_info a) pt.RESP_INFO ;;;
  encode_property ByteString_wire (ca_server_reference a) pt.SERVER_REF ;;;
  encode_property ByteString_wire (ca_auth_method a) pt.AUTH_METHOD ;;;
  encode_property Bytes_wire (ca_auth_data a) pt.AUTH_DATA ;;;
  let! rest := remaining_size size start in
  encode_opt_props (ca_user_properties a) (ca_reason_string a) rest.

(** ** PUBLISH *)

(** The local variables of [parse_publish_properties]. *)
Record PublishProps : Type := mkPublishProps {
  pp_message_expiry_interval : option Z;
  pp_topic_alias : option Z;
  pp_content_type : option bytes;
  pp_correlation_data : option bytes;
  pp_subscription_ids : list Z;
  pp_response_topic : option bytes;
  pp_is_utf8_payload : option bool;
  pp_user_props : UserProperties;
}.

Definition publish_prop (st : PublishProps) : io DecodeError PublishProps :=
  let '(mkPublishProps mei ta ct cd sids rt up ups) := st in
  let! b := get_u8 in
  if b =? pt.UTF8_PAYLOAD then
    let! up := read_value bool_wire up in ret (mkPublishProps mei ta ct cd sids rt up ups)
  else if b =? pt.MSG_EXPIRY_INT then
    let! mei := read_value NonZeroU32_wire mei in ret (mkPublishProps mei ta ct cd sids rt up ups)
  else if b =? pt.CONTENT_TYPE then
    let! ct := read_value ByteString_wire ct in ret (mkPublishProps mei ta ct cd sids rt up ups)
  else if b =? pt.RESP_TOPIC then
    let! rt := read_value ByteString_wire rt in ret (mkPublishProps mei ta ct cd sids rt up ups)
  else if b =? pt.CORR_DATA then
    let! cd := read_value Bytes_wire cd in ret (mkPublishProps mei ta ct cd sids rt up ups)
  else if b =? pt.SUB_ID then
    let! id := decode_variable_length_cursor in
    let! id := lift (nonzero id) in
    ret (mkPublishProps mei ta ct cd (sids ++ [id]) rt up ups)
  else if b =? pt.TOPIC_ALIAS then
    let! ta := read_value NonZeroU16_wire ta in ret (mkPublishProps mei ta ct cd sids rt up ups)
  else if b =? pt.USER then
    let! ups := push_user ups in ret (mkPublishProps mei ta ct cd sids rt up ups)
  else throw MalformedPacket.

Definition parse_publish_properties : io DecodeError PublishProperties :=
  let! prop_src := take_properties in
  let! st := read_props publish_prop (mkPublishProps None None None None [] None None []) prop_src in
  ret {| topic_alias := pp_topic_alias st;
         correlation_data := pp_correlation_data st;
         message_expiry_interval := pp_message_expiry_interval st;
         content_type := pp_content_type st;
         user_properties := pp_user_props st;
         is_utf8_payload := default false (pp_is_utf8_payload st);
         response_topic := pp_response_topic st;
         subscription_ids := pp_subscription_ids st |}.

Definition Publish_decode (packet_flags : Z) : io DecodeError Publish :=
  let! topic := ByteString_decode in
  let! qos := lift (QoS_try_from (Z.shiftr (Z.land packet_flags 6) 1)) in
  let! packet_id :=
    if bool_decide (qos = AtMostOnce) then ret None
    else let! id := NonZeroU16_decode in ret (Some id) in
  let! properties := parse_publish_properties in
  let! payload := take_rest in
  ret {| dup := Z.land packet_flags 8 =? 8;
         retain := Z.land packet_flags 1 =? 1;
         qos := qos;
         topic := topic;
         packet_id := packet_id;
         payload := payload;
         properties := Some properties |}.

Definition PublishProperties_prop_len (p : PublishProperties) : Z :=
  encoded_property_size NonZeroU16_wire (topic_alias p)
  + encoded_property_size Bytes_wire (correlation_data p)
  + encoded_property_size NonZeroU32_wire (message_expiry_interval p)
  + encoded_property_size ByteString_wire (content_type p)
  + encoded_property_size_default bool_wire (is_utf8_payload p) false
  + encoded_property_size ByteString_wire (response_topic p)
  + foldl (fun acc id => acc + 1 + var_int_len id) 0 (subscription_ids p)
  + UserProperties_encoded_size (user_properties p).

Definition PublishProperties_encoded_size (p : PublishProperties) (_limit : Z) : Z :=
  let prop_len := PublishProperties_prop_len p in
  prop_len + var_int_len prop_len.

Definition PublishProperties_encode (p : PublishProperties) (size : Z) : io EncodeError unit :=
  let! prop_len := lift (var_int_len_from_size size) in
  write_variable_length prop_len ;;;
  encode_property NonZeroU16_wire (topic_alias p) pt.TOPIC_ALIAS ;;;
  encode_property Bytes_wire (correlation_data p) pt.CORR_DATA ;;;
  encode_property NonZeroU32_wire (message_expiry_interval p) pt.MSG_EXPIRY_INT ;;;
  encode_property ByteString_wire (content_type p) pt.CONTENT_TYPE ;;;
  encode_property_default bool_wire (is_utf8_payload p) false pt.UTF8_PAYLOAD ;;;
  encode_property ByteString_wire (response_topic p) pt.RESP_TOPIC ;;;
  for_each (fun sub_id => put_u8 pt.SUB_ID ;;; write_variable_length sub_id) (subscription_ids p) ;;;
  UserProperties_encode (user_properties p).

Definition Publish_encoded_size (p : Publish) (_limit : Z) : Z :=
  let packet_id_size := if bool_decide (qos p = AtMostOnce) then 0 else 2 in
  Bytes_encoded_size (topic p)
  + packet_id_size
  + match properties p with
    | Some props => PublishProperties_encoded_size props _limit
    | None => PublishProperties_encoded_size PublishProperties_default _limit
    end
  + len (payload p).

Definition Publish_encode (p : Publish) (size : Z) : io EncodeError unit :=
  let! start := get_state in
  Bytes_encode (topic p) ;;;
  (if bool_decide (qos p = AtMostOnce) then
     ensure (negb (V3.is_some (packet_id p))) EncodeError.MalformedPacket
   else
     let! id := V3.ok_or (packet_id p) EncodeError.PacketIdRequired in
     u16_encode id) ;;;
  let! buf := get_state in
  let! d := lift (sub32 size (wrap 32 (len buf - len start + len (payload p)))) in
  PublishProperties_encode
    (match properties p with Some props => props | None => PublishProperties_default end) d ;;;
  put_slice (payload p).

(** ** PUBACK, PUBREC, PUBREL, PUBCOMP *)

Definition HEADER_LEN : Z := 2 + 1.

Definition PublishAck_decode : io DecodeError PublishAck :=
  let! packet_id := NonZeroU16_decode in
  let! more := has_remaining in
  if more then
    let! b := get_u8 in
    let! reason_code := lift (try_from b) in
    let! more := has_remaining in
    if more then
      let! props := ack_props_decode in
      ensure_empty InvalidLength ;;;
      ret (mkPublishAck packet_id reason_code props.1 props.2)
    else ret (mkPublishAck packet_id reason_code (pa_properties PublishAck_default)
                (pa_reason_string PublishAck_default))
  else ret (mkPublishAck packet_id (pa_reason_code PublishAck_default)
              (pa_properties PublishAck_default) (pa_reason_string PublishAck_default)).

Definition PublishAck2_decode : io DecodeError PublishAck2 :=
  let! packet_id := NonZeroU16_decode in
  let! more := has_remaining in
  if more then
    let! b := get_u8 in
    let! reason_code := lift (try_from b) in
    let! more := has_remaining in
    if more then
      let! props := ack_props_decode in
      ensure_empty InvalidLength ;;;
      ret (mkPublishAck2 packet_id reason_code props.1 props.2)
    else ret (mkPublishAck2 packet_id reason_code (pa2_properties PublishAck2_default)
                (pa2_reason_string PublishAck2_default))
  else ret (mkPublishAck2 packet_id (pa2_reason_code PublishAck2_default)
              (pa2_properties PublishAck2_default) (pa2_reason_string PublishAck2_default)).

Definition PublishAck_encoded_size (a : PublishAck) (limit : Z) : outcome EncodeError Z :=
  let? l := sub32 limit HEADER_LEN in
  let? l := sub32 l 4 in
  Ok (HEADER_LEN + ack_props_encoded_size (pa_properties a) (pa_reason_string a) l).

Definition PublishAck_encode (a : PublishAck) (size : Z) : io EncodeError unit :=
  u16_encode (pa_packet_id a) ;;;
  put_u8 (to_u8 (pa_reason_code a)) ;;;
  let! size := lift (sub32 size HEADER_LEN) in
  ack_props_encode (pa_properties a) (pa_reason_string a) size.

Definition PublishAck2_encoded_size (a : PublishAck2) (limit : Z) : outcome EncodeError Z :=
  let? l := sub32 limit HEADER_LEN in
  let? l := sub32 l 4 in
  Ok (HEADER_LEN + ack_props_encoded_size (pa2_properties a) (pa2_reason_string a) l).

Definition PublishAck2_encode (a : PublishAck2) (size : Z) : io EncodeError unit :=
  u16_encode (pa2_packet_id a) ;;;
  put_u8 (to_u8 (pa2_reason_code a)) ;;;
  let! size := lift (sub32 size 3) in
  ack_props_encode (pa2_properties a) (pa2_reason_string a) size.

(** ** SUBSCRIBE, SUBACK, UNSUBSCRIBE, UNSUBACK *)

Definition SubscriptionOptions_decode : io DecodeError SubscriptionOptions :=
  ensure_remaining 1 InvalidLength ;;;
  let! val := get_u8 in
  let! qos := lift (QoS_try_from (Z.land val 3)) in
  let! retain_handling := lift (try_from (Z.shiftr (Z.land val 48) 4)) in
  ret {| so_qos := qos;
         so_no_local := negb (Z.land val 4 =? 0);
         so_retain_as_published := negb (Z.land val 8 =? 0);
         so_retain_handling := retain_handling |}.

Definition SubscriptionOptions_byte (o : SubscriptionOptions) : Z :=
  Z.lor (Z.lor (Z.lor (QoS_value (so_qos o)) (wrap 8 (Z.shiftl (V3.b2z (so_no_local o)) 2)))
               (wrap 8 (Z.shiftl (V3.b2z (so_retain_as_published o)) 3)))
        (wrap 8 (Z.shiftl (to_u8 (so_retain_handling o)) 4)).

Definition SubscriptionOptions_encode (o : SubscriptionOptions) : io EncodeError unit :=
  put_u8 (SubscriptionOptions_byte o).

Definition subscribe_prop (st : option Z * UserProperties)
    : io DecodeError (option Z * UserProperties) :=
  let '(sub_id, ups) := st in
  let! prop_id := get_u8 in
  if prop_id =? pt.SUB_ID then
    ensure (negb (V3.is_some sub_id)) MalformedPacket ;;;
    let! val := decode_variable_length_cursor in
    let! id := lift (nonzero val) in
    ret (Some id, ups)
  else if prop_id =? pt.USER then
    let! ups := push_user ups in ret (sub_id, ups)
  else throw MalformedPacket.

Definition subscribe_item (acc : list (bytes * SubscriptionOptions))
    : io DecodeError (list (bytes * SubscriptionOptions)) :=
  let! topic := ByteString_decode in
  let! opts := SubscriptionOptions_decode in
  ret (acc ++ [(topic, opts)]).

Definition Subscribe_decode : io DecodeError Subscribe :=
  let! packet_id := NonZeroU16_decode in
  let! prop_src := take_properties in
  let! st := read_props subscribe_prop (None, []) prop_src in
  let! src := get_state in
  let! topic_filters := while_remaining (length src) subscribe_item [] in
  ret (mkSubscribe packet_id st.1 st.2 topic_filters).

Definition SubscribeAck_decode : io DecodeError SubscribeAck :=
  let! packet_id := NonZeroU16_decode in
  let! props := ack_props_decode in
  let! src := get_state in
  let! status := lift (try_collect try_from src) in
  ret (mkSubscribeAck packet_id props.1 props.2 status).

Definition unsubscribe_prop (ups : UserProperties) : io DecodeError UserProperties :=
  let! prop_id := get_u8 in
  if prop_id =? pt.USER then push_user ups else throw MalformedPacket.

Definition unsubscribe_item (acc : list bytes) : io DecodeError (list bytes) :=
  let! topic := ByteString_decode in
  ret (acc ++ [topic]).

Definition Unsubscribe_decode : io DecodeError Unsubscribe :=
  let! packet_id := NonZeroU16_decode in
  let! prop_src := take_properties in
  let! ups := read_props unsubscribe_prop [] prop_src in
  let! src := get_state in
  let! topic_filters := while_remaining (length src) unsubscribe_item [] in
  ret (mkUnsubscribe packet_id ups topic_filters).

Definition UnsubscribeAck_decode : io DecodeError UnsubscribeAck :=
  let! packet_id := NonZeroU16_decode in
  let! props := ack_props_decode in
  let! src := get_state in
  let! status := lift (try_collect try_from src) in
  ret (mkUnsubscribeAck packet_id props.1 props.2 status).

Definition sub_id_len (id : option Z) : Z :=
  match id with Some v => 1 + var_int_len v | None => 0 end.

Definition Subscribe_encoded_size (s : Subscribe) (_limit : Z) : Z :=
  let prop_len := sub_id_len (s_id s) + UserProperties_encoded_size (s_user_properties s) in
  let payload_len :=
    foldl (fun acc f => acc + Bytes_encoded_size (fst f) + 1) 0 (s_topic_filters s) in
  2 + var_int_len prop_len + prop_len + payload_len.

Definition Subscribe_encode (s : Subscribe) (_size : Z) : io EncodeError unit :=
  u16_encode (s_packet_id s) ;;;
  (let prop_len :=
     wrap 32 (sub_id_len (s_id s) + wrap 32 (UserProperties_encoded_size (s_user_properties s))) in
   write_variable_length prop_len) ;;;
  match s_id s with
  | Some id => put_u8 pt.SUB_ID ;;; write_variable_length id
  | None => ret tt
  end ;;;
  UserProperties_encode (s_user_properties s) ;;;
  for_each (fun f => Bytes_encode (fst f) ;;; SubscriptionOptions_encode (snd f))
    (s_topic_filters s).

(** [usize::MAX], on the bail-out of an absurd status list. *)
Definition USIZE_MAX : Z := 2 ^ 64 - 1.

Definition SubscribeAck_encoded_size (a : SubscribeAck) (limit : Z) : outcome EncodeError Z :=
  let n := len (sa_status a) in
  if U32_MAX - 2 <? n then Ok USIZE_MAX
  else
    let? l := sub32 limit 2 in
    let? l := sub32 l (wrap 32 n) in
    Ok (2 + ack_props_encoded_size (sa_properties a) (sa_reason_string a) l + n).

Definition SubscribeAck_encode (a : SubscribeAck) (size : Z) : io EncodeError unit :=
  u16_encode (sa_packet_id a) ;;;
  let! d := lift (sub32 size 2) in
  let! d := lift (sub32 d (wrap 32 (len (sa_status a)))) in
  ack_props_encode (sa_properties a) (sa_reason_string a) d ;;;
  for_each (fun reason => put_u8 (to_u8 reason)) (sa_status a).

Definition Unsubscribe_encoded_size (u : Unsubscribe) (_limit : Z) : Z :=
  let prop_len := UserProperties_encoded_size (u_user_properties u) in
  2 + var_int_len prop_len + prop_len
  + foldl (fun acc f => acc + 2 + len f) 0 (u_topic_filters u).

Definition Unsubscribe_encode (u : Unsubscribe) (_size : Z) : io EncodeError unit :=
  u16_encode (u_packet_id u) ;;;
  write_variable_length (wrap 32 (UserProperties_encoded_size (u_user_properties u))) ;;;
  UserProperties_encode (u_user_properties u) ;;;
  for_each Bytes_encode (u_topic_filters u).

Definition UnsubscribeAck_encoded_size (a : UnsubscribeAck) (limit : Z) : Z :=
  let n := len (ua_status a) in
  2 + n + ack_props_encoded_size (ua_properties a) (ua_reason_string a) (reduce_limit limit (2 + n)).

Definition UnsubscribeAck_encode (a : UnsubscribeAck) (size : Z) : io EncodeError unit :=
  u16_encode (ua_packet_id a) ;;;
  let! d := lift (sub32 size 2) in
  let! d := lift (sub32 d (wrap 32 (len (ua_status a)))) in
  ack_props_encode (ua_properties a) (ua_reason_string a) d ;;;
  for_each (fun reason => put_u8 (to_u8 reason)) (ua_status a).

(** ** DISCONNECT *)

Record DisconnectProps : Type := mkDisconnectProps {
  dp_session_exp_secs : option Z;
  dp_server_reference : option bytes;
  dp_reason_string : option bytes;
  dp_user_properties : UserProperties;
}.

Definition disconnect_prop (st : DisconnectProps) : io DecodeError DisconnectProps :=
  let '(mkDisconnectProps ses sr rs ups) := st in
  let! b := get_u8 in
  if b =? pt.SESS_EXPIRY_INT then
    let! ses := read_value u32_wire ses in ret (mkDisconnectProps ses sr rs ups)
  else if b =? pt.REASON_STRING then
    let! rs := read_value ByteString_wire rs in ret (mkDisconnectProps ses sr rs ups)
  else if b =? pt.USER then
    let! ups := push_user ups in ret (mkDisconnectProps ses sr rs ups)
  else if b =? pt.SERVER_REF then
    let! sr := read_value ByteString_wire sr in ret (mkDisconnectProps ses sr rs ups)
  else throw MalformedPacket.

Definition Disconnect_decode : io DecodeError Disconnect :=
  let! more := has_remaining in
  if more then
    let! b := get_u8 in
    let! reason_code := lift (try_from b) in
    let! more := has_remaining in
    if more then
      let! prop_src := take_properties in
      let! st := read_props disconnect_prop (mkDisconnectProps None None None []) prop_src in
      ensure_empty InvalidLength ;;;
      ret (mkDisconnect reason_code (dp_session_exp_secs st) (dp_server_reference st)
             (dp_reason_string st) (dp_user_properties st))
    else ret (Disconnect_new reason_code)
  else ret Disconnect_default.

Definition Disconnect_prop_len (d : Disconnect) : Z :=
  encoded_property_size u32_wire (d_session_expiry_interval_secs d)
  + encoded_property_size ByteString_wire (d_server_reference d).

Definition Disconnect_encoded_size (d : Disconnect) (limit : Z) : Z :=
  let prop_len := Disconnect_prop_len d in
  let diag_len := encoded_size_opt_props (d_user_properties d) (d_reason_string d)
                    (reduce_limit limit (prop_len + 1 + 4)) in
  let prop_len := prop_len + diag_len in
  1 + var_int_len prop_len + prop_len.

Definition Disconnect_encode (d : Disconnect) (size : Z) : io EncodeError unit :=
  let! start := get_state in
  put_u8 (to_u8 (d_reason_code d)) ;;;
  let! n := lift (sub32 size 1) in
  let! prop_len := lift (var_int_len_from_size n) in
  write_variable_length prop_len ;;;
  encode_property u32_wire (d_session_expiry_interval_secs d) pt.SESS_EXPIRY_INT ;;;
  encode_property ByteString_wire (d_server_reference d) pt.SERVER_REF ;;;
  let! rest := remaining_size size start in
  encode_opt_props (d_user_properties d) (d_reason_string d) rest.

(** ** AUTH *)

Record AuthProps : Type := mkAuthProps {
  ap_auth_method : option bytes;
  ap_auth_data : option bytes;
  ap_reason_string : option bytes;
  ap_user_properties : UserProperties;
}.

Definition auth_prop (st : AuthProps) : io DecodeError AuthProps :=
  let '(mkAuthProps am ad rs ups) := st in
  let! b := get_u8 in
  if b =? pt.AUTH_METHOD then
    let! am := read_value ByteString_wire am in ret (mkAuthProps am ad rs ups)
  else if b =? pt.AUTH_DATA then
    let! ad := read_value Bytes_wire ad in ret (mkAuthProps am ad rs ups)
  else if b =? pt.REASON_STRING then
    let! rs := read_value ByteString_wire rs in ret (mkAuthProps am ad rs ups)
  else if b =? pt.USER then
    let! ups := push_user ups in ret (mkAuthProps am ad rs ups)
  else throw MalformedPacket.

Definition Auth_decode : io DecodeError Auth :=
  let! more := has_remaining in
  if more then
    let! b := get_u8 in
    let! reason_code := lift (try_from b) in
    let! more := has_remaining in
    if more then
      let! more := has_remaining in
      let! st :=
        if negb (bool_decide (reason_code = AuthReasonCodeM.Success)) || more then
          let! prop_src := take_properties in
          let! st := read_props auth_prop (mkAuthProps None None None []) prop_src in
          ensure_empty InvalidLength ;;;
          ret st
        else ret (mkAuthProps None None None []) in
      ret (mkAuth reason_code (ap_auth_method st) (ap_auth_data st) (ap_reason_string st)
             (ap_user_properties st))
    else ret (mkAuth reason_code (a_auth_method Auth_default) (a_auth_data Auth_default)
                (a_reason_string Auth_default) (a_user_properties Auth_default))
  else ret Auth_default.

Definition Auth_prop_len (a : Auth) : Z :=
  encoded_property_size ByteString_wire (a_auth_method a)
  + encoded_property_size Bytes_wire (a_auth_data a).

Definition Auth_encoded_size (a : Auth) (limit : Z) : Z :=
  let prop_len := Auth_prop_len a in
  let diag_len := encoded_size_opt_props (a_user_properties a) (a_reason_string a)
                    (reduce_limit limit (prop_len + 1 + 4)) in
  let prop_len := prop_len + diag_len in
  1 + var_int_len prop_len + prop_len.

Definition Auth_encode (a : Auth) (size : Z) : io EncodeError unit :=
  let! start := get_state in
  put_u8 (to_u8 (a_reason_code a)) ;;;
  let! n := lift (sub32 size 1) in
  let! prop_len := lift (var_int_len_from_size n) in
  write_variable_length prop_len ;;;
  encode_property ByteString_wire (a_auth_method a) pt.AUTH_METHOD ;;;
  encode_property Bytes_wire (a_auth_data a) pt.AUTH_DATA ;;;
  let! rest := remaining_size size start in
  encode_opt_props (a_user_properties a) (a_reason_string a) rest.

(** ** All packets *)

(** [Ok(Packet::X(x))]. *)
Definition fmap_io {E A B} (f : A -> B) (m : io E A) : io E B := let! a := m in ret (f a).

Definition decode_body (first_byte : Z) : io DecodeError Packet :=
  if between packet_type.PUBLISH_START first_byte packet_type.PUBLISH_END then
    fmap_io PPublish (Publish_decode (Z.land first_byte 15))
  else if first_byte =? packet_type.PUBACK then fmap_io PPublishAck PublishAck_decode
  else if first_byte =? packet_type.PINGREQ then ret PPingRequest
  else if first_byte =? packet_type.PINGRESP then ret PPingResponse
  else if first_byte =? packet_type.SUBSCRIBE then fmap_io PSubscribe Subscribe_decode
  else if first_byte =? packet_type.SUBACK then fmap_io PSubscribeAck SubscribeAck_decode
  else if first_byte =? packet_type.UNSUBSCRIBE then fmap_io PUnsubscribe Unsubscribe_decode
  else if first_byte =? packet_type.UNSUBACK then fmap_io PUnsubscribeAck UnsubscribeAck_decode
  else if first_byte =? packet_type.CONNECT then fmap_io PConnect Connect_decode
  else if first_byte =? packet_type.CONNACK then fmap_io PConnectAck ConnectAck_decode
  else if first_byte =? packet_type.DISCONNECT then fmap_io PDisconnect Disconnect_decode
  else if first_byte =? packet_type.AUTH then fmap_io PAuth Auth_decode
  else if first_byte =? packet_type.PUBREC then fmap_io PPublishReceived PublishAck_decode
  else if first_byte =? packet_type.PUBREL then fmap_io PPublishRelease PublishAck2_decode
  else if first_byte =? packet_type.PUBCOMP then fmap_io PPublishComplete PublishAck2_decode
  else throw UnsupportedPacketType.

Definition decode_packet (src : bytes) (first_byte : Z) : outcome DecodeError Packet :=
  fst (decode_body first_byte src).

(** [EncodeLtd for Packet]. *)
Definition Packet_encoded_size (p : Packet) (limit : Z) : outcome EncodeError Z :=
  match p with
  | PConnect c => Ok (Connect_encoded_size c limit)
  | PPublish p => Ok (Publish_encoded_size p limit)
  | PConnectAck a => Ok (ConnectAck_encoded_size a limit)
  | PPublishAck a | PPublishReceived a => PublishAck_encoded_size a limit
  | PPublishRelease a | PPublishComplete a => PublishAck2_encoded_size a limit
  | PSubscribe s => Ok (Subscribe_encoded_size s limit)
  | PSubscribeAck a => SubscribeAck_encoded_size a limit
  | PUnsubscribe u => Ok (Unsubscribe_encoded_size u limit)
  | PUnsubscribeAck a => Ok (UnsubscribeAck_encoded_size a limit)
  | PPingRequest | PPingResponse => Ok 0
  | PDisconnect d => Ok (Disconnect_encoded_size d limit)
  | PAuth a => Ok (Auth_encoded_size a limit)
  end.

Definition publish_first_byte (p : Publish) : Z :=
  Z.lor (Z.lor (Z.lor packet_type.PUBLISH_START (wrap 8 (Z.shiftl (QoS_value (qos p)) 1)))
               (wrap 8 (Z.shiftl (V3.b2z (dup p)) 3)))
        (V3.b2z (retain p)).

Definition Packet_encode (p : Packet) (check_size : Z) : io EncodeError unit :=
  match p with
  | PConnect c => V3.with_header packet_type.CONNECT check_size (Connect_encode c check_size)
  | PConnectAck a => V3.with_header packet_type.CONNACK check_size (ConnectAck_encode a check_size)
  | PPublish p => V3.with_header (publish_first_byte p) check_size (Publish_encode p check_size)
  | PPublishAck a => V3.with_header packet_type.PUBACK check_size (PublishAck_encode a check_size)
  | PPublishReceived a => V3.with_header packet_type.PUBREC check_size (PublishAck_encode a check_size)
  | PPublishRelease a => V3.with_header packet_type.PUBREL check_size (PublishAck2_encode a check_size)
  | PPublishComplete a => V3.with_header packet_type.PUBCOMP check_size (PublishAck2_encode a check_size)
  | PSubscribe s => V3.with_header packet_type.SUBSCRIBE check_size (Subscribe_encode s check_size)
  | PSubscribeAck a => V3.with_header packet_type.SUBACK check_size (SubscribeAck_encode a check_size)
  | PUnsubscribe u => V3.with_header packet_type.UNSUBSCRIBE check_size (Unsubscribe_encode u check_size)
  | PUnsubscribeAck a => V3.with_header packet_type.UNSUBACK check_size (UnsubscribeAck_encode a check_size)
  | PPingRequest => put_slice [packet_type.PINGREQ; 0]
  | PPingResponse => put_slice [packet_type.PINGRESP; 0]
  | PDisconnect d => V3.with_header packet_type.DISCONNECT check_size (Disconnect_encode d check_size)
  | PAuth a => V3.with_header packet_type.AUTH check_size (Auth_encode a check_size)
  end.

End codec.
End V5Codec.
