(* ===== verification/CodecV5Lemmas.v ===== *)
(** * Building blocks of the MQTT 5 proofs

    The length of a variable length integer, the size arithmetic of
    [encode.rs], property segments (written, sized, and read back by a
    property loop) and the diagnostics that fit a limit. *)

From stdpp Require Import prelude list.
From Stdlib Require Import ZArith Lia.
From S2P Require Import Prelude CodecTypes CodecUtils CodecV3 CodecV3Proofs CodecV5Types.
From S2P Require Import CodecV5.

Local Open Scope Z_scope.

Module V5Lemmas.
Import V5 V5Codec.

(** ** The length of a variable length integer *)

Definition digits (v : Z) : Z :=
  if v <? 128 then 1
  else if v <? 16384 then 2
  else if v <? 2097152 then 3
  else if v <? 268435456 then 4
  else 5.

Lemma digits_bounds v : 1 <= digits v <= 5.
Proof. unfold digits. repeat case_match; lia. Qed.

Lemma var_int_image_digits v :
  0 <= v <= MAX_PACKET_SIZE -> len (var_int_image 3 v) = digits v.
Proof.
  unfold MAX_PACKET_SIZE, digits. intros Hv. simpl var_int_image.
  assert (Hd : forall a b, 0 <= a -> 0 < b -> (a / 128 <? b) = (a <? 128 * b)).
  { intros a b Ha Hb. pose proof (Z.div_mod a 128). pose proof (Z.mod_pos_bound a 128).
    destruct (Z.ltb_spec a (128 * b)); [apply Z.ltb_lt|apply Z.ltb_ge]; lia. }
  pose proof (Z.div_pos v 128). rewrite !Hd by (try apply Z.div_pos; lia).
  change (128 * 128) with 16384. change (128 * 16384) with 2097152.
  rewrite (proj2 (Z.ltb_lt v 268435456)) by lia.
  destruct (v <? 128), (v <? 16384), (v <? 2097152); reflexivity.
Qed.

(** The tables are indexed by the position of the highest bit. *)
Lemma log2_cases v n :
  0 < v < 2 ^ Z.of_nat n ->
  exists k, (k < n)%nat /\ Z.log2 v = Z.of_nat k /\ 2 ^ Z.of_nat k <= v < 2 ^ Z.of_nat (S k).
Proof.
  intros Hv. pose proof (Z.log2_nonneg v). exists (Z.to_nat (Z.log2 v)).
  pose proof (Z.log2_spec v ltac:(lia)). rewrite Nat2Z.inj_succ, !Z2Nat.id by lia.
  split_and!; [|done|lia|lia].
  assert (Z.log2 v < Z.of_nat n) by (apply Z.log2_lt_pow2; lia). lia.
Qed.

Ltac table_lookup v :=
  match goal with
  | H : exists k, _ |- _ =>
      let k := fresh "k" in let Hk := fresh in let Hlog := fresh in let Hr := fresh in
      destruct H as (k & Hk & Hlog & Hr); rewrite Hlog;
      do 32 (destruct k as [|k];
        [simpl in Hr; unfold digits;
         repeat match goal with |- context [v <? ?c] => destruct (Z.ltb_spec v c) end;
         simpl; lia|]); lia
  end.

Lemma var_int_len_digits v : 0 <= v < 2 ^ 28 -> var_int_len v = digits v.
Proof.
  intros Hv. unfold var_int_len, leading_zeros. destruct (Z.eqb_spec v 0) as [->|Hne]; [done|].
  pose proof (log2_cases v 28 ltac:(simpl; lia)) as Hc. table_lookup v.
Qed.

Lemma var_int_len_u32_digits v : 0 <= v < 2 ^ 32 -> var_int_len_u32 v = digits v.
Proof.
  intros Hv. unfold var_int_len_u32, leading_zeros. destruct (Z.eqb_spec v 0) as [->|Hne]; [done|].
  pose proof (log2_cases v 32 ltac:(simpl; lia)) as Hc. table_lookup v.
Qed.

Lemma sub32_ok oc a b : b <= a -> sub32 oc a b = Ok (a - b).
Proof. intros H. unfold sub32. by rewrite (proj2 (Z.ltb_ge _ _)). Qed.

(** The property length is recovered from the size of length and block. *)
Lemma var_int_len_from_size_ok oc n :
  0 <= n < 2 ^ 28 -> var_int_len_from_size oc (digits n + n) = Ok n.
Proof.
  intros Hn. pose proof (digits_bounds n) as Hd. unfold var_int_len_from_size.
  change (2 ^ 28) with 268435456 in Hn.
  assert (H32 : 2 ^ 32 = 4294967296) by reflexivity.
  rewrite (var_int_len_u32_digits (digits n + n)) by lia.
  assert (Hle : digits (digits n + n) <= digits n + n /\
                digits (digits n + n - digits (digits n + n) + 1) = digits n).
  { unfold digits.
    repeat match goal with |- context [?x <? ?c] => destruct (Z.ltb_spec x c) end; lia. }
  destruct Hle as [Hle Heq]. rewrite sub32_ok by done. simpl.
  pose proof (digits_bounds (digits n + n)).
  rewrite var_int_len_u32_digits by lia. rewrite Heq, sub32_ok by lia. f_equal. lia.
Qed.

(** ** Writing property segments *)

Definition opt_prop {A} (id : Z) (img : A -> bytes) (o : option A) : bytes :=
  match o with Some a => id :: img a | None => [] end.

Definition nondefault {A} `{EqDecision A} (d v : A) : option A :=
  if bool_decide (v = d) then None else Some v.

Lemma default_nondefault {A} `{EqDecision A} (d v : A) : default d (nondefault d v) = v.
Proof. unfold nondefault. case_bool_decide; by subst. Qed.

Lemma encode_property_default_eq {A} `{EqDecision A} (w : Wire A) v d id :
  encode_property_default w v d id = encode_property w (nondefault d v) id.
Proof. unfold encode_property_default, nondefault. by case_bool_decide. Qed.

Lemma encoded_property_size_default_eq {A} `{EqDecision A} (w : Wire A) v d :
  encoded_property_size_default w v d = encoded_property_size w (nondefault d v).
Proof. unfold encoded_property_size_default, nondefault. by case_bool_decide. Qed.

Definition opt_wf {A} (P : A -> Prop) (o : option A) : Prop :=
  match o with Some a => P a | None => True end.

Lemma opt_wf_nondefault {A} `{EqDecision A} (P : A -> Prop) d v :
  P v -> opt_wf P (nondefault d v).
Proof. unfold nondefault. by case_bool_decide. Qed.

Section segments.
Context {A : Type} {w : Wire A} {wf : A -> Prop} {img : A -> bytes} `{!WireOk w wf img}.

Lemma encode_property_writes o id :
  opt_wf wf o -> writes (encode_property w o id) (opt_prop id img o) tt.
Proof.
  destruct o as [a|]; simpl; intros Ha; [|apply writes_ret].
  eapply (writes_bind _ _ [id]); [apply writes_put_u8|by apply (wire_writes (WireOk := WireOk0))].
Qed.

Lemma encoded_property_size_len o id :
  opt_wf wf o -> encoded_property_size w o = len (opt_prop id img o).
Proof.
  destruct o as [a|]; simpl; intros Ha; [|done]. by rewrite len_cons, (wire_size a).
Qed.

Lemma read_value_reads a : wf a -> reads (read_value w None) (img a) (Some a).
Proof.
  intros Ha. unfold read_value. apply reads_ensure; [done|].
  eapply reads_last; [by apply wire_reads|apply reads_ret].
Qed.

Lemma wp_read_value o s :
  u8s s ->
  wp (read_value w o) s (fun o' s' => opt_wf wf o' /\ u8s s' /\ (length s' < length s)%nat).
Proof.
  intros Hs. unfold read_value. wp_go.
  eapply wp_mono; [|by apply (wire_total (w := w))]. intros a s' (? & ? & ?). by wp_go.
Qed.
End segments.

(** ** User properties *)

Definition user_image (u : bytes * bytes) : bytes := pt.USER :: pair_image u.
Definition users_image (ups : UserProperties) : bytes := concat (user_image <$> ups).

Lemma UserProperty_size_len u : len (pair_image u) = UserProperty_encoded_size u.
Proof.
  unfold pair_image, UserProperty_encoded_size, Bytes_encoded_size.
  by rewrite len_app, !str_image_len.
Qed.

Lemma user_image_len u : len (user_image u) = 1 + UserProperty_encoded_size u.
Proof. unfold user_image. by rewrite len_cons, UserProperty_size_len. Qed.

Lemma user_image_pos u : 0 < len (user_image u).
Proof. unfold user_image. rewrite len_cons. pose proof (len_nonneg (pair_image u)). lia. Qed.

Lemma UserProperties_size_len ups : UserProperties_encoded_size ups = len (users_image ups).
Proof.
  unfold UserProperties_encoded_size, users_image.
  rewrite (V3Proofs.len_concat _ (fun u => 1 + UserProperty_encoded_size u)) by apply user_image_len.
  rewrite (foldl_add (fun u : bytes * bytes => 1 + UserProperty_encoded_size u)) by (intros; lia).
  done.
Qed.

Lemma user_writes u :
  wf_pair u -> writes (put_u8 pt.USER ;;; UserProperty_encode u) (user_image u) tt.
Proof.
  intros Hu. eapply (writes_bind _ _ [pt.USER]); [apply writes_put_u8|].
  by apply (wire_writes (WireOk := UserProperty_ok)).
Qed.

Lemma UserProperties_writes ups :
  Forall wf_pair ups -> writes (UserProperties_encode ups) (users_image ups) tt.
Proof.
  intros H. apply writes_for_each. intros u Hu. rewrite Forall_forall in H.
  by apply user_writes, H.
Qed.

(** ** The diagnostics that fit *)

Definition diag_image (d : UserProperties * option bytes) : bytes :=
  users_image d.1 ++ opt_prop pt.REASON_STRING str_image d.2.

Fixpoint fit (ups : UserProperties) (reason : option bytes) (limit : Z)
    : UserProperties * option bytes :=
  match ups with
  | u :: ups =>
      if limit <? len (user_image u) then ([], None)
      else let '(us, r) := fit ups reason (limit - len (user_image u)) in (u :: us, r)
  | [] =>
      ([], if len (opt_prop pt.REASON_STRING str_image reason) <=? limit then reason else None)
  end.

Lemma diag_image_cons u us r : diag_image (u :: us, r) = user_image u ++ diag_image (us, r).
Proof. unfold diag_image, users_image. cbn [fst]. by rewrite concat_fmap_cons, app_assoc. Qed.

Lemma diag_image_nil : len (diag_image ([], None)) = 0.
Proof. done. Qed.

Lemma encoded_size_opt_props_fit ups reason limit :
  0 <= limit ->
  encoded_size_opt_props ups reason limit = len (diag_image (fit ups reason limit)).
Proof.
  unfold encoded_size_opt_props. intros Hl.
  assert (Hloop : forall acc, encoded_size_opt_props_loop ups reason limit acc =
                    acc + len (diag_image (fit ups reason limit))).
  { revert limit Hl. induction ups as [|u ups IH]; intros limit Hl acc; simpl.
    - destruct reason as [r|]; [|case_match; rewrite diag_image_nil; lia].
      cbn [opt_prop]. rewrite !len_cons, !str_image_len. unfold Bytes_encoded_size.
      destruct (1 + (2 + len r) <=? limit); [|rewrite diag_image_nil; lia].
      unfold diag_image. simpl. rewrite len_cons, str_image_len. lia.
    - rewrite <- user_image_len. destruct (Z.ltb_spec limit (len (user_image u)));
        [rewrite diag_image_nil; lia|].
      rewrite IH by lia. destruct (fit ups reason _) as [us r].
      rewrite diag_image_cons, len_app. lia. }
  rewrite Hloop. lia.
Qed.

Lemma fit_wf ups reason limit :
  Forall wf_pair ups -> opt_wf wf_str reason ->
  Forall wf_pair (fit ups reason limit).1 /\ opt_wf wf_str (fit ups reason limit).2.
Proof.
  intros Hu Hr. revert limit. induction Hu as [|u ups Hu Hups IH]; intros limit; simpl.
  - split; [constructor|]. by case_match.
  - destruct (limit <? len (user_image u)); [by split; [constructor|]|].
    specialize (IH (limit - len (user_image u))).
    destruct (fit ups reason _) as [us r]. simpl in *. split; [constructor; [done|apply IH]|apply IH].
Qed.

Lemma fit_all ups reason limit :
  len (diag_image (ups, reason)) <= limit -> fit ups reason limit = (ups, reason).
Proof.
  revert limit. induction ups as [|u ups IH]; intros limit H; simpl.
  - unfold diag_image in H. simpl in H. by rewrite (proj2 (Z.leb_le _ _)).
  - rewrite diag_image_cons, len_app in H. pose proof (len_nonneg (diag_image (ups, reason))).
    rewrite (proj2 (Z.ltb_ge _ _)) by lia. by rewrite IH by lia.
Qed.

Lemma fit_bound ups reason limit :
  0 <= limit -> len (diag_image (fit ups reason limit)) <= limit.
Proof.
  revert limit. induction ups as [|u ups IH]; intros limit H; simpl.
  - unfold diag_image. simpl. destruct (Z.leb_spec (len (opt_prop pt.REASON_STRING str_image reason)) limit);
      simpl; [done|unfold len; simpl; lia].
  - destruct (Z.ltb_spec limit (len (user_image u))); [unfold len; simpl; lia|].
    specialize (IH (limit - len (user_image u)) ltac:(lia)).
    destruct (fit ups reason _) as [us r]. rewrite diag_image_cons, len_app. lia.
Qed.

(** Encoding into exactly the announced size writes what fits. *)
Lemma encode_opt_props_writes ups reason limit :
  Forall wf_pair ups -> opt_wf wf_str reason ->
  writes (encode_opt_props ups reason (len (diag_image (fit ups reason limit))))
    (diag_image (fit ups reason limit)) tt.
Proof.
  intros Hu Hr. revert limit. induction Hu as [|u ups Hu Hups IH]; intros limit; simpl.
  - destruct reason as [r|]; simpl.
    + destruct (_ <=? limit); unfold diag_image; simpl.
      * rewrite len_cons, str_image_len. rewrite (proj2 (Z.ltb_lt _ _)) by lia.
        eapply (writes_bind _ _ [pt.REASON_STRING]); [apply writes_put_u8|].
        apply Bytes_encode_writes. apply Hr.
      * rewrite (proj2 (Z.ltb_ge _ _)) by apply len_nonneg. apply writes_ret.
    + case_match; apply writes_ret.
  - assert (Hlen : 1 + Bytes_encoded_size u.1 + Bytes_encoded_size u.2 = len (user_image u)).
    { rewrite user_image_len. unfold UserProperty_encoded_size. lia. }
    rewrite Hlen. destruct (limit <? len (user_image u)).
    + pose proof (user_image_pos u). change (len (diag_image ([], None))) with 0.
      rewrite (proj2 (Z.ltb_lt _ _)) by lia. apply writes_ret.
    + specialize (IH (limit - len (user_image u))).
      destruct (fit ups reason _) as [us r]. rewrite diag_image_cons, len_app.
      pose proof (len_nonneg (diag_image (us, r))).
      rewrite (proj2 (Z.ltb_ge _ _)) by lia.
      replace (len (user_image u) + len (diag_image (us, r)) - len (user_image u))
        with (len (diag_image (us, r))) by lia.
      unfold user_image at 1.
      change ((pt.USER :: pair_image u) ++ diag_image (us, r))
        with ([pt.USER] ++ pair_image u ++ diag_image (us, r)).
      eapply writes_bind; [apply writes_put_u8|].
      eapply writes_bind; [by apply (wire_writes (WireOk := UserProperty_ok))|done].
Qed.

(** ** Reading property blocks *)

(** The loop consumes the block [w] and ends in the state [r]. *)
Definition loop_reads {S} (body : S -> io DecodeError S) (st : S) (w : bytes) (r : S) : Prop :=
  forall fuel, (length w <= fuel)%nat -> while_remaining fuel body st w = (Ok r, []).

Section loops.
Context {S : Type} (body : S -> io DecodeError S).

Lemma loop_nil st : loop_reads body st [] st.
Proof. intros [|fuel] _; done. Qed.

Lemma loop_step st st' w rest r :
  w <> [] -> reads (body st) w st' -> loop_reads body st' rest r ->
  loop_reads body st (w ++ rest) r.
Proof.
  intros Hw Hb Hl fuel Hf. rewrite length_app in Hf.
  assert (0 < length w)%nat by (destruct w; simpl; [done|lia]).
  destruct fuel as [|fuel]; [lia|].
  rewrite while_remaining_step by (by intros [? _]%app_nil).
  unfold bind. rewrite Hb. apply Hl. lia.
Qed.

(** A field of the loop's state, still unset: its segment sets it. *)
Lemma loop_opt {A} (set : option A -> S) id (img : A -> bytes) o rest r :
  (forall a, o = Some a -> reads (body (set None)) (id :: img a) (set (Some a))) ->
  loop_reads body (set o) rest r ->
  loop_reads body (set None) (opt_prop id img o ++ rest) r.
Proof.
  intros Hb Hl. destruct o as [a|]; [|done]. by eapply loop_step; [|apply Hb|].
Qed.

(** A list field: each of the items is pushed. *)
Lemma loop_list {A} (set : list A -> S) (img : A -> bytes) (acc l : list A) rest r :
  (forall acc x, x ∈ l -> img x <> [] /\ reads (body (set acc)) (img x) (set (acc ++ [x]))) ->
  loop_reads body (set (acc ++ l)) rest r ->
  loop_reads body (set acc) (concat (img <$> l) ++ rest) r.
Proof.
  revert acc. induction l as [|x l IH]; intros acc Hb Hl.
  - by rewrite app_nil_r in Hl.
  - rewrite concat_fmap_cons, <- app_assoc.
    destruct (Hb acc x) as [Hne Hx]; [apply list_elem_of_here|].
    eapply loop_step; [done|done|]. apply IH; [|by rewrite <- app_assoc].
    intros acc' y Hy. by apply Hb, list_elem_of_further.
Qed.
End loops.

Lemma read_props_reads {S} (body : S -> io DecodeError S) st w r :
  loop_reads body st w r -> reads (read_props body st w) [] r.
Proof. intros H s. unfold read_props, run_on. by rewrite H. Qed.

(** A property block: its length, then the block. *)
Definition block (w : bytes) : bytes := var_int_image 3 (len w) ++ w.

Lemma block_len_ge (w : bytes) : 1 + len w <= len (block w).
Proof.
  unfold block. rewrite len_app. assert (1 <= len (var_int_image 3 (len w))); [|lia].
  simpl. case_match; rewrite len_cons;
    match goal with |- context [len ?l] => pose proof (len_nonneg l) end; lia.
Qed.

(** Every length of [H] is non-negative. *)
Ltac pose_lens H :=
  repeat match type of H with context [len ?w] =>
    lazymatch goal with _ : 0 <= len w |- _ => fail | _ => pose proof (len_nonneg w) end end.

Lemma take_block {A S} (body : S -> io DecodeError S) st w r (k : S -> io DecodeError A) w' a :
  len w <= MAX_PACKET_SIZE -> loop_reads body st w r -> reads (k r) w' a ->
  reads (let! p := take_properties in let! st := read_props body st p in k st) (block w ++ w') a.
Proof.
  intros Hw Hl Hk. eapply reads_bind; [by apply reads_take_properties|].
  eapply reads_bind_pure; [by apply read_props_reads|done].
Qed.

Lemma take_block_all {A S} (body : S -> io DecodeError S) st w r (k : S -> io DecodeError A) w' a :
  len w <= MAX_PACKET_SIZE -> loop_reads body st w r -> reads_all (k r) w' a ->
  reads_all (let! p := take_properties in let! st := read_props body st p in k st)
    (block w ++ w') a.
Proof.
  intros Hw Hl Hk. eapply reads_all_bind; [by apply reads_take_properties|].
  eapply reads_all_bind_pure; [by apply read_props_reads|done].
Qed.

Lemma push_user_reads ups u : wf_pair u -> reads (push_user ups) (pair_image u) (ups ++ [u]).
Proof.
  intros Hu. eapply reads_last; [|apply reads_ret].
  by apply (wire_reads (WireOk := UserProperty_ok)).
Qed.

(** The identifier of a segment selects its branch of the [match]. *)
Ltac select_branch :=
  repeat match goal with
  | |- context [if ?a =? ?b then _ else _] =>
      let v := eval vm_compute in (a =? b) in
      change (a =? b) with v; cbv iota
  end.

(** The [k]-th argument, counted from the last, of a constructor, as a
    function. *)
Ltac field_fun st k :=
  lazymatch k with
  | O => match st with ?f _ => constr:(f) end
  | S ?k' => match st with ?f ?b => let g := field_fun f k' in constr:(fun v => g v b) end
  end.

(** Read the segment at the head of the block into the [k]-th field. *)
Ltac read_opt k :=
  match goal with
  | |- loop_reads ?body ?st (opt_prop ?id ?img ?o ++ ?rest) ?r =>
      let g := field_fun st k in
      change st with (g None);
      apply (loop_opt body g id img o rest r);
      [ let a := fresh "a" in let Ha := fresh "Ha" in intros a Ha; cbv beta;
        eapply (reads_bind _ _ [id]); [apply reads_get_u8|]; select_branch;
        eapply reads_last; [apply read_value_reads; rewrite Ha in *; assumption|apply reads_ret]
      | cbv beta ]
  end.

Ltac read_users k :=
  match goal with
  | |- loop_reads ?body ?st (users_image ?l ++ ?rest) ?r =>
      let g := field_fun st k in
      change st with (g []);
      apply (loop_list body g user_image [] l rest r);
      [ let acc := fresh "acc" in let u := fresh "u" in let Hu := fresh "Hu" in
        intros acc u Hu; split; [done|]; cbv beta;
        eapply (reads_bind _ _ [pt.USER]); [apply reads_get_u8|]; select_branch;
        eapply reads_last;
        [apply push_user_reads;
         match goal with H : Forall wf_pair l |- _ => rewrite Forall_forall in H; by apply H end
        |apply reads_ret]
      | cbv beta; cbn [app] ]
  end.

(** ** Property blocks of arbitrary bytes *)

Lemma wp_push_user ups s :
  u8s s -> Forall wf_pair ups ->
  wp (push_user ups) s (fun ups' s' => Forall wf_pair ups' /\ u8s s' /\ (length s' < length s)%nat).
Proof.
  intros Hs Hu. unfold push_user. apply wp_bind.
  eapply wp_mono; [|by apply (wire_total (WireOk := UserProperty_ok))].
  intros u s' (? & ? & ?). apply wp_ret. split_and!; try done.
  apply Forall_app. split; [done|]. by constructor.
Qed.

(** A loop on a block keeps an invariant of its state that each property
    keeps. *)
Lemma wp_read_props {S} (I : S -> Prop) (body : S -> io DecodeError S) st p s
    (Q : S -> bytes -> Prop) :
  u8s p -> I st ->
  (forall st b s, u8s s -> I st ->
     wp (body st) (b :: s) (fun st' s' => I st' /\ u8s s' /\ (length s' <= length s)%nat)) ->
  (forall st', I st' -> Q st' s) ->
  wp (read_props body st p) s Q.
Proof.
  intros Hp Hi Hbody HQ. apply wp_run_on.
  eapply wp_mono; [|apply (wp_while_remaining (fun st s => I st /\ u8s s))].
  - intros st' s' [[? _] _]. auto.
  - intros st0 [|b s0] Hne [HI Hs]; [done|]. apply Forall_cons in Hs as [_ Hs].
    eapply wp_mono; [|by apply Hbody]. intros st' s' (? & ? & ?). simpl. auto with lia.
  - auto.
  - done.
Qed.

Lemma wp_has_remaining {E} s (Q : bool -> bytes -> Prop) :
  Q (negb (len s =? 0)) s -> wp (E := E) has_remaining s Q.
Proof. done. Qed.

Lemma wp_lift_enum {A} `{PrimEnumOk A} v s (Q : A -> bytes -> Prop) :
  (forall a, Q a s) -> wp (lift (try_from v)) s Q.
Proof. intros HQ. apply wp_lift; [apply try_from_returns|auto]. Qed.
End V5Lemmas.
