(* ===== verification/CodecV5Format.v ===== *)
(** * The MQTT 5 wire format

    [packet_image] specifies the bytes of every packet and [trim] what a
    packet keeps of its diagnostics under a size limit. The sizes that
    [Packet_encoded_size] announces are the lengths of those images. *)

From stdpp Require Import prelude list strings.
From Stdlib Require Import ZArith Lia.
From S2P Require Import Prelude CodecTypes CodecUtils CodecV3 CodecV3Proofs CodecV5Types.
From S2P Require Import CodecV5 CodecV5Lemmas.

Local Open Scope Z_scope.

Module V5Format.
Import V5 V5Codec V5Lemmas.

(** ** Well-formed packets *)

Record wf_will (w : LastWill) : Prop := {
  wfw_topic : wf_str (lw_topic w);
  wfw_message : wf_bytes (lw_message w);
  wfw_delay : opt_wf u32 (lw_will_delay_interval_sec w);
  wfw_corr : opt_wf wf_bytes (lw_correlation_data w);
  wfw_expiry : opt_wf (nz u32) (lw_message_expiry_interval w);
  wfw_content : opt_wf wf_str (lw_content_type w);
  wfw_users : Forall wf_pair (lw_user_properties w);
  wfw_resp : opt_wf wf_str (lw_response_topic w);
}.

Record wf_connect (c : Connect) : Prop := {
  wfc_keep_alive : u16 (c_keep_alive c);
  wfc_sei : u32 (c_session_expiry_interval_secs c);
  wfc_auth_method : opt_wf wf_str (c_auth_method c);
  wfc_auth_data : opt_wf wf_bytes (c_auth_data c);
  wfc_receive_max : opt_wf (nz u16) (c_receive_max c);
  wfc_tam : u16 (c_topic_alias_max c);
  wfc_users : Forall wf_pair (c_user_properties c);
  wfc_mps : opt_wf (nz u32) (c_max_packet_size c);
  wfc_will : opt_wf wf_will (c_last_will c);
  wfc_client_id : wf_str (c_client_id c);
  wfc_clean : c_client_id c <> [] \/ c_clean_start c = true;
  wfc_username : opt_wf wf_str (c_username c);
  wfc_password : opt_wf wf_bytes (c_password c);
  wfc_cert : c_cert c = None;
}.

Record wf_connack (a : ConnectAck) : Prop := {
  wfa_sei : opt_wf u32 (ca_session_expiry_interval_secs a);
  wfa_receive_max : nz u16 (ca_receive_max a);
  wfa_mps : opt_wf u32 (ca_max_packet_size a);
  wfa_client : opt_wf wf_str (ca_assigned_client_id a);
  wfa_tam : u16 (ca_topic_alias_max a);
  wfa_ka : opt_wf u16 (ca_server_keepalive_sec a);
  wfa_resp : opt_wf wf_str (ca_response_info a);
  wfa_ref : opt_wf wf_str (ca_server_reference a);
  wfa_auth_method : opt_wf wf_str (ca_auth_method a);
  wfa_auth_data : opt_wf wf_bytes (ca_auth_data a);
  wfa_reason : opt_wf wf_str (ca_reason_string a);
  wfa_users : Forall wf_pair (ca_user_properties a);
}.

(** A subscription identifier fits a variable length integer. *)
Definition wf_sub_id (id : Z) : Prop := 1 <= id <= MAX_PACKET_SIZE.

Record wf_props (p : PublishProperties) : Prop := {
  wfpp_alias : opt_wf (nz u16) (topic_alias p);
  wfpp_corr : opt_wf wf_bytes (correlation_data p);
  wfpp_expiry : opt_wf (nz u32) (message_expiry_interval p);
  wfpp_content : opt_wf wf_str (content_type p);
  wfpp_users : Forall wf_pair (user_properties p);
  wfpp_resp : opt_wf wf_str (response_topic p);
  wfpp_ids : Forall wf_sub_id (subscription_ids p);
}.

Record wf_publish (p : Publish) : Prop := {
  wfp_topic : wf_str (topic p);
  wfp_packet_id : match qos p with
                  | AtMostOnce => packet_id p = None
                  | _ => exists id, packet_id p = Some id /\ nz u16 id
                  end;
  wfp_payload : u8s (payload p);
  wfp_props : opt_wf wf_props (properties p);
}.

(** Diagnostics. *)
Definition wf_diag (ups : UserProperties) (reason : option bytes) : Prop :=
  Forall wf_pair ups /\ opt_wf wf_str reason.

Definition wf_packet (p : Packet) : Prop :=
  match p with
  | PConnect c => wf_connect c
  | PConnectAck a => wf_connack a
  | PPublish p => wf_publish p
  | PPublishAck a | PPublishReceived a =>
      nz u16 (pa_packet_id a) /\ wf_diag (pa_properties a) (pa_reason_string a)
  | PPublishRelease a | PPublishComplete a =>
      nz u16 (pa2_packet_id a) /\ wf_diag (pa2_properties a) (pa2_reason_string a)
  | PSubscribe s =>
      nz u16 (s_packet_id s) /\ opt_wf wf_sub_id (s_id s) /\
      Forall wf_pair (s_user_properties s) /\ Forall (fun f => wf_str (fst f)) (s_topic_filters s)
  | PSubscribeAck a =>
      nz u16 (sa_packet_id a) /\ wf_diag (sa_properties a) (sa_reason_string a)
  | PUnsubscribe u =>
      nz u16 (u_packet_id u) /\ Forall wf_pair (u_user_properties u) /\
      Forall wf_str (u_topic_filters u)
  | PUnsubscribeAck a =>
      nz u16 (ua_packet_id a) /\ wf_diag (ua_properties a) (ua_reason_string a)
  | PPingRequest | PPingResponse => True
  | PDisconnect d =>
      opt_wf u32 (d_session_expiry_interval_secs d) /\ opt_wf wf_str (d_server_reference d) /\
      wf_diag (d_user_properties d) (d_reason_string d)
  | PAuth a =>
      opt_wf wf_str (a_auth_method a) /\ opt_wf wf_bytes (a_auth_data a) /\
      wf_diag (a_user_properties a) (a_reason_string a)
  end.

(** ** The wire format *)

Definition connect_props_image (c : Connect) : bytes :=
  opt_prop pt.SESS_EXPIRY_INT be32 (nondefault 0 (c_session_expiry_interval_secs c))
  ++ opt_prop pt.AUTH_METHOD str_image (c_auth_method c)
  ++ opt_prop pt.AUTH_DATA str_image (c_auth_data c)
  ++ opt_prop pt.REQ_PROB_INFO bool_image (nondefault true (c_request_problem_info c))
  ++ opt_prop pt.REQ_RESP_INFO bool_image (nondefault false (c_request_response_info c))
  ++ opt_prop pt.RECEIVE_MAX be16 (c_receive_max c)
  ++ opt_prop pt.MAX_PACKET_SIZE be32 (c_max_packet_size c)
  ++ opt_prop pt.TOPIC_ALIAS_MAX be16 (nondefault 0 (c_topic_alias_max c))
  ++ users_image (c_user_properties c).

Definition will_props_image (w : LastWill) : bytes :=
  opt_prop pt.WILL_DELAY_INT be32 (lw_will_delay_interval_sec w)
  ++ opt_prop pt.UTF8_PAYLOAD bool_image (lw_is_utf8_payload w)
  ++ opt_prop pt.MSG_EXPIRY_INT be32 (lw_message_expiry_interval w)
  ++ opt_prop pt.CONTENT_TYPE str_image (lw_content_type w)
  ++ opt_prop pt.RESP_TOPIC str_image (lw_response_topic w)
  ++ opt_prop pt.CORR_DATA str_image (lw_correlation_data w)
  ++ users_image (lw_user_properties w).

Definition will_image (o : option LastWill) : bytes :=
  match o with
  | Some w => block (will_props_image w) ++ str_image (lw_topic w) ++ str_image (lw_message w)
  | None => []
  end.

Definition connack_props_image (a : ConnectAck) : bytes :=
  opt_prop pt.SESS_EXPIRY_INT be32 (ca_session_expiry_interval_secs a)
  ++ opt_prop pt.RECEIVE_MAX be16 (nondefault RECEIVE_MAX_DEFAULT (ca_receive_max a))
  ++ opt_prop pt.MAX_QOS (fun q => [QoS_value q]) (nondefault ExactlyOnce (ca_max_qos a))
  ++ opt_prop pt.RETAIN_AVAIL bool_image (nondefault true (ca_retain_available a))
  ++ opt_prop pt.MAX_PACKET_SIZE be32 (ca_max_packet_size a)
  ++ opt_prop pt.ASSND_CLIENT_ID str_image (ca_assigned_client_id a)
  ++ opt_prop pt.TOPIC_ALIAS_MAX be16 (nondefault 0 (ca_topic_alias_max a))
  ++ opt_prop pt.WILDCARD_SUB_AVAIL bool_image
       (nondefault true (ca_wildcard_subscription_available a))
  ++ opt_prop pt.SUB_IDS_AVAIL bool_image
       (nondefault true (ca_subscription_identifiers_available a))
  ++ opt_prop pt.SHARED_SUB_AVAIL bool_image
       (nondefault true (ca_shared_subscription_available a))
  ++ opt_prop pt.SERVER_KA be16 (ca_server_keepalive_sec a)
  ++ opt_prop pt.RESP_INFO str_image (ca_response_info a)
  ++ opt_prop pt.SERVER_REF str_image (ca_server_reference a)
  ++ opt_prop pt.AUTH_METHOD str_image (ca_auth_method a)
  ++ opt_prop pt.AUTH_DATA str_image (ca_auth_data a).

Definition sub_id_image (id : Z) : bytes := pt.SUB_ID :: var_int_image 3 id.

Definition publish_props_image (p : PublishProperties) : bytes :=
  opt_prop pt.TOPIC_ALIAS be16 (topic_alias p)
  ++ opt_prop pt.CORR_DATA str_image (correlation_data p)
  ++ opt_prop pt.MSG_EXPIRY_INT be32 (message_expiry_interval p)
  ++ opt_prop pt.CONTENT_TYPE str_image (content_type p)
  ++ opt_prop pt.UTF8_PAYLOAD bool_image (nondefault false (is_utf8_payload p))
  ++ opt_prop pt.RESP_TOPIC str_image (response_topic p)
  ++ concat (sub_id_image <$> subscription_ids p)
  ++ users_image (user_properties p).

Definition props_of (p : Publish) : PublishProperties :=
  default PublishProperties_default (properties p).

Definition ack_image (id code : Z) (ups : UserProperties) (reason : option bytes) : bytes :=
  be16 id ++ [code] ++ block (diag_image (ups, reason)).

Definition filter_image (f : bytes * SubscriptionOptions) : bytes :=
  str_image (fst f) ++ [SubscriptionOptions_byte (snd f)].

Definition body_image (p : Packet) : bytes :=
  match p with
  | PConnect c =>
      str_image MQTT ++ [MQTT_LEVEL_5; connect_flags c] ++ be16 (c_keep_alive c)
      ++ block (connect_props_image c) ++ str_image (c_client_id c)
      ++ will_image (c_last_will c)
      ++ V3Proofs.opt_image (c_username c) ++ V3Proofs.opt_image (c_password c)
  | PConnectAck a =>
      [V3.b2z (ca_session_present a); to_u8 (ca_reason_code a)]
      ++ block (connack_props_image a ++ diag_image (ca_user_properties a, ca_reason_string a))
  | PPublish p =>
      str_image (topic p) ++ V3Proofs.id_image (packet_id p)
      ++ block (publish_props_image (props_of p)) ++ payload p
  | PPublishAck a | PPublishReceived a =>
      ack_image (pa_packet_id a) (to_u8 (pa_reason_code a)) (pa_properties a) (pa_reason_string a)
  | PPublishRelease a | PPublishComplete a =>
      ack_image (pa2_packet_id a) (to_u8 (pa2_reason_code a)) (pa2_properties a)
        (pa2_reason_string a)
  | PSubscribe s =>
      be16 (s_packet_id s)
      ++ block (opt_prop pt.SUB_ID (var_int_image 3) (s_id s) ++ users_image (s_user_properties s))
      ++ concat (filter_image <$> s_topic_filters s)
  | PSubscribeAck a =>
      be16 (sa_packet_id a) ++ block (diag_image (sa_properties a, sa_reason_string a))
      ++ (to_u8 <$> sa_status a)
  | PUnsubscribe u =>
      be16 (u_packet_id u) ++ block (users_image (u_user_properties u))
      ++ concat (str_image <$> u_topic_filters u)
  | PUnsubscribeAck a =>
      be16 (ua_packet_id a) ++ block (diag_image (ua_properties a, ua_reason_string a))
      ++ (to_u8 <$> ua_status a)
  | PPingRequest | PPingResponse => []
  | PDisconnect d =>
      [to_u8 (d_reason_code d)]
      ++ block ((opt_prop pt.SESS_EXPIRY_INT be32 (d_session_expiry_interval_secs d)
                 ++ opt_prop pt.SERVER_REF str_image (d_server_reference d))
                ++ diag_image (d_user_properties d, d_reason_string d))
  | PAuth a =>
      [to_u8 (a_reason_code a)]
      ++ block ((opt_prop pt.AUTH_METHOD str_image (a_auth_method a)
                 ++ opt_prop pt.AUTH_DATA str_image (a_auth_data a))
                ++ diag_image (a_user_properties a, a_reason_string a))
  end.

Definition first_byte_of (p : Packet) : Z :=
  match p with PPublish p => publish_first_byte p | _ => packet_type_of p end.

Definition packet_image (p : Packet) : bytes :=
  [first_byte_of p] ++ var_int_image 3 (len (body_image p)) ++ body_image p.

(** The decoder always makes publish properties. *)
Definition normalize (p : Packet) : Packet :=
  match p with
  | PPublish p => PPublish {|
      dup := dup p; retain := retain p; qos := qos p; topic := topic p;
      packet_id := packet_id p; payload := payload p; properties := Some (props_of p) |}
  | _ => p
  end.

(** ** What is sent under a limit *)

Definition fit_ack (ups : UserProperties) (reason : option bytes) (limit : Z) :=
  if limit <? 4 then ([], None) else fit ups reason (limit - 4).

Definition set_diag (p : Packet) (d : UserProperties * option bytes) : Packet :=
  match p with
  | PConnectAck a => PConnectAck {|
      ca_session_present := ca_session_present a; ca_reason_code := ca_reason_code a;
      ca_session_expiry_interval_secs := ca_session_expiry_interval_secs a;
      ca_receive_max := ca_receive_max a; ca_max_qos := ca_max_qos a;
      ca_max_packet_size := ca_max_packet_size a;
      ca_assigned_client_id := ca_assigned_client_id a;
      ca_topic_alias_max := ca_topic_alias_max a;
      ca_retain_available := ca_retain_available a;
      ca_wildcard_subscription_available := ca_wildcard_subscription_available a;
      ca_subscription_identifiers_available := ca_subscription_identifiers_available a;
      ca_shared_subscription_available := ca_shared_subscription_available a;
      ca_server_keepalive_sec := ca_server_keepalive_sec a;
      ca_response_info := ca_response_info a; ca_server_reference := ca_server_reference a;
      ca_auth_method := ca_auth_method a; ca_auth_data := ca_auth_data a;
      ca_reason_string := d.2; ca_user_properties := d.1 |}
  | PPublishAck a => PPublishAck (mkPublishAck (pa_packet_id a) (pa_reason_code a) d.1 d.2)
  | PPublishReceived a => PPublishReceived (mkPublishAck (pa_packet_id a) (pa_reason_code a) d.1 d.2)
  | PPublishRelease a => PPublishRelease (mkPublishAck2 (pa2_packet_id a) (pa2_reason_code a) d.1 d.2)
  | PPublishComplete a => PPublishComplete (mkPublishAck2 (pa2_packet_id a) (pa2_reason_code a) d.1 d.2)
  | PSubscribeAck a => PSubscribeAck (mkSubscribeAck (sa_packet_id a) d.1 d.2 (sa_status a))
  | PUnsubscribeAck a => PUnsubscribeAck (mkUnsubscribeAck (ua_packet_id a) d.1 d.2 (ua_status a))
  | PDisconnect x => PDisconnect (mkDisconnect (d_reason_code x) (d_session_expiry_interval_secs x)
                                    (d_server_reference x) d.2 d.1)
  | PAuth x => PAuth (mkAuth (a_reason_code x) (a_auth_method x) (a_auth_data x) d.2 d.1)
  | _ => p
  end.

Definition trim (p : Packet) (limit : Z) : Packet :=
  set_diag p
    match p with
    | PConnectAck a =>
        fit (ca_user_properties a) (ca_reason_string a)
          (reduce_limit limit (2 + 4 + ConnectAck_prop_len a))
    | PPublishAck a | PPublishReceived a =>
        fit_ack (pa_properties a) (pa_reason_string a) (wrap 32 (limit - 7))
    | PPublishRelease a | PPublishComplete a =>
        fit_ack (pa2_properties a) (pa2_reason_string a) (wrap 32 (limit - 7))
    | PSubscribeAck a =>
        fit_ack (sa_properties a) (sa_reason_string a) (wrap 32 (limit - 2 - len (sa_status a)))
    | PUnsubscribeAck a =>
        fit_ack (ua_properties a) (ua_reason_string a) (reduce_limit limit (2 + len (ua_status a)))
    | PDisconnect d =>
        fit (d_user_properties d) (d_reason_string d)
          (reduce_limit limit (Disconnect_prop_len d + 1 + 4))
    | PAuth a =>
        fit (a_user_properties a) (a_reason_string a)
          (reduce_limit limit (Auth_prop_len a + 1 + 4))
    | _ => ([], None)
    end.

(** From these limits on the size computation does not underflow. *)
Definition enough (p : Packet) (limit : Z) : Prop :=
  match p with
  | PPublishAck _ | PPublishReceived _ | PPublishRelease _ | PPublishComplete _ => 7 <= limit
  | PSubscribeAck a => 2 + len (sa_status a) <= limit
  | _ => True
  end.

(** ** Sizes *)

Lemma seg_u32 id o : len (opt_prop id be32 o) = encoded_property_size u32_wire o.
Proof. by destruct o. Qed.
Lemma seg_u16 id o : len (opt_prop id be16 o) = encoded_property_size u16_wire o.
Proof. by destruct o. Qed.
Lemma seg_bool id o : len (opt_prop id bool_image o) = encoded_property_size bool_wire o.
Proof. by destruct o. Qed.
Lemma seg_str id o : len (opt_prop id str_image o) = encoded_property_size Bytes_wire o.
Proof. destruct o; [|done]. cbn [opt_prop]. by rewrite len_cons, str_image_len. Qed.

(** The wires of the same size are interchangeable here. *)
Ltac seg_sizes :=
  rewrite ?encoded_property_size_default_eq;
  change (@encoded_property_size Z NonZeroU16_wire) with (@encoded_property_size Z u16_wire);
  change (@encoded_property_size Z NonZeroU32_wire) with (@encoded_property_size Z u32_wire);
  change (@encoded_property_size bytes ByteString_wire)
    with (@encoded_property_size bytes Bytes_wire);
  rewrite ?len_app, ?seg_u32, ?seg_u16, ?seg_bool, ?seg_str.

Lemma Connect_properties_len_image c : Connect_properties_len c = len (connect_props_image c).
Proof.
  unfold Connect_properties_len, connect_props_image. seg_sizes.
  rewrite UserProperties_size_len. lia.
Qed.

Lemma LastWill_properties_len_image w : LastWill_properties_len w = len (will_props_image w).
Proof.
  unfold LastWill_properties_len, will_props_image. seg_sizes.
  rewrite UserProperties_size_len. lia.
Qed.

Lemma below_qos2_size q :
  (if below_qos2 q then 1 + 1 else 0) =
    len (opt_prop pt.MAX_QOS (fun q => [QoS_value q]) (nondefault ExactlyOnce q)).
Proof. by destruct q. Qed.

Lemma topic_alias_max_size v :
  0 <= v ->
  (if 0 <? v then 1 + encoded_size u16_wire v else 0) =
    encoded_property_size u16_wire (nondefault 0 v).
Proof.
  intros Hv. unfold nondefault. destruct (Z.ltb_spec 0 v); case_bool_decide; simpl; lia.
Qed.

Lemma ConnectAck_prop_len_image a :
  0 <= ca_topic_alias_max a -> ConnectAck_prop_len a = len (connack_props_image a).
Proof.
  intros Ht. unfold ConnectAck_prop_len, connack_props_image.
  rewrite topic_alias_max_size, below_qos2_size by done. seg_sizes. lia.
Qed.

Lemma var_int_len_nonneg v : 0 <= var_int_len v.
Proof.
  unfold var_int_len. destruct (nth_in_or_default (Z.to_nat (leading_zeros 64 v)) VAR_INT_MAP_64 0)
    as [Hin| ->]; [|done].
  revert Hin. generalize (nth (Z.to_nat (leading_zeros 64 v)) VAR_INT_MAP_64 0).
  apply List.Forall_forall. repeat constructor; lia.
Qed.

(** The announced size of a block, when it or the block is in range. *)
Lemma block_size w :
  var_int_len (len w) + len w <= MAX_PACKET_SIZE \/ len (block w) <= MAX_PACKET_SIZE ->
  var_int_len (len w) + len w = len (block w) /\ len w <= MAX_PACKET_SIZE.
Proof.
  intros H. pose proof (var_int_len_nonneg (len w)). pose proof (len_nonneg w).
  pose proof (block_len_ge w). assert (Hw : len w <= MAX_PACKET_SIZE) by lia.
  unfold block. rewrite len_app, var_int_image_digits by lia.
  rewrite var_int_len_digits by (unfold MAX_PACKET_SIZE in *; lia). auto.
Qed.

Lemma sub_ids_size ids :
  Forall wf_sub_id ids ->
  foldl (fun acc id => acc + 1 + var_int_len id) 0 ids = len (concat (sub_id_image <$> ids)).
Proof.
  intros H. rewrite (foldl_add (fun id => 1 + var_int_len id)) by (intros; lia).
  induction H as [|id ids Hid Hids IH]; [done|].
  rewrite concat_fmap_cons, len_app, <- IH. simpl. unfold sub_id_image, wf_sub_id in *.
  unfold MAX_PACKET_SIZE in Hid.
  rewrite len_cons, var_int_image_digits, var_int_len_digits by (unfold MAX_PACKET_SIZE; lia). lia.
Qed.

Lemma PublishProperties_prop_len_image p :
  wf_props p -> PublishProperties_prop_len p = len (publish_props_image p).
Proof.
  intros H. unfold PublishProperties_prop_len, publish_props_image. seg_sizes.
  rewrite UserProperties_size_len, sub_ids_size by apply H. lia.
Qed.

Lemma props_of_wf p : wf_publish p -> wf_props (props_of p).
Proof.
  intros [_ _ _ H]. unfold props_of. destruct (properties p); [done|].
  split; simpl; done || constructor.
Qed.

Lemma fit_ack_size ups reason limit :
  ack_props_encoded_size ups reason limit <= MAX_PACKET_SIZE ->
  ack_props_encoded_size ups reason limit = len (block (diag_image (fit_ack ups reason limit))) /\
  len (diag_image (fit_ack ups reason limit)) <= MAX_PACKET_SIZE.
Proof.
  unfold ack_props_encoded_size, fit_ack. destruct (Z.ltb_spec limit 4); [done|].
  rewrite encoded_size_opt_props_fit by lia. intros Hm. by apply (block_size _ (or_introl Hm)).
Qed.

Lemma reduce_limit_nonneg l r : 0 <= l -> 0 <= reduce_limit l r.
Proof. intros H. unfold reduce_limit. destruct (Z.ltb_spec l r); lia. Qed.


Lemma pair_eta {A B} (p : A * B) : (p.1, p.2) = p.
Proof. by destruct p. Qed.

Lemma ack_size id c ups r l :
  ack_props_encoded_size ups r l <= MAX_PACKET_SIZE ->
  len (ack_image id c (fit_ack ups r l).1 (fit_ack ups r l).2) =
    3 + ack_props_encoded_size ups r l.
Proof.
  intros Hl. apply fit_ack_size in Hl as [-> _]. unfold ack_image.
  rewrite pair_eta, !len_app. change (len (be16 id)) with 2. change (len [c]) with 1. lia.
Qed.

Lemma status_ack_size id ups r l k :
  ack_props_encoded_size ups r l <= MAX_PACKET_SIZE ->
  len (be16 id ++ block (diag_image ((fit_ack ups r l).1, (fit_ack ups r l).2)) ++ k) =
    2 + ack_props_encoded_size ups r l + len k.
Proof.
  intros Hl. apply fit_ack_size in Hl as [-> _]. rewrite pair_eta, !len_app.
  change (len (be16 id)) with 2. lia.
Qed.

Lemma diag_block_size w ups r l :
  0 <= l ->
  var_int_len (len w + encoded_size_opt_props ups r l)
    + (len w + encoded_size_opt_props ups r l) <= MAX_PACKET_SIZE ->
  len (block (w ++ diag_image ((fit ups r l).1, (fit ups r l).2))) =
    var_int_len (len w + encoded_size_opt_props ups r l)
    + (len w + encoded_size_opt_props ups r l).
Proof.
  intros Hl. rewrite encoded_size_opt_props_fit, pair_eta by done.
  rewrite <- len_app. intros Hb. by destruct (block_size _ (or_introl Hb)) as [-> _].
Qed.

Lemma opt_encoded_size_image o : opt_encoded_size o = len (V3Proofs.opt_image o).
Proof. destruct o; [|done]. simpl. by rewrite str_image_len. Qed.

Lemma ack_props_encoded_size_nonneg ups r l : 0 <= ack_props_encoded_size ups r l.
Proof.
  unfold ack_props_encoded_size. destruct (Z.ltb_spec l 4); [lia|].
  rewrite encoded_size_opt_props_fit by lia.
  pose proof (var_int_len_nonneg (len (diag_image (fit ups r (l - 4))))).
  pose proof (len_nonneg (diag_image (fit ups r (l - 4)))). lia.
Qed.

Lemma Connect_size c limit :
  Connect_encoded_size c limit <= MAX_PACKET_SIZE \/
    len (body_image (PConnect c)) <= MAX_PACKET_SIZE ->
  len (body_image (PConnect c)) = Connect_encoded_size c limit.
Proof.
  unfold Connect_encoded_size. cbn [body_image].
  rewrite Connect_properties_len_image, !opt_encoded_size_image. unfold Bytes_encoded_size.
  rewrite !len_app, !str_image_len. 
  change (len MQTT) with 4. change (len [MQTT_LEVEL_5; connect_flags c]) with 2.
  change (len (be16 (c_keep_alive c))) with 2.
  pose proof (var_int_len_nonneg (len (connect_props_image c))).
  destruct (c_last_will c) as [w|]; cbn [will_image]; intros Hm; pose_lens Hm.
  - rewrite LastWill_properties_len_image, !len_app, !str_image_len in *. pose_lens Hm.
    pose proof (var_int_len_nonneg (len (will_props_image w))).
    destruct (block_size (connect_props_image c)) as [Hb _]; [lia|].
    destruct (block_size (will_props_image w)) as [Hw _]; lia.
  - destruct (block_size (connect_props_image c)) as [Hb _]; [lia|].
    change (len (@nil Z)) with 0. lia.
Qed.

Lemma Publish_size p limit :
  wf_publish p ->
  Publish_encoded_size p limit <= MAX_PACKET_SIZE \/
    len (body_image (PPublish p)) <= MAX_PACKET_SIZE ->
  len (body_image (PPublish p)) = Publish_encoded_size p limit.
Proof.
  intros Hwf. pose proof (props_of_wf p Hwf) as Hpw.
  assert (Hprops : match properties p with
            | Some props => PublishProperties_encoded_size props limit
            | None => PublishProperties_encoded_size PublishProperties_default limit
            end = PublishProperties_encoded_size (props_of p) limit)
    by (unfold props_of; by destruct (properties p)).
  unfold Publish_encoded_size. rewrite Hprops. unfold PublishProperties_encoded_size.
  rewrite PublishProperties_prop_len_image by done. cbn [body_image].
  unfold Bytes_encoded_size. rewrite !len_app, str_image_len. intros Hm.
  assert (Hid : (if bool_decide (qos p = AtMostOnce) then 0 else 2) =
                len (V3Proofs.id_image (packet_id p))).
  { destruct Hwf as [_ Hid _ _]. destruct (qos p); [by rewrite Hid|..];
      by destruct Hid as (id & -> & _). }
  rewrite Hid in *. pose proof (len_nonneg (topic p)). pose proof (len_nonneg (payload p)).
  pose proof (len_nonneg (V3Proofs.id_image (packet_id p))).
  destruct (block_size (publish_props_image (props_of p))) as [Hb _]; lia.
Qed.

Lemma len_concat_pos {A} (w : A -> bytes) l : 0 <= len (concat (w <$> l)).
Proof. apply len_nonneg. Qed.

Lemma sub_id_len_image o :
  opt_wf wf_sub_id o -> sub_id_len o = len (opt_prop pt.SUB_ID (var_int_image 3) o).
Proof.
  destruct o as [id|]; [|done]. cbn [opt_wf sub_id_len opt_prop]. unfold wf_sub_id, MAX_PACKET_SIZE.
  intros H. rewrite len_cons, var_int_image_digits, var_int_len_digits by (unfold MAX_PACKET_SIZE; lia).
  done.
Qed.

Lemma Subscribe_size s limit :
  wf_packet (PSubscribe s) ->
  Subscribe_encoded_size s limit <= MAX_PACKET_SIZE \/
    len (body_image (PSubscribe s)) <= MAX_PACKET_SIZE ->
  len (body_image (PSubscribe s)) = Subscribe_encoded_size s limit.
Proof.
  intros (_ & Hid & _ & _). unfold Subscribe_encoded_size.
  rewrite sub_id_len_image, UserProperties_size_len, <- len_app by done. cbn [body_image].
  rewrite (foldl_add (fun f : bytes * SubscriptionOptions => Bytes_encoded_size (fst f) + 1))
    by (intros; lia).
  rewrite !(len_app (be16 _)), !(len_app (block _)).
  rewrite (V3Proofs.len_concat filter_image (fun f => Bytes_encoded_size (fst f) + 1)).
  2: { intros f. unfold filter_image, Bytes_encoded_size. rewrite len_app, str_image_len. done. }
  change (len (be16 (s_packet_id s))) with 2. intros Hm.
  assert (Hnn : 0 <= foldr (fun f z => Bytes_encoded_size (fst f) + 1 + z) 0 (s_topic_filters s)).
  { clear. induction (s_topic_filters s) as [|f l IH]; simpl; [lia|].
    pose proof (len_nonneg f.1). unfold Bytes_encoded_size at 1. lia. }
  destruct (block_size (opt_prop pt.SUB_ID (var_int_image 3) (s_id s) ++ users_image (s_user_properties s)))
    as [Hb _]; lia.
Qed.

Lemma Unsubscribe_size u limit :
  Unsubscribe_encoded_size u limit <= MAX_PACKET_SIZE \/
    len (body_image (PUnsubscribe u)) <= MAX_PACKET_SIZE ->
  len (body_image (PUnsubscribe u)) = Unsubscribe_encoded_size u limit.
Proof.
  unfold Unsubscribe_encoded_size. rewrite UserProperties_size_len. cbn [body_image].
  rewrite (foldl_add (fun f : bytes => 2 + len f)) by (intros; lia).
  rewrite !(len_app (be16 _)), !(len_app (block _)).
  rewrite (V3Proofs.len_concat str_image (fun f => 2 + len f)) by apply str_image_len.
  change (len (be16 (u_packet_id u))) with 2. intros Hm.
  assert (Hnn : 0 <= foldr (fun f z => 2 + len f + z) 0 (u_topic_filters u)).
  { clear. induction (u_topic_filters u) as [|f l IH]; simpl; [lia|].
    pose proof (len_nonneg f). lia. }
  destruct (block_size (users_image (u_user_properties u))) as [Hb _]; lia.
Qed.

Lemma ConnectAck_size a limit :
  0 <= limit -> 0 <= ca_topic_alias_max a ->
  ConnectAck_encoded_size a limit <= MAX_PACKET_SIZE ->
  len (body_image (trim (PConnectAck a) limit)) = ConnectAck_encoded_size a limit.
Proof.
  intros Hl Ht. unfold ConnectAck_encoded_size. rewrite ConnectAck_prop_len_image by done.
  intros Hm. unfold trim, set_diag. cbn [body_image ca_user_properties ca_reason_string
    ca_session_present ca_reason_code].
  rewrite ConnectAck_prop_len_image by done. rewrite len_app.
  change (len [_; _]) with 2.
  match goal with |- context [connack_props_image ?x ++ _] =>
    change (connack_props_image x) with (connack_props_image a) end.
  rewrite diag_block_size; [lia|by apply reduce_limit_nonneg|lia].
Qed.

Lemma Disconnect_prop_len_image d :
  Disconnect_prop_len d =
    len (opt_prop pt.SESS_EXPIRY_INT be32 (d_session_expiry_interval_secs d)
         ++ opt_prop pt.SERVER_REF str_image (d_server_reference d)).
Proof. unfold Disconnect_prop_len. seg_sizes. lia. Qed.

Lemma Auth_prop_len_image a :
  Auth_prop_len a =
    len (opt_prop pt.AUTH_METHOD str_image (a_auth_method a)
         ++ opt_prop pt.AUTH_DATA str_image (a_auth_data a)).
Proof. unfold Auth_prop_len. seg_sizes. lia. Qed.

Lemma Disconnect_size d limit :
  0 <= limit -> Disconnect_encoded_size d limit <= MAX_PACKET_SIZE ->
  len (body_image (trim (PDisconnect d) limit)) = Disconnect_encoded_size d limit.
Proof.
  intros Hl. unfold Disconnect_encoded_size. intros Hm. unfold trim, set_diag.
  cbn [body_image d_reason_code d_session_expiry_interval_secs d_server_reference
    d_reason_string d_user_properties].
  rewrite Disconnect_prop_len_image in *. rewrite len_app. change (len [_]) with 1.
  rewrite diag_block_size; [lia|by apply reduce_limit_nonneg|lia].
Qed.

Lemma Auth_size a limit :
  0 <= limit -> Auth_encoded_size a limit <= MAX_PACKET_SIZE ->
  len (body_image (trim (PAuth a) limit)) = Auth_encoded_size a limit.
Proof.
  intros Hl. unfold Auth_encoded_size. intros Hm. unfold trim, set_diag.
  cbn [body_image a_reason_code a_auth_method a_auth_data a_reason_string a_user_properties].
  rewrite Auth_prop_len_image in *. rewrite len_app. change (len [_]) with 1.
  rewrite diag_block_size; [lia|by apply reduce_limit_nonneg|lia].
Qed.

(** [u32] subtraction, when it returns, is subtraction modulo 2^32. *)
Lemma sub32_wrap oc a b r : u32 a -> u32 b -> sub32 oc a b = Ok r -> r = wrap 32 (a - b) /\ u32 r.
Proof.
  intros Ha Hb. unfold sub32. destruct (Z.ltb_spec a b).
  - destruct oc; [done|]. intros [= <-]. split; [done|]. apply Z.mod_pos_bound. lia.
  - intros [= <-]. assert (u32 (a - b)) by (unfold is_u in *; lia). by rewrite wrap_small.
Qed.

Lemma sub32_sub32 oc a b c r s :
  u32 a -> u32 b -> u32 c -> sub32 oc a b = Ok r -> sub32 oc r c = Ok s ->
  s = wrap 32 (a - b - c).
Proof.
  intros Ha Hb Hc Hr Hs. apply sub32_wrap in Hr as [-> Hr]; [|done..].
  apply sub32_wrap in Hs as [-> _]; [|done..]. unfold wrap. by rewrite Zminus_mod_idemp_l.
Qed.

Lemma ack_encoded_size_inv oc limit ups r n :
  u32 limit ->
  (let? l := sub32 oc limit HEADER_LEN in let? l := sub32 oc l 4 in
   Ok (HEADER_LEN + ack_props_encoded_size ups r l)) = Ok n ->
  n = 3 + ack_props_encoded_size ups r (wrap 32 (limit - 7)).
Proof.
  intros Hl. destruct (sub32 oc limit HEADER_LEN) as [l| | |] eqn:Hs1; try done. cbn [obind].
  destruct (sub32 oc l 4) as [l'| | |] eqn:Hs2; try done. cbn [obind]. intros [= <-].
  rewrite (sub32_sub32 oc limit HEADER_LEN 4 l l') by done. unfold HEADER_LEN.
  by replace (limit - (2 + 1) - 4) with (limit - 7) by lia.
Qed.

Lemma SubscribeAck_size_inv oc a limit n :
  u32 limit -> SubscribeAck_encoded_size oc a limit = Ok n -> n <= MAX_PACKET_SIZE ->
  n = 2 + ack_props_encoded_size (sa_properties a) (sa_reason_string a)
            (wrap 32 (limit - 2 - len (sa_status a))) + len (sa_status a).
Proof.
  intros Hl. unfold SubscribeAck_encoded_size. pose proof (len_nonneg (sa_status a)).
  destruct (Z.ltb_spec (U32_MAX - 2) (len (sa_status a))).
  { intros [= <-]. intros Hm. unfold USIZE_MAX, MAX_PACKET_SIZE in Hm. lia. }
  assert (u32 (len (sa_status a))) by (unfold is_u, U32_MAX in *; lia).
  rewrite wrap_small by done.
  destruct (sub32 oc limit 2) as [l| | |] eqn:Hs1; try done. cbn [obind].
  destruct (sub32 oc l _) as [l'| | |] eqn:Hs2; try done. cbn [obind]. intros [= <-] _.
  by rewrite (sub32_sub32 oc limit 2 (len (sa_status a)) l l').
Qed.

(** The size announced under a limit is the length of the body of the
    trimmed packet. *)
Lemma encoded_size_image oc p limit n :
  wf_packet p -> u32 limit -> Packet_encoded_size oc p limit = Ok n ->
  n <= MAX_PACKET_SIZE -> len (body_image (trim p limit)) = n.
Proof.
  intros Hwf Hl Hn Hmax.
  destruct p as [c|a|p|a|a|a|a|s|a|u|a| | |d|a]; cbn [Packet_encoded_size] in Hn;
    try (apply ack_encoded_size_inv in Hn as ->; [|done]; apply ack_size; lia);
    try (injection Hn as <-).
  - apply Connect_size. auto.
  - apply ConnectAck_size; [apply Hl|apply Hwf|done].
  - apply Publish_size; auto.
  - apply Subscribe_size; auto.
  - apply SubscribeAck_size_inv in Hn as ->; [|done..]. pose proof (len_nonneg (sa_status a)).
    cbn [trim set_diag body_image sa_packet_id sa_properties sa_reason_string sa_status].
    rewrite status_ack_size by lia. by rewrite len_fmap.
  - apply Unsubscribe_size; auto.
  - unfold UnsubscribeAck_encoded_size in *. pose proof (len_nonneg (ua_status a)).
    cbn [trim set_diag body_image ua_packet_id ua_properties ua_reason_string ua_status].
    rewrite status_ack_size, len_fmap by lia. lia.
  - done.
  - done.
  - apply Disconnect_size; [apply Hl|done].
  - apply Auth_size; [apply Hl|done].
Qed.

(** ** Trimming *)

(** The packet without its diagnostics. *)
Definition bare (p : Packet) : Packet := set_diag p ([], None).

Lemma var_int_len_bound v : 0 <= v <= MAX_PACKET_SIZE -> 1 <= var_int_len v <= 4.
Proof.
  unfold MAX_PACKET_SIZE. intros Hv. rewrite var_int_len_digits by lia. unfold digits.
  repeat case_match; lia.
Qed.

Lemma ack_props_size_bound ups r l :
  0 <= l <= MAX_PACKET_SIZE -> 1 <= ack_props_encoded_size ups r l <= Z.max 1 l.
Proof.
  intros Hl. unfold ack_props_encoded_size. destruct (Z.ltb_spec l 4); [lia|].
  rewrite encoded_size_opt_props_fit by lia. pose proof (fit_bound ups r (l - 4) ltac:(lia)).
  pose proof (len_nonneg (diag_image (fit ups r (l - 4)))).
  pose proof (var_int_len_bound (len (diag_image (fit ups r (l - 4)))) ltac:(lia)). lia.
Qed.

(** A block under [reduce_limit]: it grows past its size without
    diagnostics only within the limit. *)
Lemma diag_size_bound k P ups r limit :
  0 <= k -> 0 <= P -> limit <= MAX_PACKET_SIZE -> k + var_int_len P + P <= limit ->
  let D := encoded_size_opt_props ups r (reduce_limit limit (k + 4 + P)) in
  k + var_int_len (P + D) + (P + D) <= limit.
Proof.
  intros Hk HP Hm Hb D. pose proof (var_int_len_nonneg P).
  unfold D, reduce_limit. destruct (Z.ltb_spec limit (k + 4 + P)) as [Hlt|Hge].
  - rewrite encoded_size_opt_props_fit by lia.
    pose proof (fit_bound ups r 0 ltac:(lia)). pose proof (len_nonneg (diag_image (fit ups r 0))).
    replace (len (diag_image (fit ups r 0))) with 0 by lia. rewrite Z.add_0_r. lia.
  - rewrite encoded_size_opt_props_fit by lia. set (l := limit - (k + 4 + P)) in *.
    pose proof (fit_bound ups r l ltac:(lia)). pose proof (len_nonneg (diag_image (fit ups r l))).
    pose proof (var_int_len_bound (P + len (diag_image (fit ups r l))) ltac:(lia)). lia.
Qed.
End V5Format.
