(* ===== verification/CodecV5Encode.v ===== *)
(** * The MQTT 5 encoder against the wire format

    Given the size that [Packet_encoded_size] announces, [Packet_encode]
    writes the image of the packet with the diagnostics that fit. *)

From stdpp Require Import prelude list.
From Stdlib Require Import ZArith Lia.
From S2P Require Import Prelude CodecTypes CodecUtils CodecV3 CodecV3Proofs CodecV5Types.
From S2P Require Import CodecV5 CodecV5Lemmas CodecV5Format.

Local Open Scope Z_scope.

Module V5Encode.
Import V5 V5Codec V5Lemmas V5Format.

(** ** Encoders that measure what they have written *)

(** [m], run after [w0] was written from [start] on, appends [w]. *)
Definition writes_at {E A} (start w0 : bytes) (m : io E A) (w : bytes) (a : A) : Prop :=
  m (start ++ w0) = (Ok a, start ++ w0 ++ w).

Section measured.
Context {A : Type}.
Implicit Types (k : Z -> io EncodeError A).

Lemma writes_start (k : bytes -> io EncodeError A) w a :
  (forall start, writes_at start [] (k start) w a) ->
  writes (let! start := get_state in k start) w a.
Proof.
  intros H s. unfold bind, get_state. specialize (H s). unfold writes_at in H.
  by rewrite app_nil_r in H.
Qed.

Lemma writes_at_bind {B} start w0 (m : io EncodeError B) (k : B -> io EncodeError A) w1 w2 b a :
  writes m w1 b -> writes_at start (w0 ++ w1) (k b) w2 a ->
  writes_at start w0 (bind m k) (w1 ++ w2) a.
Proof.
  intros H1 H2. unfold writes_at, bind. rewrite H1, <- app_assoc.
  rewrite H2. by rewrite <- !app_assoc.
Qed.

Lemma writes_at_lift {B} start w0 (o : outcome EncodeError B) (k : B -> io EncodeError A) b w a :
  o = Ok b -> writes_at start w0 (k b) w a -> writes_at start w0 (bind (lift o) k) w a.
Proof. by intros ->. Qed.

Lemma writes_at_state start w0 (k : bytes -> io EncodeError A) w a :
  writes_at start w0 (k (start ++ w0)) w a -> writes_at start w0 (bind get_state k) w a.
Proof. done. Qed.

Lemma writes_at_end start w0 (m : io EncodeError A) w a :
  writes m w a -> writes_at start w0 m w a.
Proof. intros H. unfold writes_at. by rewrite H, <- app_assoc. Qed.

Lemma writes_at_remaining oc start w0 size k w a :
  len w0 <= size <= MAX_PACKET_SIZE -> writes (k (size - len w0)) w a ->
  writes_at start w0 (bind (remaining_size oc size start) k) w a.
Proof.
  intros Hs Hk. unfold writes_at, remaining_size, bind, get_state, lift.
  rewrite len_app. replace (len start + len w0 - len start) with (len w0) by lia.
  pose proof (len_nonneg w0).
  rewrite wrap_small by (unfold is_u, MAX_PACKET_SIZE in *; lia).
  rewrite sub32_ok by lia. by apply writes_at_end.
Qed.

Lemma writes_lift {B} (o : outcome EncodeError B) (k : B -> io EncodeError A) b w a :
  o = Ok b -> writes (k b) w a -> writes (bind (lift o) k) w a.
Proof. by intros ->. Qed.
End measured.

Lemma writes_block_len (w : bytes) :
  len w <= MAX_PACKET_SIZE ->
  writes (E := EncodeError) (write_variable_length (len w)) (var_int_image 3 (len w)) tt.
Proof. intros H. apply writes_var_int. pose proof (len_nonneg w). lia. Qed.

(** The length of a block, recovered from the size of length and block. *)
Lemma block_len_from_size oc (w : bytes) :
  len (block w) <= MAX_PACKET_SIZE -> var_int_len_from_size oc (len (block w)) = Ok (len w).
Proof.
  intros H. pose proof (len_nonneg w) as Hw. unfold block in *. rewrite len_app in *.
  pose proof (len_nonneg (var_int_image 3 (len w))).
  rewrite var_int_image_digits by lia. apply var_int_len_from_size_ok.
  unfold MAX_PACKET_SIZE in *. lia.
Qed.

Lemma wrap_len (w : bytes) : len w <= MAX_PACKET_SIZE -> wrap 32 (len w) = len w.
Proof.
  intros H. pose proof (len_nonneg w). apply wrap_small. unfold is_u, MAX_PACKET_SIZE in *. lia.
Qed.

(** ** Acknowledgements *)

Lemma block_len_1 (w : bytes) : len (block w) = 1 -> w = [].
Proof.
  intros H. pose proof (block_len_ge w). destruct w as [|b w]; [done|].
  rewrite len_cons in *. pose proof (len_nonneg w). lia.
Qed.

Lemma fit_ack_wf ups r l : wf_diag ups r -> wf_diag (fit_ack ups r l).1 (fit_ack ups r l).2.
Proof.
  intros [Hu Hr]. unfold fit_ack. case_match; [by split; [constructor|]|]. by apply fit_wf.
Qed.

Lemma ack_props_writes oc ups r l :
  wf_diag ups r ->
  len (block (diag_image (fit_ack ups r l))) <= MAX_PACKET_SIZE ->
  writes (ack_props_encode oc ups r (len (block (diag_image (fit_ack ups r l)))))
    (block (diag_image (fit_ack ups r l))) tt.
Proof.
  intros [Hu Hr] Hm. set (w := diag_image (fit_ack ups r l)) in *.
  unfold ack_props_encode.
  pose proof (block_len_ge w) as H0. pose proof (len_nonneg w).
  rewrite (proj2 (Z.leb_gt _ _)), andb_false_r by lia.
  destruct (Z.eqb_spec (len (block w)) 1) as [H1|H1].
  - apply block_len_1 in H1. rewrite H1. apply (writes_put_u8 0).
  - eapply writes_lift; [by apply block_len_from_size|].
    eapply writes_bind; [apply writes_block_len; lia|].
    unfold w, fit_ack in *. destruct (l <? 4); [done|]. by apply encode_opt_props_writes.
Qed.

Lemma ack_writes oc id c ups r l size :
  nz u16 id -> wf_diag ups r ->
  size = len (ack_image id c (fit_ack ups r l).1 (fit_ack ups r l).2) ->
  size <= MAX_PACKET_SIZE ->
  writes (u16_encode id ;;; put_u8 c ;;;
          let! size := lift (sub32 oc size HEADER_LEN) in ack_props_encode oc ups r size)
    (ack_image id c (fit_ack ups r l).1 (fit_ack ups r l).2) tt.
Proof.
  intros [Hid _] Hd -> Hm. unfold ack_image in *. rewrite pair_eta in *.
  rewrite !len_app in *. change (len (be16 id)) with 2 in *. change (len [c]) with 1 in *.
  pose proof (len_nonneg (block (diag_image (fit_ack ups r l)))).
  eapply writes_bind; [by apply writes_put_u16|].
  eapply writes_bind; [apply writes_put_u8|].
  eapply writes_lift; [apply sub32_ok; unfold HEADER_LEN; lia|].
  replace (2 + (1 + len (block (diag_image (fit_ack ups r l)))) - HEADER_LEN)
    with (len (block (diag_image (fit_ack ups r l)))) by (unfold HEADER_LEN; lia).
  apply ack_props_writes; [done|lia].
Qed.

(** The acknowledgements of a list of topic filters. *)
Lemma status_ack_writes {A} `{PrimEnum A} oc id ups r l (status : list A) size :
  nz u16 id -> wf_diag ups r ->
  size = len (be16 id ++ block (diag_image ((fit_ack ups r l).1, (fit_ack ups r l).2))
              ++ (to_u8 <$> status)) ->
  size <= MAX_PACKET_SIZE ->
  writes (u16_encode id ;;;
          let! d := lift (sub32 oc size 2) in
          let! d := lift (sub32 oc d (wrap 32 (len status))) in
          ack_props_encode oc ups r d ;;;
          for_each (fun reason => put_u8 (to_u8 reason)) status)
    (be16 id ++ block (diag_image ((fit_ack ups r l).1, (fit_ack ups r l).2))
     ++ (to_u8 <$> status)) tt.
Proof.
  intros [Hid _] Hd -> Hm. rewrite pair_eta in *. set (w := block _) in *.
  rewrite !len_app, len_fmap in *. change (len (be16 id)) with 2 in *.
  pose proof (len_nonneg w). pose proof (len_nonneg status).
  eapply writes_bind; [by apply writes_put_u16|].
  eapply writes_lift; [apply sub32_ok; lia|]. 
  rewrite wrap_small by (unfold is_u, MAX_PACKET_SIZE in *; lia).
  eapply writes_lift; [apply sub32_ok; lia|].
  replace (2 + (len w + len status) - 2 - len status) with (len w) by lia.
  eapply writes_bind; [apply ack_props_writes; [done|unfold w in *; lia]|].
  assert (Hc : (to_u8 <$> status) = concat ((fun x => [to_u8 x]) <$> status)).
  { clear. induction status as [|x l IH]; [done|]. rewrite concat_fmap_cons, <- IH. done. }
  rewrite Hc. apply writes_for_each. intros x _. apply writes_put_u8.
Qed.

(** ** Blocks whose diagnostics are sized by what is left *)

Lemma block_writes_at oc start (w0 w : bytes) size k :
  size = len (block w) -> size <= MAX_PACKET_SIZE ->
  writes_at start (w0 ++ var_int_image 3 (len w)) k w tt ->
  writes_at start w0
    (let! n := lift (var_int_len_from_size oc size) in write_variable_length n ;;; k)
    (block w) tt.
Proof.
  intros -> Hm Hk. pose proof (block_len_ge w).
  eapply writes_at_lift; [by apply block_len_from_size|].
  eapply writes_at_bind; [apply writes_block_len; lia|done].
Qed.

Lemma diag_tail_writes oc start w0 ups r l size :
  wf_diag ups r -> size = len w0 + len (diag_image (fit ups r l)) -> size <= MAX_PACKET_SIZE ->
  writes_at start w0
    (let! rest := remaining_size oc size start in encode_opt_props ups r rest)
    (diag_image (fit ups r l)) tt.
Proof.
  intros [Hu Hr] -> Hm. set (w := diag_image _) in *. pose proof (len_nonneg w).
  apply writes_at_remaining; [lia|].
  replace (len w0 + len w - len w0) with (len w) by lia. by apply encode_opt_props_writes.
Qed.

(** One property segment after the other. *)
Ltac segment :=
  rewrite ?encode_property_default_eq;
  lazymatch goal with
  | |- writes_at _ _ _ _ _ => eapply writes_at_bind
  | |- writes _ _ _ => eapply writes_bind
  end;
  [apply encode_property_writes; first [assumption | by apply opt_wf_nondefault
                                       | by unfold opt_wf; repeat case_match] |].

Lemma max_qos_writes q :
  writes (E := EncodeError) (if below_qos2 q then put_slice [pt.MAX_QOS; QoS_value q] else ret tt)
    (opt_prop pt.MAX_QOS (fun q => [QoS_value q]) (nondefault ExactlyOnce q)) tt.
Proof. destruct q; apply writes_put_slice || apply writes_ret. Qed.

(** What was written so far, measured. *)
Ltac measured := unfold block in *; rewrite ?len_app in *; lia.

Lemma ConnectAck_writes oc a limit size :
  wf_connack a -> size = len (body_image (trim (PConnectAck a) limit)) ->
  size <= MAX_PACKET_SIZE ->
  writes (ConnectAck_encode oc a size) (body_image (trim (PConnectAck a) limit)) tt.
Proof.
  intros [] Hs Hm. unfold trim, set_diag in *.
  cbn [body_image ca_user_properties ca_reason_string ca_session_present ca_reason_code] in *.
  set (l := reduce_limit _ _) in *.
  match goal with |- context [connack_props_image ?x ++ _] =>
    change (connack_props_image x) with (connack_props_image a) in * end.
  rewrite pair_eta in *. unfold ConnectAck_encode. apply writes_start. intros start.
  eapply writes_at_bind; [apply writes_put_slice|]. rewrite app_nil_l.
  set (w0 := [_; _]) in *. assert (Hw0 : len w0 = 2) by done. clearbody w0.
  rewrite len_app in Hs. pose proof (len_nonneg (block (connack_props_image a ++
    diag_image (fit (ca_user_properties a) (ca_reason_string a) l)))).
  eapply writes_at_lift; [apply sub32_ok; lia|].
  apply block_writes_at; [lia|lia|].
  unfold connack_props_image in *. rewrite <- !app_assoc in *.
  do 2 segment. eapply writes_at_bind; [apply max_qos_writes|]. do 12 segment.
  apply diag_tail_writes; [done| |done]. measured.
Qed.

Lemma Disconnect_writes oc d limit size :
  wf_packet (PDisconnect d) -> size = len (body_image (trim (PDisconnect d) limit)) ->
  size <= MAX_PACKET_SIZE ->
  writes (Disconnect_encode oc d size) (body_image (trim (PDisconnect d) limit)) tt.
Proof.
  intros (? & ? & ?) Hs Hm. unfold trim, set_diag in *.
  cbn [body_image d_reason_code d_session_expiry_interval_secs d_server_reference
    d_reason_string d_user_properties] in *.
  set (l := reduce_limit _ _) in *. rewrite pair_eta in *.
  unfold Disconnect_encode. apply writes_start. intros start.
  eapply writes_at_bind; [apply writes_put_u8|]. rewrite app_nil_l.
  set (w0 := [_]) in *. assert (Hw0 : len w0 = 1) by done. clearbody w0.
  rewrite len_app in Hs. pose proof (len_nonneg (block ((opt_prop pt.SESS_EXPIRY_INT be32
    (d_session_expiry_interval_secs d) ++ opt_prop pt.SERVER_REF str_image (d_server_reference d))
    ++ diag_image (fit (d_user_properties d) (d_reason_string d) l)))).
  eapply writes_at_lift; [apply sub32_ok; lia|].
  apply block_writes_at; [lia|lia|]. rewrite <- !app_assoc in *. do 2 segment.
  apply diag_tail_writes; [done| |done]. measured.
Qed.

Lemma Auth_writes oc a limit size :
  wf_packet (PAuth a) -> size = len (body_image (trim (PAuth a) limit)) ->
  size <= MAX_PACKET_SIZE ->
  writes (Auth_encode oc a size) (body_image (trim (PAuth a) limit)) tt.
Proof.
  intros (? & ? & ?) Hs Hm. unfold trim, set_diag in *.
  cbn [body_image a_reason_code a_auth_method a_auth_data a_reason_string a_user_properties] in *.
  set (l := reduce_limit _ _) in *. rewrite pair_eta in *.
  unfold Auth_encode. apply writes_start. intros start.
  eapply writes_at_bind; [apply writes_put_u8|]. rewrite app_nil_l.
  set (w0 := [_]) in *. assert (Hw0 : len w0 = 1) by done. clearbody w0.
  rewrite len_app in Hs. pose proof (len_nonneg (block ((opt_prop pt.AUTH_METHOD str_image
    (a_auth_method a) ++ opt_prop pt.AUTH_DATA str_image (a_auth_data a))
    ++ diag_image (fit (a_user_properties a) (a_reason_string a) l)))).
  eapply writes_at_lift; [apply sub32_ok; lia|].
  apply block_writes_at; [lia|lia|]. rewrite <- !app_assoc in *. do 2 segment.
  apply diag_tail_writes; [done| |done]. measured.
Qed.

(** ** The remaining packets *)

Lemma v5_wf_str_bytes s : wf_str s -> wf_bytes s.
Proof. by intros [? _]. Qed.

Lemma v5_nz_u16 v : nz u16 v -> u16 v.
Proof. by intros [? _]. Qed.

#[local] Hint Resolve v5_wf_str_bytes v5_nz_u16 writes_put_u16 Bytes_encode_writes writes_ret : wire.

Lemma opt_writes o : opt_wf wf_bytes o -> writes (V3.encode_opt o) (V3Proofs.opt_image o) tt.
Proof. destruct o; simpl; auto with wire. Qed.

Lemma opt_wf_mono {A} (P Q : A -> Prop) o :
  (forall a, P a -> Q a) -> opt_wf P o -> opt_wf Q o.
Proof. destruct o; simpl; auto. Qed.

Lemma sub_ids_writes ids :
  Forall wf_sub_id ids ->
  writes (E := EncodeError)
    (for_each (fun sub_id => put_u8 pt.SUB_ID ;;; write_variable_length sub_id) ids)
    (concat (sub_id_image <$> ids)) tt.
Proof.
  intros H. apply writes_for_each. intros id Hid. rewrite Forall_forall in H.
  specialize (H id Hid). unfold wf_sub_id in H.
  eapply (writes_bind _ _ [pt.SUB_ID]); [apply writes_put_u8|apply writes_var_int; lia].
Qed.

Lemma PublishProperties_writes oc p :
  wf_props p -> len (block (publish_props_image p)) <= MAX_PACKET_SIZE ->
  writes (PublishProperties_encode oc p (len (block (publish_props_image p))))
    (block (publish_props_image p)) tt.
Proof.
  intros [] Hm. pose proof (block_len_ge (publish_props_image p)). unfold PublishProperties_encode.
  eapply writes_lift; [by apply block_len_from_size|].
  eapply writes_bind; [apply writes_block_len; lia|].
  unfold publish_props_image. do 6 segment.
  eapply writes_bind; [by apply sub_ids_writes|by apply UserProperties_writes].
Qed.

Lemma Publish_writes oc p size :
  wf_publish p -> size = len (body_image (PPublish p)) -> size <= MAX_PACKET_SIZE ->
  writes (Publish_encode oc p size) (body_image (PPublish p)) tt.
Proof.
  intros Hwf Hs Hm. pose proof (props_of_wf p Hwf) as Hpw. destruct Hwf as [Ht Hid _ _].
  cbn [body_image] in *. unfold Publish_encode. apply writes_start. intros start.
  eapply writes_at_bind; [auto with wire|].
  eapply writes_at_bind.
  { instantiate (1 := tt). destruct (qos p); cbn [bool_decide] in *;
      [rewrite Hid; apply writes_ret|..];
      destruct Hid as (id & -> & Hid); apply writes_put_u16; auto with wire. }
  apply writes_at_state. apply (writes_at_lift _ _ _ _ (len (block (publish_props_image (props_of p))))).
  - rewrite !len_app in *. pose proof (len_nonneg (str_image (topic p))).
    pose proof (len_nonneg (V3Proofs.id_image (packet_id p))). pose proof (len_nonneg (payload p)).
    pose proof (len_nonneg (block (publish_props_image (props_of p)))).
    rewrite wrap_small by (change (len (@nil Z)) with 0; unfold is_u, MAX_PACKET_SIZE in *; lia).
    rewrite sub32_ok by (change (len (@nil Z)) with 0; lia). f_equal. change (len (@nil Z)) with 0. lia.
  - apply writes_at_end. eapply writes_bind; [|apply writes_put_slice].
    apply (PublishProperties_writes oc (props_of p)); [done|].
    rewrite !len_app in *. pose proof (len_nonneg (str_image (topic p))).
    pose proof (len_nonneg (V3Proofs.id_image (packet_id p))). pose proof (len_nonneg (payload p)).
    lia.
Qed.

Lemma LastWill_writes w :
  wf_will w -> len (will_props_image w) <= MAX_PACKET_SIZE ->
  writes (LastWill_encode w) (will_image (Some w)) tt.
Proof.
  intros [] Hm. unfold LastWill_encode, will_image, block.
  rewrite LastWill_properties_len_image, wrap_len, <- app_assoc by done.
  eapply writes_bind; [by apply writes_block_len|].
  unfold will_props_image. rewrite <- !app_assoc. do 6 segment.
  eapply writes_bind; [by apply UserProperties_writes|].
  eapply writes_bind; auto with wire.
Qed.

Lemma Connect_writes c size :
  wf_connect c -> len (body_image (PConnect c)) <= MAX_PACKET_SIZE ->
  writes (Connect_encode c size) (body_image (PConnect c)) tt.
Proof.
  intros [] Hm. cbn [body_image] in *. rewrite !len_app in Hm.
  pose proof (block_len_ge (connect_props_image c)). pose_lens Hm.
  unfold Connect_encode, block. rewrite Connect_properties_len_image, wrap_len, <- app_assoc by lia.
  eapply writes_bind; [apply Bytes_encode_writes; by split; [repeat constructor|]|].
  eapply writes_bind; [apply writes_put_slice|].
  eapply writes_bind; [by apply writes_put_u16|].
  eapply writes_bind; [apply writes_block_len; lia|].
  unfold connect_props_image. rewrite <- !app_assoc. do 8 segment.
  eapply writes_bind; [by apply UserProperties_writes|].
  eapply writes_bind; [auto with wire|].
  eapply writes_bind.
  { destruct (c_last_will c) as [w|]; [|apply writes_ret]. apply LastWill_writes; [done|].
    unfold will_image in Hm. rewrite !len_app in Hm. pose_lens Hm.
    pose proof (block_len_ge (will_props_image w)). lia. }
  eapply writes_bind; apply opt_writes; [|done].
  by eapply opt_wf_mono; [apply v5_wf_str_bytes|].
Qed.

Lemma Subscribe_writes s size :
  wf_packet (PSubscribe s) -> len (body_image (PSubscribe s)) <= MAX_PACKET_SIZE ->
  writes (Subscribe_encode s size) (body_image (PSubscribe s)) tt.
Proof.
  intros (Hpid & Hid & Hu & Hfs) Hm. cbn [body_image] in *.
  rewrite !(len_app (be16 _)), !(len_app (block _)) in Hm.
  set (w := opt_prop pt.SUB_ID _ _ ++ _) in *.
  pose proof (block_len_ge w). pose_lens Hm.
  assert (Hw : len w = sub_id_len (s_id s) + UserProperties_encoded_size (s_user_properties s)).
  { unfold w. by rewrite len_app, sub_id_len_image, UserProperties_size_len. }
  assert (Hwu : wrap 32 (UserProperties_encoded_size (s_user_properties s)) =
                UserProperties_encoded_size (s_user_properties s)).
  { rewrite UserProperties_size_len in *. apply wrap_len. rewrite sub_id_len_image in Hw by done.
    pose_lens Hw. lia. }
  unfold Subscribe_encode, block. rewrite Hwu, <- Hw, wrap_len, <- app_assoc by lia.
  eapply writes_bind; [apply writes_put_u16; auto with wire|].
  eapply writes_bind; [apply writes_block_len; lia|].
  unfold w. rewrite <- app_assoc. eapply writes_bind.
  { destruct (s_id s) as [id|]; [|apply writes_ret]. simpl in Hid. unfold wf_sub_id in Hid.
    eapply (writes_bind _ _ [pt.SUB_ID]); [apply writes_put_u8|apply writes_var_int; lia]. }
  eapply writes_bind; [by apply UserProperties_writes|].
  apply writes_for_each. intros f Hf. rewrite Forall_forall in Hfs. specialize (Hfs f Hf).
  eapply writes_bind; [auto with wire|apply writes_put_u8].
Qed.

Lemma Unsubscribe_writes u size :
  wf_packet (PUnsubscribe u) -> len (body_image (PUnsubscribe u)) <= MAX_PACKET_SIZE ->
  writes (Unsubscribe_encode u size) (body_image (PUnsubscribe u)) tt.
Proof.
  intros (Hpid & Hu & Hfs) Hm. cbn [body_image] in *.
  rewrite !(len_app (be16 _)), !(len_app (block _)) in Hm.
  pose proof (block_len_ge (users_image (u_user_properties u))). pose_lens Hm.
  unfold Unsubscribe_encode, block.
  rewrite UserProperties_size_len, wrap_len, <- app_assoc by lia.
  eapply writes_bind; [apply writes_put_u16; auto with wire|].
  eapply writes_bind; [apply writes_block_len; lia|].
  eapply writes_bind; [by apply UserProperties_writes|].
  apply writes_for_each. intros f Hf. rewrite Forall_forall in Hfs. auto with wire.
Qed.

(** ** All packets *)

Lemma trim_first_byte p limit : first_byte_of (trim p limit) = first_byte_of p.
Proof. by destruct p. Qed.

(** [Packet_encode] writes the image of the trimmed packet, whatever the
    buffer holds. *)
Lemma Packet_encode_writes oc p limit size :
  wf_packet p -> size = len (body_image (trim p limit)) -> size <= MAX_PACKET_SIZE ->
  writes (Packet_encode oc p size) (packet_image (trim p limit)) tt.
Proof.
  intros Hwf Hs Hm. unfold packet_image. rewrite trim_first_byte, <- Hs.
  assert (Hsz : 0 <= size <= MAX_PACKET_SIZE) by (subst; split; [apply len_nonneg|done]).
  destruct p; unfold Packet_encode; try (apply V3Proofs.with_header_writes; [exact Hsz|]);
    try (subst size; apply writes_put_slice); cbn [wf_packet] in Hwf;
    try (destruct Hwf as [? ?]; by apply ack_writes);
    try (destruct Hwf as [? ?]; by apply status_ack_writes).
  - subst size. by apply Connect_writes.
  - by apply ConnectAck_writes.
  - by apply Publish_writes.
  - subst size. by apply Subscribe_writes.
  - subst size. by apply Unsubscribe_writes.
  - by apply Disconnect_writes.
  - by apply Auth_writes.
Qed.

(** ** Images are bytes *)

Lemma be32_u8s v : u32 v -> u8s (be32 v).
Proof.
  intros [H0 H1]. change (2 ^ 32) with 4294967296 in H1.
  assert (Hm : forall x, u8 (x mod 256)) by (intros x; unfold is_u; pose proof (Z.mod_pos_bound x 256); lia).
  repeat constructor; try apply Hm; unfold is_u; change (2 ^ 8) with 256.
  - apply Z.div_pos; lia.
  - apply Z.div_lt_upper_bound; lia.
Qed.

Lemma bool_image_u8s b : u8s (bool_image b).
Proof. destruct b; repeat constructor; done. Qed.

Lemma pair_image_u8s u : wf_pair u -> u8s (pair_image u).
Proof. intros [[? _] [? _]]. apply u8s_app. auto with wire. Qed.

Lemma opt_prop_u8s {A} (P : A -> Prop) id img (o : option A) :
  u8 id -> (forall a, P a -> u8s (img a)) -> opt_wf P o -> u8s (opt_prop id img o).
Proof. intros Hid Himg Ho. destruct o; [|constructor]. constructor; [done|]. by apply Himg. Qed.

Lemma var_image_u8s v : 0 <= v <= MAX_PACKET_SIZE -> u8s (var_int_image 3 v).
Proof.
  intros H. apply var_int_image_u8s. unfold MAX_PACKET_SIZE in H.
  change (128 ^ (Z.of_nat 3 + 1)) with 268435456. lia.
Qed.

Lemma block_u8s w : u8s w -> len (block w) <= MAX_PACKET_SIZE -> u8s (block w).
Proof.
  intros Hw Hl. pose proof (block_len_ge w). pose proof (len_nonneg w).
  apply u8s_app. split; [apply var_image_u8s; lia|done].
Qed.

Lemma users_image_u8s ups : Forall wf_pair ups -> u8s (users_image ups).
Proof.
  intros H. rewrite Forall_forall in H. apply u8s_concat. intros u Hu.
  constructor; [done|]. by apply pair_image_u8s, H.
Qed.

Lemma diag_image_u8s ups r : wf_diag ups r -> u8s (diag_image (ups, r)).
Proof.
  intros [? ?]. apply u8s_app. split; [by apply users_image_u8s|].
  eapply opt_prop_u8s; [done| |done]. auto with wire.
Qed.

Lemma sub_id_u8s id : wf_sub_id id -> u8s (var_int_image 3 id).
Proof. intros H. unfold wf_sub_id in H. apply var_image_u8s. lia. Qed.

Lemma u8s_single b : u8 b -> u8s [b].
Proof. intros H. constructor; [done|constructor]. Qed.

#[local] Hint Resolve be32_u8s bool_image_u8s pair_image_u8s users_image_u8s diag_image_u8s
  sub_id_u8s u8s_single opt_wf_nondefault : wire.

Lemma nz_be16 v : nz u16 v -> u8s (be16 v).
Proof. auto with wire. Qed.
Lemma nz_be32 v : nz u32 v -> u8s (be32 v).
Proof. intros [? _]. auto with wire. Qed.
#[local] Hint Resolve nz_be16 nz_be32 : wire.

Lemma bool_prop_u8s id (o : option bool) : u8 id -> u8s (opt_prop id bool_image o).
Proof. intros. destruct o; [|constructor]. constructor; [done|apply bool_image_u8s]. Qed.

(** A sequence of segments. *)
Ltac segments_u8s :=
  rewrite ?u8s_app; split_and!;
  first [ by apply bool_prop_u8s
        | eapply opt_prop_u8s; [done| |first [eassumption | by apply opt_wf_nondefault]]; by auto with wire
        | by auto with wire | idtac ].

Lemma flags_u8 c : u8 (connect_flags c).
Proof.
  unfold connect_flags. destruct (c_username c), (c_password c), (c_clean_start c),
    (c_last_will c) as [w|]; try destruct (lw_retain w), (lw_qos w); done.
Qed.

Lemma v5_opt_image_u8s (P : bytes -> Prop) o :
  (forall s, P s -> wf_bytes s) -> opt_wf P o -> u8s (V3Proofs.opt_image o).
Proof. intros HP. destruct o; simpl; [auto with wire|constructor]. Qed.

Lemma v5_connect_image_u8s c :
  wf_connect c -> len (body_image (PConnect c)) <= MAX_PACKET_SIZE ->
  u8s (body_image (PConnect c)).
Proof.
  intros [] Hm. cbn [body_image] in *. rewrite !len_app in Hm.
  pose_lens Hm. rewrite !u8s_app. split_and!.
  - apply str_image_u8s. by split; [repeat constructor|].
  - constructor; [done|]. apply u8s_single, flags_u8.
  - auto with wire.
  - apply block_u8s; [|lia]. unfold connect_props_image. segments_u8s.
  - auto with wire.
  - destruct (c_last_will c) as [w|]; [|constructor]. destruct wfc_will0.
    cbn [will_image] in *. rewrite !len_app in Hm. pose_lens Hm. rewrite !u8s_app. split_and!; auto with wire.
    apply block_u8s; [|lia]. unfold will_props_image. segments_u8s.
  - eapply v5_opt_image_u8s; [|done]. auto with wire.
  - by eapply v5_opt_image_u8s.
Qed.

Lemma v5_publish_image_u8s p :
  wf_publish p -> len (body_image (PPublish p)) <= MAX_PACKET_SIZE ->
  u8s (body_image (PPublish p)).
Proof.
  intros Hwf Hm. pose proof (props_of_wf p Hwf) as []. destruct Hwf as [Ht Hid Hp _].
  cbn [body_image] in *. rewrite !len_app in Hm. pose_lens Hm. rewrite !u8s_app.
  split_and!; auto with wire.
  - destruct (qos p); [rewrite Hid; constructor|..];
      destruct Hid as (id & -> & Hid); simpl; auto with wire.
  - apply block_u8s; [|lia]. unfold publish_props_image. segments_u8s.
    apply u8s_concat. intros id Hi. rewrite Forall_forall in wfpp_ids0.
    constructor; [done|]. by apply sub_id_u8s, wfpp_ids0.
Qed.

Lemma status_u8s {A} `{PrimEnumOk A} (l : list A) : u8s (to_u8 <$> l).
Proof. apply Forall_fmap, Forall_true. intros x. apply to_u8_range. Qed.

Lemma options_u8 o : u8 (SubscriptionOptions_byte o).
Proof. by destruct o as [[] [] [] []]. Qed.

Lemma v5_body_image_u8s p :
  wf_packet p -> len (body_image p) <= MAX_PACKET_SIZE -> u8s (body_image p).
Proof.
  intros Hwf Hm.
  destruct p as [c|a|p|a|a|a|a|s|a|u|a| | |d|a]; [by apply v5_connect_image_u8s| |
    by apply v5_publish_image_u8s|..]; cbn [body_image wf_packet] in *; try (by constructor);
    unfold ack_image in *; rewrite !len_app in Hm; pose_lens Hm;
    rewrite !u8s_app; split_and!; try (by apply u8s_single, to_u8_range);
    try (by apply status_u8s); try (by apply nz_be16, Hwf);
    try (apply block_u8s; [|lia]); try (by apply diag_image_u8s, Hwf).
  - constructor; [by destruct (ca_session_present a)|]. apply u8s_single, to_u8_range.
  - destruct Hwf. apply u8s_app. split; [|by apply diag_image_u8s].
    unfold connack_props_image. segments_u8s. by destruct (ca_max_qos a); repeat constructor.
  - destruct Hwf as (_ & ? & ? & _). segments_u8s.
  - destruct Hwf as (_ & _ & _ & Hf). rewrite Forall_forall in Hf. apply u8s_concat.
    intros f Hin. apply u8s_app. split; [auto with wire|apply u8s_single, options_u8].
  - apply users_image_u8s, Hwf.
  - destruct Hwf as (_ & _ & Hf). rewrite Forall_forall in Hf. apply u8s_concat. auto with wire.
  - destruct Hwf as (? & ? & ?). segments_u8s.
  - destruct Hwf as (? & ? & ?). segments_u8s.
Qed.

Lemma v5_first_byte_u8 p : u8 (first_byte_of p).
Proof.
  destruct p; try done. simpl. change (publish_first_byte p) with (V3.publish_first_byte p).
  apply (V3Proofs.first_byte_u8 (V3.PPublish p)).
Qed.

Lemma v5_packet_image_u8s p :
  wf_packet p -> len (body_image p) <= MAX_PACKET_SIZE -> u8s (packet_image p).
Proof.
  intros Hwf Hm. unfold packet_image. rewrite !u8s_app. split_and!.
  - apply u8s_single, v5_first_byte_u8.
  - apply var_image_u8s. pose proof (len_nonneg (body_image p)). lia.
  - by apply v5_body_image_u8s.
Qed.
End V5Encode.
