(* ===== verification/CodecV5Decode.v ===== *)
(** * The MQTT 5 decoder against the wire format

    [decode_packet] reads the image of every well-formed packet back. *)

From stdpp Require Import prelude list.
From Stdlib Require Import ZArith Lia.
From S2P Require Import Prelude CodecTypes CodecUtils CodecV3 CodecV3Proofs CodecV5Types.
From S2P Require Import CodecV5 CodecV5Lemmas CodecV5Format.

Local Open Scope Z_scope.

Module V5Decode.
Import V5 V5Codec V5Lemmas V5Format.

(** ** Property blocks *)

Lemma nondefault_wf_u32 v : u32 v -> opt_wf u32 (nondefault 0 v).
Proof. apply opt_wf_nondefault. Qed.
Lemma nondefault_wf_u16 v : u16 v -> opt_wf u16 (nondefault 0 v).
Proof. apply opt_wf_nondefault. Qed.
Lemma nondefault_wf_bool d (v : bool) : opt_wf (fun _ => True) (nondefault d v).
Proof. by apply opt_wf_nondefault. Qed.

Definition connect_props_of (c : Connect) : ConnectProps :=
  mkConnectProps (nondefault 0 (c_session_expiry_interval_secs c)) (c_auth_method c)
    (c_auth_data c) (nondefault true (c_request_problem_info c))
    (nondefault false (c_request_response_info c)) (c_receive_max c)
    (nondefault 0 (c_topic_alias_max c)) (c_user_properties c) (c_max_packet_size c).

Lemma connect_props_read c :
  wf_connect c ->
  loop_reads connect_prop (mkConnectProps None None None None None None None [] None)
    (connect_props_image c) (connect_props_of c).
Proof.
  intros []. unfold connect_props_image, connect_props_of.
  pose proof (nondefault_wf_u32 _ wfc_sei0). pose proof (nondefault_wf_u16 _ wfc_tam0).
  pose proof (nondefault_wf_bool true (c_request_problem_info c)).
  pose proof (nondefault_wf_bool false (c_request_response_info c)).
  rewrite <- (app_nil_r (users_image _)).
  read_opt 8%nat. read_opt 7%nat. read_opt 6%nat. read_opt 5%nat. read_opt 4%nat.
  read_opt 3%nat. read_opt 0%nat. read_opt 2%nat. read_users 1%nat. apply loop_nil.
Qed.

Definition will_props_of (w : LastWill) : WillProps :=
  mkWillProps (lw_will_delay_interval_sec w) (lw_correlation_data w)
    (lw_message_expiry_interval w) (lw_content_type w) (lw_user_properties w)
    (lw_is_utf8_payload w) (lw_response_topic w).

Lemma opt_wf_True {A} (o : option A) : opt_wf (fun _ => True) o.
Proof. by destruct o. Qed.

Lemma will_props_read w :
  wf_will w ->
  loop_reads will_prop (mkWillProps None None None None [] None None)
    (will_props_image w) (will_props_of w).
Proof.
  intros []. unfold will_props_image, will_props_of. pose proof (opt_wf_True (lw_is_utf8_payload w)).
  rewrite <- (app_nil_r (users_image _)).
  read_opt 6%nat. read_opt 1%nat. read_opt 4%nat. read_opt 3%nat. read_opt 0%nat. read_opt 5%nat.
  read_users 2%nat. apply loop_nil.
Qed.

Definition connack_props_of (a : ConnectAck) : ConnectAckProps :=
  mkConnectAckProps (ca_session_expiry_interval_secs a)
    (nondefault RECEIVE_MAX_DEFAULT (ca_receive_max a)) (nondefault ExactlyOnce (ca_max_qos a))
    (nondefault true (ca_retain_available a)) (ca_max_packet_size a) (ca_assigned_client_id a)
    (nondefault 0 (ca_topic_alias_max a)) (ca_reason_string a) (ca_user_properties a)
    (nondefault true (ca_wildcard_subscription_available a))
    (nondefault true (ca_subscription_identifiers_available a))
    (nondefault true (ca_shared_subscription_available a)) (ca_server_keepalive_sec a)
    (ca_response_info a) (ca_server_reference a) (ca_auth_method a) (ca_auth_data a).

(** The maximum QoS is read without [read_value]. *)
Ltac read_max_qos k :=
  match goal with
  | |- loop_reads ?body ?st (opt_prop ?id ?img ?o ++ ?rest) ?r =>
      let g := field_fun st k in
      change st with (g None);
      apply (loop_opt body g id img o rest r);
      [ let a := fresh "a" in intros a _; cbv beta;
        eapply (reads_bind _ _ [id]); [apply reads_get_u8|]; select_branch;
        apply reads_ensure; [done|]; apply reads_ensure_remaining; [done|];
        intros ?; by destruct a
      | cbv beta ]
  end.

Lemma connack_props_read a :
  wf_connack a ->
  loop_reads connect_ack_prop ConnectAckProps_init
    (connack_props_image a ++ diag_image (ca_user_properties a, ca_reason_string a))
    (connack_props_of a).
Proof.
  intros []. unfold connack_props_image, connack_props_of, diag_image, ConnectAckProps_init.
  pose proof (opt_wf_nondefault _ RECEIVE_MAX_DEFAULT _ wfa_receive_max0).
  pose proof (nondefault_wf_bool true (ca_retain_available a)).
  pose proof (nondefault_wf_bool true (ca_wildcard_subscription_available a)).
  pose proof (nondefault_wf_bool true (ca_subscription_identifiers_available a)).
  pose proof (nondefault_wf_bool true (ca_shared_subscription_available a)).
  pose proof (nondefault_wf_u16 _ wfa_tam0). cbn [fst snd].
  rewrite <- (app_nil_r (opt_prop pt.REASON_STRING _ _)), <- !app_assoc.
  read_opt 16%nat. read_opt 15%nat. read_max_qos 14%nat. read_opt 13%nat. read_opt 12%nat.
  read_opt 11%nat. read_opt 10%nat. read_opt 7%nat. read_opt 6%nat. read_opt 5%nat.
  read_opt 4%nat. read_opt 3%nat. read_opt 2%nat. read_opt 1%nat. read_opt 0%nat.
  read_users 8%nat. read_opt 9%nat. apply loop_nil.
Qed.

Definition publish_props_of (p : PublishProperties) : PublishProps :=
  mkPublishProps (message_expiry_interval p) (topic_alias p) (content_type p)
    (correlation_data p) (subscription_ids p) (response_topic p)
    (nondefault false (is_utf8_payload p)) (user_properties p).

Lemma sub_id_reads {A} id (k : Z -> A) :
  wf_sub_id id ->
  reads (let! v := decode_variable_length_cursor in let! v := lift (nonzero v) in ret (k v))
    (var_int_image 3 id) (k id).
Proof.
  intros Hid. unfold wf_sub_id in Hid. eapply reads_last; [apply reads_var_int; lia|].
  intros s. unfold bind, lift, nonzero. rewrite (proj2 (Z.eqb_neq _ _)) by lia. done.
Qed.

Lemma publish_props_read p :
  wf_props p ->
  loop_reads publish_prop (mkPublishProps None None None None [] None None [])
    (publish_props_image p) (publish_props_of p).
Proof.
  intros []. unfold publish_props_image, publish_props_of.
  pose proof (nondefault_wf_bool false (is_utf8_payload p)).
  rewrite <- (app_nil_r (users_image _)).
  read_opt 6%nat. read_opt 4%nat. read_opt 7%nat. read_opt 5%nat. read_opt 1%nat. read_opt 2%nat.
  match goal with |- loop_reads _ ?st _ _ => let g := field_fun st 3%nat in
    change st with (g []); apply (loop_list _ g sub_id_image [] (subscription_ids p)) end.
  - intros acc id Hid. split; [done|]. cbv beta. rewrite Forall_forall in wfpp_ids0.
    eapply (reads_bind _ _ [pt.SUB_ID]); [apply reads_get_u8|]. select_branch.
    by apply (sub_id_reads id (fun id =>
      mkPublishProps _ _ _ _ (acc ++ [id]) _ _ _)), wfpp_ids0.
  - cbv beta. cbn [app]. read_users 0%nat. apply loop_nil.
Qed.

Lemma diag_props_read ups r :
  wf_diag ups r -> loop_reads ack_prop (None, []) (diag_image (ups, r)) (r, ups).
Proof.
  intros []. unfold diag_image. cbn [fst snd].
  rewrite <- (app_nil_r (opt_prop pt.REASON_STRING _ _)).
  read_users 0%nat. read_opt 1%nat. apply loop_nil.
Qed.

Lemma disconnect_props_read d :
  wf_packet (PDisconnect d) ->
  loop_reads disconnect_prop (mkDisconnectProps None None None [])
    ((opt_prop pt.SESS_EXPIRY_INT be32 (d_session_expiry_interval_secs d)
      ++ opt_prop pt.SERVER_REF str_image (d_server_reference d))
     ++ diag_image (d_user_properties d, d_reason_string d))
    (mkDisconnectProps (d_session_expiry_interval_secs d) (d_server_reference d)
       (d_reason_string d) (d_user_properties d)).
Proof.
  intros (? & ? & ? & ?). unfold diag_image. cbn [fst snd].
  rewrite <- (app_nil_r (opt_prop pt.REASON_STRING _ _)), <- !app_assoc.
  read_opt 3%nat. read_opt 2%nat. read_users 0%nat. read_opt 1%nat. apply loop_nil.
Qed.

Lemma auth_props_read a :
  wf_packet (PAuth a) ->
  loop_reads auth_prop (mkAuthProps None None None [])
    ((opt_prop pt.AUTH_METHOD str_image (a_auth_method a)
      ++ opt_prop pt.AUTH_DATA str_image (a_auth_data a))
     ++ diag_image (a_user_properties a, a_reason_string a))
    (mkAuthProps (a_auth_method a) (a_auth_data a) (a_reason_string a) (a_user_properties a)).
Proof.
  intros (? & ? & ? & ?). unfold diag_image. cbn [fst snd].
  rewrite <- (app_nil_r (opt_prop pt.REASON_STRING _ _)), <- !app_assoc.
  read_opt 3%nat. read_opt 2%nat. read_users 0%nat. read_opt 1%nat. apply loop_nil.
Qed.

Lemma subscribe_props_read id ups :
  opt_wf wf_sub_id id -> Forall wf_pair ups ->
  loop_reads subscribe_prop (None, [])
    (opt_prop pt.SUB_ID (var_int_image 3) id ++ users_image ups) (id, ups).
Proof.
  intros Hid Hups. rewrite <- (app_nil_r (users_image _)).
  apply (loop_opt subscribe_prop (fun id => (id, []))).
  - intros v ->. eapply (reads_bind _ _ [pt.SUB_ID]); [apply reads_get_u8|]. select_branch.
    apply reads_ensure; [done|]. by apply (sub_id_reads v (fun v => (Some v, []))).
  - read_users 0%nat. apply loop_nil.
Qed.

Lemma unsubscribe_props_read ups :
  Forall wf_pair ups -> loop_reads unsubscribe_prop [] (users_image ups) ups.
Proof.
  intros Hups. rewrite <- (app_nil_r (users_image _)).
  apply (loop_list unsubscribe_prop (fun l => l) user_image []); [|apply loop_nil].
  intros acc u Hu. split; [done|]. rewrite Forall_forall in Hups.
  eapply (reads_bind _ _ [pt.USER]); [apply reads_get_u8|]. select_branch.
  by apply push_user_reads, Hups.
Qed.

(** ** Packets *)

Lemma reads_all_has_remaining {A} (k : bool -> io DecodeError A) w a :
  w <> [] -> reads_all (k true) w a -> reads_all (bind has_remaining k) w a.
Proof.
  intros Hw Hk. unfold reads_all, bind, has_remaining. destruct w as [|b w]; [done|].
  rewrite (proj2 (Z.eqb_neq _ _)); [done|]. rewrite len_cons. pose proof (len_nonneg w). lia.
Qed.

Lemma reads_all_enum {A B} `{PrimEnumOk A} (x : A) (k : A -> io DecodeError B) w a :
  reads_all (k x) w a -> reads_all (bind (lift (try_from (to_u8 x))) k) w a.
Proof. intros Hk. unfold reads_all, bind, lift. by rewrite try_from_to_u8. Qed.

Lemma reads_all_ensure_remaining {A} n e (m : io DecodeError A) w a :
  n <= len w -> reads_all m w a -> reads_all (ensure_remaining n e ;;; m) w a.
Proof.
  intros Hn Hm. unfold reads_all, bind, ensure_remaining. by rewrite (proj2 (Z.leb_le _ _)).
Qed.

Lemma block_ne (w : bytes) : block w <> [].
Proof. intros H. pose proof (block_len_ge w). rewrite H in *. pose proof (len_nonneg w).
  change (len []) with 0 in *. lia. Qed.

Lemma ack_props_reads ups r :
  wf_diag ups r -> len (diag_image (ups, r)) <= MAX_PACKET_SIZE ->
  reads ack_props_decode (block (diag_image (ups, r))) (ups, r).
Proof.
  intros Hd Hm. unfold ack_props_decode. rewrite <- (app_nil_r (block _)).
  eapply take_block; [done|by apply diag_props_read|apply reads_ret].
Qed.

Lemma ack_decode_reads {A B} `{PrimEnumOk A} (mk : Z -> A -> UserProperties -> option bytes -> B)
    id (c : A) ups r w :
  nz u16 id -> wf_diag ups r -> w = ack_image id (to_u8 c) ups r -> len w <= MAX_PACKET_SIZE ->
  forall x y,
  reads_all
    (let! packet_id := NonZeroU16_decode in
     let! more := has_remaining in
     if more then
       let! b := get_u8 in
       let! reason_code := lift (try_from b) in
       let! more := has_remaining in
       if more then
         let! props := ack_props_decode in
         ensure_empty InvalidLength ;;;
         ret (mk packet_id reason_code props.1 props.2)
       else x packet_id reason_code
     else y packet_id) w (mk id c ups r).
Proof.
  intros Hid Hd -> Hm x y. unfold ack_image in *. rewrite !len_app in Hm.
  pose proof (block_len_ge (diag_image (ups, r))). pose_lens Hm.
  eapply reads_all_bind; [by apply V3Proofs.reads_wire_id|].
  apply reads_all_has_remaining; [done|].
  eapply reads_all_bind; [apply reads_get_u8|].
  apply reads_all_enum. apply reads_all_has_remaining; [apply block_ne|].
  eapply reads_all_last; [apply reads_all_intro, ack_props_reads; [done|lia]|done].
Qed.

(** The status bytes are iterated over, not consumed. *)
Lemma status_ack_reads {A B} `{PrimEnumOk A}
    (mk : Z -> UserProperties -> option bytes -> list A -> B) id ups r (status : list A) :
  nz u16 id -> wf_diag ups r ->
  len (be16 id ++ block (diag_image (ups, r)) ++ (to_u8 <$> status)) <= MAX_PACKET_SIZE ->
  (let! packet_id := NonZeroU16_decode in
   let! props := ack_props_decode in
   let! src := get_state in
   let! status := lift (try_collect try_from src) in
   ret (mk packet_id props.1 props.2 status))
    (be16 id ++ block (diag_image (ups, r)) ++ (to_u8 <$> status))
  = (Ok (mk id ups r status), to_u8 <$> status).
Proof.
  intros Hid Hd Hm. rewrite !len_app in Hm. pose proof (block_len_ge (diag_image (ups, r))).
  pose_lens Hm. unfold bind. rewrite V3Proofs.reads_wire_id by done.
  rewrite ack_props_reads by (done || lia). unfold get_state, lift.
  by rewrite try_collect_fmap by (intros; apply try_from_to_u8).
Qed.

Lemma options_reads o : reads SubscriptionOptions_decode [SubscriptionOptions_byte o] o.
Proof.
  apply reads_ensure_remaining; [done|]. intros s. by destruct o as [[] [] [] []].
Qed.

Lemma filter_reads acc f :
  wf_str (fst f) -> reads (subscribe_item acc) (filter_image f) (acc ++ [f]).
Proof.
  intros Hf. unfold subscribe_item, filter_image. eapply reads_bind; [by apply V3Proofs.reads_wire_str|].
  eapply reads_last; [apply options_reads|]. by destruct f.
Qed.

Lemma Subscribe_reads s :
  wf_packet (PSubscribe s) -> len (body_image (PSubscribe s)) <= MAX_PACKET_SIZE ->
  reads_all Subscribe_decode (body_image (PSubscribe s)) s.
Proof.
  intros (Hpid & Hid & Hu & Hfs) Hm. cbn [body_image] in *.
  rewrite !(len_app (be16 _)), !(len_app (block _)) in Hm.
  match type of Hm with context [block ?w] => pose proof (block_len_ge w) end. pose_lens Hm.
  eapply reads_all_bind; [by apply V3Proofs.reads_wire_id|].
  eapply take_block_all; [lia|by apply subscribe_props_read|]. destruct s as [pid id ups fs].
  apply (V3Proofs.reads_items subscribe_item filter_image fs (fun fs => mkSubscribe pid id ups fs)).
  intros f Hf. rewrite Forall_forall in Hfs.
  split; [unfold filter_image; by intros [? _]%app_nil|]. intros acc. by apply filter_reads, Hfs.
Qed.

Lemma Unsubscribe_reads u :
  wf_packet (PUnsubscribe u) -> len (body_image (PUnsubscribe u)) <= MAX_PACKET_SIZE ->
  reads_all Unsubscribe_decode (body_image (PUnsubscribe u)) u.
Proof.
  intros (Hpid & Hu & Hfs) Hm. cbn [body_image] in *.
  rewrite !(len_app (be16 _)), !(len_app (block _)) in Hm.
  match type of Hm with context [block ?w] => pose proof (block_len_ge w) end. pose_lens Hm.
  eapply reads_all_bind; [by apply V3Proofs.reads_wire_id|].
  eapply take_block_all; [lia|by apply unsubscribe_props_read|]. destruct u as [pid ups fs].
  apply (V3Proofs.reads_items unsubscribe_item str_image fs (fun fs => mkUnsubscribe pid ups fs)).
  intros f Hf. rewrite Forall_forall in Hfs. split; [done|]. intros acc.
  eapply reads_last; [by apply V3Proofs.reads_wire_str, Hfs|apply reads_ret].
Qed.

Lemma Disconnect_reads d :
  wf_packet (PDisconnect d) -> len (body_image (PDisconnect d)) <= MAX_PACKET_SIZE ->
  reads_all Disconnect_decode (body_image (PDisconnect d)) d.
Proof.
  intros Hwf Hm. cbn [body_image] in *. rewrite (len_app [_]) in Hm.
  match type of Hm with context [block ?w] => pose proof (block_len_ge w) end. pose_lens Hm.
  apply reads_all_has_remaining; [done|]. eapply reads_all_bind; [apply reads_get_u8|].
  apply reads_all_enum. apply reads_all_has_remaining; [apply block_ne|].
  rewrite <- (app_nil_r (block _)).
  eapply take_block_all; [lia|by apply disconnect_props_read|]. by destruct d.
Qed.

Lemma Auth_reads a :
  wf_packet (PAuth a) -> len (body_image (PAuth a)) <= MAX_PACKET_SIZE ->
  reads_all Auth_decode (body_image (PAuth a)) a.
Proof.
  intros Hwf Hm. cbn [body_image] in *. rewrite (len_app [_]) in Hm.
  match type of Hm with context [block ?w] => pose proof (block_len_ge w) end. pose_lens Hm.
  apply reads_all_has_remaining; [done|]. eapply reads_all_bind; [apply reads_get_u8|].
  apply reads_all_enum. do 2 (apply reads_all_has_remaining; [apply block_ne|]).
  rewrite orb_true_r. rewrite <- (app_nil_r (block _)).
  eapply reads_all_last.
  { eapply take_block_all; [lia|by apply auth_props_read|done]. }
  by destruct a.
Qed.

Lemma ConnectAck_reads a :
  wf_connack a -> len (body_image (PConnectAck a)) <= MAX_PACKET_SIZE ->
  reads_all ConnectAck_decode (body_image (PConnectAck a)) a.
Proof.
  intros Hwf Hm. cbn [body_image] in *. rewrite (len_app [_; _]) in Hm.
  match type of Hm with context [block ?w] => pose proof (block_len_ge w) end. pose_lens Hm.
  apply reads_all_ensure_remaining; [rewrite len_app; change (len [_; _]) with 2; lia|].
  eapply (reads_all_bind _ _ [_]); [apply reads_get_u8|].
  apply (reads_all_bind_pure _ _ _ (V3.b2z (ca_session_present a)));
    [by destruct (ca_session_present a)|].
  eapply (reads_all_bind _ _ [_]); [apply reads_get_u8|]. apply reads_all_enum.
  rewrite <- (app_nil_r (block _)). eapply take_block_all; [lia|by apply connack_props_read|].
  unfold connack_props_of.
  cbn [cap_session_expiry_interval_secs cap_receive_max cap_max_qos cap_retain_available
    cap_max_packet_size cap_assigned_client_id cap_topic_alias_max cap_reason_string
    cap_user_properties cap_wildcard_sub_avail cap_sub_ids_avail cap_shared_sub_avail
    cap_server_ka_sec cap_response_info cap_server_reference cap_auth_method cap_auth_data].
  rewrite !default_nondefault. unfold reads_all. simpl. destruct a as [[]]; done.
Qed.

Lemma flags_ok c :
  ConnectFlags.from_bits (connect_flags c) = Some (connect_flags c) /\
  ConnectFlags.contains (connect_flags c) ConnectFlags.CLEAN_START = c_clean_start c /\
  ConnectFlags.contains (connect_flags c) ConnectFlags.WILL = V3.is_some (c_last_will c) /\
  ConnectFlags.contains (connect_flags c) ConnectFlags.USERNAME = V3.is_some (c_username c) /\
  ConnectFlags.contains (connect_flags c) ConnectFlags.PASSWORD = V3.is_some (c_password c) /\
  match c_last_will c with
  | Some w =>
      QoS_try_from (Z.shiftr (Z.land (connect_flags c) ConnectFlags.WILL_QOS) WILL_QOS_SHIFT)
        = Ok (lw_qos w) /\
      ConnectFlags.contains (connect_flags c) ConnectFlags.WILL_RETAIN = lw_retain w
  | None => True
  end.
Proof.
  unfold connect_flags. destruct (c_username c), (c_password c), (c_clean_start c),
    (c_last_will c) as [w|]; try destruct (lw_retain w), (lw_qos w); vm_compute; auto 10.
Qed.

Lemma last_will_reads c w :
  c_last_will c = Some w -> wf_will w -> len (will_props_image w) <= MAX_PACKET_SIZE ->
  reads (decode_last_will (connect_flags c)) (will_image (Some w)) w.
Proof.
  intros Hw Hwf Hm. unfold decode_last_will, will_image.
  destruct (flags_ok c) as (_ & _ & _ & _ & _ & Hq). rewrite Hw in Hq. destruct Hq as [Hq Hr].
  eapply take_block; [done|by apply will_props_read|].
  eapply reads_bind; [by apply V3Proofs.reads_wire_str, Hwf|].
  eapply reads_last; [by apply V3Proofs.reads_wire_bytes, Hwf|].
  rewrite Hq, Hr. intros s. by destruct w.
Qed.

Lemma name_reads {A} (k : io DecodeError A) w a :
  reads k w a ->
  reads (let! n := get_u16 in
         let! is_mqtt := V3.and_then (n =? 4) (V3.slice_eq 4 MQTT) in
         ensure is_mqtt InvalidProtocol ;;; advance 4 ;;; k) (str_image MQTT ++ w) a.
Proof.
  intros Hk s. unfold bind, str_image. rewrite <- !app_assoc, reads_get_u16.
  change (V3.and_then (len MQTT =? 4) (V3.slice_eq 4 MQTT))
    with (V3.slice_eq (E := DecodeError) (len MQTT) MQTT).
  rewrite V3Proofs.slice_eq_name. cbn [ensure ret].
  change 4 with (len MQTT). unfold ret. rewrite reads_advance. apply Hk.
Qed.

Lemma Connect_reads c :
  wf_connect c -> len (body_image (PConnect c)) <= MAX_PACKET_SIZE ->
  reads_all Connect_decode (body_image (PConnect c)) c.
Proof.
  intros Hwf Hm. cbn [body_image] in *. 
  pose proof Hwf as Hwf'. destruct Hwf' as [Hk _ _ _ _ _ _ _ Hw Hc Hcl Hu Hp Hcert].
  destruct (flags_ok c) as (Hbits & Hclean & Hwill & Huser & Hpass & _).
  pose proof Hm as Hm'. rewrite !len_app in Hm'.
  pose proof (block_len_ge (connect_props_image c)). pose_lens Hm'.
  apply reads_all_intro. unfold Connect_decode. apply reads_ensure_remaining.
  { rewrite !len_app, !str_image_len. change (len MQTT) with 4.
    change (len [MQTT_LEVEL_5; connect_flags c]) with 2.
    change (len (be16 (c_keep_alive c))) with 2. pose proof (len_nonneg (c_client_id c)). lia. }
  apply name_reads.
  eapply (reads_bind _ _ [_]); [apply reads_get_u8|]. apply reads_ensure; [done|].
  eapply (reads_bind _ _ [_]); [apply reads_get_u8|]. rewrite Hbits.
  eapply reads_bind_pure; [apply reads_ret|].
  eapply reads_bind; [apply reads_get_u16|].
  eapply take_block; [lia|by apply connect_props_read|].
  eapply reads_bind; [by apply V3Proofs.reads_wire_str|].
  apply reads_ensure.
  { rewrite Hclean. destruct (c_client_id c) eqn:Hid; [|done].
    destruct Hcl as [|Hcl]; [done|]. by rewrite Hcl. }
  rewrite Hwill, Huser, Hpass, Hclean.
  eapply reads_bind.
  { apply V3Proofs.decode_if_reads; [|by intros ->]. intros w Hw'. rewrite Hw' in *.
    apply last_will_reads; [done..|]. unfold will_image in Hm'. rewrite !len_app in Hm'.
    pose_lens Hm'. pose proof (block_len_ge (will_props_image w)). lia. }
  eapply reads_bind.
  { apply V3Proofs.decode_if_reads; [|by intros ->]. intros u Hu'. rewrite Hu' in *.
    by apply V3Proofs.reads_wire_str. }
  eapply reads_last.
  { apply V3Proofs.decode_if_reads; [|by intros ->]. intros u Hu'. rewrite Hu' in *.
    by apply V3Proofs.reads_wire_bytes. }
  unfold connect_props_of.
  cbn [cp_session_expiry_interval_secs cp_auth_method cp_auth_data cp_request_problem_info
    cp_request_response_info cp_receive_max cp_topic_alias_max cp_user_properties
    cp_max_packet_size].
  rewrite !default_nondefault, <- Hcert. intros s. by destruct c.
Qed.

Lemma Publish_reads p :
  wf_publish p -> len (body_image (PPublish p)) <= MAX_PACKET_SIZE ->
  reads_all (fmap_io PPublish (Publish_decode (Z.land (publish_first_byte p) 15)))
    (body_image (PPublish p)) (normalize (PPublish p)).
Proof.
  intros Hwf Hm. pose proof (props_of_wf p Hwf) as Hpw. destruct Hwf as [Ht Hid _ _].
  cbn [body_image] in *. rewrite !len_app in Hm.
  pose proof (block_len_ge (publish_props_image (props_of p))). pose_lens Hm.
  destruct (V3Proofs.publish_first_byte_ok p) as (_ & Hq & Hd & Hr). cbn zeta in *.
  change (V3.publish_first_byte p) with (publish_first_byte p) in *.
  eapply reads_all_last; [|by apply reads_all_ret].
  unfold Publish_decode. rewrite Hq, Hd, Hr.
  eapply reads_all_bind; [by apply V3Proofs.reads_wire_str|].
  eapply reads_all_bind_pure; [by intros s|].
  eapply reads_all_bind.
  { instantiate (1 := packet_id p). destruct (qos p); cbn [bool_decide];
      [rewrite Hid; apply reads_ret|..]; destruct Hid as (id & -> & Hid);
      (eapply reads_last; [by apply V3Proofs.reads_wire_id|apply reads_ret]). }
  eapply reads_all_bind.
  { unfold parse_publish_properties. rewrite <- (app_nil_r (block _)).
    eapply take_block; [lia|by apply publish_props_read|apply reads_ret]. }
  unfold publish_props_of. cbn [pp_topic_alias pp_correlation_data pp_message_expiry_interval
    pp_content_type pp_user_props pp_is_utf8_payload pp_response_topic pp_subscription_ids].
  rewrite default_nondefault. unfold reads_all, bind, take_rest, ret.
  by destruct (props_of p).
Qed.

(** [decode_packet] reads the body of every well-formed packet. *)
Lemma v5_decode_packet_image p :
  wf_packet p -> len (body_image p) <= MAX_PACKET_SIZE ->
  decode_packet (body_image p) (first_byte_of p) = Ok (normalize p).
Proof.
  assert (Hmap : forall (A : Type) (f : A -> Packet) m w a, reads_all (E := DecodeError) m w a ->
                   fst (fmap_io f m w) = Ok (f a)).
  { intros A f m w a H. unfold fmap_io, bind. by rewrite H. }
  destruct p; intros Hwf Hm; cbn [wf_packet] in Hwf; try done.
  - by apply (Hmap _ PConnect), Connect_reads.
  - by apply (Hmap _ PConnectAck), ConnectAck_reads.
  - unfold decode_packet. simpl first_byte_of. unfold decode_body.
    change (publish_first_byte ?p) with (V3.publish_first_byte p).
    destruct (V3Proofs.publish_first_byte_ok p) as (-> & _). by rewrite Publish_reads.
  - destruct Hwf as [? ?], a as [id c ups r].
    by apply (Hmap _ PPublishAck), (ack_decode_reads mkPublishAck).
  - destruct Hwf as [? ?], a as [id c ups r].
    by apply (Hmap _ PPublishReceived), (ack_decode_reads mkPublishAck).
  - destruct Hwf as [? ?], a as [id c ups r].
    by apply (Hmap _ PPublishRelease), (ack_decode_reads mkPublishAck2).
  - destruct Hwf as [? ?], a as [id c ups r].
    by apply (Hmap _ PPublishComplete), (ack_decode_reads mkPublishAck2).
  - by apply (Hmap _ PSubscribe), Subscribe_reads.
  - destruct Hwf as [? ?], a as [id ups r st]. unfold decode_packet. cbn [body_image] in *.
    change (decode_body _) with (fmap_io PSubscribeAck SubscribeAck_decode).
    unfold fmap_io, bind at 1, SubscribeAck_decode.
    by rewrite (status_ack_reads mkSubscribeAck).
  - by apply (Hmap _ PUnsubscribe), Unsubscribe_reads.
  - destruct Hwf as [? ?], a as [id ups r st]. unfold decode_packet. cbn [body_image] in *.
    change (decode_body _) with (fmap_io PUnsubscribeAck UnsubscribeAck_decode).
    unfold fmap_io, bind at 1, UnsubscribeAck_decode.
    by rewrite (status_ack_reads mkUnsubscribeAck).
  - by apply (Hmap _ PDisconnect), Disconnect_reads.
  - by apply (Hmap _ PAuth), Auth_reads.
Qed.
End V5Decode.
