(* ===== verification/CodecV5Safe.v ===== *)
(** * The MQTT 5 decoder on arbitrary bytes

    Whatever the bytes, [decode_packet] returns (an error at worst), and
    a decoded packet is well formed. *)

From stdpp Require Import prelude list.
From Stdlib Require Import ZArith Lia.
From S2P Require Import Prelude CodecTypes CodecUtils CodecV3 CodecV3Proofs CodecV5Types.
From S2P Require Import CodecV5 CodecV5Lemmas CodecV5Format.

Local Open Scope Z_scope.

Module V5Safe.
Import V5 V5Codec V5Lemmas V5Format.

(** ** One property of a block *)

Ltac wp_wire ok :=
  eapply wp_mono; [|apply (wire_total (WireOk := ok)); done];
  let a := fresh "v" in let s := fresh "s" in
  intros a s (? & ? & ?).

(** Take the identifier, then follow the branch it selects. *)
Ltac prop_case :=
  apply wp_bind; apply wp_get_u8; [done|]; intros ? ? [= <- <-];
  repeat match goal with |- wp (if ?c then _ else _) _ _ => destruct c end;
  try apply wp_throw.

Ltac prop_value :=
  lazymatch goal with
  | |- wp (bind (read_value _ _) _) _ _ =>
      apply wp_bind; eapply wp_mono; [|apply wp_read_value; assumption]
  | |- wp (bind (push_user _) _) _ _ =>
      apply wp_bind; eapply wp_mono; [|apply wp_push_user; assumption]
  end;
  intros ? ? (? & ? & ?); apply wp_ret;
  split_and!; [split; cbn; assumption|assumption|lia].

Record wf_connect_props (st : ConnectProps) : Prop := {
  wcp_sei : opt_wf u32 (cp_session_expiry_interval_secs st);
  wcp_am : opt_wf wf_str (cp_auth_method st);
  wcp_ad : opt_wf wf_bytes (cp_auth_data st);
  wcp_rm : opt_wf (nz u16) (cp_receive_max st);
  wcp_tam : opt_wf u16 (cp_topic_alias_max st);
  wcp_users : Forall wf_pair (cp_user_properties st);
  wcp_mps : opt_wf (nz u32) (cp_max_packet_size st);
}.

Lemma wp_connect_prop st b s :
  u8s s -> wf_connect_props st ->
  wp (connect_prop st) (b :: s) (fun st' s' =>
    wf_connect_props st' /\ u8s s' /\ (length s' <= length s)%nat).
Proof.
  intros Hs []. destruct st. cbn in *. prop_case; prop_value.
Qed.

Record wf_will_props (st : WillProps) : Prop := {
  wwp_delay : opt_wf u32 (wp_will_delay_interval_sec st);
  wwp_corr : opt_wf wf_bytes (wp_correlation_data st);
  wwp_expiry : opt_wf (nz u32) (wp_message_expiry_interval st);
  wwp_content : opt_wf wf_str (wp_content_type st);
  wwp_users : Forall wf_pair (wp_user_properties st);
  wwp_resp : opt_wf wf_str (wp_response_topic st);
}.

Lemma wp_will_prop st b s :
  u8s s -> wf_will_props st ->
  wp (will_prop st) (b :: s) (fun st' s' =>
    wf_will_props st' /\ u8s s' /\ (length s' <= length s)%nat).
Proof.
  intros Hs []. destruct st. cbn in *. prop_case; prop_value.
Qed.

Record wf_connack_props (st : ConnectAckProps) : Prop := {
  wap_sei : opt_wf u32 (cap_session_expiry_interval_secs st);
  wap_receive_max : opt_wf (nz u16) (cap_receive_max st);
  wap_mps : opt_wf u32 (cap_max_packet_size st);
  wap_client : opt_wf wf_str (cap_assigned_client_id st);
  wap_tam : opt_wf u16 (cap_topic_alias_max st);
  wap_ka : opt_wf u16 (cap_server_ka_sec st);
  wap_resp : opt_wf wf_str (cap_response_info st);
  wap_ref : opt_wf wf_str (cap_server_reference st);
  wap_auth_method : opt_wf wf_str (cap_auth_method st);
  wap_auth_data : opt_wf wf_bytes (cap_auth_data st);
  wap_reason : opt_wf wf_str (cap_reason_string st);
  wap_users : Forall wf_pair (cap_user_properties st);
}.

Lemma wp_connect_ack_prop st b s :
  u8s s -> wf_connack_props st ->
  wp (connect_ack_prop st) (b :: s) (fun st' s' =>
    wf_connack_props st' /\ u8s s' /\ (length s' <= length s)%nat).
Proof.
  intros Hs []. destruct st. cbn in *. prop_case; try prop_value.
  wp_go. apply wp_get_u8; [intros ->; done|]. intros v s' ->.
  apply Forall_cons in Hs as [_ Hs]. wp_go. apply V3Proofs.wp_lift_QoS. intros q _. wp_go.
  split_and!; [split; cbn; assumption|assumption|simpl; lia].
Qed.

(** A subscription identifier. *)
Lemma wp_sub_id {A} (k : Z -> A) s (Q : A -> bytes -> Prop) :
  u8s s ->
  (forall id s', wf_sub_id id -> u8s s' -> (length s' < length s)%nat -> Q (k id) s') ->
  wp (let! v := decode_variable_length_cursor in let! v := lift (nonzero v) in ret (k v)) s Q.
Proof.
  intros Hs HQ. apply wp_bind. eapply wp_mono; [|by apply wp_decode_variable_length_cursor].
  intros v s' (Hv & Hs' & Hl). unfold is_u in Hv. change (2 ^ 28) with 268435456 in Hv.
  apply wp_bind, wp_lift; unfold nonzero; destruct (Z.eqb_spec v 0); try done.
  intros id [= <-]. apply wp_ret, HQ; [|done|lia]. unfold wf_sub_id, MAX_PACKET_SIZE. lia.
Qed.

Record wf_publish_props (st : PublishProps) : Prop := {
  wpp_expiry : opt_wf (nz u32) (pp_message_expiry_interval st);
  wpp_alias : opt_wf (nz u16) (pp_topic_alias st);
  wpp_content : opt_wf wf_str (pp_content_type st);
  wpp_corr : opt_wf wf_bytes (pp_correlation_data st);
  wpp_ids : Forall wf_sub_id (pp_subscription_ids st);
  wpp_resp : opt_wf wf_str (pp_response_topic st);
  wpp_users : Forall wf_pair (pp_user_props st);
}.

Lemma wp_publish_prop st b s :
  u8s s -> wf_publish_props st ->
  wp (publish_prop st) (b :: s) (fun st' s' =>
    wf_publish_props st' /\ u8s s' /\ (length s' <= length s)%nat).
Proof.
  intros Hs []. destruct st. cbn in *. prop_case; try prop_value.
  apply (wp_sub_id (fun id => mkPublishProps _ _ _ _ (_ ++ [id]) _ _ _)); [done|].
  intros id s' Hid Hs' Hl. split_and!; [split; cbn; try assumption|done|lia].
  apply Forall_app. split; [done|]. by constructor.
Qed.

Definition wf_pair_state (st : option bytes * UserProperties) : Prop :=
  opt_wf wf_str st.1 /\ Forall wf_pair st.2.

Lemma wp_ack_prop st b s :
  u8s s -> wf_pair_state st ->
  wp (ack_prop st) (b :: s) (fun st' s' =>
    wf_pair_state st' /\ u8s s' /\ (length s' <= length s)%nat).
Proof.
  intros Hs []. destruct st. cbn in *. prop_case; prop_value.
Qed.

Definition wf_subscribe_state (st : option Z * UserProperties) : Prop :=
  opt_wf wf_sub_id st.1 /\ Forall wf_pair st.2.

Lemma wp_subscribe_prop st b s :
  u8s s -> wf_subscribe_state st ->
  wp (subscribe_prop st) (b :: s) (fun st' s' =>
    wf_subscribe_state st' /\ u8s s' /\ (length s' <= length s)%nat).
Proof.
  intros Hs []. destruct st. cbn in *. prop_case; try prop_value.
  apply wp_bind, wp_ensure. intros _. apply (wp_sub_id (fun id => (Some id, _))); [done|].
  intros id s' Hid Hs' Hl. split_and!; [by split|done|lia].
Qed.

Lemma wp_unsubscribe_prop ups b s :
  u8s s -> Forall wf_pair ups ->
  wp (unsubscribe_prop ups) (b :: s) (fun ups' s' =>
    Forall wf_pair ups' /\ u8s s' /\ (length s' <= length s)%nat).
Proof.
  intros Hs Hu. unfold unsubscribe_prop. prop_case.
  eapply wp_mono; [|by apply wp_push_user]. intros ups' s' (? & ? & ?). auto with lia.
Qed.

Record wf_disconnect_props (st : DisconnectProps) : Prop := {
  wdp_sei : opt_wf u32 (dp_session_exp_secs st);
  wdp_ref : opt_wf wf_str (dp_server_reference st);
  wdp_reason : opt_wf wf_str (dp_reason_string st);
  wdp_users : Forall wf_pair (dp_user_properties st);
}.

Lemma wp_disconnect_prop st b s :
  u8s s -> wf_disconnect_props st ->
  wp (disconnect_prop st) (b :: s) (fun st' s' =>
    wf_disconnect_props st' /\ u8s s' /\ (length s' <= length s)%nat).
Proof.
  intros Hs []. destruct st. cbn in *. prop_case; prop_value.
Qed.

Record wf_auth_props (st : AuthProps) : Prop := {
  wup_method : opt_wf wf_str (ap_auth_method st);
  wup_data : opt_wf wf_bytes (ap_auth_data st);
  wup_reason : opt_wf wf_str (ap_reason_string st);
  wup_users : Forall wf_pair (ap_user_properties st);
}.

Lemma wp_auth_prop st b s :
  u8s s -> wf_auth_props st ->
  wp (auth_prop st) (b :: s) (fun st' s' =>
    wf_auth_props st' /\ u8s s' /\ (length s' <= length s)%nat).
Proof.
  intros Hs []. destruct st. cbn in *. prop_case; prop_value.
Qed.

(** ** Packets *)

(** A property block, and the rest of the buffer. *)
Lemma wp_block {A S} (I : S -> Prop) (body : S -> io DecodeError S) st (k : S -> io DecodeError A)
    s (Q : A -> bytes -> Prop) :
  u8s s -> I st ->
  (forall st b s, u8s s -> I st ->
     wp (body st) (b :: s) (fun st' s' => I st' /\ u8s s' /\ (length s' <= length s)%nat)) ->
  (forall st' s', I st' -> u8s s' -> wp (k st') s' Q) ->
  wp (let! p := take_properties in let! st := read_props body st p in k st) s Q.
Proof.
  intros Hs Hi Hbody Hk. apply wp_bind. eapply wp_mono; [|by apply wp_take_properties].
  intros p s' (Hp & Hs' & _). apply wp_bind. eapply (wp_read_props I); [done..|]. auto.
Qed.

Lemma wp_ack_props s (Q : UserProperties * option bytes -> bytes -> Prop) :
  u8s s -> (forall ups r s', wf_diag ups r -> u8s s' -> Q (ups, r) s') ->
  wp ack_props_decode s Q.
Proof.
  intros Hs HQ. eapply (wp_block wf_pair_state); [done|by split|apply wp_ack_prop|].
  intros [r ups] s' [? ?] Hs'. apply wp_ret. by apply HQ.
Qed.

(** A reason code, taken after a check that a byte is left. *)
Lemma wp_reason {A B} `{PrimEnumOk A} (k : A -> io DecodeError B) (m : io DecodeError B) s
    (Q : B -> bytes -> Prop) :
  u8s s -> (forall c s', u8s s' -> wp (k c) s' Q) -> wp m s Q ->
  wp (let! more := has_remaining in
      if more then let! b := get_u8 in let! c := lift (try_from b) in k c else m) s Q.
Proof.
  intros Hs Hk Hm. apply wp_bind, wp_has_remaining. destruct s as [|b s]; [done|].
  rewrite (proj2 (Z.eqb_neq _ _)).
  2: { rewrite len_cons. pose proof (len_nonneg s). lia. }
  apply Forall_cons in Hs as [_ Hs]. cbn [negb].
  apply wp_bind, wp_get_u8; [done|]. intros ? ? [= <- <-]. apply wp_bind, wp_lift_enum. auto.
Qed.

Lemma wp_more {A} (k m : io DecodeError A) s (Q : A -> bytes -> Prop) :
  (s <> [] -> wp k s Q) -> wp m s Q ->
  wp (let! more := has_remaining in if more then k else m) s Q.
Proof.
  intros Hk Hm. apply wp_bind, wp_has_remaining. destruct s as [|b s]; [done|].
  rewrite (proj2 (Z.eqb_neq _ _)); [by apply Hk|].
  rewrite len_cons. pose proof (len_nonneg s). lia.
Qed.

Lemma wp_fmap {A B} (f : A -> B) (m : io DecodeError A) s (P : B -> Prop) :
  wp m s (fun a _ => P (f a)) -> wp (fmap_io f m) s (fun b _ => P b).
Proof. intros H. apply wp_bind. eapply wp_mono; [|exact H]. intros a s' Ha. by apply wp_ret. Qed.

Lemma wp_PublishAck s :
  u8s s -> wp PublishAck_decode s (fun a _ =>
    nz u16 (pa_packet_id a) /\ wf_diag (pa_properties a) (pa_reason_string a)).
Proof.
  intros Hs. apply wp_bind. wp_wire NonZeroU16_ok. apply wp_reason; [done|..].
  - intros c s' Hs'. apply wp_more; [intros _|by wp_go].
    apply wp_bind, wp_ack_props; [done|]. intros ups r s'' Hd Hs''. by wp_go.
  - by wp_go.
Qed.

Lemma wp_PublishAck2 s :
  u8s s -> wp PublishAck2_decode s (fun a _ =>
    nz u16 (pa2_packet_id a) /\ wf_diag (pa2_properties a) (pa2_reason_string a)).
Proof.
  intros Hs. apply wp_bind. wp_wire NonZeroU16_ok. apply wp_reason; [done|..].
  - intros c s' Hs'. apply wp_more; [intros _|by wp_go].
    apply wp_bind, wp_ack_props; [done|]. intros ups r s'' Hd Hs''. by wp_go.
  - by wp_go.
Qed.

(** The acknowledgement of a list of filters. *)
Lemma wp_status_ack {A B} `{PrimEnumOk A}
    (mk : Z -> UserProperties -> option bytes -> list A -> B) s (P : B -> Prop) :
  u8s s -> (forall id ups r l, nz u16 id -> wf_diag ups r -> P (mk id ups r l)) ->
  wp (let! packet_id := NonZeroU16_decode in
      let! props := ack_props_decode in
      let! src := get_state in
      let! status := lift (try_collect try_from src) in
      ret (mk packet_id props.1 props.2 status)) s (fun b _ => P b).
Proof.
  intros Hs HP. apply wp_bind. wp_wire NonZeroU16_ok.
  apply wp_bind, wp_ack_props; [done|]. intros ups r s' Hd Hs'.
  apply wp_bind, wp_get_state, wp_bind, wp_lift.
  - apply try_collect_returns. intros x. apply try_from_returns.
  - intros l _. wp_go. by apply HP.
Qed.

Lemma wp_options s (Q : SubscriptionOptions -> bytes -> Prop) :
  u8s s -> (forall o s', u8s s' -> (length s' < length s)%nat -> Q o s') ->
  wp SubscriptionOptions_decode s Q.
Proof.
  intros Hs HQ. unfold SubscriptionOptions_decode. wp_go.
  apply wp_get_u8; [by intros ->|]. intros b s' ->. apply Forall_cons in Hs as [_ Hs]. wp_go.
  apply V3Proofs.wp_lift_QoS. intros q _. wp_go. apply wp_lift_enum. intros rh. wp_go.
  apply HQ; [done|simpl; lia].
Qed.

Lemma wp_v5_subscribe_item acc s :
  u8s s -> Forall (fun f : bytes * SubscriptionOptions => wf_str (fst f)) acc ->
  wp (subscribe_item acc) s (fun acc' s' =>
    Forall (fun f => wf_str (fst f)) acc' /\ u8s s' /\ (length s' < length s)%nat).
Proof.
  intros Hs Hacc. unfold subscribe_item. wp_go. wp_wire ByteString_ok. wp_go.
  apply wp_options; [done|]. intros o s' Hs' Hl. wp_go. split_and!; [|done|lia].
  apply Forall_app. split; [done|]. by constructor.
Qed.

Lemma wp_Subscribe s : u8s s -> wp Subscribe_decode s (fun x _ => wf_packet (PSubscribe x)).
Proof.
  intros Hs. apply wp_bind. wp_wire NonZeroU16_ok.
  eapply (wp_block wf_subscribe_state); [done|by split|apply wp_subscribe_prop|].
  intros st s' [? ?] Hs'.
  apply (V3Proofs.wp_items _ (fun f => wf_str (fst f)) s' (mkSubscribe v st.1 st.2)
           (fun x => wf_packet (PSubscribe x))); [done|apply wp_v5_subscribe_item|].
  by intros l Hl.
Qed.

Lemma wp_Unsubscribe s : u8s s -> wp Unsubscribe_decode s (fun x _ => wf_packet (PUnsubscribe x)).
Proof.
  intros Hs. apply wp_bind. wp_wire NonZeroU16_ok.
  eapply (wp_block (Forall wf_pair)); [done|constructor|apply wp_unsubscribe_prop|].
  intros ups s' Hu Hs'.
  apply (V3Proofs.wp_items _ wf_str s' (mkUnsubscribe v ups)
           (fun x => wf_packet (PUnsubscribe x))); [done| |by intros l Hl].
  apply V3Proofs.wp_unsubscribe_item.
Qed.

Lemma wp_Disconnect s : u8s s -> wp Disconnect_decode s (fun x _ => wf_packet (PDisconnect x)).
Proof.
  intros Hs. apply wp_reason; [done|..].
  - intros c s' Hs'. apply wp_more; [intros _|by wp_go; split_and!; try split; try constructor].
    eapply (wp_block wf_disconnect_props); [done|by split; try constructor|apply wp_disconnect_prop|].
    intros st s'' [] Hs''. by wp_go.
  - by wp_go; split_and!; try split; try constructor.
Qed.

Lemma wp_Auth s : u8s s -> wp Auth_decode s (fun x _ => wf_packet (PAuth x)).
Proof.
  intros Hs. apply wp_reason; [done|..].
  - intros c s' Hs'. apply wp_more; [intros _|by wp_go; split_and!; try split; try constructor].
    apply wp_bind, wp_has_remaining, wp_bind.
    eapply (wp_mono _ _ (fun st _ => wf_auth_props st)).
    { intros st s'' []. by wp_go. }
    destruct (_ || _); [|by wp_go; split; try constructor].
    eapply (wp_block wf_auth_props); [done|by split; try constructor|apply wp_auth_prop|].
    intros st s'' Hst Hs''. by wp_go.
  - by wp_go; split_and!; try split; try constructor.
Qed.

Lemma default_wf {A} (P : A -> Prop) d o : P d -> opt_wf P o -> P (default d o).
Proof. by destruct o. Qed.

Lemma wp_ConnectAck s : u8s s -> wp ConnectAck_decode s (fun a _ => wf_connack a).
Proof.
  intros Hs. unfold ConnectAck_decode. apply wp_bind, wp_ensure_remaining. intros Hlen. wp_go.
  destruct s as [|b [|c s]]; try done.
  do 2 (apply Forall_cons in Hs as [_ Hs]).
  apply wp_get_u8; [done|]. intros ? ? [= <- <-]. wp_go. apply V3Proofs.wp_ok_or. intros flags _.
  wp_go. apply wp_get_u8; [done|]. intros ? ? [= <- <-]. wp_go. apply wp_lift_enum. intros r.
  eapply (wp_block wf_connack_props); [done|by split; try constructor|apply wp_connect_ack_prop|].
  intros st s' [] Hs'. wp_go. split; cbn; try done; by apply default_wf.
Qed.

Lemma wp_publish_properties s (Q : PublishProperties -> bytes -> Prop) :
  u8s s -> (forall p s', wf_props p -> u8s s' -> Q p s') -> wp parse_publish_properties s Q.
Proof.
  intros Hs HQ. eapply (wp_block wf_publish_props);
    [done|by split; try constructor|apply wp_publish_prop|].
  intros st s' [] Hs'. wp_go. apply HQ; [by split|done].
Qed.

Lemma wp_Publish flags s : u8s s -> wp (Publish_decode flags) s (fun p _ => wf_publish p).
Proof.
  intros Hs. unfold Publish_decode. wp_go. wp_wire ByteString_ok. wp_go.
  apply V3Proofs.wp_lift_QoS. intros q _. wp_go.
  - apply wp_publish_properties; [done|]. intros p s' Hp Hs'. wp_go. unfold wp, take_rest; simpl.
    match goal with H : bool_decide _ = true |- _ => apply bool_decide_eq_true in H; subst end.
    by split.
  - wp_wire NonZeroU16_ok. wp_go. apply wp_publish_properties; [done|]. intros p s' Hp Hs'. wp_go.
    unfold wp, take_rest; simpl.
    match goal with H : bool_decide _ = false |- _ => apply bool_decide_eq_false in H end.
    split; simpl; try done. destruct q; [done|eauto..].
Qed.

Lemma wp_last_will flags s :
  u8s s -> wp (decode_last_will flags) s (fun w s' => wf_will w /\ u8s s').
Proof.
  intros Hs. eapply (wp_block wf_will_props);
    [done|by split; try constructor|apply wp_will_prop|].
  intros st s' [] Hs'. wp_go. wp_wire ByteString_ok. wp_go. wp_wire Bytes_ok. wp_go.
  apply V3Proofs.wp_lift_QoS. intros q _. wp_go. split; [by split|done].
Qed.

(** The name, the level, the flags and the keep alive are in the ten bytes
    checked at the start. *)
Lemma wp_connect_header {A} (k : Z -> Z -> io DecodeError A) s (Q : A -> bytes -> Prop) :
  u8s s ->
  (forall flags ka s', u8s s' -> u16 ka -> wp (k flags ka) s' Q) ->
  wp (ensure_remaining 10 InvalidLength ;;;
      let! n := get_u16 in
      let! is_mqtt := V3.and_then (n =? 4) (V3.slice_eq 4 MQTT) in
      ensure is_mqtt InvalidProtocol ;;;
      advance 4 ;;;
      let! level := get_u8 in
      ensure (level =? MQTT_LEVEL_5) UnsupportedProtocolLevel ;;;
      let! b := get_u8 in
      let! flags := V3.ok_or (ConnectFlags.from_bits b) ConnectReservedFlagSet in
      let! keep_alive := get_u16 in
      k flags keep_alive) s Q.
Proof.
  intros Hs Hk. apply wp_bind, wp_ensure_remaining. intros Hlen. wp_go.
  do 10 (destruct s as [|? s]; [done|]). clear Hlen.
  do 2 (apply Forall_cons in Hs as [_ Hs]). unfold wp at 1. cbn [get_u16]. wp_go.
  apply V3Proofs.wp_and_then; [|apply wp_bind, wp_ensure; done]. intros _.
  apply V3Proofs.wp_slice_eq; [unfold len; simpl; lia|]. intros bm. wp_go.
  apply wp_advance; [unfold len; simpl; lia|].
  change (Z.to_nat 4) with 4%nat. cbn [drop].
  do 6 apply Forall_cons in Hs as [_ Hs]. wp_go.
  apply wp_get_u8; [done|]. intros ? ? [= <- <-]. wp_go.
  apply wp_get_u8; [done|]. intros ? ? [= <- <-]. wp_go.
  apply V3Proofs.wp_ok_or. intros flags _. wp_go. unfold wp at 1. cbn [get_u16].
  apply Forall_cons in Hs as [? Hs]. apply Forall_cons in Hs as [? Hs]. apply Hk; [done|].
  unfold is_u in *. change (2 ^ 8) with 256 in *. change (2 ^ 16) with 65536. lia.
Qed.

Lemma wp_Connect s : u8s s -> wp Connect_decode s (fun c _ => wf_connect c).
Proof.
  intros Hs. apply wp_connect_header; [done|]. intros flags ka s' Hs' Hka.
  eapply (wp_block wf_connect_props); [done|by split; try constructor|apply wp_connect_prop|].
  intros st s2 [] Hs2. wp_go. wp_wire ByteString_ok. wp_go.
  eapply wp_mono; [|apply V3Proofs.wp_decode_if; [done|intros _; by apply wp_last_will]].
  intros will s4 [? ?]. wp_go.
  eapply wp_mono; [|apply (V3Proofs.wp_decode_if _ _ _ wf_str); [done|intros _]].
  2: { wp_wire ByteString_ok. done. }
  intros user s5 [? ?]. wp_go.
  eapply wp_mono; [|apply (V3Proofs.wp_decode_if _ _ _ wf_bytes); [done|intros _]].
  2: { wp_wire Bytes_ok. done. }
  intros pass s6 [? ?]. wp_go. split; cbn; try done; try (by apply default_wf).
  match goal with H : (negb _ || _) = true |- _ => apply orb_true_iff in H as [H|H] end;
    [left; by intros ->|by right].
Qed.

Lemma wp_v5_decode_body fb s : u8s s -> wp (decode_body fb) s (fun p _ => wf_packet p).
Proof.
  intros Hs. unfold decode_body.
  repeat match goal with
  | |- wp (if ?c then _ else _) _ _ => destruct c
  end; try (by wp_go); apply (wp_fmap _ _ _ wf_packet).
  - by apply wp_Publish.
  - by apply wp_PublishAck.
  - by apply wp_Subscribe.
  - apply (wp_status_ack mkSubscribeAck _ (fun x => wf_packet (PSubscribeAck x))); [done|].
    by intros.
  - by apply wp_Unsubscribe.
  - apply (wp_status_ack mkUnsubscribeAck _ (fun x => wf_packet (PUnsubscribeAck x))); [done|].
    by intros.
  - by apply wp_Connect.
  - by apply wp_ConnectAck.
  - by apply wp_Disconnect.
  - by apply wp_Auth.
  - by apply wp_PublishAck.
  - by apply wp_PublishAck2.
  - by apply wp_PublishAck2.
Qed.

(** C26. Safety of the v5 decoder: on every byte sequence and type byte
    [decode_packet] returns (it neither panics nor loops), and a decoded
    packet is well formed: identifiers are non zero, subscription
    identifiers fit a variable length integer, every string is valid
    UTF-8 and fits its length prefix, every integer property has its
    width, and a packet identifier is there exactly when the quality of
    service asks for one. *)
Theorem v5_decode_packet_safe (src : bytes) (fb : Z) :
  u8s src ->
  match decode_packet src fb with
  | Ok p => wf_packet p
  | Err _ => True
  | Panic | Diverged => False
  end.
Proof.
  intros Hs. pose proof (wp_v5_decode_body fb src Hs) as H. unfold wp in H.
  unfold decode_packet. by destruct (decode_body fb src) as [[] ?].
Qed.

(** A DISCONNECT with a session expiry of ten seconds. *)
Definition sample_disconnect_bytes : bytes := [0; 5; 17; 0; 0; 0; 10].

Lemma v5_decode_packet_safe_witness :
  u8s sample_disconnect_bytes /\
  decode_packet sample_disconnect_bytes packet_type.DISCONNECT =
    Ok (PDisconnect (mkDisconnect DisconnectReasonCodeM.NormalDisconnection (Some 10) None None [])) /\
  wf_packet (PDisconnect (mkDisconnect DisconnectReasonCodeM.NormalDisconnection (Some 10) None None [])).
Proof.
  assert (Hs : u8s sample_disconnect_bytes) by (repeat constructor; done).
  split_and!; [done|reflexivity|].
  exact (v5_decode_packet_safe sample_disconnect_bytes packet_type.DISCONNECT Hs).
Defined.
End V5Safe.
