(* ===== verification/CodecV5Proofs.v ===== *)
(** * Properties of the MQTT 5 packet codec

    The round trip under a size limit, what the limit makes the encoder
    leave out, and the limits for which the size computation underflows. *)

From stdpp Require Import prelude list strings.
From Stdlib Require Import ZArith Lia.
From S2P Require Import Prelude CodecTypes CodecUtils CodecV3 CodecV3Proofs CodecV5Types.
From S2P Require Import CodecV5 CodecV5Lemmas CodecV5Format CodecV5Encode CodecV5Decode.

Local Open Scope Z_scope.

Module V5Proofs.
Import V5 V5Codec V5Lemmas V5Format V5Encode V5Decode.

(** ** Trimmed packets *)

Lemma fit_wf_diag ups r l : wf_diag ups r -> wf_diag (fit ups r l).1 (fit ups r l).2.
Proof. intros [? ?]. by apply fit_wf. Qed.

Lemma trim_wf p limit : wf_packet p -> wf_packet (trim p limit).
Proof.
  destruct p; cbn [wf_packet trim set_diag pa_packet_id pa_properties pa_reason_string
    pa2_packet_id pa2_properties pa2_reason_string sa_packet_id sa_properties sa_reason_string
    ua_packet_id ua_properties ua_reason_string d_session_expiry_interval_secs d_server_reference
    d_user_properties d_reason_string a_auth_method a_auth_data a_user_properties
    a_reason_string]; try done; try (intros [? ?]; split; [done|by apply fit_ack_wf]);
    try (intros (? & ? & ?); split_and!; [done..|by apply fit_wf_diag]).
  intros []. assert (Hd : wf_diag (ca_user_properties a) (ca_reason_string a)) by done.
  apply (fit_wf_diag _ _ (reduce_limit limit (2 + 4 + ConnectAck_prop_len a))) in Hd as [? ?].
  by split.
Qed.

Lemma fit_ack_all ups r l :
  len (diag_image (ups, r)) + 4 <= l -> fit_ack ups r l = (ups, r).
Proof.
  intros H. pose proof (len_nonneg (diag_image (ups, r))). unfold fit_ack.
  rewrite (proj2 (Z.ltb_ge _ _)) by lia. apply fit_all. lia.
Qed.

Lemma reduce_limit_ge l r : r <= l -> reduce_limit l r = l - r.
Proof. intros H. unfold reduce_limit. by rewrite (proj2 (Z.ltb_ge _ _)). Qed.

(** A packet that fits with room for the reserved length bytes is sent
    as it is. *)
Lemma trim_id p limit :
  wf_packet p -> u32 limit -> len (body_image p) + 7 <= limit -> trim p limit = p.
Proof.
  intros Hwf [Hl0 Hl] Hb.
  destruct p as [c|a|p|a|a|a|a|s|a|u|a| | |d|a]; try done; unfold trim;
    cbn [body_image] in Hb; unfold ack_image in Hb; rewrite !len_app in Hb;
    match type of Hb with context [block ?w] => pose proof (block_len_ge w) end;
    pose_lens Hb; rewrite ?len_fmap in *;
    change (len (be16 _)) with 2 in *; change (len [_]) with 1 in *;
    change (len [_; _]) with 2 in *;
    rewrite ?wrap_small by (unfold is_u; lia).
  - rewrite ConnectAck_prop_len_image by apply Hwf. rewrite (len_app (connack_props_image a)) in *.
    pose proof (len_nonneg (diag_image (ca_user_properties a, ca_reason_string a))).
    rewrite reduce_limit_ge, fit_all by lia. by destruct a.
  - rewrite fit_ack_all by lia. by destruct a.
  - rewrite fit_ack_all by lia. by destruct a.
  - rewrite fit_ack_all by lia. by destruct a.
  - rewrite fit_ack_all by lia. by destruct a.
  - rewrite fit_ack_all by lia. by destruct a.
  - pose proof (len_nonneg (diag_image (ua_properties a, ua_reason_string a))).
    rewrite reduce_limit_ge, fit_ack_all by lia. by destruct a.
  - pose proof (len_nonneg (diag_image (d_user_properties d, d_reason_string d))).
    rewrite Disconnect_prop_len_image, !len_app in *.
    rewrite reduce_limit_ge, fit_all by lia. by destruct d.
  - pose proof (len_nonneg (diag_image (a_user_properties a, a_reason_string a))).
    rewrite Auth_prop_len_image, !len_app in *.
    rewrite reduce_limit_ge, fit_all by lia. by destruct a.
Qed.

(** ** Properties *)

(** C3. Round trip of the v5 codec under a size limit: when
    [encoded_size] announces [n] for a well-formed packet and [n] fits the
    remaining length field, [encode] called with [n] appends the packet's
    image (type byte, remaining length, body) to the buffer, the body has
    exactly the announced [n] bytes, and [decode_packet] on the body gives
    the packet back with the diagnostics (user properties, reason string)
    that fit the limit; all of them when the packet is at least 7 bytes
    below it. The decoder always fills the properties of a PUBLISH. *)
Theorem v5_encode_decode_roundtrip (oc : bool) (p : Packet) (limit n : Z) (dst : bytes) :
  wf_packet p -> u32 limit -> Packet_encoded_size oc p limit = Ok n -> n <= MAX_PACKET_SIZE ->
  Packet_encode oc p n dst = (Ok tt, dst ++ packet_image (trim p limit)) /\
  len (body_image (trim p limit)) = n /\
  decode_packet (body_image (trim p limit)) (first_byte_of p) = Ok (normalize (trim p limit)) /\
  (len (body_image p) + 7 <= limit -> trim p limit = p).
Proof.
  intros Hwf Hl Hn Hm. pose proof (encoded_size_image oc p limit n Hwf Hl Hn Hm) as Hlen.
  split_and!; [by apply Packet_encode_writes|done| |by apply trim_id].
  rewrite <- (trim_first_byte p limit). apply v5_decode_packet_image; [by apply trim_wf|lia].
Qed.

(** A PUBACK whose reason string does not fit 20 bytes, and one that fits. *)
Definition sample_puback (reason : string) : Packet :=
  PPublishAck (mkPublishAck 7 PublishAckReasonM.QuotaExceeded [] (Some (bytes_of_string reason))).

Lemma sample_puback_wf r :
  from_utf8 (bytes_of_string r) = true -> Forall u8 (bytes_of_string r) ->
  len (bytes_of_string r) <= U16_MAX -> wf_packet (sample_puback r).
Proof. intros. split; [done|]. split; [constructor|]. by split. Qed.

Lemma v5_encode_decode_roundtrip_witness :
  wf_packet (sample_puback "slow down") /\
  Packet_encoded_size true (sample_puback "slow down") 20 = Ok 4 /\
  Packet_encode true (sample_puback "slow down") 4 [] = (Ok tt, [64; 4; 0; 7; 151; 0]) /\
  trim (sample_puback "no") 20 = sample_puback "no" /\
  Packet_encode true (sample_puback "no") 9 [] =
    (Ok tt, [64; 9; 0; 7; 151; 5; 31; 0; 2; 110; 111]).
Proof.
  assert (Hwf : wf_packet (sample_puback "slow down"))
    by (apply sample_puback_wf; [done|repeat constructor; done|done]).
  assert (Hwf2 : wf_packet (sample_puback "no"))
    by (apply sample_puback_wf; [done|repeat constructor; done|done]).
  split_and!; [done|reflexivity| |reflexivity|].
  - apply (v5_encode_decode_roundtrip true (sample_puback "slow down") 20 4 []); done.
  - apply (v5_encode_decode_roundtrip true (sample_puback "no") 20 9 []); done.
Defined.

(** From [enough] on the size is computed without a panic. *)
Lemma size_defined oc p limit :
  enough p limit -> limit <= U32_MAX -> exists n, Packet_encoded_size oc p limit = Ok n.
Proof.
  intros He Hm. destruct p as [c|a|p|a|a|a|a|s|a|u|a| | |d|a]; cbn [Packet_encoded_size enough] in *;
    try (by eexists);
    try (eexists; unfold PublishAck_encoded_size, PublishAck2_encoded_size, HEADER_LEN;
         rewrite sub32_ok by lia; cbn [obind]; rewrite sub32_ok by lia; done).
  unfold SubscribeAck_encoded_size. pose proof (len_nonneg (sa_status a)).
  rewrite (proj2 (Z.ltb_ge _ _)) by lia. eexists. rewrite sub32_ok by lia. cbn [obind].
  rewrite wrap_small by (unfold is_u, U32_MAX in *; lia). by rewrite sub32_ok by lia.
Qed.

Lemma ack_size_enough oc limit ups r :
  7 <= limit <= MAX_PACKET_SIZE ->
  exists n, (let? l := sub32 oc limit HEADER_LEN in let? l := sub32 oc l 4 in
             Ok (HEADER_LEN + ack_props_encoded_size ups r l)) = Ok n /\ n <= limit.
Proof.
  intros Hl. unfold HEADER_LEN. rewrite sub32_ok by lia. cbn [obind].
  rewrite sub32_ok by lia. cbn [obind]. eexists. split; [done|].
  pose proof (ack_props_size_bound ups r (limit - (2 + 1) - 4) ltac:(lia)). lia.
Qed.

Lemma status_size_bound ups r limit k :
  0 <= k -> 3 + k <= limit <= MAX_PACKET_SIZE ->
  2 + ack_props_encoded_size ups r (limit - 2 - k) + k <= limit.
Proof.
  intros Hk Hl. pose proof (ack_props_size_bound ups r (limit - 2 - k) ltac:(lia)). lia.
Qed.

Lemma ConnectAck_size_enough a limit :
  wf_connack a -> limit <= MAX_PACKET_SIZE -> len (body_image (bare (PConnectAck a))) <= limit ->
  exists n, Ok (E := EncodeError) (ConnectAck_encoded_size a limit) = Ok n /\ n <= limit.
Proof.
  intros Hwf Hm Hb. eexists. split; [done|]. unfold ConnectAck_encoded_size, bare, set_diag in *.
  cbn [body_image ca_user_properties ca_reason_string ca_session_present ca_reason_code fst snd] in Hb.
  match type of Hb with context [connack_props_image ?x ++ _] =>
    change (connack_props_image x) with (connack_props_image a) in Hb end.
  change (diag_image ([], None)) with (@nil Z) in Hb. rewrite app_nil_r, len_app in Hb.
  change (len [_; _]) with 2 in Hb. rewrite ConnectAck_prop_len_image by apply Hwf.
  destruct (block_size (connack_props_image a)) as [Hs _]; [right; lia|].
  apply (diag_size_bound 2); [lia|apply len_nonneg|done|lia].
Qed.

Lemma Disconnect_size_enough d limit :
  limit <= MAX_PACKET_SIZE -> len (body_image (bare (PDisconnect d))) <= limit ->
  exists n, Ok (E := EncodeError) (Disconnect_encoded_size d limit) = Ok n /\ n <= limit.
Proof.
  intros Hm Hb. eexists. split; [done|]. unfold Disconnect_encoded_size, bare, set_diag in *.
  cbn [body_image d_reason_code d_session_expiry_interval_secs d_server_reference
    d_reason_string d_user_properties fst snd] in Hb.
  change (diag_image ([], None)) with (@nil Z) in Hb. rewrite app_nil_r, len_app in Hb.
  change (len [_]) with 1 in Hb. rewrite Disconnect_prop_len_image.
  set (w := _ ++ _) in *. destruct (block_size w) as [Hs _]; [right; lia|].
  replace (len w + 1 + 4) with (1 + 4 + len w) by lia.
  apply (diag_size_bound 1); [lia|apply len_nonneg|done|lia].
Qed.

Lemma Auth_size_enough a limit :
  limit <= MAX_PACKET_SIZE -> len (body_image (bare (PAuth a))) <= limit ->
  exists n, Ok (E := EncodeError) (Auth_encoded_size a limit) = Ok n /\ n <= limit.
Proof.
  intros Hm Hb. eexists. split; [done|]. unfold Auth_encoded_size, bare, set_diag in *.
  cbn [body_image a_reason_code a_auth_method a_auth_data a_reason_string a_user_properties
    fst snd] in Hb.
  change (diag_image ([], None)) with (@nil Z) in Hb. rewrite app_nil_r, len_app in Hb.
  change (len [_]) with 1 in Hb. rewrite Auth_prop_len_image.
  set (w := _ ++ _) in *. destruct (block_size w) as [Hs _]; [right; lia|].
  replace (len w + 1 + 4) with (1 + 4 + len w) by lia.
  apply (diag_size_bound 1); [lia|apply len_nonneg|done|lia].
Qed.

(** The empty property block of an acknowledgement. *)
Lemma bare_status_len {A} `{PrimEnum A} id (l : list A) :
  len (be16 id ++ block (diag_image ([], None)) ++ (to_u8 <$> l)) = 3 + len l.
Proof.
  rewrite !len_app, len_fmap. change (len (be16 id)) with 2.
  change (len (block (diag_image ([], None)))) with 1. lia.
Qed.

Lemma SubscribeAck_size_enough oc a limit :
  enough (PSubscribeAck a) limit -> limit <= MAX_PACKET_SIZE ->
  len (body_image (bare (PSubscribeAck a))) <= limit ->
  exists n, SubscribeAck_encoded_size oc a limit = Ok n /\ n <= limit.
Proof.
  intros He Hm Hb. cbn [bare set_diag body_image sa_packet_id sa_properties sa_reason_string
    sa_status fst snd enough] in *. rewrite bare_status_len in Hb.
  pose proof (len_nonneg (sa_status a)). unfold SubscribeAck_encoded_size.
  rewrite (proj2 (Z.ltb_ge _ _)) by (unfold U32_MAX, MAX_PACKET_SIZE in *; lia).
  rewrite sub32_ok by lia. cbn [obind].
  rewrite wrap_small by (unfold is_u, MAX_PACKET_SIZE in *; lia).
  rewrite sub32_ok by lia. cbn [obind]. eexists. split; [done|]. apply status_size_bound; lia.
Qed.

Lemma UnsubscribeAck_size_enough a limit :
  limit <= MAX_PACKET_SIZE -> len (body_image (bare (PUnsubscribeAck a))) <= limit ->
  exists n, Ok (E := EncodeError) (UnsubscribeAck_encoded_size a limit) = Ok n /\ n <= limit.
Proof.
  intros Hm Hb. cbn [bare set_diag body_image ua_packet_id ua_properties ua_reason_string
    ua_status fst snd] in *. rewrite bare_status_len in Hb.
  pose proof (len_nonneg (ua_status a)). eexists. split; [done|].
  unfold UnsubscribeAck_encoded_size. rewrite reduce_limit_ge by lia.
  pose proof (status_size_bound (ua_properties a) (ua_reason_string a) limit (len (ua_status a))).
  replace (limit - (2 + len (ua_status a))) with (limit - 2 - len (ua_status a)) by lia. lia.
Qed.

Lemma bare_size_enough (oc : bool) (p : Packet) (limit : Z) :
  wf_packet p -> enough p limit -> limit <= MAX_PACKET_SIZE ->
  len (body_image (bare p)) <= limit ->
  exists n, Packet_encoded_size oc p limit = Ok n /\ n <= limit.
Proof.
  intros Hwf He Hm Hb.
  destruct p as [c|a|p|a|a|a|a|s|a|u|a| | |d|a]; cbn [Packet_encoded_size];
    try (apply ack_size_enough; cbn in He; lia); cbn [bare set_diag] in Hb.
  - eexists. split; [done|]. rewrite <- Connect_size; [done|right; lia].
  - by apply ConnectAck_size_enough.
  - eexists. split; [done|]. rewrite <- Publish_size; [done|done|right; lia].
  - eexists. split; [done|]. rewrite <- Subscribe_size; [done|done|right; lia].
  - by apply SubscribeAck_size_enough.
  - eexists. split; [done|]. rewrite <- Unsubscribe_size; [done|right; lia].
  - by apply UnsubscribeAck_size_enough.
  - exists 0. split; [done|exact Hb].
  - exists 0. split; [done|exact Hb].
  - by apply Disconnect_size_enough.
  - by apply Auth_size_enough.
Qed.


(** Trimming is enough: a packet whose body fits the limit without
    its diagnostics gets a size within the limit, so that only its
    mandatory content can make the encoder refuse it. The acknowledgements
    need a limit for which their size computation does not underflow. *)
Theorem v5_trimming_sufficient (oc : bool) (p : Packet) (limit : Z) :
  wf_packet p -> enough p limit -> limit <= MAX_PACKET_SIZE ->
  len (body_image (bare p)) <= limit ->
  exists n, Packet_encoded_size oc p limit = Ok n /\ n <= limit.
Proof. apply bare_size_enough. Qed.

Lemma v5_trimming_sufficient_witness :
  wf_packet (sample_puback "slow down") /\ enough (sample_puback "slow down") 8 /\
  len (body_image (bare (sample_puback "slow down"))) <= 8 /\
  exists n, Packet_encoded_size true (sample_puback "slow down") 8 = Ok n /\ n <= 8.
Proof.
  assert (Hwf : wf_packet (sample_puback "slow down"))
    by (apply sample_puback_wf; [done|repeat constructor; done|done]).
  split_and!; [done|done|done|].
  apply (v5_trimming_sufficient true (sample_puback "slow down") 8); done.
Defined.

(** Limits below 7: the size of a PUBACK, PUBREC, PUBREL or PUBCOMP
    computes [limit - 3 - 4] on [u32]. A build with overflow checks
    panics; without them the limit wraps to the top of [u32] and the
    diagnostics are not limited at all. *)
Theorem v5_ack_limit_underflow (a : PublishAck) (limit : Z) :
  0 <= limit < 7 ->
  len (block (diag_image (pa_properties a, pa_reason_string a))) <= MAX_PACKET_SIZE ->
  PublishAck_encoded_size true a limit = Panic /\
  PublishAck_encoded_size false a limit =
    Ok (3 + len (block (diag_image (pa_properties a, pa_reason_string a)))).
Proof.
  intros Hl Hd. unfold PublishAck_encoded_size, HEADER_LEN. change (2 + 1) with 3. split.
  - unfold sub32. destruct (Z.ltb_spec limit 3); [done|]. cbn [obind].
    by rewrite (proj2 (Z.ltb_lt _ _)) by lia.
  - assert (Hs : exists l, sub32 false limit 3 = Ok l /\ sub32 false l 4 = Ok (2 ^ 32 + limit - 7)).
    { unfold sub32, wrap. destruct (Z.ltb_spec limit 3).
      - eexists. split; [done|]. rewrite <- (Z.mod_unique (limit - 3) (2 ^ 32) (-1) (2 ^ 32 + limit - 3)) by lia.
        rewrite (proj2 (Z.ltb_ge _ _)) by lia. f_equal. lia.
      - eexists. split; [done|]. rewrite (proj2 (Z.ltb_lt _ _)) by lia. f_equal.
        symmetry. apply (Z.mod_unique _ _ (-1)); lia. }
    destruct Hs as (l & -> & Hl2). cbn [obind]. rewrite Hl2. cbn [obind].
    pose proof (block_len_ge (diag_image (pa_properties a, pa_reason_string a))).
    set (w := 2 ^ 32 + limit - 7) in *.
    assert (Hw : 4294967289 <= w) by (unfold w; lia). clearbody w.
    unfold ack_props_encoded_size. rewrite (proj2 (Z.ltb_ge _ _)) by lia.
    rewrite encoded_size_opt_props_fit, fit_all by (unfold MAX_PACKET_SIZE in *; lia).
    destruct (block_size (diag_image (pa_properties a, pa_reason_string a))) as [<- _];
      [by right|done].
Qed.

Lemma v5_ack_limit_underflow_witness :
  PublishAck_encoded_size true
    (mkPublishAck 7 PublishAckReasonM.QuotaExceeded [] (Some (bytes_of_string "no"))) 6 = Panic /\
  PublishAck_encoded_size false
    (mkPublishAck 7 PublishAckReasonM.QuotaExceeded [] (Some (bytes_of_string "no"))) 6 = Ok 9.
Proof.
  apply (v5_ack_limit_underflow
    (mkPublishAck 7 PublishAckReasonM.QuotaExceeded [] (Some (bytes_of_string "no"))) 6); done.
Defined.
End V5Proofs.
