(* ===== verification/CodecMqtt.v ===== *)
(** * The v5 codec and the codec of a connection

    [codec/v5/codec.rs]: framing (the loop of [CodecFraming]), the limits
    in both directions and the negotiated flags. [codec/mod.rs]: the
    codec of a connection, which detects the version first and then is
    one of the two codecs. *)

From stdpp Require Import prelude list strings.
From Stdlib Require Import ZArith Lia.
From S2P Require Import Prelude CodecTypes CodecUtils CodecV3 CodecV3Proofs CodecFraming.
From S2P Require Import CodecVersion CodecV5Types CodecV5 CodecV5Lemmas CodecV5Format.
From S2P Require Import CodecV5Encode CodecV5Decode CodecV5Safe CodecV5Proofs.

Local Open Scope Z_scope.

Module CodecFlags.
Definition NO_PROBLEM_INFO : Z := 1.
Definition NO_RETAIN : Z := 2.
Definition NO_SUB_IDS : Z := 8.

Definition contains (flags f : Z) : bool := Z.land flags f =? f.

(** [flags.set(f, value)]: insert or remove. *)
Definition set (flags f : Z) (value : bool) : Z :=
  if value then Z.lor flags f else Z.ldiff flags f.
End CodecFlags.

(** [v5::Codec]. *)
Record Codec5 : Type := mkCodec5 {
  state5 : DecodeState;
  max_in_size : Z;
  max_out_size : Z;
  flags : Z;
}.

Module V5Framed.
Import V5 V5Codec.

Definition Codec5_new (max_in_size max_out_size : Z) : Codec5 :=
  mkCodec5 FrameHeader max_in_size max_out_size 0.
Definition Codec5_default : Codec5 := Codec5_new 0 0.

Definition set_max_inbound_size (c : Codec5) (size : Z) : Codec5 :=
  mkCodec5 (state5 c) size (max_out_size c) (flags c).

(** Room for the fixed header is set aside. *)
Definition set_max_outbound_size (c : Codec5) (size : Z) : Codec5 :=
  let size := if 5 <? size then size - 5 else size in
  mkCodec5 (state5 c) (max_in_size c) size (flags c).

Definition retain_available (c : Codec5) : bool :=
  negb (CodecFlags.contains (flags c) CodecFlags.NO_RETAIN).
Definition sub_ids_available (c : Codec5) : bool :=
  negb (CodecFlags.contains (flags c) CodecFlags.NO_SUB_IDS).

Definition set_flags (c : Codec5) (f : Z) : Codec5 :=
  mkCodec5 (state5 c) (max_in_size c) (max_out_size c) f.
Definition set_retain_available (c : Codec5) (val : bool) : Codec5 :=
  set_flags c (CodecFlags.set (flags c) CodecFlags.NO_RETAIN (negb val)).
Definition set_sub_ids_available (c : Codec5) (val : bool) : Codec5 :=
  set_flags c (CodecFlags.set (flags c) CodecFlags.NO_SUB_IDS (negb val)).

(** The part of the codec the framing loop works on. *)
Definition frame_codec (c : Codec5) : Codec := mkCodec (state5 c) (max_in_size c).

(** The flags after a packet was decoded. *)
Definition note_flags (f : Z) (packet : Packet) : Z :=
  match packet with
  | PConnect pkt => CodecFlags.set f CodecFlags.NO_PROBLEM_INFO (negb (c_request_problem_info pkt))
  | _ => f
  end.

(** [Decoder for v5::Codec]: the loop is that of the v3 codec. *)
Definition v5_decode (c : Codec5) (src : bytes)
    : outcome DecodeError (option (Packet * Z)) * Codec5 * bytes :=
  let '(r, fc, src) := codec_decode decode_packet (frame_codec c) src in
  let f := match r with Ok (Some (packet, _)) => note_flags (flags c) packet | _ => flags c end in
  (r, mkCodec5 (state fc) (max_in_size c) (max_out_size c) f, src).

(** The diagnostics are dropped for a client that does not want them. *)
Definition clear_problem_info (item : Packet) : Packet :=
  match item with
  | PPublishAck pkt => PPublishAck (mkPublishAck (pa_packet_id pkt) (pa_reason_code pkt) [] None)
  | PPublishReceived pkt =>
      PPublishReceived (mkPublishAck (pa_packet_id pkt) (pa_reason_code pkt) [] None)
  | PPublishRelease pkt =>
      PPublishRelease (mkPublishAck2 (pa2_packet_id pkt) (pa2_reason_code pkt) [] None)
  | PPublishComplete pkt =>
      PPublishComplete (mkPublishAck2 (pa2_packet_id pkt) (pa2_reason_code pkt) [] None)
  | PSubscribe pkt =>
      PSubscribe (mkSubscribe (s_packet_id pkt) (s_id pkt) [] (s_topic_filters pkt))
  | PSubscribeAck pkt => PSubscribeAck (mkSubscribeAck (sa_packet_id pkt) [] None (sa_status pkt))
  | PUnsubscribe pkt => PUnsubscribe (mkUnsubscribe (u_packet_id pkt) [] (u_topic_filters pkt))
  | PUnsubscribeAck pkt =>
      PUnsubscribeAck (mkUnsubscribeAck (ua_packet_id pkt) [] None (ua_status pkt))
  | PAuth pkt =>
      PAuth (mkAuth (a_reason_code pkt) (a_auth_method pkt) (a_auth_data pkt) None [])
  | _ => item
  end.

Definition prepare (c : Codec5) (item : Packet) : Packet :=
  if CodecFlags.contains (flags c) CodecFlags.NO_PROBLEM_INFO then clear_problem_info item
  else item.

Definition out_limit (c : Codec5) : Z :=
  if negb (max_out_size c =? 0) then max_out_size c else CodecTypes.MAX_PACKET_SIZE.

(** [Encoder<Packet> for v5::Codec]. *)
Definition v5_encode (oc : bool) (c : Codec5) (item : Packet) : io EncodeError unit :=
  let item := prepare c item in
  let max_size := out_limit c in
  let! content_size := lift (Packet_encoded_size oc item max_size) in
  ensure (negb (max_size <? content_size))
    (EncodeError.OverMaxPacketSize (wrap 32 content_size) max_size) ;;;
  Packet_encode oc item (wrap 32 content_size).

(** The transport's loop around the v5 decoder, as for the v3 one. *)
Fixpoint v5_drain_loop (fuel : nat) (c : Codec5) (src : bytes)
    : list (Packet * Z) * outcome DecodeError unit * Codec5 * bytes :=
  match fuel with
  | O => ([], Diverged, c, src)
  | S fuel =>
      match v5_decode c src with
      | (Ok (Some x), c, src) =>
          let '(xs, r, c, src) := v5_drain_loop fuel c src in (x :: xs, r, c, src)
      | (Ok None, c, src) => ([], Ok tt, c, src)
      | (Err e, c, src) => ([], Err e, c, src)
      | (Panic, c, src) => ([], Panic, c, src)
      | (Diverged, c, src) => ([], Diverged, c, src)
      end
  end.

Definition v5_drain (c : Codec5) (src : bytes) := v5_drain_loop (length src + 3) c src.

Fixpoint v5_feed (c : Codec5) (buf : bytes) (chunks : list bytes)
    : list (Packet * Z) * outcome DecodeError unit * Codec5 * bytes :=
  match chunks with
  | [] => ([], Ok tt, c, buf)
  | chunk :: chunks =>
      match v5_drain c (buf ++ chunk) with
      | (xs, Ok _, c, buf) =>
          let '(ys, r, c, buf) := v5_feed c buf chunks in (xs ++ ys, r, c, buf)
      | stop => stop
      end
  end.

(** ** The framing of the v5 codec is that of the loop *)

(** The flags after the packets [xs]. *)
Definition flags_after (f : Z) (xs : list (Packet * Z)) : Z := foldl note_flags f (fst <$> xs).

Definition with_frames (c : Codec5) (xs : list (Packet * Z)) (fc : Codec) : Codec5 :=
  mkCodec5 (state fc) (max_in_size c) (max_out_size c) (flags_after (flags c) xs).

Lemma codec_decode_max {P} (dp : bytes -> Z -> outcome DecodeError P) fuel fc src :
  max_size (decode_loop dp fuel fc src).1.2 = max_size fc.
Proof.
  revert fc src. induction fuel as [|fuel IH]; intros fc src; [done|]. cbn [decode_loop].
  destruct (state fc) as [|h].
  - destruct (len src <? 2); [done|]. destruct src as [|b tail]; [done|].
    destruct (decode_variable_length tail) as [[[n k]|]|e| |]; try done.
    destruct (negb _ && _); [done|]. destruct (advance _ _) as [[] s']; try done.
    destruct (len s' <? n); [done|]. by rewrite IH.
  - destruct (len src <? remaining_length h); [done|].
    destruct (split_to _ _) as [[buf|e| |] s']; try done.
    by destruct (dp buf (first_byte h)).
Qed.

Lemma v5_decode_eq c src :
  v5_decode c src =
    let '(r, fc, src) := codec_decode decode_packet (frame_codec c) src in
    (r, with_frames c (match r with Ok (Some x) => [x] | _ => [] end) fc, src).
Proof.
  unfold v5_decode, with_frames, flags_after.
  by destruct (codec_decode _ _ _) as [[[[[p n]|]|e| |] fc] rest].
Qed.

Lemma v5_drain_loop_eq fuel c src :
  v5_drain_loop fuel c src =
    let '(xs, r, fc, rest) := drain_loop decode_packet fuel (frame_codec c) src in
    (xs, r, with_frames c xs fc, rest).
Proof.
  revert c src. induction fuel as [|fuel IH]; intros c src; simpl; [by destruct c|].
  rewrite v5_decode_eq. pose proof (codec_decode_max decode_packet 2 (frame_codec c) src) as Hmax.
  unfold codec_decode. destruct (decode_loop decode_packet 2 (frame_codec c) src)
    as [[[[x|]|e| |] fc] rest]; try done.
  rewrite IH. cbn [fst snd] in Hmax. cbn [frame_codec max_size] in Hmax.
  replace (frame_codec (with_frames c [x] fc)) with fc.
  2: { destruct fc as [st m]. unfold frame_codec. simpl in *. by subst. }
  by destruct (drain_loop decode_packet fuel fc rest) as [[[ys r] fc'] rest'].
Qed.

Lemma v5_drain_eq c src :
  v5_drain c src =
    let '(xs, r, fc, rest) := drain decode_packet (frame_codec c) src in
    (xs, r, with_frames c xs fc, rest).
Proof. apply v5_drain_loop_eq. Qed.

Lemma drain_loop_max {P} (dp : bytes -> Z -> outcome DecodeError P) fuel fc src :
  max_size (drain_loop dp fuel fc src).1.2 = max_size fc.
Proof.
  revert fc src. induction fuel as [|fuel IH]; intros fc src; [done|]. cbn [drain_loop].
  pose proof (codec_decode_max dp 2 fc src) as Hmax. unfold codec_decode.
  destruct (decode_loop dp 2 fc src) as [[[[x|]|e| |] fc'] rest]; try done.
  specialize (IH fc' rest). destruct (drain_loop dp fuel fc' rest) as [[[ys r] fc2] rest2].
  simpl in *. congruence.
Qed.

Lemma v5_feed_eq c buf chunks :
  v5_feed c buf chunks =
    let '(xs, r, fc, rest) := feed decode_packet (frame_codec c) buf chunks in
    (xs, r, with_frames c xs fc, rest).
Proof.
  revert c buf. induction chunks as [|ch chunks IH]; intros c buf; simpl; [by destruct c|].
  rewrite v5_drain_eq. 
  pose proof (drain_loop_max decode_packet (length (buf ++ ch) + 3) (frame_codec c) (buf ++ ch)) as Hmax.
  unfold drain. destruct (drain_loop decode_packet _ (frame_codec c) (buf ++ ch))
    as [[[xs [[]|e| |]] fc] rest]; try done.
  rewrite IH. cbn [fst snd frame_codec max_size] in Hmax.
  replace (frame_codec (with_frames c xs fc)) with fc.
  2: { destruct fc as [st m]. unfold frame_codec. simpl in *. by subst. }
  destruct (feed decode_packet fc rest chunks) as [[[ys r] fc'] rest'].
  unfold with_frames, flags_after. cbn [state5 max_in_size max_out_size flags].
  by rewrite fmap_app, foldl_app.
Qed.

Lemma v5_decode_packet_returns src fb : u8s src -> returns (decode_packet src fb).
Proof.
  intros Hs. eapply (wp_returns (decode_body fb) src). by apply V5Safe.wp_v5_decode_body.
Qed.

(** Chunking does not matter for the v5 codec: however the network
    cuts a byte stream into reads, the packets the decoder yields, the way
    it ends (waiting or with the error), its state and the negotiated
    flags are those of the whole stream read at once; nothing panics. *)
Theorem v5_chunking_irrelevant (c : Codec5) (chunks : list bytes) :
  state5 c = FrameHeader -> 0 <= max_in_size c -> u8s (concat chunks) ->
  exists xs r c' rest rest',
    v5_drain c (concat chunks) = (xs, r, c', rest) /\
    v5_feed c [] chunks = (xs, r, c', rest') /\
    returns r /\ (r = Ok tt -> rest' = rest) /\
    flags c' = flags_after (flags c) xs.
Proof.
  intros Hst Hm Hu. rewrite v5_feed_eq, v5_drain_eq.
  assert (Hwf : wf_codec (frame_codec c) []) by (split_and!; [constructor|done|by unfold codec_ok; simpl; rewrite Hst]).
  assert (Hwf' : wf_codec (frame_codec c) (concat chunks))
    by (split_and!; [done|done|by unfold codec_ok; simpl; rewrite Hst]).
  assert (Hdry : drain decode_packet (frame_codec c) [] = ([], Ok tt, frame_codec c, [])).
  { unfold frame_codec. by rewrite Hst. }
  pose proof (feed_concat decode_packet v5_decode_packet_returns (frame_codec c) [] chunks
                Hwf Hu Hdry) as H. simpl app in H.
  pose proof (drain_safe decode_packet v5_decode_packet_returns _ _ Hwf') as Hsafe.
  destruct (drain decode_packet (frame_codec c) (concat chunks)) as [[[xs r] fc] rest].
  destruct H as (rest' & -> & Hrest). eexists xs, r, _, rest, rest'. split_and!; try done.
  - by destruct r.
  - by intros ->.
Qed.

Lemma v5_chunking_irrelevant_witness :
  u8s (concat [[224]; [1; 4; 192]; [0]]) /\
  exists xs r c' rest rest',
    v5_drain Codec5_default (concat [[224]; [1; 4; 192]; [0]]) = (xs, r, c', rest) /\
    v5_feed Codec5_default [] [[224]; [1; 4; 192]; [0]] = (xs, r, c', rest') /\
    returns r /\ (r = Ok tt -> rest' = rest) /\ flags c' = flags_after (flags Codec5_default) xs.
Proof.
  assert (Hu : u8s (concat [[224]; [1; 4; 192]; [0]])) by (repeat constructor; done).
  split; [done|]. by apply (v5_chunking_irrelevant Codec5_default [[224]; [1; 4; 192]; [0]]).
Defined.

(** ** Encoding *)

Import V5Lemmas V5Format V5Encode V5Decode V5Proofs.

Lemma clear_wf p : wf_packet p -> wf_packet (clear_problem_info p).
Proof.
  destruct p; cbn [wf_packet clear_problem_info pa_packet_id pa_properties pa_reason_string
    pa2_packet_id pa2_properties pa2_reason_string sa_packet_id sa_properties sa_reason_string
    ua_packet_id ua_properties ua_reason_string s_packet_id s_id s_user_properties s_topic_filters
    u_packet_id u_user_properties u_topic_filters a_auth_method a_auth_data a_user_properties
    a_reason_string]; try done; unfold wf_diag; intros; destruct_and?; split_and!; try done;
    constructor.
Qed.

Lemma prepare_wf c p : wf_packet p -> wf_packet (prepare c p).
Proof. intros H. unfold prepare. case_match; [by apply clear_wf|done]. Qed.

Definition wf_out (c : Codec5) : Prop := 0 <= max_out_size c <= CodecTypes.MAX_PACKET_SIZE.

Lemma out_limit_bounds c : wf_out c -> 0 < out_limit c <= CodecTypes.MAX_PACKET_SIZE.
Proof.
  unfold wf_out, out_limit, CodecTypes.MAX_PACKET_SIZE. intros H.
  destruct (Z.eqb_spec (max_out_size c) 0); simpl; lia.
Qed.

(** What a call of the encoder does. *)
Lemma v5_encode_eq oc c p n dst :
  wf_packet p -> wf_out c -> Packet_encoded_size oc (prepare c p) (out_limit c) = Ok n ->
  v5_encode oc c p dst =
    if out_limit c <? n then (Err (EncodeError.OverMaxPacketSize (wrap 32 n) (out_limit c)), dst)
    else (Ok tt, dst ++ packet_image (trim (prepare c p) (out_limit c))).
Proof.
  intros Hwf Hout Hn. pose proof (out_limit_bounds c Hout) as Hl. apply (prepare_wf c) in Hwf.
  unfold v5_encode, bind at 1, lift. rewrite Hn.
  destruct (Z.ltb_spec (out_limit c) n); [done|]. cbn [negb]. unfold bind, ensure, ret.
  assert (Hu : u32 (out_limit c)) by (unfold is_u, CodecTypes.MAX_PACKET_SIZE in *; lia).
  assert (Hlen : len (body_image (trim (prepare c p) (out_limit c))) = n)
    by (by apply (encoded_size_image oc); [..|lia]).
  pose proof (len_nonneg (body_image (trim (prepare c p) (out_limit c)))).
  rewrite wrap_small by (unfold is_u, CodecTypes.MAX_PACKET_SIZE in *; lia).
  by apply Packet_encode_writes; [..|lia].
Qed.

Lemma packet_image_len p :
  len (packet_image p) <= 5 + len (body_image p).
Proof.
  unfold packet_image. rewrite !len_app. change (len [_]) with 1.
  pose proof (var_int_image_len 3 (len (body_image p))). lia.
Qed.

(** The client's maximum packet size is honoured. After
    [set_max_outbound_size size] with [size > 5], encoding a well-formed
    packet either appends at most [size] bytes to the output, fixed header
    included, or reports [OverMaxPacketSize] and leaves the output alone;
    the latter only when the body does not fit even without diagnostics.
    It never panics, from the limits on for which the size of an
    acknowledgement does not underflow. *)
Theorem v5_outbound_limit (oc : bool) (c : Codec5) (p : Packet) (size : Z) (dst : bytes) :
  wf_packet p -> 5 < size <= CodecTypes.MAX_PACKET_SIZE + 5 -> enough p (size - 5) ->
  match v5_encode oc (set_max_outbound_size c size) p dst with
  | (Ok _, dst') => exists w, dst' = dst ++ w /\ len w <= size
  | (Err e, dst') =>
      dst' = dst /\ size - 5 < len (body_image (bare (prepare c p))) /\
      exists n, e = EncodeError.OverMaxPacketSize n (size - 5)
  | (Panic, _) | (Diverged, _) => False
  end.
Proof.
  intros Hwf Hs He.
  assert (Hmax : max_out_size (set_max_outbound_size c size) = size - 5).
  { unfold set_max_outbound_size. simpl. by rewrite (proj2 (Z.ltb_lt _ _)) by lia. }
  assert (Hout : wf_out (set_max_outbound_size c size)) by (unfold wf_out; rewrite Hmax; lia).
  assert (Hlim : out_limit (set_max_outbound_size c size) = size - 5).
  { unfold out_limit. rewrite Hmax. by destruct (Z.eqb_spec (size - 5) 0); simpl; [lia|]. }
  assert (Hprep : prepare (set_max_outbound_size c size) p = prepare c p) by done.
  assert (Hen : enough (prepare c p) (size - 5))
    by (unfold prepare; case_match; [by destruct p|done]).
  destruct (size_defined oc (prepare c p) (size - 5)) as [n Hn];
    [done|unfold U32_MAX, CodecTypes.MAX_PACKET_SIZE in *; lia|].
  rewrite (v5_encode_eq oc _ p n) by (done || by rewrite Hlim, Hprep).
  rewrite Hlim, Hprep. destruct (Z.ltb_spec (size - 5) n) as [Hlt|Hge].
  - split_and!; [done| |by eexists]. apply Z.nle_gt. intros Hb.
    destruct (bare_size_enough oc (prepare c p) (size - 5)) as (n' & Hn' & ?);
      [by apply prepare_wf|done|lia|done|]. rewrite Hn in Hn'. injection Hn' as ->. lia.
  - eexists. split; [done|]. pose proof (packet_image_len (trim (prepare c p) (size - 5))).
    assert (len (body_image (trim (prepare c p) (size - 5))) = n); [|lia].
    apply (encoded_size_image oc); [by apply prepare_wf| |done|lia].
    unfold is_u, CodecTypes.MAX_PACKET_SIZE in *. lia.
Qed.

Lemma v5_outbound_limit_witness :
  wf_packet (sample_puback "slow down") /\ enough (sample_puback "slow down") (20 - 5) /\
  v5_encode true (set_max_outbound_size Codec5_default 20) (sample_puback "slow down") [] =
    (Ok tt, [64; 4; 0; 7; 151; 0]) /\
  match v5_encode true (set_max_outbound_size Codec5_default 20) (sample_puback "slow down") [] with
  | (Ok _, dst') => exists w, dst' = [] ++ w /\ len w <= 20
  | (Err e, dst') =>
      dst' = [] /\
      20 - 5 < len (body_image (bare (prepare Codec5_default (sample_puback "slow down")))) /\
      exists n, e = EncodeError.OverMaxPacketSize n (20 - 5)
  | (Panic, _) | (Diverged, _) => False
  end.
Proof.
  assert (Hwf : wf_packet (sample_puback "slow down"))
    by (apply sample_puback_wf; [done|repeat constructor; done|done]).
  split_and!; [done|done|reflexivity|].
  by apply (v5_outbound_limit true Codec5_default (sample_puback "slow down") 20 []).
Defined.

(** A limit of 5 or less is applied to the body alone, without the
    fixed header: a client that announces a maximum packet size of 4 or 5
    is sent acknowledgements of 6 bytes (by a build without overflow
    checks; with them the size computation panics). *)
Theorem v5_small_limit_exceeded (c : Codec5) (id : Z) (size : Z) (dst : bytes) :
  nz u16 id -> 4 <= size <= 5 ->
  let ack := PPublishAck (mkPublishAck id PublishAckReasonM.Success [] None) in
  v5_encode false (set_max_outbound_size c size) ack dst =
    (Ok tt, dst ++ [64; 4] ++ be16 id ++ [0; 0]) /\
  v5_encode true (set_max_outbound_size c size) ack dst = (Panic, dst).
Proof.
  intros Hid Hs ack.
  assert (Hmax : max_out_size (set_max_outbound_size c size) = size).
  { unfold set_max_outbound_size. simpl. by rewrite (proj2 (Z.ltb_ge _ _)) by lia. }
  assert (Hlim : out_limit (set_max_outbound_size c size) = size).
  { unfold out_limit. rewrite Hmax. by rewrite (proj2 (Z.eqb_neq _ _)) by lia. }
  assert (Hprep : prepare (set_max_outbound_size c size) ack = ack)
    by (unfold prepare; by case_match).
  assert (Hcase : size = 4 \/ size = 5) by lia.
  split.
  - rewrite (v5_encode_eq false _ ack 4), Hlim, Hprep.
    + rewrite (proj2 (Z.ltb_ge _ _)) by lia. by destruct Hcase as [-> | ->].
    + split; [done|]. split; [constructor|done].
    + unfold wf_out, CodecTypes.MAX_PACKET_SIZE. rewrite Hmax. lia.
    + rewrite Hlim, Hprep. by destruct Hcase as [-> | ->].
  - unfold v5_encode. rewrite Hlim, Hprep. by destruct Hcase as [-> | ->].
Qed.

Lemma v5_small_limit_exceeded_witness :
  nz u16 7 /\
  v5_encode false (set_max_outbound_size Codec5_default 5)
    (PPublishAck (mkPublishAck 7 PublishAckReasonM.Success [] None)) [] =
    (Ok tt, [] ++ [64; 4] ++ be16 7 ++ [0; 0]) /\
  5 < len ([64; 4] ++ be16 7 ++ [0; 0]).
Proof.
  split_and!; [done| |done]. by apply (v5_small_limit_exceeded Codec5_default 7 5 []).
Defined.

(** ** Problem information *)

(** The packets other than PUBLISH, CONNACK and DISCONNECT that a server
    sends with diagnostics. *)
Definition problem_packet (p : Packet) : bool :=
  match p with
  | PPublishAck _ | PPublishReceived _ | PPublishRelease _ | PPublishComplete _
  | PSubscribeAck _ | PUnsubscribeAck _ | PAuth _ => true
  | _ => false
  end.

Lemma clear_bare p : problem_packet p = true -> clear_problem_info p = bare p.
Proof. by destruct p. Qed.

Lemma fit_empty l : fit [] None l = ([], None).
Proof. simpl. by case_match. Qed.

Lemma trim_bare p limit : problem_packet p = true -> trim (bare p) limit = bare p.
Proof.
  destruct p; try done; intros _;
    cbn [bare trim set_diag pa_properties pa_reason_string pa2_properties pa2_reason_string
      sa_properties sa_reason_string ua_properties ua_reason_string a_user_properties
      a_reason_string fst snd]; unfold fit_ack; rewrite ?fit_empty; try (by case_match).
  done.
Qed.

Lemma note_contains f k :
  u8 f ->
  CodecFlags.contains (note_flags f (PConnect k)) CodecFlags.NO_PROBLEM_INFO =
    negb (c_request_problem_info k).
Proof.
  intros Hf. unfold note_flags. destruct (c_request_problem_info k); cbn [negb].
  - enumerate_u8 f (fun f => negb (CodecFlags.contains
      (CodecFlags.set f CodecFlags.NO_PROBLEM_INFO false) CodecFlags.NO_PROBLEM_INFO)) Hc; [done|].
    by apply negb_true_iff in Hc.
  - by enumerate_u8 f (fun f => CodecFlags.contains
      (CodecFlags.set f CodecFlags.NO_PROBLEM_INFO true) CodecFlags.NO_PROBLEM_INFO) Hc.
Qed.

(** Request problem information: once the v5 decoder has returned a
    CONNECT that declines problem information, the encoder of that
    connection strips the reason string and the user properties from every
    acknowledgement and AUTH packet, and changes nothing else of them;
    after a CONNECT that asks for it, packets are sent as they are (but for
    what the size limit takes away). *)
Theorem v5_problem_info (oc : bool) (c c' : Codec5) (src rest : bytes) (k : Connect) (n : Z)
    (p : Packet) (dst dst' : bytes) :
  u8 (flags c) -> wf_out c -> wf_packet p ->
  v5_decode c src = (Ok (Some (PConnect k, n)), c', rest) ->
  v5_encode oc c' p dst = (Ok tt, dst') ->
  if c_request_problem_info k then dst' = dst ++ packet_image (trim p (out_limit c))
  else problem_packet p = true -> dst' = dst ++ packet_image (bare p).
Proof.
  intros Hf Hout Hwf Hd He.
  rewrite v5_decode_eq in Hd. destruct (codec_decode _ _ _) as [[r fc] s'].
  injection Hd as -> <- _. set (c' := with_frames c _ fc) in *.
  assert (Hflag : CodecFlags.contains (flags c') CodecFlags.NO_PROBLEM_INFO =
                  negb (c_request_problem_info k)) by (by apply note_contains).
  assert (Hlim : out_limit c' = out_limit c) by done.
  assert (Hout' : wf_out c') by done. clearbody c'.
  assert (Hn : exists n, Packet_encoded_size oc (prepare c' p) (out_limit c') = Ok n).
  { unfold v5_encode, bind at 1, lift in He.
    destruct (Packet_encoded_size oc (prepare c' p) (out_limit c')); [by eexists|done..]. }
  destruct Hn as [n' Hn]. rewrite (v5_encode_eq oc c' p n') in He by done.
  destruct (out_limit c' <? n'); [done|]. injection He as <-.
  unfold prepare. rewrite Hflag, Hlim. destruct (c_request_problem_info k); [done|].
  cbn [negb]. intros Hp. by rewrite clear_bare, trim_bare.
Qed.

(** A CONNECT of client "c" without problem information. *)
Definition sample_connect5 : Connect :=
  {| c_clean_start := true; c_keep_alive := 60; c_session_expiry_interval_secs := 0;
     c_auth_method := None; c_auth_data := None; c_request_problem_info := false;
     c_request_response_info := false; c_receive_max := None; c_topic_alias_max := 0;
     c_user_properties := []; c_max_packet_size := None; c_last_will := None;
     c_client_id := bytes_of_string "c"; c_username := None; c_password := None;
     c_cert := None |}.

Definition sample_connect5_bytes : bytes :=
  [16; 16; 0; 4; 77; 81; 84; 84; 5; 2; 0; 60; 2; 23; 0; 0; 1; 99].

Lemma v5_problem_info_witness :
  v5_decode Codec5_default sample_connect5_bytes =
    (Ok (Some (PConnect sample_connect5, 16)), mkCodec5 FrameHeader 0 0 1, []) /\
  v5_encode true (mkCodec5 FrameHeader 0 0 1) (sample_puback "no") [] =
    (Ok tt, [64; 4; 0; 7; 151; 0]) /\
  [64; 4; 0; 7; 151; 0] = [] ++ packet_image (bare (sample_puback "no")).
Proof.
  assert (Hwf : wf_packet (sample_puback "no"))
    by (apply sample_puback_wf; [done|repeat constructor; done|done]).
  assert (Hd : v5_decode Codec5_default sample_connect5_bytes =
    (Ok (Some (PConnect sample_connect5, 16)), mkCodec5 FrameHeader 0 0 1, [])) by reflexivity.
  assert (He : v5_encode true (mkCodec5 FrameHeader 0 0 1) (sample_puback "no") [] =
    (Ok tt, [64; 4; 0; 7; 151; 0])) by reflexivity.
  split_and!; [done|done|].
  exact (v5_problem_info true Codec5_default (mkCodec5 FrameHeader 0 0 1) sample_connect5_bytes []
    sample_connect5 16 (sample_puback "no") [] [64; 4; 0; 7; 151; 0]
    ltac:(done) ltac:(done) Hwf Hd He eq_refl).
Defined.

(** ** Streams *)

(** What a packet becomes on the wire of the codec [c]. *)
Definition sent (c : Codec5) (p : Packet) : Packet := trim (prepare c p) (out_limit c).

(** The packet gets a size that the limits of both sides allow. *)
Definition sendable (oc : bool) (c : Codec5) (m : Z) (p : Packet) : Prop :=
  wf_packet p /\
  exists n, Packet_encoded_size oc (prepare c p) (out_limit c) = Ok n /\ n <= out_limit c /\
    (m = 0 \/ n <= m).

Lemma sendable_frame oc c m p :
  wf_out c -> sendable oc c m p ->
  u8 (first_byte_of (sent c p)) /\ u8s (body_image (sent c p)) /\
  len (body_image (sent c p)) <= CodecTypes.MAX_PACKET_SIZE /\
  (m = 0 \/ len (body_image (sent c p)) <= m) /\
  decode_packet (body_image (sent c p)) (first_byte_of (sent c p)) = Ok (normalize (sent c p)).
Proof.
  intros Hout (Hwf & n & Hn & Hle & Hm). pose proof (out_limit_bounds c Hout) as Hl.
  apply (prepare_wf c) in Hwf. assert (Hwf' : wf_packet (sent c p)) by (by apply trim_wf).
  assert (Hlen : len (body_image (sent c p)) = n).
  { apply (encoded_size_image oc); [done| |done|lia].
    unfold is_u, CodecTypes.MAX_PACKET_SIZE in *. lia. }
  rewrite Hlen. split_and!; [apply v5_first_byte_u8|apply v5_body_image_u8s; [done|lia]|lia|done|].
  apply v5_decode_packet_image; [done|lia].
Qed.

(** C25. End to end: the packets one v5 codec encodes, one after the other,
    are the packets another v5 codec decodes from these bytes, in order and
    however the bytes are cut into chunks, each with the diagnostics that
    the sender's limit and flags leave it; nothing is left over. *)
Theorem v5_stream_roundtrip (oc : bool) (c d : Codec5) (ps : list Packet) (chunks : list bytes)
    (out : bytes) :
  wf_out c -> state5 d = FrameHeader -> 0 <= max_in_size d ->
  Forall (sendable oc c (max_in_size d)) ps ->
  for_each (v5_encode oc c) ps [] = (Ok tt, out) -> concat chunks = out ->
  exists d', v5_feed d [] chunks =
    ((fun p => (normalize (sent c p), len (body_image (sent c p)))) <$> ps, Ok tt, d', []).
Proof.
  intros Hout Hst Hm Hps He Hch.
  rewrite (writes_for_each (v5_encode oc c) (fun p => packet_image (sent c p))) in He.
  2: { intros p Hp dst. rewrite Forall_forall in Hps.
       destruct (Hps p Hp) as (Hwf & n & Hn & Hle & _).
       rewrite (v5_encode_eq oc c p n) by done. by rewrite (proj2 (Z.ltb_ge _ _)). }
  injection He as <-. rewrite v5_feed_eq.
  assert (Hfc : frame_codec d = Codec_new (max_in_size d)) by (unfold frame_codec; by rewrite Hst).
  rewrite Hfc, (feed_frames decode_packet v5_decode_packet_returns (max_in_size d) ps
    (fun p => first_byte_of (sent c p)) (fun p => body_image (sent c p))
    (fun p => normalize (sent c p))); [by eexists|done| |done].
  eapply Forall_impl; [exact Hps|]. intros p Hp. by apply (sendable_frame oc).
Qed.

Lemma v5_stream_roundtrip_witness :
  Forall (sendable true Codec5_default 0) [PPingRequest; sample_puback "no"] /\
  exists d', v5_feed Codec5_default [] [[192; 0; 64]; [9; 0; 7; 151; 5; 31]; [0; 2; 110; 111]] =
    ([(PPingRequest, 0); (sample_puback "no", 9)], Ok tt, d', []).
Proof.
  assert (Hps : Forall (sendable true Codec5_default 0) [PPingRequest; sample_puback "no"]).
  { constructor; [|constructor; [|constructor]].
    - split; [done|]. exists 0. split_and!; [done|done|by left].
    - split; [apply sample_puback_wf; [done|repeat constructor; done|done]|].
      exists 9. split_and!; [done|done|by left]. }
  split; [done|].
  apply (v5_stream_roundtrip true Codec5_default Codec5_default [PPingRequest; sample_puback "no"]
    [[192; 0; 64]; [9; 0; 7; 151; 5; 31]; [0; 2; 110; 111]]
    [192; 0; 64; 9; 0; 7; 151; 5; 31; 0; 2; 110; 111]); done.
Defined.
End V5Framed.

(** ** The codec of a connection *)

Module Mqtt.
Import V5Framed.

Inductive MqttCodec : Type :=
| V3Codec (c : Codec)
| V5Codec (c : Codec5)
| VersionCodec.

Inductive MqttPacket : Type :=
| V3Packet (p : V3.Packet)
| V5Packet (p : V5.Packet)
| VersionPacket (v : ProtocolVersion).

(** [Encoder<MqttPacket> for MqttCodec]. *)
Definition mqtt_encode (oc : bool) (c : MqttCodec) (item : MqttPacket) : io EncodeError unit :=
  match c, item with
  | V3Codec _, V3Packet p => CodecFraming.V3Codec.v3_encode p
  | V3Codec _, _ => throw EncodeError.MalformedPacket
  | V5Codec c, V5Packet p => v5_encode oc c p
  | V5Codec _, _ => throw EncodeError.MalformedPacket
  | VersionCodec, _ => throw EncodeError.UnsupportedVersion
  end.

Definition map_item {A B} (f : A -> B) (r : outcome DecodeError (option (A * Z)))
    : outcome DecodeError (option (B * Z)) :=
  match r with
  | Ok (Some (p, remaining)) => Ok (Some (f p, remaining))
  | Ok None => Ok None
  | Err e => Err e
  | Panic => Panic
  | Diverged => Diverged
  end.

(** [Decoder for MqttCodec]. The version is read without consuming. *)
Definition mqtt_decode (c : MqttCodec) (src : bytes)
    : outcome DecodeError (option (MqttPacket * Z)) * MqttCodec * bytes :=
  match c with
  | V3Codec c =>
      let '(r, c, src) := CodecFraming.V3Codec.v3_decode c src in
      (map_item V3Packet r, V3Codec c, src)
  | V5Codec c => let '(r, c, src) := v5_decode c src in (map_item V5Packet r, V5Codec c, src)
  | VersionCodec =>
      (match version_decode src with
       | Ok o => Ok (option_map (fun v => (VersionPacket v, 0)) o)
       | Err e => Err e
       | Panic => Panic
       | Diverged => Diverged
       end, VersionCodec, src)
  end.

(** The codec that [Dispatcher::probe_version] installs. *)
Definition probe_codec (ver : ProtocolVersion) (max_packet_size : Z) : MqttCodec :=
  match ver with
  | MQTT3 => V3Codec (Codec_new max_packet_size)
  | MQTT5 => V5Codec (Codec5_new max_packet_size max_packet_size)
  end.

(** The CONNECT packets of both versions. *)
Definition connect_packet (c : V3.Connect + V5.Connect) : MqttPacket :=
  match c with
  | inl c => V3Packet (V3Proofs.normalize (V3.PConnect c))
  | inr c => V5Packet (V5.PConnect c)
  end.

Definition connect_body (c : V3.Connect + V5.Connect) : bytes :=
  match c with
  | inl c => V3Proofs.body_image (V3.PConnect c)
  | inr c => V5Format.body_image (V5.PConnect c)
  end.

Definition connect_frame (c : V3.Connect + V5.Connect) : bytes :=
  [packet_type.CONNECT] ++ var_int_image 3 (len (connect_body c)) ++ connect_body c.

Definition wf_any_connect (c : V3.Connect + V5.Connect) : Prop :=
  match c with inl c => V3Proofs.wf_connect c | inr c => V5Format.wf_connect c end.

(** The handshake: on a buffer that starts with the CONNECT of an
    MQTT 3 or MQTT 5 client, the version codec finds the client's version
    without consuming anything, and the codec that [probe_version] then
    installs decodes that same CONNECT from the buffer and leaves what
    follows it. *)
Theorem mqtt_handshake (c : V3.Connect + V5.Connect) (m : Z) (t : bytes) :
  wf_any_connect c -> 0 <= m -> len (connect_body c) <= MAX_PACKET_SIZE ->
  m = 0 \/ len (connect_body c) <= m ->
  exists ver codec',
    mqtt_decode VersionCodec (connect_frame c ++ t) =
      (Ok (Some (VersionPacket ver, 0)), VersionCodec, connect_frame c ++ t) /\
    ver = (match c with inl _ => MQTT3 | inr _ => MQTT5 end) /\
    mqtt_decode (probe_codec ver m) (connect_frame c ++ t) =
      (Ok (Some (connect_packet c, len (connect_body c))), codec', t).
Proof.
  intros Hwf Hm Hmax Hlim. unfold mqtt_decode. destruct c as [c|c].
  - exists MQTT3. eexists. split_and!; [|done|].
    + pose proof (V3Proofs.body_image_len (V3.PConnect c) Hwf) as Hl. simpl in Hmax.
      assert (Hv : version_decode (connect_frame (inl c) ++ t) = Ok (Some MQTT3))
        by (apply v3_connect_version; [done|by rewrite <- Hl]).
      by rewrite Hv.
    + cbn [probe_codec]. unfold CodecFraming.V3Codec.v3_decode, connect_frame.
      rewrite (decode_frame_image V3.decode_packet m _ _ _ (V3Proofs.normalize (V3.PConnect c)));
        [done..|]. by apply (V3Proofs.decode_packet_image (V3.PConnect c)).
  - exists MQTT5. eexists. split_and!; [|done|].
    + assert (Hv : version_decode (connect_frame (inr c) ++ t) = Ok (Some MQTT5)).
      { apply version_decode_image; [by left|done]. }
      by rewrite Hv.
    + cbn [probe_codec]. rewrite v5_decode_eq. unfold connect_frame. unfold frame_codec. cbn [Codec5_new state5 max_in_size].
      change (mkCodec FrameHeader m) with (Codec_new m).
      rewrite (decode_frame_image V5Codec.decode_packet m _ _ _ (V5.PConnect c)); [done..|].
      by apply (V5Decode.v5_decode_packet_image (V5.PConnect c)).
Qed.

Lemma sample_connect5_wf : V5Format.wf_connect sample_connect5.
Proof.
  split; simpl; try done; try constructor; try (by left); try done.
  - split; [repeat constructor; done|done].
Qed.

Lemma mqtt_handshake_witness :
  connect_frame (inr sample_connect5) = sample_connect5_bytes /\
  exists ver codec',
    mqtt_decode VersionCodec (connect_frame (inr sample_connect5) ++ [192]) =
      (Ok (Some (VersionPacket ver, 0)), VersionCodec, connect_frame (inr sample_connect5) ++ [192]) /\
    ver = MQTT5 /\
    mqtt_decode (probe_codec ver 1024) (connect_frame (inr sample_connect5) ++ [192]) =
      (Ok (Some (V5Packet (V5.PConnect sample_connect5), 16)), codec', [192]).
Proof.
  split; [reflexivity|].
  apply (mqtt_handshake (inr sample_connect5) 1024 [192]); [apply sample_connect5_wf|done|done|].
  by right.
Defined.
End Mqtt.
