(* ===== verification/Topic.v ===== *)
(** * Topics and topic filters: [topic.rs]

    [Level] and [Topic] with their parsing, validation, printing and the
    two [matches] routines, against the matching rules of MQTT 4.7
    ([mqtt_match]). A Rust string is its UTF-8 bytes as a [string]; the
    characters the code looks for are ASCII. *)

From stdpp Require Import prelude strings gmap countable list.
From Stdlib Require Import Lia.
From S2P Require Import Prelude.

Local Open Scope string_scope.

(** ** String operations *)

Definition slash : Ascii.ascii := Ascii.ascii_of_nat 47.
Definition plus_char : Ascii.ascii := Ascii.ascii_of_nat 43.
Definition hash_char : Ascii.ascii := Ascii.ascii_of_nat 35.
Definition dollar : Ascii.ascii := Ascii.ascii_of_nat 36.

(** [s.contains(['+', '#'])]. *)
Fixpoint contains_wildcard (s : string) : bool :=
  match s with
  | EmptyString => false
  | String c s => bool_decide (c = plus_char) || bool_decide (c = hash_char)
                  || contains_wildcard s
  end.

Definition starts_with_dollar (s : string) : bool :=
  match s with EmptyString => false | String c _ => bool_decide (c = dollar) end.

(** [s.split('/')]: one more piece than there are slashes. *)
Fixpoint split_slash (s : string) : list string :=
  match s with
  | EmptyString => [""]
  | String c s =>
      if bool_decide (c = slash) then "" :: split_slash s
      else match split_slash s with
           | p :: ps => String c p :: ps
           | [] => [String c ""]
           end
  end.

(** [pieces.join("/")]. *)
Fixpoint join (ps : list string) : string :=
  match ps with
  | [] => ""
  | [p] => p
  | p :: ps => p +:+ String slash (join ps)
  end.

(** ** Levels *)

Inductive TopicError : Type :=
| InvalidTopic (msg : string)
| InvalidLevel (msg : string).

Inductive Level : Type :=
| Normal (s : string)
| Metadata (s : string)
| Blank
| SingleWildcard
| MultiWildcard.

#[global] Instance Level_eq_dec : EqDecision Level.
Proof. solve_decision. Defined.

#[global] Instance Level_countable : Countable Level.
Proof.
  apply (inj_countable'
    (fun l => match l with
      | Normal s => inl s
      | Metadata s => inr (inl s)
      | Blank => inr (inr 0)
      | SingleWildcard => inr (inr 1)
      | MultiWildcard => inr (inr 2)
      end)
    (fun x => match x with
      | inl s => Normal s
      | inr (inl s) => Metadata s
      | inr (inr 0) => Blank
      | inr (inr 1) => SingleWildcard
      | inr (inr _) => MultiWildcard
      end)).
  by intros [].
Defined.

Definition is_metadata (s : string) : bool := starts_with_dollar s.

(** [Level::normal] and [Level::metadata]. *)
Definition Level_normal (s : string) : outcome TopicError Level :=
  if contains_wildcard s then
    Err (InvalidLevel ("invalid normal level `" +:+ s +:+ "` contains +|#"))
  else if starts_with_dollar s then
    Err (InvalidLevel ("invalid normal level `" +:+ s +:+ "` starts with $"))
  else Ok (Normal s).

Definition Level_metadata (s : string) : outcome TopicError Level :=
  if contains_wildcard s then
    Err (InvalidLevel ("invalid metadata level `" +:+ s +:+ "` contains +|#"))
  else if negb (starts_with_dollar s) then
    Err (InvalidLevel ("invalid metadata level `" +:+ s +:+ "` not starts with $"))
  else Ok (Metadata s).

Definition Level_value (l : Level) : option string :=
  match l with Normal s | Metadata s => Some s | _ => None end.

Definition Level_is_normal (l : Level) : bool :=
  match l with Normal _ => true | _ => false end.

Definition Level_is_metadata (l : Level) : bool :=
  match l with Metadata _ => true | _ => false end.

Definition Level_is_valid (l : Level) : bool :=
  match l with
  | Normal s => negb (starts_with_dollar s) && negb (contains_wildcard s)
  | Metadata s => starts_with_dollar s && negb (contains_wildcard s)
  | _ => true
  end.

(** [FromStr for Level]. *)
Definition Level_from_str (s : string) : outcome TopicError Level :=
  if bool_decide (s = "+") then Ok SingleWildcard
  else if bool_decide (s = "#") then Ok MultiWildcard
  else if bool_decide (s = "") then Ok Blank
  else if contains_wildcard s then
    Err (InvalidLevel ("invalid level `" +:+ s +:+ "` contains +|#"))
  else if is_metadata s then Ok (Metadata s)
  else Ok (Normal s).

(** [Display for Level]. *)
Definition Level_to_string (l : Level) : string :=
  match l with
  | Normal s | Metadata s => s
  | Blank => ""
  | SingleWildcard => "+"
  | MultiWildcard => "#"
  end.

(** ** Topics *)

Abbreviation Topic := (list Level).

(** [iter().position(f)] and [iter().enumerate().position(f)]. *)
Fixpoint position_from {A} (f : nat -> A -> bool) (pos : nat) (l : list A) : option nat :=
  match l with
  | [] => None
  | x :: l => if f pos x then Some pos else position_from f (S pos) l
  end.

Definition misplaced (n : nat) (pos : nat) (l : Level) : bool :=
  match l with
  | MultiWildcard => negb (pos =? n - 1)%nat
  | Metadata _ => negb (pos =? 0)%nat
  | _ => false
  end.

Definition Topic_is_valid (t : Topic) : bool :=
  match position_from (fun _ l => negb (Level_is_valid l)) 0 t with
  | Some _ => false
  | None =>
      match position_from (misplaced (length t)) 0 t with
      | Some _ => false
      | None => true
      end
  end.

(** [FromStr for Topic]. *)
Definition Topic_from_str (s : string) : outcome TopicError Topic :=
  match try_collect Level_from_str (split_slash s) with
  | Ok t => if Topic_is_valid t then Ok t
            else Err (InvalidTopic ("invalid topic `" +:+ s +:+ "`"))
  | Err e => Err e
  | Panic => Panic
  | Diverged => Diverged
  end.

(** [Display for Topic]: the loop with its [first] flag. *)
Definition fmt_step (st : bool * string) (l : Level) : bool * string :=
  let '(first, out) := st in
  (false, (if first then out else out +:+ "/") +:+ Level_to_string l).

Definition Topic_to_string (t : Topic) : string := snd (foldl fmt_step (true, "") t).

(** [Topic::to_string_skip]. *)
Definition to_string_skip (t : Topic) (skip : nat) : string :=
  join (Level_to_string <$> drop skip t).

(** ** Matching *)

(** [MatchLevel for Level]. *)
Definition Level_match_level (self level : Level) : bool :=
  match level with
  | Normal lhs => match self with Normal rhs => bool_decide (lhs = rhs) | _ => false end
  | Metadata lhs => match self with Metadata rhs => bool_decide (lhs = rhs) | _ => false end
  | Blank => true
  | SingleWildcard | MultiWildcard => negb (Level_is_metadata self)
  end.

(** [MatchLevel for T: AsRef<str>]. *)
Definition str_match_level (self : string) (level : Level) : bool :=
  match level with
  | Normal lhs => negb (is_metadata self) && bool_decide (lhs = self)
  | Metadata lhs => is_metadata self && bool_decide (lhs = self)
  | Blank => bool_decide (self = "")
  | SingleWildcard | MultiWildcard => negb (is_metadata self)
  end.

(** The [matches!] macro. [lhs] is the iterator over the filter; a [break]
    leaves the loop with the iterator where it stands. *)
Definition matches_end (lhs : Topic) : bool :=
  match lhs with
  | MultiWildcard :: _ => true
  | _ :: _ => false
  | [] => true
  end.

Fixpoint matches_loop {R} (match_level : R -> Level -> bool) (lhs : Topic) (levels : list R)
    : bool :=
  match levels with
  | [] => matches_end lhs
  | rhs :: levels =>
      match lhs with
      | SingleWildcard :: lhs =>
          if negb (match_level rhs SingleWildcard) then matches_end lhs
          else matches_loop match_level lhs levels
      | MultiWildcard :: _ => match_level rhs MultiWildcard
      | level :: lhs =>
          if match_level rhs level then matches_loop match_level lhs levels else false
      | [] => false
      end
  end.

Definition Topic_matches (self topic : Topic) : bool :=
  matches_loop Level_match_level self topic.

Definition matches_str (self : Topic) (topic : string) : bool :=
  matches_loop str_match_level self (split_slash topic).

(** ** The matching rules of MQTT

    Level by level: [+] matches one level, a final [#] the rest (also
    none), a literal itself; a topic name that starts with [$] is not
    matched by a filter that starts with a wildcard. *)

Definition is_wildcard (l : Level) : bool :=
  match l with SingleWildcard | MultiWildcard => true | _ => false end.

Section spec.
Context {R : Type} (eq_level : R -> Level -> bool) (is_dollar : R -> bool).

Fixpoint levels_match (filter : Topic) (topic : list R) : bool :=
  match filter, topic with
  | [], [] => true
  | MultiWildcard :: _, _ => true
  | SingleWildcard :: filter, _ :: topic => levels_match filter topic
  | l :: filter, r :: topic => eq_level r l && levels_match filter topic
  | _, _ => false
  end.

Definition dollar_isolated (filter : Topic) (topic : list R) : bool :=
  match filter, topic with
  | l :: _, r :: _ => negb (is_wildcard l && is_dollar r)
  | _, _ => true
  end.

Definition mqtt_match (filter : Topic) (topic : list R) : bool :=
  dollar_isolated filter topic && levels_match filter topic.
End spec.

(** On the pieces of a topic name, and on its levels. *)
Definition str_eq_level (s : string) (l : Level) : bool := bool_decide (Level_to_string l = s).
Definition level_eq_level (r l : Level) : bool := bool_decide (l = r).

Definition mqtt_match_str (filter : Topic) (topic : string) : bool :=
  mqtt_match str_eq_level starts_with_dollar filter (split_slash topic).

Definition mqtt_match_levels (filter topic : Topic) : bool :=
  mqtt_match level_eq_level Level_is_metadata filter topic.

(** ** Splitting and joining *)

#[local] Arguments String.append : simpl nomatch.

Fixpoint no_slash (s : string) : bool :=
  match s with
  | EmptyString => true
  | String c s => negb (bool_decide (c = slash)) && no_slash s
  end.

Lemma split_slash_ne s : split_slash s <> [].
Proof. destruct s; simpl; [done|]. repeat case_match; done. Qed.

Lemma join_split s : join (split_slash s) = s.
Proof.
  induction s as [|c s IH]; [done|]. simpl. pose proof (split_slash_ne s) as Hne.
  case_bool_decide as Hc.
  - destruct (split_slash s) as [|p ps]; [done|]. simpl in *. by rewrite IH, Hc.
  - destruct (split_slash s) as [|p [|q ps]]; [done|..]; simpl in *; by rewrite <- IH.
Qed.

Lemma split_app p s :
  no_slash p = true -> split_slash (p +:+ String slash s) = p :: split_slash s.
Proof.
  induction p as [|c p IH]; intros Hp; [done|].
  simpl in Hp. apply andb_true_iff in Hp as [Hc Hp]. simpl.
  rewrite negb_true_iff in Hc. rewrite Hc, IH by done. done.
Qed.

Lemma split_no_slash p : no_slash p = true -> split_slash p = [p].
Proof.
  induction p as [|c p IH]; intros Hp; [done|].
  simpl in Hp. apply andb_true_iff in Hp as [Hc Hp]. simpl.
  rewrite negb_true_iff in Hc. by rewrite Hc, IH.
Qed.

Lemma split_join ps :
  ps <> [] -> Forall (fun p => no_slash p = true) ps -> split_slash (join ps) = ps.
Proof.
  intros Hne H. induction H as [|p ps Hp Hps IH]; [done|].
  destruct ps as [|q ps]; [by apply split_no_slash|].
  change (join (p :: q :: ps)) with (p +:+ String slash (join (q :: ps))).
  rewrite split_app by done. by rewrite IH.
Qed.

Lemma split_no_slash_pieces s : Forall (fun p => no_slash p = true) (split_slash s).
Proof.
  induction s as [|c s IH]; simpl; [by repeat constructor|].
  case_bool_decide as Hc; [by constructor|].
  destruct (split_slash s) as [|p ps]; inversion_clear IH; constructor; simpl;
    rewrite ?bool_decide_false by done; auto; constructor.
Qed.

Lemma string_app_assoc (a b c : string) : (a +:+ b) +:+ c = a +:+ (b +:+ c).
Proof. induction a; simpl; congruence. Qed.

Lemma fmt_loop_false out t :
  t <> [] ->
  foldl fmt_step (false, out) t = (false, out +:+ String slash (join (Level_to_string <$> t))).
Proof.
  revert out. induction t as [|l t IH]; intros out Hne; [done|]. simpl foldl.
  destruct t as [|l' t]; [simpl; by rewrite string_app_assoc|].
  rewrite IH by done. csimpl. by rewrite !string_app_assoc.
Qed.

(** The loop of [Display] is the join of the levels. *)
Lemma Topic_to_string_join t : Topic_to_string t = join (Level_to_string <$> t).
Proof.
  unfold Topic_to_string. destruct t as [|l [|l' t]]; [done|done|].
  change (foldl fmt_step (true, "") (l :: l' :: t))
    with (foldl fmt_step (false, Level_to_string l) (l' :: t)).
  by rewrite fmt_loop_false.
Qed.

(** ** Parsing *)

Lemma Level_from_str_print s l : Level_from_str s = Ok l -> Level_to_string l = s.
Proof.
  unfold Level_from_str. repeat case_bool_decide; subst;
    [by intros [= <-]..|]. destruct (contains_wildcard s); [done|].
  by destruct (is_metadata s); intros [= <-].
Qed.

(** The levels the parser makes. *)
Definition canonical (l : Level) : bool :=
  match l with
  | Normal s | Metadata s => negb (bool_decide (s = "")) && Level_is_valid l
  | _ => true
  end.

Lemma Level_from_str_canonical s l : Level_from_str s = Ok l -> canonical l = true.
Proof.
  unfold Level_from_str, is_metadata. repeat case_bool_decide; subst; [by intros [= <-]..|].
  destruct (contains_wildcard s) eqn:Hw; [done|].
  destruct (starts_with_dollar s) eqn:Hd; intros [= <-]; simpl;
    by rewrite bool_decide_false, Hd, Hw.
Qed.

Lemma Level_print_parse l : canonical l = true -> Level_from_str (Level_to_string l) = Ok l.
Proof.
  destruct l as [s|s| | |]; simpl; try done; intros Hc;
    apply andb_true_iff in Hc as [Hne Hv]; apply andb_true_iff in Hv as [Hd Hw];
    apply negb_true_iff in Hw; unfold Level_from_str, is_metadata;
    (destruct (bool_decide_reflect (s = "+")); [by subst|]);
    (destruct (bool_decide_reflect (s = "#")); [by subst|]);
    (destruct (bool_decide_reflect (s = "")); [by subst|]); rewrite Hw.
  - apply negb_true_iff in Hd. by rewrite Hd.
  - by rewrite Hd.
Qed.

Lemma try_collect_print ps t :
  try_collect Level_from_str ps = Ok t ->
  Level_to_string <$> t = ps /\ Forall (fun l => canonical l = true) t.
Proof.
  revert t. induction ps as [|p ps IH]; intros t; simpl; [intros [= <-]; by split|].
  destruct (Level_from_str p) as [l| | |] eqn:Hl; try done.
  destruct (try_collect Level_from_str ps) as [ls| | |] eqn:Hls; try done.
  intros [= <-]. destruct (IH _ eq_refl) as [Hp Hc]. split.
  - by rewrite fmap_cons, (Level_from_str_print _ _ Hl), Hp.
  - constructor; [by eapply Level_from_str_canonical|done].
Qed.

(** Parsing then printing: a topic that parses prints as the string it
    was parsed from, and [to_string_skip(0)] prints it too. *)
Theorem topic_parse_print (s : string) (t : Topic) :
  Topic_from_str s = Ok t -> Topic_to_string t = s /\ to_string_skip t 0 = s.
Proof.
  unfold Topic_from_str, to_string_skip. intros H. rewrite Topic_to_string_join, drop_0.
  destruct (try_collect Level_from_str (split_slash s)) as [t'| | |] eqn:Hc; try done.
  destruct (Topic_is_valid t'); [|done]. injection H as ->.
  apply try_collect_print in Hc as [-> _]. by rewrite join_split.
Qed.

Lemma topic_parse_print_witness :
  Topic_from_str "$SYS/+/a//#" =
    Ok [Metadata "$SYS"; SingleWildcard; Normal "a"; Blank; MultiWildcard] /\
  Topic_to_string [Metadata "$SYS"; SingleWildcard; Normal "a"; Blank; MultiWildcard]
    = "$SYS/+/a//#" /\
  to_string_skip [Metadata "$SYS"; SingleWildcard; Normal "a"; Blank; MultiWildcard] 0
    = "$SYS/+/a//#".
Proof.
  split; [reflexivity|]. apply (topic_parse_print "$SYS/+/a//#"). reflexivity.
Defined.

(** ** Validity *)

Lemma position_from_none {A} (f : nat -> A -> bool) pos l :
  position_from f pos l = None <-> forall i x, l !! i = Some x -> f (pos + i) x = false.
Proof.
  revert pos. induction l as [|x l IH]; intros pos; simpl; [done|].
  destruct (f pos x) eqn:Hf.
  - split; [done|]. intros H. specialize (H 0 x eq_refl). rewrite Nat.add_0_r in H. congruence.
  - rewrite IH. split.
    + intros H [|i] y Hy; simpl in Hy; [injection Hy as <-; by rewrite Nat.add_0_r|].
      rewrite Nat.add_succ_r. by apply H.
    + intros H i y Hy. specialize (H (S i) y Hy). by rewrite Nat.add_succ_r in H.
Qed.

(** What [is_valid] decides, level by level. *)
Definition valid_at (t : Topic) (i : nat) (l : Level) : Prop :=
  Level_is_valid l = true /\
  (l = MultiWildcard -> S i = length t) /\
  (Level_is_metadata l = true -> i = 0).

Lemma Topic_is_valid_spec t :
  Topic_is_valid t = true <-> forall i l, t !! i = Some l -> valid_at t i l.
Proof.
  unfold Topic_is_valid. 
  destruct (position_from (fun _ l => negb (Level_is_valid l)) 0 t) eqn:H1.
  - split; [done|]. intros H.
    assert (Hn : position_from (fun _ l => negb (Level_is_valid l)) 0 t = None).
    { apply position_from_none. intros i l Hl. apply negb_false_iff. by apply (H i l). }
    congruence.
  - rewrite position_from_none in H1.
    destruct (position_from (misplaced (length t)) 0 t) eqn:H2.
    + split; [done|]. intros H.
      assert (Hn : position_from (misplaced (length t)) 0 t = None).
      { apply position_from_none. intros i l Hl. destruct (H i l Hl) as (_ & Hm & Hd).
        destruct l; simpl; try done; apply negb_false_iff, Nat.eqb_eq.
        - by apply Hd.
        - specialize (Hm eq_refl). lia. }
      congruence.
    + rewrite position_from_none in H2. split; [intros _ i l Hl|done].
      specialize (H1 i l Hl). specialize (H2 i l Hl). apply negb_false_iff in H1.
      apply lookup_lt_Some in Hl. split_and!; [done|..].
      * intros ->. simpl in H2. apply negb_false_iff, Nat.eqb_eq in H2. lia.
      * destruct l; try done. intros _. simpl in H2. by apply negb_false_iff, Nat.eqb_eq in H2.
Qed.

(** Printing then parsing: a valid, non empty topic whose literal
    levels are non empty and hold no slash parses back from its printed
    form. *)
Theorem topic_print_parse (t : Topic) :
  t <> [] -> Topic_is_valid t = true ->
  Forall (fun l => canonical l = true /\ no_slash (Level_to_string l) = true) t ->
  Topic_from_str (Topic_to_string t) = Ok t.
Proof.
  intros Hne Hv Hc. rewrite Topic_to_string_join. unfold Topic_from_str.
  rewrite split_join.
  - rewrite try_collect_fmap; [by rewrite Hv|].
    intros l Hl. rewrite Forall_forall in Hc.
    apply Level_print_parse. by destruct (Hc l Hl).
  - by destruct t.
  - apply Forall_fmap. eapply Forall_impl; [exact Hc|]. intros l [_ ?]. done.
Qed.

Lemma topic_print_parse_witness :
  Topic_from_str (Topic_to_string [SingleWildcard; Normal "tennis"; MultiWildcard])
    = Ok [SingleWildcard; Normal "tennis"; MultiWildcard].
Proof.
  apply (topic_print_parse [SingleWildcard; Normal "tennis"; MultiWildcard]);
    [done|reflexivity|repeat constructor].
Defined.

Lemma Topic_from_str_Ok s t :
  Topic_from_str s = Ok t <->
    try_collect Level_from_str (split_slash s) = Ok t /\ Topic_is_valid t = true.
Proof.
  unfold Topic_from_str.
  destruct (try_collect Level_from_str (split_slash s)) as [t'| | |];
    try (split; [done|by intros [? _]]).
  destruct (Topic_is_valid t') eqn:Hv; (split; [|intros [[= ->] Hv']]); try done; [by intros [= ->]|].
  congruence.
Qed.

Lemma from_str_returns s : returns (Topic_from_str s).
Proof.
  unfold Topic_from_str.
  assert (Hr : returns (try_collect Level_from_str (split_slash s))).
  { apply try_collect_returns. intros x. unfold Level_from_str.
    repeat case_bool_decide; try done. by repeat case_match. }
  destruct (try_collect _ _); try done. by destruct (Topic_is_valid _).
Qed.

(** What parsing accepts: [from_str] always returns; a topic it accepts
    has one level per slash-separated piece, a multi-level wildcard only in
    the last position, a [$] level only in the first, and no [+] or [#]
    inside a literal; and it accepts every string whose pieces parse into
    such a sequence. *)
Theorem topic_from_str_accepts (s : string) (t : Topic) :
  returns (Topic_from_str s) /\
  (Topic_from_str s = Ok t <->
   try_collect Level_from_str (split_slash s) = Ok t /\
   (forall i l, t !! i = Some l -> valid_at t i l)).
Proof.
  split.
  - apply from_str_returns.
  - rewrite <- Topic_is_valid_spec. apply Topic_from_str_Ok.
Qed.

(** What parsing gives: [#] in the last position only, and for a topic name
    without the wildcard characters, no wildcard level. *)
Fixpoint hash_last (q : Topic) : bool :=
  match q with
  | [] => true
  | [MultiWildcard] => true
  | MultiWildcard :: _ => false
  | _ :: q => hash_last q
  end.

Definition wildcard_free (t : Topic) : Prop := Forall (fun l => is_wildcard l = false) t.

Lemma from_str_prints s t : Topic_from_str s = Ok t -> Topic_to_string t = s.
Proof.
  intros [Hc _]%Topic_from_str_Ok. apply try_collect_print in Hc as [Hc _].
  by rewrite Topic_to_string_join, Hc, join_split.
Qed.

Lemma from_str_inj s s' t : Topic_from_str s = Ok t -> Topic_from_str s' = Ok t -> s = s'.
Proof. by intros <-%from_str_prints <-%from_str_prints. Qed.

Lemma hash_last_spec t : (forall i, t !! i = Some MultiWildcard -> S i = length t) -> hash_last t = true.
Proof.
  induction t as [|l t IH]; intros H; [done|].
  assert (Ht : hash_last t = true).
  { apply IH. intros i Hi. specialize (H (S i) Hi). simpl in H. lia. }
  destruct l; try done. destruct t; [done|]. by specialize (H 0 eq_refl).
Qed.

Lemma from_str_hash_last s t : Topic_from_str s = Ok t -> hash_last t = true.
Proof.
  intros [_ Hv]%Topic_from_str_Ok. apply hash_last_spec. intros i Hi.
  by destruct (proj1 (Topic_is_valid_spec t) Hv i _ Hi) as (_ & Hlast & _); apply Hlast.
Qed.

Lemma from_str_nonempty s t : Topic_from_str s = Ok t -> t <> [].
Proof.
  intros [Hc _]%Topic_from_str_Ok ->. apply try_collect_print in Hc as [Hc _].
  by apply (split_slash_ne s).
Qed.

Lemma split_wildcard s p : contains_wildcard s = false -> p ∈ split_slash s ->
  contains_wildcard p = false.
Proof.
  revert p. induction s as [|c s IH]; simpl; intros p Hs Hp.
  - by apply list_elem_of_singleton in Hp as ->.
  - apply orb_false_iff in Hs as [Hc Hs]. case_bool_decide.
    + apply elem_of_cons in Hp as [->|Hp]; [done|by apply IH].
    + destruct (split_slash s) as [|q qs] eqn:Hq; [by destruct (split_slash_ne s)|].
      apply elem_of_cons in Hp as [->|Hp].
      * simpl. rewrite Hc. apply IH; [done|apply list_elem_of_here].
      * apply IH; [done|by apply list_elem_of_further].
Qed.

Lemma from_str_wildcard_free s t :
  contains_wildcard s = false -> Topic_from_str s = Ok t -> wildcard_free t.
Proof.
  intros Hw [Hc _]%Topic_from_str_Ok. apply try_collect_print in Hc as [Hc _].
  apply Forall_forall. intros l Hl. destruct (is_wildcard l) eqn:Hwl; [|done].
  assert (Hp : contains_wildcard (Level_to_string l) = false).
  { apply (split_wildcard s); [done|]. rewrite <- Hc. by apply list_elem_of_fmap_2. }
  by destruct l.
Qed.

(** ** Matching strings *)

Lemma matches_loop_nodollar filter topic :
  Forall (fun l => Level_is_valid l = true) filter ->
  Forall (fun s => starts_with_dollar s = false) topic ->
  matches_loop str_match_level filter topic = levels_match str_eq_level filter topic.
Proof.
  intros Hf Ht. revert filter Hf. induction Ht as [|s topic Hs Ht IH]; intros filter Hf.
  - by destruct Hf as [|[] ? ? ?].
  - destruct Hf as [|l filter Hl Hf]; [done|].
    destruct l as [p|p| | |]; simpl; unfold is_metadata, str_eq_level; rewrite ?Hs; simpl.
    + case_bool_decide; [by apply IH|done].
    + simpl in Hl. apply andb_true_iff in Hl as [Hd _].
      rewrite bool_decide_false; [done|]. intros ->. congruence.
    + destruct (bool_decide_reflect (s = "")) as [->|Hne].
      * rewrite bool_decide_true by done. by apply IH.
      * by rewrite bool_decide_false by congruence.
    + by apply IH.
    + done.
Qed.

(** The topic names the code handles as the standard asks: no level but
    the first starts with [$]. *)
Definition dollar_only_first (topic : list string) : Prop :=
  Forall (fun s => starts_with_dollar s = false) (tail topic).

(** [matches_str] implements the matching rules of MQTT, for every
    valid filter and every topic name with a [$] in first position at
    most, except when a filter that starts with [+] meets a [$] topic. *)
Theorem matches_str_correct (filter : Topic) (topic : string) :
  Topic_is_valid filter = true ->
  dollar_only_first (split_slash topic) ->
  (starts_with_dollar topic = false \/ head filter <> Some SingleWildcard) ->
  matches_str filter topic = mqtt_match_str filter topic.
Proof.
  intros Hv Hd Hne. unfold matches_str, mqtt_match_str, mqtt_match.
  assert (Hf : Forall (fun l => Level_is_valid l = true) filter).
  { apply Forall_lookup. intros i l Hl. by apply (proj1 (Topic_is_valid_spec filter) Hv i l). }
  assert (Hhd : exists s ps, split_slash topic = s :: ps /\
                  starts_with_dollar s = starts_with_dollar topic).
  { clear. destruct topic as [|c topic]; simpl; [by exists "", []|].
    case_bool_decide as Hc; [subst; by exists "", (split_slash topic)|].
    destruct (split_slash topic) as [|p ps]; [by exists (String c ""), []|].
    by exists (String c p), ps. }
  destruct Hhd as (s & ps & Hs & Hsd). rewrite Hs in *. unfold dollar_only_first in Hd.
  simpl in Hd. rewrite <- Hsd in Hne.
  destruct (starts_with_dollar s) eqn:Hsd'.
  2: { rewrite matches_loop_nodollar by (done || by constructor).
       destruct filter as [|l filter]; [done|]. unfold dollar_isolated.
       by rewrite Hsd', andb_false_r. }
  destruct Hf as [|l filter Hl Hf]; [done|].
  destruct l as [p|p| | |]; simpl; unfold is_metadata, str_eq_level; rewrite ?Hsd'; simpl.
  - simpl in Hl. apply andb_true_iff in Hl as [Hp _]. apply negb_true_iff in Hp.
    rewrite bool_decide_false; [done|]. intros ->. congruence.
  - case_bool_decide; [by apply matches_loop_nodollar|done].
  - rewrite !bool_decide_false; [done|by intros <-|by intros ->].
  - by destruct Hne.
  - done.
Qed.

Lemma matches_str_correct_witness :
  matches_str [Normal "sport"; SingleWildcard; MultiWildcard] "sport/tennis" =
    mqtt_match_str [Normal "sport"; SingleWildcard; MultiWildcard] "sport/tennis" /\
  matches_str [Normal "sport"; SingleWildcard; MultiWildcard] "sport/tennis" = true.
Proof.
  split; [|reflexivity].
  apply (matches_str_correct [Normal "sport"; SingleWildcard; MultiWildcard] "sport/tennis");
    [reflexivity|repeat constructor|by left].
Defined.

(** The exception is real: the filter [+] matches every topic name that
    starts with [$], however deep, although the rules (and the module's
    documentation) keep [$] topics from wildcards; so does [+/#]. *)
Theorem matches_str_dollar_leak (topic : string) :
  starts_with_dollar topic = true ->
  matches_str [SingleWildcard] topic = true /\
  matches_str [SingleWildcard; MultiWildcard] topic = true /\
  mqtt_match_str [SingleWildcard] topic = false /\
  mqtt_match_str [SingleWildcard; MultiWildcard] topic = false.
Proof.
  intros Hd. unfold matches_str, mqtt_match_str.
  destruct topic as [|c topic]; [done|]. simpl in Hd. apply bool_decide_eq_true in Hd as ->.
  simpl split_slash. by destruct (split_slash topic) as [|p ps].
Qed.

Lemma matches_str_dollar_leak_witness :
  matches_str [SingleWildcard] "$SYS/brokers/1" = true /\
  matches_str [SingleWildcard; MultiWildcard] "$SYS/brokers/1" = true /\
  mqtt_match_str [SingleWildcard] "$SYS/brokers/1" = false /\
  mqtt_match_str [SingleWildcard; MultiWildcard] "$SYS/brokers/1" = false.
Proof. by apply (matches_str_dollar_leak "$SYS/brokers/1"). Defined.

(** The two [matches] routines disagree: on parsed topics an empty
    level of the filter matches any level, on strings only the empty one. *)
Theorem matches_blank_divergence (a : string) :
  a <> "" -> starts_with_dollar a = false -> no_slash a = true -> contains_wildcard a = false ->
  Topic_matches [Blank] [Normal a] = true /\ matches_str [Blank] a = false /\
  mqtt_match_levels [Blank] [Normal a] = false.
Proof.
  intros Hne Hd Hs Hw. unfold matches_str. rewrite split_no_slash by done. simpl.
  by rewrite bool_decide_false.
Qed.

Lemma matches_blank_divergence_witness :
  Topic_matches [Blank] [Normal "x"] = true /\ matches_str [Blank] "x" = false /\
  mqtt_match_levels [Blank] [Normal "x"] = false.
Proof. by apply (matches_blank_divergence "x"). Defined.
