(* ===== verification/Trie.v ===== *)
(** * The subscription tree: [trie.rs]

    [Node<V>] with its insertion, removal (which prunes empty nodes),
    sizes, and the lazy depth-first iterator [MatchedIter]. A tree denotes
    the set of values stored under each filter ([lookup_path]); the
    iterator is shown to yield exactly the stored filters that match, by
    way of the eager reference [walk]. The values of an item are kept as
    the set the code collects from. *)

From stdpp Require Import prelude strings gmap countable list.
From Stdlib Require Import Lia.
From S2P Require Import Prelude Topic.

Set Warnings "-register-all,-clear-no-such-hyp".

Module Trie.
Section trie.
Context {V : Type} `{Countable V}.

Inductive Node : Type :=
| mkNode (values : gset V) (branches : gmap Level Node).

Definition values (n : Node) : gset V := let '(mkNode v _) := n in v.
Definition branches (n : Node) : gmap Level Node := let '(mkNode _ b) := n in b.

Definition Node_default : Node := mkNode ∅ ∅.

(** ** Updates *)

(** [_insert], along the path: the flag tells whether the value is new. *)
Fixpoint insert_path (n : Node) (path : list Level) (value : V) : bool * Node :=
  match path with
  | [] => (bool_decide (value ∉ values n), mkNode ({[value]} ∪ values n) (branches n))
  | first :: path =>
      let '(res, child) :=
        insert_path (default Node_default (branches n !! first)) path value in
      (res, mkNode (values n) (<[first := child]> (branches n)))
  end.

Definition insert (n : Node) (topic_filter : Topic) (value : V) : bool * Node :=
  insert_path n topic_filter value.

Definition is_leaf (n : Node) : bool :=
  bool_decide (values n = ∅) && bool_decide (branches n = ∅).

(** [_remove]: a child left without values and branches is dropped. *)
Fixpoint remove_path (n : Node) (path : list Level) (value : V) : bool * Node :=
  match path with
  | [] => (bool_decide (value ∈ values n), mkNode (values n ∖ {[value]}) (branches n))
  | t :: path =>
      match branches n !! t with
      | Some x =>
          let '(res, x) := remove_path x path value in
          (res, mkNode (values n)
                  (if is_leaf x then delete t (branches n) else <[t := x]> (branches n)))
      | None => (false, n)
      end
  end.

Definition remove (n : Node) (topic_filter : Topic) (value : V) : bool * Node :=
  remove_path n topic_filter value.

(** ** Sizes *)

Fixpoint values_size (n : Node) : nat :=
  let '(mkNode v b) := n in
  size v + map_fold (fun _ n acc => values_size n + acc) 0 b.

Fixpoint nodes_size (n : Node) : nat :=
  let '(mkNode _ b) := n in
  size b + map_fold (fun _ n acc => nodes_size n + acc) 0 b.

(** ** The iterator *)

Definition item : Type := list Level * gset V.

Inductive MatchedIter : Type :=
| mkIter (node : Node) (path : list Level) (sub_path : option (list Level))
    (curr_items : list item) (sub_iters : list MatchedIter).

(** [MatchedIter::new]. *)
Definition new (node : Node) (path : list Level) (sub_path : list Level) : MatchedIter :=
  mkIter node path (Some sub_path) [] [].

(** [add_to_items]: the empty sets are skipped. *)
Definition add_to_items (curr : list item) (levels : list Level) (v_set : gset V) : list item :=
  if bool_decide (v_set = ∅) then curr else curr ++ [(levels, v_set)].

(** The item of the [#] child, pushed when it has values. *)
Definition push_hash (n : Node) (sub_path : list Level) (curr : list item) : list item :=
  match branches n !! MultiWildcard with
  | Some b_node =>
      if bool_decide (values b_node = ∅) then curr
      else add_to_items curr (sub_path ++ [MultiWildcard]) (values b_node)
  | None => curr
  end.

(** A sub-iterator on the child [l], when there is one. *)
Definition push_sub (n : Node) (l : Level) (rest sub_path : list Level)
    (subs : list MatchedIter) : list MatchedIter :=
  match branches n !! l with
  | Some b_node => subs ++ [new b_node rest (sub_path ++ [l])]
  | None => subs
  end.

(** Whether the wildcard children are left out: a first level that starts
    with [$] is not matched by them. *)
Definition dollar_guard (n : Node) (p0 : Level) (sub_path : list Level) : bool :=
  bool_decide (sub_path = []) && negb (bool_decide (p0 = Blank)) && Level_is_metadata p0
  && (bool_decide (is_Some (branches n !! MultiWildcard))
      || bool_decide (is_Some (branches n !! SingleWildcard))).

Definition prepare (it : MatchedIter) : option MatchedIter :=
  let '(mkIter n path sub_path curr subs) := it in
  match sub_path with
  | None => None
  | Some sp =>
      match path with
      | [] =>
          let curr := push_hash n sp curr in
          let curr := add_to_items curr sp (values n) in
          Some (mkIter n path None curr subs)
      | p0 :: rest =>
          let guard := dollar_guard n p0 sp in
          let curr := if guard then curr else push_hash n sp curr in
          let subs := if guard then subs else push_sub n SingleWildcard rest sp subs in
          let subs := push_sub n p0 rest sp subs in
          Some (mkIter n path None curr subs)
      end
  end.

(** [Vec::pop]: from the end. *)
Fixpoint pop {A} (l : list A) : option (A * list A) :=
  match l with
  | [] => None
  | [x] => Some (x, [])
  | x :: l => match pop l with Some (y, l') => Some (y, x :: l') | None => None end
  end.

(** The [while] over the sub-iterators: the first one that yields; the
    exhausted ones are removed. *)
Fixpoint next_sub (nx : MatchedIter -> option (option item * MatchedIter))
    (subs : list MatchedIter) : option (option item * list MatchedIter) :=
  match subs with
  | [] => Some (None, [])
  | s :: subs =>
      match nx s with
      | Some (Some x, s) => Some (Some x, s :: subs)
      | Some (None, _) => next_sub nx subs
      | None => None
      end
  end.

Definition next_item (nx : MatchedIter -> option (option item * MatchedIter))
    (it : MatchedIter) : option (option item * MatchedIter) :=
  let '(mkIter n path sub_path curr subs) := it in
  match pop curr with
  | Some (x, curr) => Some (Some x, mkIter n path sub_path curr subs)
  | None =>
      match next_sub nx subs with
      | Some (r, subs) => Some (r, mkIter n path sub_path curr subs)
      | None => None
      end
  end.

(** [Iterator::next]; [None] for a recursion deeper than [fuel]. *)
Fixpoint next (fuel : nat) (it : MatchedIter) : option (option item * MatchedIter) :=
  match fuel with
  | O => None
  | S fuel =>
      match next_item (next fuel) it with
      | Some (Some x, it) => Some (Some x, it)
      | Some (None, it) =>
          match prepare it with
          | None => Some (None, it)
          | Some it => next_item (next fuel) it
          end
      | None => None
      end
  end.

(** [matches(topic).iter()] and the items it yields until it is exhausted. *)
Definition matches (n : Node) (topic : Topic) : MatchedIter := new n topic [].

Fixpoint collect (count fuel : nat) (it : MatchedIter) : option (list item) :=
  match count with
  | O => None
  | S count =>
      match next fuel it with
      | Some (Some x, it) => (x ::.) <$> collect count fuel it
      | Some (None, _) => Some []
      | None => None
      end
  end.

(** [is_match]: the first item exists. *)
Definition is_match (n : Node) (topic : Topic) : option bool :=
  match next (S (length topic)) (matches n topic) with
  | Some (Some _, _) => Some true
  | Some (None, _) => Some false
  | None => None
  end.

(** ** Abstraction: the values stored under a filter *)

Fixpoint lookup_path (n : Node) (path : list Level) : gset V :=
  match path with
  | [] => values n
  | l :: path =>
      match branches n !! l with
      | Some c => lookup_path c path
      | None => ∅
      end
  end.

(** Every child holds something: no branch leads nowhere. *)
Inductive pruned : Node -> Prop :=
| pruned_node v b :
    (forall l c, b !! l = Some c -> is_leaf c = false) ->
    (forall l c, b !! l = Some c -> pruned c) ->
    pruned (mkNode v b).

(** ** Updates refine the abstraction *)

Lemma lookup_path_default p : lookup_path Node_default p = ∅.
Proof. destruct p; simpl; [done|]. by rewrite lookup_empty. Qed.

Lemma lookup_path_child n l p :
  lookup_path (default Node_default (branches n !! l)) p = lookup_path n (l :: p).
Proof. simpl. destruct (branches n !! l); [done|]. apply lookup_path_default. Qed.

Lemma insert_path_lookup n p v q :
  lookup_path (insert_path n p v).2 q =
    if decide (p = q) then {[v]} ∪ lookup_path n q else lookup_path n q.
Proof.
  revert n q. induction p as [|l p IH]; intros n q; simpl.
  - by destruct q.
  - destruct (insert_path _ p v) as [res c] eqn:Hc.
    specialize (IH (default Node_default (branches n !! l))). rewrite Hc in IH. simpl in *.
    destruct q as [|l' q]; simpl; [done|].
    destruct (decide (l = l')) as [->|Hne].
    + rewrite lookup_insert_eq, IH, lookup_path_child.
      destruct (decide (p = q)) as [->|]; [by rewrite decide_True|].
      rewrite decide_False by congruence. done.
    + rewrite lookup_insert_ne by done. by rewrite decide_False by congruence.
Qed.

Lemma insert_path_result n p v :
  (insert_path n p v).1 = bool_decide (v ∉ lookup_path n p).
Proof.
  revert n. induction p as [|l p IH]; intros n; [done|]. cbn [insert_path].
  specialize (IH (default Node_default (branches n !! l))).
  destruct (insert_path _ p v) as [res c]. simpl in IH |- *.
  rewrite IH, lookup_path_child. done.
Qed.

Lemma is_leaf_lookup n p : is_leaf n = true -> lookup_path n p = ∅.
Proof.
  unfold is_leaf. rewrite andb_true_iff, !bool_decide_eq_true. intros [Hv Hb].
  destruct p; simpl; [done|]. by rewrite Hb, lookup_empty.
Qed.

Lemma remove_path_lookup n p v q :
  lookup_path (remove_path n p v).2 q =
    if decide (p = q) then lookup_path n q ∖ {[v]} else lookup_path n q.
Proof.
  revert n q. induction p as [|l p IH]; intros n q; simpl.
  - by destruct q.
  - destruct (branches n !! l) as [x|] eqn:Hx; simpl.
    2: { case_decide as Hd; [|done]. subst q. simpl. rewrite Hx. set_solver. }
    specialize (IH x). destruct (remove_path x p v) as [res c]. simpl in IH |- *.
    destruct q as [|l' q]; simpl; [done|].
    assert (Hc : lookup_path c q = match (if is_leaf c then delete l (branches n)
                   else <[l := c]> (branches n)) !! l with
                 | Some d => lookup_path d q | None => ∅ end).
    { destruct (is_leaf c) eqn:Hl; [rewrite lookup_delete_eq; by apply is_leaf_lookup|].
      by rewrite lookup_insert_eq. }
    destruct (decide (l = l')) as [->|Hne].
    + rewrite <- Hc, IH, Hx. destruct (decide (p = q)) as [->|];
        [by rewrite decide_True|by rewrite decide_False by congruence].
    + rewrite decide_False by congruence.
      by destruct (is_leaf c); [rewrite lookup_delete_ne|rewrite lookup_insert_ne].
Qed.

Lemma remove_path_result n p v : (remove_path n p v).1 = bool_decide (v ∈ lookup_path n p).
Proof.
  revert n. induction p as [|l p IH]; intros n; [done|]. simpl.
  destruct (branches n !! l) as [x|] eqn:Hx; [|done].
  specialize (IH x). by destruct (remove_path x p v) as [res c].
Qed.

(** ** Pruned trees *)

Lemma pruned_default : pruned Node_default.
Proof. constructor; intros l c; by rewrite lookup_empty. Qed.

Lemma pruned_child n l c :
  pruned n -> branches n !! l = Some c -> is_leaf c = false /\ pruned c.
Proof. intros [v b Hl Hp] Hc. by split; [eapply Hl|eapply Hp]. Qed.

Lemma pruned_update v n l c :
  pruned n -> is_leaf c = false -> pruned c -> pruned (mkNode v (<[l := c]> (branches n))).
Proof.
  intros Hn Hl Hc.
  constructor; intros l' d Hd; apply lookup_insert_Some in Hd as [[_ <-]|[_ Hd]]; try done;
    by apply (pruned_child n l' d).
Qed.

Lemma insert_path_not_leaf n p v : is_leaf (insert_path n p v).2 = false.
Proof.
  unfold is_leaf. destruct p as [|l p]; simpl.
  - rewrite bool_decide_false by set_solver. done.
  - destruct (insert_path _ p v) as [r c]. simpl.
    rewrite (bool_decide_false (<[l := c]> _ = ∅)) by apply insert_non_empty.
    apply andb_false_r.
Qed.

Lemma insert_path_pruned n p v : pruned n -> pruned (insert_path n p v).2.
Proof.
  revert n. induction p as [|l p IH]; intros n Hn; cbn [insert_path].
  - destruct Hn as [w b Hl Hp]. by constructor.
  - pose proof (insert_path_not_leaf (default Node_default (branches n !! l)) p v) as Hnl.
    assert (Hc : pruned (insert_path (default Node_default (branches n !! l)) p v).2).
    { apply IH. destruct (branches n !! l) as [c|] eqn:Hc; simpl;
        [by apply (pruned_child n l c)|apply pruned_default]. }
    destruct (insert_path _ p v) as [r c]. by apply pruned_update.
Qed.

Lemma remove_path_pruned n p v : pruned n -> pruned (remove_path n p v).2.
Proof.
  revert n. induction p as [|l p IH]; intros n Hn; cbn [remove_path].
  - destruct Hn as [w b Hl Hp]. by constructor.
  - destruct (branches n !! l) as [x|] eqn:Hx; [|done].
    specialize (IH x (proj2 (pruned_child _ _ _ Hn Hx))).
    destruct (remove_path x p v) as [r c]. simpl in *.
    destruct (is_leaf c) eqn:Hl; [|by apply pruned_update].
    constructor; intros l' d Hd; apply lookup_delete_Some in Hd as [_ Hd];
      by apply (pruned_child n l' d).
Qed.

(** A pruned tree is determined by what it stores. *)
Lemma pruned_nonempty n : pruned n -> is_leaf n = false -> exists p, lookup_path n p <> ∅.
Proof.
  intros Hn. induction Hn as [v b Hl Hp IH]. intros Hleaf.
  destruct (decide (v = ∅)) as [->|Hv]; [|by exists []].
  destruct (map_choose b) as (l & c & Hc).
  { intros ->. unfold is_leaf in Hleaf. simpl in Hleaf.
    by rewrite !bool_decide_true in Hleaf. }
  destruct (IH l c Hc (Hl l c Hc)) as [p Hlk]. exists (l :: p). simpl. by rewrite Hc.
Qed.

Lemma pruned_ext n m :
  pruned n -> pruned m -> (forall p, lookup_path n p = lookup_path m p) -> n = m.
Proof.
  intros Hn. revert m. induction Hn as [v b Hl Hp IH]. intros [v' b'] Hm Heq.
  pose proof (Heq []) as Hv. simpl in Hv. subst v'. f_equal. apply map_eq. intros l.
  assert (Hsub : forall q, lookup_path (default Node_default (b !! l)) q =
                   lookup_path (default Node_default (b' !! l)) q).
  { intros q. pose proof (Heq (l :: q)) as Hq. simpl in Hq.
    destruct (b !! l), (b' !! l); simpl; rewrite ?lookup_path_default; done. }
  destruct (b !! l) as [c|] eqn:Hc, (b' !! l) as [d|] eqn:Hd; [|..|done]; simpl in Hsub.
  - f_equal. eapply IH; [done| |done]. by apply (pruned_child _ l d Hm).
  - destruct (pruned_nonempty c) as [q Hq]; [by eapply Hp|by eapply Hl|].
    by rewrite Hsub, lookup_path_default in Hq.
  - destruct (pruned_child _ l d Hm Hd) as [Hdl Hdp].
    destruct (pruned_nonempty d) as [q Hq]; [done..|].
    by rewrite <- Hsub, lookup_path_default in Hq.
Qed.

(** ** Sizes *)

Lemma values_size_unfold n :
  values_size n = size (values n) + map_sum values_size (branches n).
Proof. by destruct n. Qed.

Lemma is_leaf_size n : is_leaf n = true -> values_size n = 0.
Proof.
  unfold is_leaf. rewrite andb_true_iff, !bool_decide_eq_true. intros [Hv Hb].
  rewrite values_size_unfold, Hv, Hb. done.
Qed.

Lemma insert_path_size n p v :
  values_size (insert_path n p v).2 =
    values_size n + (if (insert_path n p v).1 then 1 else 0).
Proof.
  revert n. induction p as [|l p IH]; intros n; cbn [insert_path].
  - rewrite !values_size_unfold. simpl. case_bool_decide as Hv.
    + rewrite size_union, size_singleton by set_solver. lia.
    + replace ({[v]} ∪ values n) with (values n) by set_solver. lia.
  - specialize (IH (default Node_default (branches n !! l))).
    destruct (insert_path _ p v) as [r c]. simpl fst in *. simpl snd in *.
    rewrite !(values_size_unfold (mkNode _ _)), (values_size_unfold n). simpl.
    pose proof (map_sum_insert values_size (branches n) l c) as Hs.
    assert (Hd : values_size Node_default = 0) by reflexivity.
    revert IH Hs. destruct (branches n !! l) as [d|]; cbn [default from_option id]; lia.
Qed.

Lemma remove_path_size n p v :
  values_size n =
    values_size (remove_path n p v).2 + (if (remove_path n p v).1 then 1 else 0).
Proof.
  revert n. induction p as [|l p IH]; intros n; cbn [remove_path].
  - rewrite !values_size_unfold. simpl. case_bool_decide as Hv.
    + rewrite size_difference, size_singleton by set_solver.
      assert (size {[v]} <= size (values n)) as Hle by (apply subseteq_size; set_solver).
      rewrite size_singleton in Hle. lia.
    + replace (values n ∖ {[v]}) with (values n) by set_solver. lia.
  - destruct (branches n !! l) as [x|] eqn:Hx; [|simpl; lia].
    specialize (IH x). destruct (remove_path x p v) as [r c]. simpl fst in *. simpl snd in *.
    rewrite (values_size_unfold (mkNode _ _)), (values_size_unfold n). simpl.
    rewrite (map_sum_delete values_size (branches n) l x) by done.
    destruct (is_leaf c) eqn:Hl; [apply is_leaf_size in Hl; lia|].
    pose proof (map_sum_insert values_size (branches n) l c) as Hs.
    rewrite Hx in Hs. simpl in Hs.
    pose proof (map_sum_delete values_size (branches n) l x Hx). lia.
Qed.

(** ** The iterator against an eager walk *)

Definition opt_item (sp : list Level) (vs : gset V) : list item :=
  if bool_decide (vs = ∅) then [] else [(sp, vs)].

Definition hash_items (n : Node) (sp : list Level) : list item :=
  match branches n !! MultiWildcard with
  | Some c => opt_item (sp ++ [MultiWildcard]) (values c)
  | None => []
  end.

(** The items in the order the iterator yields them. *)
Fixpoint walk (n : Node) (path sp : list Level) : list item :=
  match path with
  | [] => opt_item sp (values n) ++ hash_items n sp
  | p0 :: rest =>
      let child l :=
        match branches n !! l with
        | Some c => walk c rest (sp ++ [l])
        | None => []
        end in
      (if dollar_guard n p0 sp then [] else hash_items n sp ++ child SingleWildcard)
      ++ child p0
  end.

Definition walk_child (n : Node) (rest sp : list Level) (l : Level) : list item :=
  match branches n !! l with Some c => walk c rest (sp ++ [l]) | None => [] end.

(** What is still to come from an iterator. *)
Fixpoint den (it : MatchedIter) : list item :=
  let '(mkIter n path sub_path curr subs) := it in
  reverse curr ++ List.flat_map den subs
  ++ match sub_path with Some sp => walk n path sp | None => [] end.

(** The states the iterator goes through: not prepared yet and empty, or
    prepared, with sub-iterators on shorter paths. *)
Fixpoint iter_ok (fuel : nat) (it : MatchedIter) : Prop :=
  match fuel with
  | O => False
  | S fuel =>
      let '(mkIter n path sub_path curr subs) := it in
      match sub_path with
      | Some _ => curr = [] /\ subs = [] /\ length path <= fuel
      | None => Forall (iter_ok fuel) subs
      end
  end.

Lemma pop_reverse {A} (l : list A) :
  match pop l with
  | Some (x, l') => reverse l = x :: reverse l'
  | None => l = []
  end.
Proof.
  induction l as [|x l IH]; [done|]. simpl. destruct l as [|y l]; [done|].
  destruct (pop (y :: l)) as [[z l']|]; [|done].
  rewrite (reverse_cons (y :: l) x), IH, reverse_cons. done.
Qed.

Lemma den_new n path sp : den (new n path sp) = walk n path sp.
Proof. done. Qed.

Lemma push_hash_items n sp : reverse (push_hash n sp []) = hash_items n sp.
Proof.
  unfold push_hash, hash_items, add_to_items, opt_item.
  destruct (branches n !! MultiWildcard); [|done]. by case_bool_decide.
Qed.

Lemma push_sub_den n l rest sp subs :
  List.flat_map den (push_sub n l rest sp subs) =
    List.flat_map den subs ++ walk_child n rest sp l.
Proof.
  unfold push_sub, walk_child. destruct (branches n !! l); [|by rewrite app_nil_r].
  rewrite List.flat_map_app. simpl. by rewrite !app_nil_r.
Qed.

Lemma push_sub_ok fuel n l rest sp subs :
  length rest < fuel -> Forall (iter_ok fuel) subs ->
  Forall (iter_ok fuel) (push_sub n l rest sp subs).
Proof.
  intros Hf Hs. unfold push_sub. destruct (branches n !! l); [|done].
  apply Forall_app; split; [done|]. constructor; [|done].
  destruct fuel; [lia|]. simpl. split_and!; [done..|lia].
Qed.

(** Preparing keeps what is to come. *)
Lemma prepare_spec fuel n path sp :
  length path <= fuel ->
  exists curr subs,
    prepare (new n path sp) = Some (mkIter n path None curr subs) /\
    Forall (iter_ok fuel) subs /\
    den (mkIter n path None curr subs) = walk n path sp.
Proof.
  intros Hf. destruct path as [|p0 rest]; simpl.
  - eexists _, []. split_and!; [done|done|]. rewrite !app_nil_r.
    unfold add_to_items, opt_item. case_bool_decide; [apply push_hash_items|].
    by rewrite reverse_snoc, push_hash_items.
  - eexists _, _. split_and!; [done|..].
    + simpl in Hf. destruct (dollar_guard n p0 sp); repeat apply push_sub_ok; done || lia.
    + rewrite app_nil_r, push_sub_den. change (match branches n !! p0 with
        | Some c => walk c rest (sp ++ [p0]) | None => [] end) with (walk_child n rest sp p0).
      destruct (dollar_guard n p0 sp); [done|].
      rewrite push_sub_den, push_hash_items. simpl. by rewrite !app_assoc.
Qed.

(** [f] yields the head of what is to come and moves past it. *)
Definition steps (fuel : nat) (f : MatchedIter -> option (option item * MatchedIter))
    (it : MatchedIter) : Prop :=
  exists it', f it = Some (head (den it), it') /\ den it' = tail (den it) /\ iter_ok fuel it'.

Lemma next_sub_spec fuel nx subs :
  (forall s, iter_ok fuel s -> steps fuel nx s) -> Forall (iter_ok fuel) subs ->
  exists subs', next_sub nx subs = Some (head (List.flat_map den subs), subs') /\
    List.flat_map den subs' = tail (List.flat_map den subs) /\ Forall (iter_ok fuel) subs'.
Proof.
  intros Hnx Hs. induction Hs as [|s subs Hs Hsubs IH]; simpl; [by exists []|].
  destruct (Hnx s Hs) as (s' & -> & Hd & Hok). destruct (den s) as [|x d]; simpl in *.
  - exact IH.
  - exists (s' :: subs). simpl. rewrite Hd. split_and!; [done..|by constructor].
Qed.

Lemma next_item_spec fuel nx n path curr subs :
  (forall s, iter_ok fuel s -> steps fuel nx s) -> Forall (iter_ok fuel) subs ->
  steps (S fuel) (next_item nx) (mkIter n path None curr subs).
Proof.
  intros Hnx Hs. unfold steps. simpl. rewrite app_nil_r.
  pose proof (pop_reverse curr) as Hpop. destruct (pop curr) as [[x curr']|].
  - rewrite Hpop. eexists. split; [done|]. simpl. by rewrite app_nil_r.
  - subst curr. destruct (next_sub_spec fuel nx subs Hnx Hs) as (subs' & -> & Hd & Hok).
    eexists. split; [done|]. simpl. by rewrite app_nil_r, Hd.
Qed.

Lemma next_spec fuel it : iter_ok fuel it -> steps fuel (next fuel) it.
Proof.
  revert it. induction fuel as [|fuel IH]; intros it Hok; [done|].
  destruct it as [n path [sp|] curr subs].
  - destruct Hok as (-> & -> & Hlen). unfold steps. cbn [next next_item pop next_sub].
    destruct (prepare_spec fuel n path sp Hlen) as (curr & subs & Hp & Hs & Hd).
    unfold new in Hp. rewrite Hp.
    change (den (mkIter n path (Some sp) [] [])) with (walk n path sp). rewrite <- Hd.
    exact (next_item_spec fuel (next fuel) n path curr subs IH Hs).
  - destruct (next_item_spec fuel (next fuel) n path curr subs IH Hok) as (it' & Hn & Hd & Hok').
    unfold steps. cbn [next]. rewrite Hn. destruct (den _) as [|x d]; simpl in Hd |- *.
    + unfold next_item in Hn.
      destruct (pop curr) as [[]|]; [by injection Hn as _ <-; eexists|].
      destruct (next_sub (next fuel) subs) as [[r subs']|]; [|done].
      injection Hn as -> <-. by eexists.
    + by exists it'.
Qed.

Lemma collect_den count fuel it :
  iter_ok fuel it -> length (den it) < count -> collect count fuel it = Some (den it).
Proof.
  revert it. induction count as [|count IH]; intros it Hok Hlen; [lia|]. simpl.
  destruct (next_spec fuel it Hok) as (it' & -> & Hd & Hok').
  destruct (den it) as [|x d] eqn:Hden; simpl in *; [done|].
  rewrite IH by (done || (rewrite Hd; lia)). by rewrite Hd.
Qed.

Lemma matches_ok n topic : iter_ok (S (length topic)) (matches n topic).
Proof. by simpl. Qed.

Lemma collect_walk n topic count :
  length (walk n topic []) < count ->
  collect count (S (length topic)) (matches n topic) = Some (walk n topic []).
Proof. intros H'. apply (collect_den count _ (matches n topic)); [apply matches_ok|done]. Qed.

Lemma is_match_walk n topic :
  is_match n topic = Some (negb (bool_decide (walk n topic [] = []))).
Proof.
  unfold is_match.
  destruct (next_spec _ _ (matches_ok n topic)) as (it' & -> & _ & _).
  change (den (matches n topic)) with (walk n topic []). by destruct (walk n topic []).
Qed.

(** ** The walk finds the matching filters *)

Lemma elem_opt_item fs vs sp w :
  (fs, vs) ∈ opt_item sp w <-> fs = sp /\ vs = w /\ w <> ∅.
Proof.
  unfold opt_item. case_bool_decide.
  - split; [by intros ?%not_elem_of_nil|naive_solver].
  - rewrite list_elem_of_singleton. split; [by intros [= -> ->]|by intros (-> & -> & _)].
Qed.

Lemma elem_hash_items n fs vs sp :
  (fs, vs) ∈ hash_items n sp <->
    fs = sp ++ [MultiWildcard] /\ vs = lookup_path n [MultiWildcard] /\ vs <> ∅.
Proof.
  unfold hash_items. simpl. destruct (branches n !! MultiWildcard) as [c|].
  - rewrite elem_opt_item. naive_solver.
  - split; [by intros ?%not_elem_of_nil|naive_solver].
Qed.

(** The guard only leaves out what a [$] topic must not reach. *)
Lemma walk_step n p0 rest sp :
  walk n (p0 :: rest) sp =
    (if bool_decide (sp = []) && Level_is_metadata p0 then []
     else hash_items n sp ++ walk_child n rest sp SingleWildcard) ++ walk_child n rest sp p0.
Proof.
  unfold walk_child. simpl. f_equal. unfold dollar_guard, hash_items.
  destruct (bool_decide (sp = [])); [|done].
  destruct p0; simpl; try done.
  destruct (branches n !! MultiWildcard); [done|].
  by destruct (branches n !! SingleWildcard).
Qed.

(** A filter against a topic of at least one literal level. *)
Lemma levels_match_cons q p0 rest :
  is_wildcard p0 = false ->
  hash_last q = true /\ levels_match level_eq_level q (p0 :: rest) = true <->
    q = [MultiWildcard] \/
    exists l q', (l = SingleWildcard \/ l = p0) /\ q = l :: q' /\ hash_last q' = true /\
      levels_match level_eq_level q' rest = true.
Proof.
  intros Hw. split.
  - intros [Hl Hm]. destruct q as [|l q]; [done|].
    destruct l; [| | |right; exists SingleWildcard, q; by auto|by destruct q; [left|]];
      simpl in Hl, Hm; apply andb_true_iff in Hm as [He Hm]; apply bool_decide_eq_true in He;
      right; eexists _, q; by eauto.
  - intros [->|(l & q' & Hl & -> & Hq & Hm)]; [done|].
    destruct Hl as [->| ->]; [done|].
    assert (He : level_eq_level p0 p0 = true) by (by apply bool_decide_true).
    by destruct p0; simpl in Hw |- *; rewrite ?He, ?Hm.
Qed.

Lemma walk_child_elem n rest sp fs vs l :
  (forall c, (fs, vs) ∈ walk c rest (sp ++ [l]) <-> exists q, fs = (sp ++ [l]) ++ q /\
     hash_last q = true /\ vs = lookup_path c q /\ vs <> ∅ /\
     levels_match level_eq_level q rest = true) ->
  (fs, vs) ∈ walk_child n rest sp l <-> exists q, fs = sp ++ l :: q /\
     hash_last q = true /\ vs = lookup_path n (l :: q) /\ vs <> ∅ /\
     levels_match level_eq_level q rest = true.
Proof.
  intros IH. unfold walk_child. simpl. destruct (branches n !! l) as [c|].
  - rewrite (IH c). f_equiv. intros q. by rewrite <- app_assoc.
  - split; [by intros ?%not_elem_of_nil|]. intros (q & _ & _ & -> & ? & _). done.
Qed.

Lemma walk_elem path n sp fs vs :
  wildcard_free path ->
  (fs, vs) ∈ walk n path sp <-> exists q, fs = sp ++ q /\
     (hash_last q = true /\ levels_match level_eq_level q path = true) /\
     vs = lookup_path n q /\ vs <> ∅ /\
     (sp = [] -> dollar_isolated Level_is_metadata q path = true).
Proof.
  intros Hw. revert n sp. induction Hw as [|p0 rest Hp0 Hw IH]; intros n sp.
  - simpl. rewrite elem_of_app, elem_opt_item, elem_hash_items. split.
    + intros [(-> & -> & Hne)|(-> & -> & Hne)];
        [exists []; by rewrite app_nil_r|by exists [MultiWildcard]].
    + intros (q & -> & [Hl Hm] & -> & Hne & _). destruct q as [|[] [|]]; try done;
        [left; by rewrite app_nil_r|by right].
  - assert (Hc : forall l, (fs, vs) ∈ walk_child n rest sp l <-> exists q, fs = sp ++ l :: q /\
       hash_last q = true /\ vs = lookup_path n (l :: q) /\ vs <> ∅ /\
       levels_match level_eq_level q rest = true).
    { intros l. apply walk_child_elem. intros c. rewrite IH. f_equiv. intros q.
      destruct sp; naive_solver. }
    rewrite walk_step, elem_of_app, Hc.
    destruct (decide (sp = [] /\ Level_is_metadata p0 = true)) as [[-> Hm]|Hnm].
    + rewrite bool_decide_true, Hm by done. cbn [andb]. split.
      * intros [Hin|(q & -> & Hl & -> & Hne & Hlm)]; [by apply not_elem_of_nil in Hin|].
        exists (p0 :: q). split; [done|]. split; [apply levels_match_cons; naive_solver|].
        split_and!; [done..|]. intros _. simpl. by rewrite Hp0.
      * intros (q & -> & [-> |(l & q' & [-> | ->] & -> & Hl & Hlm)]%levels_match_cons
                   & -> & Hne & Hd); [..|done]; right; simpl in Hd; rewrite Hm in Hd;
          try by specialize (Hd eq_refl).
        by exists q'.
    + replace (bool_decide (sp = []) && Level_is_metadata p0) with false.
      2: { case_bool_decide; [|done]. destruct (Level_is_metadata p0); naive_solver. }
      assert (Hiso : forall q, sp = [] ->
                dollar_isolated Level_is_metadata q (p0 :: rest) = true).
      { intros [|l q] ->; simpl; [done|]. destruct (Level_is_metadata p0); [naive_solver|].
        by rewrite andb_false_r. }
      rewrite elem_of_app, Hc, elem_hash_items. split.
      * intros [[(-> & -> & Hne)|(q & -> & Hl & -> & Hne & Hlm)]|(q & -> & Hl & -> & Hne & Hlm)];
          eexists; (split; [done|]); (split; [apply levels_match_cons; [done|]|by auto]);
          [by left|right; by eexists SingleWildcard, q; auto|right; by eexists p0, q; auto].
      * intros (q & -> & [-> |(l & q' & [-> | ->] & -> & Hl & Hlm)]%levels_match_cons
                   & -> & Hne & Hd); [left; by left|left; right|right|done]; by exists q'.
Qed.

Lemma walk_prefix path n sp f :
  wildcard_free path -> f ∈ (walk n path sp).*1 -> exists q, f = sp ++ q.
Proof.
  intros Hw ([fs vs] & -> & Hin)%list_elem_of_fmap.
  apply walk_elem in Hin as (q & -> & _); [by exists q|done].
Qed.

Lemma walk_child_prefix n rest sp l f :
  wildcard_free rest -> f ∈ (walk_child n rest sp l).*1 -> exists q, f = sp ++ l :: q.
Proof.
  unfold walk_child. intros Hw Hin. destruct (branches n !! l) as [c|].
  - apply walk_prefix in Hin as [q ->]; [|done]. exists q. by rewrite <- app_assoc.
  - by apply not_elem_of_nil in Hin.
Qed.

Lemma hash_items_prefix n sp f : f ∈ (hash_items n sp).*1 -> f = sp ++ [MultiWildcard].
Proof. by intros ([fs vs] & -> & [-> _]%elem_hash_items)%list_elem_of_fmap. Qed.

Lemma NoDup_opt_item sp vs : NoDup (opt_item sp vs).*1.
Proof. unfold opt_item. case_bool_decide; simpl; [constructor|apply NoDup_singleton]. Qed.

Lemma NoDup_hash_items n sp : NoDup (hash_items n sp).*1.
Proof.
  unfold hash_items. destruct (branches n !! MultiWildcard); [apply NoDup_opt_item|constructor].
Qed.

(** No filter is reported twice. *)
Lemma walk_NoDup path n sp : wildcard_free path -> NoDup (walk n path sp).*1.
Proof.
  intros Hw. revert n sp. induction Hw as [|p0 rest Hp0 Hw IH]; intros n sp.
  - simpl. rewrite fmap_app. apply NoDup_app.
    split_and!; [apply NoDup_opt_item| |apply NoDup_hash_items].
    intros f ([fs vs] & -> & [-> _]%elem_opt_item)%list_elem_of_fmap Hin.
    apply hash_items_prefix in Hin. simpl in Hin. apply (f_equal length) in Hin.
    rewrite length_app in Hin. simpl in Hin. lia.
  - assert (Hc : forall l, NoDup (walk_child n rest sp l).*1).
    { intros l. unfold walk_child. destruct (branches n !! l); [apply IH|constructor]. }
    rewrite walk_step, fmap_app.
    apply NoDup_app; split_and!; [|intros f Hf Hg|apply Hc].
    + destruct (_ && _); [constructor|]. rewrite fmap_app.
      apply NoDup_app; split_and!; [apply NoDup_hash_items| |apply Hc].
      intros f ->%hash_items_prefix [q Hq]%walk_child_prefix; [|done].
      by apply app_inv_head in Hq.
    + apply walk_child_prefix in Hg as [q ->]; [|done].
      destruct (_ && _); [by apply not_elem_of_nil in Hf|].
      rewrite fmap_app in Hf. apply elem_of_app in Hf as [Hf|Hf].
      * apply hash_items_prefix, app_inv_head in Hf. by injection Hf as ->.
      * apply walk_child_prefix in Hf as [q' Hq]; [|done].
        apply app_inv_head in Hq. by injection Hq as ->.
Qed.
End trie.

Arguments Node V {_ _}.

(** ** Properties *)

Section properties.
Context {V : Type} `{Countable V}.
Implicit Types (n : Node V) (topic filter : Topic) (v : V).

(** C23. Matching a topic name: iterated to its end, the lazy iterator
    terminates and yields exactly the stored filters that match the topic
    by the rules of MQTT (the [$] rule included), each once, with all the
    values stored under it. *)
Theorem trie_matches_correct n topic :
  wildcard_free topic ->
  exists items,
    (forall count, length items < count ->
       collect count (S (length topic)) (matches n topic) = Some items) /\
    NoDup items.*1 /\
    forall filter vs, (filter, vs) ∈ items <->
      hash_last filter = true /\ mqtt_match_levels filter topic = true /\
      vs = lookup_path n filter /\ vs <> ∅.
Proof.
  intros Hw. exists (walk n topic []). split_and!.
  - intros count. apply collect_walk.
  - by apply walk_NoDup.
  - intros filter vs. rewrite walk_elem by done. unfold mqtt_match_levels, mqtt_match.
    rewrite andb_true_iff. split.
    + intros (q & -> & [? ?] & ? & ? & ?). by auto.
    + intros (? & [? ?] & ? & ?). by exists filter.
Qed.

(** [is_match] returns, and tells whether some stored filter matches. *)
Theorem trie_is_match_correct n topic :
  wildcard_free topic ->
  exists b, is_match n topic = Some b /\
    (b = true <-> exists filter v, v ∈ lookup_path n filter /\
       hash_last filter = true /\ mqtt_match_levels filter topic = true).
Proof.
  intros Hw. rewrite is_match_walk. eexists. split; [done|].
  rewrite negb_true_iff, bool_decide_eq_false. split.
  - intros Hne. destruct (walk n topic []) as [|[fs vs] d] eqn:Hd; [done|].
    assert (Hin : (fs, vs) ∈ walk n topic []) by (rewrite Hd; apply list_elem_of_here).
    apply walk_elem in Hin as (q & _ & [? ?] & -> & Hvs & Hiso); [|done].
    apply set_choose_L in Hvs as [v Hv]. exists q, v. split_and!; [done..|].
    unfold mqtt_match_levels, mqtt_match. by rewrite Hiso.
  - intros (q & v & Hv & Hl & [Hd Hm]%andb_true_iff) Hnil.
    assert (Hin : (q, lookup_path n q) ∈ walk n topic []).
    { apply walk_elem; [done|]. exists q. split_and!; try done. set_solver. }
    rewrite Hnil in Hin. by apply not_elem_of_nil in Hin.
Qed.

(** [insert] adds the value under its filter and changes nothing else;
    it returns whether the value is new; it keeps the tree pruned, and the
    stored count grows by one exactly when it returns [true]. *)
Theorem trie_insert_refines n filter v :
  (forall q, lookup_path (insert n filter v).2 q =
     if decide (filter = q) then {[v]} ∪ lookup_path n q else lookup_path n q) /\
  (insert n filter v).1 = bool_decide (v ∉ lookup_path n filter) /\
  (pruned n -> pruned (insert n filter v).2) /\
  values_size (insert n filter v).2 = values_size n + (if (insert n filter v).1 then 1 else 0).
Proof.
  unfold insert. split_and!.
  - intros q. apply insert_path_lookup.
  - apply insert_path_result.
  - apply insert_path_pruned.
  - apply insert_path_size.
Qed.

(** [remove] takes the value away from its filter and changes nothing
    else; it returns whether the value was there; it prunes the branches it
    empties, and the stored count shrinks by one exactly when it returns
    [true]. *)
Theorem trie_remove_refines n filter v :
  (forall q, lookup_path (remove n filter v).2 q =
     if decide (filter = q) then lookup_path n q ∖ {[v]} else lookup_path n q) /\
  (remove n filter v).1 = bool_decide (v ∈ lookup_path n filter) /\
  (pruned n -> pruned (remove n filter v).2) /\
  values_size n = values_size (remove n filter v).2 + (if (remove n filter v).1 then 1 else 0).
Proof.
  unfold remove. split_and!.
  - intros q. apply remove_path_lookup.
  - apply remove_path_result.
  - apply remove_path_pruned.
  - apply remove_path_size.
Qed.

(** Removing what was just inserted restores the tree itself, node for
    node: no empty branch stays behind. *)
Theorem trie_insert_remove n filter v :
  pruned n -> v ∉ lookup_path n filter ->
  (remove (insert n filter v).2 filter v).2 = n.
Proof.
  intros Hn Hv. unfold insert, remove. apply pruned_ext; [|done|].
  - by apply remove_path_pruned, insert_path_pruned.
  - intros p. rewrite remove_path_lookup, insert_path_lookup.
    destruct (decide (filter = p)) as [->|]; [set_solver|done].
Qed.
End properties.

(** ** Witnesses: a tree with wildcard and [$] filters *)

Definition sample : Node nat :=
  let add fs v n := (insert n fs v).2 in
  add [Normal "a"%string; MultiWildcard] 1
    (add [SingleWildcard; Normal "b"%string] 2
       (add [Normal "a"%string; Normal "b"%string] 3
          (add [MultiWildcard] 4 (add [Metadata "$S"%string; SingleWildcard] 5 Node_default)))).

Lemma trie_matches_correct_witness :
  collect 9 3 (matches sample [Normal "a"%string; Normal "b"%string]) =
    Some [([MultiWildcard], {[4]}); ([SingleWildcard; Normal "b"%string], {[2]});
          ([Normal "a"%string; MultiWildcard], {[1]});
          ([Normal "a"%string; Normal "b"%string], {[3]})] /\
  exists items,
    (forall count, length items < count ->
       collect count 3 (matches sample [Metadata "$S"%string; Normal "b"%string]) = Some items) /\
    NoDup items.*1 /\
    forall filter vs, (filter, vs) ∈ items <->
      hash_last filter = true /\
      mqtt_match_levels filter [Metadata "$S"%string; Normal "b"%string] = true /\
      vs = lookup_path sample filter /\ vs <> ∅.
Proof.
  split; [vm_compute; reflexivity|].
  apply (trie_matches_correct sample [Metadata "$S"%string; Normal "b"%string]).
  repeat constructor.
Defined.

Lemma trie_is_match_correct_witness :
  is_match sample [Metadata "$S"%string] = Some false /\
  exists b, is_match sample [Metadata "$S"%string] = Some b /\
    (b = true <-> exists filter v, v ∈ lookup_path sample filter /\
       hash_last filter = true /\ mqtt_match_levels filter [Metadata "$S"%string] = true).
Proof.
  split; [vm_compute; reflexivity|].
  apply (trie_is_match_correct sample [Metadata "$S"%string]). repeat constructor.
Defined.

Lemma trie_insert_remove_witness :
  (remove (insert (insert (V := nat) Node_default [Normal "a"%string] 1).2
             [Normal "a"%string; MultiWildcard] 7).2 [Normal "a"%string; MultiWildcard] 7).2
  = (insert Node_default [Normal "a"%string] 1).2.
Proof.
  apply (trie_insert_remove (V := nat)).
  - apply insert_path_pruned, pruned_default.
  - vm_compute. set_solver.
Defined.
End Trie.
