(* ===== verification/BrokerTypes.v ===== *)
(** * Broker types: [types.rs], [utils/counter.rs]

    The identity of a client ([Id]), the origin of a message ([From]), the
    broker's [Publish] around the codec's, and the statistics [Counter].
    Byte strings are their bytes; a socket address is its printed IP and
    its port, as the code only compares and prints it. *)

From stdpp Require Import prelude list.
From Stdlib Require Import ZArith Lia.
From S2P Require Import Prelude CodecTypes.

Local Open Scope Z_scope.

(** ** Identities *)

Record SocketAddr : Type := mkSocketAddr { ip : bytes; port : Z }.

#[global] Instance SocketAddr_eq_dec : EqDecision SocketAddr.
Proof. solve_decision. Defined.

Record Id : Type := mkId {
  node_id : Z;
  lid : Z;
  local_addr : option SocketAddr;
  remote_addr : option SocketAddr;
  client_id : bytes;
  username : option bytes;
  create_time : Z;
}.

#[global] Instance Id_eq_dec : EqDecision Id.
Proof. solve_decision. Defined.

(** [Id::new], at the time [now], and [Id::from]. *)
Definition Id_new (now node lid : Z) (la ra : option SocketAddr) (client : bytes)
    (user : option bytes) : Id := mkId node lid la ra client user now.

Definition Id_from (now node : Z) (client : bytes) : Id :=
  Id_new now node 0 None None client None.

(** [PartialEq for Id], field by field. *)
Definition Id_eq (a b : Id) : bool :=
  bool_decide (node_id a = node_id b) && bool_decide (lid a = lid b)
  && bool_decide (client_id a = client_id b) && bool_decide (local_addr a = local_addr b)
  && bool_decide (remote_addr a = remote_addr b) && bool_decide (username a = username b)
  && bool_decide (create_time a = create_time b).

Lemma Id_eq_spec a b : Id_eq a b = true <-> a = b.
Proof.
  unfold Id_eq. rewrite !andb_true_iff, !bool_decide_eq_true.
  destruct a, b; simpl. split.
  - by intros [[[[[[-> ->] ->] ->] ->] ->] ->].
  - by intros [= -> -> -> -> -> -> ->].
Qed.

Inductive FromType : Type := Custom | Admin | System | LastWillFrom | Bridge.

#[global] Instance FromType_eq_dec : EqDecision FromType.
Proof. solve_decision. Defined.

Record From : Type := mkFrom { typ : FromType; id : Id }.

Definition From_is_system (f : From) : bool := bool_decide (typ f = System).
Definition From_is_custom (f : From) : bool := bool_decide (typ f = Custom).

(** ** Messages *)

Module BPublish.
Record t : Type := mk {
  inner : Publish;
  target_clientid : option bytes;
  delay_interval : option Z;
  create_time : option Z;
}.

(** [From<CodecPublish> for Publish]. *)
Definition from (p : Publish) : t := mk p None None None.

(** Through [Deref]. *)
Definition packet_id (p : t) : option Z := CodecTypes.packet_id (inner p).
End BPublish.
Abbreviation BPublish := BPublish.t.

(** ** Counters

    The current value and the maximum, each an [AtomicIsize], and the
    merge mode. The atomic additions wrap around. *)

(** A 64-bit [isize]. *)
Definition isize (z : Z) : Z := (z + 2 ^ 63) mod 2 ^ 64 - 2 ^ 63.

Module Counter.
Inductive StatsMergeMode : Type := NoMerge | Sum | Average | Max | Min.

Record t : Type := mk { current : Z; maximum : Z; mode : StatsMergeMode }.

Definition new : t := mk 0 0 NoMerge.
Definition new_with (c m : Z) (mode : StatsMergeMode) : t := mk c m mode.

(** [prev + c] is computed after the wrapping [fetch_add]; the build with
    overflow checks panics when it leaves the range of [isize], the release
    build wraps it as here. *)
Definition incs (s : t) (c : Z) : t :=
  mk (isize (current s + c)) (Z.max (maximum s) (isize (current s + c))) (mode s).
Definition inc (s : t) : t := incs s 1.
Definition current_incs (s : t) (c : Z) : t := mk (isize (current s + c)) (maximum s) (mode s).
Definition current_inc (s : t) : t := current_incs s 1.
Definition current_set (s : t) (c : Z) : t := mk c (maximum s) (mode s).
Definition sets (s : t) (c : Z) : t :=
  let s := current_set s c in mk (current s) (Z.max (maximum s) c) (mode s).
Definition decs (s : t) (c : Z) : t := mk (isize (current s - c)) (maximum s) (mode s).
Definition dec (s : t) : t := decs s 1.
Definition count_min (s : t) (c : Z) : t := mk (Z.min (current s) c) (maximum s) (mode s).
Definition count_max (s : t) (c : Z) : t := mk (Z.max (current s) c) (maximum s) (mode s).
Definition max_max (s : t) (m : Z) : t := mk (current s) (Z.max (maximum s) m) (mode s).
Definition max_min (s : t) (m : Z) : t := mk (current s) (Z.min (maximum s) m) (mode s).

Definition add (s o : t) : t :=
  mk (isize (current s + current o)) (isize (maximum s + maximum o)) (mode s).

Definition set (s o : t) : t := mk (current o) (maximum o) (mode s).

(** [stats_merge]; averaging is not implemented and does nothing. *)
Definition stats_merge (m : StatsMergeMode) (c o : t) : t :=
  match m with
  | NoMerge => c
  | Sum => add c o
  | Max => max_max (count_max c (current o)) (maximum o)
  | Min => max_min (count_min c (current o)) (maximum o)
  | Average => c
  end.

Definition merge (s o : t) : t := stats_merge (mode s) s o.

(** ** Facts *)

Lemma isize_id z : - 2 ^ 63 <= z < 2 ^ 63 -> isize z = z.
Proof. intros H. unfold isize. rewrite Z.mod_small by lia. lia. Qed.

Lemma isize_range z : - 2 ^ 63 <= isize z < 2 ^ 63.
Proof. unfold isize. pose proof (Z.mod_pos_bound (z + 2 ^ 63) (2 ^ 64)). lia. Qed.

(** Wrapping commutes with further additions. *)
Lemma isize_add a b : isize (isize a + b) = isize (a + b).
Proof.
  unfold isize. f_equal.
  replace ((a + 2 ^ 63) mod 2 ^ 64 - 2 ^ 63 + b + 2 ^ 63)
    with ((a + 2 ^ 63) mod 2 ^ 64 + b) by lia.
  rewrite Zplus_mod_idemp_l. f_equal. lia.
Qed.

(** The operations a gauge is driven with. *)
Inductive op : Type := Inc | Dec | Incs (c : Z) | Decs (c : Z).

Definition apply (s : t) (o : op) : t :=
  match o with Inc => inc s | Dec => dec s | Incs c => incs s c | Decs c => decs s c end.

Definition delta (o : op) : Z :=
  match o with Inc => 1 | Dec => -1 | Incs c => c | Decs c => - c end.

Definition total (ops : list op) : Z := foldr (fun o z => delta o + z) 0 ops.

Lemma apply_current s o : current (apply s o) = isize (current s + delta o).
Proof. by destruct o; simpl; unfold inc, dec, incs, decs; simpl. Qed.

Lemma run_current s ops :
  isize (current (foldl apply s ops)) = isize (current s + total ops).
Proof.
  revert s. induction ops as [|o ops IH]; intros s; simpl; [by rewrite Z.add_0_r|].
  by rewrite IH, apply_current, isize_add, Z.add_assoc.
Qed.

(** A gauge counts exactly: after any sequence of increments and
    decrements, by any amounts, the current value is the starting value
    plus the sum of the changes whenever that sum is in range, whatever
    wrapped around on the way; and the maximum never goes down and bounds
    the value after every increment. *)
Theorem counter_exact (s : t) (ops : list op) :
  - 2 ^ 63 <= current s < 2 ^ 63 -> - 2 ^ 63 <= current s + total ops < 2 ^ 63 ->
  current (foldl apply s ops) = current s + total ops /\
  maximum s <= maximum (foldl apply s ops) /\
  (forall c, current (incs (foldl apply s ops) c) <= maximum (incs (foldl apply s ops) c)).
Proof.
  intros Hs Ht. split_and!.
  - pose proof (run_current s ops) as Hr.
    rewrite (isize_id (current s + total ops)) in Hr by done. rewrite <- Hr. symmetry.
    apply isize_id. clear Ht Hr. revert s Hs.
    induction ops as [|o ops IH]; intros s Hs; simpl; [done|].
    apply IH. rewrite apply_current. apply isize_range.
  - clear Hs Ht. revert s. induction ops as [|o ops IH]; intros s; simpl; [lia|].
    specialize (IH (apply s o)). destruct o; simpl in *; lia.
  - intros c. simpl. lia.
Qed.

Lemma counter_exact_witness :
  current (foldl apply new [Inc; Incs 5; Dec; Decs 3]) = 0 + total [Inc; Incs 5; Dec; Decs 3] /\
  maximum new <= maximum (foldl apply new [Inc; Incs 5; Dec; Decs 3]) /\
  (forall c, current (incs (foldl apply new [Inc; Incs 5; Dec; Decs 3]) c)
     <= maximum (incs (foldl apply new [Inc; Incs 5; Dec; Decs 3]) c)).
Proof. apply (counter_exact new [Inc; Incs 5; Dec; Decs 3]); simpl; lia. Defined.
End Counter.
