(* ===== verification/Subscription.v ===== *)
(** * Subscriptions: [types.rs], [subscribe.rs]

    The options of a subscription, the [$share], [$limit] and [$exclusive]
    forms of a topic filter, the choice of a member of a shared group, and
    the collector that merges the subscriptions a message matches. *)

From stdpp Require Import prelude strings gmap countable list sorting.
From Stdlib Require Import ZArith Lia.
From S2P Require Import Prelude CodecTypes CodecV5Types Topic BrokerTypes.
Import RetainHandlingM.

Local Open Scope Z_scope.

(** ** Subscription options *)

Record SubOptionsV3 : Type := mkSubOptionsV3 {
  o3_qos : QoS;
  o3_shared_group : option string;
  o3_limit_subs : option Z;
}.

Record SubOptionsV5 : Type := mkSubOptionsV5 {
  o5_qos : QoS;
  o5_shared_group : option string;
  o5_limit_subs : option Z;
  o5_no_local : bool;
  o5_retain_as_published : bool;
  o5_retain_handling : RetainHandling;
  o5_id : option Z;
}.

Inductive SubscriptionOptions : Type :=
| OptsV3 (opts : SubOptionsV3)
| OptsV5 (opts : SubOptionsV5).

#[global] Instance SubOptionsV3_eq_dec : EqDecision SubOptionsV3.
Proof. solve_decision. Defined.
#[global] Instance SubOptionsV5_eq_dec : EqDecision SubOptionsV5.
Proof. solve_decision. Defined.
#[global] Instance SubscriptionOptions_eq_dec : EqDecision SubscriptionOptions.
Proof. solve_decision. Defined.

Definition default_options : SubscriptionOptions := OptsV3 (mkSubOptionsV3 AtMostOnce None None).

Definition no_local (o : SubscriptionOptions) : option bool :=
  match o with OptsV3 _ => None | OptsV5 o => Some (o5_no_local o) end.
Definition retain_as_published (o : SubscriptionOptions) : option bool :=
  match o with OptsV3 _ => None | OptsV5 o => Some (o5_retain_as_published o) end.
Definition retain_handling (o : SubscriptionOptions) : option RetainHandling :=
  match o with OptsV3 _ => None | OptsV5 o => Some (o5_retain_handling o) end.
Definition subscription_identifier (o : SubscriptionOptions) : option Z :=
  match o with OptsV3 _ => None | OptsV5 o => o5_id o end.
Definition opts_qos (o : SubscriptionOptions) : QoS :=
  match o with OptsV3 o => o3_qos o | OptsV5 o => o5_qos o end.
Definition qos_value (o : SubscriptionOptions) : Z := QoS_value (opts_qos o).
Definition set_qos (o : SubscriptionOptions) (q : QoS) : SubscriptionOptions :=
  match o with
  | OptsV3 o => OptsV3 (mkSubOptionsV3 q (o3_shared_group o) (o3_limit_subs o))
  | OptsV5 o => OptsV5 (mkSubOptionsV5 q (o5_shared_group o) (o5_limit_subs o) (o5_no_local o)
                          (o5_retain_as_published o) (o5_retain_handling o) (o5_id o))
  end.
Definition shared_group (o : SubscriptionOptions) : option string :=
  match o with OptsV3 o => o3_shared_group o | OptsV5 o => o5_shared_group o end.
Definition limit_subs (o : SubscriptionOptions) : option Z :=
  match o with OptsV3 o => o3_limit_subs o | OptsV5 o => o5_limit_subs o end.
Definition is_v3 (o : SubscriptionOptions) : bool :=
  match o with OptsV3 _ => true | OptsV5 _ => false end.

(** [From<(QoS, ..)>] and [From<(&SubscriptionOptionsV5, ..)>]. *)
Definition options_of_v3 (q : QoS) (group : option string) (limit : option Z) : SubscriptionOptions :=
  OptsV3 (mkSubOptionsV3 q group limit).
Definition options_of_v5 (o : V5.SubscriptionOptions) (group : option string) (limit : option Z)
    (id : option Z) : SubscriptionOptions :=
  OptsV5 (mkSubOptionsV5 (V5.so_qos o) group limit (V5.so_no_local o)
            (V5.so_retain_as_published o) (V5.so_retain_handling o) id).

(** ** Topic filters with a prefix: [parse_topic_filter] *)

(** The text before and after the first slash. *)
Fixpoint split_once (s : string) : option (string * string) :=
  match s with
  | EmptyString => None
  | String c s =>
      if bool_decide (c = slash) then Some (EmptyString, s)
      else match split_once s with Some (a, b) => Some (String c a, b) | None => None end
  end.

(** [splitn(3, '/')]: the first piece, and the second and third if any. *)
Definition splitn3 (s : string) : string * option string * option string :=
  match split_once s with
  | None => (s, None, None)
  | Some (a, r) =>
      match split_once r with
      | None => (a, Some r, None)
      | Some (b, c) => (a, Some b, Some c)
      end
  end.

(** [str::parse::<usize>]: an optional [+], at least one digit, in range. *)
Definition digit (c : Ascii.ascii) : option Z :=
  let n := Z.of_nat (Ascii.nat_of_ascii c) - 48 in
  if (0 <=? n) && (n <=? 9) then Some n else None.

Fixpoint parse_digits (acc : Z) (s : string) : option Z :=
  match s with
  | EmptyString => Some acc
  | String c s =>
      match digit c with
      | Some d =>
          let acc := acc * 10 + d in
          if acc <? 2 ^ 64 then parse_digits acc s else None
      | None => None
      end
  end.

Definition parse_usize (s : string) : option Z :=
  let body := match s with
              | String c s' => if bool_decide (c = plus_char) then s' else s
              | EmptyString => s
              end in
  if bool_decide (body = EmptyString) then None else parse_digits 0 body.

Fixpoint strip_prefix (p s : string) : option string :=
  match p, s with
  | EmptyString, _ => Some s
  | String c p, String d s => if bool_decide (c = d) then strip_prefix p s else None
  | String _ _, EmptyString => None
  end.

(** [trim_start_matches]: the prefix is taken off as often as it is there. *)
Fixpoint trim_loop (fuel : nat) (p s : string) : string :=
  match fuel with
  | O => s
  | S fuel => match strip_prefix p s with Some s' => trim_loop fuel p s' | None => s end
  end.
Definition trim_start_matches (p s : string) : string := trim_loop (String.length s) p s.

Inductive FilterError : Type :=
| IllegalFilter (s : string)
| SharedNotEnabled (s : string)
| LimitNotEnabled (s : string).

Definition parse_topic_filter (topic_filter : string) (shared_subscription limit_subscription : bool)
    : outcome FilterError (string * option string * option Z) :=
  let parsed :=
    if shared_subscription || limit_subscription then
      let '(first, second, third) := splitn3 topic_filter in
      if bool_decide (first = "$share"%string) then
        match shared_subscription, second, third with
        | true, Some group, Some tf => Ok (tf, Some group, None)
        | true, _, _ => Err (IllegalFilter topic_filter)
        | false, _, _ => Err (SharedNotEnabled topic_filter)
        end
      else if bool_decide (first = "$limit"%string) then
        match limit_subscription, second, third with
        | true, Some limit, Some tf =>
            match parse_usize limit with
            | Some n => Ok (tf, None, Some n)
            | None => Err (IllegalFilter topic_filter)
            end
        | true, _, _ => Err (IllegalFilter topic_filter)
        | false, _, _ => Err (LimitNotEnabled topic_filter)
        end
      else if bool_decide (first = "$exclusive"%string) then
        if limit_subscription then
          Ok (trim_start_matches "$exclusive/" topic_filter, None, Some 1)
        else Err (LimitNotEnabled topic_filter)
      else Ok (topic_filter, None, None)
    else Ok (topic_filter, None, None) in
  match parsed with
  | Ok (topic, group, limit) =>
      if bool_decide (topic = EmptyString) then Err (IllegalFilter topic_filter)
      else Ok (topic, group, limit)
  | o => o
  end.

(** ** Shared subscriptions *)

(** A member of a shared group, with its subscription identifiers and
    whether it is online. *)
Definition Candidate : Type := Z * bytes * SubscriptionOptions * option (list Z) * option bool.

Definition cand_online (c : Candidate) : option bool := c.2.

(** The [SharedSubscription] trait: [choice] selects a member by its index
    and tells whether it is online. The implementation keeps a state. *)
Class SharedSubscription (S : Type) : Type := {
  choice : S -> string -> Id -> string -> list Candidate -> option (nat * bool) * S;
}.

(** What a caller relies on: the index is that of a member (it is used to
    remove the member from the vector, which panics otherwise), and a
    group with members has one selected. *)
Class SharedSubscriptionOk (S : Type) `{SharedSubscription S} : Prop := {
  choice_in_range s group publisher topic ncs idx online s' :
    choice s group publisher topic ncs = (Some (idx, online), s') -> (idx < length ncs)%nat;
  choice_some s group publisher topic ncs :
    ncs <> [] -> exists r s', choice s group publisher topic ncs = (Some r, s');
}.

Module DefaultShared.
(** [SHARED_SUB_SEQ]. *)
Definition Seq : Type := Z.

Definition is_online_at (ncs : list Candidate) (idx : nat) : bool :=
  match ncs !! idx with Some c => bool_decide (cand_online c = Some true) | None => false end.

(** [for i in 0..len]: the first online member from [start] on. *)
Fixpoint scan (ncs : list Candidate) (start i n : nat) : option nat :=
  match n with
  | O => None
  | S n =>
      let idx := ((start + i) mod length ncs)%nat in
      if is_online_at ncs idx then Some idx else scan ncs start (S i) n
  end.

Definition start_of (seq : Seq) (ncs : list Candidate) : nat :=
  Z.to_nat (seq mod Z.of_nat (length ncs)).

Definition default_choice (seq : Seq) (_group : string) (_publisher : Id) (_topic : string)
    (ncs : list Candidate) : option (nat * bool) * Seq :=
  match ncs with
  | [] => (None, seq)
  | _ =>
      let start := start_of seq ncs in
      let seq := wrap 64 (seq + 1) in
      match scan ncs start 0 (length ncs) with
      | Some idx => (Some (idx, true), seq)
      | None =>
          let online := match ncs !! start with
                        | Some c => default false (cand_online c)
                        | None => false
                        end in
          (Some (start, online), seq)
      end
  end.

#[global] Instance default_shared : SharedSubscription Seq := { choice := default_choice }.

Lemma start_lt seq ncs : ncs <> [] -> (start_of seq ncs < length ncs)%nat.
Proof.
  intros Hne. unfold start_of.
  assert (0 < Z.of_nat (length ncs)) by (destruct ncs; [done|simpl; lia]).
  pose proof (Z.mod_pos_bound seq (Z.of_nat (length ncs))). lia.
Qed.

Lemma scan_some ncs start i n idx :
  scan ncs start i n = Some idx -> is_online_at ncs idx = true.
Proof.
  revert i. induction n as [|n IH]; intros i; cbn [scan]; [done|].
  destruct (is_online_at ncs ((start + i) mod length ncs)) eqn:Ho; [|apply IH].
  by intros [= <-].
Qed.

Lemma scan_none ncs start i n :
  scan ncs start i n = None <->
    forall k, (i <= k < i + n)%nat -> is_online_at ncs ((start + k) mod length ncs) = false.
Proof.
  revert i. induction n as [|n IH]; intros i; cbn [scan]; [split; [lia|done]|].
  destruct (is_online_at ncs ((start + i) mod length ncs)) eqn:Ho.
  - split; [done|]. intros H. specialize (H i ltac:(lia)). congruence.
  - rewrite IH. split.
    + intros H k Hk. destruct (decide (k = i)) as [->|]; [done|]. apply H. lia.
    + intros H k Hk. apply H. lia.
Qed.

(** Every index is reached from [start], once round. *)
Lemma reach start len idx :
  (start < len)%nat -> (idx < len)%nat -> exists k, (k < len)%nat /\ ((start + k) mod len)%nat = idx.
Proof.
  intros Hs Hi. destruct (decide (start <= idx)%nat) as [Hle|Hgt].
  - exists (idx - start)%nat. split; [lia|]. rewrite Nat.mod_small; lia.
  - exists (idx + len - start)%nat. split; [lia|].
    replace (start + (idx + len - start))%nat with (idx + 1 * len)%nat by lia.
    rewrite Nat.Div0.mod_add. by apply Nat.mod_small.
Qed.

Lemma is_online_at_lt ncs idx : is_online_at ncs idx = true -> (idx < length ncs)%nat.
Proof.
  unfold is_online_at. destruct (ncs !! idx) eqn:Hc; [|done]. intros _.
  by eapply lookup_lt_Some.
Qed.

#[global] Instance default_shared_ok : SharedSubscriptionOk Seq.
Proof.
  constructor.
  - intros s g p t ncs idx online s'. simpl. unfold default_choice.
    destruct ncs as [|c ncs]; [done|].
    destruct (scan _ _ _ _) as [i|] eqn:Hs; intros [= <- <- <-].
    + by eapply is_online_at_lt, scan_some.
    + by apply start_lt.
  - intros s g p t ncs Hne. simpl. unfold default_choice. destruct ncs as [|c ncs]; [done|].
    destruct (scan _ _ _ _); by eauto.
Qed.

Definition someone_online (ncs : list Candidate) : Prop :=
  exists c, c ∈ ncs /\ cand_online c = Some true.

Lemma someone_online_at ncs :
  someone_online ncs <-> exists idx, is_online_at ncs idx = true.
Proof.
  unfold someone_online, is_online_at. split.
  - intros (c & [i Hi]%list_elem_of_lookup & Hc). exists i. rewrite Hi. by apply bool_decide_true.
  - intros [idx Hi]. destruct (ncs !! idx) as [c|] eqn:Hc; [|done].
    exists c. split; [by eapply list_elem_of_lookup_2|by apply bool_decide_eq_true in Hi].
Qed.

(** The choice, in full. *)
Lemma default_choice_spec seq group publisher topic ncs :
  ncs <> [] ->
  exists idx online,
    default_choice seq group publisher topic ncs = (Some (idx, online), wrap 64 (seq + 1)) /\
    (idx < length ncs)%nat /\
    (someone_online ncs -> online = true /\ is_online_at ncs idx = true) /\
    (~ someone_online ncs -> online = false /\ idx = start_of seq ncs).
Proof.
  intros Hne. unfold default_choice. destruct ncs as [|c0 ncs0]; [done|].
  set (ncs := c0 :: ncs0) in *. pose proof (start_lt seq ncs Hne) as Hlt.
  pose proof (someone_online_at ncs) as Hso. destruct (scan ncs _ 0 _) as [i|] eqn:Hs.
  - apply scan_some in Hs. exists i, true. split_and!; [done|by apply is_online_at_lt|done|].
    intros Hno. destruct Hno. apply Hso. by exists i.
  - assert (Hoff : forall idx, is_online_at ncs idx = false).
    { intros idx. destruct (is_online_at ncs idx) eqn:Ho; [|done].
      destruct (reach (start_of seq ncs) (length ncs) idx Hlt (is_online_at_lt _ _ Ho))
        as (k & Hk & Hr).
      rewrite scan_none in Hs. specialize (Hs k ltac:(lia)). rewrite Hr in Hs. congruence. }
    eexists _, _. split; [done|]. split; [done|]. split.
    + intros [idx Hi]%Hso. by rewrite Hoff in Hi.
    + intros _. split; [|done]. specialize (Hoff (start_of seq ncs)). unfold is_online_at in Hoff.
      destruct (ncs !! start_of seq ncs) as [c|]; [|done].
      apply bool_decide_eq_false in Hoff. by destruct (cand_online c) as [[]|].
Qed.

(** The default choice of a member of a shared group: an empty group
    has none; otherwise the index is that of a member, an online member is
    selected, and reported as online, whenever there is one, and if all are
    offline the member whose turn it is. *)
Theorem shared_choice_correct (seq : Seq) (group : string) (publisher : Id) (topic : string)
    (ncs : list Candidate) :
  (ncs = [] -> default_choice seq group publisher topic ncs = (None, seq)) /\
  (ncs <> [] ->
   exists idx online,
     default_choice seq group publisher topic ncs = (Some (idx, online), wrap 64 (seq + 1)) /\
     (idx < length ncs)%nat /\
     (someone_online ncs -> online = true /\ is_online_at ncs idx = true) /\
     (~ someone_online ncs -> online = false /\ idx = start_of seq ncs)).
Proof. split; [by intros ->|]. apply default_choice_spec. Qed.

(** ** Fairness *)

(** The members selected by successive messages to the same group. *)
Fixpoint picks (k : nat) (seq : Seq) (group : string) (publisher : Id) (topic : string)
    (ncs : list Candidate) : list nat :=
  match k with
  | O => []
  | S k =>
      match default_choice seq group publisher topic ncs with
      | (Some (idx, _), seq) => idx :: picks k seq group publisher topic ncs
      | (None, seq) => picks k seq group publisher topic ncs
      end
  end.

Definition all_online (ncs : list Candidate) : Prop :=
  Forall (fun c => cand_online c = Some true) ncs.

Lemma choice_all_online seq group publisher topic ncs :
  ncs <> [] -> all_online ncs ->
  default_choice seq group publisher topic ncs = (Some (start_of seq ncs, true), wrap 64 (seq + 1)).
Proof.
  intros Hne Hon. unfold default_choice. pose proof (start_lt seq ncs Hne) as Hlt.
  destruct ncs as [|c ncs]; [done|]. cbn [scan length]. set (l := c :: ncs) in *.
  rewrite Nat.add_0_r. change (S (length ncs)) with (length l). rewrite Nat.mod_small by done.
  destruct (lookup_lt_is_Some_2 l (start_of seq l) Hlt) as [d Hd].
  unfold is_online_at. rewrite Hd, bool_decide_true; [done|].
  by eapply (Forall_lookup_1 _ _ _ _ Hon).
Qed.

Lemma picks_all_online k seq0 group publisher topic ncs :
  ncs <> [] -> all_online ncs -> 0 <= seq0 -> seq0 + Z.of_nat k <= 2 ^ 64 ->
  picks k seq0 group publisher topic ncs =
    (fun i => start_of (seq0 + Z.of_nat i) ncs) <$> seq 0 k.
Proof.
  intros Hne Hon. revert seq0. induction k as [|k IH]; intros seq0 H0 Hk; [done|].
  cbn [picks]. rewrite choice_all_online by done. rewrite <- cons_seq, fmap_cons, Z.add_0_r. f_equal.
  rewrite <- fmap_S_seq, <- list_fmap_compose. destruct k as [|k]; [done|].
  assert (Hw : wrap 64 (seq0 + 1) = seq0 + 1) by (unfold wrap; apply Z.mod_small; lia).
  rewrite Hw, IH by lia.
  apply list_fmap_ext. intros i x _. unfold compose. f_equal. lia.
Qed.

Lemma start_of_inj seq ncs i j :
  (i < length ncs)%nat -> (j < length ncs)%nat ->
  start_of (seq + Z.of_nat i) ncs = start_of (seq + Z.of_nat j) ncs -> i = j.
Proof.
  unfold start_of. intros Hi Hj Heq. set (n := Z.of_nat (length ncs)) in *.
  pose proof (Z.mod_pos_bound (seq + Z.of_nat i) n ltac:(lia)) as Hbi.
  pose proof (Z.mod_pos_bound (seq + Z.of_nat j) n ltac:(lia)) as Hbj.
  assert (Hm : (seq + Z.of_nat i) mod n = (seq + Z.of_nat j) mod n) by lia.
  pose proof (Z.div_mod (seq + Z.of_nat i) n ltac:(lia)) as Hdi.
  pose proof (Z.div_mod (seq + Z.of_nat j) n ltac:(lia)) as Hdj. rewrite Hm in Hdi.
  revert Hdi Hdj. generalize ((seq + Z.of_nat i) / n), ((seq + Z.of_nat j) / n). intros a b Ha Hb.
  assert (Hn : n * (a - b) = Z.of_nat i - Z.of_nat j) by lia.
  assert (a - b = 0) by nia. lia.
Qed.

(** Round robin: over as many successive messages as an online group has
    members, every member is selected exactly once, wherever the sequence
    stands (short of its wrap-around at 64 bits). *)
Theorem shared_round_robin (seq0 : Seq) (group : string) (publisher : Id) (topic : string)
    (ncs : list Candidate) :
  all_online ncs -> 0 <= seq0 -> seq0 + Z.of_nat (length ncs) <= 2 ^ 64 ->
  picks (length ncs) seq0 group publisher topic ncs ≡ₚ seq 0 (length ncs).
Proof.
  intros Hon H0 Hk. destruct (decide (ncs = [])) as [->|Hne]; [done|].
  rewrite picks_all_online by done. apply submseteq_length_Permutation.
  - apply NoDup_submseteq.
    + apply NoDup_fmap_2_strong; [|apply NoDup_seq].
      intros i j Hi%elem_of_seq Hj%elem_of_seq. apply start_of_inj; lia.
    + intros x (i & -> & _)%list_elem_of_fmap. apply elem_of_seq.
      pose proof (start_lt (seq0 + Z.of_nat i) ncs Hne). lia.
  - by rewrite length_fmap.
Qed.
End DefaultShared.

(** ** Merging the subscriptions of a client

    [SubscriptioRelationsCollector]: every v3 subscription gives a copy of
    the message of its own; those of a v5 client are merged into one, with
    all the subscription identifiers. *)

Definition SharedGroupType : Type := string * bool * list bytes.
Definition SubRelation : Type :=
  string * bytes * SubscriptionOptions * option (list Z) * option SharedGroupType.

Module Collector.
Definition V5Rel : Type :=
  string * SubscriptionOptions * option (list Z) * option SharedGroupType.

Record t : Type := mk {
  v3_rels : list SubRelation;
  v5_rels : gmap bytes V5Rel;
}.

Definition empty : t := mk [] ∅.

(** The [and_modify] of [add]. *)
Definition push_id (opts : SubscriptionOptions) (rel : V5Rel) : V5Rel :=
  let '(tf, o, sub_ids, group) := rel in
  match subscription_identifier opts with
  | Some id => (tf, o, Some (match sub_ids with Some ids => ids ++ [id] | None => [id] end), group)
  | None => rel
  end.

Definition add (c : t) (topic_filter : string) (client_id : bytes) (opts : SubscriptionOptions)
    (group : option SharedGroupType) : t :=
  if is_v3 opts then
    mk (v3_rels c ++ [(topic_filter, client_id, opts, None, group)]) (v5_rels c)
  else
    let rel := match v5_rels c !! client_id with
               | Some rel => push_id opts rel
               | None =>
                   (topic_filter, opts, (fun id => [id]) <$> subscription_identifier opts, group)
               end in
    mk (v3_rels c) (<[client_id := rel]> (v5_rels c)).

(** [From<SubscriptioRelationsCollector> for SubRelations]. *)
Definition to_relations (c : t) : list SubRelation :=
  v3_rels c ++ ((fun '(client_id, (tf, o, ids, group)) => (tf, client_id, o, ids, group))
                  <$> map_to_list (v5_rels c)).

(** ** What the collector makes of a sequence of subscriptions *)

Definition Found : Type := string * bytes * SubscriptionOptions * option SharedGroupType.

Definition add_found (c : t) (f : Found) : t :=
  let '(tf, client, opts, group) := f in add c tf client opts group.

Definition found_client (f : Found) : bytes := f.1.1.2.
Definition found_opts (f : Found) : SubscriptionOptions := f.1.2.

Definition v3_relation (f : Found) : SubRelation :=
  let '(tf, client, opts, group) := f in (tf, client, opts, None, group).

(** The identifiers of the subscriptions, if there is any. *)
Definition some_list {A} (l : list A) : option (list A) :=
  match l with [] => None | _ => Some l end.

Definition identifiers (fs : list Found) : list Z :=
  omap (fun f => subscription_identifier (found_opts f)) fs.

Definition v5_of (client : bytes) (fs : list Found) : list Found :=
  filter (fun f => is_v3 (found_opts f) = false /\ found_client f = client) fs.

Definition merged (fs : list Found) : option V5Rel :=
  match fs with
  | [] => None
  | (tf, _, opts, group) :: _ => Some (tf, opts, some_list (identifiers fs), group)
  end.

Lemma some_list_snoc {A} (l : list A) (o : option A) :
  some_list (l ++ option_list o) =
    match o with
    | Some x => Some (match some_list l with Some l => l ++ [x] | None => [x] end)
    | None => some_list l
    end.
Proof. destruct o; simpl; [|by rewrite app_nil_r]. by destruct l. Qed.

Lemma identifiers_snoc fs f :
  identifiers (fs ++ [f]) = identifiers fs ++ option_list (subscription_identifier (found_opts f)).
Proof.
  unfold identifiers. rewrite omap_app. simpl.
  by destruct (subscription_identifier (found_opts f)).
Qed.

Lemma merged_snoc f0 fs f :
  merged ((f0 :: fs) ++ [f]) = push_id (found_opts f) <$> merged (f0 :: fs).
Proof.
  destruct f0 as [[[tf c0] o0] g0]. cbn [merged app fmap option_fmap option_map].
  change ((tf, c0, o0, g0) :: fs ++ [f]) with (((tf, c0, o0, g0) :: fs) ++ [f]).
  rewrite identifiers_snoc, some_list_snoc. unfold push_id.
  destruct (subscription_identifier (found_opts f)); done.
Qed.

(** [add], one subscription at a time. *)
Lemma add_all fs :
  v3_rels (foldl add_found empty fs) =
    v3_relation <$> filter (fun f => is_v3 (found_opts f) = true) fs /\
  forall client, v5_rels (foldl add_found empty fs) !! client = merged (v5_of client fs).
Proof.
  induction fs as [|f fs IH] using rev_ind; [done|].
  rewrite foldl_app. cbn [foldl]. destruct IH as [IH3 IH5].
  destruct f as [[[tf c] o] g]. cbn [add_found]. unfold add, v5_of.
  rewrite filter_app, fmap_app, <- IH3. setoid_rewrite filter_app.
  destruct (is_v3 o) eqn:Ho.
  - split.
    + rewrite filter_cons_True by done. done.
    + intros client. cbn [v5_rels].
      rewrite (filter_cons_False _ (tf, c, o, g) []) by (unfold found_opts; simpl; intuition congruence).
      rewrite filter_nil, app_nil_r. apply IH5.
  - split.
    + rewrite filter_cons_False by (unfold found_opts; simpl; congruence). simpl.
      by rewrite app_nil_r.
    + intros client. cbn [v5_rels]. destruct (decide (c = client)) as [<-|Hne].
      * rewrite lookup_insert_eq, IH5. rewrite filter_cons_True by done. rewrite filter_nil.
        fold (v5_of c fs). destruct (v5_of c fs) as [|f0 fs0] eqn:Hf.
        -- simpl. change (found_opts (tf, c, o, g)) with o. by destruct (subscription_identifier o).
        -- rewrite merged_snoc. by destruct f0 as [[[??]?]?].
      * rewrite lookup_insert_ne by done.
        rewrite (filter_cons_False _ (tf, c, o, g) []) by (unfold found_client; simpl; naive_solver).
        rewrite filter_nil, app_nil_r. apply IH5.
Qed.

(** The collector: of the subscriptions a message matches, each v3 one
    gives a relation of its own, in order, and each v5 client one relation,
    with the filter, the options and the group of its first subscription
    and the identifiers of all of them, in order. *)
Theorem collector_correct (fs : list Found) :
  exists v5 : list SubRelation,
    to_relations (foldl add_found empty fs) =
      (v3_relation <$> filter (fun f => is_v3 (found_opts f) = true) fs) ++ v5 /\
    NoDup ((fun r : SubRelation => r.1.1.1.2) <$> v5) /\
    forall tf client opts ids group, (tf, client, opts, ids, group) ∈ v5 <->
      merged (v5_of client fs) = Some (tf, opts, ids, group).
Proof.
  destruct (add_all fs) as [H3 H5]. unfold to_relations. rewrite H3. eexists. split; [done|]. split.
  - rewrite <- list_fmap_compose.
    erewrite (list_fmap_ext _ fst); [apply NoDup_fst_map_to_list|].
    by intros i [client [[[tf o] ids] g]] _.
  - intros tf client opts ids group. rewrite <- H5, list_elem_of_fmap. split.
    + intros ([c [[[tf' o'] ids'] g']] & [= -> -> -> -> ->] & Hin). by apply elem_of_map_to_list.
    + intros Hin. exists (client, (tf, opts, ids, group)). by rewrite elem_of_map_to_list.
Qed.

(** Overlapping subscriptions of a v5 client are delivered with the options
    of the one found first, not with the highest quality of service. *)
Theorem collector_first_options (client : bytes) (low high : SubscriptionOptions) :
  is_v3 low = false -> is_v3 high = false -> QoS_value (opts_qos low) < QoS_value (opts_qos high) ->
  exists ids, v5_rels (foldl add_found empty
      [("a/#"%string, client, low, None); ("a/b"%string, client, high, None)]) !! client =
    Some ("a/#"%string, low, ids, None).
Proof.
  intros Hl Hh _. destruct (add_all [("a/#"%string, client, low, None);
    ("a/b"%string, client, high, None)]) as [_ H5]. rewrite H5. unfold v5_of.
  rewrite !filter_cons_True by done. rewrite filter_nil. by eexists.
Qed.
End Collector.

(** ** Forms of a topic filter *)

Lemma split_once_app a b : no_slash a = true -> split_once (a +:+ String slash b) = Some (a, b).
Proof.
  induction a as [|c a IH]; simpl; [done|].
  intros [Hc%negb_true_iff Ha]%andb_true_iff. rewrite Hc, IH by done. done.
Qed.

Lemma split_once_none s : no_slash s = true -> split_once s = None.
Proof.
  induction s as [|c s IH]; simpl; [done|].
  intros [Hc%negb_true_iff Hs]%andb_true_iff. by rewrite Hc, IH.
Qed.

Lemma parse_digits_range acc s n :
  0 <= acc < 2 ^ 64 -> parse_digits acc s = Some n -> 0 <= n < 2 ^ 64.
Proof.
  revert acc. induction s as [|c s IH]; intros acc Ha; cbn [parse_digits]; [by intros [= <-]|].
  unfold digit. destruct ((0 <=? _) && _) eqn:Hd; [|done].
  apply andb_true_iff in Hd as [?%Z.leb_le ?%Z.leb_le].
  destruct (Z.ltb_spec (acc * 10 + (Z.of_nat (Ascii.nat_of_ascii c) - 48)) (2 ^ 64)); [|done].
  apply IH. lia.
Qed.

Lemma parse_usize_range s n : parse_usize s = Some n -> 0 <= n < 2 ^ 64.
Proof. unfold parse_usize. case_bool_decide; [done|]. by apply parse_digits_range. Qed.

Lemma splitn3_form p a b :
  no_slash p = true -> no_slash a = true ->
  splitn3 (p +:+ String slash (a +:+ String slash b)) = (p, Some a, Some b).
Proof. intros Hp Ha. unfold splitn3. by rewrite !split_once_app. Qed.

Definition prefixed (s : string) : Prop :=
  let first := (splitn3 s).1.1 in
  first = "$share"%string \/ first = "$limit"%string \/ first = "$exclusive"%string.

(** Topic filters with a prefix: [$share/group/filter] is the filter with
    its group, [$limit/n/filter] the filter with its limit, a filter
    without one of the prefixes is itself; each form is an error when it is
    not enabled (and another feature is), and when the filter after the
    prefix is empty. *)
Theorem parse_topic_filter_forms (group limit tf s : string) (shared limited : bool) :
  no_slash group = true -> no_slash limit = true -> tf <> EmptyString -> s <> EmptyString ->
  ~ prefixed s ->
  let share := ("$share" +:+ String slash (group +:+ String slash tf))%string in
  let lim := ("$limit" +:+ String slash (limit +:+ String slash tf))%string in
  parse_topic_filter share true limited = Ok (tf, Some group, None) /\
  parse_topic_filter share false true = Err (SharedNotEnabled share) /\
  parse_topic_filter lim shared true =
    match parse_usize limit with
    | Some n => Ok (tf, None, Some n)
    | None => Err (IllegalFilter lim)
    end /\
  parse_topic_filter lim true false = Err (LimitNotEnabled lim) /\
  parse_topic_filter s shared limited = Ok (s, None, None) /\
  parse_topic_filter ("$share" +:+ String slash (group +:+ String slash EmptyString)) true limited =
    Err (IllegalFilter ("$share" +:+ String slash (group +:+ String slash EmptyString))).
Proof.
  intros Hg Hl Htf Hs Hp share lim. unfold parse_topic_filter, share, lim.
  rewrite !splitn3_form by done. split_and!.
  - simpl. by rewrite bool_decide_false.
  - done.
  - rewrite orb_true_r. destruct shared, (parse_usize limit); simpl;
      by rewrite ?bool_decide_false by done.
  - done.
  - unfold prefixed in Hp. destruct (splitn3 s) as [[first second] third]. simpl in Hp.
    rewrite !(bool_decide_false (first = _)) by naive_solver.
    destruct (shared || limited); simpl; by rewrite bool_decide_false.
  - done.
Qed.

Lemma parse_topic_filter_forms_witness :
  parse_topic_filter "$share/g/a/+" true false = Ok ("a/+"%string, Some "g"%string, None) /\
  parse_topic_filter "$share/g/a/+" false true = Err (SharedNotEnabled "$share/g/a/+") /\
  parse_topic_filter "$limit/7/a/+" false true = Ok ("a/+"%string, None, Some 7).
Proof.
  destruct (parse_topic_filter_forms "g" "7" "a/+" "x" false false)
    as (H1 & H2 & H3 & _); [reflexivity|reflexivity|done|done| |].
  - unfold prefixed. simpl. intros [?|[?|?]]; congruence.
  - split_and!; [exact H1|exact H2|exact H3].
Defined.

(** Whatever is accepted has a non empty filter, and not both a group and a
    limit; a limit is a [usize]. *)
Theorem parse_topic_filter_result (s tf : string) (shared limited : bool) (g : option string)
    (l : option Z) :
  parse_topic_filter s shared limited = Ok (tf, g, l) ->
  tf <> EmptyString /\ (g = None \/ l = None) /\ (forall n, l = Some n -> 0 <= n < 2 ^ 64) /\
  (is_Some g -> shared = true) /\ (is_Some l -> limited = true).
Proof.
  unfold parse_topic_filter. intros H.
  assert (Hcases : exists topic, tf = topic /\ topic <> EmptyString /\ (g = None \/ l = None) /\
    (forall n, l = Some n -> 0 <= n < 2 ^ 64) /\ (is_Some g -> shared = true) /\
    (is_Some l -> limited = true)); [|naive_solver].
  repeat (case_match; simplify_eq); eexists; split_and!;
    first [done | by left | by right | by destruct 1 | intros n [= <-]; lia
          | intros n [= <-]; by eapply parse_usize_range
          | by eapply bool_decide_eq_false].
Qed.

(** Witnesses for the shared groups and the collector. *)
Definition member (client : Z) (online : bool) : Candidate :=
  (1, [client], default_options, None, Some online).

Lemma shared_choice_correct_witness :
  fst (DefaultShared.default_choice 4 "g" (Id_from 0 1 []) "t" [member 1 true; member 2 false])
    = Some (0%nat, true) /\
  exists idx online,
    DefaultShared.default_choice 5 "g" (Id_from 0 1 []) "t" [member 1 true; member 2 false]
      = (Some (idx, online), wrap 64 (5 + 1)) /\ (idx < 2)%nat.
Proof.
  split; [reflexivity|].
  destruct (proj2 (DefaultShared.shared_choice_correct 5 "g" (Id_from 0 1 []) "t"
    [member 1 true; member 2 false]) ltac:(done)) as (idx & online & Hc & Hi & _).
  by exists idx, online.
Defined.

Lemma shared_round_robin_witness :
  DefaultShared.picks 3 7 "g" (Id_from 0 1 []) "t" [member 1 true; member 2 true; member 3 true]
    ≡ₚ seq 0 3.
Proof.
  apply (DefaultShared.shared_round_robin 7 "g" (Id_from 0 1 []) "t"
    [member 1 true; member 2 true; member 3 true]); [repeat constructor|lia|vm_compute; congruence].
Defined.
