(* ===== verification/Router.v ===== *)
(** * The router: [router.rs]

    [DefaultRouter]: the subscriptions by topic filter and client, the
    tree of the filters, and the counters; subscribing, unsubscribing,
    matching a published topic (with No Local and the shared groups) and
    the administrative queries.

    Two things the router asks of other parts of the broker are parameters:
    whether a client is online (the sessions of [shared.rs]), and the
    selection of a member of a shared group ([SharedSubscription], whose
    default implementation is in [Subscription]). The code iterates over
    hash maps, whose order is unspecified; here it is that of [gmap], and
    the theorems do not depend on it. *)

From stdpp Require Import prelude strings gmap countable list sorting.
From Stdlib Require Import ZArith Lia.
From S2P Require Import Prelude CodecTypes Topic Trie BrokerTypes Subscription.

Local Open Scope Z_scope.

Abbreviation Rels := (gmap bytes (Id * SubscriptionOptions)).

Module Router.

Record t : Type := mk {
  topics : Trie.Node unit;
  topics_count : Counter.t;
  relations : gmap string Rels;
  relations_count : Counter.t;
}.

Definition new : t := mk Trie.Node_default Counter.new ∅ Counter.new.

(** ** Subscribing and unsubscribing

    The steps each takes one after the other; the locks are held within a
    step and not between them. *)

Definition add_topic (r : t) (topic : Topic) : t :=
  mk (Trie.insert (topics r) topic tt).2 (topics_count r) (relations r) (relations_count r).

Definition add_relation (r : t) (topic_filter : string) (id : Id) (opts : SubscriptionOptions) : t :=
  let '(rels, tc) :=
    match relations r !! topic_filter with
    | Some rels => (rels, topics_count r)
    | None => (∅, Counter.inc (topics_count r))
    end in
  let old := rels !! client_id id in
  mk (topics r) tc (<[topic_filter := <[client_id id := (id, opts)]> rels]> (relations r))
    (match old with None => Counter.inc (relations_count r) | Some _ => relations_count r end).

Definition add (r : t) (topic_filter : string) (id : Id) (opts : SubscriptionOptions)
    : outcome TopicError unit * t :=
  match Topic_from_str topic_filter with
  | Ok topic => (Ok tt, add_relation (add_topic r topic) topic_filter id opts)
  | Err e => (Err e, r)
  | Panic => (Panic, r)
  | Diverged => (Diverged, r)
  end.

(** The part of [remove] under the lock of the filter's entry: whether the
    entry is left empty and whether a relation was removed. *)
Definition remove_relation (r : t) (topic_filter : string) (id : Id) : option (bool * bool) * t :=
  match relations r !! topic_filter with
  | Some rels =>
      let remove_enable :=
        match rels !! client_id id with Some (s_id, _) => Id_eq s_id id | None => false end in
      if remove_enable then
        let remove_ok := bool_decide (is_Some (rels !! client_id id)) in
        let rels := delete (client_id id) rels in
        (Some (bool_decide (rels = ∅), remove_ok),
         mk (topics r) (topics_count r) (<[topic_filter := rels]> (relations r))
           (if remove_ok then Counter.dec (relations_count r) else relations_count r))
      else (None, r)
  | None => (None, r)
  end.

(** [self.relations.remove(topic_filter)] with its counter. *)
Definition remove_entry (r : t) (topic_filter : string) : t :=
  match relations r !! topic_filter with
  | Some _ => mk (topics r) (Counter.dec (topics_count r)) (delete topic_filter (relations r))
                (relations_count r)
  | None => r
  end.

Definition remove_topic (r : t) (topic : Topic) : t :=
  mk (Trie.remove (topics r) topic tt).2 (topics_count r) (relations r) (relations_count r).

Definition remove (r : t) (topic_filter : string) (id : Id) : outcome TopicError bool * t :=
  let '(res, r) := remove_relation r topic_filter id in
  match res with
  | Some (is_empty, remove_ok) =>
      if is_empty then
        let r := remove_entry r topic_filter in
        match Topic_from_str topic_filter with
        | Ok topic => (Ok remove_ok, remove_topic r topic)
        | Err e => (Err e, r)
        | Panic => (Panic, r)
        | Diverged => (Diverged, r)
        end
      else (Ok remove_ok, r)
  | None => (Ok false, r)
  end.

(** ** Matching *)

(** [topics.matches(&topic).iter()] to its end. The counts are fuel: the
    iterator yields as many items as the eager walk. *)
Definition tree_items (n : Trie.Node unit) (topic : Topic) : option (list (Topic * gset unit)) :=
  Trie.collect (S (length (Trie.walk n topic []))) (S (length topic)) (Trie.matches n topic).

Section matching.
Context {S : Type} `{SharedSubscription S} (is_online : Z -> bytes -> bool).

Abbreviation CollectorMap := (gmap Z Collector.t).

(** [collector_map.entry(node_id).or_default().add(..)]. *)
Definition collect_add (cm : CollectorMap) (node : Z) (tf : string) (client : bytes)
    (opts : SubscriptionOptions) (group : option SharedGroupType) : CollectorMap :=
  <[node := Collector.add (default Collector.empty (cm !! node)) tf client opts group]> cm.

Abbreviation Groups := (gmap string (list Candidate)).

(** MQTT 5 No Local. *)
Definition is_local (this_id : Id) (id : Id) (opts : SubscriptionOptions) : bool :=
  match no_local opts with Some b => b && Id_eq this_id id | None => false end.

(** One relation of a matched filter. *)
Definition rel_step (this_id : Id) (tf : string) (st : CollectorMap * Groups)
    (rel : bytes * (Id * SubscriptionOptions)) : CollectorMap * Groups :=
  let '(cm, groups) := st in
  let '(client, (id, opts)) := rel in
  if is_local this_id id opts then st
  else
    match shared_group opts with
    | Some group =>
        let cand := (node_id id, client, opts, None, Some (is_online (node_id id) client)) in
        (cm, <[group := default [] (groups !! group) ++ [cand]]> groups)
    | None => (collect_add cm (node_id id) tf client opts None, groups)
    end.

Definition cand_client (c : Candidate) : bytes := c.1.1.1.2.

(** One shared group of a matched filter: [None] when [s_subs.remove(idx)]
    panics. *)
Definition group_step (this_id : Id) (topic_name : string) (tf : string)
    (st : option (CollectorMap * S)) (g : string * list Candidate) : option (CollectorMap * S) :=
  match st with
  | None => None
  | Some (cm, s) =>
      let '(group, s_subs) := g in
      let group_cids := cand_client <$> s_subs in
      match choice s group this_id topic_name s_subs with
      | (Some (idx, online), s) =>
          match s_subs !! idx with
          | Some c =>
              let '(node, client, opts, _, _) := (c : Candidate) in
              Some (collect_add cm node tf client opts (Some (group, online, group_cids)), s)
          | None => None
          end
      | (None, s) => Some (cm, s)
      end
  end.

(** One matched filter. *)
Definition item_step (r : t) (this_id : Id) (topic_name : string)
    (st : option (CollectorMap * S)) (item : Topic * gset unit) : option (CollectorMap * S) :=
  match st with
  | None => None
  | Some (cm, s) =>
      let tf := Topic_to_string item.1 in
      let '(cm, groups) :=
        match relations r !! tf with
        | Some rels => foldl (rel_step this_id tf) (cm, ∅) (map_to_list rels)
        | None => (cm, ∅)
        end in
      foldl (group_step this_id topic_name tf) (Some (cm, s)) (map_to_list groups)
  end.

Abbreviation SubRelationsMap := (gmap Z (list SubRelation)).

Definition matches (r : t) (s : S) (this_id : Id) (topic_name : string)
    : outcome TopicError SubRelationsMap * S :=
  match Topic_from_str topic_name with
  | Ok topic =>
      match tree_items (topics r) topic with
      | Some items =>
          match foldl (item_step r this_id topic_name) (Some (∅, s)) items with
          | Some (cm, s) => (Ok (Collector.to_relations <$> cm), s)
          | None => (Panic, s)
          end
      | None => (Diverged, s)
      end
  | Err e => (Err e, s)
  | Panic => (Panic, s)
  | Diverged => (Diverged, s)
  end.
End matching.

(** ** The invariant

    The tree holds the filters that have subscribers, every entry has one,
    a subscription is filed under its client, and the counters count. *)

Definition subscribed (r : t) (tf : string) (client : bytes) : option (Id * SubscriptionOptions) :=
  rels ← relations r !! tf; rels !! client.

Definition tree_ok (n : Trie.Node unit) (rs : gmap string Rels) : Prop :=
  Trie.pruned n /\ Trie.values_size n = size rs /\
  forall topic, tt ∈ Trie.lookup_path n topic <->
    exists tf, Topic_from_str tf = Ok topic /\ is_Some (rs !! tf).

Definition relations_ok (rs : gmap string Rels) : Prop :=
  forall tf rels, rs !! tf = Some rels ->
    rels <> ∅ /\ (exists topic, Topic_from_str tf = Ok topic) /\
    forall client id opts, rels !! client = Some (id, opts) -> client_id id = client.

Definition count_relations (rs : gmap string Rels) : nat := map_sum size rs.

Definition inv (r : t) : Prop :=
  tree_ok (topics r) (relations r) /\ relations_ok (relations r) /\
  Counter.current (topics_count r) = isize (Z.of_nat (size (relations r))) /\
  Counter.current (relations_count r) = isize (Z.of_nat (count_relations (relations r))).

Lemma isize_inc c n m :
  Counter.current c = isize (Z.of_nat n) -> m = S n ->
  Counter.current (Counter.inc c) = isize (Z.of_nat m).
Proof. intros Hc ->. simpl. rewrite Hc, Counter.isize_add. f_equal. lia. Qed.

Lemma isize_dec c n m :
  Counter.current c = isize (Z.of_nat n) -> n = S m ->
  Counter.current (Counter.dec c) = isize (Z.of_nat m).
Proof.
  intros Hc ->. simpl. unfold Z.sub. rewrite Hc, Counter.isize_add. f_equal. lia.
Qed.

Lemma router_inv_new : inv new.
Proof.
  split; [|done]. split_and!; [apply Trie.pruned_default|done|].
  intros topic. change (topics new) with (Trie.Node_default (V := unit)).
  rewrite Trie.lookup_path_default. split; [set_solver|].
  change (relations new) with (∅ : gmap string Rels).
  intros (tf & _ & [? Hs]). by rewrite lookup_empty in Hs.
Qed.

(** *** Subscribing *)

Lemma tree_ok_add n rs tf topic rels :
  Topic_from_str tf = Ok topic -> tree_ok n rs ->
  tree_ok (Trie.insert n topic tt).2 (<[tf := rels]> rs).
Proof.
  intros Hp (Hpr & Hsz & Hlk). unfold Trie.insert. split_and!.
  - by apply Trie.insert_path_pruned.
  - rewrite Trie.insert_path_size, Trie.insert_path_result, Hsz, map_size_insert.
    assert (Hin : tt ∈ Trie.lookup_path n topic <-> is_Some (rs !! tf)).
    { rewrite Hlk. split; [|by eauto]. intros (tf' & Hp' & Hs).
      by rewrite (from_str_inj _ _ _ Hp Hp'). }
    case_bool_decide as Hd; destruct (rs !! tf) as [x|] eqn:Hx; simpl; try lia.
    + destruct Hd. apply Hin. by eexists.
    + by apply Hin in Hd as [? [=]].
  - intros q. rewrite Trie.insert_path_lookup. destruct (decide (topic = q)) as [<-|Hne].
    + split; [intros _|intros _; set_solver]. exists tf. by rewrite lookup_insert_eq.
    + rewrite Hlk. split; intros (tf' & Hp' & Hs); exists tf'; (split; [done|]);
        rewrite lookup_insert_ne in * by congruence; done.
Qed.

Lemma relations_ok_insert rs tf rels :
  relations_ok rs -> rels <> ∅ -> (exists topic, Topic_from_str tf = Ok topic) ->
  (forall client id opts, rels !! client = Some (id, opts) -> client_id id = client) ->
  relations_ok (<[tf := rels]> rs).
Proof. intros Hr Hne Hp Hc tf' rels' [[<- <-]|[_ ?]]%lookup_insert_Some; [done|by apply Hr]. Qed.

Definition rels_of (r : t) (tf : string) : Rels := default ∅ (relations r !! tf).

Lemma subscribed_rels r tf client : subscribed r tf client = rels_of r tf !! client.
Proof. unfold subscribed, rels_of. destruct (relations r !! tf); simpl; [done|by rewrite lookup_empty]. Qed.

Lemma rels_of_client r tf client id opts :
  inv r -> rels_of r tf !! client = Some (id, opts) -> client_id id = client.
Proof.
  intros (_ & Hr & _) Hs. unfold rels_of in Hs. destruct (relations r !! tf) as [rels|] eqn:Ht.
  - by eapply Hr.
  - simpl in Hs. by rewrite lookup_empty in Hs.
Qed.

Lemma count_relations_insert rs tf rels :
  (count_relations (<[tf := rels]> rs) + size (default ∅ (rs !! tf)) = size rels + count_relations rs)%nat.
Proof.
  pose proof (map_sum_insert (size : Rels -> nat) rs tf rels) as Hs. unfold count_relations.
  destruct (rs !! tf); simpl in *; rewrite ?map_size_empty in *; lia.
Qed.

Lemma add_inv r tf topic id opts :
  inv r -> Topic_from_str tf = Ok topic ->
  inv (add_relation (add_topic r topic) tf id opts) /\
  forall tf' client, subscribed (add_relation (add_topic r topic) tf id opts) tf' client =
    if decide (tf' = tf /\ client = client_id id) then Some (id, opts) else subscribed r tf' client.
Proof.
  intros Hi Hp. pose proof Hi as (Htree & Hrel & Htc & Hrc).
  set (rels := rels_of r tf). set (r' := add_relation (add_topic r topic) tf id opts).
  assert (Hrels : relations r' = <[tf := <[client_id id := (id, opts)]> rels]> (relations r)).
  { unfold r', rels, rels_of, add_relation. simpl. by destruct (relations r !! tf). }
  assert (Hcount : relations_count r' = match rels !! client_id id with
     Some _ => relations_count r | None => Counter.inc (relations_count r) end).
  { unfold r', rels, rels_of, add_relation. simpl. by destruct (relations r !! tf). }
  split; [split_and!|].
  - assert (Ht : topics r' = (Trie.insert (topics r) topic tt).2).
    { unfold r', add_relation. simpl. by destruct (relations r !! tf). }
    rewrite Ht, Hrels. by apply tree_ok_add.
  - rewrite Hrels. apply relations_ok_insert; [done|apply insert_non_empty|by eauto|].
    intros client id' opts' [[<- [= <- <-]]|[_ Hs]]%lookup_insert_Some; [done|].
    by eapply rels_of_client.
  - rewrite Hrels, map_size_insert. unfold r', add_relation. simpl.
    destruct (relations r !! tf); simpl; [done|]. by eapply isize_inc.
  - rewrite Hcount, Hrels.
    pose proof (count_relations_insert (relations r) tf (<[client_id id := (id, opts)]> rels)) as Hs.
    fold (rels_of r tf) in Hs. fold rels in Hs. rewrite map_size_insert in Hs.
    destruct (rels !! client_id id); simpl in Hs.
    + rewrite Hrc. f_equal. lia.
    + eapply isize_inc; [done|]. lia.
  - intros tf' client. rewrite !subscribed_rels. unfold rels_of at 1. rewrite Hrels.
    destruct (decide (tf' = tf)) as [->|Hne].
    + rewrite lookup_insert_eq. simpl. destruct (decide (client = client_id id)) as [->|Hc].
      * rewrite lookup_insert_eq. by rewrite decide_True.
      * rewrite lookup_insert_ne by done. rewrite decide_False by tauto. done.
    + rewrite lookup_insert_ne by done. rewrite decide_False by tauto. done.
Qed.

(** *** Unsubscribing *)

Lemma tree_ok_replace n rs tf rels rels' :
  rs !! tf = Some rels -> tree_ok n rs -> tree_ok n (<[tf := rels']> rs).
Proof.
  intros Hs (Hpr & Hsz & Hlk). split_and!; [done|by rewrite map_size_insert, Hs|].
  intros topic. rewrite Hlk. split; intros (tf' & Hp & Hx); exists tf'; (split; [done|]).
  - by apply lookup_insert_is_Some'; right.
  - apply lookup_insert_is_Some' in Hx as [<-|Hx]; [by eexists|done].
Qed.

Lemma size_delete {A} `{Countable K} (m : gmap K A) k v :
  m !! k = Some v -> size m = S (size (delete k m)).
Proof.
  intros Hv. rewrite <- (insert_delete_id m k v) at 1 by done.
  apply map_size_insert_None, lookup_delete_eq.
Qed.

Lemma tree_ok_remove n rs tf topic rels :
  rs !! tf = Some rels -> Topic_from_str tf = Ok topic -> tree_ok n rs ->
  tree_ok (Trie.remove n topic tt).2 (delete tf rs).
Proof.
  intros Hs Hp (Hpr & Hsz & Hlk). unfold Trie.remove. split_and!.
  - by apply Trie.remove_path_pruned.
  - pose proof (Trie.remove_path_size n topic tt) as Hz.
    rewrite Trie.remove_path_result, bool_decide_true in Hz.
    + rewrite (size_delete rs tf rels) in Hsz by done. lia.
    + apply Hlk. exists tf. split; [done|]. by eexists.
  - intros q. rewrite Trie.remove_path_lookup. destruct (decide (topic = q)) as [<-|Hne].
    + split; [set_solver|]. intros (tf' & Hp' & Hx).
      rewrite (from_str_inj _ _ _ Hp' Hp), lookup_delete_eq in Hx. by destruct Hx.
    + rewrite Hlk. split; intros (tf' & Hp' & Hx); exists tf'; (split; [done|]);
        rewrite lookup_delete_ne in * by congruence; done.
Qed.

(** The state after a relation is taken out of its entry. *)
Definition without (r : t) (tf : string) (id : Id) (rels : Rels) : t :=
  mk (topics r) (topics_count r) (<[tf := delete (client_id id) rels]> (relations r))
    (Counter.dec (relations_count r)).

Lemma without_count r tf id rels x :
  relations r !! tf = Some rels -> rels !! client_id id = Some x -> inv r ->
  Counter.current (Counter.dec (relations_count r)) =
    isize (Z.of_nat (count_relations (relations (without r tf id rels)))).
Proof.
  intros Ht Hx (_ & _ & _ & Hrc). eapply isize_dec; [done|]. simpl.
  pose proof (count_relations_insert (relations r) tf (delete (client_id id) rels)) as Hs.
  rewrite Ht in Hs. simpl in Hs. rewrite (size_delete rels _ x Hx) in Hs. lia.
Qed.

Lemma without_inv r tf id rels x :
  relations r !! tf = Some rels -> rels !! client_id id = Some x ->
  delete (client_id id) rels <> ∅ -> inv r -> inv (without r tf id rels).
Proof.
  intros Ht Hx Hne Hi. pose proof Hi as (Htree & Hrel & Htc & _). split_and!; simpl.
  - by eapply tree_ok_replace.
  - destruct (Hrel _ _ Ht) as (_ & Hp & Hc). apply relations_ok_insert; [done..|].
    intros client id' o' [_ Hl]%lookup_delete_Some. by eapply Hc.
  - by rewrite map_size_insert, Ht.
  - by eapply without_count.
Qed.

Lemma without_entry_inv r tf id rels topic x :
  relations r !! tf = Some rels -> rels !! client_id id = Some x ->
  delete (client_id id) rels = ∅ -> Topic_from_str tf = Ok topic -> inv r ->
  inv (remove_topic (remove_entry (without r tf id rels) tf) topic).
Proof.
  intros Ht Hx Hnil Hp Hi. pose proof Hi as (Htree & Hrel & Htc & _).
  unfold remove_entry, without. simpl. rewrite lookup_insert_eq. unfold remove_topic. simpl.
  rewrite delete_insert_eq. split_and!; simpl.
  - by eapply tree_ok_remove.
  - intros tf' rels' [_ Hl]%lookup_delete_Some. by apply Hrel.
  - eapply isize_dec; [done|]. by eapply size_delete.
  - etrans; [by eapply (without_count r tf id rels x)|]. do 2 f_equal. simpl.
    unfold count_relations. rewrite Hnil.
    pose proof (map_sum_delete (size : Rels -> nat) (<[tf := ∅]> (relations r)) tf ∅) as Hs.
    rewrite Hs, delete_insert_eq by apply lookup_insert_eq. by rewrite map_size_empty.
Qed.

Lemma subscribed_without r tf id rels tf' client :
  relations r !! tf = Some rels ->
  subscribed (without r tf id rels) tf' client =
    if decide (tf' = tf /\ client = client_id id) then None else subscribed r tf' client.
Proof.
  intros Ht. unfold subscribed, without. simpl. destruct (decide (tf' = tf)) as [->|Hne].
  - rewrite lookup_insert_eq, Ht. simpl. destruct (decide (client = client_id id)) as [->|Hc].
    + rewrite lookup_delete_eq. by rewrite decide_True.
    + rewrite lookup_delete_ne by done. by rewrite decide_False by tauto.
  - rewrite lookup_insert_ne by done. by rewrite decide_False by tauto.
Qed.

Lemma subscribed_entry r tf topic tf' client :
  (forall client, subscribed r tf client = None) ->
  subscribed (remove_topic (remove_entry r tf) topic) tf' client = subscribed r tf' client.
Proof.
  intros Hno. unfold remove_entry, remove_topic. destruct (relations r !! tf) as [rels|] eqn:Ht; [|done].
  unfold subscribed in *. simpl. destruct (decide (tf' = tf)) as [->|Hne].
  - by rewrite lookup_delete_eq, Hno.
  - by rewrite lookup_delete_ne.
Qed.

Lemma remove_spec r tf id :
  inv r ->
  let found := match subscribed r tf (client_id id) with
               | Some (s_id, _) => bool_decide (s_id = id) | None => false end in
  exists r', remove r tf id = (Ok found, r') /\ inv r' /\
    forall tf' client, subscribed r' tf' client =
      if decide (found = true /\ tf' = tf /\ client = client_id id) then None
      else subscribed r tf' client.
Proof.
  intros Hi. unfold subscribed at 1, remove, remove_relation.
  destruct (relations r !! tf) as [rels|] eqn:Ht; cbn [mbind option_bind].
  2: { exists r. split_and!; [done|done|]. intros. by rewrite decide_False by naive_solver. }
  destruct (rels !! client_id id) as [[s_id o]|] eqn:Hx.
  2: { exists r. split_and!; [done|done|]. intros. by rewrite decide_False by naive_solver. }
  assert (Heq : Id_eq s_id id = bool_decide (s_id = id)).
  { apply eq_true_iff_eq. by rewrite Id_eq_spec, bool_decide_eq_true. }
  rewrite Heq. case_bool_decide as Hid.
  2: { exists r. split_and!; [done|done|]. intros. by rewrite decide_False by naive_solver. }
  rewrite (bool_decide_true (is_Some (Some _))) by (by eexists). fold (without r tf id rels).
  case_bool_decide as Hnil.
  - pose proof Hi as (_ & Hrel & _). destruct (Hrel _ _ Ht) as (_ & (topic & Hp) & _).
    rewrite Hp. eexists. split; [done|]. split; [by eapply without_entry_inv|].
    intros tf' client. rewrite subscribed_entry.
    + rewrite subscribed_without by done. apply decide_ext. tauto.
    + intros c. unfold subscribed, without. cbn [relations]. rewrite lookup_insert_eq, Hnil.
      apply lookup_empty.
  - eexists. split; [done|]. split; [by eapply without_inv|].
    intros tf' client. rewrite subscribed_without by done. apply decide_ext. tauto.
Qed.

(** ** Refinement of a map from filter and client to subscription *)

Abbreviation subs := (gmap (string * bytes) (Id * SubscriptionOptions)).

(** The subscriptions one by one. *)
Definition flat (rs : gmap string Rels) : list (string * bytes * (Id * SubscriptionOptions)) :=
  map_concat (fun tf rels => (fun e => ((tf, e.1), e.2)) <$> map_to_list rels) rs.

Lemma elem_flat rs tf client x :
  ((tf, client), x) ∈ flat rs <-> rs !! tf ≫= (.!! client) = Some x.
Proof.
  unfold flat. rewrite elem_of_map_concat, bind_Some. split.
  - intros (tf' & rels & Ht & ([c y] & [= -> -> ->] & Hin)%list_elem_of_fmap).
    exists rels. by rewrite elem_of_map_to_list in Hin.
  - intros (rels & Ht & Hx). exists tf, rels. split; [done|].
    apply list_elem_of_fmap. exists (client, x). by rewrite elem_of_map_to_list.
Qed.

Lemma flat_NoDup rs : NoDup (flat rs).*1.
Proof.
  apply (map_concat_keyed fst).
  - intros tf rels _. rewrite <- list_fmap_compose.
    change (fst ∘ (fun e : bytes * (Id * SubscriptionOptions) => ((tf, e.1), e.2)))
      with ((pair tf) ∘ (fst : bytes * (Id * SubscriptionOptions) -> bytes)).
    rewrite list_fmap_compose. apply NoDup_fmap_2; [by intros ?? [=]|apply NoDup_fst_map_to_list].
  - intros tf tf' rels rels' x _ _ (y & -> & (e & -> & _)%list_elem_of_fmap)%list_elem_of_fmap
      (y' & Hy & (e' & -> & _)%list_elem_of_fmap)%list_elem_of_fmap. by injection Hy.
Qed.

Lemma size_flat (rs : gmap string Rels) (m : subs) :
  (forall tf client, m !! (tf, client) = rs !! tf ≫= (.!! client)) -> size m = count_relations rs.
Proof.
  intros Hm. assert (Heq : m = list_to_map (flat rs)).
  { apply map_eq. intros [tf client]. apply option_eq. intros x.
    rewrite <- elem_of_list_to_map by apply flat_NoDup. by rewrite elem_flat, Hm. }
  rewrite Heq, map_size_list_to_map by apply flat_NoDup.
  apply length_map_concat. intros tf rels _. by rewrite length_fmap, length_map_to_list.
Qed.

Inductive op : Type :=
| Add (topic_filter : string) (id : Id) (opts : SubscriptionOptions)
| Remove (topic_filter : string) (id : Id).

Definition step (r : t) (o : op) : t :=
  match o with Add tf id opts => (add r tf id opts).2 | Remove tf id => (remove r tf id).2 end.

Definition abs_step (m : subs) (o : op) : subs :=
  match o with
  | Add tf id opts =>
      match Topic_from_str tf with Ok _ => <[(tf, client_id id) := (id, opts)]> m | _ => m end
  | Remove tf id =>
      match m !! (tf, client_id id) with
      | Some (s_id, _) => if bool_decide (s_id = id) then delete (tf, client_id id) m else m
      | None => m
      end
  end.

Definition abstracts (r : t) (m : subs) : Prop :=
  forall tf client, m !! (tf, client) = subscribed r tf client.

Lemma route_step_refines r m o :
  inv r -> abstracts r m -> inv (step r o) /\ abstracts (step r o) (abs_step m o).
Proof.
  intros Hi Hm. destruct o as [tf id opts|tf id]; simpl.
  - unfold add. destruct (Topic_from_str tf) as [topic| | |] eqn:Hp; try done. simpl.
    destruct (add_inv r tf topic id opts Hi Hp) as [Hi' Hs]. split; [done|].
    intros tf' client. rewrite Hs, lookup_insert, Hm. apply decide_ext.
    split; [by intros [= -> ->]|by intros [-> ->]].
  - destruct (remove_spec r tf id Hi) as (r' & Hr & Hi' & Hs). rewrite Hr. split; [done|].
    intros tf' client. rewrite Hs, (Hm tf (client_id id)).
    destruct (subscribed r tf (client_id id)) as [[s_id o]|] eqn:Hx.
    + case_bool_decide as Hid.
      * rewrite lookup_delete, Hm. apply decide_ext. naive_solver.
      * rewrite decide_False by naive_solver. apply Hm.
    + rewrite decide_False by naive_solver. apply Hm.
Qed.

Lemma route_steps_refine ops r m :
  inv r -> abstracts r m ->
  inv (foldl step r ops) /\ abstracts (foldl step r ops) (foldl abs_step m ops).
Proof.
  revert r m. induction ops as [|o ops IH]; intros r m Hi Hm; simpl; [done|].
  destruct (route_step_refines r m o Hi Hm). by apply IH.
Qed.

Lemma reachable_inv ops : inv (foldl step new ops).
Proof.
  apply (route_steps_refine ops new ∅ router_inv_new). intros tf client. by rewrite lookup_empty.
Qed.

(** C24. The router refines a map from topic filter and client to
    subscription: after any sequence of subscriptions and unsubscriptions
    (where an unsubscription by another session of the same client changes
    nothing) it holds exactly the subscriptions of that map; the topic tree
    holds exactly the filters that have a subscriber; and the gauges count
    the subscriptions and the filters (as 64-bit signed integers). *)
Theorem router_refines (ops : list op) :
  let r := foldl step new ops in
  let m := foldl abs_step ∅ ops in
  (forall tf client, subscribed r tf client = m !! (tf, client)) /\
  (forall topic, tt ∈ Trie.lookup_path (topics r) topic <->
     exists tf client, Topic_from_str tf = Ok topic /\ is_Some (m !! (tf, client))) /\
  Counter.current (relations_count r) = isize (Z.of_nat (size m)) /\
  Counter.current (topics_count r) = isize (Z.of_nat (Trie.values_size (topics r))).
Proof.
  intros r m. destruct (route_steps_refine ops new ∅ router_inv_new) as [Hi Hm].
  { intros tf client. by rewrite lookup_empty. }
  fold r in Hi, Hm. fold m in Hm. pose proof Hi as ((_ & Hsz & Hlk) & Hrel & Htc & Hrc).
  split_and!.
  - done.
  - intros topic. rewrite Hlk. split.
    + intros (tf & Hp & [rels Hs]). destruct (Hrel _ _ Hs) as (Hne & _).
      apply map_choose in Hne as (client & x & Hx). exists tf, client. split; [done|].
      rewrite Hm. unfold subscribed. rewrite Hs. by eexists.
    + intros (tf & client & Hp & [x Hx]). exists tf. split; [done|]. rewrite Hm in Hx.
      unfold subscribed in Hx. destruct (relations r !! tf); [by eexists|done].
  - rewrite Hrc. by rewrite (size_flat (relations r) m).
  - by rewrite Htc, Hsz.
Qed.
End Router.
