(* ===== verification/RouterMatch.v ===== *)
(** * Matching a published topic: [_matches] of [router.rs]

    The loops of the router over the matched filters, their subscriptions
    and their shared groups are reduced to the sequence of subscriptions
    handed to the collectors ([Placed]), and that sequence is characterised:
    which subscriptions get the message, and which member of each group. *)

From stdpp Require Import prelude strings gmap countable list sorting.
From Stdlib Require Import ZArith Lia.
From S2P Require Import Prelude CodecTypes Topic Trie BrokerTypes Subscription Router.
Import Router.

Local Open Scope Z_scope.

(** A subscription handed to the collector of a node. *)
Definition Placed : Type := Z * Collector.Found.

Definition place (cm : gmap Z Collector.t) (p : Placed) : gmap Z Collector.t :=
  let '(node, (tf, client, opts, group)) := p in collect_add cm node tf client opts group.

(** What the collectors make of the sequence, node by node. *)
Definition on_node (node : Z) (ps : list Placed) : list Collector.Found :=
  snd <$> filter (fun p => p.1 = node) ps.

Lemma on_node_snoc node ps p :
  on_node node (ps ++ [p]) = on_node node ps ++ (if decide (p.1 = node) then [p.2] else []).
Proof.
  unfold on_node. rewrite filter_app, fmap_app. f_equal.
  destruct (decide (p.1 = node)); [by rewrite filter_cons_True|by rewrite filter_cons_False].
Qed.

Lemma place_all ps node :
  foldl place ∅ ps !! node =
    match on_node node ps with
    | [] => None
    | fs => Some (foldl Collector.add_found Collector.empty fs)
    end.
Proof.
  induction ps as [|p ps IH] using rev_ind; [done|].
  rewrite foldl_app, on_node_snoc. cbn [foldl].
  destruct p as [n [[[tf c] o] g]]. unfold place at 1, collect_add. simpl.
  destruct (decide (n = node)) as [->|Hne].
  - rewrite lookup_insert_eq, IH. destruct (on_node node ps) as [|f fs] eqn:Hf; [done|].
    cbn [app]. change (f :: fs ++ [(tf, c, o, g)]) with ((f :: fs) ++ [(tf, c, o, g)]).
    by rewrite foldl_app.
  - rewrite lookup_insert_ne, app_nil_r by done. apply IH.
Qed.

Section matching.
Context {S : Type} `{SharedSubscriptionOk S} (is_online : Z -> bytes -> bool).
Implicit Types (this : Id) (tf : string) (r : Router.t).

(** ** The subscriptions of one filter *)

Definition plain this tf (rel : bytes * (Id * SubscriptionOptions)) : option Placed :=
  let '(client, (id, opts)) := rel in
  if is_local this id opts then None
  else match shared_group opts with
       | None => Some (node_id id, (tf, client, opts, None))
       | Some _ => None
       end.

Definition grouped this (rel : bytes * (Id * SubscriptionOptions)) : option (string * Candidate) :=
  let '(client, (id, opts)) := rel in
  if is_local this id opts then None
  else (fun g => (g, (node_id id, client, opts, None, Some (is_online (node_id id) client))))
         <$> shared_group opts.

Definition group_add (gs : gmap string (list Candidate)) (m : string * Candidate) :=
  <[m.1 := default [] (gs !! m.1) ++ [m.2]]> gs.

Lemma rel_loop this tf cm gs l :
  foldl (rel_step is_online this tf) (cm, gs) l =
    (foldl place cm (omap (plain this tf) l), foldl group_add gs (omap (grouped this) l)).
Proof.
  revert cm gs. induction l as [|[client [id opts]] l IH]; intros cm gs; [done|].
  cbn [foldl]. unfold rel_step at 2. simpl.
  destruct (is_local this id opts); [apply IH|].
  destruct (shared_group opts) as [g|]; simpl; apply IH.
Qed.

Lemma group_add_all ms g :
  foldl group_add ∅ ms !! g = Collector.some_list (snd <$> filter (fun m => m.1 = g) ms).
Proof.
  induction ms as [|m ms IH] using rev_ind; [done|].
  rewrite foldl_app, filter_app, fmap_app. cbn [foldl]. unfold group_add at 1.
  destruct (decide (m.1 = g)) as [<-|Hne].
  - rewrite lookup_insert_eq, IH, filter_cons_True by done. simpl.
    change [m.2] with (option_list (Some m.2)). rewrite Collector.some_list_snoc.
    by destruct (Collector.some_list _).
  - rewrite lookup_insert_ne, filter_cons_False by done. by rewrite app_nil_r.
Qed.

(** ** The shared groups of one filter *)

(** What is placed for a group: one of its members. *)
Definition chosen tf (g : string * list Candidate) (p : Placed) : Prop :=
  exists node client opts ids on online,
    (node, client, opts, ids, on) ∈ g.2 /\
    p = (node, (tf, client, opts, Some (g.1, online, cand_client <$> g.2))).

Lemma group_loop this topic_name tf gl cm s :
  Forall (fun g => g.2 <> []) gl ->
  exists ps s', foldl (group_step this topic_name tf) (Some (cm, s)) gl = Some (foldl place cm ps, s') /\
    Forall2 (chosen tf) gl ps.
Proof.
  intros Hgl. revert cm s. induction Hgl as [|[g subs] gl Hne Hgl IH]; intros cm s.
  { exists [], s. split; [done|constructor]. }
  cbn [foldl]. unfold group_step at 2. simpl in Hne.
  destruct (choice_some s g this topic_name subs Hne) as ([idx online] & s1 & Hc).
  rewrite Hc. cbv beta iota zeta.
  pose proof (choice_in_range _ _ _ _ _ _ _ _ Hc) as Hlt.
  destruct (lookup_lt_is_Some_2 (A := Candidate) subs idx Hlt) as [c Hd]. rewrite Hd.
  destruct c as [[[[node client] opts] ids] on].
  destruct (IH (collect_add cm node tf client opts (Some (g, online, cand_client <$> subs))) s1)
    as (ps & s' & -> & Hps).
  exists ((node, (tf, client, opts, Some (g, online, cand_client <$> subs))) :: ps), s'.
  split; [done|]. constructor; [|done]. exists node, client, opts, ids, on, online.
  split; [by eapply list_elem_of_lookup_2|done].
Qed.

(** ** One matched filter *)

Definition groups_of this (rels : gmap bytes (Id * SubscriptionOptions)) : gmap string (list Candidate) :=
  foldl group_add ∅ (omap (grouped this) (map_to_list rels)).

Definition item_placed r this (item : Topic * gset unit) (ps : list Placed) : Prop :=
  let tf := Topic_to_string item.1 in
  exists ps', ps = omap (plain this tf) (map_to_list (rels_of r tf)) ++ ps' /\
    Forall2 (chosen tf) (map_to_list (groups_of this (rels_of r tf))) ps'.

Lemma groups_nonempty this rels :
  Forall (fun g => g.2 <> []) (map_to_list (groups_of this rels)).
Proof.
  apply Forall_forall. intros [g subs] Hin%elem_of_map_to_list. simpl.
  unfold groups_of in Hin. rewrite group_add_all in Hin.
  destruct (snd <$> _) as [|x l]; [done|]. by injection Hin as <-.
Qed.

Lemma item_loop r this topic_name cm s item :
  exists ps s', item_step is_online r this topic_name (Some (cm, s)) item =
      Some (foldl place cm ps, s') /\ item_placed r this item ps.
Proof.
  unfold item_step, item_placed. set (tf := Topic_to_string item.1).
  assert (Hl : match relations r !! tf with
               | Some rels => foldl (rel_step is_online this tf) (cm, ∅) (map_to_list rels)
               | None => (cm, ∅) end =
    (foldl place cm (omap (plain this tf) (map_to_list (rels_of r tf))),
     groups_of this (rels_of r tf))).
  { unfold rels_of. destruct (relations r !! tf) as [rels|]; simpl; [apply rel_loop|].
    unfold groups_of. by rewrite map_to_list_empty. }
  rewrite Hl.
  destruct (group_loop this topic_name tf (map_to_list (groups_of this (rels_of r tf)))
    (foldl place cm (omap (plain this tf) (map_to_list (rels_of r tf)))) s) as (ps & s' & -> & Hps);
    [apply groups_nonempty|].
  eexists _, s'. split; [by rewrite <- foldl_app|]. by exists ps.
Qed.

Lemma items_loop r this topic_name items cm s :
  exists pss s', foldl (item_step is_online r this topic_name) (Some (cm, s)) items =
      Some (foldl place cm (concat pss), s') /\ Forall2 (item_placed r this) items pss.
Proof.
  revert cm s. induction items as [|item items IH]; intros cm s.
  { exists [], s. split; [done|constructor]. }
  cbn [foldl]. destruct (item_loop r this topic_name cm s item) as (ps & s1 & -> & Hps).
  destruct (IH (foldl place cm ps) s1) as (pss & s' & -> & Hpss).
  exists (ps :: pss), s'. split; [by rewrite <- foldl_app|by constructor].
Qed.

(** ** Who gets the message *)

(** The subscription under filter [tf] and client is one the message goes
    to, unless it is a member of a shared group that is not selected. *)
Definition eligible r this (topic : Topic) tf (client : bytes) (node : Z)
    (opts : SubscriptionOptions) : Prop :=
  exists id filter, subscribed r tf client = Some (id, opts) /\ node = node_id id /\
    is_local this id opts = false /\
    Topic_from_str tf = Ok filter /\ mqtt_match_levels filter topic = true.

Lemma elem_groups this rels g subs node client opts ids on :
  groups_of this rels !! g = Some subs ->
  (node, client, opts, ids, on) ∈ subs <->
    exists id, rels !! client = Some (id, opts) /\ node = node_id id /\
      is_local this id opts = false /\ shared_group opts = Some g /\ ids = None /\
      on = Some (is_online node client).
Proof.
  unfold groups_of. rewrite group_add_all. intros Hg.
  assert (Hs : subs = snd <$> filter (fun m => m.1 = g) (omap (grouped this) (map_to_list rels))).
  { destruct (snd <$> _) as [|x l]; [done|]. by injection Hg as <-. }
  rewrite Hs, list_elem_of_fmap. split.
  - intros ([g' c] & Hc' & [Hg' Hin]%list_elem_of_filter). simpl in Hc', Hg'. subst g' c.
    apply list_elem_of_omap in Hin as ([cl [id o]] & Hin%elem_of_map_to_list & Hc).
    unfold grouped in Hc. destruct (is_local this id o) eqn:Hl; [done|].
    destruct (shared_group o) as [g'|] eqn:Hsg; [|done]. injection Hc as -> <- <- <- <- <-.
    by exists id.
  - intros (id & Hr & -> & Hl & Hsg & -> & ->).
    exists (g, (node_id id, client, opts, None, Some (is_online (node_id id) client))). split; [done|].
    apply list_elem_of_filter. split; [done|]. apply list_elem_of_omap.
    exists (client, (id, opts)). split; [by apply elem_of_map_to_list|].
    unfold grouped. by rewrite Hl, Hsg.
Qed.

(** A filter is among the items exactly when it has subscribers and matches. *)
Lemma elem_items r topic fs vs :
  inv r -> wildcard_free topic ->
  (fs, vs) ∈ Trie.walk (topics r) topic [] ->
  Topic_from_str (Topic_to_string fs) = Ok fs /\ mqtt_match_levels fs topic = true.
Proof.
  intros ((_ & _ & Hlk) & _) Hw Hin.
  apply Trie.walk_elem in Hin as (q & -> & [_ Hm] & -> & Hne & Hd); [|done].
  apply set_choose_L in Hne as [[] Hu]. apply Hlk in Hu as (tf & Hp & _). simpl.
  rewrite (from_str_prints _ _ Hp). split; [done|].
  unfold mqtt_match_levels, mqtt_match. by rewrite Hd.
Qed.

Lemma items_complete r topic tf fs rels :
  inv r -> wildcard_free topic -> relations r !! tf = Some rels ->
  Topic_from_str tf = Ok fs -> mqtt_match_levels fs topic = true ->
  (fs, Trie.lookup_path (topics r) fs) ∈ Trie.walk (topics r) topic [].
Proof.
  intros ((_ & _ & Hlk) & _) Hw Hr Hp [Hd Hm]%andb_true_iff.
  apply Trie.walk_elem; [done|]. exists fs.
  split_and!; [done|by eapply from_str_hash_last|done|done| |done].
  assert (tt ∈ Trie.lookup_path (topics r) fs); [|set_solver].
  apply Hlk. exists tf. split; [done|]. by eexists.
Qed.

Definition placed_key (p : Placed) : string * (bytes + string) :=
  let '(_, (tf, client, _, group)) := p in
  (tf, match group with None => inl client | Some (g, _, _) => inr g end).

(** What is placed for one filter. *)
Lemma item_plain r this item ps node tf client opts :
  item_placed r this item ps ->
  (node, (tf, client, opts, None)) ∈ ps <->
    tf = Topic_to_string item.1 /\ shared_group opts = None /\
    exists id, subscribed r tf client = Some (id, opts) /\ node = node_id id /\
      is_local this id opts = false.
Proof.
  intros (ps' & -> & Hch). rewrite elem_of_app, list_elem_of_omap. split.
  - intros [([c [id o]] & Hin%elem_of_map_to_list & Hp)|Hin].
    + unfold plain in Hp. destruct (is_local this id o) eqn:Hl; [done|].
      destruct (shared_group o) eqn:Hg; [done|]. injection Hp as <- <- -> ->.
      split_and!; [done|done|]. exists id. by rewrite subscribed_rels.
    + apply list_elem_of_lookup in Hin as [k Hk].
      destruct (Forall2_lookup_r _ _ _ _ _ Hch Hk) as (g & _ & ? & ? & ? & ? & ? & ? & _ & [=]).
  - intros (-> & Hg & id & Hs & -> & Hl). left. exists (client, (id, opts)).
    rewrite elem_of_map_to_list, <- subscribed_rels. split; [done|]. unfold plain. by rewrite Hl, Hg.
Qed.

Lemma item_shared r this item ps node tf client opts g online cids :
  item_placed r this item ps ->
  (node, (tf, client, opts, Some (g, online, cids))) ∈ ps ->
  tf = Topic_to_string item.1 /\
  exists subs on ids, groups_of this (rels_of r tf) !! g = Some subs /\
    (node, client, opts, ids, on) ∈ subs /\ cids = cand_client <$> subs.
Proof.
  intros (ps' & -> & Hch) [Hin|Hin]%elem_of_app.
  - apply list_elem_of_omap in Hin as ([c [id o]] & _ & Hp). unfold plain in Hp.
    by repeat case_match.
  - apply list_elem_of_lookup in Hin as [k Hk].
    destruct (Forall2_lookup_r _ _ _ _ _ Hch Hk)
      as ([g' subs] & Hg & n & c & o & ids & on & onl & Hin & [= -> -> -> -> -> -> ->]).
    split; [done|]. exists subs, on, ids. split_and!; [|done|done].
    apply elem_of_map_to_list. by eapply list_elem_of_lookup_2.
Qed.

Lemma item_shared_some r this item ps g subs :
  item_placed r this item ps ->
  groups_of this (rels_of r (Topic_to_string item.1)) !! g = Some subs ->
  exists p, p ∈ ps /\ placed_key p = (Topic_to_string item.1, inr g).
Proof.
  intros (ps' & -> & Hch) Hg%elem_of_map_to_list.
  apply list_elem_of_lookup in Hg as [k Hk].
  destruct (Forall2_lookup_l _ _ _ _ _ Hch Hk)
    as (p & Hp & n & c & o & ids & on & onl & _ & ->).
  eexists. split; [apply elem_of_app; right; by eapply list_elem_of_lookup_2|done].
Qed.

(** *** No subscription and no group is served twice *)

Lemma plain_keys this tf (l : list (bytes * (Id * SubscriptionOptions))) :
  NoDup l.*1 ->
  NoDup (placed_key <$> omap (plain this tf) l) /\
  forall k, k ∈ placed_key <$> omap (plain this tf) l -> exists c, k = (tf, inl c) /\ c ∈ l.*1.
Proof.
  induction l as [|[c [id o]] l IH]; intros Hn.
  { split; [constructor|]. by intros k ?%not_elem_of_nil. }
  apply NoDup_cons in Hn as [Hc Hn]. destruct (IH Hn) as [IHn IHk]. simpl.
  assert (Hk : forall k, k ∈ placed_key <$> omap (plain this tf) l ->
             exists c', k = (tf, inl c') /\ c' ∈ c :: l.*1).
  { intros k (c' & -> & Hin)%IHk. exists c'. split; [done|by apply list_elem_of_further]. }
  destruct (is_local this id o); [done|]. destruct (shared_group o); [done|]. csimpl. split.
  - apply NoDup_cons. split; [|done]. by intros (c' & [= <-] & Hin)%IHk.
  - intros k [->|Hin]%elem_of_cons; [|by apply Hk]. exists c. split; [done|apply list_elem_of_here].
Qed.

Lemma chosen_keys tf gl ps :
  Forall2 (chosen tf) gl ps -> placed_key <$> ps = (fun g => (tf, inr g)) <$> gl.*1.
Proof.
  induction 1 as [|[g subs] p gl ps (n & c & o & ids & on & onl & _ & ->) _ IH]; [done|].
  csimpl. by rewrite IH.
Qed.

Lemma item_keys r this item ps :
  item_placed r this item ps ->
  NoDup (placed_key <$> ps) /\
  forall k, k ∈ placed_key <$> ps -> k.1 = Topic_to_string item.1.
Proof.
  intros (ps' & -> & Hch). set (tf := Topic_to_string item.1) in *.
  destruct (plain_keys this tf (map_to_list (rels_of r tf))) as [Hn Hk];
    [apply NoDup_fst_map_to_list|].
  rewrite fmap_app, (chosen_keys _ _ _ Hch). split.
  - apply NoDup_app. split_and!; [done| |].
    + by intros k (c & -> & _)%Hk (g & [=] & _)%list_elem_of_fmap.
    + apply NoDup_fmap_2; [by intros ?? [=]|apply NoDup_fst_map_to_list].
  - intros k [(c & -> & _)%Hk|(g & -> & _)%list_elem_of_fmap]%elem_of_app; done.
Qed.

Lemma concat_keys r this items pss :
  Forall2 (item_placed r this) items pss -> NoDup (Topic_to_string <$> items.*1) ->
  NoDup (placed_key <$> concat pss) /\
  forall k, k ∈ placed_key <$> concat pss -> k.1 ∈ Topic_to_string <$> items.*1.
Proof.
  induction 1 as [|item ps items pss Hp Hps IH]; intros Hn.
  { split; [constructor|]. by intros k ?%not_elem_of_nil. }
  apply NoDup_cons in Hn as [Hni Hn]. destruct (IH Hn) as [IHn IHk].
  destruct (item_keys _ _ _ _ Hp) as [Hpn Hpk]. simpl. rewrite fmap_app. split.
  - apply NoDup_app. split_and!; [done| |done]. intros k Hk1%Hpk Hk2%IHk.
    rewrite Hk1 in Hk2. done.
  - intros k [Hk%Hpk|Hk%IHk]%elem_of_app; csimpl; rewrite elem_of_cons; by auto.
Qed.

Lemma items_NoDup r topic :
  inv r -> wildcard_free topic ->
  NoDup (Topic_to_string <$> (Trie.walk (topics r) topic []).*1).
Proof.
  intros Hi Hw. apply NoDup_fmap_2_strong; [|by apply Trie.walk_NoDup].
  assert (Hp : forall f, f ∈ (Trie.walk (topics r) topic []).*1 ->
                 Topic_from_str (Topic_to_string f) = Ok f).
  { intros f ([fs vs] & -> & Hin)%list_elem_of_fmap. by eapply elem_items. }
  intros f f' Hf%Hp Hf'%Hp Heq. rewrite Heq in Hf. congruence.
Qed.

(** The relations the router returns, from the subscriptions placed. *)
Definition relations_of (ps : list Placed) (m : gmap Z (list SubRelation)) : Prop :=
  forall node, m !! node =
    match on_node node ps with
    | [] => None
    | fs => Some (Collector.to_relations (foldl Collector.add_found Collector.empty fs))
    end.

Lemma groups_some this rels client id opts g :
  rels !! client = Some (id, opts) -> is_local this id opts = false -> shared_group opts = Some g ->
  exists subs, groups_of this rels !! g = Some subs.
Proof.
  intros Hr Hl Hg. unfold groups_of. rewrite group_add_all.
  assert (Hin : (g, (node_id id, client, opts, None, Some (is_online (node_id id) client)))
    ∈ filter (fun m => m.1 = g) (omap (grouped this) (map_to_list rels))).
  { apply list_elem_of_filter. split; [done|]. apply list_elem_of_omap. exists (client, (id, opts)).
    split; [by apply elem_of_map_to_list|]. unfold grouped. by rewrite Hl, Hg. }
  destruct (filter _ _) as [|x l]; [by apply not_elem_of_nil in Hin|]. by eexists.
Qed.

(** *** The message goes to the eligible subscriptions *)

Section placed.
Context (r : Router.t) (this : Id) (topic : Topic) (pss : list (list Placed)).
Hypothesis r_inv : inv r.
Hypothesis topic_name : wildcard_free topic.
Hypothesis pss_placed : Forall2 (item_placed r this) (Trie.walk (topics r) topic []) pss.

Lemma elem_pss p : p ∈ concat pss <-> exists ps, ps ∈ pss /\ p ∈ ps.
Proof.
  clear. induction pss as [|ps pss' IH]; simpl.
  - split; [by intros ?%not_elem_of_nil|]. by intros (? & ?%not_elem_of_nil & _).
  - rewrite elem_of_app, IH. setoid_rewrite elem_of_cons. naive_solver.
Qed.

Lemma ps_item ps : ps ∈ pss -> exists item, item ∈ Trie.walk (topics r) topic [] /\ item_placed r this item ps.
Proof.
  intros [k Hk]%list_elem_of_lookup.
  destruct (Forall2_lookup_r _ _ _ _ _ pss_placed Hk) as (item & Hit & Hp).
  exists item. split; [by eapply list_elem_of_lookup_2|done].
Qed.

Lemma item_ps item : item ∈ Trie.walk (topics r) topic [] -> exists ps, ps ∈ pss /\ item_placed r this item ps.
Proof.
  intros [k Hk]%list_elem_of_lookup.
  destruct (Forall2_lookup_l _ _ _ _ _ pss_placed Hk) as (ps & Hps & Hp).
  exists ps. split; [by eapply list_elem_of_lookup_2|done].
Qed.

(** The item of a matching filter that has a subscriber. *)
Lemma eligible_item tf client node opts :
  eligible r this topic tf client node opts ->
  exists fs ps vs, (fs, vs) ∈ Trie.walk (topics r) topic [] /\ Topic_to_string fs = tf /\
    ps ∈ pss /\ item_placed r this (fs, vs) ps.
Proof.
  intros (id & fs & Hs & _ & _ & Hp & Hm). unfold subscribed in Hs.
  destruct (relations r !! tf) as [rels|] eqn:Ht; [|done].
  pose proof (items_complete r topic tf fs rels r_inv topic_name Ht Hp Hm) as Hin.
  destruct (item_ps _ Hin) as (ps & Hps & Hpl).
  exists fs, ps, (Trie.lookup_path (topics r) fs). by rewrite (from_str_prints _ _ Hp).
Qed.

Lemma item_eligible fs vs client id opts :
  (fs, vs) ∈ Trie.walk (topics r) topic [] ->
  subscribed r (Topic_to_string fs) client = Some (id, opts) -> is_local this id opts = false ->
  eligible r this topic (Topic_to_string fs) client (node_id id) opts.
Proof.
  intros Hin Hs Hl. destruct (elem_items r topic fs vs r_inv topic_name Hin) as [Hp Hm].
  by exists id, fs.
Qed.

Lemma placed_plain node tf client opts :
  (node, (tf, client, opts, None)) ∈ concat pss <->
    eligible r this topic tf client node opts /\ shared_group opts = None.
Proof.
  rewrite elem_pss. split.
  - intros (ps & ([fs vs] & Hin & Hp)%ps_item & Hx). apply (item_plain _ _ _ _ _ _ _ _ Hp) in Hx
      as (-> & Hg & id & Hs & -> & Hl). split; [by eapply item_eligible|done].
  - intros [He Hg]. destruct (eligible_item _ _ _ _ He) as (fs & ps & vs & Hin & Htf & Hps & Hp).
    exists ps. split; [done|]. apply (item_plain _ _ _ _ _ _ _ _ Hp).
    destruct He as (id & _ & Hs & -> & Hl & _). simpl. split_and!; [done..|]. by exists id.
Qed.

Lemma placed_shared node tf client opts g online cids :
  (node, (tf, client, opts, Some (g, online, cids))) ∈ concat pss ->
  eligible r this topic tf client node opts /\ shared_group opts = Some g /\
  forall c, c ∈ cids <-> exists node' opts',
    eligible r this topic tf c node' opts' /\ shared_group opts' = Some g.
Proof.
  rewrite elem_pss. intros (ps & ([fs vs] & Hin & Hp)%ps_item & Hx).
  apply (item_shared _ _ _ _ _ _ _ _ _ _ _ Hp) in Hx as (-> & subs & on & ids & Hg & Hc & ->).
  simpl in *. assert (Hel := fun c id o => item_eligible fs vs c id o Hin).
  split_and!.
  - apply (elem_groups _ _ _ _ _ _ _ _ _ Hg) in Hc as (id & Hr & -> & Hl & _).
    apply Hel; [by rewrite subscribed_rels|done].
  - by apply (elem_groups _ _ _ _ _ _ _ _ _ Hg) in Hc as (id & _ & _ & _ & ? & _).
  - intros c. rewrite list_elem_of_fmap. split.
    + intros ([[[[n c'] o] i] n'] & -> & Hm).
      apply (elem_groups _ _ _ _ _ _ _ _ _ Hg) in Hm as (id & Hr & -> & Hl & Hsg & _).
      exists (node_id id), o. split; [|done]. apply Hel; [by rewrite subscribed_rels|done].
    + intros (n & o & (id & _ & Hs & -> & Hl & _) & Hsg).
      exists (node_id id, c, o, None, Some (is_online (node_id id) c)). split; [done|].
      apply (elem_groups _ _ _ _ _ _ _ _ _ Hg). exists id. by rewrite <- subscribed_rels.
Qed.

Lemma placed_shared_some tf client node opts g :
  eligible r this topic tf client node opts -> shared_group opts = Some g ->
  exists p, p ∈ concat pss /\ placed_key p = (tf, inr g).
Proof.
  intros He Hg. destruct (eligible_item _ _ _ _ He) as (fs & ps & vs & Hin & Htf & Hps & Hp).
  destruct He as (id & _ & Hs & -> & Hl & _). rewrite subscribed_rels in Hs.
  destruct (groups_some _ _ _ _ _ _ Hs Hl Hg) as [subs Hsub]. rewrite <- Htf in Hsub.
  destruct (item_shared_some r this (fs, vs) ps g subs Hp Hsub) as (p & Hpin & Hk).
  exists p. split; [|by rewrite <- Htf]. apply elem_pss. by exists ps.
Qed.
End placed.

Lemma matches_placed r (s : S) this topic_name topic :
  Topic_from_str topic_name = Ok topic ->
  exists pss m s', matches is_online r s this topic_name = (Ok m, s') /\ relations_of (concat pss) m /\
    Forall2 (item_placed r this) (Trie.walk (topics r) topic []) pss.
Proof.
  intros Hp. unfold matches, tree_items. rewrite Hp, Trie.collect_walk by lia.
  destruct (items_loop r this topic_name (Trie.walk (topics r) topic []) ∅ s) as (pss & s' & -> & Hpss).
  exists pss, (Collector.to_relations <$> foldl place ∅ (concat pss)), s'. split_and!; [done| |done].
  intros node. rewrite lookup_fmap, place_all. by destruct (on_node node (concat pss)).
Qed.
End matching.

(** C4. Routing a published message. In a router that satisfies its
    invariant, for a topic name and whatever strategy selects the members
    of the shared groups, [matches] returns, and the subscriptions it hands
    to the collectors are: every subscription outside a group whose filter
    matches the topic by the rules of MQTT and that No Local does not
    exclude; and for every filter and group with such subscriptions,
    exactly one of them, together with all the clients of the group. None
    is there twice. *)
Theorem router_matches_correct {S : Type} `{SharedSubscriptionOk S} (is_online : Z -> bytes -> bool)
    (r : Router.t) (s : S) (this : Id) (topic_name : string) (topic : Topic) :
  inv r -> contains_wildcard topic_name = false -> Topic_from_str topic_name = Ok topic ->
  exists (ps : list Placed) (m : gmap Z (list SubRelation)) (s' : S),
    matches is_online r s this topic_name = (Ok m, s') /\ relations_of ps m /\
    NoDup (placed_key <$> ps) /\
    (forall node tf client opts, (node, (tf, client, opts, None)) ∈ ps <->
       eligible r this topic tf client node opts /\ shared_group opts = None) /\
    (forall tf g, (exists p, p ∈ ps /\ placed_key p = (tf, inr g)) <->
       exists client node opts,
         eligible r this topic tf client node opts /\ shared_group opts = Some g) /\
    (forall node tf client opts g online cids,
       (node, (tf, client, opts, Some (g, online, cids))) ∈ ps ->
       eligible r this topic tf client node opts /\ shared_group opts = Some g /\
       forall c, c ∈ cids <-> exists node' opts',
         eligible r this topic tf c node' opts' /\ shared_group opts' = Some g).
Proof.
  intros Hi Hw Hp. pose proof (from_str_wildcard_free _ _ Hw Hp) as Hwf.
  destruct (matches_placed is_online r s this topic_name topic Hp) as (pss & m & s' & Hm & Hr & Hpss).
  exists (concat pss), m, s'. split; [done|]. split_and!.
  - done.
  - by apply (concat_keys is_online r this (Trie.walk (topics r) topic []) pss), items_NoDup.
  - intros. by apply (placed_plain is_online).
  - intros tf g. split.
    + intros ([node [[[tf' client] opts] [[[g' online] cids]|]]] & Hin & [= -> ->]).
      apply (placed_shared is_online r this topic pss) in Hin as (He & Hg & _); [|done..]. by eauto.
    + intros (client & node & opts & He & Hg).
      by eapply (placed_shared_some is_online r this topic pss).
  - intros. by eapply (placed_shared is_online r this topic pss).
Qed.

(** ** A router with plain, shared and No Local subscriptions *)

Definition client (n : Z) : Id := Id_from 0 1 [n].

Definition opts5 (group : option string) (nl : bool) (id : option Z) : SubscriptionOptions :=
  OptsV5 (mkSubOptionsV5 AtLeastOnce group None nl false CodecV5Types.RetainHandlingM.AtSubscribe id).

Definition sample_router : Router.t :=
  foldl Router.step Router.new
    [Add "a/+" (client 1) default_options; Add "a/b" (client 2) (opts5 None true (Some 7));
     Add "#" (client 2) (opts5 None false (Some 8)); Add "a/b" (client 3) (opts5 (Some "g"%string) false None);
     Add "a/b" (client 4) (opts5 (Some "g"%string) false None); Add "c" (client 5) default_options;
     Remove "c" (client 5)].

Lemma router_matches_correct_witness :
  exists ps m s',
    matches (S := DefaultShared.Seq) (fun _ _ => true) sample_router 0 (client 2) "a/b" = (Ok m, s') /\
    relations_of ps m /\ NoDup (placed_key <$> ps) /\ length (default [] (m !! 1)) = 3%nat.
Proof.
  destruct (router_matches_correct (S := DefaultShared.Seq) (fun _ _ => true) sample_router 0 (client 2)
    "a/b" [Normal "a"%string; Normal "b"%string]) as (ps & m & s' & Hm & Hr & Hn & _);
    [apply reachable_inv|reflexivity|reflexivity|].
  exists ps, m, s'. split_and!; [exact Hm|exact Hr|exact Hn|].
  assert (Hl : length (default [] ((match fst (matches (S := DefaultShared.Seq) (fun _ _ => true)
    sample_router 0 (client 2) "a/b") with Ok m => m | _ => ∅ end) !! 1)) = 3%nat)
    by (vm_compute; reflexivity).
  rewrite Hm in Hl. exact Hl.
Defined.
