(* ===== verification/RouterConcurrent.v ===== *)
(** * Concurrent subscribing and unsubscribing: [router.rs]

    [add] and [remove] are asynchronous functions that many connections
    call at once; they hold the lock of the topic tree, or of one entry of
    the relations, within a step and nothing in between. A task is an
    operation with the steps it has left; a pool of tasks over one router
    takes a step of any of them. Alone, a task does what the sequential
    operation does; together, an unsubscription that empties an entry can
    take away the subscription another task has just made. *)

From stdpp Require Import prelude strings gmap countable list relations.
From Stdlib Require Import ZArith Lia.
From S2P Require Import Prelude CodecTypes Topic Trie BrokerTypes Subscription Router.
Import Router.

Local Open Scope Z_scope.

Inductive task : Type :=
| TAdd (tf : string) (id : Id) (opts : SubscriptionOptions)
| TAddRelation (tf : string) (id : Id) (opts : SubscriptionOptions)
| TRemove (tf : string) (id : Id)
| TRemoveEntry (tf : string) (ok : bool)
| TRemoveTopic (tf : string) (ok : bool)
| TDone (res : outcome TopicError bool).

(** One step of a task, between two releases of a lock. *)
Definition task_step (r : Router.t) (k : task) : option (Router.t * task) :=
  match k with
  | TAdd tf id opts =>
      match Topic_from_str tf with
      | Ok topic => Some (add_topic r topic, TAddRelation tf id opts)
      | Err e => Some (r, TDone (Err e))
      | Panic => Some (r, TDone Panic)
      | Diverged => Some (r, TDone Diverged)
      end
  | TAddRelation tf id opts => Some (add_relation r tf id opts, TDone (Ok true))
  | TRemove tf id =>
      match remove_relation r tf id with
      | (Some (true, ok), r) => Some (r, TRemoveEntry tf ok)
      | (Some (false, ok), r) => Some (r, TDone (Ok ok))
      | (None, r) => Some (r, TDone (Ok false))
      end
  | TRemoveEntry tf ok => Some (remove_entry r tf, TRemoveTopic tf ok)
  | TRemoveTopic tf ok =>
      match Topic_from_str tf with
      | Ok topic => Some (remove_topic r topic, TDone (Ok ok))
      | Err e => Some (r, TDone (Err e))
      | Panic => Some (r, TDone Panic)
      | Diverged => Some (r, TDone Diverged)
      end
  | TDone _ => None
  end.

Inductive pool_step : relation (Router.t * list task) :=
| pool_task r ks i k r' k' :
    ks !! i = Some k -> task_step r k = Some (r', k') ->
    pool_step (r, ks) (r', <[i := k']> ks).

(** A task on its own, as far as it goes. *)
Fixpoint run_task (fuel : nat) (r : Router.t) (k : task) : Router.t * task :=
  match fuel with
  | O => (r, k)
  | S fuel => match task_step r k with Some (r, k) => run_task fuel r k | None => (r, k) end
  end.

(** A task that runs alone is the sequential operation: it ends within
    three steps with the same result and the same router. *)
Theorem task_sequential (r : Router.t) (tf : string) (id : Id) (opts : SubscriptionOptions) :
  run_task 3 r (TAdd tf id opts) =
    ((add r tf id opts).2,
     TDone (match (add r tf id opts).1 with
            | Ok _ => Ok true | Err e => Err e | Panic => Panic | Diverged => Diverged end)) /\
  run_task 3 r (TRemove tf id) = ((remove r tf id).2, TDone (remove r tf id).1).
Proof.
  split.
  - simpl. unfold add. by destruct (Topic_from_str tf).
  - simpl. unfold remove. destruct (remove_relation r tf id) as [[[[] ok]|] r1]; [|done..].
    simpl. by destruct (Topic_from_str tf).
Qed.

(** The step of a pool, computed. *)
Definition pool_next (st : Router.t * list task) (i : nat) : option (Router.t * list task) :=
  match st.2 !! i with
  | Some k => match task_step st.1 k with
              | Some (r', k') => Some (r', <[i := k']> st.2)
              | None => None
              end
  | None => None
  end.

Fixpoint pool_run (sched : list nat) (st : Router.t * list task) : option (Router.t * list task) :=
  match sched with
  | [] => Some st
  | i :: sched => match pool_next st i with Some st => pool_run sched st | None => None end
  end.

Lemma pool_run_rtc sched st st' : pool_run sched st = Some st' -> rtc pool_step st st'.
Proof.
  revert st. induction sched as [|i sched IH]; intros st; simpl; [by intros [= ->]|].
  unfold pool_next. destruct (st.2 !! i) as [k|] eqn:Hk; [|done].
  destruct (task_step st.1 k) as [[r' k']|] eqn:Hs; [|done]. intros Hr.
  apply rtc_l with (r', <[i := k']> st.2); [|by apply IH].
  destruct st as [r ks]. by econstructor.
Qed.

Definition subscriber (n : Z) : Id := Id_from 0 1 [n].
Definition one_subscriber : Router.t := (add Router.new "t" (subscriber 1) default_options).2.

(** A subscription is lost: client 1 unsubscribes from [t] while client 2
    subscribes to it. Both operations succeed, and client 2 is left without
    its subscription, which the gauge still counts. *)
Theorem concurrent_subscription_lost :
  exists r,
    rtc pool_step (one_subscriber, [TRemove "t" (subscriber 1); TAdd "t" (subscriber 2) default_options])
      (r, [TDone (Ok true); TDone (Ok true)]) /\
    subscribed r "t" (client_id (subscriber 2)) = None /\
    Counter.current (relations_count r) = 1.
Proof.
  eexists. split; [apply (pool_run_rtc [0; 1; 1; 0; 0]%nat); vm_compute; reflexivity|].
  split; vm_compute; reflexivity.
Qed.

(** A subscription is never matched: with another schedule the subscription
    of client 2 stays in the relations, and its filter is taken out of the
    tree. *)
Theorem concurrent_filter_lost :
  exists r,
    rtc pool_step (one_subscriber, [TRemove "t" (subscriber 1); TAdd "t" (subscriber 2) default_options])
      (r, [TDone (Ok true); TDone (Ok true)]) /\
    subscribed r "t" (client_id (subscriber 2)) = Some (subscriber 2, default_options) /\
    Trie.lookup_path (topics r) [Normal "t"%string] = ∅.
Proof.
  eexists. split; [apply (pool_run_rtc [0; 0; 1; 1; 0]%nat); vm_compute; reflexivity|].
  split; vm_compute; reflexivity.
Qed.
