(* ===== verification/RouterAdmin.v ===== *)
(** * Routes and queries: [router.rs]

    The administrative side of [DefaultRouter]: the routes of a topic, the
    routes and subscriptions up to a limit, and the merging of the
    counters of the nodes of a cluster. *)

From stdpp Require Import prelude strings gmap countable list.
From Stdlib Require Import ZArith Lia.
From S2P Require Import Prelude CodecTypes Topic Trie BrokerTypes Subscription Router RouterMatch.
Import Router.

Local Open Scope Z_scope.

(** ** Iterator adapters *)

(** [itertools::unique]: the first occurrence of each element. *)
Fixpoint unique_from {A} `{EqDecision A} (seen l : list A) : list A :=
  match l with
  | [] => []
  | x :: l => if bool_decide (x ∈ seen) then unique_from seen l else x :: unique_from (x :: seen) l
  end.
Definition unique {A} `{EqDecision A} (l : list A) : list A := unique_from [] l.

(** [filter_map] with the closure that counts in [curr] up to [limit]. *)
Fixpoint limited {A B} (limit : Z) (f : A -> B) (curr : Z) (l : list A) : list B * Z :=
  match l with
  | [] => ([], curr)
  | x :: l =>
      if curr <? limit then
        let '(out, curr) := limited limit f (curr + 1) l in (f x :: out, curr)
      else limited limit f curr l
  end.

(** [flat_map] over entries, each cut by [limited] with the shared count. *)
Fixpoint flat_limited {A B E} (limit : Z) (items : E -> list A) (f : E -> A -> B) (curr : Z)
    (l : list E) : list B * Z :=
  match l with
  | [] => ([], curr)
  | e :: l =>
      let '(out, curr) := limited limit (f e) curr (items e) in
      let '(rest, curr) := flat_limited limit items f curr l in (out ++ rest, curr)
  end.

(** ** Routes *)

Record Route : Type := mkRoute { rt_node_id : Z; rt_topic : string }.

Definition has_matches (r : t) (topic : string) : outcome TopicError bool :=
  match Topic_from_str topic with
  | Ok topic => match Trie.is_match (topics r) topic with Some b => Ok b | None => Diverged end
  | Err e => Err e
  | Panic => Panic
  | Diverged => Diverged
  end.

Definition get_routes (r : t) (node : Z) (topic : string) : outcome TopicError (list Route) :=
  match Topic_from_str topic with
  | Ok topic =>
      match tree_items (topics r) topic with
      | Some items => Ok ((fun it => mkRoute node (Topic_to_string it.1)) <$> unique items)
      | None => Diverged
      end
  | Err e => Err e
  | Panic => Panic
  | Diverged => Diverged
  end.

Definition nodes_of (rels : Rels) : list Z :=
  unique ((fun e : bytes * (Id * SubscriptionOptions) => node_id e.2.1) <$> map_to_list rels).

Definition get (r : t) (topic : string) : outcome TopicError (list Route) :=
  match Topic_from_str topic with
  | Ok topic =>
      match tree_items (topics r) topic with
      | Some items =>
          Ok (concat ((fun it : Topic * gset unit =>
                let tf := Topic_to_string it.1 in
                match relations r !! tf with
                | Some rels => (fun node => mkRoute node tf) <$> nodes_of rels
                | None => []
                end) <$> unique items))
      | None => Diverged
      end
  | Err e => Err e
  | Panic => Panic
  | Diverged => Diverged
  end.

Definition gets (r : t) (limit : Z) : list Route :=
  (flat_limited limit (fun e => nodes_of e.2) (fun e node => mkRoute node e.1) 0
     (map_to_list (relations r))).1.

(** ** Subscriptions *)

Record SubsSearchParams : Type := mkParams {
  q_limit : Z;
  q_clientid : option bytes;
  q_topic : option string;
  q_qos : option Z;
  q_share : option string;
  q_match_topic : option string;
}.

Record SubsSearchResult : Type := mkResult {
  s_node_id : Z;
  s_clientid : bytes;
  s_client_addr : option SocketAddr;
  s_topic : string;
  s_opts : SubscriptionOptions;
}.

(** [_query_subscriptions_filter]. *)
Definition query_filter (q : SubsSearchParams) (client : bytes) (opts : SubscriptionOptions) : bool :=
  match q_clientid q with Some c => bool_decide (c = client) | None => true end
  && match q_qos q with Some v => v =? qos_value opts | None => true end
  && match q_share q, shared_group opts with
     | Some g, Some group => bool_decide (g = group)
     | Some _, None => false
     | None, _ => true
     end.

Definition to_result (tf : string) (e : bytes * (Id * SubscriptionOptions)) : SubsSearchResult :=
  mkResult (node_id e.2.1) e.1 (remote_addr e.2.1) tf e.2.2.

Definition selected_rels (q : SubsSearchParams) (rels : Rels) : list (bytes * (Id * SubscriptionOptions)) :=
  filter (fun e => query_filter q e.1 e.2.2 = true) (map_to_list rels).

Definition query_for_topic (r : t) (q : SubsSearchParams) (topic : string) : list SubsSearchResult :=
  match relations r !! topic with
  | Some rels => (limited (q_limit q) (to_result topic) 0 (selected_rels q rels)).1
  | None => []
  end.

Definition query_for_matches (r : t) (q : SubsSearchParams) (topic : string)
    : outcome TopicError (list SubsSearchResult) :=
  match Topic_from_str topic with
  | Ok topic =>
      match tree_items (topics r) topic with
      | Some items =>
          Ok (flat_limited (q_limit q)
                (fun it : Topic * gset unit =>
                   match relations r !! Topic_to_string it.1 with
                   | Some rels => selected_rels q rels
                   | None => []
                   end)
                (fun it e => to_result (Topic_to_string it.1) e) 0 (unique items)).1
      | None => Diverged
      end
  | Err _ => Ok []
  | Panic => Panic
  | Diverged => Diverged
  end.

Definition query_for_other (r : t) (q : SubsSearchParams) : list SubsSearchResult :=
  (flat_limited (q_limit q) (fun e => selected_rels q e.2) (fun e x => to_result e.1 x) 0
     (map_to_list (relations r))).1.

Definition query_subscriptions (r : t) (q : SubsSearchParams)
    : outcome TopicError (list SubsSearchResult) :=
  match q_topic q with
  | Some topic => Ok (query_for_topic r q topic)
  | None =>
      match q_match_topic q with
      | Some topic => query_for_matches r q topic
      | None => Ok (query_for_other r q)
      end
  end.

Definition topics_tree (r : t) : nat := Trie.values_size (topics r).

(** [merge_topics] and [merge_routes], over the counters in the order of
    the iteration. *)
Fixpoint merge_loop (acc : Counter.t) (i : nat) (cs : list Counter.t) : Counter.t :=
  match cs with
  | [] => acc
  | c :: cs =>
      let acc := match i with
                 | O => Counter.set acc c
                 | _ => Counter.max_max (Counter.count_min acc (Counter.current c)) (Counter.maximum c)
                 end in
      merge_loop acc (S i) cs
  end.
Definition merge_topics (cs : list Counter.t) : Counter.t := merge_loop Counter.new 0 cs.
Definition merge_routes (cs : list Counter.t) : Counter.t := merge_loop Counter.new 0 cs.

(** [list_relations]: the count is compared after the item is pushed. *)
Fixpoint list_rels (top count : Z) (l : list (string * bytes * (Id * SubscriptionOptions)))
    : list (string * bytes * (Id * SubscriptionOptions)) :=
  match l with
  | [] => []
  | x :: l =>
      let count := count + 1 in
      if top <=? count then [x] else x :: list_rels top count l
  end.
Definition list_relations (r : t) (top : Z) : list (string * bytes * (Id * SubscriptionOptions)) :=
  list_rels top 0 (flat (relations r)).

(** ** The adapters *)

Lemma unique_from_spec {A} `{EqDecision A} (seen l : list A) :
  NoDup (unique_from seen l) /\ forall x, x ∈ unique_from seen l <-> x ∈ l /\ x ∉ seen.
Proof.
  revert seen. induction l as [|y l IH]; intros seen; simpl.
  { split; [constructor|]. intros x. split; [by intros ?%not_elem_of_nil|by intros [?%not_elem_of_nil _]]. }
  case_bool_decide as Hy.
  - destruct (IH seen) as [Hn Hx]. split; [done|]. intros x. rewrite Hx, elem_of_cons. naive_solver.
  - destruct (IH (y :: seen)) as [Hn Hx]. split.
    + apply NoDup_cons. split; [|done]. rewrite Hx. intros [_ Hno]. apply Hno, list_elem_of_here.
    + intros x. rewrite !elem_of_cons, Hx, not_elem_of_cons.
      destruct (decide (x = y)) as [->|]; naive_solver.
Qed.

Lemma unique_NoDup {A} `{EqDecision A} (l : list A) : NoDup (unique l).
Proof. apply unique_from_spec. Qed.

Lemma elem_unique {A} `{EqDecision A} (l : list A) x : x ∈ unique l <-> x ∈ l.
Proof.
  unfold unique. rewrite (proj2 (unique_from_spec [] l) x).
  split; [by intros [? _]|]. intros ?. split; [done|apply not_elem_of_nil].
Qed.

Lemma limited_spec {A B} limit (f : A -> B) curr l :
  limited limit f curr l =
    (f <$> take (Z.to_nat (limit - curr)) l, Z.max curr (Z.min limit (curr + Z.of_nat (length l)))).
Proof.
  revert curr. induction l as [|x l IH]; intros curr; simpl.
  - rewrite take_nil. f_equal. lia.
  - destruct (Z.ltb_spec curr limit) as [Hlt|Hge]; rewrite IH.
    + replace (Z.to_nat (limit - curr)) with (S (Z.to_nat (limit - (curr + 1)))) by lia.
      simpl. f_equal. lia.
    + replace (Z.to_nat (limit - curr)) with 0%nat by lia. simpl. f_equal. lia.
Qed.

(** The shared count cuts the whole concatenation. *)
Lemma flat_limited_spec {A B E} limit (items : E -> list A) (f : E -> A -> B) curr l :
  (flat_limited limit items f curr l).1 =
    take (Z.to_nat (limit - curr)) (concat ((fun e => f e <$> items e) <$> l)).
Proof.
  revert curr. induction l as [|e l IH]; intros curr; [simpl; by rewrite take_nil|]. cbn [flat_limited].
  rewrite limited_spec. specialize (IH (Z.max curr (Z.min limit (curr + Z.of_nat (length (items e)))))).
  destruct (flat_limited _ _ _ _ l) as [rest c]. simpl in IH |- *. rewrite IH.
  rewrite take_app, length_fmap, fmap_take. f_equal. f_equal. lia.
Qed.

(** ** Queries *)

Lemma elem_selected q rels client id opts :
  (client, (id, opts)) ∈ selected_rels q rels <->
    rels !! client = Some (id, opts) /\ query_filter q client opts = true.
Proof. unfold selected_rels. rewrite list_elem_of_filter, elem_of_map_to_list. naive_solver. Qed.

(** What a query asks for: the subscription is filed under [tf] for the
    client, passes the filter, and the topic is the one asked for. *)
Definition answers (r : t) (q : SubsSearchParams) (x : SubsSearchResult) : Prop :=
  exists tf client id opts, x = to_result tf (client, (id, opts)) /\
    subscribed r tf client = Some (id, opts) /\ query_filter q client opts = true /\
    match q_topic q, q_match_topic q with
    | Some topic, _ => tf = topic
    | None, Some topic => exists t fs, Topic_from_str topic = Ok t /\ Topic_from_str tf = Ok fs /\
                            mqtt_match_levels fs t = true
    | None, None => True
    end.

Lemma elem_concat_fmap {A B} (f : A -> list B) (l : list A) y :
  y ∈ concat (f <$> l) <-> exists x, x ∈ l /\ y ∈ f x.
Proof.
  induction l as [|x l IH]; csimpl.
  - split; [by intros ?%not_elem_of_nil|by intros (? & ?%not_elem_of_nil & _)].
  - rewrite elem_of_app, IH. setoid_rewrite elem_of_cons. naive_solver.
Qed.

Lemma elem_results q tf rels x :
  x ∈ to_result tf <$> selected_rels q rels <->
    exists client id opts, x = to_result tf (client, (id, opts)) /\
      rels !! client = Some (id, opts) /\ query_filter q client opts = true.
Proof.
  rewrite list_elem_of_fmap. split.
  - intros ([client [id opts]] & -> & [Hr Hq]%elem_selected). by exists client, id, opts.
  - intros (client & id & opts & -> & Hr & Hq). exists (client, (id, opts)). by rewrite elem_selected.
Qed.

Lemma answers_topic r q topic x :
  q_topic q = Some topic ->
  x ∈ match relations r !! topic with
      | Some rels => to_result topic <$> selected_rels q rels | None => [] end <->
  answers r q x.
Proof.
  intros Hq. unfold answers. rewrite Hq. split.
  - destruct (relations r !! topic) as [rels|] eqn:Ht; [|by intros ?%not_elem_of_nil].
    intros (client & id & opts & -> & Hr & Hf)%elem_results. exists topic, client, id, opts.
    split_and!; [done| |done|done]. unfold subscribed. by rewrite Ht.
  - intros (tf & client & id & opts & -> & Hs & Hf & ->). unfold subscribed in Hs.
    destruct (relations r !! topic) as [rels|]; [|done]. apply elem_results. by exists client, id, opts.
Qed.

Lemma answers_other r q x :
  q_topic q = None -> q_match_topic q = None ->
  x ∈ concat ((fun e => to_result e.1 <$> selected_rels q e.2) <$> map_to_list (relations r)) <->
  answers r q x.
Proof.
  intros Hq Hm. unfold answers. rewrite Hq, Hm, elem_concat_fmap. split.
  - intros ([tf rels] & Ht%elem_of_map_to_list & (client & id & opts & -> & Hr & Hf)%elem_results).
    exists tf, client, id, opts. split_and!; [done| |done|done]. unfold subscribed. by rewrite Ht.
  - intros (tf & client & id & opts & -> & Hs & Hf & _). unfold subscribed in Hs.
    destruct (relations r !! tf) as [rels|] eqn:Ht; [|done]. exists (tf, rels).
    rewrite elem_of_map_to_list. split; [done|]. apply elem_results. by exists client, id, opts.
Qed.

Definition matched_rels r q (it : Topic * gset unit) : list (bytes * (Id * SubscriptionOptions)) :=
  match relations r !! Topic_to_string it.1 with Some rels => selected_rels q rels | None => [] end.

Lemma answers_matches r q topic t x :
  inv r -> q_topic q = None -> q_match_topic q = Some topic -> Topic_from_str topic = Ok t ->
  wildcard_free t ->
  x ∈ concat ((fun it => to_result (Topic_to_string it.1) <$> matched_rels r q it)
                <$> unique (Trie.walk (topics r) t [])) <->
  answers r q x.
Proof.
  intros Hi Hq Hm Hp Hw. unfold answers. rewrite Hq, Hm, elem_concat_fmap. split.
  - intros ([fs vs] & Hin & Hx). rewrite elem_unique in Hin.
    destruct (elem_items r t fs vs Hi Hw Hin) as [Hfs Hmt]. unfold matched_rels in Hx. simpl in Hx.
    destruct (relations r !! Topic_to_string fs) as [rels|] eqn:Ht; [|by apply not_elem_of_nil in Hx].
    apply elem_results in Hx as (client & id & opts & -> & Hr & Hf).
    exists (Topic_to_string fs), client, id, opts.
    split_and!; [done|unfold subscribed; by rewrite Ht|done|]. by exists t, fs.
  - intros (tf & client & id & opts & -> & Hs & Hf & t' & fs & Hp' & Hfs & Hmt).
    rewrite Hp in Hp'. injection Hp' as <-. unfold subscribed in Hs.
    destruct (relations r !! tf) as [rels|] eqn:Ht; [|done].
    exists (fs, Trie.lookup_path (topics r) fs). rewrite elem_unique. split; [by eapply items_complete|].
    unfold matched_rels. simpl. rewrite (from_str_prints _ _ Hfs), Ht.
    apply elem_results. by exists client, id, opts.
Qed.

(** The subscription queries, in their three forms (by filter, by a
    topic name the filters match, and over everything): the answer is the
    first entries, up to the limit, of a list that holds exactly the
    subscriptions that pass the search parameters. *)
Theorem router_query_correct (r : t) (q : SubsSearchParams) :
  inv r -> (forall topic, q_match_topic q = Some topic -> contains_wildcard topic = false) ->
  exists all, query_subscriptions r q = Ok (take (Z.to_nat (q_limit q)) all) /\
    forall x, x ∈ all <-> answers r q x.
Proof.
  intros Hi Hw. unfold query_subscriptions. destruct (q_topic q) as [topic|] eqn:Hq.
  - unfold query_for_topic.
    exists match relations r !! topic with
           | Some rels => to_result topic <$> selected_rels q rels | None => [] end.
    split; [|intros x; by apply answers_topic].
    destruct (relations r !! topic); [|by rewrite take_nil].
    by rewrite limited_spec, Z.sub_0_r, fmap_take.
  - destruct (q_match_topic q) as [topic|] eqn:Hm.
    + unfold query_for_matches. destruct (Topic_from_str topic) as [t|e| |] eqn:Hp.
      * unfold tree_items. rewrite Trie.collect_walk by lia. eexists. split.
        -- rewrite flat_limited_spec, Z.sub_0_r. done.
        -- intros x. apply (answers_matches r q topic t); try done.
           by eapply from_str_wildcard_free; [apply Hw|].
      * exists []. rewrite take_nil. split; [done|]. intros x.
        split; [by intros ?%not_elem_of_nil|]. unfold answers. rewrite Hq, Hm.
        intros (? & ? & ? & ? & _ & _ & _ & ? & ? & Hp' & _). congruence.
      * pose proof (from_str_returns topic) as Hret. by rewrite Hp in Hret.
      * pose proof (from_str_returns topic) as Hret. by rewrite Hp in Hret.
    + eexists. split; [unfold query_for_other; by rewrite flat_limited_spec, Z.sub_0_r|].
      intros x. by apply answers_other.
Qed.

(** ** Routes *)

Lemma elem_nodes_of rels node :
  node ∈ nodes_of rels <-> exists client id opts, rels !! client = Some (id, opts) /\ node_id id = node.
Proof.
  unfold nodes_of. rewrite elem_unique, list_elem_of_fmap. split.
  - intros ([client [id opts]] & -> & Hr%elem_of_map_to_list). by exists client, id, opts.
  - intros (client & id & opts & Hr & <-). exists (client, (id, opts)). by rewrite elem_of_map_to_list.
Qed.

(** The routes of a topic name: the router returns exactly the pairs of
    a node and a filter such that the filter matches the topic and some
    client of the node subscribes to it. *)
Theorem router_get_correct (r : t) (topic : string) (t : Topic) :
  inv r -> contains_wildcard topic = false -> Topic_from_str topic = Ok t ->
  exists routes, get r topic = Ok routes /\
    forall node tf, mkRoute node tf ∈ routes <->
      exists client id opts fs, subscribed r tf client = Some (id, opts) /\ node_id id = node /\
        Topic_from_str tf = Ok fs /\ mqtt_match_levels fs t = true.
Proof.
  intros Hi Hw Hp. pose proof (from_str_wildcard_free _ _ Hw Hp) as Hwf.
  unfold get, tree_items. rewrite Hp, Trie.collect_walk by lia. eexists. split; [done|].
  intros node tf. rewrite elem_concat_fmap. split.
  - intros ([fs vs] & Hin & Hx). rewrite elem_unique in Hin.
    destruct (elem_items r t fs vs Hi Hwf Hin) as [Hfs Hmt]. simpl in Hx.
    destruct (relations r !! Topic_to_string fs) as [rels|] eqn:Ht; [|by apply not_elem_of_nil in Hx].
    apply list_elem_of_fmap in Hx as (n & [= -> ->] & (client & id & opts & Hr & Hn)%elem_nodes_of).
    exists client, id, opts, fs. split_and!; [unfold subscribed; by rewrite Ht|done..].
  - intros (client & id & opts & fs & Hs & Hn & Hfs & Hmt). unfold subscribed in Hs.
    destruct (relations r !! tf) as [rels|] eqn:Ht; [|done].
    exists (fs, Trie.lookup_path (topics r) fs). rewrite elem_unique. split; [by eapply items_complete|].
    simpl. rewrite (from_str_prints _ _ Hfs), Ht. apply list_elem_of_fmap. exists node.
    split; [done|]. apply elem_nodes_of. by exists client, id, opts.
Qed.

(** ** Counters of a cluster *)

Lemma merge_loop_spec acc i cs :
  (0 < i)%nat ->
  Counter.current (merge_loop acc i cs) = foldr (fun c m => Z.min (Counter.current c) m) (Counter.current acc) cs /\
  Counter.maximum (merge_loop acc i cs) = foldr (fun c m => Z.max (Counter.maximum c) m) (Counter.maximum acc) cs.
Proof.
  revert acc i. induction cs as [|c cs IH]; intros acc i Hi; [done|]. cbn [merge_loop].
  destruct i as [|i]; [lia|]. destruct (IH (Counter.max_max (Counter.count_min acc (Counter.current c))
    (Counter.maximum c)) (S (S i))) as [-> ->]; [lia|]. simpl. clear.
  induction cs as [|d cs IH]; simpl; [lia|]. lia.
Qed.

(** The merged counter has the least of the current values and the greatest
    of the maxima. *)
Theorem merge_topics_correct (c : Counter.t) (cs : list Counter.t) :
  Counter.current (merge_topics (c :: cs)) =
    foldr (fun c m => Z.min (Counter.current c) m) (Counter.current c) cs /\
  Counter.maximum (merge_topics (c :: cs)) =
    foldr (fun c m => Z.max (Counter.maximum c) m) (Counter.maximum c) cs.
Proof. apply (merge_loop_spec (Counter.set Counter.new c) 1 cs). lia. Qed.

(** Asked for none, [list_relations] still gives one. *)
Theorem list_relations_at_least_one (r : t) :
  flat (relations r) <> [] -> length (list_relations r 0) = 1%nat.
Proof. unfold list_relations. by destruct (flat (relations r)). Qed.

(** ** Witnesses *)

Definition sample_query : SubsSearchParams := mkParams 2 None None (Some 1) None (Some "a/b"%string).

Lemma router_query_correct_witness :
  exists all, query_subscriptions sample_router sample_query = Ok (take 2 all) /\
    forall x, x ∈ all <-> answers sample_router sample_query x.
Proof.
  apply (router_query_correct sample_router sample_query); [apply reachable_inv|].
  by intros topic [= <-].
Defined.

Lemma router_get_correct_witness :
  exists routes, get sample_router "a/b" = Ok routes /\
    forall node tf, mkRoute node tf ∈ routes <->
      exists client id opts fs, subscribed sample_router tf client = Some (id, opts) /\ node_id id = node /\
        Topic_from_str tf = Ok fs /\
        mqtt_match_levels fs [Normal "a"%string; Normal "b"%string] = true.
Proof.
  apply (router_get_correct sample_router "a/b" [Normal "a"%string; Normal "b"%string]);
    [apply reachable_inv|reflexivity|reflexivity].
Defined.

