(* ===== verification/Retain.v ===== *)
(** * The tree of retained messages: [retain.rs]

    [Node<V>] with its insertion, removal, conditional clean-up and
    matching. A tree denotes the map from topics to values ([to_map]);
    matching is shown to give the stored topics the filter matches.

    The code iterates over hash maps, whose order is unspecified; here the
    order is that of [gmap], and the theorems say which items a result
    holds, not in which order. *)

From stdpp Require Import prelude strings gmap countable list.
From Stdlib Require Import ZArith Lia.
From S2P Require Import Prelude Topic.

Set Warnings "-register-all,-clear-no-such-hyp".

Module RetainTree.
Section tree.
Context {V : Type}.

Inductive Node : Type :=
| mkNode (value : option V) (branches : gmap Level Node).

Definition value (n : Node) : option V := let '(mkNode v _) := n in v.
Definition branches (n : Node) : gmap Level Node := let '(mkNode _ b) := n in b.

Definition Node_default : Node := mkNode None ∅.

(** ** Updates *)

(** [_insert], along the path. *)
Fixpoint insert_path (n : Node) (path : list Level) (v : V) : Node :=
  match path with
  | [] => mkNode (Some v) (branches n)
  | first :: path =>
      mkNode (value n)
        (<[first := insert_path (default Node_default (branches n !! first)) path v]> (branches n))
  end.

Definition insert (n : Node) (topic : Topic) (v : V) : Node := insert_path n topic v.

Definition is_bare (n : Node) : bool :=
  bool_decide (value n = None) && bool_decide (branches n = ∅).

(** [_remove]: a child left without a value and branches is dropped. *)
Fixpoint remove_path (n : Node) (path : list Level) : option V * Node :=
  match path with
  | [] => (value n, mkNode None (branches n))
  | t :: path =>
      match branches n !! t with
      | Some x =>
          let '(res, x) := remove_path x path in
          (res, mkNode (value n)
                  (if is_bare x then delete t (branches n) else <[t := x]> (branches n)))
      | None => (None, n)
      end
  end.

Definition remove (n : Node) (topic : Topic) : option V * Node := remove_path n topic.

(** [_retain]: the predicate may change the value and a state [S] of its
    own; the limit is looked at on entry to a node only. *)
Section retain.
Context {S : Type} (f : V -> S -> bool * V * S) (max_limit : Z).

Definition retain_value (child : Node) (removeds : Z) (s : S) : Node * Z * S :=
  match value child with
  | Some v =>
      let '(keep, v, s) := f v s in
      if keep then (mkNode (Some v) (branches child), removeds, s)
      else (mkNode None (branches child), (removeds + 1)%Z, s)
  | None => (child, removeds, s)
  end.

Fixpoint retain_node (n : Node) (removeds : Z) (s : S) : Node * Z * S :=
  let '(mkNode v b) := n in
  if (max_limit <=? removeds)%Z then (n, removeds, s)
  else
    let '(b, removeds, s) :=
      map_fold (fun l child '(acc, removeds, s) =>
          let '(child, removeds, s) := retain_node child removeds s in
          let '(child, removeds, s) := retain_value child removeds s in
          (if is_bare child then acc else <[l := child]> acc, removeds, s))
        (∅, removeds, s) b in
    (mkNode v b, removeds, s).

Definition retain (n : Node) (s : S) : Z * Node * S :=
  let '(n, removeds, s) := retain_node n 0%Z s in (removeds, n, s).
End retain.

(** ** Matching *)

Definition opt_out (levels : list Level) (v : option V) : list (Topic * V) :=
  match v with Some v => [(levels, v)] | None => [] end.

(** [path.len() > 1 && path[1] == Level::MultiWildcard]. *)
Definition next_is_hash (rest : list Level) : bool :=
  match rest with l :: _ => bool_decide (l = MultiWildcard) | [] => false end.

(** The wildcards at the root skip the levels that start with [$]. *)
Definition skipped (sub_path : list Level) (k : Level) : bool :=
  bool_decide (sub_path = []) && negb (bool_decide (k = Blank)) && Level_is_metadata k.

(** [_matches], which only appends to [out]. The recursive results are
    taken over all the branches before the look-up of [path[0]], for the
    recursion to be structural in the node. *)
Fixpoint matches_node (n : Node) (path sub_path : list Level) : list (Topic * V) :=
  let '(mkNode v brs) := n in
  match path with
  | [] => opt_out sub_path v
  | p0 :: rest =>
      if bool_decide (brs = ∅) then []
      else
        match ((fun r => (value r, matches_node r)) <$> brs) !! p0 with
        | Some (rv, r_matches) =>
            let sub_path := sub_path ++ [p0] in
            (if next_is_hash rest then opt_out sub_path rv else []) ++ r_matches rest sub_path
        | None =>
            match p0 with
            | SingleWildcard =>
                map_concat (fun k v =>
                  if skipped sub_path k then []
                  else
                    let sub_path := sub_path ++ [k] in
                    (if next_is_hash rest then opt_out sub_path (value v) else [])
                    ++ matches_node v rest sub_path) brs
            | MultiWildcard =>
                map_concat (fun k v =>
                  if skipped sub_path k then []
                  else
                    let sub_path := sub_path ++ [k] in
                    if bool_decide (branches v = ∅) then opt_out sub_path (value v)
                    else opt_out sub_path (value v) ++ matches_node v path sub_path) brs
            | _ => []
            end
        end
  end.

Definition matches (n : Node) (topic : Topic) : list (Topic * V) := matches_node n topic [].

(** ** Sizes *)

Fixpoint values_size (n : Node) : nat :=
  let '(mkNode v b) := n in
  let len := map_sum values_size b in
  match v with Some _ => len + 1 | None => len end.

Fixpoint nodes_size (n : Node) : nat :=
  let '(mkNode _ b) := n in size b + map_sum nodes_size b.

(** ** Abstraction: the value stored under a topic *)

Fixpoint stored (n : Node) (topic : list Level) : option V :=
  match topic with
  | [] => value n
  | l :: topic =>
      match branches n !! l with Some c => stored c topic | None => None end
  end.

(** The invariant of a tree of topic names: no wildcard among the levels,
    no branch that leads nowhere. *)
Inductive tidy : Node -> Prop :=
| tidy_node v b :
    (forall l c, b !! l = Some c -> is_wildcard l = false) ->
    (forall l c, b !! l = Some c -> is_bare c = false) ->
    (forall l c, b !! l = Some c -> tidy c) ->
    tidy (mkNode v b).

(** ** Induction on trees *)

Lemma nodes_size_child v (b : gmap Level Node) l c :
  b !! l = Some c -> nodes_size c < nodes_size (mkNode v b).
Proof.
  intros Hc. cbn [nodes_size]. rewrite (map_sum_delete nodes_size b l c) by done.
  assert (size b <> 0); [|lia]. intros Hs%map_size_empty_inv. by rewrite Hs, lookup_empty in Hc.
Qed.

Lemma node_rect (P : Node -> Prop) :
  (forall v b, (forall l c, b !! l = Some c -> P c) -> P (mkNode v b)) -> forall n, P n.
Proof.
  intros Hstep n. induction n as [n IH] using (induction_ltof1 _ nodes_size).
  destruct n as [v b]. apply Hstep. intros l c Hc. apply IH. by eapply nodes_size_child.
Qed.

(** ** Insertion and removal *)

Lemma stored_default p : stored Node_default p = None.
Proof. destruct p; simpl; [done|]. by rewrite lookup_empty. Qed.

Lemma stored_child n l p :
  stored (default Node_default (branches n !! l)) p = stored n (l :: p).
Proof. simpl. destruct (branches n !! l); [done|]. apply stored_default. Qed.

Lemma stored_bare n p : is_bare n = true -> stored n p = None.
Proof.
  unfold is_bare. rewrite andb_true_iff, !bool_decide_eq_true. intros [Hv Hb].
  destruct p; simpl; [done|]. by rewrite Hb, lookup_empty.
Qed.

Lemma stored_insert n p v q :
  stored (insert_path n p v) q = if decide (p = q) then Some v else stored n q.
Proof.
  revert n q. induction p as [|l p IH]; intros n q; simpl.
  - by destruct q.
  - destruct q as [|l' q]; simpl; [done|].
    destruct (decide (l = l')) as [->|Hne].
    + rewrite lookup_insert_eq, IH, stored_child.
      destruct (decide (p = q)) as [->|]; [by rewrite decide_True|].
      by rewrite decide_False by congruence.
    + rewrite lookup_insert_ne by done. by rewrite decide_False by congruence.
Qed.

Lemma stored_remove n p q :
  stored (remove_path n p).2 q = if decide (p = q) then None else stored n q.
Proof.
  revert n q. induction p as [|l p IH]; intros n q; simpl.
  - by destruct q.
  - destruct (branches n !! l) as [x|] eqn:Hx; simpl.
    2: { case_decide as Hd; [|done]. subst q. simpl. by rewrite Hx. }
    specialize (IH x). destruct (remove_path x p) as [res c]. simpl in IH |- *.
    destruct q as [|l' q]; simpl; [done|].
    destruct (decide (l = l')) as [<-|Hne].
    + rewrite Hx. transitivity (stored c q).
      * destruct (is_bare c) eqn:Hb; [|by rewrite lookup_insert_eq].
        rewrite lookup_delete_eq. symmetry. by apply stored_bare.
      * rewrite IH. destruct (decide (p = q)) as [->|];
          [by rewrite decide_True|by rewrite decide_False by congruence].
    + rewrite decide_False by congruence.
      by destruct (is_bare c); [rewrite lookup_delete_ne|rewrite lookup_insert_ne].
Qed.

Lemma remove_result n p : (remove_path n p).1 = stored n p.
Proof.
  revert n. induction p as [|l p IH]; intros n; [done|]. simpl.
  destruct (branches n !! l) as [x|]; [|done].
  specialize (IH x). by destruct (remove_path x p).
Qed.

Lemma tidy_default : tidy Node_default.
Proof. constructor; intros l c; by rewrite lookup_empty. Qed.

Lemma tidy_child n l c :
  tidy n -> branches n !! l = Some c -> is_wildcard l = false /\ is_bare c = false /\ tidy c.
Proof. intros [v b Hw Hb Ht] Hc. split_and!; [by eapply Hw|by eapply Hb|by eapply Ht]. Qed.

Lemma tidy_update v n l c :
  tidy n -> is_wildcard l = false -> is_bare c = false -> tidy c ->
  tidy (mkNode v (<[l := c]> (branches n))).
Proof.
  intros Hn Hl Hb Hc.
  constructor; intros l' d Hd; apply lookup_insert_Some in Hd as [[<- <-]|[_ Hd]]; try done;
    by apply (tidy_child n l' d).
Qed.

Lemma insert_not_bare n p v : is_bare (insert_path n p v) = false.
Proof.
  unfold is_bare. destruct p as [|l p]; simpl; [done|].
  rewrite (bool_decide_false (<[l := _]> _ = ∅)) by apply insert_non_empty.
  apply andb_false_r.
Qed.

Lemma tidy_insert n p v : wildcard_free p -> tidy n -> tidy (insert_path n p v).
Proof.
  intros Hp. revert n. induction Hp as [|l p Hl Hp IH]; intros n Hn; simpl.
  - destruct Hn as [w b Hw Hb Ht]. by constructor.
  - apply tidy_update; [done..|apply insert_not_bare|]. apply IH.
    destruct (branches n !! l) as [c|] eqn:Hc; simpl;
      [by apply (tidy_child n l c)|apply tidy_default].
Qed.

Lemma tidy_remove n p : tidy n -> tidy (remove_path n p).2.
Proof.
  revert n. induction p as [|l p IH]; intros n Hn; cbn [remove_path].
  - destruct Hn as [w b Hw Hb Ht]. by constructor.
  - destruct (branches n !! l) as [x|] eqn:Hx; [|done].
    destruct (tidy_child _ _ _ Hn Hx) as (Hl & _ & Htx). specialize (IH x Htx).
    destruct (remove_path x p) as [r c]. simpl in *.
    destruct (is_bare c) eqn:Hb; [|by apply tidy_update].
    constructor; intros l' d Hd; apply lookup_delete_Some in Hd as [_ Hd];
      by apply (tidy_child n l' d).
Qed.

(** ** Matching finds the stored topics that match *)

(** What a branch that the filter's first level reaches contributes. *)
Definition hit (rest sp : list Level) (k : Level) (c : Node) : list (Topic * V) :=
  (if next_is_hash rest then opt_out (sp ++ [k]) (value c) else [])
  ++ matches_node c rest (sp ++ [k]).

Definition deep (path sp : list Level) (k : Level) (c : Node) : list (Topic * V) :=
  opt_out (sp ++ [k]) (value c) ++ matches_node c path (sp ++ [k]).

Definition unskipped (f : Level -> Node -> list (Topic * V)) (sp : list Level)
    (k : Level) (c : Node) : list (Topic * V) := if skipped sp k then [] else f k c.

Lemma matches_no_branch v p0 rest sp : matches_node (mkNode v ∅) (p0 :: rest) sp = [].
Proof. simpl. by rewrite bool_decide_true. Qed.

Lemma matches_unfold v b p0 rest sp :
  matches_node (mkNode v b) (p0 :: rest) sp =
    if bool_decide (b = ∅) then []
    else match b !! p0 with
         | Some r => hit rest sp p0 r
         | None => match p0 with
                   | SingleWildcard => map_concat (unskipped (hit rest sp) sp) b
                   | MultiWildcard => map_concat (unskipped (deep (p0 :: rest) sp) sp) b
                   | _ => []
                   end
         end.
Proof.
  cbn [matches_node]. case_bool_decide; [done|]. rewrite lookup_fmap.
  destruct (b !! p0); [done|]. simpl. destruct p0; try done.
  apply map_concat_ext. intros k c. unfold unskipped, deep. destruct (skipped sp k); [done|].
  case_bool_decide as Hc; [|done]. destruct c as [w b']. simpl in Hc. subst b'.
  by rewrite matches_no_branch, app_nil_r.
Qed.

(** The topics a filter selects below a node; the parent of a final [#] is
    selected by the caller. *)
Definition selects (path q : list Level) : Prop :=
  levels_match level_eq_level path q = true /\ (path = [MultiWildcard] -> q <> []).

Definition finds (n : Node) (path : list Level) : Prop := forall sp t v,
  (t, v) ∈ matches_node n path sp <-> exists q, t = sp ++ q /\ stored n q = Some v /\
    selects path q /\ (sp = [] -> dollar_isolated Level_is_metadata path q = true).

Lemma elem_opt_out sp o t v : (t, v) ∈ opt_out sp o <-> t = sp /\ o = Some v.
Proof.
  destruct o as [w|]; simpl; rewrite ?list_elem_of_singleton.
  - split; [by intros [= -> ->]|by intros [-> [= ->]]].
  - split; [by intros ?%not_elem_of_nil|by intros [_ [=]]].
Qed.

Lemma next_is_hash_spec rest : hash_last rest = true ->
  next_is_hash rest = bool_decide (rest = [MultiWildcard]).
Proof.
  intros Hh. destruct rest as [|l rest]; [done|]. simpl.
  destruct (decide (l = MultiWildcard)) as [->|Hne].
  - destruct rest; [done|]. by simpl in Hh.
  - by rewrite !bool_decide_false by congruence.
Qed.

Lemma elem_hit rest sp k c t v :
  hash_last rest = true -> finds c rest ->
  (t, v) ∈ hit rest sp k c <-> exists q, t = sp ++ k :: q /\ stored c q = Some v /\
    levels_match level_eq_level rest q = true.
Proof.
  intros Hh Hf. unfold hit. rewrite next_is_hash_spec, elem_of_app, (Hf (sp ++ [k])) by done.
  split.
  - intros [Hin|(q & -> & Hs & [Hm _] & _)].
    + case_bool_decide as Hr; [|by apply not_elem_of_nil in Hin].
      apply elem_opt_out in Hin as [-> Hv]. exists []. by subst rest.
    + exists q. by rewrite <- app_assoc.
  - intros (q & -> & Hs & Hm).
    destruct (decide (rest = [MultiWildcard] /\ q = [])) as [[-> ->]|Hn].
    + left. by apply elem_opt_out.
    + right. exists q. rewrite <- app_assoc. split_and!; [done|done| |by destruct sp].
      split; [done|]. naive_solver.
Qed.

Lemma elem_unskipped f sp k c t v :
  (t, v) ∈ unskipped f sp k c <->
    (t, v) ∈ f k c /\ (sp = [] -> Level_is_metadata k = false).
Proof.
  unfold unskipped, skipped. rewrite (bool_decide_decide (sp = [])).
  destruct (decide (sp = [])) as [->|Hsp]; simpl; [|naive_solver].
  destruct (Level_is_metadata k) eqn:Hm.
  - assert (k <> Blank) by (by intros ->). rewrite bool_decide_false by done. simpl.
    split; [by intros ?%not_elem_of_nil|]. intros [_ Hf]. by specialize (Hf eq_refl).
  - rewrite andb_false_r. naive_solver.
Qed.

(** The branches a wildcard reaches; below a [#], the filter stays [#]. *)
Lemma elem_wild rest sp v b t w :
  hash_last rest = true -> (forall l c, b !! l = Some c -> finds c rest) ->
  (t, w) ∈ map_concat (unskipped (hit rest sp) sp) b <->
    exists k q, t = sp ++ k :: q /\ stored (mkNode v b) (k :: q) = Some w /\
      levels_match level_eq_level rest q = true /\ (sp = [] -> Level_is_metadata k = false).
Proof.
  intros Hh Hf. rewrite elem_of_map_concat. split.
  - intros (k & c & Hk & [Hin Hd]%elem_unskipped).
    apply elem_hit in Hin as (q & -> & Hs & Hm); [|done|by eapply Hf].
    exists k, q. simpl. by rewrite Hk.
  - intros (k & q & -> & Hs & Hm & Hd). simpl in Hs.
    destruct (b !! k) as [c|] eqn:Hk; [|done]. exists k, c. split; [done|].
    apply elem_unskipped. split; [|done]. apply elem_hit; [done|by eapply Hf|]. by exists q.
Qed.

(** The topics selected, by the kind of the filter's first level. *)
Definition selected (path sp t : list Level) (Q : list Level -> Prop) : Prop :=
  exists q, t = sp ++ q /\ Q q /\ selects path q /\
    (sp = [] -> dollar_isolated Level_is_metadata path q = true).

Lemma selected_wild p0 rest sp t Q :
  is_wildcard p0 = true -> hash_last (p0 :: rest) = true ->
  selected (p0 :: rest) sp t Q <->
    exists k q, t = sp ++ k :: q /\ Q (k :: q) /\
      levels_match level_eq_level (p0 :: rest) (k :: q) = true /\
      (sp = [] -> Level_is_metadata k = false).
Proof.
  intros Hw Hh.
  assert (Hd : forall k q, dollar_isolated Level_is_metadata (p0 :: rest) (k :: q) =
                 negb (Level_is_metadata k)) by (intros; simpl; by rewrite Hw).
  split.
  - intros (q & -> & HQ & [Hm Hq] & Hs). destruct q as [|k q].
    { destruct p0; try done. destruct rest; [by destruct Hq|done]. }
    exists k, q. split_and!; [done..|]. rewrite Hd, negb_true_iff in Hs. done.
  - intros (k & q & -> & HQ & Hm & Hs). exists (k :: q). split_and!; [done..|by split|].
    by rewrite Hd, negb_true_iff.
Qed.

Lemma selected_literal p0 rest sp t Q :
  is_wildcard p0 = false ->
  selected (p0 :: rest) sp t Q <->
    exists q, t = sp ++ p0 :: q /\ Q (p0 :: q) /\ levels_match level_eq_level rest q = true.
Proof.
  intros Hw.
  assert (Hm : forall k q, levels_match level_eq_level (p0 :: rest) (k :: q) =
                 bool_decide (p0 = k) && levels_match level_eq_level rest q).
  { intros k q. by destruct p0. }
  split.
  - intros (q & -> & HQ & [Hq _] & _). destruct q as [|k q]; [by destruct p0|].
    rewrite Hm, andb_true_iff, bool_decide_eq_true in Hq. destruct Hq as [<- Hq]. by exists q.
  - intros (q & -> & HQ & Hq). exists (p0 :: q). split_and!; [done..| |].
    + split; [|by intros _]. by rewrite Hm, bool_decide_true, Hq.
    + intros _. simpl. by rewrite Hw.
Qed.

Lemma finds_no_branch v p0 rest : hash_last (p0 :: rest) = true -> finds (mkNode v ∅) (p0 :: rest).
Proof.
  intros Hh sp t w. rewrite matches_no_branch. split; [by intros ?%not_elem_of_nil|].
  intros (q & -> & Hs & [Hm Hq] & _). destruct q as [|l q]; simpl in Hs;
    [|by rewrite lookup_empty in Hs].
  destruct p0; try done. destruct rest; [by destruct Hq|done].
Qed.

Lemma finds_empty n : finds n [].
Proof.
  intros sp t w. destruct n as [v b]. simpl. rewrite elem_opt_out. split.
  - intros [-> ->]. exists []. by rewrite app_nil_r.
  - intros (q & -> & Hs & [Hm _] & _). destruct q; [|done]. by rewrite app_nil_r.
Qed.

Lemma matches_finds n path : tidy n -> hash_last path = true -> finds n path.
Proof.
  revert path. induction n as [v b IH] using node_rect. intros path Ht Hh.
  destruct path as [|p0 rest]; [apply finds_empty|].
  destruct (decide (b = ∅)) as [->|Hb]; [by apply finds_no_branch|].
  intros sp t w. rewrite matches_unfold, bool_decide_false by done.
  assert (Hf : forall l c path, b !! l = Some c -> hash_last path = true -> finds c path).
  { intros l c path Hl. apply (IH l c Hl). by apply (tidy_child _ _ _ Ht Hl). }
  fold (selected (p0 :: rest) sp t (fun q => stored (mkNode v b) q = Some w)).
  destruct (is_wildcard p0) eqn:Hw.
  - rewrite selected_wild by done. destruct (b !! p0) as [r|] eqn:Hr.
    { apply (tidy_child _ _ _ Ht) in Hr as [Hr _]. congruence. }
    destruct p0; try done; [by apply elem_wild; [|naive_solver]|].
    assert (rest = []) as -> by (by destruct rest).
    change (deep [MultiWildcard] sp) with (hit [MultiWildcard] sp).
    apply elem_wild; naive_solver.
  - rewrite selected_literal by done. assert (Hh' : hash_last rest = true) by (by destruct p0).
    destruct (b !! p0) as [r|] eqn:Hr; simpl; rewrite Hr.
    + apply elem_hit; [done|by eapply Hf].
    + destruct p0; try done; (split; [by intros ?%not_elem_of_nil|naive_solver]).
Qed.

(** No topic is reported twice. *)
Lemma hit_prefix rest sp k c x :
  hash_last rest = true -> finds c rest -> x ∈ (hit rest sp k c).*1 -> exists q, x = sp ++ k :: q.
Proof.
  intros Hh Hf ([t v] & -> & Hin)%list_elem_of_fmap.
  apply elem_hit in Hin as (q & -> & _); [|done..]. by exists q.
Qed.

Lemma hit_NoDup rest sp k c :
  hash_last rest = true -> finds c rest -> NoDup (matches_node c rest (sp ++ [k])).*1 ->
  NoDup (hit rest sp k c).*1.
Proof.
  intros Hh Hf Hn. unfold hit. rewrite next_is_hash_spec by done.
  case_bool_decide as Hr; [subst rest|done]. rewrite fmap_app. apply NoDup_app. split_and!; [| |done].
  - destruct (value c); simpl; [apply NoDup_singleton|constructor].
  - intros x ([t v] & -> & [-> _]%elem_opt_out)%list_elem_of_fmap
      ([t' v'] & Ht & Hin)%list_elem_of_fmap.
    apply Hf in Hin as (q & -> & _ & [_ Hq] & _). simpl in Ht.
    rewrite <- (app_nil_r (sp ++ [k])) in Ht at 1. apply app_inv_head in Ht. by destruct Hq.
Qed.

Lemma wild_NoDup rest sp b :
  hash_last rest = true -> (forall l c, b !! l = Some c -> finds c rest) ->
  (forall l c, b !! l = Some c -> NoDup (matches_node c rest (sp ++ [l])).*1) ->
  NoDup (map_concat (unskipped (hit rest sp) sp) b).*1.
Proof.
  intros Hh Hf Hn. apply (map_concat_keyed fst).
  - intros k c Hk. unfold unskipped. destruct (skipped sp k); [constructor|].
    apply hit_NoDup; [done|by eapply Hf|by apply Hn].
  - assert (Hp : forall k c x, b !! k = Some c -> x ∈ (unskipped (hit rest sp) sp k c).*1 ->
                   exists q, x = sp ++ k :: q).
    { intros k c x Hk Hx. apply (hit_prefix rest sp k c x Hh); [by eapply Hf|].
      unfold unskipped in Hx. destruct (skipped sp k); [by apply not_elem_of_nil in Hx|done]. }
    intros k k' c c' x Hk Hk' [q ->]%Hp [q' Hq]%Hp; [|done..].
    apply app_inv_head in Hq. congruence.
Qed.

Lemma matches_NoDup n path sp :
  tidy n -> hash_last path = true -> NoDup (matches_node n path sp).*1.
Proof.
  revert path sp. induction n as [v b IH] using node_rect. intros path sp Ht Hh.
  destruct path as [|p0 rest].
  { destruct v; simpl; [apply NoDup_singleton|constructor]. }
  rewrite matches_unfold. case_bool_decide; [constructor|].
  assert (Hc : forall l c, b !! l = Some c -> tidy c).
  { intros l c Hl. by apply (tidy_child _ _ _ Ht Hl). }
  assert (Hr : p0 <> MultiWildcard -> hash_last rest = true) by (by destruct p0).
  destruct (b !! p0) as [r|] eqn:Hp0.
  - assert (p0 <> MultiWildcard).
    { intros ->. by destruct (tidy_child _ _ _ Ht Hp0) as [? _]. }
    apply hit_NoDup; [by apply Hr|by apply matches_finds; [eapply Hc|apply Hr]|].
    apply (IH p0); [done|by eapply Hc|by apply Hr].
  - destruct p0; try constructor.
    + apply wild_NoDup; [done|intros l c Hl; by apply matches_finds; [eapply Hc|]|].
      intros l c Hl. apply (IH l); [done|by eapply Hc|done].
    + assert (rest = []) as -> by (by destruct rest).
      apply (wild_NoDup [MultiWildcard]); [done|intros l c Hl; by apply matches_finds; [eapply Hc|]|].
      intros l c Hl. apply (IH l); [done|by eapply Hc|done].
Qed.

(** ** The map a tree denotes *)

Definition below (l : Level) (e : Topic * V) : Topic * V := (l :: e.1, e.2).

Fixpoint entries (n : Node) : list (Topic * V) :=
  let '(mkNode v b) := n in
  opt_out [] v ++ map_concat (fun l c => below l <$> entries c) b.

Definition to_map (n : Node) : gmap Topic V := list_to_map (entries n).

Lemma elem_entries n t v : (t, v) ∈ entries n <-> stored n t = Some v.
Proof.
  revert t. induction n as [w b IH] using node_rect. intros t. cbn [entries].
  rewrite elem_of_app, elem_opt_out, elem_of_map_concat. split.
  - intros [[-> ->]|(l & c & Hl & ([t' v'] & [= -> ->] & Hin)%list_elem_of_fmap)]; [done|].
    simpl. rewrite Hl. by apply (IH l).
  - destruct t as [|l t]; simpl; [by left|]. destruct (b !! l) as [c|] eqn:Hl; [|done].
    intros Hs%(IH l); [|done]. right. exists l, c. split; [done|].
    by apply (list_elem_of_fmap_2 (below l) _ (t, v)).
Qed.

Lemma entries_cons_fst l (es : list (Topic * V)) :
  (below l <$> es).*1 = cons l <$> es.*1.
Proof. rewrite <- !list_fmap_compose. done. Qed.

Lemma entries_NoDup n : NoDup (entries n).*1.
Proof.
  induction n as [w b IH] using node_rect. cbn [entries]. rewrite fmap_app.
  apply NoDup_app. split_and!.
  - destruct w; simpl; [apply NoDup_singleton|constructor].
  - intros x ([t v] & -> & [-> _]%elem_opt_out)%list_elem_of_fmap
      ([t' v'] & Ht & (l & c & _ & ([] & [= -> _] & _)%list_elem_of_fmap)%elem_of_map_concat)
        %list_elem_of_fmap. done.
  - apply (map_concat_keyed fst).
    + intros l c Hl. rewrite entries_cons_fst.
      apply NoDup_fmap_2; [by intros ?? [=]|by eapply IH].
    + intros l l' c c' x _ _. rewrite !entries_cons_fst, !list_elem_of_fmap.
      intros (q & -> & _) (q' & [= ->] & _). done.
Qed.

Lemma length_entries n : length (entries n) = values_size n.
Proof.
  induction n as [w b IH] using node_rect. cbn [entries values_size].
  rewrite length_app, (length_map_concat _ values_size).
  - destruct w; simpl; lia.
  - intros l c Hc. rewrite length_fmap. by eapply IH.
Qed.

Lemma lookup_to_map n t : to_map n !! t = stored n t.
Proof.
  apply option_eq. intros v. rewrite <- elem_entries. symmetry.
  apply elem_of_list_to_map, entries_NoDup.
Qed.

Lemma size_to_map n : size (to_map n) = values_size n.
Proof.
  rewrite <- length_entries. apply map_size_list_to_map, entries_NoDup.
Qed.

Lemma to_map_insert n p v : to_map (insert_path n p v) = <[p := v]> (to_map n).
Proof.
  apply map_eq. intros q. rewrite lookup_insert, !lookup_to_map, stored_insert. done.
Qed.

Lemma to_map_remove n p : to_map (remove_path n p).2 = delete p (to_map n).
Proof.
  apply map_eq. intros q. rewrite lookup_delete, !lookup_to_map, stored_remove. done.
Qed.

(** ** Conditional clean-up

    With a predicate that changes neither the values nor, when it keeps
    one, its state, and a limit that is not reached. *)
Section retain_spec.
Context {S : Type} (f : V -> S -> bool * V * S) (keep : V -> bool) (drop : S -> S).
Context (max_limit : Z).
Hypothesis f_spec : forall v s, f v s = if keep v then (true, v, s) else (false, v, drop s).

Definition kept (o : option V) : option V :=
  match o with Some v => if keep v then Some v else None | None => None end.

(** [n'] is [n] after [k] of the values below the root were dropped. *)
Definition cleaned (n n' : Node) (k : nat) : Prop :=
  value n' = value n /\
  (forall l q, stored n' (l :: q) = kept (stored n (l :: q))) /\
  values_size n = values_size n' + k /\
  (tidy n -> tidy n').

Lemma retained_size_unfold n :
  values_size n = map_sum values_size (branches n) + match value n with Some _ => 1 | None => 0 end.
Proof. destruct n as [[] b]; simpl; lia. Qed.

Lemma retain_value_spec c c1 k r s :
  cleaned c c1 k ->
  exists c2 k', retain_value f c1 r s = (c2, (r + Z.of_nat k')%Z, Nat.iter k' drop s) /\
    (forall q, stored c2 q = kept (stored c q)) /\
    values_size c = values_size c2 + (k + k') /\ (tidy c -> tidy c2).
Proof.
  intros (Hv & Hs & Hz & Ht). unfold retain_value. rewrite Hv.
  rewrite (retained_size_unfold c), (retained_size_unfold c1), Hv in Hz.
  assert (Hcase : forall o, kept (value c) = o -> value c1 = value c ->
    forall q, stored (mkNode o (branches c1)) q = kept (stored c q)).
  { intros o <- _ [|l q]; [done|]. by rewrite <- Hs. }
  destruct (value c) as [v|] eqn:Hc.
  - rewrite f_spec. destruct (keep v) eqn:Hk.
    + exists (mkNode (Some v) (branches c1)), 0. rewrite Z.add_0_r. split_and!; [done| | |].
      * apply Hcase; [|done]. simpl. by rewrite Hk.
      * rewrite (retained_size_unfold c), (retained_size_unfold (mkNode _ _)), Hc. simpl in *. lia.
      * intros Hcl. specialize (Ht Hcl). destruct Ht. by constructor.
    + exists (mkNode None (branches c1)), 1. split_and!; [done| | |].
      * apply Hcase; [|done]. simpl. by rewrite Hk.
      * rewrite (retained_size_unfold c), (retained_size_unfold (mkNode _ _)), Hc. simpl in *. lia.
      * intros Hcl. specialize (Ht Hcl). destruct Ht. by constructor.
  - exists c1, 0. rewrite Z.add_0_r. split_and!; [done| | |done].
    + destruct c1 as [w b1]. simpl in Hv. subst w. by apply Hcase.
    + rewrite (retained_size_unfold c), (retained_size_unfold c1), Hv, Hc. simpl in *. lia.
Qed.

Definition retain_step (l : Level) (child : Node) (st : gmap Level Node * Z * S)
    : gmap Level Node * Z * S :=
  let '(acc, removeds, s) := st in
  let '(child, removeds, s) := retain_node f max_limit child removeds s in
  let '(child, removeds, s) := retain_value f child removeds s in
  (if is_bare child then acc else <[l := child]> acc, removeds, s).

Lemma retain_node_unfold v b r s :
  (r < max_limit)%Z ->
  retain_node f max_limit (mkNode v b) r s =
    let '(b, r, s) := map_fold retain_step (∅, r, s) b in (mkNode v b, r, s).
Proof. intros Hr. cbn [retain_node]. by rewrite (proj2 (Z.leb_gt _ _) Hr). Qed.

(** The entry point of a node, as the induction needs it. *)
Definition cleans (n : Node) : Prop := forall r s,
  (r + Z.of_nat (values_size n) < max_limit)%Z ->
  exists n' k, retain_node f max_limit n r s = (n', (r + Z.of_nat k)%Z, Nat.iter k drop s) /\
    cleaned n n' k.

(** What the loop over the branches has built from those it has seen. *)
Definition branches_cleaned (m acc : gmap Level Node) (k : nat) : Prop :=
  (forall l q, stored (mkNode None acc) (l :: q) = kept (stored (mkNode None m) (l :: q))) /\
  (forall l c, acc !! l = Some c ->
     is_bare c = false /\ exists d, m !! l = Some d /\ (tidy d -> tidy c)) /\
  map_sum values_size m = map_sum values_size acc + k.

Lemma iter_iter {A} (g : A -> A) a b x : Nat.iter a g (Nat.iter b g x) = Nat.iter (a + b) g x.
Proof. induction a as [|a IH]; [done|]. simpl. by rewrite IH. Qed.

Lemma retained_size_bare n : is_bare n = true -> values_size n = 0.
Proof.
  unfold is_bare. rewrite andb_true_iff, !bool_decide_eq_true. intros [Hv Hb].
  by rewrite retained_size_unfold, Hv, Hb.
Qed.

Lemma retain_step_spec l c m acc r s k :
  m !! l = None -> cleans c ->
  (r + Z.of_nat (k + values_size c) < max_limit)%Z ->
  branches_cleaned m acc k ->
  exists acc' k', retain_step l c (acc, (r + Z.of_nat k)%Z, Nat.iter k drop s) =
      (acc', (r + Z.of_nat k')%Z, Nat.iter k' drop s) /\
    branches_cleaned (<[l := c]> m) acc' k'.
Proof.
  intros Hl Hc Hmax (Hlk & Hsome & Hsum). unfold retain_step.
  destruct (Hc (r + Z.of_nat k)%Z (Nat.iter k drop s)) as (c1 & k1 & -> & Hc1); [lia|].
  destruct (retain_value_spec c c1 k1 (r + Z.of_nat k + Z.of_nat k1)%Z
              (Nat.iter k1 drop (Nat.iter k drop s)) Hc1) as (c2 & k2 & -> & Hq & Hz & Ht).
  exists (if is_bare c2 then acc else <[l := c2]> acc), (k + (k1 + k2)).
  assert (Hacc : acc !! l = None).
  { destruct (acc !! l) as [d|] eqn:Hd; [|done].
    destruct (Hsome _ _ Hd) as (_ & d' & Hd' & _). congruence. }
  split.
  { rewrite !iter_iter. replace (k + (k1 + k2)) with (k2 + (k1 + k)) by lia.
    f_equal; [f_equal; lia|by rewrite Nat.add_assoc]. }
  split_and!.
  - intros l' q. specialize (Hlk l' q). simpl in Hlk |- *.
    destruct (decide (l = l')) as [<-|Hne].
    + rewrite lookup_insert_eq, <- Hq. destruct (is_bare c2) eqn:Hb;
        [by rewrite Hacc, (stored_bare c2)|by rewrite lookup_insert_eq].
    + rewrite (lookup_insert_ne m) by done. destruct (is_bare c2); [done|].
      by rewrite lookup_insert_ne.
  - intros l' c' Hc'.
    assert (Hold : acc !! l' = Some c' -> is_bare c' = false /\
              exists d, <[l := c]> m !! l' = Some d /\ (tidy d -> tidy c')).
    { intros Hd. destruct (Hsome _ _ Hd) as (Hb & d & Hm & Hd'). split; [done|]. exists d.
      rewrite lookup_insert_ne by congruence. done. }
    destruct (is_bare c2) eqn:Hb; [by apply Hold|].
    apply lookup_insert_Some in Hc' as [[<- <-]|[_ Hc']]; [|by apply Hold].
    split; [done|]. exists c. by rewrite lookup_insert_eq.
  - rewrite map_sum_insert_new by done. destruct (is_bare c2) eqn:Hb.
    + apply retained_size_bare in Hb. lia.
    + rewrite map_sum_insert_new by done. lia.
Qed.

Lemma retain_fold_spec m r s :
  (forall l c, m !! l = Some c -> cleans c) ->
  (r + Z.of_nat (map_sum values_size m) < max_limit)%Z ->
  exists acc k, map_fold retain_step (∅, r, s) m = (acc, (r + Z.of_nat k)%Z, Nat.iter k drop s) /\
    branches_cleaned m acc k.
Proof.
  apply (map_fold_weak_ind (fun st m =>
    (forall l c, m !! l = Some c -> cleans c) ->
    (r + Z.of_nat (map_sum values_size m) < max_limit)%Z ->
    exists acc k, st = (acc, (r + Z.of_nat k)%Z, Nat.iter k drop s) /\ branches_cleaned m acc k)).
  - intros _ _. exists ∅, 0. rewrite Z.add_0_r. split; [done|]. split_and!.
    + intros l q. simpl. by rewrite lookup_empty.
    + intros l c. by rewrite lookup_empty.
    + done.
  - intros l c m' st Hl IH Hc Hmax. rewrite map_sum_insert_new in Hmax by done.
    destruct IH as (acc & k & -> & Hb).
    + intros l' c' Hl'. apply (Hc l'). rewrite lookup_insert_ne by congruence. done.
    + lia.
    + apply retain_step_spec; [done|by apply (Hc l), lookup_insert_eq| |done].
      destruct Hb as (_ & _ & Hs). lia.
Qed.

Lemma retain_node_cleans n : cleans n.
Proof.
  induction n as [v b IH] using node_rect. intros r s Hmax.
  rewrite (retained_size_unfold (mkNode v b)) in Hmax. simpl in Hmax.
  rewrite retain_node_unfold by lia.
  destruct (retain_fold_spec b r s IH) as (acc & k & -> & Hlk & Hsome & Hsum); [lia|].
  exists (mkNode v acc), k. split; [done|]. split_and!; [done|exact Hlk| |].
  - rewrite !(retained_size_unfold (mkNode _ _)). simpl. lia.
  - intros Ht. constructor; intros l c Hc; destruct (Hsome _ _ Hc) as (Hb & d & Hd & Htd);
      destruct (tidy_child _ _ _ Ht Hd) as (? & ? & ?); [done|done|by apply Htd].
Qed.

(** Clean-up drops the values the predicate refuses, leaves the others,
    and applies the predicate's effect once for each dropped value. *)
Lemma retain_spec n s :
  value n = None -> (Z.of_nat (values_size n) < max_limit)%Z ->
  exists n' k, retain f max_limit n s = (Z.of_nat k, n', Nat.iter k drop s) /\
    to_map n' = filter (fun '(_, v) => keep v = true) (to_map n) /\
    values_size n = values_size n' + k /\ value n' = None /\ (tidy n -> tidy n').
Proof.
  intros Hv Hmax. unfold retain.
  destruct (retain_node_cleans n 0%Z s) as (n' & k & -> & Hv' & Hlk & Hz & Ht); [lia|].
  exists n', k. split; [done|]. split_and!; [|done|congruence|done].
  apply map_eq. intros [|l q]; rewrite map_lookup_filter, !lookup_to_map.
  - simpl. by rewrite Hv', Hv.
  - rewrite Hlk. destruct (stored n (l :: q)) as [v|]; [|done]. simpl.
    by destruct (keep v).
Qed.
End retain_spec.

Lemma matches_spec n filter topic v :
  tidy n -> value n = None -> hash_last filter = true ->
  (topic, v) ∈ matches n filter <->
    to_map n !! topic = Some v /\ mqtt_match_levels filter topic = true.
Proof.
  intros Ht Hv Hh. unfold matches.
  rewrite (matches_finds n filter Ht Hh [] topic v), lookup_to_map.
  unfold mqtt_match_levels, mqtt_match. rewrite andb_true_iff. split.
  - intros (q & -> & Hs & [Hm _] & Hd). by split_and!; [|apply Hd|].
  - intros (Hs & Hd & Hm). exists topic. split_and!; [done..|split; [done|]|done].
    intros _ ->. simpl in Hs. congruence.
Qed.

(** Matching retained messages: in a tree of topic names, [matches]
    yields exactly the stored topics the filter matches by the rules of
    MQTT (the [$] rule and the parent level of a final [#] included), each
    once, with its value. *)
Theorem retain_matches_correct n filter :
  tidy n -> value n = None -> hash_last filter = true ->
  NoDup (matches n filter).*1 /\
  forall topic v, (topic, v) ∈ matches n filter <->
    to_map n !! topic = Some v /\ mqtt_match_levels filter topic = true.
Proof.
  intros Ht Hv Hh. split; [by apply matches_NoDup|]. intros topic v. by apply matches_spec.
Qed.
End tree.
Arguments Node V : clear implicits.

Definition sample : Node nat :=
  let add t v n := insert n t v in
  add [Normal "a"%string; Normal "b"%string] 1
    (add [Normal "a"%string] 2
       (add [Normal "c"%string; Normal "b"%string] 3
          (add [Metadata "$S"%string; Normal "b"%string] 4 Node_default))).

Lemma sample_tidy : tidy sample.
Proof. repeat apply tidy_insert; try apply tidy_default; repeat constructor. Qed.

Lemma retain_matches_correct_witness :
  matches sample [SingleWildcard; Normal "b"%string] =
    [([Normal "c"%string; Normal "b"%string], 3); ([Normal "a"%string; Normal "b"%string], 1)] /\
  NoDup (matches sample [Normal "a"%string; MultiWildcard]).*1 /\
  forall topic v, (topic, v) ∈ matches sample [Normal "a"%string; MultiWildcard] <->
    to_map sample !! topic = Some v /\
    mqtt_match_levels [Normal "a"%string; MultiWildcard] topic = true.
Proof.
  split; [vm_compute; reflexivity|].
  apply (retain_matches_correct sample [Normal "a"%string; MultiWildcard]);
    [apply sample_tidy|reflexivity|reflexivity].
Defined.

(** The clean-up looks at its limit on entry to a node only: with two
    values next to each other a limit of one lets both be removed. *)
Theorem retain_limit_exceeded :
  let n := insert (insert (V := nat) Node_default [Normal "a"%string] 1) [Normal "b"%string] 2 in
  retain (fun v s => (false, v, s)) 1 n tt = (2%Z, Node_default, tt).
Proof. vm_compute. reflexivity. Qed.
End RetainTree.
