(* ===== verification/RetainStorage.v ===== *)
(** * Retained message storage: [retain.rs], [builtins/retainer.rs]

    [DefaultRetainStorage], with the expiry of the messages and the gauge,
    and the built-in retainer [RamRetainer] with its limits, over the tree
    of [Retain]. The storage refines a finite map from topics to timed
    values. Instants and durations are unbounded integers. *)

From stdpp Require Import prelude strings gmap countable list.
From Stdlib Require Import ZArith Lia.
From S2P Require Import Prelude CodecTypes Topic BrokerTypes Retain.

Set Warnings "-register-all,-clear-no-such-hyp".

(** ** Values with a deadline: [TimedValue] of [types.rs] *)

Module TimedValue.
Local Open Scope Z_scope.

Record t (V : Type) : Type := mk { inner : V; deadline : option Z }.
Arguments mk {V} _ _.
Arguments inner {V} _.
Arguments deadline {V} _.

Definition new {V} (now : Z) (v : V) (timeout_duration : option Z) : t V :=
  mk v ((fun d => now + d) <$> timeout_duration).

Definition is_expired {V} (now : Z) (tv : t V) : bool :=
  match deadline tv with Some e => e <=? now | None => false end.

Definition remaining {V} (now : Z) (tv : t V) : option Z :=
  match deadline tv with
  | Some d => if now <? d then Some (d - now) else None
  | None => None
  end.
End TimedValue.

Record Retain : Type := mkRetain {
  r_msg_id : option Z;
  r_from : From;
  r_publish : BPublish;
}.

(** ** The storage *)

Module RetainStorage.
Import RetainTree.
Local Open Scope Z_scope.

Definition USIZE_MAX : Z := 2 ^ 64 - 1.

Record t : Type := mk {
  messages : Node (TimedValue.t Retain);
  retaineds : Counter.t;
}.

Definition new : t := mk Node_default Counter.new.

Definition payload_is_empty (r : Retain) : bool :=
  bool_decide (payload (BPublish.inner (r_publish r)) = []).

(** The closure of [remove_expired_messages]: its state is the gauge. *)
Definition expire (now : Z) (tv : TimedValue.t Retain) (c : Counter.t)
    : bool * TimedValue.t Retain * Counter.t :=
  if TimedValue.is_expired now tv then (false, tv, Counter.dec c) else (true, tv, c).

Definition remove_expired_messages (now : Z) (s : t) : Z * t :=
  let '(removeds, n, c) := retain (expire now) USIZE_MAX (messages s) (retaineds s) in
  (removeds, mk n c).

Definition set_with_timeout (now : Z) (s : t) (topic : string) (r : Retain) (timeout : option Z)
    : outcome TopicError unit * t :=
  match Topic_from_str topic with
  | Ok topic =>
      let '(old, n) := remove (messages s) topic in
      if negb (payload_is_empty r) then
        let n := insert n topic (TimedValue.new now r timeout) in
        (Ok tt, mk n (match old with None => Counter.inc (retaineds s) | Some _ => retaineds s end))
      else
        (Ok tt, mk n (match old with Some _ => Counter.dec (retaineds s) | None => retaineds s end))
  | Err e => (Err e, s)
  | Panic => (Panic, s)
  | Diverged => (Diverged, s)
  end.

Definition unexpired (now : Z) (e : Topic * TimedValue.t Retain) : option (string * Retain) :=
  if TimedValue.is_expired now e.2 then None
  else Some (Topic_to_string e.1, TimedValue.inner e.2).

Definition get_message (now : Z) (s : t) (topic_filter : string)
    : outcome TopicError (list (string * Retain)) :=
  match Topic_from_str topic_filter with
  | Ok topic => Ok (omap (unexpired now) (matches (messages s) topic))
  | Err e => Err e
  | Panic => Panic
  | Diverged => Diverged
  end.

Definition unexpired_remaining (now : Z) (e : Topic * TimedValue.t Retain)
    : option (string * Retain * option Z) :=
  if TimedValue.is_expired now e.2 then None
  else Some (Topic_to_string e.1, TimedValue.inner e.2, TimedValue.remaining now e.2).

(** [offset + limit] on [usize]: with overflow checks ([oc]) it panics. *)
Definition get_all_paginated (oc : bool) (now : Z) (s : t) (offset limit : Z)
    : outcome TopicError (list (string * Retain * option Z) * bool) :=
  match Topic_from_str "#" with
  | Ok topic =>
      let all := omap (unexpired_remaining now) (matches (messages s) topic) in
      if oc && (USIZE_MAX <? offset + limit) then Panic
      else
        let has_more := (offset + limit) mod 2 ^ 64 <? Z.of_nat (length all) in
        Ok (firstn (Z.to_nat limit) (skipn (Z.to_nat offset) all), has_more)
  | Err e => Err e
  | Panic => Panic
  | Diverged => Diverged
  end.

Definition count (s : t) : Z := Counter.current (retaineds s).
Definition max (s : t) : Z := Counter.maximum (retaineds s).

(** ** Refinement of a finite map

    The abstract storage: each topic with its timed message. *)

Abbreviation tmap := (gmap Topic (TimedValue.t Retain)).

Inductive op : Type :=
| Set_ (now : Z) (topic : string) (r : Retain) (timeout : option Z)
| Expire (now : Z).

Definition step (s : t) (o : op) : t :=
  match o with
  | Set_ now topic r timeout => (set_with_timeout now s topic r timeout).2
  | Expire now => (remove_expired_messages now s).2
  end.

Definition abs_set (now : Z) (m : tmap) (topic : Topic) (r : Retain) (timeout : option Z) : tmap :=
  if payload_is_empty r then delete topic m else <[topic := TimedValue.new now r timeout]> m.

Definition live (now : Z) (m : tmap) : tmap :=
  filter (fun '(_, tv) => negb (TimedValue.is_expired now tv) = true) m.

Definition abs_step (m : tmap) (o : op) : tmap :=
  match o with
  | Set_ now topic r timeout =>
      match Topic_from_str topic with Ok topic => abs_set now m topic r timeout | _ => m end
  | Expire now => live now m
  end.

(** Topic names: a message is stored under a topic without wildcards. *)
Definition op_named (o : op) : Prop :=
  match o with Set_ _ topic _ _ => contains_wildcard topic = false | Expire _ => True end.

Definition gauged (n : Node (TimedValue.t Retain)) (c : Counter.t) : Prop :=
  Counter.current c = isize (Z.of_nat (size (to_map n))).

Definition inv (s : t) : Prop :=
  tidy (messages s) /\ value (messages s) = None /\ gauged (messages s) (retaineds s).

Lemma inv_new : inv new.
Proof. split_and!; [apply tidy_default|done|]. reflexivity. Qed.

Lemma gauged_inc n n' c :
  gauged n c -> size (to_map n') = S (size (to_map n)) -> gauged n' (Counter.inc c).
Proof.
  unfold gauged. intros Hc Hs. simpl. rewrite Hc, Counter.isize_add, Hs. f_equal. lia.
Qed.

Lemma gauged_dec n n' c :
  gauged n c -> size (to_map n) = S (size (to_map n')) -> gauged n' (Counter.dec c).
Proof.
  unfold gauged. intros Hc Hs. simpl. unfold Z.sub. rewrite Hc, Counter.isize_add, Hs.
  f_equal. lia.
Qed.

Lemma gauged_same n n' c :
  gauged n c -> size (to_map n') = size (to_map n) -> gauged n' c.
Proof. unfold gauged. by intros -> ->. Qed.

(** The root of the tree never holds a message: parsed topics have a level. *)
Lemma value_insert (n : Node (TimedValue.t Retain)) p v :
  p <> [] -> value (insert_path n p v) = value n.
Proof. by destruct p. Qed.

Lemma value_remove (n : Node (TimedValue.t Retain)) p :
  p <> [] -> value (remove_path n p).2 = value n.
Proof.
  destruct p as [|l p]; [done|]. intros _. cbn [remove_path].
  destruct (branches n !! l); [|done]. by destruct (remove_path _ p).
Qed.

Lemma size_delete_Some (m : tmap) t v : m !! t = Some v -> size m = S (size (delete t m)).
Proof.
  intros Hv. rewrite <- (insert_delete_id m t v) at 1 by done.
  apply map_size_insert_None, lookup_delete_eq.
Qed.

Lemma set_spec now s topic r timeout t :
  inv s -> contains_wildcard topic = false -> Topic_from_str topic = Ok t ->
  exists s', set_with_timeout now s topic r timeout = (Ok tt, s') /\ inv s' /\
    to_map (messages s') = abs_set now (to_map (messages s)) t r timeout.
Proof.
  intros (Ht & Hv & Hg) Hw Hp. unfold set_with_timeout, remove, insert. rewrite Hp.
  pose proof (from_str_nonempty _ _ Hp) as Hne.
  pose proof (remove_result (messages s) t) as Hold. rewrite <- lookup_to_map in Hold.
  pose proof (to_map_remove (messages s) t) as Hrm.
  pose proof (tidy_remove (messages s) t Ht) as Htr.
  pose proof (value_remove (messages s) t Hne) as Hvr. rewrite Hv in Hvr.
  destruct (remove_path (messages s) t) as [old n]. simpl in Hold, Hrm, Htr, Hvr.
  unfold abs_set. destruct (payload_is_empty r); cbn [negb]; eexists; (split; [done|]); split.
  - split_and!; [done..|]. simpl. destruct old as [v|].
    + apply (gauged_dec (messages s)); [done|]. rewrite Hrm. by eapply size_delete_Some.
    + apply (gauged_same (messages s)); [done|]. by rewrite Hrm, delete_id.
  - done.
  - split_and!; simpl.
    + apply tidy_insert; [by eapply from_str_wildcard_free|done].
    + by rewrite value_insert.
    + destruct old as [v|].
      * apply (gauged_same (messages s)); [done|].
        rewrite to_map_insert, Hrm, map_size_insert_None by apply lookup_delete_eq.
        symmetry. by eapply size_delete_Some.
      * apply (gauged_inc (messages s)); [done|].
        rewrite to_map_insert, Hrm, delete_id by done. by apply map_size_insert_None.
  - simpl. by rewrite to_map_insert, Hrm, insert_delete_eq.
Qed.

Lemma gauged_decs n n' c k :
  gauged n c -> size (to_map n) = (size (to_map n') + k)%nat ->
  gauged n' (Nat.iter k Counter.dec c).
Proof.
  intros Hc Hs.
  assert (Hk : Counter.current (Nat.iter k Counter.dec c) =
               isize (Z.of_nat (size (to_map n)) - Z.of_nat k)).
  { clear Hs. induction k as [|k IH]; cbn [Nat.iter]; [by rewrite Z.sub_0_r|].
    simpl. unfold Z.sub at 1. rewrite IH, Counter.isize_add. f_equal. lia. }
  unfold gauged. rewrite Hk, Hs. f_equal. lia.
Qed.

Lemma expire_spec now s :
  inv s -> Z.of_nat (size (to_map (messages s))) < USIZE_MAX ->
  exists s' k, remove_expired_messages now s = (Z.of_nat k, s') /\ inv s' /\
    to_map (messages s') = live now (to_map (messages s)) /\
    size (to_map (messages s)) = (size (to_map (messages s')) + k)%nat.
Proof.
  intros (Ht & Hv & Hg) Hmax. unfold remove_expired_messages.
  destruct (retain_spec (expire now) (fun tv => negb (TimedValue.is_expired now tv))
    Counter.dec USIZE_MAX) with (n := messages s) (s := retaineds s)
    as (n' & k & -> & Hm & Hz & Hv' & Ht').
  { intros v c. unfold expire. by destruct (TimedValue.is_expired now v). }
  { done. }
  { by rewrite <- size_to_map. }
  rewrite <- !size_to_map in Hz. exists (mk n' (Nat.iter k Counter.dec (retaineds s))), k.
  split; [done|]. split; [|done].
  split_and!; [by apply Ht'|done|]. by apply (gauged_decs (messages s)).
Qed.

Lemma size_live now m : (size (live now m) <= size m)%nat.
Proof. apply map_subseteq_size, map_filter_subseteq. Qed.

Lemma size_abs_step m o : (size (abs_step m o) <= S (size m))%nat.
Proof.
  destruct o as [now topic r timeout|now]; simpl.
  - destruct (Topic_from_str topic) as [t| | |]; try lia. unfold abs_set.
    destruct (payload_is_empty r).
    + rewrite map_size_delete. destruct (m !! t); simpl; lia.
    + rewrite map_size_insert. destruct (m !! t); simpl; lia.
  - pose proof (size_live now m). lia.
Qed.

Lemma step_refines s o :
  inv s -> op_named o -> Z.of_nat (size (to_map (messages s))) < USIZE_MAX ->
  inv (step s o) /\ to_map (messages (step s o)) = abs_step (to_map (messages s)) o.
Proof.
  intros Hi Ho Hmax. destruct o as [now topic r timeout|now]; simpl in *.
  - destruct (Topic_from_str topic) as [t|e| |] eqn:Hp.
    + destruct (set_spec now s topic r timeout t) as (s' & -> & ? & ?); done.
    + unfold set_with_timeout. by rewrite Hp.
    + unfold set_with_timeout. by rewrite Hp.
    + unfold set_with_timeout. by rewrite Hp.
  - destruct (expire_spec now s) as (s' & k & -> & ? & ? & _); done.
Qed.

Lemma steps_refine ops s :
  inv s -> Forall op_named ops ->
  Z.of_nat (size (to_map (messages s)) + length ops) < USIZE_MAX ->
  inv (foldl step s ops) /\
  to_map (messages (foldl step s ops)) = foldl abs_step (to_map (messages s)) ops /\
  (size (foldl abs_step (to_map (messages s)) ops) <= size (to_map (messages s)) + length ops)%nat.
Proof.
  intros Hi Hn. revert s Hi. induction Hn as [|o ops Ho Hn IH]; intros s Hi Hmax; simpl in *;
    [split_and!; [done|done|lia]|].
  destruct (step_refines s o) as [Hi' Hm]; [done|done|lia|].
  pose proof (size_abs_step (to_map (messages s)) o) as Hs. rewrite <- Hm in Hs.
  destruct (IH (step s o) Hi') as (? & ? & ?); [lia|]. rewrite Hm in *. split_and!; [done|done|lia].
Qed.

Lemma run_refines ops :
  Forall op_named ops -> Z.of_nat (length ops) < 2 ^ 63 ->
  inv (foldl step new ops) /\
  to_map (messages (foldl step new ops)) = foldl abs_step ∅ ops /\
  (size (foldl abs_step ∅ ops) <= length ops)%nat.
Proof.
  intros Hn Hlen. assert (Hz : size (to_map (messages new)) = 0%nat) by reflexivity.
  destruct (steps_refine ops new inv_new Hn) as (Hi & Hm & Hs);
    [rewrite Hz; unfold USIZE_MAX; lia|].
  rewrite Hz in Hs. by change (to_map (messages new)) with (∅ : tmap) in Hm, Hs.
Qed.

(** C28. The retained message storage refines a finite map: from an empty
    storage, after any sequence of settings, clearings and expiry runs on
    topic names, the tree denotes the map those operations build, and the
    gauge is the number of topics that hold a message. *)
Theorem retain_storage_refines (ops : list op) :
  Forall op_named ops -> Z.of_nat (length ops) < 2 ^ 63 ->
  to_map (messages (foldl step new ops)) = foldl abs_step ∅ ops /\
  count (foldl step new ops) = Z.of_nat (size (foldl abs_step ∅ ops)).
Proof.
  intros Hn Hlen. destruct (run_refines ops Hn Hlen) as ((_ & _ & Hg) & Hm & Hs).
  split; [done|]. unfold count. rewrite Hg, Hm. apply Counter.isize_id. lia.
Qed.

(** ** Retrieval *)

Lemma live_lookup now m topic tv :
  live now m !! topic = Some tv <-> m !! topic = Some tv /\ TimedValue.is_expired now tv = false.
Proof. unfold live. by rewrite map_lookup_filter_Some, negb_true_iff. Qed.

Lemma get_message_spec now s filter fl :
  inv s -> Topic_from_str filter = Ok fl ->
  exists items, get_message now s filter = Ok items /\
    forall name r, (name, r) ∈ items <-> exists topic tv,
      live now (to_map (messages s)) !! topic = Some tv /\ mqtt_match_levels fl topic = true /\
      name = Topic_to_string topic /\ r = TimedValue.inner tv.
Proof.
  intros (Ht & Hv & _) Hp. unfold get_message. rewrite Hp. eexists. split; [done|].
  intros name r. rewrite list_elem_of_omap. split.
  - intros ([topic tv] & Hin & Hu).
    apply matches_spec in Hin as [Hm Hf]; [|done|done|by eapply from_str_hash_last].
    unfold unexpired in Hu. simpl in Hu. destruct (TimedValue.is_expired now tv) eqn:He; [done|].
    injection Hu as <- <-. exists topic, tv. by rewrite live_lookup.
  - intros (topic & tv & [Hm He]%live_lookup & Hf & -> & ->). exists (topic, tv). split.
    + apply matches_spec; [done|done|by eapply from_str_hash_last|done].
    + unfold unexpired. simpl. by rewrite He.
Qed.

(** Retrieval: after any sequence of operations on topic names,
    [get_message] returns for every valid filter exactly the messages that
    are stored, not expired, and whose topic the filter matches by the
    rules of MQTT. *)
Theorem retain_get_correct (ops : list op) (now : Z) (filter : string) (fl : Topic) :
  Forall op_named ops -> Z.of_nat (length ops) < 2 ^ 63 -> Topic_from_str filter = Ok fl ->
  exists items, get_message now (foldl step new ops) filter = Ok items /\
    forall name r, (name, r) ∈ items <-> exists topic tv,
      live now (foldl abs_step ∅ ops) !! topic = Some tv /\
      mqtt_match_levels fl topic = true /\
      name = Topic_to_string topic /\ r = TimedValue.inner tv.
Proof.
  intros Hn Hlen Hp. destruct (run_refines ops Hn Hlen) as (Hi & Hm & _).
  rewrite <- Hm. by apply get_message_spec.
Qed.

(** ** Snapshots *)

(** What a snapshot holds, before it is cut into pages. *)
Definition snapshot (now : Z) (s : t) : list (string * Retain * option Z) :=
  omap (unexpired_remaining now) (matches (messages s) [MultiWildcard]).

Lemma hash_match topic :
  topic <> [] -> mqtt_match_levels [MultiWildcard] topic = negb (from_option Level_is_metadata false (head topic)).
Proof. destruct topic as [|l topic]; [done|]. intros _. simpl. by destruct l. Qed.

Lemma take_chunks {A} p n (l : list A) :
  concat ((fun i => take p (drop (i * p) l)) <$> seq 0 n) = take (n * p) l.
Proof.
  induction n as [|n IH]; [done|].
  rewrite seq_S, fmap_app, concat_app, IH. simpl. rewrite app_nil_r, take_take_drop.
  f_equal. lia.
Qed.

Lemma elem_snapshot now s name r rem :
  inv s ->
  (name, r, rem) ∈ snapshot now s <-> exists topic tv,
    live now (to_map (messages s)) !! topic = Some tv /\
    from_option Level_is_metadata false (head topic) = false /\
    name = Topic_to_string topic /\ r = TimedValue.inner tv /\ rem = TimedValue.remaining now tv.
Proof.
  intros (Ht & Hv & _). unfold snapshot. rewrite list_elem_of_omap.
  assert (Hne : forall topic tv, to_map (messages s) !! topic = Some tv -> topic <> []).
  { intros topic tv Hm ->. rewrite lookup_to_map in Hm. simpl in Hm. congruence. }
  split.
  - intros ([topic tv] & [Hm Hf]%matches_spec & Hu); [|done..].
    rewrite hash_match, negb_true_iff in Hf by (by eapply Hne).
    unfold unexpired_remaining in Hu. simpl in Hu.
    destruct (TimedValue.is_expired now tv) eqn:He; [done|]. injection Hu as <- <- <-.
    exists topic, tv. by rewrite live_lookup.
  - intros (topic & tv & [Hm He]%live_lookup & Hf & -> & -> & ->). exists (topic, tv). split.
    + apply matches_spec; [done..|]. split; [done|].
      rewrite hash_match, Hf by (by eapply Hne). done.
    + unfold unexpired_remaining. simpl. by rewrite He.
Qed.

(** Paging through a snapshot, when no offset overflows: the pages of a
    positive size, put one after the other, are the whole snapshot, and a
    page says that there is more exactly when entries are left after it.
    The snapshot holds exactly the messages that have not expired and whose
    topic does not start with [$]. *)
Theorem retain_pages_correct (oc : bool) (now : Z) (s : t) (p : nat) (n : nat) :
  inv s -> (0 < p)%nat -> Z.of_nat (S n * p) <= USIZE_MAX ->
  (forall i, (i <= n)%nat ->
     get_all_paginated oc now s (Z.of_nat (i * p)) (Z.of_nat p) =
       Ok (take p (drop (i * p) (snapshot now s)),
           bool_decide (S i * p < length (snapshot now s))%nat)) /\
  ((length (snapshot now s) <= n * p)%nat ->
     concat ((fun i => take p (drop (i * p) (snapshot now s))) <$> seq 0 n) = snapshot now s) /\
  forall name r rem, (name, r, rem) ∈ snapshot now s <-> exists topic tv,
    live now (to_map (messages s)) !! topic = Some tv /\
    from_option Level_is_metadata false (head topic) = false /\
    name = Topic_to_string topic /\ r = TimedValue.inner tv /\ rem = TimedValue.remaining now tv.
Proof.
  intros Hi Hp Hmax. split_and!.
  - intros i Hle. unfold get_all_paginated. change (Topic_from_str "#") with
      (Ok [MultiWildcard] : outcome TopicError Topic).
    assert (Hsum : Z.of_nat (i * p) + Z.of_nat p = Z.of_nat (S i * p)) by lia.
    assert (Hb : Z.of_nat (S i * p) <= USIZE_MAX) by nia.
    cbv beta iota zeta. rewrite Hsum, (proj2 (Z.ltb_ge _ _) Hb), andb_false_r, !Nat2Z.id.
    rewrite Z.mod_small by (unfold USIZE_MAX in Hb; lia).
    do 2 f_equal. apply eq_true_iff_eq. by rewrite bool_decide_eq_true, Z.ltb_lt, <- Nat2Z.inj_lt.
  - intros Hlen. rewrite take_chunks. by apply take_ge.
  - intros name r rem. by apply elem_snapshot.
Qed.
End RetainStorage.

(** ** The built-in retainer *)

Module RamRetainer.
Import RetainStorage.
Local Open Scope Z_scope.

Record PluginConfig : Type := mkConfig {
  max_retained_messages : Z;
  max_payload_size : Z;
  retained_message_ttl : option Z;
}.

Definition default_config : PluginConfig := mkConfig 10000 (1024 * 1024) None.

Definition get (now : Z) (s : RetainStorage.t) (topic_filter : string) :=
  get_message now s topic_filter.

(** [ttl.map(|ttl| if zero { None } else { Some(ttl) }).unwrap_or(expiry)]. *)
Definition expiry_interval (cfg : PluginConfig) (expiry : option Z) : option Z :=
  match retained_message_ttl cfg with
  | Some ttl => if ttl =? 0 then None else Some ttl
  | None => expiry
  end.

Definition set (cfg : PluginConfig) (now : Z) (s : RetainStorage.t) (topic : string) (r : Retain)
    (expiry : option Z) : outcome TopicError unit * RetainStorage.t :=
  if max_payload_size cfg <? Z.of_nat (length (payload (BPublish.inner (r_publish r)))) then (Ok tt, s)
  else if (0 <? max_retained_messages cfg) && (max_retained_messages cfg <=? count s) then
    match get now s topic with
    | Ok found =>
        if negb (bool_decide (length found = 0%nat)) then
          set_with_timeout now s topic r (expiry_interval cfg expiry)
        else (Ok tt, s)
    | Err e => (Err e, s)
    | Panic => (Panic, s)
    | Diverged => (Diverged, s)
    end
  else set_with_timeout now s topic r (expiry_interval cfg expiry).

(** ** The limits hold *)

Import RetainTree.

Definition payload_len (r : Retain) : Z :=
  Z.of_nat (length (payload (BPublish.inner (r_publish r)))).

(** Whether [set] lets a message in: within the payload limit, and with
    room left or the topic holding a message that has not expired. *)
Definition admitted (cfg : PluginConfig) (now : Z) (m : tmap) (topic : Topic) (r : Retain) : bool :=
  (payload_len r <=? max_payload_size cfg) &&
  ((max_retained_messages cfg <=? 0) || (Z.of_nat (size m) <? max_retained_messages cfg)
   || bool_decide (is_Some (live now m !! topic))).

Definition abs_set_limited (cfg : PluginConfig) (now : Z) (m : tmap) (topic : Topic) (r : Retain)
    (expiry : option Z) : tmap :=
  if admitted cfg now m topic r then abs_set now m topic r (expiry_interval cfg expiry) else m.

Lemma literal_match f topic :
  wildcard_free f -> mqtt_match_levels f topic = true <-> f = topic.
Proof.
  unfold mqtt_match_levels, mqtt_match. intros Hf.
  assert (Hl : levels_match level_eq_level f topic = true <-> f = topic).
  { revert topic. induction Hf as [|l f Hl Hf IH]; intros [|k topic]; try (by destruct l || done).
    transitivity (l = k /\ f = topic); [|split; [by intros [-> ->]|by intros [= -> ->]]].
    rewrite <- IH, <- (bool_decide_eq_true (l = k)), <- andb_true_iff. by destruct l. }
  rewrite andb_true_iff, Hl. split; [by intros [_ ->]|]. intros ->. split; [|done].
  destruct Hf as [|l f Hwl Hf]; [done|]. simpl. by rewrite Hwl.
Qed.

Lemma get_existing now s topic t :
  inv s -> contains_wildcard topic = false -> Topic_from_str topic = Ok t ->
  exists items, get now s topic = Ok items /\
    (length items <> 0%nat <-> is_Some (live now (to_map (messages s)) !! t)).
Proof.
  intros Hi Hw Hp. destruct (get_message_spec now s topic t Hi Hp) as (items & Hg & Hin).
  exists items. split; [done|].
  assert (Hlit : forall q, mqtt_match_levels t q = true <-> t = q).
  { intros q. by eapply literal_match, from_str_wildcard_free. }
  split.
  - intros Hne. destruct items as [|[name r] items]; [done|].
    destruct (proj1 (Hin name r)) as (q & tv & Hl & <-%Hlit & _);
      [apply list_elem_of_here|]. by eexists.
  - intros [tv Htv] Hnil%nil_length_inv. subst items.
    assert (Hno : (Topic_to_string t, TimedValue.inner tv) ∈ []).
    { apply Hin. exists t, tv. split_and!; [done|by apply Hlit|done..]. }
    by apply not_elem_of_nil in Hno.
Qed.

Lemma set_limited_spec cfg now s topic t r expiry :
  inv s -> Z.of_nat (size (to_map (messages s))) < 2 ^ 63 ->
  contains_wildcard topic = false -> Topic_from_str topic = Ok t ->
  exists s', set cfg now s topic r expiry = (Ok tt, s') /\ inv s' /\
    to_map (messages s') = abs_set_limited cfg now (to_map (messages s)) t r expiry.
Proof.
  intros Hi Hsz Hw Hp. unfold set, abs_set_limited, admitted. fold (payload_len r).
  assert (Hc : count s = Z.of_nat (size (to_map (messages s)))).
  { destruct Hi as (_ & _ & Hg). unfold count. rewrite Hg. apply Counter.isize_id. lia. }
  rewrite Hc. destruct (set_spec now s topic r (expiry_interval cfg expiry) t Hi Hw Hp)
    as (s' & Hs & Hi' & Hm).
  destruct (Z.ltb_spec (max_payload_size cfg) (payload_len r)) as [Hl|Hl];
    [rewrite (proj2 (Z.leb_gt _ _) Hl); by eauto|rewrite (proj2 (Z.leb_le _ _) Hl); cbn [andb]].
  destruct (Z.ltb_spec 0 (max_retained_messages cfg)) as [Hpos|Hpos];
    [rewrite (proj2 (Z.leb_gt _ _) Hpos)|rewrite (proj2 (Z.leb_le _ _) Hpos); by eauto].
  destruct (Z.leb_spec (max_retained_messages cfg) (Z.of_nat (size (to_map (messages s)))))
    as [Hcap|Hcap]; [rewrite (proj2 (Z.ltb_ge _ _) Hcap)|rewrite (proj2 (Z.ltb_lt _ _) Hcap); by eauto].
  cbn [andb orb].
  destruct (get_existing now s topic t Hi Hw Hp) as (items & -> & Hex).
  destruct (decide (length items = 0%nat)) as [Hz|Hnz].
  - rewrite bool_decide_true, bool_decide_false by tauto. by eauto.
  - rewrite bool_decide_false, bool_decide_true by tauto. by eauto.
Qed.

(** The built-in retainer: on a storage within range and a topic name,
    [set] returns and does what the limits say: a message whose payload is
    over the limit is ignored; at the limit on the number of messages only
    a topic that holds a live message is updated; otherwise the message
    replaces the topic's, or clears it when its payload is empty, with the
    configured time to live taking precedence over the message's. *)
Theorem retainer_set_correct (cfg : PluginConfig) (now : Z) (s : RetainStorage.t)
    (topic : string) (t : Topic) (r : Retain) (expiry : option Z) :
  inv s -> Z.of_nat (size (to_map (messages s))) < 2 ^ 63 ->
  contains_wildcard topic = false -> Topic_from_str topic = Ok t ->
  exists s', set cfg now s topic r expiry = (Ok tt, s') /\ inv s' /\
    to_map (messages s') = abs_set_limited cfg now (to_map (messages s)) t r expiry.
Proof. apply set_limited_spec. Qed.

Inductive rop : Type :=
| RSet (now : Z) (topic : string) (r : Retain) (expiry : option Z)
| RExpire (now : Z).

Definition rstep (cfg : PluginConfig) (s : RetainStorage.t) (o : rop) : RetainStorage.t :=
  match o with
  | RSet now topic r expiry => (set cfg now s topic r expiry).2
  | RExpire now => (remove_expired_messages now s).2
  end.

Definition rop_named (o : rop) : Prop :=
  match o with RSet _ topic _ _ => contains_wildcard topic = false | RExpire _ => True end.

(** What the limits promise of the stored messages. *)
Definition within (cfg : PluginConfig) (m : tmap) : Prop :=
  (0 < max_retained_messages cfg -> Z.of_nat (size m) <= max_retained_messages cfg) /\
  forall topic tv, m !! topic = Some tv -> payload_len (TimedValue.inner tv) <= max_payload_size cfg.

Lemma within_sub cfg m m' : m' ⊆ m -> within cfg m -> within cfg m'.
Proof.
  intros Hsub [Hs Hp]. split.
  - intros Hpos. specialize (Hs Hpos). pose proof (map_subseteq_size _ _ Hsub). lia.
  - intros topic tv Hm. eapply Hp, lookup_weaken; done.
Qed.

Lemma within_set cfg now m t r expiry :
  within cfg m -> within cfg (abs_set_limited cfg now m t r expiry).
Proof.
  intros Hw. unfold abs_set_limited. destruct (admitted cfg now m t r) eqn:Ha; [|done].
  unfold abs_set. destruct (payload_is_empty r).
  { eapply within_sub; [apply delete_subseteq|done]. }
  destruct Hw as [Hs Hp]. apply andb_true_iff in Ha as [Hl%Z.leb_le Ha]. split.
  - intros Hpos. specialize (Hs Hpos). rewrite map_size_insert.
    destruct (m !! t) eqn:Hm; cbn [Datatypes.id]; [done|].
    assert (Hnl : live now m !! t = None).
    { apply eq_None_not_Some. intros [tv [? _]%live_lookup]. congruence. }
    rewrite Hnl, bool_decide_false, orb_false_r, orb_true_iff in Ha by (by intros [? [=]]).
    destruct Ha as [?%Z.leb_le|?%Z.ltb_lt]; lia.
  - intros topic tv [[<- <-]|[_ Hm]]%lookup_insert_Some; [done|by eapply Hp].
Qed.

Lemma rstep_spec cfg s o :
  inv s -> within cfg (to_map (messages s)) -> rop_named o ->
  Z.of_nat (size (to_map (messages s))) < 2 ^ 63 ->
  inv (rstep cfg s o) /\ within cfg (to_map (messages (rstep cfg s o))) /\
  (size (to_map (messages (rstep cfg s o))) <= S (size (to_map (messages s))))%nat.
Proof.
  intros Hi Hw Ho Hsz. destruct o as [now topic r expiry|now]; simpl in *.
  - destruct (Topic_from_str topic) as [t|e| |] eqn:Hp.
    2-4: assert (Hsame : (set cfg now s topic r expiry).2 = s) by
           (unfold set, set_with_timeout, get, get_message; rewrite Hp; by repeat case_match);
         rewrite Hsame; split_and!; [done|done|lia].
    destruct (set_limited_spec cfg now s topic t r expiry) as (s' & -> & Hi' & Hm); [done..|].
    split_and!; [done| |]; simpl; rewrite Hm; [by apply within_set|].
    unfold abs_set_limited. destruct (admitted _ _ _ _ _); [|lia].
    pose proof (size_abs_step (to_map (messages s)) (Set_ now topic r (expiry_interval cfg expiry)))
      as Hs. simpl in Hs. by rewrite Hp in Hs.
  - destruct (expire_spec now s) as (s' & k & -> & Hi' & Hm & Hs); [done|unfold USIZE_MAX; lia|].
    split_and!; [done| |simpl; lia]. simpl. rewrite Hm.
    eapply within_sub; [apply map_filter_subseteq|done].
Qed.

Lemma rsteps_spec cfg ops s :
  inv s -> within cfg (to_map (messages s)) -> Forall rop_named ops ->
  Z.of_nat (size (to_map (messages s)) + length ops) < 2 ^ 63 ->
  inv (foldl (rstep cfg) s ops) /\ within cfg (to_map (messages (foldl (rstep cfg) s ops))) /\
  Z.of_nat (size (to_map (messages (foldl (rstep cfg) s ops)))) < 2 ^ 63.
Proof.
  intros Hi Hw Hn. revert s Hi Hw.
  induction Hn as [|o ops Ho Hn IH]; intros s Hi Hw Hsz; simpl in *;
    [split_and!; [done|done|lia]|].
  destruct (rstep_spec cfg s o) as (Hi' & Hw' & Hs); [done|done|done|lia|].
  apply IH; [done|done|lia].
Qed.

(** The limits of the built-in retainer hold at all times: from an empty
    storage, after any sequence of settings and expiry runs on topic names,
    the number of retained messages (as the gauge counts it) is within the
    configured maximum, unless that is switched off, and no message has a
    payload over the limit. *)
Theorem retainer_limits (cfg : PluginConfig) (ops : list rop) :
  Forall rop_named ops -> Z.of_nat (length ops) < 2 ^ 63 ->
  let s := foldl (rstep cfg) new ops in
  (0 < max_retained_messages cfg -> count s <= max_retained_messages cfg) /\
  (forall topic tv, to_map (messages s) !! topic = Some tv ->
     payload_len (TimedValue.inner tv) <= max_payload_size cfg).
Proof.
  intros Hn Hlen s.
  destruct (rsteps_spec cfg ops new) as ((_ & _ & Hg) & [Hs Hp] & Hsz);
    [apply inv_new| |done|by change (size (to_map (messages new))) with 0%nat|].
  { split; [intros ?; by change (Z.of_nat (size (to_map (messages new)))) with 0; lia|].
    intros topic tv. change (to_map (messages new)) with (∅ : tmap). by rewrite lookup_empty. }
  split; [|exact Hp]. intros Hpos. fold s in Hg, Hs, Hsz. unfold count. rewrite Hg, Counter.isize_id; [by apply Hs|].
  lia.
Qed.

(** ** Witnesses *)

Definition sample_retain (payload : bytes) : Retain :=
  mkRetain None (mkFrom Custom (Id_from 0 1 [99]))
    (BPublish.from (mkPublish false true AtMostOnce [97] None payload None)).

Definition sample_ops : list op :=
  [Set_ 0 "a/b" (sample_retain [1]) None; Set_ 0 "a" (sample_retain [2]) (Some 50);
   Set_ 1 "$SYS/x" (sample_retain [3]) None; Set_ 2 "a/b" (sample_retain [4]) None;
   Set_ 3 "c" (sample_retain [5]) None; Set_ 4 "c" (sample_retain []) None].

Lemma sample_ops_named : Forall op_named sample_ops.
Proof. repeat constructor. Qed.

Lemma retain_storage_refines_witness :
  count (foldl step new sample_ops) = 3 /\
  to_map (messages (foldl step new sample_ops)) = foldl abs_step ∅ sample_ops /\
  count (foldl step new sample_ops) = Z.of_nat (size (foldl abs_step ∅ sample_ops)).
Proof.
  split; [vm_compute; reflexivity|].
  apply (retain_storage_refines sample_ops); [apply sample_ops_named|vm_compute; reflexivity].
Defined.

Lemma retain_get_correct_witness :
  get_message 60 (foldl step new sample_ops) "a/#" = Ok [("a/b"%string, sample_retain [4])] /\
  exists items, get_message 60 (foldl step new sample_ops) "a/#" = Ok items /\
    forall name r, (name, r) ∈ items <-> exists topic tv,
      live 60 (foldl abs_step ∅ sample_ops) !! topic = Some tv /\
      mqtt_match_levels [Normal "a"%string; MultiWildcard] topic = true /\
      name = Topic_to_string topic /\ r = TimedValue.inner tv.
Proof.
  split; [vm_compute; reflexivity|].
  apply (retain_get_correct sample_ops 60 "a/#" [Normal "a"%string; MultiWildcard]);
    [apply sample_ops_named|vm_compute; reflexivity|reflexivity].
Defined.

Definition sample_store : RetainStorage.t := foldl step new sample_ops.

Lemma sample_store_inv : inv sample_store.
Proof. apply run_refines; [apply sample_ops_named|vm_compute; reflexivity]. Qed.

Lemma retain_pages_correct_witness :
  get_all_paginated true 10 sample_store 0 1 =
    Ok (take 1 (drop (0 * 1) (snapshot 10 sample_store)),
        bool_decide (1 * 1 < length (snapshot 10 sample_store))%nat) /\
  concat ((fun i => take 1 (drop (i * 1) (snapshot 10 sample_store))) <$> seq 0 2)
    = snapshot 10 sample_store.
Proof.
  destruct (retain_pages_correct true 10 sample_store 1 2) as (Hpage & Hall & _);
    [apply sample_store_inv|lia|vm_compute; congruence|].
  split; [apply (Hpage 0%nat); lia|apply Hall; vm_compute; lia].
Defined.

Definition small_config : PluginConfig := mkConfig 3 10 (Some 0).

Lemma retainer_set_correct_witness :
  set small_config 10 sample_store "new" (sample_retain [1]) None = (Ok tt, sample_store) /\
  exists s', set small_config 10 sample_store "a" (sample_retain [7]) (Some 5) = (Ok tt, s') /\
    inv s' /\
    to_map (messages s') = abs_set_limited small_config 10 (to_map (messages sample_store))
      [Normal "a"%string] (sample_retain [7]) (Some 5).
Proof.
  split; [vm_compute; reflexivity|].
  apply (retainer_set_correct small_config 10 sample_store "a" [Normal "a"%string]);
    [apply sample_store_inv|vm_compute; reflexivity|reflexivity|reflexivity].
Defined.

Definition sample_rops : list rop :=
  [RSet 0 "a" (sample_retain [1]) None; RSet 0 "b" (sample_retain [2]) None;
   RSet 0 "c" (sample_retain [3]) (Some 5); RSet 0 "d" (sample_retain [4]) None; RExpire 9].

Definition limit3 : PluginConfig := mkConfig 3 10 None.

Lemma retainer_limits_witness :
  count (foldl (rstep limit3) new (take 4 sample_rops)) = 3 /\
  count (foldl (rstep limit3) new sample_rops) <= max_retained_messages limit3.
Proof.
  split; [vm_compute; reflexivity|].
  destruct (retainer_limits limit3 sample_rops) as [Hcap _];
    [repeat constructor|vm_compute; reflexivity|]. exact (Hcap eq_refl).
Defined.
End RamRetainer.
