(* ===== verification/Connection.v ===== *)
(** * Connections: [types.rs], [net/error.rs], [codec/error.rs], [fitter.rs]

    What a session knows of its connection: the CONNECT packet, why it was
    disconnected, the results of publishing, the settings of the listener,
    and the [Fitter] that settles the parameters of the connection between
    the client's wishes and the listener's settings. *)

From stdpp Require Import prelude list strings.
From Stdlib Require Import ZArith Lia SpecFloat.
From S2P Require Import Prelude CodecTypes CodecUtils CodecV3 CodecV5Types BrokerTypes.

Local Open Scope Z_scope.

(** ** Text

    A [ByteString] is its bytes; the broker also uses topics and filters as
    strings. *)

Definition str (b : bytes) : string :=
  String.string_of_list_ascii (Ascii.ascii_of_N ∘ Z.to_N <$> b).
Definition text (s : string) : bytes :=
  Z.of_N ∘ Ascii.N_of_ascii <$> String.list_ascii_of_string s.

Lemma str_text s : str (text s) = s.
Proof.
  unfold str, text. rewrite <- list_fmap_compose.
  rewrite <- (String.string_of_list_ascii_of_string s) at 2. f_equal.
  induction (String.list_ascii_of_string s) as [|c l IH]; [done|]. cbn [fmap list_fmap compose].
  rewrite IH, N2Z.id, Ascii.ascii_N_embedding. done.
Qed.

(** The decimal digits of an unsigned integer of up to 64 bits. *)
Fixpoint digits_of (fuel : nat) (n : Z) : bytes :=
  match fuel with
  | O => []
  | S fuel => (if n <? 10 then [] else digits_of fuel (n / 10)) ++ [48 + n mod 10]
  end.
Definition format_int (n : Z) : bytes := digits_of 20 n.

(** A [Duration] is a number of nanoseconds. *)
Definition from_secs (s : Z) : Z := s * 1000000000.

(** ** The CONNECT packet *)

Inductive ConnectInfo : Type :=
| ConnectV3 (id : Id) (c : V3.Connect)
| ConnectV5 (id : Id) (c : V5.Connect).

Inductive LastWill : Type :=
| LastWillV3 (lw : V3.LastWill)
| LastWillV5 (lw : V5.LastWill).

Definition ci_id (c : ConnectInfo) : Id :=
  match c with ConnectV3 id _ => id | ConnectV5 id _ => id end.
Definition ci_client_id (c : ConnectInfo) : bytes := client_id (ci_id c).
Definition ci_last_will (c : ConnectInfo) : option LastWill :=
  match c with
  | ConnectV3 _ c => LastWillV3 <$> V3.last_will c
  | ConnectV5 _ c => LastWillV5 <$> V5.c_last_will c
  end.
Definition ci_keep_alive (c : ConnectInfo) : Z :=
  match c with ConnectV3 _ c => V3.keep_alive c | ConnectV5 _ c => V5.c_keep_alive c end.
Definition ci_username (c : ConnectInfo) : option bytes :=
  match c with ConnectV3 _ c => V3.username c | ConnectV5 _ c => V5.c_username c end.
Definition ci_password (c : ConnectInfo) : option bytes :=
  match c with ConnectV3 _ c => V3.password c | ConnectV5 _ c => V5.c_password c end.
Definition ci_ipaddress (c : ConnectInfo) : option SocketAddr := remote_addr (ci_id c).
Definition ci_clean_start (c : ConnectInfo) : bool :=
  match c with ConnectV3 _ c => V3.clean_session c | ConnectV5 _ c => V5.c_clean_start c end.
Definition ci_proto_ver (c : ConnectInfo) : Z :=
  match c with ConnectV3 _ c => V3.protocol c | ConnectV5 _ _ => MQTT_LEVEL_5 end.
Definition ci_max_packet_size (c : ConnectInfo) : option Z :=
  match c with ConnectV3 _ _ => None | ConnectV5 _ c => V5.c_max_packet_size c end.
Definition ci_auth_method (c : ConnectInfo) : option bytes :=
  match c with ConnectV3 _ _ => None | ConnectV5 _ c => V5.c_auth_method c end.
Definition ci_cert (c : ConnectInfo) : option CertInfo :=
  match c with ConnectV3 _ c => V3.cert c | ConnectV5 _ c => V5.c_cert c end.

Definition lw_will_delay_interval (lw : LastWill) : option Z :=
  match lw with
  | LastWillV3 _ => None
  | LastWillV5 lw => from_secs <$> V5.lw_will_delay_interval_sec lw
  end.

(** [TryFrom<LastWill> for Publish]. The text after a [?] in the topic of a
    v3 will is parsed by the [url] crate ([parse_query]); the topic keeps it. *)
Section last_will.
Context (parse_query : bytes -> list (bytes * bytes)).

(** The position of the [?], from [i] on. *)
Fixpoint find_question (i : nat) (topic : bytes) : option nat :=
  match topic with
  | [] => None
  | c :: rest => if c =? 63 then Some i else find_question (S i) rest
  end.

Definition will_publish (now : Z) (lw : LastWill) : BPublish :=
  let '(retain, qos, topic, payload, props) :=
    match lw with
    | LastWillV3 lw =>
        let user_properties :=
          match find_question 0 (V3.lw_topic lw) with
          | Some pos => parse_query (drop (S pos) (V3.lw_topic lw))
          | None => []
          end in
        (V3.lw_retain lw, V3.lw_qos lw, V3.lw_topic lw, V3.lw_message lw,
         mkPublishProperties None None None None user_properties false None [])
    | LastWillV5 lw =>
        (V5.lw_retain lw, V5.lw_qos lw, V5.lw_topic lw, V5.lw_message lw,
         mkPublishProperties None (V5.lw_correlation_data lw) (V5.lw_message_expiry_interval lw)
           (V5.lw_content_type lw) (V5.lw_user_properties lw)
           (default false (V5.lw_is_utf8_payload lw)) (V5.lw_response_topic lw) [])
    end in
  BPublish.mk (mkPublish false retain qos topic None payload (Some props)) None None (Some now).
End last_will.

(** ** Disconnection *)

Inductive Disconnect : Type :=
| DisconnectV3
| DisconnectV5 (d : V5.Disconnect)
| DisconnectOther (r : bytes).

Definition Disconnect_reason_code (d : Disconnect) : option DisconnectReasonCode :=
  match d with DisconnectV5 d => Some (V5.d_reason_code d) | _ => None end.
Definition Disconnect_reason (d : Disconnect) : option bytes :=
  match d with
  | DisconnectV3 => None | DisconnectV5 d => V5.d_reason_string d | DisconnectOther r => Some r
  end.

(** ** Results of publishing *)

Module PublishResult.
Record t : Type := mk {
  code : PublishAckReason;
  properties : V5.UserProperties;
  reason_string : option bytes;
  disconnect : bool;
}.

Definition default : t := mk PublishAckReasonM.Success [] None false.
Definition success : t := mk PublishAckReasonM.Success [] None false.
Definition reason_code (c : PublishAckReason) (s : option bytes) (d : bool) : t := mk c [] s d.
Definition is_success (r : t) : bool := bool_decide (code r = PublishAckReasonM.Success).
End PublishResult.

(** [PublishAclResult] is a wrapper around a [PublishResult]. *)
Definition acl_allow : PublishResult.t :=
  PublishResult.reason_code PublishAckReasonM.Success None false.
Definition acl_rejected (disconnect : bool) (reason_string : option bytes) : PublishResult.t :=
  PublishResult.reason_code PublishAckReasonM.NotAuthorized
    (Some (default (text "PublishRefused") reason_string)) disconnect.
Definition acl_is_allow (r : PublishResult.t) : bool :=
  bool_decide (PublishResult.code r = PublishAckReasonM.Success).

Inductive MessageExpiryCheckResult : Type :=
| Expiry
| Remaining (i : option Z).

Definition is_expiry (r : MessageExpiryCheckResult) : bool :=
  match r with Expiry => true | Remaining _ => false end.
Definition remaining_interval (r : MessageExpiryCheckResult) : option Z :=
  match r with Expiry => None | Remaining i => i end.

(** ** Errors *)

Inductive ProtocolError : Type :=
| ProtocolDecode (e : DecodeError)
| ProtocolEncode (e : EncodeError)
| KeepAliveTimeout.

Inductive HandshakeError : Type :=
| HandshakeProtocol (e : ProtocolError)
| HandshakeTimeout.

Inductive SendPacketError : Type := SendEncode (e : EncodeError).

Inductive MqttError : Type :=
| EHandshake (e : HandshakeError)
| EProtocol (e : ProtocolError)
| EDecode (e : DecodeError)
| EEncode (e : EncodeError)
| ESendPacket (e : SendPacketError)
| EReadTimeout
| EWriteTimeout
| EFlushTimeout
| ECloseTimeout
| EPublishAckReason (r : PublishAckReason) (s : bytes)
| EServiceUnavailable
| EInvalidProtocol
| ETooManySubscriptions
| ETooManyTopicLevels
| ESubscribeLimited (s : bytes)
| EIdentifierRejected
| EPacketIdInUse (id : Z)
| ENone.

Definition ProtocolError_to_reason_code (e : ProtocolError) : DisconnectReasonCode :=
  match e with
  | ProtocolDecode e => DecodeError_to_reason_code e
  | ProtocolEncode e => EncodeError_to_reason_code e
  | KeepAliveTimeout => DisconnectReasonCodeM.KeepAliveTimeout
  end.

Definition HandshakeError_to_reason_code (e : HandshakeError) : DisconnectReasonCode :=
  match e with
  | HandshakeProtocol e => ProtocolError_to_reason_code e
  | HandshakeTimeout => DisconnectReasonCodeM.MaximumConnectTime
  end.

Definition SendPacketError_to_reason_code (e : SendPacketError) : DisconnectReasonCode :=
  match e with SendEncode e => EncodeError_to_reason_code e end.

Definition MqttError_to_reason_code (e : MqttError) : DisconnectReasonCode :=
  match e with
  | EHandshake e => HandshakeError_to_reason_code e
  | EProtocol e => ProtocolError_to_reason_code e
  | EDecode e => DecodeError_to_reason_code e
  | EEncode e => EncodeError_to_reason_code e
  | ESendPacket e => SendPacketError_to_reason_code e
  | EReadTimeout | EWriteTimeout | EFlushTimeout | ECloseTimeout =>
      DisconnectReasonCodeM.KeepAliveTimeout
  | EPublishAckReason _ _ => DisconnectReasonCodeM.ImplementationSpecificError
  | EServiceUnavailable => DisconnectReasonCodeM.ServerBusy
  | EInvalidProtocol => DisconnectReasonCodeM.ProtocolError
  | ETooManySubscriptions => DisconnectReasonCodeM.QuotaExceeded
  | ETooManyTopicLevels => DisconnectReasonCodeM.TopicNameInvalid
  | ESubscribeLimited _ => DisconnectReasonCodeM.QuotaExceeded
  | EIdentifierRejected => DisconnectReasonCodeM.NotAuthorized
  | EPacketIdInUse _ => DisconnectReasonCodeM.UnspecifiedError
  | ENone => DisconnectReasonCodeM.UnspecifiedError
  end.

(** [anyhow::Error]: an [MqttError], or another error with its text. *)
Inductive Error : Type :=
| Mqtt (e : MqttError)
| Other (s : bytes).

Inductive Reason : Type :=
| ConnectDisconnect (d : option Disconnect)
| ConnectReadWriteTimeout
| ConnectReadWriteError
| ConnectRemoteClose
| ConnectKeepaliveTimeout
| ConnectKicked (is_admin : bool)
| HandshakeRateExceeded
| SessionExpiration
| SubscribeFailed (s : option bytes)
| UnsubscribeFailed (s : option bytes)
| RPublishResult (r : PublishResult.t)
| SubscribeRefused
| DelayedPublishRefused
| MessageExpiration
| MessageQueueFull
| InflightWindowFull
| RProtocolError (s : bytes)
| RError (s : bytes)
| RMqttError (e : MqttError)
| Reasons (rs : list Reason)
| Unknown.

(** [From<Error> for Reason], which [?] applies. *)
Definition Reason_from_error (e : Error) : Reason :=
  match e with Mqtt e => RMqttError e | Other s => RError s end.

Definition Reason_is_kicked (r : Reason) (admin_opt : bool) : bool :=
  match r with ConnectKicked a => bool_decide (a = admin_opt) | _ => false end.
Definition Reason_is_kicked_by_admin (r : Reason) : bool :=
  match r with ConnectKicked true => true | _ => false end.

(** [From<Reason> for PublishResult]. *)
Definition PublishResult_from_reason (r : Reason) : PublishResult.t :=
  match r with
  | RPublishResult r => r
  | MessageQueueFull =>
      PublishResult.mk PublishAckReasonM.QuotaExceeded [] (Some (text "Message queue full")) false
  | InflightWindowFull =>
      PublishResult.mk PublishAckReasonM.QuotaExceeded [] (Some (text "Inflight window full")) false
  | SubscribeRefused | DelayedPublishRefused =>
      PublishResult.mk PublishAckReasonM.ImplementationSpecificError [] (Some (text "Publish refused")) false
  | MessageExpiration =>
      PublishResult.mk PublishAckReasonM.UnspecifiedError [] (Some (text "Message expired")) true
  | RProtocolError m =>
      PublishResult.mk PublishAckReasonM.UnspecifiedError [] (Some (text "Protocol error: " ++ m)) true
  | RError m => PublishResult.mk PublishAckReasonM.ImplementationSpecificError [] (Some m) true
  | RMqttError _ =>
      PublishResult.mk PublishAckReasonM.UnspecifiedError [] (Some (text "MQTT internal error")) true
  | ConnectDisconnect _ | ConnectReadWriteTimeout | ConnectReadWriteError | ConnectRemoteClose
  | ConnectKeepaliveTimeout | ConnectKicked _ | HandshakeRateExceeded | SessionExpiration
  | SubscribeFailed _ | UnsubscribeFailed _ | Reasons _ | Unknown =>
      PublishResult.mk PublishAckReasonM.UnspecifiedError []
        (Some (text "Connection or session related error")) true
  end.

(** [ToReasonCode for Reason]. *)
Fixpoint Reason_to_reason_code (r : Reason) : DisconnectReasonCode :=
  match r with
  | ConnectDisconnect (Some (DisconnectV5 d)) => V5.d_reason_code d
  | ConnectDisconnect _ => DisconnectReasonCodeM.NormalDisconnection
  | ConnectReadWriteTimeout => DisconnectReasonCodeM.KeepAliveTimeout
  | ConnectReadWriteError => DisconnectReasonCodeM.UnspecifiedError
  | ConnectRemoteClose => DisconnectReasonCodeM.ServerShuttingDown
  | ConnectKeepaliveTimeout => DisconnectReasonCodeM.KeepAliveTimeout
  | ConnectKicked is_admin =>
      if is_admin then DisconnectReasonCodeM.AdministrativeAction else DisconnectReasonCodeM.NotAuthorized
  | HandshakeRateExceeded => DisconnectReasonCodeM.ConnectionRateExceeded
  | SessionExpiration => DisconnectReasonCodeM.SessionTakenOver
  | SubscribeFailed _ => DisconnectReasonCodeM.UnspecifiedError
  | UnsubscribeFailed _ => DisconnectReasonCodeM.UnspecifiedError
  | SubscribeRefused => DisconnectReasonCodeM.NotAuthorized
  | RPublishResult r => PublishAckReason_to_reason_code (PublishResult.code r)
  | DelayedPublishRefused => DisconnectReasonCodeM.NotAuthorized
  | MessageExpiration => DisconnectReasonCodeM.MessageRateTooHigh
  | MessageQueueFull => DisconnectReasonCodeM.QuotaExceeded
  | InflightWindowFull => DisconnectReasonCodeM.ReceiveMaximumExceeded
  | RProtocolError _ => DisconnectReasonCodeM.ProtocolError
  | RError _ => DisconnectReasonCodeM.UnspecifiedError
  | RMqttError e => MqttError_to_reason_code e
  | Reasons rs =>
      match rs with
      | [] => DisconnectReasonCodeM.UnspecifiedError
      | first :: _ => Reason_to_reason_code first
      end
  | Unknown => DisconnectReasonCodeM.UnspecifiedError
  end.

Module DisconnectInfo.
Record t : Type := mk {
  disconnected_at : Z;
  reasons : list Reason;
  mqtt_disconnect : option Disconnect;
}.

Definition default : t := mk 0 [] None.
Definition new (at_ : Z) : t := mk at_ [] None.
Definition is_disconnected (d : t) : bool := negb (disconnected_at d =? 0).
End DisconnectInfo.
