(* ===== verification/Fitter.v ===== *)
(** * Settling the parameters of a connection: [fitter.rs]

    [DefaultFitter] settles keep-alive, windows, expiry and topic aliases
    between the CONNECT packet and the settings of the listener. The
    keep-alive is scaled in [f32]: its operations are the Standard
    Library's binary32 arithmetic, rounding included. *)

From stdpp Require Import prelude list strings.
From Stdlib Require Import ZArith Lia SpecFloat.
From S2P Require Import Prelude CodecTypes CodecUtils CodecV3 CodecV5Types BrokerTypes Connection.

Local Open Scope Z_scope.

(** ** [f32] *)

Module F32.
(** Precision 24, exponents up to 128. *)
Definition t : Type := spec_float.
Definition mul (x y : t) : t := SFmul 24 128 x y.

(** [n as f32]. *)
Definition of_Z (n : Z) : t := binary_normalize 24 128 n 0 false.

(** [x as u16]: truncation, saturating, [NaN] to 0. *)
Definition to_u16 (x : t) : Z :=
  match x with
  | S754_zero _ => 0
  | S754_infinity s => if s then 0 else U16_MAX
  | S754_nan => 0
  | S754_finite s m e => if s then 0 else Z.min U16_MAX (Z.shiftl (Z.pos m) e)
  end.

(** [0.75], the default [keepalive_backoff], and [2.0]. *)
Definition three_quarters : t := S754_finite false 12582912 (-24).
Definition two : t := of_Z 2.
End F32.

(** ** The settings of a listener *)

Record ListenerConfig : Type := mkListenerConfig {
  allow_anonymous : bool;
  min_keepalive : Z;
  max_keepalive : Z;
  allow_zero_keepalive : bool;
  keepalive_backoff : F32.t;
  max_inflight_cfg : Z;
  handshake_timeout : Z;
  send_timeout : Z;
  max_mqueue_len_cfg : Z;
  mqueue_rate_limit_cfg : Z * Z;
  max_clientid_len : Z;
  max_qos_allowed : QoS;
  max_topic_levels : Z;
  session_expiry_interval_cfg : Z;
  max_session_expiry_interval : Z;
  message_retry_interval : Z;
  message_expiry_interval_cfg : Z;
  max_subscriptions : Z;
  max_topic_aliases : Z;
  limit_subscription : bool;
  delayed_publish : bool;
  max_packet_size_cfg : Z;
  max_connections : Z;
  max_handshaking_limit : Z;
  cert_cn_as_username : bool;
  cert_subject_dn_as_username : bool;
  collect_cert_info : bool;
}.

(** The defaults of [Builder::new]. *)
Definition default_listener : ListenerConfig :=
  mkListenerConfig true 0 65535 true F32.three_quarters 16 (from_secs 30) (from_secs 10) 1000
    (U32_MAX, from_secs 1) 65535 ExactlyOnce 0 (from_secs (2 * 60 * 60)) 0 (from_secs 20)
    (from_secs (5 * 60)) 0 0 false false (1024 * 1024) 1000000 1000 false false false.

(** ** The fitter *)

Record Fitter : Type := mkFitter { conn_info : ConnectInfo; listen_cfg : ListenerConfig }.

Definition zero_keepalive_error : Error := Other (text "Keepalive must be greater than 0").

Definition too_small_error (min : Z) : Error :=
  Other (text "Keepalive is too small and cannot be less than " ++ format_int min).
Definition too_large_error (max : Z) : Error :=
  Other (text "Keepalive is too large and cannot be greater than " ++ format_int max).

(** The last part of [keep_alive]. *)
Definition keep_alive_timeout (cfg : ListenerConfig) (k : Z) : Z :=
  if k <? 6 then k + 3
  else F32.to_u16 (F32.mul (F32.mul (F32.of_Z k) (keepalive_backoff cfg)) F32.two).

(** The timeout, and the value the client is told to use. *)
Definition keep_alive (f : Fitter) (k : Z) : outcome Error Z * Z :=
  let cfg := listen_cfg f in
  if ci_proto_ver (conn_info f) =? MQTT_LEVEL_5 then
    if k =? 0 then
      (if allow_zero_keepalive cfg then Ok 0 else Err zero_keepalive_error, k)
    else
      let k := if k <? min_keepalive cfg then min_keepalive cfg
               else if max_keepalive cfg <? k then max_keepalive cfg else k in
      (Ok (keep_alive_timeout cfg k), k)
  else if k =? 0 then
    (if allow_zero_keepalive cfg then Ok 0 else Err zero_keepalive_error, k)
  else if k <? min_keepalive cfg then (Err (too_small_error (min_keepalive cfg)), k)
  else if max_keepalive cfg <? k then (Err (too_large_error (max_keepalive cfg)), k)
  else (Ok (keep_alive_timeout cfg k), k).

Definition max_mqueue_len (f : Fitter) : Z := max_mqueue_len_cfg (listen_cfg f).
Definition mqueue_rate_limit (f : Fitter) : Z * Z := mqueue_rate_limit_cfg (listen_cfg f).

Definition max_inflight (f : Fitter) : Z :=
  let receive_max := match conn_info f with ConnectV5 _ c => V5.c_receive_max c | _ => None end in
  match receive_max with
  | Some receive_max => Z.min (max_inflight_cfg (listen_cfg f)) receive_max
  | None => max_inflight_cfg (listen_cfg f)
  end.

Definition session_expiry_interval (f : Fitter) (d : option Disconnect) : Z :=
  let expiry_interval :=
    match conn_info f with
    | ConnectV5 _ c => from_secs (V5.c_session_expiry_interval_secs c)
    | ConnectV3 _ _ => session_expiry_interval_cfg (listen_cfg f)
    end in
  let interval :=
    match d with
    | Some (DisconnectV5 d) =>
        match V5.d_session_expiry_interval_secs d with
        | Some secs => from_secs secs
        | None => expiry_interval
        end
    | _ => expiry_interval
    end in
  if max_session_expiry_interval (listen_cfg f) =? 0 then interval
  else Z.min interval (max_session_expiry_interval (listen_cfg f)).

Definition message_expiry_interval (f : Fitter) (publish : Publish) : Z :=
  match properties publish ≫= CodecTypes.message_expiry_interval with
  | Some i => from_secs i
  | None => message_expiry_interval_cfg (listen_cfg f)
  end.

Definition max_client_topic_aliases (f : Fitter) : Z :=
  match conn_info f with ConnectV5 _ _ => max_topic_aliases (listen_cfg f) | _ => 0 end.

Definition max_server_topic_aliases (f : Fitter) : Z :=
  match conn_info f with
  | ConnectV5 _ c => Z.min (V5.c_topic_alias_max c) (max_topic_aliases (listen_cfg f))
  | _ => 0
  end.

(** ** The keep-alive *)

(** By evaluation on every value of a [u16]. *)
Fixpoint check_from (fuel : nat) (k : Z) (p : Z -> bool) : bool :=
  match fuel with O => true | S fuel => p k && check_from fuel (k + 1) p end.

Lemma check_from_spec fuel k p :
  check_from fuel k p = true -> forall x, k <= x < k + Z.of_nat fuel -> p x = true.
Proof.
  revert k. induction fuel as [|fuel IH]; intros k; simpl; [lia|].
  intros [Hp Hc]%andb_true_iff x Hx. destruct (Z.eq_dec x k) as [->|]; [done|].
  apply (IH (k + 1)); [done|lia].
Qed.

(** Scaling by the default backoff is exact: one and a half times, cut off
    at the end of the range. *)
Lemma scale_three_quarters k :
  0 <= k <= U16_MAX ->
  F32.to_u16 (F32.mul (F32.mul (F32.of_Z k) F32.three_quarters) F32.two)
  = Z.min U16_MAX (k * 3 / 2).
Proof.
  intros Hk. apply Z.eqb_eq.
  apply (check_from_spec (Z.to_nat 65536) 0 (fun k =>
    F32.to_u16 (F32.mul (F32.mul (F32.of_Z k) F32.three_quarters) F32.two)
    =? Z.min U16_MAX (k * 3 / 2))); [vm_compute; reflexivity|unfold U16_MAX in *; lia].
Qed.

Definition clamp (lo hi k : Z) : Z := if k <? lo then lo else if hi <? k then hi else k.

(** C40. Keep-alive, with the default backoff: zero switches it off where the
    listener allows it, and is refused otherwise; an MQTT 5 client outside
    the listener's range is moved to its nearest end and told so; an MQTT 3
    client, which cannot be told, is refused. The timeout is one and a half
    times the keep-alive (three seconds more for the values below six), cut
    off at 65535 seconds, so that it is never shorter than the keep-alive. *)
Theorem keep_alive_correct (f : Fitter) (k : Z) :
  let cfg := listen_cfg f in
  keepalive_backoff cfg = F32.three_quarters ->
  u16 k -> u16 (min_keepalive cfg) -> u16 (max_keepalive cfg) ->
  min_keepalive cfg <= max_keepalive cfg ->
  let k' := clamp (min_keepalive cfg) (max_keepalive cfg) k in
  let timeout := if k' <? 6 then k' + 3 else Z.min U16_MAX (k' * 3 / 2) in
  keep_alive f k =
    (if k =? 0 then (if allow_zero_keepalive cfg then (Ok 0, 0) else (Err zero_keepalive_error, 0))
     else if ci_proto_ver (conn_info f) =? MQTT_LEVEL_5 then (Ok timeout, k')
     else if bool_decide (k' = k) then (Ok timeout, k)
     else (Err (if k <? min_keepalive cfg then too_small_error (min_keepalive cfg)
                else too_large_error (max_keepalive cfg)), k))
  /\ k' <= timeout.
Proof.
  intros cfg Hb Hk Hmin Hmax Hle k' timeout.
  assert (Hk' : u16 k') by (unfold k', clamp, is_u in *; repeat case_match; lia).
  assert (Ht : keep_alive_timeout cfg k' = timeout).
  { unfold keep_alive_timeout, timeout. rewrite Hb. destruct (k' <? 6); [done|].
    apply scale_three_quarters. unfold is_u, U16_MAX in *. lia. }
  split.
  - unfold keep_alive. fold cfg. destruct (Z.eqb_spec k 0) as [->|Hk0].
    { by destruct (_ =? MQTT_LEVEL_5), (allow_zero_keepalive cfg). }
    fold (clamp (min_keepalive cfg) (max_keepalive cfg) k). fold k'.
    destruct (_ =? MQTT_LEVEL_5); [by rewrite Ht|].
    case_bool_decide as Hd.
    + rewrite <- Ht, Hd. unfold k', clamp in Hd.
      destruct (Z.ltb_spec k (min_keepalive cfg)); [lia|].
      by destruct (Z.ltb_spec (max_keepalive cfg) k); [lia|].
    + unfold k', clamp in Hd. destruct (k <? min_keepalive cfg) eqn:E1; [done|].
      by destruct (max_keepalive cfg <? k).
  - unfold timeout, is_u, U16_MAX in *. destruct (Z.ltb_spec k' 6); [lia|].
    apply Z.min_glb; [lia|]. apply Z.div_le_lower_bound; lia.
Qed.

Definition sample_fitter : Fitter :=
  mkFitter (ConnectV3 (Id_from 0 1 [97]) (V3.mkConnect MQTT_LEVEL_311 true 60 None [97] None None None))
    default_listener.

Lemma keep_alive_correct_witness : keep_alive sample_fitter 60 = (Ok 90, 60).
Proof.
  destruct (keep_alive_correct sample_fitter 60) as [H _].
  - reflexivity.
  - split; lia.
  - split; simpl; lia.
  - split; simpl; lia.
  - simpl; lia.
  - exact H.
Defined.

(** Above 43690 seconds the timeout is less than one and a half times the
    keep-alive, which MQTT asks for: it does not fit. *)
Theorem keep_alive_saturates (k : Z) :
  43690 < k <= U16_MAX ->
  keep_alive sample_fitter k = (Ok U16_MAX, k) /\ U16_MAX < k * 3 / 2.
Proof.
  intros Hk. unfold U16_MAX in *. unfold keep_alive, sample_fitter, default_listener. simpl.
  destruct (Z.eqb_spec k 0); [lia|]. destruct (Z.ltb_spec k 0); [lia|].
  destruct (Z.ltb_spec 65535 k); [lia|].
  assert (Hd : 65536 <= k * 3 / 2) by (apply Z.div_le_lower_bound; lia).
  split; [|lia]. unfold keep_alive_timeout. destruct (Z.ltb_spec k 6); [lia|].
  simpl. rewrite scale_three_quarters by (unfold U16_MAX; lia). unfold U16_MAX. do 2 f_equal. lia.
Qed.
