(* ===== verification/TopicAlias.v ===== *)
(** * Topic aliases: [types.rs]

    MQTT 5 lets a sender replace a topic by a number it has announced.
    [ServerTopicAliases] is the broker as the sender, [ClientTopicAliases]
    the broker as the receiver; [Sink::publish] uses the former. *)

From stdpp Require Import prelude list strings gmap.
From Stdlib Require Import ZArith Lia.
From S2P Require Import Prelude CodecTypes CodecV5Types BrokerTypes Connection.

Local Open Scope Z_scope.

Abbreviation alias_map := (gmap bytes Z).
Abbreviation topic_map := (gmap Z bytes).

Module ServerTopicAliases.
Record t : Type := mk { max_topic_aliases : Z; aliases : alias_map }.

Definition new (m : Z) : t := mk m ∅.

(** The topic to send, if it is to be sent, and the alias; [Panic] is the
    [unreachable!] of an alias that is 0 as a [u16]. *)
Definition get (s : t) (topic : bytes) : outcome Empty_set (option bytes * option Z) * t :=
  if max_topic_aliases s =? 0 then (Ok (Some topic, None), s)
  else
    match aliases s !! topic with
    | Some alias => (Ok (None, Some alias), s)
    | None =>
        let len := Z.of_nat (size (aliases s)) in
        if max_topic_aliases s <=? len then (Ok (Some topic, None), s)
        else
          let alias := wrap 16 (len + 1) in
          if alias =? 0 then (Panic, s)
          else (Ok (Some topic, Some alias), mk (max_topic_aliases s) (<[topic := alias]> (aliases s)))
    end.
End ServerTopicAliases.

Module ClientTopicAliases.
Record t : Type := mk { max_topic_aliases : Z; aliases : topic_map }.

Definition new (m : Z) : t := mk m ∅.

Definition alias_error (msg : bytes) : Error :=
  Mqtt (EPublishAckReason PublishAckReasonM.ImplementationSpecificError msg).

Definition not_found : Error :=
  alias_error (text "implementation specific error, the ‘topic‘ associated with the ‘alias‘ was not found").
Definition too_many (max : Z) : Error :=
  alias_error (text "implementation specific error, the number of topic aliases exceeds the limit ("
               ++ format_int max ++ text ")").
Definition both_empty : Error :=
  alias_error (text "implementation specific error, ‘alias’ and ‘topic’ are both empty").

Definition set_and_get (s : t) (alias : option Z) (topic : bytes) : outcome Error bytes * t :=
  match alias, len topic =? 0 with
  | Some alias, true =>
      (match aliases s !! alias with Some topic => Ok topic | None => Err not_found end, s)
  | Some alias, false =>
      match aliases s !! alias with
      | Some _ => (Ok topic, mk (max_topic_aliases s) (<[alias := topic]> (aliases s)))
      | None =>
          if max_topic_aliases s <=? Z.of_nat (size (aliases s)) then (Err (too_many (max_topic_aliases s)), s)
          else (Ok topic, mk (max_topic_aliases s) (<[alias := topic]> (aliases s)))
      end
  | None, true => (Err both_empty, s)
  | None, false => (Ok topic, s)
  end.
End ClientTopicAliases.

(** ** Sending to an MQTT 5 client: the [V5] branch of [Sink::publish] *)

Definition with_alias (expiry alias : option Z) (pr : PublishProperties) : PublishProperties :=
  mkPublishProperties alias (correlation_data pr) expiry (content_type pr) (user_properties pr)
    (is_utf8_payload pr) (response_topic pr) (subscription_ids pr).

Definition sink_publish_v5 (sa : option ServerTopicAliases.t) (p : Publish) (expiry : option Z)
    : outcome Empty_set Publish * option ServerTopicAliases.t :=
  let '(r, sa) :=
    match sa with
    | Some sa => let '(r, sa) := ServerTopicAliases.get sa (topic p) in (r, Some sa)
    | None => (Ok (Some (topic p), None), None)
    end in
  match r with
  | Ok (t, alias) =>
      (Ok (mkPublish (dup p) (retain p) (qos p) (default [] t) (packet_id p) (payload p)
             (with_alias expiry alias <$> properties p)), sa)
  | Err e => (Err e, sa)
  | Panic => (Panic, sa)
  | Diverged => (Diverged, sa)
  end.

(** ** Sender and receiver agree *)

(** The receiver knows every alias of the sender, and no other. *)
Definition agree (s : ServerTopicAliases.t) (c : ClientTopicAliases.t) : Prop :=
  ServerTopicAliases.max_topic_aliases s = ClientTopicAliases.max_topic_aliases c /\
  (forall topic alias, ServerTopicAliases.aliases s !! topic = Some alias ->
     ClientTopicAliases.aliases c !! alias = Some topic) /\
  (forall alias topic, ClientTopicAliases.aliases c !! alias = Some topic ->
     1 <= alias <= Z.of_nat (size (ServerTopicAliases.aliases s))) /\
  size (ServerTopicAliases.aliases s) = size (ClientTopicAliases.aliases c) /\
  Z.of_nat (size (ServerTopicAliases.aliases s)) <= ServerTopicAliases.max_topic_aliases s.

Lemma agree_new m : 0 <= m -> agree (ServerTopicAliases.new m) (ClientTopicAliases.new m).
Proof.
  intros Hm. unfold agree; simpl. rewrite !map_size_empty.
  split_and!; [done|..]; try (intros ??; rewrite lookup_empty; done); [done|lia].
Qed.

(** What the sender puts on the wire, as the receiver takes it. *)
Definition receive (c : ClientTopicAliases.t) (sent : option bytes * option Z)
    : outcome Error bytes * ClientTopicAliases.t :=
  ClientTopicAliases.set_and_get c sent.2 (default [] sent.1).

Lemma len_nonempty (topic : bytes) : topic <> [] -> (len topic =? 0) = false.
Proof. destruct topic; [done|]. intros _. apply Z.eqb_neq. unfold len. simpl. lia. Qed.

(** One message: the receiver gets the topic back. *)
Lemma get_receive s c topic :
  agree s c -> topic <> [] -> ServerTopicAliases.max_topic_aliases s <= U16_MAX ->
  exists sent s' c', ServerTopicAliases.get s topic = (Ok sent, s') /\
    receive c sent = (Ok topic, c') /\ agree s' c' /\
    ServerTopicAliases.max_topic_aliases s' = ServerTopicAliases.max_topic_aliases s /\
    (forall alias, sent.2 = Some alias -> 1 <= alias <= ServerTopicAliases.max_topic_aliases s).
Proof.
  intros (Hm & Hsc & Hcs & Hsz & Hle) Hne Hu. unfold ServerTopicAliases.get, receive.
  destruct (Z.eqb_spec (ServerTopicAliases.max_topic_aliases s) 0) as [H0|H0].
  { eexists _, _, _. split; [done|]. cbn. rewrite len_nonempty by done.
    split_and!; [done| |done|done]. by split_and!. }
  destruct (ServerTopicAliases.aliases s !! topic) as [alias|] eqn:E.
  { eexists _, _, _. split; [done|]. cbn. rewrite (Hsc _ _ E).
    split_and!; [done| |done|]; [by split_and!|]. intros ? [= <-].
    specialize (Hcs _ _ (Hsc _ _ E)). lia. }
  destruct (Z.leb_spec (ServerTopicAliases.max_topic_aliases s)
              (Z.of_nat (size (ServerTopicAliases.aliases s)))).
  { eexists _, _, _. split; [done|]. cbn. rewrite len_nonempty by done.
    split_and!; [done| |done|done]. by split_and!. }
  set (n := size (ServerTopicAliases.aliases s)) in *.
  assert (Hw : wrap 16 (Z.of_nat n + 1) = Z.of_nat n + 1).
  { unfold wrap, U16_MAX in *. apply Z.mod_small. lia. }
  rewrite Hw. destruct (Z.eqb_spec (Z.of_nat n + 1) 0); [lia|].
  assert (Hc : ClientTopicAliases.aliases c !! (Z.of_nat n + 1) = None).
  { apply eq_None_not_Some. intros [t' Ec]. specialize (Hcs _ _ Ec). lia. }
  eexists _, _, _. split; [done|]. unfold ClientTopicAliases.set_and_get.
  cbn [fst snd default from_option]. rewrite len_nonempty, Hc, <- Hsz, <- Hm by done.
  destruct (Z.leb_spec (ServerTopicAliases.max_topic_aliases s) (Z.of_nat n)); [lia|].
  split_and!; [done| |done|intros ? [= <-]; lia]. unfold agree. cbn.
  rewrite !map_size_insert_None by done. fold n. split_and!; [done|..| |lia].
  - intros t' a'. rewrite lookup_insert_Some. intros [[<- <-]|[Hn Ht]]; [by rewrite lookup_insert_eq|].
    rewrite lookup_insert_ne; [by apply Hsc|].
    intros <-. specialize (Hcs _ _ (Hsc _ _ Ht)). lia.
  - intros a' t'. rewrite lookup_insert_Some. intros [[<- <-]|[_ Ha]]; [lia|].
    specialize (Hcs _ _ Ha). lia.
  - by rewrite <- Hsz.
Qed.

(** A sequence of messages through both tables. *)
Fixpoint exchange (s : ServerTopicAliases.t) (c : ClientTopicAliases.t) (topics : list bytes)
    : list (option (option bytes * option Z) * outcome Error bytes) :=
  match topics with
  | [] => []
  | topic :: topics =>
      match ServerTopicAliases.get s topic with
      | (Ok sent, s) => let '(r, c) := receive c sent in (Some sent, r) :: exchange s c topics
      | _ => [(None, Panic)]
      end
  end.

(** Topic aliases are transparent: whatever topics are sent, with any
    maximum a [u16] holds, the sender's table never panics, every alias is
    between 1 and the maximum, and a receiver with the same maximum gets
    every topic back; a topic that has an alias is not sent again. *)
Theorem topic_alias_roundtrip (m : Z) (topics : list bytes) :
  u16 m -> Forall (fun t => t <> []) topics ->
  (exchange (ServerTopicAliases.new m) (ClientTopicAliases.new m) topics).*2 = Ok <$> topics /\
  Forall (fun x => exists sent, x.1 = Some sent /\ (sent.1 = None -> is_Some sent.2) /\
    forall alias, sent.2 = Some alias -> 1 <= alias <= m)
    (exchange (ServerTopicAliases.new m) (ClientTopicAliases.new m) topics).
Proof.
  intros Hm. assert (Hag : agree (ServerTopicAliases.new m) (ClientTopicAliases.new m))
    by (apply agree_new; unfold is_u in *; lia).
  assert (Hmax : ServerTopicAliases.max_topic_aliases (ServerTopicAliases.new m) = m) by done.
  revert Hag Hmax. generalize (ServerTopicAliases.new m) (ClientTopicAliases.new m).
  induction topics as [|topic topics IH]; intros s c Hag Hmax Hne; [by split|].
  apply Forall_cons in Hne as [Ht Hne].
  destruct (get_receive s c topic) as (sent & s' & c' & Hg & Hr & Hag' & Hmax' & Ha); [done|done| |].
  { unfold is_u, U16_MAX in *. lia. }
  cbn [exchange]. rewrite Hg, Hr. cbn. destruct (IH s' c') as [IH1 IH2]; [done|congruence|done|].
  rewrite IH1. split; [done|]. constructor; [|done]. exists sent. split_and!; [done|..].
  - intros Hn. unfold receive in Hr. rewrite Hn in Hr. destruct sent.2; [done|].
    cbn in Hr. done.
  - intros alias H. rewrite <- Hmax. by apply Ha.
Qed.

Lemma topic_alias_roundtrip_witness :
  (exchange (ServerTopicAliases.new 1) (ClientTopicAliases.new 1) [[97]; [98]; [97]]).*2
  = [Ok [97]; Ok [98]; Ok [97]].
Proof. apply (topic_alias_roundtrip 1 [[97]; [98]; [97]]); [split; lia|by repeat constructor]. Defined.

(** A message from an MQTT 3 client has no properties, so that the alias is
    not sent with it: the second message on a topic reaches an MQTT 5 client
    with an empty topic and no alias, which it must treat as an error. *)
Theorem alias_lost_without_properties (p : Publish) (m : Z) :
  properties p = None -> topic p <> [] -> 1 <= m <= U16_MAX ->
  let '(_, sa1) := sink_publish_v5 (Some (ServerTopicAliases.new m)) p None in
  let '(r2, _) := sink_publish_v5 sa1 p None in
  r2 = Ok (mkPublish (dup p) (retain p) (qos p) [] (packet_id p) (payload p) None).
Proof.
  intros Hp Ht Hm. unfold U16_MAX in *. unfold sink_publish_v5, ServerTopicAliases.get.
  cbn [ServerTopicAliases.new ServerTopicAliases.max_topic_aliases ServerTopicAliases.aliases].
  destruct (Z.eqb_spec m 0); [lia|]. rewrite lookup_empty, map_size_empty.
  destruct (Z.leb_spec m (Z.of_nat 0)); [lia|].
  change (wrap 16 (Z.of_nat 0 + 1)) with 1. cbn [Z.eqb].
  cbn [ServerTopicAliases.max_topic_aliases ServerTopicAliases.aliases].
  destruct (Z.eqb_spec m 0); [lia|]. rewrite lookup_insert_eq. cbn. by rewrite Hp.
Qed.
