(* ===== verification/Delayed.v ===== *)
(** * Delayed publishing: [delayed.rs], [DelayedPublish] of [types.rs]

    A topic [$delayed/seconds/topic] asks for the message to be published
    later. Such messages wait in a [BinaryHeap] of the standard library,
    which is an interface here ([BinaryHeap], [BinaryHeapOk]) with an
    instance; a background task takes out those that are due. Times are the
    milliseconds of [timestamp_millis]. *)

From stdpp Require Import prelude list strings sorting.
From Stdlib Require Import ZArith Lia.
From S2P Require Import Prelude CodecTypes Topic BrokerTypes Connection Subscription.

Local Open Scope Z_scope.

(** ** The topic *)

(** [str::parse::<u32>] with the kinds of its error. *)
Inductive IntErrorKind : Type := Empty | InvalidDigit | PosOverflow.

Definition IntErrorKind_text (k : IntErrorKind) : bytes :=
  text match k with
       | Empty => "cannot parse integer from empty string"
       | InvalidDigit => "invalid digit found in string"
       | PosOverflow => "number too large to fit in target type"
       end.

Fixpoint parse_u32_digits (acc : Z) (s : string) : outcome IntErrorKind Z :=
  match s with
  | EmptyString => Ok acc
  | String c s =>
      match digit c with
      | None => Err InvalidDigit
      | Some d =>
          if acc * 10 + d <? 2 ^ 32 then parse_u32_digits (acc * 10 + d) s else Err PosOverflow
      end
  end.

Definition parse_u32 (s : string) : outcome IntErrorKind Z :=
  match s with
  | EmptyString => Err Empty
  | String c EmptyString => parse_u32_digits 0 s
  | String c s' => parse_u32_digits 0 (if bool_decide (c = plus_char) then s' else s)
  end.

Definition set_topic_delay (p : BPublish) (topic : bytes) (delay : Z) : BPublish :=
  let i := BPublish.inner p in
  BPublish.mk (mkPublish (dup i) (retain i) (qos i) topic (packet_id i) (payload i) (properties i))
    (BPublish.target_clientid p) (Some delay) (BPublish.create_time p).

(** [DelayedSender::parse]. *)
Definition parse (p : BPublish) : outcome Error BPublish :=
  match splitn3 (str (topic (BPublish.inner p))) with
  | (first, Some delay_interval, Some topic') =>
      if bool_decide (first = "$delayed"%string) then
        match parse_u32 delay_interval with
        | Ok interval_s => Ok (set_topic_delay p (text topic') interval_s)
        | Err e =>
            Err (Other (text "the delay time of $delayed must be an integer, topic: "
                        ++ topic (BPublish.inner p) ++ text ", " ++ IntErrorKind_text e))
        | Panic => Panic | Diverged => Diverged
        end
      else Ok p
  | _ => Ok p
  end.

(** ** Messages that wait *)

Record DelayedPublish : Type := mkDelayed {
  expired_time : Z;
  dp_from : From;
  dp_publish : BPublish;
  message_storage_available : bool;
  dp_message_expiry_interval : option Z;
}.

Definition DelayedPublish_new (now : Z) (from : From) (publish : BPublish) (storage : bool)
    (expiry : option Z) : DelayedPublish :=
  mkDelayed
    (match BPublish.delay_interval publish with Some di => now + di * 1000 | None => now end)
    from publish storage expiry.

Definition is_expired (now : Z) (dp : DelayedPublish) : bool := expired_time dp <? now.

(** What the code uses of [BinaryHeap<DelayedPublish>]. The order of
    [DelayedPublish] is reversed: the greatest element expires first. *)
Class BinaryHeap (H : Type) : Type := {
  heap_empty : H;
  heap_push : DelayedPublish -> H -> H;
  heap_peek : H -> option DelayedPublish;
  heap_pop : H -> option DelayedPublish * H;
  heap_elements : H -> list DelayedPublish;
}.

Class BinaryHeapOk (H : Type) `{BinaryHeap H} : Prop := {
  elements_empty : heap_elements heap_empty = [];
  elements_push d h : heap_elements (heap_push d h) ≡ₚ d :: heap_elements h;
  peek_none h : heap_peek h = None <-> heap_elements h = [];
  pop_peek h : (heap_pop h).1 = heap_peek h;
  elements_pop h d : heap_peek h = Some d -> heap_elements h ≡ₚ d :: heap_elements (heap_pop h).2;
  peek_first h d d' : heap_peek h = Some d -> d' ∈ heap_elements h -> expired_time d <= expired_time d';
}.

Module DelayedSender.
Section sender.
Context {H : Type} `{BinaryHeapOk H}.

(** The heap, the gauge [delayed_publishs] and [mqtt_delayed_publish_max]. *)
Record t : Type := mk { msgs : H; gauge : Counter.t; publish_max : Z }.

Definition length_of (s : t) : Z := len (heap_elements (msgs s)).

(** [delay_publish]: the message back when there is no room. *)
Definition delay_publish (now : Z) (s : t) (from : From) (publish : BPublish) (storage : bool)
    (expiry : option Z) : option (From * BPublish) * t :=
  if length_of s <? publish_max s then
    let m := heap_push (DelayedPublish_new now from publish storage expiry) (msgs s) in
    (None, mk m (Counter.max_max (gauge s) (len (heap_elements m))) (publish_max s))
  else (Some (from, publish), s).

(** What [send] hands to [inner_forwards]. *)
Definition send (dp : DelayedPublish) : From * BPublish * bool * option Z :=
  let p := dp_publish dp in
  (dp_from dp,
   BPublish.mk (BPublish.inner p) (BPublish.target_clientid p) None (BPublish.create_time p),
   message_storage_available dp, dp_message_expiry_interval dp).

(** The inner loop of the background task: [clock i] is the [i]-th reading
    of the clock. *)
Fixpoint tick_loop (fuel : nat) (clock : nat -> Z) (s : t) : option (list DelayedPublish * t) :=
  match fuel with
  | O => None
  | S fuel =>
      match heap_peek (msgs s) with
      | None => Some ([], s)
      | Some p =>
          if is_expired (clock 0%nat) p then
            match heap_pop (msgs s) with
            | (Some dp, m) =>
                match tick_loop fuel (clock ∘ S) (mk m (gauge s) (publish_max s)) with
                | Some (sent, s') => Some (dp :: sent, s')
                | None => None
                end
            | (None, m) => Some ([], mk m (gauge s) (publish_max s))
            end
          else Some ([], s)
      end
  end.

(** The messages taken out, in order, are handed to [send]. *)
Definition tick (clock : nat -> Z) (s : t) : option (list (From * BPublish * bool * option Z) * t) :=
  match tick_loop (S (length (heap_elements (msgs s)))) clock s with
  | Some (popped, s') => Some (send <$> popped, s')
  | None => None
  end.

(** ** What a tick does *)

Lemma tick_loop_spec fuel clock s :
  (length (heap_elements (msgs s)) < fuel)%nat ->
  exists popped s', tick_loop fuel clock s = Some (popped, s') /\
    heap_elements (msgs s) ≡ₚ popped ++ heap_elements (msgs s') /\
    StronglySorted (fun a b => expired_time a <= expired_time b) popped /\
    (forall i d, popped !! i = Some d -> expired_time d < clock i) /\
    Forall (fun d => clock (length popped) <= expired_time d) (heap_elements (msgs s')) /\
    gauge s' = gauge s /\ publish_max s' = publish_max s.
Proof.
  revert clock s. induction fuel as [|fuel IH]; intros clock s Hf; [lia|]. cbn [tick_loop].
  destruct (heap_peek (msgs s)) as [p|] eqn:Hp.
  2:{ apply peek_none in Hp. exists [], s. rewrite Hp. split_and!; try done. constructor. }
  destruct (is_expired (clock 0%nat) p) eqn:He; swap 1 2.
  { exists [], s. split_and!; try done; [constructor|]. apply Forall_forall. intros d Hd.
    pose proof (peek_first _ _ _ Hp Hd). unfold is_expired in He. apply Z.ltb_ge in He. simpl. lia. }
  pose proof (pop_peek (msgs s)) as Hpp. pose proof (elements_pop _ _ Hp) as Hel.
  rewrite Hp in Hpp. destruct (heap_pop (msgs s)) as [o m] eqn:Hpop. simpl in Hpp, Hel. subst o.
  destruct (IH (clock ∘ S) (mk m (gauge s) (publish_max s)))
    as (popped & s' & -> & Hperm & Hsort & Hcl & Hrest & Hg & Hm); simpl in *.
  { apply Permutation_length in Hel. simpl in Hel. lia. }
  exists (p :: popped), s'. split_and!; try done.
  - by rewrite Hel, Hperm.
  - constructor; [done|]. apply Forall_forall. intros d Hd. apply (peek_first (msgs s)); [done|].
    rewrite Hel. apply list_elem_of_further. rewrite Hperm. apply elem_of_app. by left.
  - intros [|i] d; simpl; [|by apply Hcl]. intros [= <-]. by apply Z.ltb_lt.
Qed.

(** C39. One run of the background task comes to its end, and takes out of the
    heap exactly what is due: the messages it hands on are those removed,
    in the order of their times, each with its delay cleared and past its
    time when it was looked at; those it leaves were not due when it
    stopped, and nothing is lost or duplicated. *)
Theorem delayed_tick (clock : nat -> Z) (s : t) :
  exists popped s', tick clock s = Some (send <$> popped, s') /\
    heap_elements (msgs s) ≡ₚ popped ++ heap_elements (msgs s') /\
    StronglySorted (fun a b => expired_time a <= expired_time b) popped /\
    (forall i d, popped !! i = Some d -> expired_time d < clock i) /\
    Forall (fun d => clock (length popped) <= expired_time d) (heap_elements (msgs s')).
Proof.
  destruct (tick_loop_spec (S (length (heap_elements (msgs s)))) clock s)
    as (popped & s' & Ht & Hp & Hs & Hc & Hr & _); [lia|].
  exists popped, s'. unfold tick. by rewrite Ht.
Qed.

(** ** Scheduling *)

Inductive op : Type :=
| Delay (now : Z) (from : From) (publish : BPublish) (storage : bool) (expiry : option Z)
| Tick (clock : nat -> Z).

Definition step (s : t) (o : op) : t :=
  match o with
  | Delay now from publish storage expiry => (delay_publish now s from publish storage expiry).2
  | Tick clock => match tick clock s with Some (_, s') => s' | None => s end
  end.

Lemma step_bounded s o : length_of s <= publish_max s -> length_of (step s o) <= publish_max (step s o).
Proof.
  intros Hb. destruct o as [now from p st ex|clock]; simpl.
  - unfold delay_publish. destruct (Z.ltb_spec (length_of s) (publish_max s)); [|done].
    unfold length_of, len in *. simpl. rewrite (Permutation_length (elements_push _ _)). simpl. lia.
  - unfold tick. destruct (tick_loop_spec (S (length (heap_elements (msgs s)))) clock s)
      as (popped & s' & -> & Hp & _ & _ & _ & _ & Hm); [lia|].
    unfold length_of, len in *. rewrite Hm. apply Permutation_length in Hp.
    rewrite length_app in Hp. lia.
Qed.

Lemma step_max s o : publish_max (step s o) = publish_max s.
Proof.
  destruct o as [now from p st ex|clock]; simpl.
  - unfold delay_publish. by destruct (_ <? _).
  - unfold tick. by destruct (tick_loop_spec (S (length (heap_elements (msgs s)))) clock s)
      as (popped & s' & -> & _ & _ & _ & _ & _ & Hm); [lia|].
Qed.

Lemma run_max s ops : publish_max (foldl step s ops) = publish_max s.
Proof. revert s. induction ops as [|o ops IH]; intros s; [done|]. simpl. by rewrite IH, step_max. Qed.

(** A message that is not refused is scheduled for its delay after its
    arrival and joins those that wait; it is refused, and handed back, only
    when as many as allowed wait already. That many never wait, whatever is
    scheduled and however the background task runs. *)
Theorem delayed_scheduling (m0 : Z) (g : Counter.t) (ops : list op) (now : Z) (from : From)
    (publish : BPublish) (storage : bool) (expiry : option Z) :
  0 <= m0 ->
  let s := foldl step (mk heap_empty g m0) ops in
  let dp := mkDelayed (now + default 0 (BPublish.delay_interval publish) * 1000) from publish storage expiry in
  length_of s <= m0 /\
  (length_of s = m0 -> delay_publish now s from publish storage expiry = (Some (from, publish), s)) /\
  (length_of s < m0 -> exists s', delay_publish now s from publish storage expiry = (None, s') /\
     heap_elements (msgs s') ≡ₚ dp :: heap_elements (msgs s)).
Proof.
  intros Hm s dp.
  assert (Hb : length_of s <= publish_max s).
  { unfold s. assert (Hi : length_of (mk heap_empty g m0) <= publish_max (mk heap_empty g m0)).
    { unfold length_of, len. simpl. rewrite elements_empty. simpl. lia. }
    revert Hi. generalize (mk heap_empty g m0). induction ops as [|o ops IH]; intros s0 Hs0; [done|].
    simpl. by apply IH, step_bounded. }
  assert (Hmax : publish_max s = m0) by apply run_max.
  unfold delay_publish. rewrite Hmax in *. split_and!; [done|..].
  - intros ->. by rewrite Z.ltb_irrefl.
  - intros Hl. apply Z.ltb_lt in Hl. rewrite Hl. eexists. split; [done|]. simpl.
    rewrite elements_push. unfold DelayedPublish_new, dp.
    destruct (BPublish.delay_interval publish); simpl; by rewrite ?Z.add_0_r.
Qed.
End sender.
End DelayedSender.

(** ** An instance of the heap: a list in the order of the times *)

Module SortedHeap.
Fixpoint insert_sorted (d : DelayedPublish) (l : list DelayedPublish) : list DelayedPublish :=
  match l with
  | [] => [d]
  | x :: l => if expired_time d <? expired_time x then d :: x :: l else x :: insert_sorted d l
  end.

Definition le (a b : DelayedPublish) : Prop := expired_time a <= expired_time b.

#[global] Instance le_dec a b : Decision (le a b).
Proof. unfold le. apply _. Defined.

Record t : Type := mk { items : list DelayedPublish; sorted : StronglySorted le items }.

Lemma insert_perm d l : insert_sorted d l ≡ₚ d :: l.
Proof.
  induction l as [|x l IH]; simpl; [done|]. destruct (_ <? _); [done|].
  rewrite IH. apply Permutation_swap.
Qed.

Lemma insert_keeps d l : StronglySorted le l -> StronglySorted le (insert_sorted d l).
Proof.
  induction 1 as [|x l Hl IH Hx]; simpl; [repeat constructor|].
  destruct (Z.ltb_spec (expired_time d) (expired_time x)).
  - constructor; [by constructor|]. constructor; [unfold le; lia|].
    eapply Forall_impl; [done|]. unfold le. intros ?. simpl. lia.
  - constructor; [done|]. rewrite insert_perm. constructor; [unfold le; lia|done].
Qed.

Lemma tail_sorted l : StronglySorted le l -> StronglySorted le (tail l).
Proof. destruct l; [done|]. by intros [? _]%StronglySorted_inv. Qed.

#[global] Instance heap : BinaryHeap t := {
  heap_empty := mk [] (SSorted_nil _);
  heap_push d h := mk (insert_sorted d (items h)) (insert_keeps d (items h) (sorted h));
  heap_peek h := head (items h);
  heap_pop h := (head (items h), mk (tail (items h)) (tail_sorted (items h) (sorted h)));
  heap_elements := items;
}.

#[global] Instance heap_ok : BinaryHeapOk t.
Proof.
  split; simpl; try done.
  - intros d h. apply insert_perm.
  - intros h. by destruct (items h).
  - intros h d. destruct (items h); simpl; [done|]. by intros [= ->].
  - intros h d d' Hd Hin. destruct (sorted h) as [|x l Hl Hx]; simpl in *; [done|].
    injection Hd as ->. apply elem_of_cons in Hin as [-> |Hin]; [lia|].
    rewrite Forall_forall in Hx. by apply Hx.
Qed.
End SortedHeap.

Definition sample_message (delay : Z) : BPublish :=
  BPublish.mk (mkPublish false false AtMostOnce (text "a") None [delay] None) None (Some delay) None.

Definition sample_from : From := mkFrom Custom (Id_from 0 1 [97]).

Definition sample_delays : list (DelayedSender.op) :=
  [DelayedSender.Delay 1000 sample_from (sample_message 5) false None;
   DelayedSender.Delay 1000 sample_from (sample_message 2) false None].

Definition sample_sender : DelayedSender.t (H := SortedHeap.t) :=
  foldl DelayedSender.step (DelayedSender.mk heap_empty Counter.new 2) sample_delays.

Lemma delayed_tick_witness :
  exists popped s', DelayedSender.tick (fun _ => 4000) sample_sender = Some (DelayedSender.send <$> popped, s') /\
    Forall (fun d => 4000 <= expired_time d) (heap_elements (DelayedSender.msgs s')).
Proof.
  destruct (DelayedSender.delayed_tick (fun _ => 4000) sample_sender)
    as (popped & s' & Ht & _ & _ & _ & Hr).
  exists popped, s'. split; [exact Ht|exact Hr].
Defined.

Lemma delayed_scheduling_witness :
  DelayedSender.delay_publish 1500 sample_sender sample_from (sample_message 1) false None
  = (Some (sample_from, sample_message 1), sample_sender).
Proof.
  destruct (DelayedSender.delayed_scheduling (H := SortedHeap.t) 2 Counter.new sample_delays 1500
              sample_from (sample_message 1) false None) as (_ & Hfull & _); [lia|].
  apply Hfull. reflexivity.
Defined.

(** The first message is due at 3000, the second at 6000. *)
Example sample_tick :
  match DelayedSender.tick (fun _ => 4000) sample_sender with
  | Some (sent, s') => length sent = 1%nat /\ (expired_time <$> heap_elements (DelayedSender.msgs s')) = [6000]
  | None => False
  end.
Proof. vm_compute. done. Qed.

(** ** The topic form *)

Lemma parse_u32_digits_app acc a b :
  parse_u32_digits acc (a +:+ b) =
  match parse_u32_digits acc a with Ok v => parse_u32_digits v b | o => o end.
Proof.
  revert acc. induction a as [|c a IH]; intros acc; simpl; [done|].
  destruct (digit c); [|done]. destruct (_ <? _); [apply IH|done].
Qed.

Lemma str_app a b : str (a ++ b) = str a +:+ str b.
Proof. unfold str. rewrite fmap_app. induction (_ <$> a) as [|c l IH]; simpl; [done|]. by rewrite IH. Qed.

Lemma str_digit d : 0 <= d < 10 -> exists c, str [48 + d] = String c "" /\ digit c = Some d /\ c <> plus_char
  /\ c <> slash.
Proof.
  intros Hd. assert (Hc : d ∈ [0; 1; 2; 3; 4; 5; 6; 7; 8; 9]).
  { rewrite !elem_of_cons. lia. }
  repeat (apply elem_of_cons in Hc as [-> |Hc]; [by eexists|]). by apply elem_of_nil in Hc.
Qed.

Lemma no_slash_app a b : no_slash a = true -> no_slash b = true -> no_slash (a +:+ b) = true.
Proof.
  intros Ha Hb. induction a as [|x a IH]; [done|]. simpl in *.
  apply andb_true_iff in Ha as [Hx Ha]. apply andb_true_iff. auto.
Qed.

Lemma parse_digits_of fuel n :
  0 <= n < 10 ^ Z.of_nat fuel -> n < 2 ^ 32 -> (0 < fuel)%nat ->
  parse_u32_digits 0 (str (digits_of fuel n)) = Ok n /\ no_slash (str (digits_of fuel n)) = true /\
  exists c s, str (digits_of fuel n) = String c s /\ c <> plus_char.
Proof.
  revert n. induction fuel as [|fuel IH]; intros n Hn Hu Hf; [lia|]. cbn [digits_of].
  rewrite str_app. destruct (str_digit (n mod 10)) as (c & -> & Hc & Hp & Hs);
    [by apply Z.mod_pos_bound|].
  assert (Hls : no_slash (String c "") = true).
  { cbn. by rewrite bool_decide_false. }
  destruct (Z.ltb_spec n 10) as [Hlt|Hge].
  - rewrite Z.mod_small in Hc by lia. change (str [] +:+ String c "") with (String c "").
    cbn [parse_u32_digits]. rewrite Hc. change (0 * 10 + n) with n. destruct (Z.ltb_spec n (2 ^ 32)); [|lia].
    split_and!; [done|done|]. by eexists _, _.
  - assert (Hfu : (0 < fuel)%nat) by (destruct fuel; [simpl in Hn; lia|lia]).
    destruct (IH (n / 10)) as (IH1 & IH2 & c0 & s0 & IH3 & IH4); [|apply Z.div_lt_upper_bound; lia|done|].
    { split; [apply Z.div_pos; lia|]. apply Z.div_lt_upper_bound; [lia|].
      replace (10 * 10 ^ Z.of_nat fuel) with (10 ^ Z.of_nat (S fuel)); [lia|].
      rewrite Nat2Z.inj_succ, Z.pow_succ_r; lia. }
    rewrite parse_u32_digits_app, IH1. cbn [parse_u32_digits]. rewrite Hc.
    assert (Hnn : n / 10 * 10 + n mod 10 = n) by (pose proof (Z.div_mod n 10); lia).
    rewrite Hnn. destruct (Z.ltb_spec n (2 ^ 32)); [|lia]. split_and!; [done|..].
    + by apply no_slash_app.
    + rewrite IH3. by eexists _, _.
Qed.

(** Delayed topics: the topic [$delayed/n/t], with [n] printed in decimal,
    is read as a message on [t] with a delay of [n] seconds, nothing else of
    it changed; where there is no number, publishing is an error; a topic
    that does not begin with a level [$delayed] is left alone. *)
Theorem delayed_parse (p : BPublish) (n : Z) (t : string) (bad : string) (e : IntErrorKind) :
  0 <= n < 2 ^ 32 -> no_slash bad = true -> parse_u32 bad = Err e ->
  let named (s : string) := set_topic_delay p (text s) 0 in
  let form (d : string) := ("$delayed" +:+ String slash (d +:+ String slash t))%string in
  parse (named (form (str (format_int n)))) = Ok (set_topic_delay p (text t) n) /\
  (exists msg, parse (named (form bad)) = Err (Other msg)) /\
  (forall s, (splitn3 s).1.1 <> "$delayed"%string -> parse (named s) = Ok (named s)).
Proof.
  intros Hn Hb He named form. unfold parse, named. split_and!.
  - cbn [set_topic_delay BPublish.inner topic]. rewrite str_text.
    destruct (parse_digits_of 20 n) as (Hd & Hns & c & s & Hs & Hc); [lia|lia|lia|].
    change (digits_of 20 n) with (format_int n) in *. unfold form.
    rewrite splitn3_form, bool_decide_true by done.
    assert (Hpu : parse_u32 (str (format_int n)) = Ok n); [|by rewrite Hpu].
    rewrite Hs in *. unfold parse_u32. destruct s; [done|]. by rewrite bool_decide_false.
  - cbn [set_topic_delay BPublish.inner topic]. rewrite str_text. unfold form.
    rewrite splitn3_form, bool_decide_true, He by done. by eexists.
  - intros s Hs. cbn [set_topic_delay BPublish.inner topic]. rewrite str_text.
    destruct (splitn3 s) as [[first [d|]] [t'|]]; try done. simpl in Hs.
    by rewrite bool_decide_false.
Qed.

Lemma delayed_parse_witness :
  parse (set_topic_delay (sample_message 0) (text "$delayed/15/a/b") 0)
  = Ok (set_topic_delay (sample_message 0) (text "a/b") 15).
Proof.
  destruct (delayed_parse (sample_message 0) 15 "a/b" "x" InvalidDigit) as [Hp _];
    [lia|reflexivity|reflexivity|exact Hp].
Defined.
