(* ===== verification/CircuitBreaker.v ===== *)
(** * The circuit breaker: [utils/circuit_breaker.rs]

    A breaker counts consecutive failures of an external operation and
    blocks it for a while when there are too many. The state is three
    atomics and a configuration; times are the milliseconds of
    [timestamp_millis], an argument. An operation is modelled as one step:
    what is proved holds for calls that do not overlap. *)

From stdpp Require Import prelude list.
From Stdlib Require Import ZArith Lia.
From S2P Require Import Prelude.

Local Open Scope Z_scope.

Module CircuitBreaker.
Inductive CircuitState : Type := Closed | Open | HalfOpen.

#[global] Instance CircuitState_eq_dec : EqDecision CircuitState.
Proof. solve_decision. Defined.

(** The timeout in milliseconds. *)
Record CircuitBreakerConfig : Type := mkConfig {
  enabled : bool;
  failure_threshold : Z;
  reset_timeout : Z;
  half_open_success_threshold : Z;
}.

Definition default_config : CircuitBreakerConfig := mkConfig false 5 30000 1.

(** The values of the [AtomicU8] are [CLOSED], [OPEN] and [HALF_OPEN]; only
    these are ever stored. *)
Record t : Type := mk {
  state : CircuitState;
  failure_count : Z;
  opened_at : Z;
  success_count : Z;
  config : CircuitBreakerConfig;
}.

Definition new (cfg : CircuitBreakerConfig) : t := mk Closed 0 0 0 cfg.

(** [(now - opened_at) as u64], and [as_millis() as u64]. *)
Definition elapsed_ms (now : Z) (b : t) : Z := wrap 64 (now - opened_at b).
Definition reset_ms (b : t) : Z := wrap 64 (reset_timeout (config b)).

Definition is_blocked (now : Z) (b : t) : bool * t :=
  if negb (enabled (config b)) then (false, b)
  else
    match state b with
    | Closed => (false, b)
    | HalfOpen => (false, b)
    | Open =>
        if reset_ms b <=? elapsed_ms now b
        then (false, mk HalfOpen (failure_count b) (opened_at b) 0 (config b))
        else (true, b)
    end.

(** [fetch_add(1) + 1] on [usize], as the release build computes it. *)
Definition bump (c : Z) : Z := wrap 64 (c + 1).

Definition record_success (b : t) : t :=
  match state b with
  | Closed => mk Closed 0 (opened_at b) (success_count b) (config b)
  | HalfOpen =>
      let c := bump (success_count b) in
      if half_open_success_threshold (config b) <=? c
      then mk Closed 0 (opened_at b) 0 (config b)
      else mk HalfOpen (failure_count b) (opened_at b) c (config b)
  | Open => b
  end.

Definition record_failure (now : Z) (b : t) : t :=
  match state b with
  | Closed =>
      let c := bump (failure_count b) in
      if failure_threshold (config b) <=? c
      then mk Open c now (success_count b) (config b)
      else mk Closed c (opened_at b) (success_count b) (config b)
  | HalfOpen => mk Open (failure_count b) now (success_count b) (config b)
  | Open => b
  end.

Definition reset (b : t) : t := mk Closed 0 0 0 (config b).

(** ** Runs of results *)

(** The result of a call, and the time it is recorded. *)
Inductive result : Type := Success | Failure (now : Z).

Definition record (b : t) (r : result) : t :=
  match r with Success => record_success b | Failure now => record_failure now b end.

Definition is_failure (r : result) : bool :=
  match r with Success => false | Failure _ => true end.

(** The failures at the end of a sequence of results. *)
Fixpoint trailing (c : Z) (rs : list result) : Z :=
  match rs with
  | [] => c
  | r :: rs => trailing (if is_failure r then c + 1 else 0) rs
  end.

(** Somewhere in the sequence there are [n] failures in a row. *)
Definition in_a_row (n : Z) (rs : list result) : Prop :=
  exists pre mid post, rs = pre ++ mid ++ post /\ n <= len mid /\ forallb is_failure mid = true.

(** The same, with [c] failures just before the sequence. *)
Definition in_a_row_from (n c : Z) (rs : list result) : Prop :=
  in_a_row n rs \/ exists mid post,
    rs = mid ++ post /\ n <= c + len mid /\ forallb is_failure mid = true.

Lemma in_a_row_nil n : 1 <= n -> ~ in_a_row n [].
Proof.
  intros Hn (pre & mid & post & H & Hlen & _).
  symmetry in H. apply app_eq_nil in H as [_ H]. apply app_eq_nil in H as [-> _].
  unfold len in Hlen. simpl in Hlen. lia.
Qed.

Lemma in_a_row_success n c rs :
  1 <= n -> c < n -> in_a_row_from n c (Success :: rs) <-> in_a_row_from n 0 rs.
Proof.
  intros Hn Hc. split.
  - intros [(pre & mid & post & H & Hl & Hm)|(mid & post & H & Hl & Hm)].
    + destruct pre as [|r pre]; simpl in H; simplify_eq.
      * destruct mid as [|r mid]; simpl in *; [unfold len in Hl; simpl in Hl; lia|].
        by simplify_eq.
      * left. by exists pre, mid, post.
    + destruct mid as [|r mid]; simpl in *; [unfold len in Hl; simpl in Hl; lia|]. by simplify_eq.
  - intros [(pre & mid & post & -> & Hl & Hm)|(mid & post & -> & Hl & Hm)].
    + left. by exists (Success :: pre), mid, post.
    + left. exists [Success], mid, post. split_and!; [done|lia|done].
Qed.

Lemma in_a_row_failure n c t0 rs :
  1 <= n -> 0 <= c < n ->
  in_a_row_from n c (Failure t0 :: rs) <-> n <= c + 1 \/ in_a_row_from n (c + 1) rs.
Proof.
  intros Hn Hc. split.
  - intros [(pre & mid & post & H & Hl & Hm)|(mid & post & H & Hl & Hm)].
    + destruct pre as [|r pre]; simpl in H; simplify_eq.
      * destruct mid as [|r mid]; simpl in *; [unfold len in Hl; simpl in Hl; lia|].
        simplify_eq. right. right. exists mid, post. unfold len in *. simpl in *.
        split_and!; [done|lia|done].
      * right. left. by exists pre, mid, post.
    + destruct mid as [|r mid]; simpl in *; [unfold len in Hl; simpl in Hl; lia|].
      simplify_eq. right. right. exists mid, post. unfold len in *. simpl in *.
      split_and!; [done|lia|done].
  - intros [Hb|[(pre & mid & post & -> & Hl & Hm)|(mid & post & -> & Hl & Hm)]].
    + right. exists [Failure t0], rs. done.
    + left. by exists (Failure t0 :: pre), mid, post.
    + right. exists (Failure t0 :: mid), post. unfold len in *. simpl. split_and!; [done|lia|done].
Qed.

(** ** Tripping *)

Definition threshold (cfg : CircuitBreakerConfig) : Z := Z.max 1 (failure_threshold cfg).

Lemma record_config b r : config (record b r) = config b.
Proof. destruct r; simpl; unfold record_success, record_failure; repeat case_match; done. Qed.

(** An open breaker ignores results. *)
Lemma record_open b rs : state b = Open -> foldl record b rs = b.
Proof.
  intros Ho. induction rs as [|r rs IH]; [done|]. simpl.
  replace (record b r) with b; [done|].
  destruct r; simpl; unfold record_success, record_failure; by rewrite Ho.
Qed.

(** From a closed breaker with [failure_count] failures behind it. *)
Lemma record_trips b rs :
  state b = Closed -> 0 <= failure_count b < threshold (config b) ->
  failure_threshold (config b) < 2 ^ 64 ->
  (state (foldl record b rs) = Open <->
   in_a_row_from (threshold (config b)) (failure_count b) rs) /\
  (state (foldl record b rs) = Closed \/ state (foldl record b rs) = Open).
Proof.
  assert (Ht : 1 <= threshold (config b)) by (unfold threshold; lia).
  revert b Ht. induction rs as [|r rs IH]; intros b Ht Hs Hc Hu; simpl.
  { split; [|by left]. rewrite Hs. split; [done|]. intros [H|(mid & post & H & Hl & _)].
    - by apply in_a_row_nil in H.
    - symmetry in H. apply app_eq_nil in H as [-> _]. unfold len in Hl. simpl in Hl. lia. }
  destruct r as [|now]; simpl.
  - rewrite in_a_row_success by lia. unfold record_success. rewrite Hs. apply IH; simpl; lia || done.
  - rewrite in_a_row_failure by lia. unfold record_failure. rewrite Hs.
    assert (Hb : bump (failure_count b) = failure_count b + 1).
    { unfold bump, wrap. apply Z.mod_small. unfold threshold in *. lia. }
    rewrite Hb. destruct (Z.leb_spec (failure_threshold (config b)) (failure_count b + 1)).
    + rewrite record_open by done. split; [|by right]. split; [|done].
      intros _. left. unfold threshold in *. lia.
    + destruct (IH (mk Closed (failure_count b + 1) (opened_at b) (success_count b) (config b)))
        as [Hi Hor]; simpl; [done|done|unfold threshold in *; lia|lia|].
      split; [|done]. rewrite Hi. simpl. split; [by right|].
      intros [?|?]; [unfold threshold in *; lia|done].
Qed.

(** A fresh circuit breaker trips exactly when there are enough failures
    in a row: whatever results are recorded, it is open afterwards if and
    only if somewhere among them there are [failure_threshold] consecutive
    failures (one, if the threshold is 0), and otherwise it is closed. *)
Theorem breaker_trips (cfg : CircuitBreakerConfig) (rs : list result) :
  failure_threshold cfg < 2 ^ 64 ->
  (state (foldl record (new cfg) rs) = Open <-> in_a_row (threshold cfg) rs) /\
  (state (foldl record (new cfg) rs) = Closed <-> ~ in_a_row (threshold cfg) rs).
Proof.
  intros Hu.
  assert (Ht : 1 <= threshold cfg) by (unfold threshold; lia).
  destruct (record_trips (new cfg) rs) as [Hi Hor]; simpl; [done|lia|done|].
  assert (Hf : in_a_row_from (threshold cfg) 0 rs <-> in_a_row (threshold cfg) rs).
  { split; [|by left]. intros [H|(mid & post & -> & Hl & Hm)]; [done|].
    by exists [], mid, post. }
  simpl in Hi. rewrite Hf in Hi. split; [done|]. rewrite <- Hi.
  destruct Hor as [-> | ->]; split; congruence.
Qed.

Lemma breaker_trips_witness :
  (state (foldl record (new (mkConfig true 2 1000 1)) [Failure 1; Success; Failure 2; Failure 3]) = Open
   <-> in_a_row (threshold (mkConfig true 2 1000 1)) [Failure 1; Success; Failure 2; Failure 3]) /\
  (state (foldl record (new (mkConfig true 2 1000 1)) [Failure 1; Success; Failure 2; Failure 3]) = Closed
   <-> ~ in_a_row (threshold (mkConfig true 2 1000 1)) [Failure 1; Success; Failure 2; Failure 3]).
Proof.
  apply (breaker_trips (mkConfig true 2 1000 1) [Failure 1; Success; Failure 2; Failure 3]).
  simpl. lia.
Defined.

(** ** Blocking and recovery *)

(** A call asks, at a time, whether it is blocked, or a result is recorded. *)
Inductive event : Type := Ask (now : Z) | Result (r : result).

Definition event_step (b : t) (e : event) : t :=
  match e with Ask now => (is_blocked now b).2 | Result r => record b r end.

(** The times are those of a clock that does not go back behind the opening. *)
Definition before (t0 d : Z) (e : event) : Prop :=
  match e with Ask now => t0 <= now < t0 + d | Result _ => True end.

Lemma open_stays b es :
  state b = Open -> 0 <= reset_timeout (config b) < 2 ^ 64 ->
  Forall (before (opened_at b) (reset_timeout (config b))) es -> foldl event_step b es = b.
Proof.
  intros Ho Hr Hes. induction Hes as [|e es He Hes IH]; [done|]. simpl.
  replace (event_step b e) with b; [done|]. destruct e as [now|r]; simpl in *.
  - unfold is_blocked. destruct (enabled _); [|done]. simpl. rewrite Ho.
    unfold elapsed_ms, reset_ms, wrap. rewrite !Z.mod_small by lia.
    destruct (Z.leb_spec (reset_timeout (config b)) (now - opened_at b)); [lia|done].
  - symmetry. apply (record_open b [r] Ho).
Qed.

(** The successes of a probe phase. *)
Lemma half_open_probe cfg n b :
  state b = HalfOpen -> config b = cfg -> 0 <= success_count b ->
  success_count b + Z.of_nat n < half_open_success_threshold cfg ->
  half_open_success_threshold cfg < 2 ^ 64 ->
  foldl record b (replicate n Success) =
    mk HalfOpen (failure_count b) (opened_at b) (success_count b + Z.of_nat n) cfg.
Proof.
  intros Hs <- H0. revert b Hs H0. induction n as [|n IH]; intros b Hs H0 Hn Hu; simpl.
  - rewrite Z.add_0_r, <- Hs. by destruct b.
  - unfold record_success. rewrite Hs.
    assert (Hb : bump (success_count b) = success_count b + 1).
    { unfold bump, wrap. apply Z.mod_small. lia. }
    rewrite Hb. destruct (Z.leb_spec (half_open_success_threshold (config b)) (success_count b + 1)); [lia|].
    rewrite IH by (simpl; lia || done). simpl. f_equal. lia.
Qed.

(** While the breaker is open it blocks every call until the timeout has
    passed, whatever results arrive late; the first call after that is let
    through as a probe. In the probe phase the breaker closes at the
    [half_open_success_threshold]-th success, not before, and goes back to
    blocking for a full timeout at any failure. *)
Theorem breaker_blocks_and_recovers (b : t) (es : list event) (now : Z) (n : nat) :
  enabled (config b) = true -> state b = Open ->
  0 <= reset_timeout (config b) < 2 ^ 64 ->
  1 <= half_open_success_threshold (config b) < 2 ^ 64 ->
  Forall (before (opened_at b) (reset_timeout (config b))) es ->
  opened_at b <= now < opened_at b + 2 ^ 64 ->
  let b1 := foldl event_step b es in
  (now < opened_at b + reset_timeout (config b) -> is_blocked now b1 = (true, b1)) /\
  (opened_at b + reset_timeout (config b) <= now ->
   exists b2, is_blocked now b1 = (false, b2) /\ state b2 = HalfOpen /\
     (state (foldl record b2 (replicate n Success)) =
        if half_open_success_threshold (config b) <=? Z.of_nat n then Closed else HalfOpen) /\
     (Z.of_nat n < half_open_success_threshold (config b) -> forall later,
        let b3 := record_failure later (foldl record b2 (replicate n Success)) in
        state b3 = Open /\ opened_at b3 = later)).
Proof.
  intros He Ho Hr Hh Hes Hnow b1.
  assert (Hb1 : b1 = b) by (by apply open_stays). rewrite Hb1. clear b1 Hb1.
  unfold is_blocked. rewrite He, Ho. unfold negb, elapsed_ms, reset_ms, wrap.
  rewrite !Z.mod_small by lia. split; intros Ht.
  { destruct (Z.leb_spec (reset_timeout (config b)) (now - opened_at b)); [lia|done]. }
  destruct (Z.leb_spec (reset_timeout (config b)) (now - opened_at b)); [|lia].
  eexists. split_and!; [done|done|..].
  - destruct (Z.leb_spec (half_open_success_threshold (config b)) (Z.of_nat n)) as [Hn|Hn].
    + set (k := Z.to_nat (half_open_success_threshold (config b) - 1)).
      replace n with (k + S (n - S k))%nat by (subst k; lia).
      rewrite replicate_add, foldl_app. rewrite (half_open_probe (config b) k); simpl; [|done|done|lia|subst k; lia|lia].
      unfold record_success. cbn [state success_count config].
      assert (Hb : bump (0 + Z.of_nat k) = half_open_success_threshold (config b)).
      { unfold bump, wrap. rewrite Z.mod_small; subst k; lia. }
      rewrite Hb, Z.leb_refl. generalize (n - S k)%nat. intros m.
      clear -m. induction m as [|m IH]; done.
    + rewrite (half_open_probe (config b) n); simpl; [done|done|done|lia|lia|lia].
  - intros Hn later. rewrite (half_open_probe (config b) n); simpl; [done|done|done|lia|lia|lia].
Qed.

Definition tripped : t := record_failure 1000 (new (mkConfig true 1 30000 2)).

Lemma breaker_blocks_and_recovers_witness :
  is_blocked 20000 (foldl event_step tripped [Ask 1500; Result Success; Ask 2000]) =
    (true, foldl event_step tripped [Ask 1500; Result Success; Ask 2000]).
Proof.
  apply (breaker_blocks_and_recovers tripped [Ask 1500; Result Success; Ask 2000] 20000 2);
    try reflexivity; try (by simpl; lia).
  repeat constructor; simpl; lia.
Defined.

(** A clock that goes back ends the blocking at once: the difference is
    negative, and huge as a [u64]. *)
Theorem breaker_clock_back (b : t) (now : Z) :
  enabled (config b) = true -> state b = Open ->
  0 <= reset_timeout (config b) < 2 ^ 63 -> opened_at b - 2 ^ 63 <= now < opened_at b ->
  (is_blocked now b).1 = false.
Proof.
  intros He Ho Hr Hn. unfold is_blocked. rewrite He, Ho. simpl.
  unfold elapsed_ms, reset_ms, wrap. rewrite (Z.mod_small (reset_timeout _)) by lia.
  rewrite <- (Z_mod_plus_full (now - opened_at b) 1 (2 ^ 64)), Z.mod_small by lia.
  destruct (Z.leb_spec (reset_timeout (config b)) (now - opened_at b + 1 * 2 ^ 64)); [done|lia].
Qed.
End CircuitBreaker.
