(* ===== verification/Queue.v ===== *)
(** * The bounded delivery queue: [queue.rs]

    [Queue<T>] (a mutex-protected [VecDeque] with push/pop callbacks), the
    [Sender] with its overflow policy and the [ReceiverStream] that pops an
    item per signal. The signal channel is [futures::channel::mpsc]; of it
    the model keeps the number of pending signals, and takes as a
    parameter which [try_send]s it accepts, with the documented guarantee
    that it accepts while the buffer has room.

    The first part treats each call as one step; the second splits [send]
    at its lock operations, so that several senders and the receiver
    interleave. *)

From stdpp Require Import prelude list.
From Stdlib Require Import Lia Relations.Relation_Operators.
From S2P Require Import Prelude.

Module Queue.

(** A call of a registered callback. *)
Inductive Event : Type := OnPush | OnPop.

#[global] Instance Event_eq_dec : EqDecision Event.
Proof. solve_decision. Defined.

Inductive Policy : Type := Current | Early.

Section queue.
Context {T : Type}.

(** The callbacks are opaque: [events] lists the calls made to them. *)
Record t : Type := mk {
  cap : nat;
  inner : list T;
  on_push_fn : bool;
  on_pop_fn : bool;
  events : list Event;
}.

Definition new (cap : nat) : t := mk cap [] false false [].
Definition on_push (q : t) : t := mk (cap q) (inner q) true (on_pop_fn q) (events q).
Definition on_pop (q : t) : t := mk (cap q) (inner q) (on_push_fn q) true (events q).

Definition call (registered : bool) (e : Event) (es : list Event) : list Event :=
  if registered then es ++ [e] else es.

Definition push (q : t) (v : T) : outcome T unit * t :=
  if bool_decide (cap q <= length (inner q)) then (Err v, q)
  else (Ok tt, mk (cap q) (inner q ++ [v]) (on_push_fn q) (on_pop_fn q)
                 (call (on_push_fn q) OnPush (events q))).

Definition pop (q : t) : option T * t :=
  match inner q with
  | v :: rest => (Some v, mk (cap q) rest (on_push_fn q) (on_pop_fn q)
                            (call (on_pop_fn q) OnPop (events q)))
  | [] => (None, q)
  end.

Definition capacity (q : t) : nat := cap q.
Definition len (q : t) : nat := length (inner q).
Definition is_empty (q : t) : bool := (len q =? 0)%nat.

(** ** Sender and receiver

    [(capacity as f64 * 1.5) as usize]: exact below 2^52. *)
Definition buffer (q : t) : nat := cap q * 3 / 2.

Record Chan : Type := mkChan { queue : t; signals : nat }.

Context (try_send_ok : nat -> nat -> bool).

(** [self.tx.clone().try_send(())]: a refusal is only logged. *)
Definition try_send (c : Chan) : Chan :=
  if try_send_ok (buffer (queue c)) (signals c) then mkChan (queue c) (S (signals c)) else c.

Context (policy_fn : T -> Policy).

Definition send (c : Chan) (v : T) : outcome T unit * Chan :=
  match push (queue c) v with
  | (Err v, q) =>
      match policy_fn v with
      | Current => (Err v, mkChan q (signals c))
      | Early =>
          let '(removed, q) := pop q in
          match push q v with
          | (Err v, q) => (Err v, mkChan q (signals c))
          | (_, q) =>
              match removed with
              | Some removed => (Err removed, mkChan q (signals c))
              | None => (Ok tt, mkChan q (signals c))
              end
          end
      end
  | (_, q) => (Ok tt, try_send (mkChan q (signals c)))
  end.

Definition sender_pop (c : Chan) : option T * Chan :=
  let '(v, q) := pop (queue c) in (v, mkChan q (signals c)).

(** [poll_next]: pending without a signal, otherwise one pop per signal. *)
Inductive Poll : Type := Pending | Ready (item : option T).

Definition poll_next (c : Chan) : Poll * Chan :=
  match signals c with
  | O => (Pending, c)
  | S n => let '(v, q) := pop (queue c) in (Ready v, mkChan q n)
  end.

(** [Limiter::channel]: a signal for each message already queued. *)
Fixpoint signal_times (n : nat) (c : Chan) : Chan :=
  match n with O => c | S n => try_send (signal_times n c) end.

Definition channel (q : t) : Chan := signal_times (len q) (mkChan q 0).

Inductive Op : Type := Send (v : T) | Pop | PollNext.

Definition step (c : Chan) (o : Op) : Chan :=
  match o with
  | Send v => snd (send c v)
  | Pop => snd (sender_pop c)
  | PollNext => snd (poll_next c)
  end.

(** ** Lemmas *)

Lemma push_room q v :
  length (inner q) < cap q ->
  push q v = (Ok tt, mk (cap q) (inner q ++ [v]) (on_push_fn q) (on_pop_fn q)
                       (call (on_push_fn q) OnPush (events q))).
Proof. intros H. unfold push. by rewrite bool_decide_false by lia. Qed.

Lemma push_full q v : cap q <= length (inner q) -> push q v = (Err v, q).
Proof. intros H. unfold push. by rewrite bool_decide_true by lia. Qed.

(** The number of [e] among the calls. *)
Definition calls (e : Event) (es : list Event) : nat := length (filter (fun x => x = e) es).

Lemma queue_calls_app e es es' : calls e (es ++ es') = calls e es + calls e es'.
Proof. unfold calls. by rewrite filter_app, length_app. Qed.

(** With both callbacks registered, pushes minus pops is the change in
    length. *)
Definition balanced (q0 q : t) : Prop :=
  on_push_fn q = true /\ on_pop_fn q = true /\
  length (inner q) + calls OnPop (events q) + calls OnPush (events q0) =
    length (inner q0) + calls OnPush (events q) + calls OnPop (events q0).

Lemma push_balanced q0 q v : balanced q0 q -> balanced q0 (snd (push q v)).
Proof.
  intros (H1 & H2 & H3). unfold push. case_bool_decide; [done|].
  unfold balanced. simpl. rewrite H1. simpl. rewrite !queue_calls_app, length_app. simpl.
  change (calls OnPush [OnPush]) with 1. change (calls OnPop [OnPush]) with 0.
  split_and!; [done..|lia].
Qed.

Lemma pop_balanced q0 q : balanced q0 q -> balanced q0 (snd (pop q)).
Proof.
  intros Hb. unfold pop. destruct (inner q) as [|v rest] eqn:Hi; [done|].
  destruct Hb as (H1 & H2 & H3). rewrite Hi in H3.
  unfold balanced. simpl in *. rewrite H2. simpl. rewrite !queue_calls_app.
  change (calls OnPop [OnPop]) with 1. change (calls OnPush [OnPop]) with 0.
  split_and!; [done..|lia].
Qed.

Definition bounded (q : t) : Prop := length (inner q) <= cap q.

Lemma push_bounded q v : bounded q -> bounded (snd (push q v)).
Proof.
  unfold bounded, push. intros H. case_bool_decide; simpl; [done|].
  rewrite length_app. simpl. lia.
Qed.

Lemma pop_bounded q : bounded q -> bounded (snd (pop q)).
Proof. unfold bounded, pop. destruct (inner q) eqn:Hi; simpl; rewrite ?Hi; simpl; lia. Qed.

Lemma push_cap q v : cap (snd (push q v)) = cap q.
Proof. unfold push. by case_bool_decide. Qed.

Lemma pop_cap q : cap (snd (pop q)) = cap q.
Proof. unfold pop. by destruct (inner q). Qed.

(** Every operation is a sequence of locked pushes and pops on the queue. *)
Inductive locked : t -> t -> Prop :=
| locked_refl q : locked q q
| locked_push q q' v : locked q q' -> locked q (snd (push q' v))
| locked_pop q q' : locked q q' -> locked q (snd (pop q')).

Lemma try_send_queue c : queue (try_send c) = queue c.
Proof. unfold try_send. by destruct (try_send_ok _ _). Qed.

Lemma send_locked c v : locked (queue c) (queue (snd (send c v))).
Proof.
  unfold send. destruct (push (queue c) v) as [r q] eqn:Hp.
  assert (Hq : locked (queue c) q).
  { replace q with (snd (push (queue c) v)) by (by rewrite Hp). do 2 constructor. }
  destruct r as [[]|v'| |]; simpl; try by rewrite try_send_queue.
  destruct (policy_fn v'); [done|].
  destruct (pop q) as [removed q1] eqn:Hpop.
  assert (Hq1 : locked (queue c) q1).
  { replace q1 with (snd (pop q)) by (by rewrite Hpop). by constructor. }
  destruct (push q1 v') as [r2 q2] eqn:Hp2.
  assert (Hq2 : locked (queue c) q2).
  { replace q2 with (snd (push q1 v')) by (by rewrite Hp2). by constructor. }
  by destruct r2, removed.
Qed.

Lemma step_locked c o : locked (queue c) (queue (step c o)).
Proof.
  destruct o; simpl; [apply send_locked|..].
  - unfold sender_pop. destruct (pop (queue c)) as [v q] eqn:Hp. simpl.
    replace q with (snd (pop (queue c))) by (by rewrite Hp). do 2 constructor.
  - unfold poll_next. destruct (signals c); [constructor|].
    destruct (pop (queue c)) as [v q] eqn:Hp. simpl.
    replace q with (snd (pop (queue c))) by (by rewrite Hp). do 2 constructor.
Qed.

Lemma locked_invariant (I : t -> Prop) :
  (forall q v, I q -> I (snd (push q v))) -> (forall q, I q -> I (snd (pop q))) ->
  forall q q', locked q q' -> I q -> I q'.
Proof. intros Hpush Hpop q q' H Hq. induction H; auto. Qed.

Lemma run_invariant (I : t -> Prop) :
  (forall q v, I q -> I (snd (push q v))) -> (forall q, I q -> I (snd (pop q))) ->
  forall ops c, I (queue c) -> I (queue (foldl step c ops)).
Proof.
  intros Hpush Hpop ops. induction ops as [|o ops IH]; intros c Hc; simpl; [done|].
  apply IH. eapply locked_invariant; [done..|apply step_locked|done].
Qed.

(** ** Properties, calls taken as single steps *)

(** What [send] does, on every branch: with room the message goes to
    the back; a full queue refuses it under [Current], and under [Early]
    gives up its oldest message, handed back to the caller; a queue of
    capacity zero refuses everything. *)
Theorem send_spec (c : Chan) (v : T) :
  bounded (queue c) ->
  let q := inner (queue c) in
  let '(r, c') := send c v in
  match decide (length q < cap (queue c)), policy_fn v, q with
  | left _, _, _ => r = Ok tt /\ inner (queue c') = q ++ [v]
  | right _, Current, _ => r = Err v /\ inner (queue c') = q /\ signals c' = signals c
  | right _, Early, oldest :: q' =>
      r = Err oldest /\ inner (queue c') = q' ++ [v] /\ signals c' = signals c
  | right _, Early, [] => r = Err v /\ inner (queue c') = [] /\ signals c' = signals c
  end.
Proof.
  intros Hb q. subst q. unfold send. destruct (decide (length (inner (queue c)) < cap (queue c))).
  - rewrite push_room by done. simpl. by rewrite try_send_queue.
  - rewrite push_full by lia. destruct (policy_fn v); [done|].
    destruct c as [[cp i pf qf es] s]. unfold pop, bounded in *. simpl in *.
    destruct i as [|x i]; simpl in *; [by rewrite push_full by (simpl; lia)|].
    by rewrite push_room by (simpl; lia).
Qed.

(** C30. The queue never exceeds its capacity, and the callbacks balance:
    after any sequence of sends, pops and polls, the calls of the push
    callback minus those of the pop callback is the change in length. *)
Theorem queue_bounded_and_balanced (c : Chan) (ops : list Op) :
  bounded (queue c) -> on_push_fn (queue c) = true -> on_pop_fn (queue c) = true ->
  bounded (queue (foldl step c ops)) /\ balanced (queue c) (queue (foldl step c ops)).
Proof.
  intros Hb H1 H2. split.
  - apply run_invariant; [apply push_bounded|apply pop_bounded|done].
  - apply run_invariant; [apply push_balanced|apply pop_balanced|].
    split_and!; [done..|lia].
Qed.

Section signals.
Hypothesis accepts_with_room : forall buf n, n < buf -> try_send_ok buf n = true.

Definition signalled (c : Chan) : Prop :=
  length (inner (queue c)) <= signals c /\ bounded (queue c).

Lemma buffer_ge q : cap q <= buffer q.
Proof. unfold buffer. apply Nat.div_le_lower_bound; lia. Qed.

Lemma try_send_enough q n :
  length (inner q) <= S n -> bounded q -> signalled (try_send (mkChan q n)).
Proof.
  intros Hl Hb. unfold try_send. simpl.
  destruct (decide (n < buffer q)) as [Hlt|Hge].
  - rewrite accepts_with_room by done. by split.
  - pose proof (buffer_ge q). unfold bounded in Hb.
    destruct (try_send_ok (buffer q) n); split; simpl; unfold bounded; lia.
Qed.

Lemma send_signalled c v : signalled c -> signalled (snd (send c v)).
Proof.
  intros [Hs Hb]. unfold send.
  destruct (decide (length (inner (queue c)) < cap (queue c))).
  - rewrite push_room by done. apply try_send_enough; [|unfold bounded];
      simpl; rewrite length_app; simpl; lia.
  - rewrite push_full by lia. destruct (policy_fn v); [by split|].
    destruct c as [[cp i pf qf es] s]. unfold signalled, bounded, pop in *. simpl in *.
    destruct i as [|x i]; simpl in *; [by rewrite push_full by (simpl; lia)|].
    rewrite push_room by (simpl; lia). simpl. rewrite length_app. simpl. lia.
Qed.

Lemma step_signalled c o : signalled c -> signalled (step c o).
Proof.
  destruct o; simpl; [apply send_signalled|..]; intros [Hs Hb];
    destruct c as [[cp i pf qf es] s]; unfold signalled, bounded, sender_pop, poll_next, pop in *;
    simpl in *.
  - destruct i; simpl in *; lia.
  - destruct s; simpl; [done|]. destruct i; simpl in *; lia.
Qed.

(** C31. No lost wake-up: from a channel opened on any queue within its
    capacity, after any sequence of complete calls, there are at least as
    many pending signals as queued messages; so while a message waits the
    receiver is not pending, and the next poll delivers the oldest. *)
Theorem queue_no_lost_wakeup (q : t) (ops : list Op) :
  bounded q ->
  let c := foldl step (channel q) ops in
  length (inner (queue c)) <= signals c /\
  match inner (queue c) with
  | oldest :: rest =>
      fst (poll_next c) = Ready (Some oldest) /\ inner (queue (snd (poll_next c))) = rest
  | [] => True
  end.
Proof.
  intros Hb c.
  assert (Hch : forall n, signals (signal_times n (mkChan q 0)) <= n /\
            queue (signal_times n (mkChan q 0)) = q /\
            Nat.min n (buffer q) <= signals (signal_times n (mkChan q 0))).
  { induction n as [|n (IH1 & IH2 & IH3)]; cbn [signal_times signals queue];
      [split_and!; done || lia|].
    rewrite try_send_queue, IH2. unfold try_send. rewrite IH2.
    destruct (decide (signals (signal_times n (mkChan q 0)) < buffer q)).
    - rewrite accepts_with_room by done. cbn [signals]. split_and!; done || lia.
    - destruct (try_send_ok _ _); cbn [signals]; split_and!; done || lia. }
  assert (Hc0 : signalled (channel q)).
  { unfold channel, len. destruct (Hch (length (inner q))) as (_ & Hq & Hm).
    split; rewrite ?Hq; [|done]. pose proof (buffer_ge q). unfold bounded in Hb. lia. }
  assert (Hc : signalled c).
  { subst c. clear -Hc0 accepts_with_room. generalize dependent (channel q).
    induction ops as [|o ops IH]; intros c Hc; simpl; [done|]. by apply IH, step_signalled. }
  destruct Hc as [Hs _]. split; [done|]. unfold poll_next, pop.
  destruct (inner (queue c)) as [|x rest] eqn:Hi; [done|]. simpl in Hs.
  by destruct (signals c); [lia|].
Qed.
End signals.
End queue.
Arguments t T : clear implicits.
Arguments Chan T : clear implicits.
Arguments Op T : clear implicits.

(** The refusals of [futures::mpsc]: a cloned sender has one extra slot, so
    it accepts up to and including a full buffer. *)
Definition mpsc_try_send_ok (buf n : nat) : bool := n <=? buf.

Lemma send_spec_witness :
  send mpsc_try_send_ok (fun _ => Early) (mkChan (mk 2 [1; 2] true true []) 2) 3 =
    (Err 1, mkChan (mk 2 [2; 3] true true [OnPop; OnPush]) 2) /\
  let c := mkChan (mk 2 [1; 2] true true []) 2 in
  let '(r, c') := send mpsc_try_send_ok (fun _ => Early) c 3 in
  r = Err 1 /\ inner (queue c') = [2] ++ [3] /\ signals c' = signals c.
Proof.
  split; [reflexivity|].
  apply (send_spec mpsc_try_send_ok (fun _ => Early) (mkChan (mk 2 [1; 2] true true []) 2) 3).
  unfold bounded. simpl. lia.
Defined.

Lemma queue_bounded_and_balanced_witness :
  let c := mkChan (mk 1 [7] true true []) 1 in
  let c' := foldl (step mpsc_try_send_ok (fun _ => Early)) c [Send 8; PollNext; Send 9; Send 10] in
  events (queue c') = [OnPop; OnPush; OnPop; OnPush; OnPop; OnPush] /\
  bounded (queue c') /\ balanced (queue c) (queue c').
Proof.
  split; [reflexivity|].
  apply (queue_bounded_and_balanced mpsc_try_send_ok (fun _ => Early)
           (mkChan (mk 1 [7] true true []) 1)); [unfold bounded; simpl; lia|reflexivity..].
Defined.

Lemma queue_no_lost_wakeup_witness :
  let c := foldl (step mpsc_try_send_ok (fun _ => Early))
             (channel mpsc_try_send_ok (mk 2 [7; 8] false false [])) [Send 9; PollNext; Send 10] in
  length (inner (queue c)) <= signals c /\
  fst (poll_next c) = Ready (Some 9) /\ inner (queue (snd (poll_next c))) = [10].
Proof.
  apply (queue_no_lost_wakeup mpsc_try_send_ok (fun _ => Early)
           ltac:(intros buf n Hn; apply Nat.leb_le; lia) (mk 2 [7; 8] false false [])
           [Send 9; PollNext; Send 10]).
  unfold bounded. simpl. lia.
Defined.

(** ** Interleaving

    [send] takes the queue's lock up to three times and signals outside it.
    A sender is idle or between two of those steps; the receiver's poll
    pops under the lock after taking a signal. *)

Section interleaving.
Context {T : Type} (policy_fn : T -> Policy).

Inductive Pc : Type :=
| Idle
| Signalling
| Evicting (v : T)
| Repushing (v : T).

Record Config : Type := mkConfig { shared : Chan T; senders : list Pc }.

Inductive interleave : Config -> Config -> Prop :=
| do_push c q' pcs i v :
    pcs !! i = Some Idle -> push (queue c) v = (Ok tt, q') ->
    interleave (mkConfig c pcs) (mkConfig (mkChan q' (signals c)) (<[i := Signalling]> pcs))
| do_signal c pcs i :
    pcs !! i = Some Signalling ->
    interleave (mkConfig c pcs)
      (mkConfig (mkChan (queue c) (S (signals c))) (<[i := Idle]> pcs))
| do_signal_refused c pcs i :
    pcs !! i = Some Signalling -> buffer (queue c) <= signals c ->
    interleave (mkConfig c pcs) (mkConfig c (<[i := Idle]> pcs))
| do_full_current c pcs i v :
    pcs !! i = Some Idle -> push (queue c) v = (Err v, queue c) -> policy_fn v = Current ->
    interleave (mkConfig c pcs) (mkConfig c pcs)
| do_full_early c pcs i v :
    pcs !! i = Some Idle -> push (queue c) v = (Err v, queue c) -> policy_fn v = Early ->
    interleave (mkConfig c pcs) (mkConfig c (<[i := Evicting v]> pcs))
| do_evict c q' removed pcs i v :
    pcs !! i = Some (Evicting v) -> pop (queue c) = (removed, q') ->
    interleave (mkConfig c pcs) (mkConfig (mkChan q' (signals c)) (<[i := Repushing v]> pcs))
| do_repush c r q' pcs i v :
    pcs !! i = Some (Repushing v) -> push (queue c) v = (r, q') ->
    interleave (mkConfig c pcs) (mkConfig (mkChan q' (signals c)) (<[i := Idle]> pcs))
| do_poll c n item q' pcs :
    signals c = S n -> pop (queue c) = (item, q') ->
    interleave (mkConfig c pcs) (mkConfig (mkChan q' n) pcs).

Definition reachable : Config -> Config -> Prop := clos_refl_trans_1n Config interleave.

Definition start (cap senders : nat) : Config :=
  mkConfig (mkChan (new cap) 0) (replicate senders Idle).

(** Signals that are due: one per sender between its push and its signal. *)
Definition is_signalling (p : Pc) : bool :=
  match p with Signalling => true | _ => false end.
Definition due (pcs : list Pc) : nat := length (List.filter is_signalling pcs).

Lemma due_insert pcs i p p' :
  pcs !! i = Some p ->
  due (<[i := p']> pcs) + (if is_signalling p then 1 else 0) =
    due pcs + (if is_signalling p' then 1 else 0).
Proof.
  unfold due. revert i. induction pcs as [|x pcs IH]; intros [|i] H; try done; simpl in *.
  - injection H as ->. by destruct (is_signalling p), (is_signalling p'); simpl; lia.
  - specialize (IH i H). destruct (is_signalling x); simpl; lia.
Qed.

Lemma interleave_bounded c c' :
  interleave c c' -> bounded (queue (shared c)) -> bounded (queue (shared c')).
Proof.
  intros H Hb. destruct H; simpl in *; try done;
    match goal with
    | Hp : push ?q ?v = (_, ?q') |- _ =>
        replace q' with (snd (push q v)) by (by rewrite Hp); by apply push_bounded
    | Hp : pop ?q = (_, ?q') |- _ =>
        replace q' with (snd (pop q)) by (by rewrite Hp); by apply pop_bounded
    end.
Qed.

(** Capacity under concurrency: however the lock operations of several
    senders and the receiver interleave, the queue stays within its
    capacity. *)
Theorem interleaved_bounded (n senders : nat) (c : Config) :
  reachable (start n senders) c -> bounded (queue (shared c)).
Proof.
  assert (H0 : bounded (queue (shared (start n senders)))) by (unfold bounded; simpl; lia).
  intros H. induction H as [|x y z Hxy _ IH]; [done|]. apply IH. by eapply interleave_bounded.
Qed.

Definition no_eviction (c : Config) : Prop :=
  forall i v, senders c !! i <> Some (Evicting v) /\ senders c !! i <> Some (Repushing v).

Definition due_ok (c : Config) : Prop :=
  length (inner (queue (shared c))) <= signals (shared c) + due (senders c) /\
  bounded (queue (shared c)) /\ no_eviction c.

Lemma insert_no_eviction (pcs : list Pc) (i : nat) p (j : nat) v :
  p <> Evicting v -> p <> Repushing v ->
  pcs !! j <> Some (Evicting v) /\ pcs !! j <> Some (Repushing v) ->
  <[i := p]> pcs !! j <> Some (Evicting v) /\ <[i := p]> pcs !! j <> Some (Repushing v).
Proof.
  intros H1 H2 [H3 H4]. split; intros [(_ & Hp & _)|[_ Hl]]%list_lookup_insert_Some; done.
Qed.

Lemma interleave_due c c' :
  (forall v, policy_fn v = Current) -> interleave c c' -> due_ok c -> due_ok c'.
Proof.
  intros Hpol H (Hd & Hb & Hn). pose proof (interleave_bounded _ _ H Hb) as Hb'.
  destruct H as [c q' pcs i v Hi Hp|c pcs i Hi|c pcs i Hi Hf|c pcs i v Hi Hp Hv
    |c pcs i v Hi Hp Hv|c q' r pcs i v Hi Hp|c r q' pcs i v Hi Hp|c n it q' pcs Hs Hp];
    unfold due_ok; simpl in *.
  - split_and!; [|done|intros j w; simpl; apply insert_no_eviction; by auto].
    pose proof (due_insert pcs i Idle Signalling Hi) as He. simpl in He.
    unfold push in Hp. case_bool_decide; [done|]. injection Hp as <-.
    simpl. rewrite length_app. simpl. lia.
  - split_and!; [|done|intros j w; simpl; apply insert_no_eviction; by auto].
    pose proof (due_insert pcs i Signalling Idle Hi) as He. simpl in He. lia.
  - split_and!; [|done|intros j w; simpl; apply insert_no_eviction; by auto].
    pose proof (buffer_ge (queue c)). unfold bounded in Hb. lia.
  - done.
  - by rewrite Hpol in Hv.
  - by destruct (Hn i v).
  - by destruct (Hn i v).
  - split_and!; [|done|done]. unfold pop in Hp.
    destruct (inner (queue c)) eqn:Hq; injection Hp as _ <-; simpl in *; rewrite ?Hq; simpl; lia.
Qed.

(** Wake-ups under concurrency: when the policy only refuses new
    messages, in every reachable state with no sender in the middle of a
    call there is a signal for every queued message. *)
Theorem interleaved_wakeup (n count : nat) (c : Config) :
  (forall v, policy_fn v = Current) ->
  reachable (start n count) c -> Forall (fun p => p = Idle) (senders c) ->
  length (inner (queue (shared c))) <= signals (shared c).
Proof.
  intros Hpol H Hidle.
  assert (Hok : due_ok c).
  { assert (H0 : due_ok (start n count)).
    { unfold due_ok, bounded. simpl. split_and!; [lia..|].
      intros j v. simpl. split; intros [? _]%lookup_replicate; done. }
    clear Hidle. induction H as [|x y z Hxy _ IH]; [done|].
    apply IH. by eapply interleave_due. }
  destruct Hok as (Hd & _ & _).
  assert (Hz : due (senders c) = 0).
  { unfold due. clear -Hidle. induction Hidle as [|p pcs -> _ IH]; [done|]. exact IH. }
  lia.
Qed.

(** Evicting is not atomic: with the [Early] policy and one sender, the
    receiver can take the signal of the evicted message between the pop and
    the push of [send], and leave the new message queued with every call
    finished and no signal to wake the receiver. *)
Theorem early_eviction_strands (a b : T) :
  policy_fn b = Early ->
  exists c, reachable (start 1 1) c /\ senders c = [Idle] /\
    inner (queue (shared c)) = [b] /\ signals (shared c) = 0.
Proof.
  intros Hb. eexists (mkConfig (mkChan (mk 1 [b] false false []) 0) [Idle]).
  split; [|done]. unfold start, new. simpl.
  eapply rt1n_trans; [by eapply (do_push _ _ _ 0 a)|]. simpl.
  eapply rt1n_trans; [by eapply (do_signal _ _ 0)|]. simpl.
  eapply rt1n_trans; [by eapply (do_full_early _ _ 0 b)|]. simpl.
  eapply rt1n_trans; [by eapply (do_evict _ _ _ _ 0 b)|]. simpl.
  eapply rt1n_trans; [by eapply do_poll|]. simpl.
  eapply rt1n_trans; [by eapply (do_repush _ _ _ _ 0 b)|]. simpl.
  apply rt1n_refl.
Qed.
End interleaving.

Lemma interleaved_bounded_witness :
  bounded (queue (shared (mkConfig (mkChan (mk 1 [5] false false []) 0) [Signalling; Idle]))).
Proof.
  apply (interleaved_bounded (fun _ : nat => Early) 1 2).
  eapply rt1n_trans; [by eapply (do_push _ _ _ _ 0 5)|]. apply rt1n_refl.
Defined.

Lemma interleaved_wakeup_witness :
  length (inner (queue (shared (mkConfig (mkChan (mk 1 [5] false false []) 1) [Idle]))))
    <= signals (shared (mkConfig (mkChan (mk 1 [5] false false []) 1) [Idle])).
Proof.
  apply (interleaved_wakeup (fun _ : nat => Current) 1 1); [done| |repeat constructor].
  eapply rt1n_trans; [by eapply (do_push _ _ _ _ 0 5)|].
  eapply rt1n_trans; [by eapply (do_signal _ _ _ 0)|]. apply rt1n_refl.
Defined.

Lemma early_eviction_strands_witness :
  exists c, reachable (fun _ : nat => Early) (start 1 1) c /\ senders c = [Idle] /\
    inner (queue (shared c)) = [2] /\ signals (shared c) = 0.
Proof. by apply (early_eviction_strands (fun _ : nat => Early) 1 2). Defined.
End Queue.
