(* ===== verification/Inflight.v ===== *)
(** * In-flight messages: [inflight.rs]

    [OutInflight] (outbound QoS 1/2 messages awaiting acknowledgement) and
    [InInflight] (inbound packet ids). The ordered map of the outbound side
    is [rust_box::dequemap::DequeBTreeMap]: the class [DequeMap] lists the
    operations the code calls and [DequeMapOk] what it relies on; the
    theorems are proved against the class, and an association list is an
    instance. The clock is an argument, in milliseconds. *)

From stdpp Require Import prelude gmap list.
From Stdlib Require Import ZArith Lia.
From S2P Require Import Prelude CodecTypes BrokerTypes.

Local Open Scope Z_scope.

(** ** The ordered map *)

Class DequeMap (V Q : Type) : Type := {
  dq_default : Q;
  dq_insert : Z -> V -> Q -> option V * Q;
  dq_remove : Z -> Q -> option V * Q;
  dq_pop_front : Q -> option (Z * V) * Q;
  dq_front : Q -> option (Z * V);
  dq_get : Z -> Q -> option V;
  dq_contains_key : Z -> Q -> bool;
  dq_len : Q -> Z;
  dq_iter : Q -> list (Z * V);
  (** [get_mut], with what is done through the reference. *)
  dq_get_mut : Z -> (V -> V) -> Q -> Q;
}.

(** The entries in insertion order, keys unique. Where a key that is
    present is inserted again its value is replaced; whether it also moves
    is left open. *)
Class DequeMapOk (V Q : Type) `{DequeMap V Q} : Prop := {
  dq_nodup q : NoDup (dq_iter q).*1;
  dq_default_iter : dq_iter dq_default = [];
  dq_get_spec k v q : dq_get k q = Some v <-> (k, v) ∈ dq_iter q;
  dq_contains_spec k q : dq_contains_key k q = true <-> k ∈ (dq_iter q).*1;
  dq_len_spec q : dq_len q = Z.of_nat (length (dq_iter q));
  dq_front_spec q : dq_front q = head (dq_iter q);
  dq_pop_front_spec q :
    (dq_pop_front q).1 = head (dq_iter q) /\ dq_iter (dq_pop_front q).2 = tail (dq_iter q);
  dq_insert_fresh k v q : k ∉ (dq_iter q).*1 ->
    (dq_insert k v q).1 = None /\ dq_iter (dq_insert k v q).2 = dq_iter q ++ [(k, v)];
  dq_insert_old k v old q : dq_get k q = Some old ->
    (dq_insert k v q).1 = Some old /\
    length (dq_iter (dq_insert k v q).2) = length (dq_iter q) /\
    (forall k' v', (k', v') ∈ dq_iter (dq_insert k v q).2 <->
       (k' = k /\ v' = v) \/ (k' <> k /\ (k', v') ∈ dq_iter q));
  dq_remove_spec k q :
    (dq_remove k q).1 = dq_get k q /\
    dq_iter (dq_remove k q).2 = filter (fun e => e.1 <> k) (dq_iter q);
  dq_get_mut_spec k f q :
    dq_iter (dq_get_mut k f q) =
      (fun e => if bool_decide (e.1 = k) then (e.1, f e.2) else e) <$> dq_iter q;
}.

(** ** Outbound messages *)

Inductive MomentStatus : Type := UnAck | UnReceived | UnComplete.

#[global] Instance MomentStatus_eq_dec : EqDecision MomentStatus.
Proof. solve_decision. Defined.

Record OutInflightMessage : Type := mkOutMsg {
  publish : BPublish;
  from : From;
  status : MomentStatus;
  update_time : Z;
}.

Definition OutMsg_new (now : Z) (status : MomentStatus) (from : From) (publish : BPublish)
    : OutInflightMessage := mkOutMsg publish from status now.

Definition OutMsg_update_status (now : Z) (s : MomentStatus) (m : OutInflightMessage)
    : OutInflightMessage := mkOutMsg (publish m) (from m) s now.

Definition OutMsg_timeout (now : Z) (m : OutInflightMessage) (interval_millis : Z) : bool :=
  (0 <? interval_millis) && (interval_millis <=? now - update_time m).

(** A call of a registered callback. *)
Inductive Event : Type := OnPush | OnPop.

Module OutInflight.
Section out.
Context {Q : Type} `{!DequeMap OutInflightMessage Q}.

Record t : Type := mk {
  cap : Z;
  interval : Z;
  next : Z;
  queues : Q;
  on_push_fn : bool;
  on_pop_fn : bool;
  events : list Event;
}.

Definition interval_of (retry_interval expiry_interval : Z) : Z :=
  match retry_interval, expiry_interval with
  | 0, 0 => 0
  | 0, expiry_interval => expiry_interval
  | retry_interval, 0 => retry_interval
  | retry_interval, expiry_interval => Z.min retry_interval expiry_interval
  end.

Definition new (cap retry_interval expiry_interval : Z) : t :=
  mk cap (interval_of retry_interval expiry_interval) 1 dq_default false false [].

Definition on_push (s : t) : t :=
  mk (cap s) (interval s) (next s) (queues s) true (on_pop_fn s) (events s).
Definition on_pop (s : t) : t :=
  mk (cap s) (interval s) (next s) (queues s) (on_push_fn s) true (events s).

Definition with_queues (s : t) (q : Q) (es : list Event) : t :=
  mk (cap s) (interval s) (next s) q (on_push_fn s) (on_pop_fn s) es.

Definition call (registered : bool) (e : Event) (es : list Event) : list Event :=
  if registered then es ++ [e] else es.

(** In milliseconds. *)
Definition get_timeout (now : Z) (s : t) : option Z :=
  if interval s =? 0 then None
  else match dq_front (queues s) with
       | Some (_, m) =>
           let t := interval s - (now - update_time m) in
           Some (if t <? 1 then 1 else t)
       | None => None
       end.

Definition front_timeout (now : Z) (s : t) : bool :=
  if interval s =? 0 then false
  else match dq_front (queues s) with
       | Some (_, m) => OutMsg_timeout now m (interval s)
       | None => false
       end.

Definition get (s : t) (packet_id : Z) : option OutInflightMessage := dq_get packet_id (queues s).
Definition front (s : t) : option (Z * OutInflightMessage) := dq_front (queues s).

Definition pop_front (s : t) : option OutInflightMessage * t :=
  match dq_pop_front (queues s) with
  | (Some (_, msg), q) => (Some msg, with_queues s q (call (on_pop_fn s) OnPop (events s)))
  | (None, q) => (None, with_queues s q (events s))
  end.

Definition pop_front_timeout (now : Z) (s : t) : option OutInflightMessage * t :=
  if front_timeout now s then pop_front s else (None, s).

Definition push_back (s : t) (m : OutInflightMessage) : option Z * t :=
  match BPublish.packet_id (publish m) with
  | Some packet_id =>
      let es := call (on_push_fn s) OnPush (events s) in
      let '(old, q) := dq_insert packet_id m (queues s) in
      match old with
      | Some old =>
          (BPublish.packet_id (publish old), with_queues s q (call (on_pop_fn s) OnPop es))
      | None => (None, with_queues s q es)
      end
  | None => (None, s)
  end.

Definition remove (s : t) (packet_id : Z) : option OutInflightMessage * t :=
  match dq_remove packet_id (queues s) with
  | (Some msg, q) => (Some msg, with_queues s q (call (on_pop_fn s) OnPop (events s)))
  | (None, q) => (None, with_queues s q (events s))
  end.

Definition update_status (now : Z) (s : t) (packet_id : Z) (st : MomentStatus) : t :=
  with_queues s (dq_get_mut packet_id (OutMsg_update_status now st) (queues s)) (events s).

Definition len (s : t) : Z := dq_len (queues s).
Definition is_empty (s : t) : bool := len s =? 0.
Definition exist (s : t) (packet_id : Z) : bool := dq_contains_key packet_id (queues s).

(** [(self.cap - self.queues.len()) > 0] on [usize]: the subtraction below
    zero panics with overflow checks, and wraps without. *)
Definition has_credit (overflow_checks : bool) (s : t) : outcome Empty_set bool :=
  let d := cap s - len s in
  if d <? 0 then (if overflow_checks then Panic else Ok (0 <? wrap 64 d))
  else Ok (0 <? d).

(** [next_id]: the probes of the loop, on the atomic's value. *)
Fixpoint next_id_loop (attempts : nat) (q : Q) (next : Z) : outcome unit Z * Z :=
  match attempts with
  | O => (Err tt, next)
  | S attempts =>
      let packet_id := next in
      let next := wrap 16 (next + 1) in
      if packet_id =? 0 then next_id_loop attempts q next
      else if negb (dq_contains_key packet_id q) then (Ok packet_id, next)
      else next_id_loop attempts q next
  end.

Definition next_id (s : t) : outcome unit Z * t :=
  let '(r, next) := next_id_loop (Z.to_nat U16_MAX) (queues s) (next s) in
  (r, mk (cap s) (interval s) next (queues s) (on_push_fn s) (on_pop_fn s) (events s)).

(** [to_inflight_messages]: pops until empty, one unit of fuel per pop. *)
Fixpoint drain_loop (fuel : nat) (s : t) (acc : list OutInflightMessage)
    : option (list OutInflightMessage * t) :=
  match fuel with
  | O => None
  | S fuel =>
      match pop_front s with
      | (Some msg, s) => drain_loop fuel s (acc ++ [msg])
      | (None, s) => Some (acc, s)
      end
  end.

Definition to_inflight_messages (s : t) : option (list OutInflightMessage * t) :=
  drain_loop (S (Z.to_nat (len s))) s [].

Definition clone_inflight_messages (s : t) : list OutInflightMessage :=
  (dq_iter (queues s)).*2.

(** ** Lemmas *)

Context `{!DequeMapOk OutInflightMessage Q}.

Lemma dq_keys_insert k m q :
  forall k' m', (k', m') ∈ dq_iter (dq_insert k m q).2 <->
    (k' = k /\ m' = m) \/ (k' <> k /\ (k', m') ∈ dq_iter q).
Proof.
  intros k' m'. destruct (dq_get k q) as [old|] eqn:Hg.
  - by apply (dq_insert_old k m old q).
  - assert (Hk : k ∉ (dq_iter q).*1).
    { intros ([k0 v] & -> & Hin)%list_elem_of_fmap. apply dq_get_spec in Hin. simpl in Hg.
      congruence. }
    destruct (dq_insert_fresh k m q Hk) as [_ ->].
    rewrite elem_of_app, list_elem_of_singleton. split.
    + intros [Hin|[= -> ->]]; [|by left]. right. split; [|done].
      intros ->. apply Hk. apply list_elem_of_fmap. by exists (k, m').
    + intros [[-> ->]|[_ Hin]]; [by right|by left].
Qed.

Lemma dq_insert_length k m q :
  length (dq_iter (dq_insert k m q).2) =
    match (dq_insert k m q).1 with
    | Some _ => length (dq_iter q)
    | None => S (length (dq_iter q))
    end.
Proof.
  destruct (dq_get k q) as [old|] eqn:Hg.
  - by destruct (dq_insert_old k m old q Hg) as (-> & -> & _).
  - assert (Hk : k ∉ (dq_iter q).*1).
    { intros ([k0 v] & -> & Hin)%list_elem_of_fmap. apply dq_get_spec in Hin. simpl in Hg.
      congruence. }
    destruct (dq_insert_fresh k m q Hk) as [-> ->]. rewrite length_app. simpl. lia.
Qed.

Lemma filter_key_length k (l : list (Z * OutInflightMessage)) :
  NoDup l.*1 ->
  length l = (length (filter (fun e => e.1 <> k) l)
              + (if bool_decide (k ∈ l.*1) then 1 else 0))%nat.
Proof.
  induction l as [|[k' v] l IH]; [done|]. rewrite fmap_cons.
  intros [Hni Hnd]%NoDup_cons. specialize (IH Hnd). simpl in Hni.
  destruct (decide (k' = k)) as [->|Hne].
  - rewrite filter_cons_False by (simpl; tauto). rewrite bool_decide_false in IH by done.
    rewrite bool_decide_true by apply list_elem_of_here. simpl. lia.
  - rewrite filter_cons_True by done. simpl.
    rewrite (bool_decide_ext (k ∈ k' :: l.*1) (k ∈ l.*1)); [lia|].
    rewrite elem_of_cons. naive_solver.
Qed.

Lemma dq_remove_length k q :
  length (dq_iter q) =
    (length (dq_iter (dq_remove k q).2)
     + match (dq_remove k q).1 with Some _ => 1 | None => 0 end)%nat.
Proof.
  destruct (dq_remove_spec k q) as [-> ->].
  rewrite (filter_key_length k (dq_iter q)) at 1 by apply dq_nodup. f_equal.
  destruct (dq_get k q) as [v|] eqn:Hg.
  - apply dq_get_spec in Hg. rewrite bool_decide_true; [done|].
    apply list_elem_of_fmap. by exists (k, v).
  - rewrite bool_decide_false; [done|].
    intros ([k0 v] & -> & Hin)%list_elem_of_fmap. apply dq_get_spec in Hin. simpl in Hg.
    congruence.
Qed.

(** ** Packet ids *)

Lemma wrap16_inj a i j :
  0 <= i < 65536 -> 0 <= j < 65536 -> wrap 16 (a + i) = wrap 16 (a + j) -> i = j.
Proof.
  unfold wrap. change (2 ^ 16) with 65536. intros Hi Hj H.
  pose proof (Z.div_mod (a + i) 65536). pose proof (Z.div_mod (a + j) 65536). lia.
Qed.

(** The ids probed in [n] attempts from [a]. *)
Definition probes (a : Z) (n : nat) : list Z := (fun i => wrap 16 (a + Z.of_nat i)) <$> seq 0 n.

Lemma probes_succ a n : u16 a -> probes a (S n) = a :: probes (wrap 16 (a + 1)) n.
Proof.
  intros Ha. unfold probes. simpl. f_equal.
  - unfold wrap. rewrite Z.add_0_r. by apply Z.mod_small.
  - rewrite <- fmap_S_seq, <- list_fmap_compose. apply list_fmap_ext. intros _ i _. simpl.
    unfold wrap. rewrite Zplus_mod_idemp_l. f_equal. lia.
Qed.

Lemma probes_NoDup a n : Z.of_nat n <= 65536 -> NoDup (probes a n).
Proof.
  intros Hn. apply NoDup_fmap_2_strong; [|apply NoDup_seq].
  intros i j Hi Hj H. apply elem_of_seq in Hi, Hj. apply wrap16_inj in H; lia.
Qed.

Lemma wrap16_range z : u16 (wrap 16 z).
Proof. unfold wrap, is_u. by apply Z.mod_pos_bound. Qed.

(** The loop finds the first probe that is usable, and fails only when
    none is. *)
Lemma next_id_loop_spec n q a :
  u16 a ->
  match next_id_loop n q a with
  | (Ok id, a') => id ∈ probes a n /\ id <> 0 /\ dq_contains_key id q = false /\ u16 a'
  | (Err _, a') => (forall id, id ∈ probes a n -> id = 0 \/ dq_contains_key id q = true) /\ u16 a'
  | _ => False
  end.
Proof.
  revert a. induction n as [|n IH]; intros a Ha.
  - simpl. split; [|done]. intros id Hin. by apply not_elem_of_nil in Hin.
  - rewrite probes_succ by done. cbn [next_id_loop]. specialize (IH (wrap 16 (a + 1)) (wrap16_range _)).
    assert (Hrec : (a = 0 \/ dq_contains_key a q = true) ->
      match next_id_loop n q (wrap 16 (a + 1)) with
      | (Ok id, a') => id ∈ a :: probes (wrap 16 (a + 1)) n /\ id <> 0 /\
          dq_contains_key id q = false /\ u16 a'
      | (Err _, a') => (forall id, id ∈ a :: probes (wrap 16 (a + 1)) n ->
          id = 0 \/ dq_contains_key id q = true) /\ u16 a'
      | _ => False
      end).
    { intros Hskip. destruct (next_id_loop n q (wrap 16 (a + 1))) as [[id|[]| |] a']; try done.
      - destruct IH as (? & ? & ? & ?). split_and!; try done. by right.
      - destruct IH as [IH ?]. split; [|done].
        intros id [->|Hin]%elem_of_cons; [done|by apply IH]. }
    destruct (Z.eqb_spec a 0) as [->|Hne]; [by apply Hrec; left|].
    destruct (dq_contains_key a q) eqn:Hc; simpl; [by apply Hrec; right|].
    split_and!; [apply list_elem_of_here|done|done|apply wrap16_range].
Qed.

Lemma probes_elem a n id : id ∈ probes a n -> u16 id.
Proof. intros (i & -> & _)%list_elem_of_fmap. apply wrap16_range. Qed.

Lemma filter_nonzero_length (l : list Z) :
  NoDup l -> (length l <= S (length (filter (fun x => x <> 0%Z) l)))%nat.
Proof.
  induction l as [|x l IH]; intros Hnd; [simpl; lia|].
  apply NoDup_cons in Hnd as [Hni Hnd]. destruct (decide (x = 0)) as [->|Hne].
  - rewrite filter_cons_False by tauto. simpl. apply le_n_S.
    clear IH. induction l as [|y l IH]; [done|].
    apply NoDup_cons in Hnd as [_ Hnd]. apply not_elem_of_cons in Hni as [Hy Hni].
    rewrite filter_cons_True by congruence. simpl. apply le_n_S. by apply IH.
  - rewrite filter_cons_True by done. specialize (IH Hnd). simpl. lia.
Qed.

Lemma attempts_exist : exists n, Z.to_nat U16_MAX = n /\ Z.of_nat n = 65535.
Proof. eexists. split; [reflexivity|]. rewrite Z2Nat.id; [reflexivity|]. unfold U16_MAX. lia. Qed.

Lemma next_id_ok (s : t) :
  u16 (next s) -> len s < 65534 ->
  exists id s', next_id s = (Ok id, s') /\ 1 <= id <= U16_MAX /\ exist s id = false /\
    queues s' = queues s /\ u16 (next s').
Proof.
  intros Hn Hlen. unfold next_id. destruct attempts_exist as (n & -> & Hatt).
  pose proof (next_id_loop_spec n (queues s) (next s) Hn) as Hspec.
  destruct (next_id_loop _ _ _) as [[id|[]| |] a']; try done.
  - destruct Hspec as (Hin & Hnz & Hc & Ha'). eexists _, _. split; [done|].
    apply probes_elem in Hin. unfold is_u in Hin. change (2 ^ 16) with 65536 in Hin.
    unfold U16_MAX. split_and!; [lia|lia|done|done|done..].
  - exfalso. destruct Hspec as [Hall _].
    set (l := probes (next s) n) in *.
    assert (Hnd : NoDup l) by (apply probes_NoDup; lia).
    pose proof (filter_nonzero_length l Hnd) as Hf.
    assert (Hll : length l = n) by (unfold l, probes; by rewrite length_fmap, length_seq).
    assert (Hsub : filter (fun x => x <> 0) l ⊆+ (dq_iter (queues s)).*1).
    { apply NoDup_submseteq; [by apply NoDup_filter|].
      intros x [Hx Hin]%list_elem_of_filter. destruct (Hall x Hin) as [->|Hc]; [done|].
      by apply dq_contains_spec. }
    apply submseteq_length in Hsub. rewrite length_fmap in Hsub.
    unfold len in Hlen. rewrite dq_len_spec in Hlen. lia.
Qed.

(** A fresh packet id: while fewer than 65534 messages are in flight,
    [next_id] returns, within its 65535 probes, a packet id in
    [1, 65535] that no in-flight message uses, and changes nothing but the
    counter, which stays a [u16]. *)
Theorem next_id_fresh (s : t) :
  u16 (next s) -> len s < 65534 ->
  exists id s', next_id s = (Ok id, s') /\ 1 <= id <= U16_MAX /\ exist s id = false /\
    queues s' = queues s /\ u16 (next s').
Proof. apply next_id_ok. Qed.

(** The bound is tight, and the last id can be missed: the loop makes
    one probe less than there are [u16] values, so when the only free id is
    the one just before the counter, [next_id] fails although that id is
    free. *)
Theorem next_id_misses_last_free (s : t) :
  u16 (next s) ->
  (forall id, 1 <= id <= U16_MAX -> id <> wrap 16 (next s - 1) -> exist s id = true) ->
  fst (next_id s) = Err tt.
Proof.
  intros Hn Hall. unfold next_id. destruct attempts_exist as (n & -> & Hatt).
  pose proof (next_id_loop_spec n (queues s) (next s) Hn) as Hspec.
  destruct (next_id_loop _ _ _) as [[id|[]| |] a']; try done.
  destruct Hspec as (Hin & Hnz & Hc & _). exfalso.
  assert (Hid : u16 id) by (by eapply probes_elem). unfold is_u in Hid.
  change (2 ^ 16) with 65536 in Hid.
  unfold exist in Hall. rewrite Hall in Hc; [done|unfold U16_MAX; lia|].
  intros ->. apply list_elem_of_fmap in Hin as (i & Hi & Hseq). apply elem_of_seq in Hseq.
  replace (wrap 16 (next s - 1)) with (wrap 16 (next s + 65535)) in Hi.
  - apply wrap16_inj in Hi; lia.
  - unfold wrap. change (2 ^ 16) with 65536.
    replace (next s + 65535) with (next s - 1 + 1 * 65536) by lia. apply Z_mod_plus_full.
Qed.

(** ** Pushing, acknowledging, draining *)

Lemma push_back_get s m id :
  BPublish.packet_id (publish m) = Some id ->
  get (push_back s m).2 id = Some m /\
  (forall id', id' <> id -> get (push_back s m).2 id' = get s id').
Proof.
  intros Hid.
  assert (Hq : queues (push_back s m).2 = (dq_insert id m (queues s)).2).
  { unfold push_back. rewrite Hid. by destruct (dq_insert id m (queues s)) as [[] q]. }
  unfold get. rewrite Hq. split; [apply dq_get_spec, dq_keys_insert; by left|].
  intros id' Hne. apply option_eq. intros v. rewrite !dq_get_spec, dq_keys_insert. naive_solver.
Qed.

Lemma push_back_old s m id :
  BPublish.packet_id (publish m) = Some id ->
  (push_back s m).1 = match get s id with Some old => BPublish.packet_id (publish old) | None => None end.
Proof.
  intros Hid. unfold push_back. rewrite Hid. unfold get.
  destruct (dq_get id (queues s)) as [old|] eqn:Hg.
  - destruct (dq_insert_old id m old (queues s) Hg) as [Ho _].
    destruct (dq_insert id m (queues s)) as [o q]. simpl in Ho. by subst o.
  - assert (Hk : id ∉ (dq_iter (queues s)).*1).
    { intros ([k0 v] & -> & Hin)%list_elem_of_fmap. apply dq_get_spec in Hin. simpl in Hg.
      congruence. }
    destruct (dq_insert_fresh id m (queues s) Hk) as [Ho _].
    destruct (dq_insert id m (queues s)) as [o q]. simpl in Ho. by subst o.
Qed.

Lemma remove_get s id :
  (remove s id).1 = get s id /\ get (remove s id).2 id = None /\
  (forall id', id' <> id -> get (remove s id).2 id' = get s id').
Proof.
  assert (Hrq : queues (remove s id).2 = (dq_remove id (queues s)).2).
  { unfold remove. by destruct (dq_remove id (queues s)) as [[] q]. }
  assert (Hrel : forall id' v, (id', v) ∈ dq_iter (queues (remove s id).2) <->
            id' <> id /\ (id', v) ∈ dq_iter (queues s)).
  { intros id' v. rewrite Hrq. destruct (dq_remove_spec id (queues s)) as [_ ->].
    by rewrite list_elem_of_filter. }
  split_and!.
  - unfold remove, get. destruct (dq_remove_spec id (queues s)) as [Hr _].
    destruct (dq_remove id (queues s)) as [[] q]; simpl in *; done.
  - apply eq_None_not_Some. intros [v Hv]. unfold get in Hv. apply dq_get_spec, Hrel in Hv as [? _]. done.
  - intros id' Hne. unfold get. apply option_eq. intros v. rewrite !dq_get_spec, Hrel. naive_solver.
Qed.

Lemma update_status_get now s id st :
  (forall m, get s id = Some m -> get (update_status now s id st) id = Some (OutMsg_update_status now st m)) /\
  (get s id = None -> get (update_status now s id st) id = None) /\
  (forall id', id' <> id -> get (update_status now s id st) id' = get s id').
Proof.
  assert (Hrel : forall id' v, (id', v) ∈ dq_iter (queues (update_status now s id st)) <->
    exists v0, (id', v0) ∈ dq_iter (queues s) /\
      v = if bool_decide (id' = id) then OutMsg_update_status now st v0 else v0).
  { intros id' v. unfold update_status. simpl. rewrite dq_get_mut_spec, list_elem_of_fmap. split.
    - intros ([k v0] & Heq & Hin). simpl in Heq. exists v0. case_bool_decide; simplify_eq.
      + by rewrite bool_decide_true.
      + by rewrite bool_decide_false.
    - intros (v0 & Hin & ->). exists (id', v0). simpl. split; [|done]. by case_bool_decide. }
  unfold get. split_and!.
  - intros m Hm. apply dq_get_spec, Hrel. exists m. split; [by apply dq_get_spec|].
    by rewrite bool_decide_true.
  - intros Hn. apply eq_None_not_Some. intros [v Hv]. apply dq_get_spec, Hrel in Hv as (v0 & Hin & _).
    apply dq_get_spec in Hin. congruence.
  - intros id' Hne. apply option_eq. intros v. rewrite !dq_get_spec, Hrel.
    rewrite bool_decide_false by done. naive_solver.
Qed.

Lemma exist_get s id : exist s id = false <-> get s id = None.
Proof.
  unfold exist, get. rewrite <- not_true_iff_false, dq_contains_spec, eq_None_not_Some. split.
  - intros Hn [v Hv]. apply Hn. apply list_elem_of_fmap. exists (id, v). split; [done|]. by apply dq_get_spec.
  - intros Hn ([k v] & -> & Hin)%list_elem_of_fmap. apply Hn. exists v. by apply dq_get_spec.
Qed.

(** Tracking by packet id: a pushed message is found under its packet
    id and no other entry changes; the entry it replaces, if any, is
    reported by its id; the acknowledgement of that id hands it back and
    forgets it. *)
Theorem push_ack (s : t) (m : OutInflightMessage) (id : Z) :
  BPublish.packet_id (publish m) = Some id ->
  let s' := (push_back s m).2 in
  get s' id = Some m /\
  (forall id', id' <> id -> get s' id' = get s id') /\
  (push_back s m).1 =
    match get s id with Some old => BPublish.packet_id (publish old) | None => None end /\
  (remove s' id).1 = Some m /\
  exist (remove s' id).2 id = false /\
  (forall id', id' <> id -> get (remove s' id).2 id' = get s id').
Proof.
  intros Hid s'. destruct (push_back_get s m id Hid) as [Hget Hoth].
  destruct (remove_get s' id) as (Hr & Hn & Hro).
  split_and!; [done|done|by apply push_back_old|by rewrite Hr|by apply exist_get|].
  intros id' Hne. by rewrite Hro, Hoth.
Qed.

Lemma pop_front_iter s :
  dq_iter (queues (pop_front s).2) = tail (dq_iter (queues s)) /\
  (pop_front s).1 = snd <$> head (dq_iter (queues s)).
Proof.
  unfold pop_front. destruct (dq_pop_front_spec (queues s)) as [Hh Ht].
  destruct (dq_pop_front (queues s)) as [[[k m]|] q]; simpl in *; by rewrite <- Hh.
Qed.

Lemma drain_loop_spec fuel s acc :
  (length (dq_iter (queues s)) < fuel)%nat ->
  exists s', drain_loop fuel s acc = Some (acc ++ (dq_iter (queues s)).*2, s') /\
    dq_iter (queues s') = [].
Proof.
  revert s acc. induction fuel as [|fuel IH]; intros s acc Hf; [lia|]. simpl.
  destruct (pop_front_iter s) as [Ht Hh]. destruct (pop_front s) as [r s1]. simpl in *.
  destruct (dq_iter (queues s)) as [|[k m] rest]; simpl in *; subst r.
  - exists s1. by rewrite app_nil_r.
  - destruct (IH s1 (acc ++ [m])) as (s' & Hs' & He); [rewrite Ht; lia|].
    exists s'. split; [|done]. by rewrite Hs', Ht, <- app_assoc.
Qed.

(** Handing the window over: [to_inflight_messages] terminates, returns
    every in-flight message in the order of the window (the list
    [clone_inflight_messages] copies) and leaves the window empty. *)
Theorem to_inflight_messages_all (s : t) :
  exists s', to_inflight_messages s = Some (clone_inflight_messages s, s') /\
    is_empty s' = true.
Proof.
  destruct (drain_loop_spec (S (Z.to_nat (len s))) s []) as (s' & Hs' & He).
  - unfold len. rewrite dq_len_spec. lia.
  - exists s'. split; [done|]. unfold is_empty, len. by rewrite dq_len_spec, He.
Qed.

(** ** Any sequence of operations *)

Inductive op : Type :=
| PushBack (m : OutInflightMessage)
| PopFront
| PopFrontTimeout (now : Z)
| Remove (packet_id : Z)
| UpdateStatus (now packet_id : Z) (st : MomentStatus)
| NextId
| ToInflightMessages.

Definition step (s : t) (o : op) : t :=
  match o with
  | PushBack m => (push_back s m).2
  | PopFront => (pop_front s).2
  | PopFrontTimeout now => (pop_front_timeout now s).2
  | Remove id => (remove s id).2
  | UpdateStatus now id st => update_status now s id st
  | NextId => (next_id s).2
  | ToInflightMessages =>
      match to_inflight_messages s with Some (_, s') => s' | None => s end
  end.

(** Every entry sits under its own packet id. *)
Definition keyed (s : t) : Prop :=
  forall k m, (k, m) ∈ dq_iter (queues s) -> BPublish.packet_id (publish m) = Some k.

#[global] Instance Event_eq_dec : EqDecision Event.
Proof. solve_decision. Defined.

Definition calls (e : Event) (es : list Event) : nat := length (filter (fun x => x = e) es).

Lemma calls_app e es es' : calls e (es ++ es') = (calls e es + calls e es')%nat.
Proof. unfold calls. by rewrite filter_app, length_app. Qed.

(** With both callbacks registered: pushes minus pops is the length. *)
Definition gauge (s : t) : Prop :=
  on_push_fn s = true /\ on_pop_fn s = true /\
  calls OnPush (events s) = (calls OnPop (events s) + length (dq_iter (queues s)))%nat.

Definition inv (s : t) : Prop := keyed s /\ gauge s.

Lemma pop_front_inv s : inv s -> inv (pop_front s).2.
Proof.
  intros (Hk & H1 & H2 & H3). destruct (pop_front_iter s) as [Ht Hh]. split.
  - intros k m Hin. rewrite Ht in Hin. apply (Hk k m).
    destruct (dq_iter (queues s)); [done|]. by right.
  - unfold gauge. rewrite Ht. unfold pop_front in *.
    destruct (dq_pop_front (queues s)) as [[[k m]|] q]; simpl in *;
      destruct (dq_iter (queues s)); simpl in *; try done.
    rewrite H2. simpl. rewrite !calls_app.
    change (calls OnPop [OnPop]) with 1%nat. change (calls OnPush [OnPop]) with 0%nat.
    split_and!; [done..|lia].
Qed.

Lemma push_back_inv s m : inv s -> inv (push_back s m).2.
Proof.
  intros (Hk & H1 & H2 & H3). unfold push_back.
  destruct (BPublish.packet_id (publish m)) as [id|] eqn:Hid; [|by split].
  pose proof (dq_keys_insert id m (queues s)) as Hins.
  pose proof (dq_insert_length id m (queues s)) as Hlen.
  destruct (dq_insert id m (queues s)) as [old q]. simpl in *.
  assert (Hk' : forall k m', (k, m') ∈ dq_iter q -> BPublish.packet_id (publish m') = Some k).
  { intros k m' [[-> ->]|[_ ?]]%Hins; [done|by apply Hk]. }
  destruct old as [old|]; (split; [done|]); unfold gauge; simpl; rewrite H1, ?H2; simpl;
    rewrite Hlen, !calls_app;
    change (calls OnPush [OnPush]) with 1%nat; change (calls OnPop [OnPush]) with 0%nat;
    change (calls OnPop [OnPop]) with 1%nat; change (calls OnPush [OnPop]) with 0%nat;
    (split_and!; [done..|lia]).
Qed.

Lemma remove_inv s id : inv s -> inv (remove s id).2.
Proof.
  intros (Hk & H1 & H2 & H3). unfold remove.
  pose proof (dq_remove_length id (queues s)) as Hlen.
  destruct (dq_remove_spec id (queues s)) as [_ Hit].
  destruct (dq_remove id (queues s)) as [r q]. simpl in *.
  assert (Hk' : forall k m', (k, m') ∈ dq_iter q -> BPublish.packet_id (publish m') = Some k).
  { intros k m'. rewrite Hit, list_elem_of_filter. intros [_ ?]. by apply Hk. }
  destruct r as [m|]; (split; [done|]); unfold gauge; simpl; rewrite ?H2; simpl;
    [|split_and!; [done..|lia]]. rewrite !calls_app.
  change (calls OnPop [OnPop]) with 1%nat. change (calls OnPush [OnPop]) with 0%nat.
  split_and!; [done..|lia].
Qed.

Lemma update_status_inv now s id st : inv s -> inv (update_status now s id st).
Proof.
  intros (Hk & H1 & H2 & H3). unfold update_status. split.
  - intros k m. simpl. rewrite dq_get_mut_spec.
    intros ([k' m'] & Heq & Hin)%list_elem_of_fmap. specialize (Hk k' m' Hin).
    simpl in Heq. case_bool_decide; injection Heq as -> ->; done.
  - unfold gauge. simpl. rewrite dq_get_mut_spec, length_fmap. done.
Qed.

Lemma drain_loop_inv fuel s acc r s' :
  inv s -> drain_loop fuel s acc = Some (r, s') -> inv s'.
Proof.
  revert s acc. induction fuel as [|fuel IH]; intros s acc Hi; simpl; [done|].
  pose proof (pop_front_inv s Hi) as Hp. destruct (pop_front s) as [[m|] s1]; [by apply IH|].
  by intros [= _ <-].
Qed.

Lemma step_inv s o : inv s -> inv (step s o).
Proof.
  intros Hi. destruct o; simpl.
  - by apply push_back_inv.
  - by apply pop_front_inv.
  - unfold pop_front_timeout. destruct (front_timeout now s); [by apply pop_front_inv|done].
  - by apply remove_inv.
  - by apply update_status_inv.
  - unfold next_id. by destruct (next_id_loop _ _ _).
  - destruct (to_inflight_messages s) as [[r s']|] eqn:H; [|done].
    by eapply drain_loop_inv.
Qed.

(** C29. The window stays consistent: from a new window with both callbacks
    registered, after any sequence of operations every message sits under
    its own packet id, and the calls of the push callback minus those of
    the pop callback (the broker's [out_inflights] gauge) is the number of
    messages in flight. *)
Theorem out_inflight_consistent (c retry expiry : Z) (ops : list op) :
  let s := foldl step (on_pop (on_push (new c retry expiry))) ops in
  keyed s /\
  Z.of_nat (calls OnPush (events s)) - Z.of_nat (calls OnPop (events s)) = len s.
Proof.
  assert (Hi : inv (foldl step (on_pop (on_push (new c retry expiry))) ops)).
  { assert (H0 : inv (on_pop (on_push (new c retry expiry)))).
    { split; [|split_and!; try done; simpl; by rewrite dq_default_iter].
      intros k m. simpl. rewrite dq_default_iter. by intros ?%not_elem_of_nil. }
    revert H0. generalize (on_pop (on_push (new c retry expiry))).
    induction ops as [|o ops IH]; intros s Hs; simpl; [done|]. by apply IH, step_inv. }
  destruct Hi as (Hk & _ & _ & Hg). simpl. split; [done|].
  unfold len. rewrite dq_len_spec. lia.
Qed.

(** ** Credit and timeouts *)

(** Credit: within the window's capacity [has_credit] returns and tells
    whether a message fits. Beyond it, which [push_back] does not prevent,
    the subtraction underflows: the build with overflow checks panics and
    the release build answers that there is credit. *)
Theorem has_credit_spec (s : t) :
  0 <= cap s < 2 ^ 63 -> len s < 2 ^ 63 ->
  (len s <= cap s -> forall oc, has_credit oc s = Ok (bool_decide (len s < cap s))) /\
  (cap s < len s -> has_credit true s = Panic /\ has_credit false s = Ok true).
Proof.
  intros Hc Hl. assert (0 <= len s) by (unfold len; rewrite dq_len_spec; lia).
  unfold has_credit. split.
  - intros Hle oc. rewrite (proj2 (Z.ltb_ge (cap s - len s) 0)) by lia. f_equal.
    case_bool_decide; [apply Z.ltb_lt|apply Z.ltb_ge]; lia.
  - intros Hlt. rewrite (proj2 (Z.ltb_lt (cap s - len s) 0)) by lia.
    split; [done|]. f_equal. apply Z.ltb_lt. unfold wrap.
    replace (cap s - len s) with (cap s - len s + 2 ^ 64 + (-1) * 2 ^ 64) by lia.
    rewrite Z_mod_plus_full, Z.mod_small by lia. lia.
Qed.

(** Timers: with a non-zero interval (the smaller of the non-zero retry
    and expiry intervals) and a message in the window, [get_timeout] is the
    exact time to wait: once it has passed, [pop_front_timeout] pops the
    oldest message, and before it, unless that message was already late,
    nothing is popped. *)
Theorem get_timeout_exact (s : t) (now d : Z) :
  0 < interval s -> get_timeout now s = Some d ->
  exists k m, front s = Some (k, m) /\ 1 <= d /\
    (forall later, now + d <= later -> (pop_front_timeout later s).1 = Some m) /\
    (forall earlier, now <= earlier < now + d ->
       interval s <= now - update_time m \/ pop_front_timeout earlier s = (None, s)).
Proof.
  intros Hi. unfold get_timeout. rewrite (proj2 (Z.eqb_neq (interval s) 0)) by lia.
  unfold front, pop_front_timeout, front_timeout.
  rewrite (proj2 (Z.eqb_neq (interval s) 0)) by lia.
  destruct (pop_front_iter s) as [_ Hh]. rewrite <- dq_front_spec in Hh.
  destruct (dq_front (queues s)) as [[k m]|]; [|done]. intros [= <-].
  exists k, m. unfold OutMsg_timeout. split_and!; [done|..].
  - case_match; lia.
  - intros later Hl. rewrite (proj2 (Z.ltb_lt 0 (interval s))) by lia. simpl.
    rewrite (proj2 (Z.leb_le (interval s) (later - update_time m))); [done|].
    destruct (Z.ltb_spec (interval s - (now - update_time m)) 1); lia.
  - intros earlier He. destruct (Z.le_gt_cases (interval s) (now - update_time m)); [by left|].
    right. rewrite (proj2 (Z.leb_gt (interval s) (earlier - update_time m))).
    + by rewrite andb_false_r.
    + destruct (Z.ltb_spec (interval s - (now - update_time m)) 1); lia.
Qed.

End out.
End OutInflight.

(** ** Inbound packet ids

    [in_inflights] is the broker-wide gauge this window contributes to. *)

Module InInflight.

(** The two reasons [add] gives. *)
Inductive AddError : Type :=
| InflightWindowFull
| PacketIdInUse (pid : Z).

Record t : Type := mk {
  cached : gset Z;
  in_inflights : Counter.t;
  max_inflight : Z;
}.

Definition new (gauge : Counter.t) (max_inflight : Z) : t := mk ∅ gauge max_inflight.

(** What is left of the window when it is dropped: its gauge. *)
Definition drop (s : t) : Counter.t :=
  Counter.decs (in_inflights s) (Z.of_nat (size (cached s))).

Definition is_full (s : t) : bool := max_inflight s <=? Z.of_nat (size (cached s)).
Definition contains (s : t) (pid : Z) : bool := bool_decide (pid ∈ cached s).

Definition add (s : t) (pid : Z) (qos : QoS) : outcome AddError bool * t :=
  if max_inflight s <=? Z.of_nat (size (cached s)) then (Err InflightWindowFull, s)
  else if bool_decide (pid ∉ cached s) then
    (Ok true, mk ({[pid]} ∪ cached s) (Counter.inc (in_inflights s)) (max_inflight s))
  else if bool_decide (qos = ExactlyOnce) then (Err (PacketIdInUse pid), s)
  else (Ok false, s).

Definition remove (s : t) (pid : Z) : bool * t :=
  if bool_decide (pid ∈ cached s) then
    (true, mk (cached s ∖ {[pid]}) (Counter.dec (in_inflights s)) (max_inflight s))
  else (false, s).

Inductive op : Type := Add (pid : Z) (qos : QoS) | Remove (pid : Z).

Definition step (s : t) (o : op) : t :=
  match o with Add pid qos => (add s pid qos).2 | Remove pid => (remove s pid).2 end.

Lemma size_add pid (X : gset Z) : pid ∉ X -> size ({[pid]} ∪ X) = S (size X).
Proof. intros H. rewrite size_union, size_singleton by set_solver. done. Qed.

Lemma size_remove pid (X : gset Z) : pid ∈ X -> size X = S (size (X ∖ {[pid]})).
Proof.
  intros H. rewrite size_difference, size_singleton by set_solver.
  assert (size {[pid]} <= size X)%nat as Hle by (apply subseteq_size; set_solver).
  rewrite size_singleton in Hle. lia.
Qed.

(** The window never overfills, and the gauge has counted its content. *)
Definition inv (g0 : Z) (s : t) : Prop :=
  Z.of_nat (size (cached s)) <= max_inflight s /\
  isize (Counter.current (in_inflights s)) = isize (g0 + Z.of_nat (size (cached s))).

Lemma in_step_inv g0 s o : inv g0 s -> inv g0 (step s o) /\ max_inflight (step s o) = max_inflight s.
Proof.
  intros [Hle Hg]. destruct o as [pid qos|pid]; simpl.
  - unfold add. destruct (Z.leb_spec (max_inflight s) (Z.of_nat (size (cached s)))); [done|].
    case_bool_decide as Hn; [|by case_bool_decide]. unfold inv. simpl.
    rewrite size_add by done. split_and!; [lia| |done].
    rewrite Counter.isize_id by apply Counter.isize_range.
    rewrite <- Counter.isize_add, Hg, Counter.isize_add. f_equal. lia.
  - unfold remove. case_bool_decide as Hin; [|done]. unfold inv. simpl.
    rewrite (size_remove pid (cached s) Hin) in Hle, Hg. split_and!; [lia| |done].
    rewrite Counter.isize_id by apply Counter.isize_range.
    unfold Z.sub. rewrite <- Counter.isize_add, Hg, Counter.isize_add. f_equal. lia.
Qed.

(** The inbound window: whatever is added and removed, at most
    [max_inflight] packet ids are registered, and the broker's gauge is
    what it was plus the size of the window, so that dropping the window
    brings the gauge back exactly. *)
Theorem in_inflight_window (g : Counter.t) (maxi : Z) (ops : list op) :
  u16 maxi -> - 2 ^ 62 <= Counter.current g < 2 ^ 62 ->
  let s := foldl step (new g maxi) ops in
  Z.of_nat (size (cached s)) <= maxi /\
  isize (Counter.current (in_inflights s)) = Counter.current g + Z.of_nat (size (cached s)) /\
  Counter.current (drop s) = Counter.current g.
Proof.
  intros Hm Hg s. unfold is_u in Hm. change (2 ^ 16) with 65536 in Hm.
  assert (Hi : inv (Counter.current g) s /\ max_inflight s = maxi).
  { assert (H0 : inv (Counter.current g) (new g maxi) /\ max_inflight (new g maxi) = maxi).
    { unfold inv, new. cbn [cached in_inflights max_inflight]. rewrite size_empty, Z.add_0_r.
      split_and!; [lia|done|done]. }
    subst s. revert H0. generalize (new g maxi).
    induction ops as [|o ops IH]; intros s Hs; simpl; [done|].
    apply IH. destruct Hs as [Hs Hm']. pose proof (in_step_inv _ _ o Hs) as [Hs' Hm''].
    split; [done|]. by rewrite Hm''. }
  destruct Hi as [[Hle Hgauge] Hmax]. rewrite Hmax in Hle.
  rewrite (Counter.isize_id (Counter.current g + _)) in Hgauge by lia.
  split_and!; [done|done|]. unfold drop, Counter.decs. simpl.
  unfold Z.sub. rewrite <- Counter.isize_add, Hgauge.
  rewrite Counter.isize_id; lia.
Qed.

(** Duplicate detection: [add] on a window with room reports a packet
    id as new exactly when it is not registered; a registered id is an
    error for QoS 2 and reported as a duplicate otherwise; a full window
    refuses every id, registered or not. After a success the id is
    registered, and removing it gives the set before. *)
Theorem in_inflight_add_remove (s : t) (pid : Z) (qos : QoS) :
  let '(r, s') := add s pid qos in
  (is_full s = true -> r = Err InflightWindowFull /\ s' = s) /\
  (is_full s = false -> contains s pid = false ->
     r = Ok true /\ contains s' pid = true /\ (remove s' pid).1 = true /\
     cached (remove s' pid).2 = cached s) /\
  (is_full s = false -> contains s pid = true ->
     r = (if decide (qos = ExactlyOnce) then Err (PacketIdInUse pid) else Ok false) /\ s' = s).
Proof.
  unfold add, is_full, contains.
  destruct (max_inflight s <=? Z.of_nat (size (cached s))); [by split_and!|].
  case_bool_decide as Hn.
  - split_and!; [done| |by rewrite bool_decide_eq_true]. intros _ _. split_and!; [done|..].
    + apply bool_decide_eq_true. simpl. set_solver.
    + unfold remove. simpl. rewrite bool_decide_true by set_solver. done.
    + unfold remove. simpl. rewrite bool_decide_true by set_solver. simpl. set_solver.
  - case_bool_decide; (split_and!; [done|intros _ ?%bool_decide_eq_false; tauto|]);
      intros _ _; (split; [|done]); by destruct (decide (qos = ExactlyOnce)).
Qed.

Lemma in_inflight_window_witness :
  let s := foldl step (new (Counter.new_with 10 10 Counter.NoMerge) 2)
             [Add 5 ExactlyOnce; Add 6 AtLeastOnce; Add 7 AtLeastOnce; Remove 5] in
  size (cached s) = 1%nat /\
  Z.of_nat (size (cached s)) <= 2 /\
  isize (Counter.current (in_inflights s)) = 10 + Z.of_nat (size (cached s)) /\
  Counter.current (drop s) = 10.
Proof.
  split; [vm_compute; reflexivity|].
  apply (in_inflight_window (Counter.new_with 10 10 Counter.NoMerge) 2
           [Add 5 ExactlyOnce; Add 6 AtLeastOnce; Add 7 AtLeastOnce; Remove 5]);
    [vm_compute; split; congruence|simpl; lia].
Defined.
End InInflight.

(** ** An implementation of the ordered map: an association list *)

Module AssocDeque.
Section assoc.
Context {V : Type}.

Abbreviation A := (list (Z * V)).

Fixpoint get (k : Z) (q : A) : option V :=
  match q with
  | [] => None
  | (k', v) :: q => if decide (k' = k) then Some v else get k q
  end.

Fixpoint replace (k : Z) (v : V) (q : A) : A :=
  match q with
  | [] => []
  | (k', v') :: q => if decide (k' = k) then (k, v) :: q else (k', v') :: replace k v q
  end.

(** The keys are unique by construction. *)
Record t : Type := mk { entries : A; unique : bool_decide (NoDup entries.*1) = true }.

Lemma nodup (q : t) : NoDup (entries q).*1.
Proof. eapply bool_decide_eq_true_1, unique. Qed.

Definition make (q : A) (H : NoDup q.*1) : t := mk q (bool_decide_eq_true_2 _ H).

Lemma get_elem k v (q : A) : NoDup q.*1 -> get k q = Some v <-> (k, v) ∈ q.
Proof.
  induction q as [|[k' v'] q IH]; simpl; intros Hnd;
    [split; [done|by intros ?%not_elem_of_nil]|].
  apply NoDup_cons in Hnd as [Hni Hnd]. rewrite elem_of_cons.
  destruct (decide (k' = k)) as [->|Hne].
  - split; [intros [= ->]; by left|]. intros [[= ->]|Hin]; [done|].
    destruct Hni. apply list_elem_of_fmap. by exists (k, v).
  - rewrite IH by done. split; [by right|]. intros [[= -> ->]|?]; done.
Qed.

Lemma get_none k (q : A) : get k q = None <-> k ∉ q.*1.
Proof.
  induction q as [|[k' v'] q IH]; simpl; [split; [intros _; apply not_elem_of_nil|done]|].
  rewrite not_elem_of_cons. destruct (decide (k' = k)) as [->|Hne]; [naive_solver|].
  rewrite IH. naive_solver.
Qed.

Lemma replace_keys k v (q : A) : (replace k v q).*1 = q.*1.
Proof.
  induction q as [|[k' v'] q IH]; [done|]. cbn [replace].
  destruct (decide (k' = k)) as [->|]; [done|]. by rewrite !fmap_cons, IH.
Qed.

Lemma replace_elem k v (q : A) k' v' :
  NoDup q.*1 -> k ∈ q.*1 ->
  (k', v') ∈ replace k v q <-> (k' = k /\ v' = v) \/ (k' <> k /\ (k', v') ∈ q).
Proof.
  induction q as [|[k0 v0] q IH]; simpl; [by intros _ ?%not_elem_of_nil|].
  intros [Hni Hnd]%NoDup_cons Hin. destruct (decide (k0 = k)) as [->|Hne].
  - rewrite !elem_of_cons. split.
    + intros [[= -> ->]|Hq]; [by left|]. right. split; [|by right].
      intros ->. destruct Hni. apply list_elem_of_fmap. by exists (k, v').
    + intros [[-> ->]|[? [[= -> ->]|?]]]; [by left|done|by right].
  - apply elem_of_cons in Hin as [->|Hin]; [done|]. rewrite !elem_of_cons, IH by done.
    naive_solver.
Qed.

Lemma insert_nodup k v (q : A) :
  NoDup q.*1 ->
  NoDup (match get k q with Some _ => replace k v q | None => q ++ [(k, v)] end).*1.
Proof.
  intros Hnd. destruct (get k q) eqn:Hg; [by rewrite replace_keys|].
  apply get_none in Hg. rewrite fmap_app. apply NoDup_app. split_and!; [done| |apply NoDup_singleton].
  intros x Hx ->%list_elem_of_singleton. done.
Qed.

Lemma filter_nodup k (q : A) : NoDup q.*1 -> NoDup (filter (fun e => e.1 <> k) q).*1.
Proof.
  intros Hnd. induction q as [|[k' v] q IH]; [done|].
  apply NoDup_cons in Hnd as [Hni Hnd]. destruct (decide (k' = k)) as [->|Hne].
  - rewrite filter_cons_False by (simpl; tauto). by apply IH.
  - rewrite filter_cons_True by done. rewrite fmap_cons. apply NoDup_cons. split; [|by apply IH].
    intros ([k0 v0] & Hk & [_ Hin]%list_elem_of_filter)%list_elem_of_fmap.
    apply Hni, list_elem_of_fmap. by exists (k0, v0).
Qed.

Definition update (k : Z) (f : V -> V) (q : A) : A :=
  (fun e => if bool_decide (e.1 = k) then (e.1, f e.2) else e) <$> q.

Lemma update_keys k f (q : A) : (update k f q).*1 = q.*1.
Proof.
  unfold update. rewrite <- list_fmap_compose. apply list_fmap_ext. intros _ [k' v] _. simpl.
  by case_bool_decide.
Qed.

Lemma tail_nodup (q : A) : NoDup q.*1 -> NoDup (tail q).*1.
Proof. destruct q; [done|]. by intros [_ ?]%NoDup_cons. Qed.

#[global] Instance assoc_deque : DequeMap V t := {
  dq_default := make [] (NoDup_nil_2);
  dq_insert k v q := (get k (entries q), make _ (insert_nodup k v (entries q) (nodup q)));
  dq_remove k q := (get k (entries q), make _ (filter_nodup k (entries q) (nodup q)));
  dq_pop_front q := (head (entries q), make _ (tail_nodup (entries q) (nodup q)));
  dq_front q := head (entries q);
  dq_get k q := get k (entries q);
  dq_contains_key k q := bool_decide (k ∈ (entries q).*1);
  dq_len q := Z.of_nat (length (entries q));
  dq_iter q := entries q;
  dq_get_mut k f q :=
    make (update k f (entries q)) (eq_ind_r NoDup (nodup q) (update_keys k f (entries q)));
}.

#[global] Instance assoc_deque_ok : DequeMapOk V t.
Proof.
  split; simpl; try done.
  - apply nodup.
  - intros k v q. apply get_elem, nodup.
  - intros k q. apply bool_decide_eq_true.
  - intros k v q Hk. apply get_none in Hk. by rewrite Hk.
  - intros k v old q Hg. rewrite Hg. split_and!; [done|..].
    + rewrite <- (length_fmap fst), replace_keys. apply length_fmap.
    + intros k' v'. apply replace_elem; [apply nodup|].
      apply get_elem in Hg; [|apply nodup]. apply list_elem_of_fmap. by exists (k, old).
Qed.
End assoc.
Arguments t V : clear implicits.
End AssocDeque.

(** ** Witnesses on the association list *)

Module InflightWitnesses.
Import OutInflight.

Definition msg (id : Z) : OutInflightMessage :=
  OutMsg_new 1000 UnAck (mkFrom Custom (Id_from 0 1 [99]))
    (BPublish.from (mkPublish false false AtLeastOnce [97] (Some id) [] None)).

Abbreviation W := (AssocDeque.t OutInflightMessage).

Definition empty : t (Q := W) := on_pop (on_push (new 2 20000 0)).
Definition window : t (Q := W) := foldl step empty [PushBack (msg 1); PushBack (msg 2)].

Lemma out_inflight_consistent_witness :
  let s := foldl step empty
    [PushBack (msg 1); PushBack (msg 2); UpdateStatus 5 1 UnComplete; Remove 2] in
  keyed s /\ len s = 1 /\
  Z.of_nat (calls OnPush (events s)) - Z.of_nat (calls OnPop (events s)) = len s.
Proof.
  destruct (out_inflight_consistent (Q := W) 2 20000 0
    [PushBack (msg 1); PushBack (msg 2); UpdateStatus 5 1 UnComplete; Remove 2]) as [Hk Hg].
  split; [exact Hk|]. split; [reflexivity|exact Hg].
Defined.

Lemma to_inflight_messages_all_witness :
  length (clone_inflight_messages window) = 2%nat /\
  exists s', to_inflight_messages window = Some (clone_inflight_messages window, s') /\
    is_empty s' = true.
Proof. split; [reflexivity|]. exact (to_inflight_messages_all window). Defined.

Lemma next_id_fresh_witness :
  exists id s', next_id window = (Ok id, s') /\ 1 <= id <= U16_MAX /\
    exist window id = false /\ queues s' = queues window /\ u16 (next s').
Proof. apply (next_id_fresh window); vm_compute; [split; congruence|reflexivity]. Defined.

(** All the ids but the last one in use, and the counter wrapped to zero. *)
Definition crowded_entries : list (Z * OutInflightMessage) :=
  (fun i => (Z.of_nat i, msg (Z.of_nat i))) <$> seq 1 (Z.to_nat 65534).

Lemma crowded_keys : crowded_entries.*1 = Z.of_nat <$> seq 1 (Z.to_nat 65534).
Proof. unfold crowded_entries. by rewrite <- list_fmap_compose. Qed.

Lemma crowded_nodup : NoDup crowded_entries.*1.
Proof. rewrite crowded_keys. apply NoDup_fmap_2; [apply _|apply NoDup_seq]. Qed.

Definition crowded : t (Q := W) :=
  mk 65535 0 0 (AssocDeque.make crowded_entries crowded_nodup) false false [].

Lemma crowded_elem id : id ∈ crowded_entries.*1 <-> 1 <= id <= 65534.
Proof.
  rewrite crowded_keys, list_elem_of_fmap.
  assert (Hn : Z.of_nat (Z.to_nat 65534) = 65534) by (apply Z2Nat.id; lia).
  revert Hn. generalize (Z.to_nat 65534). intros n Hn. split.
  - intros (i & -> & Hi). apply elem_of_seq in Hi. lia.
  - intros Hid. exists (Z.to_nat id). split; [lia|]. apply elem_of_seq. lia.
Qed.

Lemma next_id_misses_last_free_witness :
  exist crowded 65535 = false /\ fst (next_id crowded) = Err tt.
Proof.
  split.
  - apply bool_decide_eq_false. intros H. apply crowded_elem in H. lia.
  - apply (next_id_misses_last_free crowded).
    + cbn [next crowded]. split; lia.
    + intros id Hid Hne. apply bool_decide_eq_true. apply crowded_elem.
      cbn [next crowded] in Hne. change (wrap 16 (0 - 1)) with 65535 in Hne.
      unfold U16_MAX in Hid. lia.
Defined.

Lemma push_ack_witness :
  let s' := (push_back window (msg 3)).2 in
  get s' 3 = Some (msg 3) /\
  (forall id', id' <> 3 -> get s' id' = get window id') /\
  (push_back window (msg 3)).1 =
    match get window 3 with Some old => BPublish.packet_id (publish old) | None => None end /\
  (remove s' 3).1 = Some (msg 3) /\
  exist (remove s' 3).2 3 = false /\
  (forall id', id' <> 3 -> get (remove s' 3).2 id' = get window id').
Proof. apply (push_ack window (msg 3) 3). reflexivity. Defined.

(** A third message in a window of two. *)
Lemma has_credit_spec_witness :
  let s := (push_back window (msg 3)).2 in
  cap s < len s /\
  (len s <= cap s -> forall oc, has_credit oc s = Ok (bool_decide (len s < cap s))) /\
  (cap s < len s -> has_credit true s = Panic /\ has_credit false s = Ok true).
Proof.
  split; [vm_compute; reflexivity|].
  apply (has_credit_spec (push_back window (msg 3)).2); vm_compute; [split; congruence|done].
Defined.

Lemma get_timeout_exact_witness :
  exists k m, front window = Some (k, m) /\ 1 <= 15000 /\
    (forall later, 6000 + 15000 <= later -> (pop_front_timeout later window).1 = Some m) /\
    (forall earlier, 6000 <= earlier < 6000 + 15000 ->
       interval window <= 6000 - update_time m \/ pop_front_timeout earlier window = (None, window)).
Proof. apply (get_timeout_exact window 6000 15000); [vm_compute|]; reflexivity. Defined.
End InflightWitnesses.
