(* ===== verification/Session.v ===== *)
(** * Sessions: state, messages and effects ([session.rs], [types.rs])

    The state of a connected client ([SessionState]), the messages of its
    mailbox, the monad its handlers run in, and the class [Broker] of what
    they ask of the rest of the broker: the clock, the hooks, the network,
    forwarding and subscribing. The state of the rest is a type [W] the
    session does not look into. What a handler does to the outside is also
    written to a trace, which the theorems are about. *)

From stdpp Require Import prelude list strings gmap.
From Stdlib Require Import ZArith Lia.
From S2P Require Import Prelude CodecTypes CodecUtils CodecV3 CodecV5Types Topic BrokerTypes Subscription Queue Inflight Connection Fitter TopicAlias Delayed.

Local Open Scope Z_scope.

(** ** Packets and subscriptions *)

Inductive Packet : Type :=
| Packet3 (p : V3.Packet)
| Packet5 (p : V5.Packet).

Record Subscribe : Type := mkSubscribe { sub_filter : string; sub_opts : SubscriptionOptions }.
Record Unsubscribe : Type := mkUnsubscribe { unsub_filter : string; unsub_group : option string }.

Record SubscribeReturn : Type := mkSubscribeReturn {
  ack_reason : SubscribeAckReason;
  prev_opts : option SubscriptionOptions;
}.

Definition SubscribeReturn_new_success (q : QoS) (prev : option SubscriptionOptions) : SubscribeReturn :=
  mkSubscribeReturn
    match q with
    | AtMostOnce => SubscribeAckReasonM.GrantedQos0
    | AtLeastOnce => SubscribeAckReasonM.GrantedQos1
    | ExactlyOnce => SubscribeAckReasonM.GrantedQos2
    end prev.

Definition SubscribeReturn_new_failure (r : SubscribeAckReason) : SubscribeReturn :=
  mkSubscribeReturn r None.

Definition SubscribeReturn_success (r : SubscribeReturn) : option QoS :=
  match ack_reason r with
  | SubscribeAckReasonM.GrantedQos0 => Some AtMostOnce
  | SubscribeAckReasonM.GrantedQos1 => Some AtLeastOnce
  | SubscribeAckReasonM.GrantedQos2 => Some ExactlyOnce
  | _ => None
  end.

Definition SubscribeReturn_failure (r : SubscribeReturn) : bool :=
  match ack_reason r with
  | SubscribeAckReasonM.GrantedQos0 | SubscribeAckReasonM.GrantedQos1
  | SubscribeAckReasonM.GrantedQos2 => false
  | _ => true
  end.

(** [Subscribe::from_v3], [Subscribe::from_v5], [Unsubscribe::from]. *)
Definition Subscribe_from_v3 (topic_filter : bytes) (q : QoS) (shared limited : bool)
    : outcome FilterError Subscribe :=
  match parse_topic_filter (str topic_filter) shared limited with
  | Ok (tf, group, limit) => Ok (mkSubscribe tf (options_of_v3 q group limit))
  | Err e => Err e | Panic => Panic | Diverged => Diverged
  end.

Definition Subscribe_from_v5 (topic_filter : bytes) (o : V5.SubscriptionOptions)
    (shared limited : bool) (sub_id : option Z) : outcome FilterError Subscribe :=
  match parse_topic_filter (str topic_filter) shared limited with
  | Ok (tf, group, limit) => Ok (mkSubscribe tf (options_of_v5 o group limit sub_id))
  | Err e => Err e | Panic => Panic | Diverged => Diverged
  end.

Definition Unsubscribe_from (topic_filter : bytes) (shared limited : bool)
    : outcome FilterError Unsubscribe :=
  match parse_topic_filter (str topic_filter) shared limited with
  | Ok (tf, group, _) => Ok (mkUnsubscribe tf group)
  | Err e => Err e | Panic => Panic | Diverged => Diverged
  end.

(** ** The mailbox *)

Record OfflineInfo : Type := mkOfflineInfo {
  oi_id : Id;
  oi_subscriptions : list (string * SubscriptionOptions);
  oi_offline_messages : list (From * BPublish);
  oi_inflight_messages : list OutInflightMessage;
  oi_created_at : Z;
}.

(** A [oneshot] reply channel is whether its other end is gone. *)
Inductive Message : Type :=
| MForward (from : From) (p : BPublish)
| MSendRerelease (m : OutInflightMessage)
| MKick (closed : bool) (by_id : Id) (clean_start is_admin : bool)
| MClosed (r : Reason)
| MSubscribe (sub : Subscribe) (closed : bool)
| MSubscribes (subs : list Subscribe) (reply : option bool)
| MUnsubscribe (unsub : Unsubscribe) (closed : bool)
| MSessionStateTransfer (info : OfflineInfo) (clean_start : bool).

(** [StateFlags]. *)
Record StateFlags : Type := mkFlags {
  fl_kicked : bool;
  fl_by_admin_kick : bool;
  fl_disconnect_received : bool;
  fl_clean_start : bool;
  fl_ping : bool;
}.

Definition no_flags : StateFlags := mkFlags false false false false false.
Definition insert_kicked (f : StateFlags) : StateFlags :=
  mkFlags true (fl_by_admin_kick f) (fl_disconnect_received f) (fl_clean_start f) (fl_ping f).
Definition insert_by_admin_kick (f : StateFlags) : StateFlags :=
  mkFlags (fl_kicked f) true (fl_disconnect_received f) (fl_clean_start f) (fl_ping f).
Definition insert_disconnect_received (f : StateFlags) : StateFlags :=
  mkFlags (fl_kicked f) (fl_by_admin_kick f) true (fl_clean_start f) (fl_ping f).
Definition insert_clean_start (f : StateFlags) : StateFlags :=
  mkFlags (fl_kicked f) (fl_by_admin_kick f) (fl_disconnect_received f) true (fl_ping f).
Definition set_ping (b : bool) (f : StateFlags) : StateFlags :=
  mkFlags (fl_kicked f) (fl_by_admin_kick f) (fl_disconnect_received f) (fl_clean_start f) b.

(** ** Effects *)

Inductive MetricKind : Type :=
| ClientPublishError | ClientPublishAuthError | ClientSubscribeError | ClientSubscribeAuthError.

Inductive Effect : Type :=
| Received (p : Packet)
| Sent (p : Packet)
| SendFailed (p : Packet)
| Forwarded (from : From) (p : BPublish) (storage : bool) (expiry : option Z)
| MessageDropped (to : option Id) (from : From) (p : BPublish) (r : Reason)
| MessageAcked (from : From) (p : BPublish)
| OfflineMessage (from : From) (p : BPublish)
| Metric (m : MetricKind)
| ClientKeepalive (ping : bool)
| SessionSubscribed (sub : Subscribe)
| SessionUnsubscribed (unsub : Unsubscribe)
| SubscribeReplied (r : outcome Error SubscribeReturn)
| SubscribesReplied (rs : list (outcome Error SubscribeReturn))
| UnsubscribeReplied (r : outcome Error unit)
| KickReplied
(** The task that sends a new subscription its retained and stored
    messages; the one that sends the stored messages of a subscription
    taken over. *)
| SpawnedSubscribeMessages (filter : string) (group : option string)
    (handling : option RetainHandling) (prev_opts_is_none : bool) (q : QoS)
| SpawnedStoredMessages (filter : string) (q : QoS) (group : option string)
| ConnectionClosed
| ClientDisconnected (r : Reason)
| OfflineInflightMessages (ms : list OutInflightMessage)
| SessionTerminated (r : Reason)
| SessionRemoved.

(** ** What a session asks of the broker

    A hook may change a message or refuse it; each may change the state of
    the broker. [forwards] is [SessionState::forwards], [send_packet] the
    network under a [Sink]. *)

Class Broker (W : Type) : Type := {
  timestamp_millis : W -> Z;
  hook_message_publish : From -> BPublish -> W -> option BPublish * W;
  hook_message_publish_check_acl : BPublish -> W -> PublishResult.t * W;
  hook_message_expiry : From -> BPublish -> W -> bool * W;
  hook_message_delivered : From -> BPublish -> W -> option BPublish * W;
  hook_client_subscribe : Subscribe -> W -> option string * W;
  hook_client_subscribe_check_acl : Subscribe -> W -> option SubscribeReturn * W;
  hook_client_unsubscribe : Unsubscribe -> W -> option string * W;
  message_mgr_enable : W -> bool;
  retain_enable : W -> bool;
  shared_subscription_supported : ListenerConfig -> W -> bool;
  forwards : From -> BPublish -> bool -> option Z -> W -> outcome Error unit * W;
  send_packet : Packet -> W -> option Error * W;
  (** The router's relations of a filter: whether the client is among them,
      and how many there are. *)
  relations_of : string -> bytes -> W -> option (bool * Z);
  session_subs_len : Id -> W -> Z;
  entry_subscribe : Id -> Subscribe -> W -> outcome Error SubscribeReturn * W;
  entry_unsubscribe : Id -> Unsubscribe -> W -> outcome Error bool * W;
  (** [router.add], the subscriptions of the session extended, and the end
      of the session: whether the entry is its own, and removing it. *)
  router_add : string -> Id -> SubscriptionOptions -> W -> outcome Error unit * W;
  session_subs_extend : Id -> list (string * SubscriptionOptions) -> W -> W;
  entry_id_same : Id -> W -> option bool;
  entry_remove_with : Id -> W -> W;
}.

(** The texts of errors and of packets, which end up in reasons. *)
Class Texts : Type := {
  error_text : Error -> bytes;
  debug_str : string -> bytes;
  topic_error_text : TopicError -> bytes;
  debug_packet : Packet -> bytes;
  reason_text : Reason -> bytes;
}.

(** ** The state *)

Section state.
Context {W Q : Type}.

Record SessionState : Type := mkState {
  st_id : Id;
  (** Whether the sink is [Sink::V5]. *)
  sink5 : bool;
  st_fitter : Fitter;
  client_topic_aliases : option ClientTopicAliases.t;
  server_topic_aliases : option ServerTopicAliases.t;
  in_inflight : InInflight.t;
  qos2_pending : list (Z * BPublish);
  out_inflight : OutInflight.t (Q := Q);
  deliver_queue : Queue.Chan (From * BPublish);
  rx : list Message;
  rx_closed : bool;
  disconnect_info : DisconnectInfo.t;
  flags : StateFlags;
  trace : list Effect;
  world : W;
}.

Definition set_client_aliases (a : option ClientTopicAliases.t) (s : SessionState) : SessionState :=
  mkState (st_id s) (sink5 s) (st_fitter s) a (server_topic_aliases s) (in_inflight s) (qos2_pending s)
    (out_inflight s) (deliver_queue s) (rx s) (rx_closed s) (disconnect_info s) (flags s) (trace s) (world s).
Definition set_server_aliases (a : option ServerTopicAliases.t) (s : SessionState) : SessionState :=
  mkState (st_id s) (sink5 s) (st_fitter s) (client_topic_aliases s) a (in_inflight s) (qos2_pending s)
    (out_inflight s) (deliver_queue s) (rx s) (rx_closed s) (disconnect_info s) (flags s) (trace s) (world s).
Definition set_in_inflight (i : InInflight.t) (s : SessionState) : SessionState :=
  mkState (st_id s) (sink5 s) (st_fitter s) (client_topic_aliases s) (server_topic_aliases s) i (qos2_pending s)
    (out_inflight s) (deliver_queue s) (rx s) (rx_closed s) (disconnect_info s) (flags s) (trace s) (world s).
Definition set_pending (l : list (Z * BPublish)) (s : SessionState) : SessionState :=
  mkState (st_id s) (sink5 s) (st_fitter s) (client_topic_aliases s) (server_topic_aliases s) (in_inflight s) l
    (out_inflight s) (deliver_queue s) (rx s) (rx_closed s) (disconnect_info s) (flags s) (trace s) (world s).
Definition set_out_inflight (o : OutInflight.t (Q := Q)) (s : SessionState) : SessionState :=
  mkState (st_id s) (sink5 s) (st_fitter s) (client_topic_aliases s) (server_topic_aliases s) (in_inflight s)
    (qos2_pending s) o (deliver_queue s) (rx s) (rx_closed s) (disconnect_info s) (flags s) (trace s) (world s).
Definition set_queue (c : Queue.Chan (From * BPublish)) (s : SessionState) : SessionState :=
  mkState (st_id s) (sink5 s) (st_fitter s) (client_topic_aliases s) (server_topic_aliases s) (in_inflight s)
    (qos2_pending s) (out_inflight s) c (rx s) (rx_closed s) (disconnect_info s) (flags s) (trace s) (world s).
Definition set_rx (l : list Message) (s : SessionState) : SessionState :=
  mkState (st_id s) (sink5 s) (st_fitter s) (client_topic_aliases s) (server_topic_aliases s) (in_inflight s)
    (qos2_pending s) (out_inflight s) (deliver_queue s) l (rx_closed s) (disconnect_info s) (flags s) (trace s) (world s).
Definition set_disconnect_info (d : DisconnectInfo.t) (s : SessionState) : SessionState :=
  mkState (st_id s) (sink5 s) (st_fitter s) (client_topic_aliases s) (server_topic_aliases s) (in_inflight s)
    (qos2_pending s) (out_inflight s) (deliver_queue s) (rx s) (rx_closed s) d (flags s) (trace s) (world s).
Definition set_flags (f : StateFlags) (s : SessionState) : SessionState :=
  mkState (st_id s) (sink5 s) (st_fitter s) (client_topic_aliases s) (server_topic_aliases s) (in_inflight s)
    (qos2_pending s) (out_inflight s) (deliver_queue s) (rx s) (rx_closed s) (disconnect_info s) f (trace s) (world s).
Definition set_trace (t : list Effect) (s : SessionState) : SessionState :=
  mkState (st_id s) (sink5 s) (st_fitter s) (client_topic_aliases s) (server_topic_aliases s) (in_inflight s)
    (qos2_pending s) (out_inflight s) (deliver_queue s) (rx s) (rx_closed s) (disconnect_info s) (flags s) t (world s).
Definition set_world (w : W) (s : SessionState) : SessionState :=
  mkState (st_id s) (sink5 s) (st_fitter s) (client_topic_aliases s) (server_topic_aliases s) (in_inflight s)
    (qos2_pending s) (out_inflight s) (deliver_queue s) (rx s) (rx_closed s) (disconnect_info s) (flags s) (trace s) w.

(** ** The monad of the handlers *)

Definition sess (E A : Type) : Type := SessionState -> outcome E A * SessionState.

Definition sret {E A} (a : A) : sess E A := fun s => (Ok a, s).
Definition sthrow {E A} (e : E) : sess E A := fun s => (Err e, s).
Definition spanic {E A} : sess E A := fun s => (Panic, s).
Definition sget {E A} (f : SessionState -> A) : sess E A := fun s => (Ok (f s), s).
Definition smodify {E} (f : SessionState -> SessionState) : sess E unit := fun s => (Ok tt, f s).
Definition slift {E A} (o : outcome E A) : sess E A := fun s => (o, s).

Definition sbind {E A B} (m : sess E A) (k : A -> sess E B) : sess E B := fun s =>
  match m s with
  | (Ok a, s') => k a s'
  | (Err e, s') => (Err e, s')
  | (Panic, s') => (Panic, s')
  | (Diverged, s') => (Diverged, s')
  end.

(** [?], where the error is converted. *)
Definition smap_err {E F A} (f : E -> F) (m : sess E A) : sess F A := fun s =>
  let '(o, s') := m s in (map_err f o, s').
Definition question {A} (m : sess Error A) : sess Reason A := smap_err Reason_from_error m.

(** The result itself, as a value. *)
Definition stry {E F A} (m : sess E A) : sess F (outcome E A) := fun s =>
  let '(o, s') := m s in
  match o with
  | Ok _ | Err _ => (Ok o, s')
  | Panic => (Panic, s')
  | Diverged => (Diverged, s')
  end.

(** A question to the broker. *)
Definition ask {E A} (f : W -> A * W) : sess E A := fun s =>
  let '(a, w) := f (world s) in (Ok a, set_world w s).
Definition ask_outcome {E A} (f : W -> outcome E A * W) : sess E A := fun s =>
  let '(o, w) := f (world s) in (o, set_world w s).

Definition emit {E} (e : Effect) : sess E unit := smodify (fun s => set_trace (trace s ++ [e]) s).
End state.
Arguments SessionState : clear implicits.
Arguments sess : clear implicits.

Declare Scope session_scope.
Delimit Scope session_scope with session.
Notation "'let!' x ':=' m 'in' k" := (sbind m (fun x => k))
  (at level 10, x pattern, m at level 100, k at level 200,
   format "'[v' 'let!'  x  ':='  m  'in' '/' k ']'") : session_scope.
Notation "m ';;;' k" := (sbind m (fun _ => k))
  (at level 199, right associativity) : session_scope.

(** ** The sink *)

Section sink.
Context {W Q : Type} `{!Broker W}.
Local Open Scope session_scope.

Definition send (p : Packet) : sess W Q Error unit :=
  let! r := ask (send_packet p) in
  match r with
  | None => emit (Sent p)
  | Some e => emit (SendFailed p) ;;; sthrow e
  end.

(** [Sink::v3_mut] and [Sink::v5_mut] are [unreachable!] on the other version. *)
Definition send3 (p : V3.Packet) : sess W Q Error unit :=
  let! five := sget sink5 in if five then spanic else send (Packet3 p).
Definition send5 (p : V5.Packet) : sess W Q Error unit :=
  let! five := sget sink5 in if five then send (Packet5 p) else spanic.

Definition ack_of (pid : Z) (r : PublishResult.t) : V5.PublishAck :=
  V5.mkPublishAck pid (PublishResult.code r) (PublishResult.properties r) (PublishResult.reason_string r).

Definition send_publish_ack (pid : Z) (r : PublishResult.t) : sess W Q Error unit :=
  let! five := sget sink5 in
  send (if five then Packet5 (V5.PPublishAck (ack_of pid r)) else Packet3 (V3.PPublishAck pid)).

Definition send_publish_received (pid : Z) (r : PublishResult.t) : sess W Q Error unit :=
  let! five := sget sink5 in
  send (if five then Packet5 (V5.PPublishReceived (ack_of pid r)) else Packet3 (V3.PPublishReceived pid)).

(** [Sink::publish]. *)
Definition sink_publish (p : BPublish) (expiry : option Z) : sess W Q Error unit :=
  let! five := sget sink5 in
  if five then
    let! sa := sget server_topic_aliases in
    let '(r, sa) := sink_publish_v5 sa (BPublish.inner p) expiry in
    smodify (set_server_aliases sa) ;;;
    let! p := slift (match r with Ok p => Ok p | Err e => match e with end | Panic => Panic | Diverged => Diverged end) in
    send (Packet5 (V5.PPublish p))
  else send (Packet3 (V3.PPublish (BPublish.inner p))).
End sink.
