(* ===== verification/Json.v ===== *)
(** * Configuration values: [serde_json::Value]

    What the access control of [acl.rs] and [builtins/] reads of them. *)

From stdpp Require Import prelude list strings.
From Stdlib Require Import ZArith.
From S2P Require Import Prelude.

Local Open Scope Z_scope.

(** ** Values *)

Inductive Json : Type :=
| JNull
| JBool (b : bool)
| JNumber (as_u64 : option Z)
| JString (s : string)
| JArray (l : list Json)
| JObject (l : list (string * Json)).

Definition json_get (k : string) (l : list (string * Json)) : option Json :=
  snd <$> List.find (fun e => bool_decide (e.1 = k)) l.
Definition as_str (j : Json) : option string := match j with JString s => Some s | _ => None end.
Definition as_bool (j : Json) : option bool := match j with JBool b => Some b | _ => None end.
Definition as_u64 (j : Json) : option Z := match j with JNumber n => n | _ => None end.

(** [to_lowercase], as far as the comparisons with ASCII words see it. *)
Definition ascii_lower (c : Ascii.ascii) : Ascii.ascii :=
  let n := Ascii.N_of_ascii c in
  if ((65 <=? n) && (n <=? 90))%N then Ascii.ascii_of_N (n + 32) else c.
Fixpoint to_lowercase (s : string) : string :=
  match s with "" => "" | String c s => String (ascii_lower c) (to_lowercase s) end.

(** ** Errors with [?] *)

Definition and_then {E A B} (o : outcome E A) (k : A -> outcome E B) : outcome E B :=
  match o with Ok a => k a | Err e => Err e | Panic => Panic | Diverged => Diverged end.

Declare Scope try_scope.
Delimit Scope try_scope with try.
Notation "'try!' x ':=' m 'in' k" := (and_then m (fun x => k))
  (at level 10, x pattern, m at level 100, k at level 200) : try_scope.

(** [ok_or_else]. *)
Definition ok_or {E A} (e : E) (o : option A) : outcome E A :=
  match o with Some a => Ok a | None => Err e end.
