(* ===== verification/Acl.v ===== *)
(** * Access control rules: [acl.rs]

    The rules that authentication attaches to a client, and how they decide
    on a SUBSCRIBE and on a PUBLISH. [HookResult] and [AuthResult], which
    the decision is wrapped in, are those of [hook.rs] and [types.rs]. *)

From stdpp Require Import prelude list strings gmap.
From Stdlib Require Import ZArith Lia.
From S2P Require Import Prelude CodecTypes CodecV3 CodecV5Types Topic BrokerTypes Subscription Connection Session Json.

Local Open Scope Z_scope.
Local Open Scope try_scope.

(** ** Strings: [str::contains] and [str::replace] of a non-empty pattern *)

Fixpoint contains (pat s : string) : bool :=
  bool_decide (is_Some (strip_prefix pat s)) ||
  match s with "" => false | String _ s => contains pat s end.

(** [skip] characters belong to the match that was just replaced. *)
Fixpoint replace_from (pat to : string) (skip : nat) (s : string) : string :=
  match s with
  | "" => ""
  | String c rest =>
      match skip with
      | S skip => replace_from pat to skip rest
      | O =>
          match strip_prefix pat s with
          | Some _ => to +:+ replace_from pat to (Nat.pred (String.length pat)) rest
          | None => String c (replace_from pat to 0 rest)
          end
      end
  end.

Definition replace (pat to s : string) : string := replace_from pat to 0 s.

(** ** Rules *)

Inductive Permission : Type := PermissionAllow | PermissionDeny.
Inductive Action : Type := ActionAll | ActionPublish | ActionSubscribe.

Definition Permission_try_from (s : string) : option Permission :=
  if bool_decide (s = "allow") then Some PermissionAllow
  else if bool_decide (s = "deny") then Some PermissionDeny else None.

Definition Action_try_from (s : string) : option Action :=
  if bool_decide (s = "all") then Some ActionAll
  else if bool_decide (s = "publish") then Some ActionPublish
  else if bool_decide (s = "subscribe") then Some ActionSubscribe else None.

(** [acl::Topic]. *)
Record AclTopic : Type := mkAclTopic { eq_topic_filter : option string; acl_topic_filter : option Topic }.

Definition is_match (t : AclTopic) (topic : string) : bool :=
  match eq_topic_filter t, acl_topic_filter t with
  | Some eq, _ => bool_decide (eq = topic)
  | None, Some tf => matches_str tf topic
  | None, None => false
  end.

Definition PLACEHOLDER_USERNAME : string := "${username}".
Definition PLACEHOLDER_CLIENTID : string := "${clientid}".

Inductive AclTopicError : Type :=
| UsernameDoesNotExist
| TopicConfigError (cfg : string)
| AclTopicError_Topic (e : TopicError).

Definition replaces (topic_cfg : string) (c : ConnectInfo) : outcome AclTopicError string :=
  let client := str (ci_client_id c) in
  match contains PLACEHOLDER_USERNAME topic_cfg, contains PLACEHOLDER_CLIENTID topic_cfg with
  | true, true =>
      match ci_username c with
      | Some u => Ok (replace PLACEHOLDER_CLIENTID client (replace PLACEHOLDER_USERNAME (str u) topic_cfg))
      | None => Err UsernameDoesNotExist
      end
  | true, false =>
      match ci_username c with
      | Some u => Ok (replace PLACEHOLDER_USERNAME (str u) topic_cfg)
      | None => Err UsernameDoesNotExist
      end
  | false, true => Ok (replace PLACEHOLDER_CLIENTID client topic_cfg)
  | false, false => Ok topic_cfg
  end.

Definition AclTopic_try_from (topic_cfg : string) (c : ConnectInfo) : outcome AclTopicError AclTopic :=
  match strip_prefix "eq " topic_cfg with
  | Some stripped =>
      match replaces stripped c with
      | Ok t => Ok (mkAclTopic (Some t) None)
      | Err e => Err e | Panic => Panic | Diverged => Diverged
      end
  | None =>
      if bool_decide (topic_cfg = "") then Err (TopicConfigError topic_cfg)
      else
        match replaces topic_cfg c with
        | Ok t =>
            match Topic_from_str t with
            | Ok tf => Ok (mkAclTopic None (Some tf))
            | Err e => Err (AclTopicError_Topic e)
            | Panic => Panic | Diverged => Diverged
            end
        | Err e => Err e | Panic => Panic | Diverged => Diverged
        end
  end.

Module AclRule.
Record t : Type := mk {
  permission : Permission;
  action : Action;
  rule_qos : option (list QoS);
  rule_retain : option bool;
  rule_topic : AclTopic;
}.

Definition qos_allowed (r : t) (q : QoS) : bool :=
  match rule_qos r with Some qs => bool_decide (q ∈ qs) | None => true end.

Definition subscribe_hit (r : t) (sub : Subscribe) : bool :=
  match action r with
  | ActionPublish => false
  | _ => qos_allowed r (opts_qos (sub_opts sub)) && is_match (rule_topic r) (sub_filter sub)
  end.

Definition publish_hit (r : t) (p : Publish) : bool :=
  match action r with
  | ActionSubscribe => false
  | _ => qos_allowed r (qos p) && is_match (rule_topic r) (str (topic p))
  end.

Definition publish_allow_hit (r : t) (p : Publish) : bool :=
  match rule_retain r with
  | Some allowed => if negb allowed && retain p then false else publish_hit r p
  | None => publish_hit r p
  end.

Definition publish_deny_hit (r : t) (p : Publish) : bool :=
  match rule_retain r with
  | Some flag => if negb (eqb flag (retain p)) then false else publish_hit r p
  | None => publish_hit r p
  end.

(** *** From the claims of a token: a JSON object *)

Inductive RuleError : Type :=
| RuleConfigError (cfg : Json)
| UnknownPermission
| UnknownAction
| UnknownQoS
| RuleQoSError (e : DecodeError)
| RuleTopicError (e : AclTopicError).

Definition qos_of (n : Z) : outcome RuleError QoS := map_err RuleQoSError (QoS_try_from (n mod 256)).

(** Entries that are no integers are dropped: [flat_map] over a result. *)
Fixpoint qos_entries (l : list Json) : outcome RuleError (list QoS) :=
  match l with
  | [] => Ok []
  | j :: l =>
      match as_u64 j with
      | Some n => try! q := qos_of n in try! qs := qos_entries l in Ok (q :: qs)
      | None => qos_entries l
      end
  end.

Definition qos_cfg (j : Json) : outcome RuleError (list QoS) :=
  match j with
  | JArray l => qos_entries l
  | _ =>
      match as_u64 j with
      | Some n => try! q := qos_of n in Ok [q]
      | None => Err UnknownQoS
      end
  end.

Definition try_from (cfg : Json) (c : ConnectInfo) : outcome RuleError t :=
  match cfg with
  | JObject obj =>
      let str_of k := ok_or (RuleConfigError cfg) (json_get k obj ≫= as_str) in
      try! p := str_of "permission" in
      try! permission := ok_or UnknownPermission (Permission_try_from p) in
      try! a := str_of "action" in
      try! action := ok_or UnknownAction (Action_try_from a) in
      try! qos := match json_get "qos" obj with
                  | Some q => try! qs := qos_cfg q in Ok (Some qs)
                  | None => Ok None
                  end in
      let retain := json_get "retain" obj ≫= as_bool in
      try! topic := str_of "topic" in
      try! topic := map_err RuleTopicError (AclTopic_try_from topic c) in
      Ok (mk permission action qos retain topic)
  | _ => Err (RuleConfigError cfg)
  end.
End AclRule.

Record AuthInfo : Type := mkAuthInfo {
  auth_superuser : bool;
  expire_at : option Z;
  rules : list AclRule.t;
}.

Definition auth_is_expired (a : AuthInfo) (now : Z) : bool :=
  match expire_at a with Some e => e <? now | None => false end.

(** ** What hooks return *)

Inductive AuthResult : Type :=
| AuthAllow (superuser : bool) (info : option AuthInfo)
| AuthNotFound
| AuthBadUsernameOrPassword
| AuthNotAuthorized.

(** [types::ConnectAckReason]. *)
Inductive AckReason : Type :=
| AckV3 (r : V3.ConnectAckReason)
| AckV5 (r : ConnectAckReasonM.ConnectAckReason).

Inductive HookResult : Type :=
| HUserProperties (l : list (bytes * bytes))
| HAuthResult (r : AuthResult)
| HConnectAckReason (r : AckReason)
| HTopicFilter (tf : option string)
| HSubscribeAclResult (r : SubscribeReturn)
| HPublishAclResult (r : PublishResult.t)
| HPublish (p : BPublish)
| HMessageExpiry.

(** [ReturnType]: whether to go on, and the result so far. *)
Definition ReturnType : Type := bool * option HookResult.

(** ** The decisions *)

Definition subscribe_answer (p : Permission) (sub : Subscribe) : ReturnType :=
  (false, Some (HSubscribeAclResult
     match p with
     | PermissionAllow => SubscribeReturn_new_success (opts_qos (sub_opts sub)) None
     | PermissionDeny => SubscribeReturn_new_failure SubscribeAckReasonM.NotAuthorized
     end)).

Fixpoint subscribe_rules (rs : list AclRule.t) (sub : Subscribe) : option ReturnType :=
  match rs with
  | [] => None
  | r :: rs =>
      if negb (AclRule.subscribe_hit r sub) then subscribe_rules rs sub
      else Some (subscribe_answer (AclRule.permission r) sub)
  end.

Definition subscribe_acl (a : AuthInfo) (sub : Subscribe) : option ReturnType :=
  if auth_superuser a then Some (subscribe_answer PermissionAllow sub) else subscribe_rules (rules a) sub.

Definition publish_allowed : ReturnType := (false, Some (HPublishAclResult acl_allow)).
Definition publish_rejected (disconnect : bool) : ReturnType :=
  (false, Some (HPublishAclResult (acl_rejected disconnect None))).

Fixpoint publish_rules (rs : list AclRule.t) (p : Publish) (disconnect_if_pub_rejected : bool) : option ReturnType :=
  match rs with
  | [] => None
  | r :: rs =>
      match AclRule.permission r with
      | PermissionAllow =>
          if AclRule.publish_allow_hit r p then Some publish_allowed
          else publish_rules rs p disconnect_if_pub_rejected
      | PermissionDeny =>
          if AclRule.publish_deny_hit r p then Some (publish_rejected disconnect_if_pub_rejected)
          else publish_rules rs p disconnect_if_pub_rejected
      end
  end.

Definition publish_acl (a : AuthInfo) (p : Publish) (disconnect_if_pub_rejected : bool) : option ReturnType :=
  if auth_superuser a then Some publish_allowed else publish_rules (rules a) p disconnect_if_pub_rejected.

(** ** The first rule that applies decides *)

(** The rule speaks about the topic, the quality of service and the retain
    flag of the message. *)
Definition applies (r : AclRule.t) (p : Publish) : Prop :=
  AclRule.action r <> ActionSubscribe /\
  (forall qs, AclRule.rule_qos r = Some qs -> qos p ∈ qs) /\
  is_match (AclRule.rule_topic r) (str (topic p)) = true /\
  match AclRule.permission r with
  | PermissionAllow => AclRule.rule_retain r = Some false -> retain p = false
  | PermissionDeny => forall b, AclRule.rule_retain r = Some b -> retain p = b
  end.

Definition applies_sub (r : AclRule.t) (sub : Subscribe) : Prop :=
  AclRule.action r <> ActionPublish /\
  (forall qs, AclRule.rule_qos r = Some qs -> opts_qos (sub_opts sub) ∈ qs) /\
  is_match (AclRule.rule_topic r) (sub_filter sub) = true.

(** The first element of the list with the property. *)
Definition first_of {A} (P : A -> Prop) (l : list A) (x : A) : Prop :=
  exists l1 l2, l = l1 ++ x :: l2 /\ P x /\ Forall (fun y => ~ P y) l1.

Lemma first_of_cons {A} (P : A -> Prop) y l x :
  first_of P (y :: l) x <-> (P y /\ x = y) \/ (~ P y /\ first_of P l x).
Proof.
  split.
  - intros (l1 & l2 & He & Hx & Hf). destruct l1 as [|z l1]; simplify_eq/=; [by left|].
    apply Forall_cons in Hf as [Hz Hf]. right. split; [done|]. by exists l1, l2.
  - intros [[Hy ->]|[Hy (l1 & l2 & -> & Hx & Hf)]].
    + exists [], l. by split_and!.
    + exists (y :: l1), l2. split_and!; try done. by constructor.
Qed.

Lemma first_of_nil {A} (P : A -> Prop) x : ~ first_of P [] x.
Proof. intros ([|? ?] & ? & ? & _); done. Qed.

Lemma all_cons {A} (P : A -> Prop) y l : (forall x, x ∈ y :: l -> ~ P x) <-> ~ P y /\ forall x, x ∈ l -> ~ P x.
Proof. setoid_rewrite elem_of_cons. naive_solver. Qed.

Lemma qos_allowed_spec r q :
  AclRule.qos_allowed r q = true <-> forall qs, AclRule.rule_qos r = Some qs -> q ∈ qs.
Proof.
  unfold AclRule.qos_allowed. destruct (AclRule.rule_qos r); [rewrite bool_decide_eq_true|]; naive_solver.
Qed.

Lemma publish_hit_spec r p :
  AclRule.publish_hit r p = true <->
  AclRule.action r <> ActionSubscribe /\ (forall qs, AclRule.rule_qos r = Some qs -> qos p ∈ qs) /\
  is_match (AclRule.rule_topic r) (str (topic p)) = true.
Proof.
  unfold AclRule.publish_hit. destruct (AclRule.action r); rewrite ?andb_true_iff, ?qos_allowed_spec; naive_solver.
Qed.

Lemma applies_hit r p :
  applies r p <->
  match AclRule.permission r with
  | PermissionAllow => AclRule.publish_allow_hit r p
  | PermissionDeny => AclRule.publish_deny_hit r p
  end = true.
Proof.
  unfold applies, AclRule.publish_allow_hit, AclRule.publish_deny_hit. pose proof (publish_hit_spec r p) as Hh.
  destruct (AclRule.permission r), (AclRule.rule_retain r) as [[]|], (retain p), (AclRule.publish_hit r p);
    simpl; naive_solver.
Qed.

Lemma applies_sub_hit r sub : applies_sub r sub <-> AclRule.subscribe_hit r sub = true.
Proof.
  unfold applies_sub, AclRule.subscribe_hit.
  destruct (AclRule.action r); rewrite ?andb_true_iff, ?qos_allowed_spec; naive_solver.
Qed.

(** The rules of an authenticated client. A superuser may do everything.
    For anyone else the first rule that applies decides, and where none
    does nothing is decided: a rule applies to a PUBLISH or SUBSCRIBE of its
    kind, with one of its qualities of service and a topic that it matches;
    an allow rule that forbids retaining does not apply to a retained
    message, a deny rule with a retain flag only to messages with that
    flag. A rejected PUBLISH closes the connection if the caller says so. *)
Theorem acl_first_rule (a : AuthInfo) (p : Publish) (sub : Subscribe) (disconnect : bool) :
  (auth_superuser a = true ->
     publish_acl a p disconnect = Some publish_allowed /\
     subscribe_acl a sub = Some (subscribe_answer PermissionAllow sub)) /\
  (auth_superuser a = false ->
     (forall r, first_of (fun r => applies r p) (rules a) r ->
        publish_acl a p disconnect = Some match AclRule.permission r with
                                          | PermissionAllow => publish_allowed
                                          | PermissionDeny => publish_rejected disconnect
                                          end) /\
     (publish_acl a p disconnect = None <-> forall r, r ∈ rules a -> ~ applies r p) /\
     (forall r, first_of (fun r => applies_sub r sub) (rules a) r ->
        subscribe_acl a sub = Some (subscribe_answer (AclRule.permission r) sub)) /\
     (subscribe_acl a sub = None <-> forall r, r ∈ rules a -> ~ applies_sub r sub)).
Proof.
  unfold publish_acl, subscribe_acl. split; [by intros ->|]. intros ->.
  induction (rules a) as [|r rs (IHp & IHpn & IHs & IHsn)]; cbn [publish_rules subscribe_rules].
  { split_and!; [by intros ? ?%first_of_nil| |by intros ? ?%first_of_nil|]; (split; [intros _ ? ?%not_elem_of_nil; done|done]). }
  assert (Hp := applies_hit r p). assert (Hs := applies_sub_hit r sub). split_and!.
  - intros x [[Hr ->]|[Hr Hf]]%first_of_cons.
    + apply Hp in Hr. destruct (AclRule.permission r); by rewrite Hr.
    + rewrite Hp in Hr. destruct (AclRule.permission r); destruct (AclRule.publish_allow_hit r p),
        (AclRule.publish_deny_hit r p); try done; by apply IHp.
  - rewrite all_cons,  Hp, <- IHpn.
    destruct (AclRule.permission r), (AclRule.publish_allow_hit r p), (AclRule.publish_deny_hit r p); naive_solver.
  - intros x [[Hr ->]|[Hr Hf]]%first_of_cons.
    + apply Hs in Hr. by rewrite Hr.
    + rewrite Hs in Hr. destruct (AclRule.subscribe_hit r sub); [done|]. by apply IHs.
  - rewrite all_cons,  Hs, <- IHsn. destruct (AclRule.subscribe_hit r sub); naive_solver.
Qed.

(** ** What the rules let through *)

(** Replacing gives back a string without the pattern as it is. *)
Lemma replace_absent pat to s : contains pat s = false -> replace pat to s = s.
Proof.
  unfold replace. induction s as [|c s IH]; cbn [contains replace_from]; [done|].
  rewrite orb_false_iff. intros [Hp Hc]. destruct (strip_prefix pat (String c s)); [done|]. by rewrite IH.
Qed.

(** A topic without placeholders does not depend on the client. *)
Lemma replaces_constant cfg c :
  contains PLACEHOLDER_USERNAME cfg = false -> contains PLACEHOLDER_CLIENTID cfg = false -> replaces cfg c = Ok cfg.
Proof. unfold replaces. by intros -> ->. Qed.

Definition client_info (client : string) (user : option string) : ConnectInfo :=
  ConnectV3 (Id_from 0 1 (text client))
    (V3.mkConnect MQTT_LEVEL_311 true 60 None (text client) (text <$> user) None None).

(** The name of a client goes into the filter as it is: a client that calls
    itself [+] is let into the topics of all the others. *)
Lemma placeholder_wildcard :
  match AclTopic_try_from "dev/${clientid}/up" (client_info "+" None) with
  | Ok t => is_match t "dev/other/up"
  | _ => false
  end = true.
Proof. vm_compute. reflexivity. Qed.

(** A subscription is matched as if it were a topic: one level of the rule
    covers a [#] of the subscription, and what is granted is wider than
    the rule. *)
Lemma subscription_wider_than_rule :
  match AclTopic_try_from "dev/+" (client_info "c" None), Topic_from_str "dev/#", Topic_from_str "dev/+" with
  | Ok t, Ok granted, Ok rule =>
      is_match t "dev/#" && matches_str granted "dev/a/b" && negb (matches_str rule "dev/a/b")
  | _, _, _ => false
  end = true.
Proof. vm_compute. reflexivity. Qed.

(** Qualities of service that are no integers leave a rule with none, which
    applies to nothing: this one denies nothing. *)
Lemma qos_strings_never_apply :
  match AclRule.try_from (JObject [("permission", JString "deny"); ("action", JString "all");
      ("qos", JArray [JString "1"]); ("topic", JString "a/#")]) (client_info "c" None) with
  | Ok r => AclRule.rule_qos r = Some [] /\ (forall p, ~ applies r p) /\ forall sub, ~ applies_sub r sub
  | _ => False
  end.
Proof.
  vm_compute AclRule.try_from. split; [done|].
  split; intros x; [intros (_ & H & _)|intros (_ & H & _)]; by apply (not_elem_of_nil _ (H [] eq_refl)).
Qed.

Definition sample_rules : list AclRule.t :=
  [AclRule.mk PermissionDeny ActionPublish None (Some true) (mkAclTopic None (Some [Normal "a"; MultiWildcard]));
   AclRule.mk PermissionAllow ActionAll (Some [AtMostOnce; AtLeastOnce]) None
     (mkAclTopic None (Some [Normal "a"; SingleWildcard]))].

Lemma acl_first_rule_witness :
  let p := mkPublish false false AtLeastOnce (text "a/b") None [] None in
  publish_acl (mkAuthInfo false None sample_rules) p true = Some publish_allowed.
Proof.
  intros p. destruct (acl_first_rule (mkAuthInfo false None sample_rules) p (mkSubscribe "a" default_options) true)
    as [_ H]. destruct (H eq_refl) as (Hp & _).
  refine (Hp (AclRule.mk PermissionAllow ActionAll (Some [AtMostOnce; AtLeastOnce]) None
     (mkAclTopic None (Some [Normal "a"; SingleWildcard]))) _).
  exists [AclRule.mk PermissionDeny ActionPublish None (Some true) (mkAclTopic None (Some [Normal "a"; MultiWildcard]))], [].
  split; [reflexivity|]. split.
  - apply applies_hit. vm_compute. reflexivity.
  - constructor; [|constructor]. intros Ha%applies_hit. revert Ha. vm_compute. discriminate.
Defined.
