(* ===== verification/SessionLogic.v ===== *)
(** * Reasoning about session handlers

    [swp m s ok err]: run from [s], the handler [m] neither panics nor
    diverges; [ok] holds of its result and the state after it, [err] of its
    error and the state. The rules follow the constructs of the monad. A
    handler is [quiet] where it leaves the inbound side of the session
    alone; what it writes to the trace is [neutral] for QoS 2. *)

From stdpp Require Import prelude list strings gmap.
From Stdlib Require Import ZArith Lia.
From S2P Require Import Prelude CodecTypes CodecUtils CodecV3 CodecV5Types BrokerTypes Subscription Inflight Connection Fitter TopicAlias Session.

Local Open Scope Z_scope.

Section logic.
Context {W Q : Type} `{!Broker W}.
Local Open Scope session_scope.
Abbreviation state := (SessionState W Q).
Abbreviation sm := (sess W Q).

Definition swp {E A} (m : sm E A) (s : state) (ok : A -> state -> Prop) (err : E -> state -> Prop)
    : Prop :=
  match m s with
  | (Ok a, s') => ok a s'
  | (Err e, s') => err e s'
  | (Panic, _) | (Diverged, _) => False
  end.

Lemma swp_mono {E A} (m : sm E A) s ok ok' err err' :
  swp m s ok err -> (forall a s', ok a s' -> ok' a s') -> (forall e s', err e s' -> err' e s') ->
  swp m s ok' err'.
Proof. unfold swp. destruct (m s) as [[] ?]; naive_solver. Qed.

Lemma swp_ret {E A} (a : A) s ok err : ok a s -> swp (E := E) (sret a) s ok err.
Proof. done. Qed.

Lemma swp_throw {E A} (e : E) s ok err : err e s -> swp (A := A) (sthrow e) s ok err.
Proof. done. Qed.

Lemma swp_get {E A} (f : state -> A) s ok err : ok (f s) s -> swp (E := E) (sget f) s ok err.
Proof. done. Qed.

Lemma swp_modify {E} (f : state -> state) s ok err : ok tt (f s) -> swp (E := E) (smodify f) s ok err.
Proof. done. Qed.

Lemma swp_emit {E} e s ok err :
  ok tt (set_trace (trace s ++ [e]) s) -> swp (E := E) (emit e) s ok err.
Proof. done. Qed.

Lemma swp_bind {E A B} (m : sm E A) (k : A -> sm E B) s ok err :
  swp m s (fun a s' => swp (k a) s' ok err) err -> swp (sbind m k) s ok err.
Proof. unfold swp, sbind. by destruct (m s) as [[] ?]. Qed.

Lemma swp_question {A} (m : sm Error A) s ok err :
  swp m s ok (fun e s' => err (Reason_from_error e) s') -> swp (question m) s ok err.
Proof. unfold swp, question, smap_err. by destruct (m s) as [[] ?]. Qed.

Lemma swp_try {E F A} (m : sm E A) s ok err :
  swp m s (fun a s' => ok (Ok a) s') (fun e s' => ok (Err e) s') -> swp (E := F) (stry m) s ok err.
Proof. unfold swp, stry. by destruct (m s) as [[] ?]. Qed.

Lemma swp_ask {E A} (f : W -> A * W) s ok err :
  (forall a w, f (world s) = (a, w) -> ok a (set_world w s)) -> swp (E := E) (ask f) s ok err.
Proof. unfold swp, ask. destruct (f (world s)). auto. Qed.

Lemma swp_ask_outcome {E A} (f : W -> outcome E A * W) s ok err :
  returns (f (world s)).1 ->
  (forall a w, f (world s) = (Ok a, w) -> ok a (set_world w s)) ->
  (forall e w, f (world s) = (Err e, w) -> err e (set_world w s)) ->
  swp (ask_outcome f) s ok err.
Proof. unfold swp, ask_outcome. destruct (f (world s)) as [[] w]; simpl; intros; try done; auto. Qed.

Lemma swp_lift {E A} (o : outcome E A) s ok err :
  returns o -> (forall a, o = Ok a -> ok a s) -> (forall e, o = Err e -> err e s) ->
  swp (slift o) s ok err.
Proof. unfold swp, slift. destruct o; simpl; intros; try done; auto. Qed.

Lemma swp_send p s ok err :
  (forall w, ok tt (set_trace (trace s ++ [Sent p]) (set_world w s))) ->
  (forall e w, err e (set_trace (trace s ++ [SendFailed p]) (set_world w s))) ->
  swp (send p) s ok err.
Proof.
  intros Hok Herr. unfold send. apply swp_bind, swp_ask. intros [e|] w _.
  - apply swp_bind, swp_emit, swp_throw. apply (Herr e w).
  - apply swp_emit. apply (Hok w).
Qed.
End logic.

(** One step of symbolic execution. *)
Ltac swp_step :=
  lazymatch goal with
  | |- swp (sbind _ _) _ _ _ => apply swp_bind
  | |- swp (sret _) _ _ _ => apply swp_ret
  | |- swp (sthrow _) _ _ _ => apply swp_throw
  | |- swp (sget _) _ _ _ => apply swp_get
  | |- swp (smodify _) _ _ _ => apply swp_modify
  | |- swp (emit _) _ _ _ => apply swp_emit
  | |- swp (question _) _ _ _ => apply swp_question
  | |- swp (stry _) _ _ _ => apply swp_try
  | |- swp (ask _) _ _ _ => apply swp_ask; intros
  | |- swp (send _) _ _ _ => apply swp_send; intros
  | |- swp (if ?b then _ else _) _ _ _ => destruct b eqn:?
  end; cbv beta.

(** The fields of an updated state. *)
Tactic Notation "ssimpl" :=
  cbn [st_id sink5 st_fitter client_topic_aliases server_topic_aliases in_inflight qos2_pending
       out_inflight deliver_queue rx rx_closed disconnect_info flags trace world
       set_client_aliases set_server_aliases set_in_inflight set_pending set_out_inflight set_queue
       set_rx set_disconnect_info set_flags set_trace set_world
       InInflight.cached InInflight.max_inflight].
Tactic Notation "ssimpl" "in" hyp(H) :=
  cbn [st_id sink5 st_fitter client_topic_aliases server_topic_aliases in_inflight qos2_pending
       out_inflight deliver_queue rx rx_closed disconnect_info flags trace world
       set_client_aliases set_server_aliases set_in_inflight set_pending set_out_inflight set_queue
       set_rx set_disconnect_info set_flags set_trace set_world
       InInflight.cached InInflight.max_inflight] in H.

(** ** QoS 2 in a trace *)

(** The packet id of a QoS 2 message. *)
Definition qos2_id (p : BPublish) : option Z :=
  if bool_decide (qos (BPublish.inner p) = ExactlyOnce) then BPublish.packet_id p else None.

(** What the theorems rely on: the calls return, and a hook that changes a
    published message leaves its packet id and quality of service alone. *)
Class BrokerOk (W : Type) `{!Broker W} : Prop := {
  forwards_returns from p storage expiry w : returns (forwards from p storage expiry w).1;
  entry_subscribe_returns id sub w : returns (entry_subscribe id sub w).1;
  entry_unsubscribe_returns id unsub w : returns (entry_unsubscribe id unsub w).1;
  router_add_returns filter id opts w : returns (router_add filter id opts w).1;
  hook_keeps_id from p w p' : (hook_message_publish from p w).1 = Some p' -> qos2_id p' = qos2_id p;
}.

(** The packet ids delivered and not released after the trace, from those
    that were open before it. *)
Definition open_step (o : gset Z) (e : Effect) : gset Z :=
  match e with
  | Forwarded _ p _ _ => match qos2_id p with Some pid => {[pid]} ∪ o | None => o end
  | Received (Packet3 (V3.PPublishRelease pid)) => o ∖ {[pid]}
  | Received (Packet5 (V5.PPublishRelease a)) => o ∖ {[V5.pa2_packet_id a]}
  | _ => o
  end.

Definition open_after (o : gset Z) (t : list Effect) : gset Z := foldl open_step o t.

(** What is allowed next: a QoS 2 message is delivered only when its packet
    id is not open, and a PUBREC that reports success to an MQTT 5 client
    is for an open one. *)
Definition allowed (o : gset Z) (e : Effect) : Prop :=
  match e with
  | Forwarded _ p _ _ => match qos2_id p with Some pid => pid ∉ o | None => True end
  | Sent (Packet5 (V5.PPublishReceived a)) =>
      V5.pa_reason_code a = PublishAckReasonM.Success -> V5.pa_packet_id a ∈ o
  | _ => True
  end.

Fixpoint exactly_once (o : gset Z) (t : list Effect) : Prop :=
  match t with
  | [] => True
  | e :: t => allowed o e /\ exactly_once (open_step o e) t
  end.

(** An effect that neither opens nor releases a packet id, and is allowed
    whichever are open. *)
Definition neutral (e : Effect) : Prop := (forall o, open_step o e = o) /\ (forall o, allowed o e).

Lemma open_after_app o t t' : open_after o (t ++ t') = open_after (open_after o t) t'.
Proof. unfold open_after. by rewrite foldl_app. Qed.

Lemma exactly_once_app o t t' :
  exactly_once o (t ++ t') <-> exactly_once o t /\ exactly_once (open_after o t) t'.
Proof. revert o. induction t as [|e t IH]; intros o; simpl; [tauto|]. rewrite IH. tauto. Qed.

Lemma open_after_snoc o t e : open_after o (t ++ [e]) = open_step (open_after o t) e.
Proof. by rewrite open_after_app. Qed.

Lemma exactly_once_snoc o t e :
  exactly_once o (t ++ [e]) <-> exactly_once o t /\ allowed (open_after o t) e.
Proof. rewrite exactly_once_app. simpl. tauto. Qed.

Lemma open_after_neutral o t : Forall neutral t -> open_after o t = o.
Proof. induction 1 as [|e t [He _] Ht IH]; simpl; [done|]. by rewrite He. Qed.

Lemma exactly_once_neutral o t : Forall neutral t -> exactly_once o t.
Proof. induction 1 as [|e t [He Ha] Ht IH]; simpl; [done|]. by rewrite He. Qed.

(** ** Handlers that leave the inbound side alone *)

Section quiet.
Context {W Q : Type} `{!Broker W}.
Abbreviation state := (SessionState W Q).

(** The maximum of the aliases towards the client, 0 without them. *)
Definition alias_max (s : state) : Z :=
  default 0 (ServerTopicAliases.max_topic_aliases <$> server_topic_aliases s).

(** It comes from a [u16]. *)
Definition alias_ok (s : state) : Prop := alias_max s <= U16_MAX.

(** What no handler changes. *)
Definition same_connection (s s' : state) : Prop :=
  st_id s' = st_id s /\ sink5 s' = sink5 s /\ st_fitter s' = st_fitter s /\ alias_max s' = alias_max s.

Definition quiet_step (s s' : state) : Prop :=
  same_connection s s' /\ in_inflight s' = in_inflight s /\ qos2_pending s' = qos2_pending s /\
  exists t, trace s' = trace s ++ t /\ Forall neutral t.

Lemma quiet_refl s : quiet_step s s.
Proof. split_and!; try done. exists []. by rewrite app_nil_r. Qed.

Lemma quiet_trans s s' s'' : quiet_step s s' -> quiet_step s' s'' -> quiet_step s s''.
Proof.
  unfold quiet_step, same_connection.
  intros ((?&?&?&?) & ? & ? & t & Ht & Hn) ((?&?&?&?) & ? & ? & t' & Ht' & Hn').
  split_and!; try congruence. exists (t ++ t'). rewrite Ht', Ht, app_assoc. split; [done|].
  by apply Forall_app.
Qed.

#[global] Instance quiet_preorder : PreOrder quiet_step.
Proof. split; [exact quiet_refl|exact quiet_trans]. Qed.

Lemma quiet_alias s s' : quiet_step s s' -> alias_ok s -> alias_ok s'.
Proof. unfold alias_ok. by intros ((_&_&_&->)&_). Qed.

(** A handler is quiet when it is from every state. *)
Definition quiet {E A} (m : sess W Q E A) : Prop :=
  forall s, alias_ok s -> swp m s (fun _ s' => quiet_step s s') (fun _ s' => quiet_step s s').

Lemma quiet_emit {E} e : neutral e -> quiet (E := E) (emit e).
Proof. intros Hn s _. apply swp_emit. split_and!; try done. exists [e]. split; [done|]. by constructor. Qed.

Lemma quiet_bind {E A B} (m : sess W Q E A) (k : A -> sess W Q E B) :
  quiet m -> (forall a, quiet (k a)) -> quiet (sbind m k).
Proof.
  intros Hm Hk s Ha. apply swp_bind. eapply swp_mono; [by apply Hm| |done].
  intros a s1 H1. simpl. eapply swp_mono; [apply Hk; by apply (quiet_alias s)|..]; intros x s2 H2; by apply (quiet_trans s s1 s2).
Qed.

Lemma quiet_ret {E A} (a : A) : quiet (E := E) (sret a).
Proof. intros s _. by apply swp_ret. Qed.
Lemma quiet_throw {E A} (e : E) : quiet (A := A) (sthrow e).
Proof. intros s _. by apply swp_throw. Qed.
Lemma quiet_get {E A} (f : state -> A) : quiet (E := E) (sget f).
Proof. intros s _. by apply swp_get. Qed.
Lemma quiet_lift {E A} (o : outcome E A) : returns o -> quiet (slift o).
Proof. intros Ho s _. by apply swp_lift. Qed.
Lemma quiet_ask {E A} (f : W -> A * W) : quiet (E := E) (ask f).
Proof. intros s _. apply swp_ask. intros. split_and!; try done. exists []. by rewrite app_nil_r. Qed.
Lemma quiet_ask_outcome {E A} (f : W -> outcome E A * W) :
  (forall w, returns (f w).1) -> quiet (ask_outcome f).
Proof.
  intros Hf s _. apply swp_ask_outcome; [done|..]; intros; split_and!; try done;
    exists []; by rewrite app_nil_r.
Qed.
Lemma quiet_question {A} (m : sess W Q Error A) : quiet m -> quiet (question m).
Proof. intros Hm s Ha. by apply swp_question, Hm. Qed.
Lemma quiet_try {E F A} (m : sess W Q E A) : quiet m -> quiet (stry (F := F) m).
Proof. intros Hm s Ha. by apply swp_try, Hm. Qed.
Lemma quiet_try_bind {E F A B} (m : sess W Q E A) (k : outcome E A -> sess W Q F B) :
  quiet m -> (forall a, quiet (k (Ok a))) -> (forall e, quiet (k (Err e))) -> quiet (sbind (stry m) k).
Proof.
  intros Hm Hok Herr s Ha. apply swp_bind, swp_try.
  eapply swp_mono; [by apply Hm|..]; intros x s1 H1; cbv beta;
    (eapply swp_mono; [apply Hok || apply Herr; by apply (quiet_alias s)|..]);
    intros y s2 H2; by apply (quiet_trans s s1 s2).
Qed.
Lemma quiet_modify {E} (f : state -> state) :
  (forall s, quiet_step s (f s)) -> quiet (E := E) (smodify f).
Proof. intros Hf s _. by apply swp_modify. Qed.
Lemma send_quiet p (s : state) :
  neutral (Sent p) -> swp (send p) s (fun _ s' => quiet_step s s') (fun _ s' => quiet_step s s').
Proof.
  intros Hp. apply swp_send; intros; split_and!; try done.
  - exists [Sent p]. split; [done|]. by constructor.
  - exists [SendFailed p]. split; [done|]. by constructor.
Qed.

Lemma quiet_send p : neutral (Sent p) -> quiet (send (Q := Q) p).
Proof. intros Hp s _. by apply send_quiet. Qed.
End quiet.

Create HintDb quiet discriminated.
#[export] Hint Resolve quiet_ret quiet_throw quiet_get quiet_ask quiet_question quiet_try quiet_emit
  quiet_send quiet_lift quiet_ask_outcome quiet_refl : quiet.
#[export] Hint Extern 1 (quiet (sbind _ _)) => apply quiet_bind : quiet.
#[export] Hint Extern 1 (quiet (if ?b then _ else _)) => destruct b : quiet.
#[export] Hint Extern 1 (quiet _) =>
  lazymatch goal with |- quiet (match ?x with _ => _ end) => destruct x end : quiet.
#[export] Hint Extern 2 (neutral _) => done : quiet.
