(* ===== verification/SessionInbound.v ===== *)
(** * Inbound messages of a session: [session.rs]

    [process_publish] and what it calls, and the handling of PUBREL. The
    window [in_inflight] holds the packet ids of the QoS 2 messages that
    were delivered and not released; messages that arrive while it is full
    wait in [qos2_pending]. *)

From stdpp Require Import prelude list strings gmap.
From Stdlib Require Import ZArith Lia.
From S2P Require Import Prelude CodecTypes CodecUtils CodecV3 CodecV5Types Topic BrokerTypes Subscription Queue Inflight Connection Fitter TopicAlias Delayed Session.

Local Open Scope Z_scope.

Definition SESSION_QOS2_PENDING_CAP : Z := 4096.

Definition set_topic (p : BPublish) (t : bytes) : BPublish :=
  let i := BPublish.inner p in
  BPublish.mk (mkPublish (dup i) (retain i) (qos i) t (packet_id i) (payload i) (properties i))
    (BPublish.target_clientid p) (BPublish.delay_interval p) (BPublish.create_time p).

Definition set_create_time (p : BPublish) (now : Z) : BPublish :=
  BPublish.mk (BPublish.inner p) (BPublish.target_clientid p) (BPublish.delay_interval p) (Some now).

(** The errors of [InInflight::add], as reasons. *)
Definition add_reason (e : InInflight.AddError) : Reason :=
  match e with
  | InInflight.InflightWindowFull => InflightWindowFull
  | InInflight.PacketIdInUse pid => RMqttError (EPacketIdInUse pid)
  end.

(** [Self::packet_id]. *)
Definition packet_id_of (o : option Z) : outcome Reason Z :=
  match o with Some pid => Ok pid | None => Err (RProtocolError (text "packet_id is None")) end.

Section inbound.
Context {W Q : Type} `{!Broker W}.
Local Open Scope session_scope.
Abbreviation sm := (sess W Q).

Definition listen_cfg_of (s : SessionState W Q) : ListenerConfig := listen_cfg (st_fitter s).

Definition in_remove (pid : Z) : sm Reason unit :=
  smodify (fun s => set_in_inflight (InInflight.remove (in_inflight s) pid).2 s).
Definition in_add (pid : Z) (q : QoS) : sm Reason bool := fun s =>
  let '(r, i) := InInflight.add (in_inflight s) pid q in
  (map_err add_reason r, set_in_inflight i s).

(** ** Publishing *)

(** The topic of the message, through the client's aliases. *)
Definition resolve_alias (p : BPublish) : sm Error BPublish := fun s =>
  match client_topic_aliases s with
  | Some ca =>
      let '(r, ca) := ClientTopicAliases.set_and_get ca
        (properties (BPublish.inner p) ≫= topic_alias) (topic (BPublish.inner p)) in
      (match r with
       | Ok t => Ok (set_topic p t) | Err e => Err e | Panic => Panic | Diverged => Diverged
       end, set_client_aliases (Some ca) s)
  | None => (Ok p, s)
  end.

Definition publish_inner (p : BPublish) : sm Error PublishResult.t :=
  let! p := resolve_alias p in
  let! from := sget (fun s => mkFrom Custom (st_id s)) in
  let! cfg := sget listen_cfg_of in
  let! p := slift (if delayed_publish cfg then Delayed.parse p else Ok p) in
  let! changed := ask (hook_message_publish from p) in
  let p := default p changed in
  let! acl_result := ask (hook_message_publish_check_acl p) in
  if acl_is_allow acl_result then
    let! storage := sget (fun s => message_mgr_enable (world s)) in
    let! retaining := sget (fun s => retain_enable (world s)) in
    let! fitter := sget st_fitter in
    let expiry := if storage || (retain (BPublish.inner p) && retaining)
                  then Some (message_expiry_interval fitter (BPublish.inner p)) else None in
    ask_outcome (forwards from p storage expiry) ;;;
    emit (Forwarded from p storage expiry) ;;;
    sret PublishResult.success
  else
    emit (Metric ClientPublishAuthError) ;;;
    emit (MessageDropped None from p (RPublishResult acl_result)) ;;;
    if PublishResult.disconnect acl_result
    then sthrow (Mqtt (EPublishAckReason (PublishResult.code acl_result)
                         (default [] (PublishResult.reason_string acl_result))))
    else sret acl_result.

Definition publish (p : BPublish) : sm Error PublishResult.t :=
  let! r := stry (publish_inner p) in
  match r with
  | Err e => emit (Metric ClientPublishError) ;;; sthrow e
  | Ok pub_res =>
      if PublishResult.is_success pub_res then sret pub_res
      else
        emit (Metric ClientPublishError) ;;;
        if PublishResult.disconnect pub_res
        then sthrow (Mqtt (EPublishAckReason (PublishResult.code pub_res)
                             (default [] (PublishResult.reason_string pub_res))))
        else sret pub_res
  | Panic => spanic
  | Diverged => slift Diverged
  end.

(** ** QoS 2 *)

Definition ack_qos2_inbound (pid : Z) (p : BPublish) : sm Reason unit :=
  let! pub_res := question (publish p) in
  let! inflight_res :=
    if PublishResult.is_success pub_res then in_add pid ExactlyOnce else sret false in
  let! rec_res := stry (send_publish_received pid pub_res) in
  match rec_res with
  | Err e => (if inflight_res then in_remove pid else sret tt) ;;; sthrow (Reason_from_error e)
  | _ => sret tt
  end.

(** The [while let]: one unit of fuel per iteration. *)
Fixpoint drain_loop (fuel : nat) : sm Reason unit :=
  match fuel with
  | O => slift Diverged
  | S fuel =>
      let! pending := sget qos2_pending in
      match pending with
      | [] => sret tt
      | (pid, p) :: rest =>
          let! full := sget (fun s => InInflight.is_full (in_inflight s)) in
          if full then sret tt
          else smodify (set_pending rest) ;;; ack_qos2_inbound pid p ;;; drain_loop fuel
      end
  end.

Definition drain_qos2_pending : sm Reason unit :=
  let! pending := sget qos2_pending in drain_loop (S (length pending)).

Definition process_publish (p : BPublish) : sm Reason unit :=
  let q := qos (BPublish.inner p) in
  match q with
  | AtLeastOnce =>
      let! pid := slift (packet_id_of (BPublish.packet_id p)) in
      let! r := stry (in_add pid q) in
      match r with
      | Err e =>
          let! id := sget st_id in
          emit (MessageDropped None (mkFrom Custom id) p e) ;;; sthrow e
      | Ok inflight_res =>
          let! pubres := stry (question (publish p)) in
          match pubres with
          | Ok pubres =>
              let! ack_res := stry (send_publish_ack pid pubres) in
              (if inflight_res then in_remove pid else sret tt) ;;;
              match ack_res with Err e => sthrow (Reason_from_error e) | _ => sret tt end
          | Err e => (if inflight_res then in_remove pid else sret tt) ;;; sthrow e
          | Panic => spanic
          | Diverged => slift Diverged
          end
      | Panic => spanic
      | Diverged => slift Diverged
      end
  | ExactlyOnce =>
      let! pid := slift (packet_id_of (BPublish.packet_id p)) in
      let! pending := sget qos2_pending in
      if existsb (fun e => e.1 =? pid) pending then sret tt
      else
        let! known := sget (fun s => InInflight.contains (in_inflight s) pid) in
        if known then question (send_publish_received pid PublishResult.success)
        else
          let! full := sget (fun s => InInflight.is_full (in_inflight s)) in
          if full then
            if SESSION_QOS2_PENDING_CAP <=? len pending
            then emit (Metric ClientPublishError)
            else smodify (set_pending (pending ++ [(pid, p)]))
          else ack_qos2_inbound pid p
  | AtMostOnce => question (publish p) ;;; sret tt
  end.

(** The two PUBLISH branches of [process_mqtt_message]. *)
Definition handle_publish (p : Publish) : sm Reason unit :=
  let! now := sget (fun s => timestamp_millis (world s)) in
  process_publish (set_create_time (BPublish.from p) now).

(** The two PUBREL branches. *)
Definition handle_publish_release3 (pid : Z) : sm Reason unit :=
  in_remove pid ;;;
  question (send3 (V3.PPublishComplete pid)) ;;;
  drain_qos2_pending.
Definition handle_publish_release5 (ack2 : V5.PublishAck2) : sm Reason unit :=
  in_remove (V5.pa2_packet_id ack2) ;;;
  question (send5 (V5.PPublishComplete
                     (V5.mkPublishAck2 (V5.pa2_packet_id ack2) PublishAck2ReasonM.Success [] None))) ;;;
  drain_qos2_pending.
End inbound.
