(* ===== verification/SessionQoS2.v ===== *)
(** * Exactly-once delivery of inbound QoS 2 messages

    The invariant of the inbound side of a session, kept by the handlers of
    [SessionInbound], and what it says of the trace. *)

From stdpp Require Import prelude list strings gmap.
From Stdlib Require Import ZArith Lia.
From S2P Require Import Prelude CodecTypes CodecUtils CodecV3 CodecV5Types Topic BrokerTypes Subscription Queue Inflight Connection Fitter TopicAlias Delayed Session SessionLogic SessionInbound.

Local Open Scope Z_scope.

Section qos2.
Context {W Q : Type} `{!Broker W} `{!BrokerOk W}.
Local Open Scope session_scope.
Abbreviation state := (SessionState W Q).
Abbreviation sm := (sess W Q).

(** ** Publishing *)

(** The inbound side is left alone, and the trace grows by [t]. *)
Definition grows (s s' : state) (t : list Effect) : Prop :=
  same_connection s s' /\ in_inflight s' = in_inflight s /\ qos2_pending s' = qos2_pending s /\
  trace s' = trace s ++ t.

Lemma grows_quiet s s' t : grows s s' t -> Forall neutral t -> quiet_step s s'.
Proof. intros (?&?&?&?) ?. split_and!; try done. by exists t. Qed.

Lemma grows_trans s s' s'' t t' : grows s s' t -> grows s' s'' t' -> grows s s'' (t ++ t').
Proof.
  intros ((?&?&?&?)&?&?&Ht) ((?&?&?&?)&?&?&Ht'). split_and!; try congruence.
  - split_and!; congruence.
  - by rewrite Ht', Ht, app_assoc.
Qed.

Lemma qos2_id_set_topic p t : qos2_id (set_topic p t) = qos2_id p.
Proof. done. Qed.

Lemma parse_keeps_id p p' : Delayed.parse p = Ok p' -> qos2_id p' = qos2_id p.
Proof. unfold Delayed.parse. intros H. by repeat case_match; simplify_eq. Qed.

Lemma parse_u32_returns s : returns (parse_u32 s).
Proof.
  assert (Hd : forall s acc, returns (parse_u32_digits acc s)).
  { clear s. induction s as [|c s IH]; intros acc; simpl; [done|].
    destruct (digit c); [|done]. by destruct (_ <? _). }
  unfold parse_u32. repeat case_match; try done; apply Hd.
Qed.

Lemma parse_returns p : returns (Delayed.parse p).
Proof.
  unfold Delayed.parse. destruct (splitn3 _) as [[first [d|]] [t|]]; try done.
  case_bool_decide; [|done]. pose proof (parse_u32_returns d). by destruct (parse_u32 d).
Qed.

Lemma resolve_alias_spec (p : BPublish) (s : state) :
  swp (resolve_alias p) s (fun p' s' => grows s s' [] /\ qos2_id p' = qos2_id p)
    (fun _ s' => grows s s' []).
Proof.
  unfold resolve_alias, swp. destruct (client_topic_aliases s) as [ca|]; swap 1 2.
  { split; [|done]. split_and!; try done. by rewrite app_nil_r. }
  destruct (ClientTopicAliases.set_and_get _ _ _) as [r ca'] eqn:E.
  assert (Hg : grows s (set_client_aliases (Some ca') s) []).
  { split_and!; try done. by rewrite app_nil_r. }
  destruct r; [split; [done|apply qos2_id_set_topic]|done|..];
    unfold ClientTopicAliases.set_and_get in E; repeat case_match; simplify_eq.
Qed.

Lemma publish_inner_spec (p : BPublish) (s : state) :
  swp (publish_inner p) s
    (fun r s' => exists t, grows s s' t /\
       (if PublishResult.is_success r
        then exists from p' st ex, t = [Forwarded from p' st ex] /\ qos2_id p' = qos2_id p
        else Forall neutral t))
    (fun _ s' => quiet_step s s').
Proof.
  unfold publish_inner. swp_step. eapply swp_mono; [apply resolve_alias_spec| |].
  2:{ intros e s' Hg. by apply (grows_quiet s s' []). }
  intros p1 s1 [Hg1 Hp1]. simpl. do 4 swp_step. swp_step. apply swp_lift.
  { destruct (delayed_publish _); [apply parse_returns|done]. }
  2:{ intros e _. by apply (grows_quiet s s1 []). }
  intros p2 Hp2.
  assert (Hid2 : qos2_id p2 = qos2_id p).
  { rewrite <- Hp1. destruct (delayed_publish _); [by apply parse_keeps_id|by simplify_eq]. }
  swp_step. swp_step. rename a into changed.
  assert (Hid3 : qos2_id (default p2 changed) = qos2_id p).
  { destruct changed as [p3|]; [|done]. simpl. rewrite <- Hid2.
    apply (hook_keeps_id (mkFrom Custom (st_id s1)) p2 (world s1)). by rewrite H. }
  assert (Hg2 : forall w' t, grows s (set_trace (trace s1 ++ t) (set_world w' s1)) t).
  { intros w' t. apply (grows_trans s s1 _ []); [done|]. by split_and!. }
  swp_step. swp_step. destruct (acl_is_allow a) eqn:Ha.
  - do 6 swp_step. swp_step. apply swp_ask_outcome; [apply forwards_returns|..].
    2:{ intros e w' _. apply (grows_quiet s _ []); [|done]. specialize (Hg2 w' []).
        by rewrite app_nil_r in Hg2. }
    intros [] w' _. do 3 swp_step. eexists. split; [apply (Hg2 w')|]. by eexists _, _, _, _.
  - do 4 swp_step. assert (Hn : forall w' t, Forall neutral t ->
      quiet_step s (set_trace (trace s1 ++ t) (set_world w' s1))).
    { intros w' t Ht. by apply (grows_quiet s _ t). }
    simpl. rewrite <- app_assoc. swp_step; swp_step.
    + apply (Hn w0). by repeat constructor.
    + eexists. split; [apply (Hg2 w0)|]. unfold PublishResult.is_success.
      unfold acl_is_allow in Ha. rewrite Ha. by repeat constructor.
Qed.

Lemma publish_spec (p : BPublish) (s : state) :
  swp (publish p) s
    (fun r s' => exists t, grows s s' t /\
       (if PublishResult.is_success r
        then exists from p' st ex, t = [Forwarded from p' st ex] /\ qos2_id p' = qos2_id p
        else Forall neutral t))
    (fun _ s' => quiet_step s s').
Proof.
  assert (Hm : forall (s1 : state) e, quiet_step s s1 -> neutral e ->
    quiet_step s (set_trace (trace s1 ++ [e]) s1)).
  { intros s1 e Hq He. apply (quiet_trans s s1); [done|].
    apply (grows_quiet _ _ [e]); [by split_and!|by constructor]. }
  unfold publish. swp_step. swp_step. eapply swp_mono; [apply publish_inner_spec|..].
  - intros r s1 (t & Hg & Ht). swp_step; [swp_step; exists t; by rewrite Heqb|].
    swp_step. swp_step. swp_step; swp_step.
    + apply Hm; [by apply (grows_quiet s s1 t)|done].
    + exists (t ++ [Metric ClientPublishError]). rewrite Heqb. split.
      * apply (grows_trans s s1); [done|]. by split_and!.
      * apply Forall_app. split; [done|]. by constructor.
  - intros e s1 Hq. swp_step. swp_step. swp_step. by apply Hm.
Qed.

(** ** The invariant *)

Abbreviation cached s := (InInflight.cached (in_inflight s)).

(** The window holds exactly the packet ids the trace leaves open; what
    waits is of QoS 2, under distinct packet ids none of which is open. *)
Record inbound_inv (s : state) : Prop := {
  inv_open : cached s = open_after ∅ (trace s);
  inv_once : exactly_once ∅ (trace s);
  inv_window : Z.of_nat (size (cached s)) <= InInflight.max_inflight (in_inflight s);
  inv_pending_nodup : NoDup (qos2_pending s).*1;
  inv_pending_new : forall pid, pid ∈ (qos2_pending s).*1 -> pid ∉ cached s;
  inv_pending_ids : Forall (fun e => qos2_id e.2 = Some e.1) (qos2_pending s);
  inv_pending_cap : len (qos2_pending s) <= SESSION_QOS2_PENDING_CAP;
}.

(** Nothing waits while there is room. *)
Definition settled (s : state) : Prop :=
  qos2_pending s = [] \/ InInflight.is_full (in_inflight s) = true.

(** What is left of it when the handler fails, which ends the connection. *)
Definition ended (s : state) : Prop :=
  exactly_once ∅ (trace s) /\
  Z.of_nat (size (cached s)) <= InInflight.max_inflight (in_inflight s) /\
  len (qos2_pending s) <= SESSION_QOS2_PENDING_CAP.

(** The connection and the size of the window stay the same. *)
Definition same_limits (s s' : state) : Prop :=
  same_connection s s' /\
  InInflight.max_inflight (in_inflight s') = InInflight.max_inflight (in_inflight s).

#[global] Instance same_limits_preorder : PreOrder same_limits.
Proof.
  split; [by intros s; split_and!|]. intros s s' s'' [(?&?&?&?) ?] [(?&?&?&?) ?].
  split_and!; try congruence. split_and!; congruence.
Qed.

Lemma inv_ended s : inbound_inv s -> ended s.
Proof. intros []. by split_and!. Qed.

Lemma quiet_inv s s' : quiet_step s s' -> inbound_inv s -> inbound_inv s'.
Proof.
  intros (_ & Hi & Hp & t & Ht & Hn) []. split; rewrite ?Hi, ?Hp, ?Ht; try done.
  - by rewrite open_after_app, open_after_neutral.
  - apply exactly_once_app. split; [done|]. by apply exactly_once_neutral.
Qed.

Lemma quiet_settled s s' : quiet_step s s' -> settled s -> settled s'.
Proof. intros (_ & Hi & Hp & _). unfold settled. by rewrite Hi, Hp. Qed.

Lemma quiet_limits s s' : quiet_step s s' -> same_limits s s'.
Proof. intros (? & Hi & _). split; [done|]. by rewrite Hi. Qed.

Lemma in_add_fresh pid q (s : state) :
  InInflight.is_full (in_inflight s) = false -> pid ∉ cached s ->
  in_add pid q s = (Ok true, set_in_inflight
    (InInflight.mk ({[pid]} ∪ cached s) (Counter.inc (InInflight.in_inflights (in_inflight s)))
       (InInflight.max_inflight (in_inflight s))) s).
Proof.
  unfold in_add, InInflight.add, InInflight.is_full. intros -> Hn. by rewrite bool_decide_true.
Qed.

(** Removing a packet id. *)
Lemma remove_cached pid i : InInflight.cached (InInflight.remove i pid).2 = InInflight.cached i ∖ {[pid]}
  /\ InInflight.max_inflight (InInflight.remove i pid).2 = InInflight.max_inflight i.
Proof.
  unfold InInflight.remove. case_bool_decide as Hin; simpl; [done|]. split; [|done].
  apply leibniz_equiv. set_solver.
Qed.

Lemma is_full_size (i : InInflight.t) :
  InInflight.is_full i = false -> Z.of_nat (size (InInflight.cached i)) < InInflight.max_inflight i.
Proof. unfold InInflight.is_full. intros H%Z.leb_gt. done. Qed.

(** A PUBREC with its result, in a state where a success is for an open id. *)
Lemma received_allowed (s : state) pid r :
  (PublishResult.is_success r = true -> pid ∈ open_after ∅ (trace s)) ->
  let p := if sink5 s then Packet5 (V5.PPublishReceived (ack_of pid r)) else Packet3 (V3.PPublishReceived pid) in
  allowed (open_after ∅ (trace s)) (Sent p) /\ (forall o, open_step o (Sent p) = o).
Proof.
  intros H. destruct (sink5 s); simpl; split; try done. intros Hc. apply H.
  unfold PublishResult.is_success. by apply bool_decide_eq_true.
Qed.

(** The trace after a QoS 2 message is delivered. *)
Lemma delivered_trace (s s1 : state) t pid p from p' st ex :
  inbound_inv s -> grows s s1 t -> t = [Forwarded from p' st ex] -> qos2_id p' = qos2_id p ->
  qos2_id p = Some pid -> pid ∉ cached s ->
  exactly_once ∅ (trace s1) /\ open_after ∅ (trace s1) = {[pid]} ∪ cached s.
Proof.
  intros Hi (_ & _ & _ & Ht) -> Hp' Hp Hn. destruct Hi. rewrite Ht, open_after_app, exactly_once_app.
  rewrite <- inv_open0. cbn. rewrite Hp', Hp. by split_and!.
Qed.

(** ** Delivering a QoS 2 message *)

(** PUBREC is sent, or the id is taken back and the connection ends. *)
Lemma ack_send_spec (s1 : state) pid r inflight_res :
  inbound_inv s1 -> (PublishResult.is_success r = true -> pid ∈ cached s1) ->
  swp (let! rec_res := stry (send_publish_received pid r) in
       match rec_res with
       | Err e => (if inflight_res : bool then in_remove pid else sret tt) ;;; sthrow (Reason_from_error e)
       | _ => sret tt
       end) s1
    (fun _ s' => inbound_inv s' /\ qos2_pending s' = qos2_pending s1 /\ same_limits s1 s')
    (fun _ s' => ended s').
Proof.
  intros Hi Hin. pose proof Hi as [Ho Honce Hw Hnd Hnew Hids Hcap].
  rewrite Ho in Hin. destruct (received_allowed s1 pid r Hin) as [Hall Hopen].
  swp_step. swp_step. unfold send_publish_received. swp_step. swp_step. swp_step; swp_step.
  - split_and!; [|done|by split_and!]. split; ssimpl; try done.
    + by rewrite open_after_snoc, Hopen.
    + rewrite exactly_once_snoc. done.
  - assert (Hq : quiet_step s1 (set_trace (trace s1 ++
      [SendFailed (if sink5 s1 then Packet5 (V5.PPublishReceived (ack_of pid r))
                   else Packet3 (V3.PPublishReceived pid))]) (set_world w s1))).
    { split_and!; try done. eexists. split; [done|]. constructor; [done|constructor]. }
    unfold in_remove.
    destruct inflight_res; do 2 swp_step; [|apply inv_ended, (quiet_inv _ _ Hq Hi)].
    pose proof (inv_ended _ (quiet_inv _ _ Hq Hi)) as (He1 & He2 & He3).
    split_and!; [done| |done]. cbn. destruct (remove_cached pid (in_inflight s1)) as [-> ->].
    cbn in He2. assert (size (cached s1 ∖ {[pid]}) <= size (cached s1))%nat; [|lia].
    apply subseteq_size. set_solver.
Qed.

Lemma ack_qos2_spec (s : state) pid p :
  inbound_inv s -> pid ∉ cached s -> pid ∉ (qos2_pending s).*1 ->
  InInflight.is_full (in_inflight s) = false -> qos2_id p = Some pid ->
  swp (ack_qos2_inbound pid p) s
    (fun _ s' => inbound_inv s' /\ qos2_pending s' = qos2_pending s /\ same_limits s s')
    (fun _ s' => ended s').
Proof.
  intros Hi Hn Hnp Hfull Hp. unfold ack_qos2_inbound. swp_step. swp_step.
  eapply swp_mono; [apply publish_spec| |].
  2:{ intros e s1 Hq. by apply inv_ended, (quiet_inv s s1). }
  intros r s1 (t & Hg & Ht). cbv beta.
  assert (Hlim : same_limits s s1) by (destruct Hg as (?&Hin&?); split; [done|by rewrite Hin]).
  assert (Hpend : qos2_pending s1 = qos2_pending s) by apply Hg.
  assert (Hin1 : in_inflight s1 = in_inflight s) by apply Hg.
  swp_step. destruct (PublishResult.is_success r) eqn:Hr.
  - destruct Ht as (from & p' & st & ex & Hteq & Hp').
    destruct (delivered_trace s s1 t pid p from p' st ex) as [Honce Hopen]; try done.
    unfold swp at 1. rewrite in_add_fresh by (by rewrite Hin1). cbv beta iota.
    eapply swp_mono; [apply (ack_send_spec _ pid r true)| |done].
    + destruct Hi. split; ssimpl; rewrite ?Hin1, ?Hpend; try done.
      * rewrite InInflight.size_add by done. apply is_full_size in Hfull. lia.
      * intros pid' Hpid'. apply inv_pending_new0 in Hpid' as Hc.
        rewrite elem_of_union, elem_of_singleton. intros [-> |?]; done.
    + intros _. cbn. set_solver.
    + cbn. intros _ s2 (Hi2 & Hp2 & Hl2). split_and!; [done|by rewrite Hp2|].
      etrans; [exact Hlim|]. destruct Hl2 as [(?&?&?&?) ?]. by split_and!.
  - swp_step. eapply swp_mono; [apply (ack_send_spec s1 pid r false); [|by rewrite Hr]| |done].
    + apply (quiet_inv s s1); [|done]. by apply (grows_quiet s s1 t).
    + intros _ s2 (Hi2 & Hp2 & Hl2). split_and!; [done|by rewrite Hp2|]. by etrans.
Qed.

(** The handlers keep all of this. *)
Definition good (s s' : state) : Prop := inbound_inv s' /\ settled s' /\ same_limits s s'.

Lemma quiet_good s s' : quiet_step s s' -> inbound_inv s -> settled s -> good s s'.
Proof.
  intros Hq ??. split_and!; [by apply (quiet_inv s)|by apply (quiet_settled s)|by apply quiet_limits].
Qed.

Lemma qos2_drain_loop_spec fuel (s : state) :
  inbound_inv s -> (length (qos2_pending s) < fuel)%nat ->
  swp (drain_loop fuel) s (fun _ s' => good s s') (fun _ s' => ended s').
Proof.
  revert s. induction fuel as [|fuel IH]; intros s Hi Hf; [lia|]. cbn [drain_loop].
  swp_step. swp_step. destruct (qos2_pending s) as [|[pid p] rest] eqn:Hp.
  { swp_step. split_and!; [done|by left|done]. }
  swp_step. swp_step. destruct (InInflight.is_full (in_inflight s)) eqn:Hfull.
  { swp_step. split_and!; [done|by right|done]. }
  swp_step. swp_step. swp_step.
  destruct Hi as [Ho Honce Hw Hnd Hnew Hids Hcap]. rewrite Hp in *.
  apply NoDup_cons in Hnd as [Hnin Hnd]. apply Forall_cons in Hids as [Hid Hids].
  eapply swp_mono; [apply ack_qos2_spec|..]; ssimpl; try done.
  - split; ssimpl; try done.
    + intros pid' Hin. apply Hnew. by apply list_elem_of_further.
    + unfold len in *. simpl in Hcap. lia.
  - apply Hnew, list_elem_of_here.
  - intros _ s1 (Hi1 & Hp1 & Hl1). ssimpl in Hp1. eapply swp_mono; [apply IH|..]; try done.
    + rewrite Hp1. simpl in Hf. lia.
    + intros _ s2 (?&?&?). split_and!; [done|done|]. etrans; [|done]. etrans; [|exact Hl1].
      by split_and!.
Qed.

Lemma qos2_drain_spec (s : state) :
  inbound_inv s -> swp drain_qos2_pending s (fun _ s' => good s s') (fun _ s' => ended s').
Proof. intros Hi. unfold drain_qos2_pending. swp_step. swp_step. apply qos2_drain_loop_spec; [done|lia]. Qed.

(** ** The handlers *)

Lemma neutral_forwarded from p st ex : qos2_id p = None -> neutral (Forwarded from p st ex).
Proof. intros H. split; intros o; simpl; by rewrite H. Qed.

Lemma publish_quiet (p : BPublish) (s : state) :
  qos2_id p = None ->
  swp (publish p) s (fun _ s' => quiet_step s s') (fun _ s' => quiet_step s s').
Proof.
  intros Hp. eapply swp_mono; [apply publish_spec| |done].
  intros r s' (t & Hg & Ht). apply (grows_quiet s s' t); [done|].
  destruct (PublishResult.is_success r); [|done].
  destruct Ht as (from & p' & st & ex & -> & Hp'). constructor; [|done].
  apply neutral_forwarded. congruence.
Qed.

(** QoS 1: the packet id is in the window while the message is handled. *)
Lemma unregister (s s1 s2 : state) pid i :
  inbound_inv s -> settled s -> pid ∉ cached s ->
  InInflight.cached i = {[pid]} ∪ cached s ->
  InInflight.max_inflight i = InInflight.max_inflight (in_inflight s) ->
  InInflight.is_full (in_inflight s) = false ->
  s1 = set_in_inflight i s -> quiet_step s1 s2 ->
  good s (set_in_inflight (InInflight.remove (in_inflight s2) pid).2 s2).
Proof.
  intros Hi Hs Hn Hc Hm Hfull -> (Hsc & Hin & Hp & t & Ht & Hnt). ssimpl in Hin. ssimpl in Hp. ssimpl in Ht.
  assert (Hpn : qos2_pending s = []) by (destruct Hs; congruence).
  destruct (remove_cached pid (in_inflight s2)) as [Hrc Hrm].
  assert (Hcs : InInflight.cached (InInflight.remove (in_inflight s2) pid).2 = cached s).
  { rewrite Hrc, Hin, Hc. apply leibniz_equiv. set_solver. }
  destruct Hi as [Ho Honce Hw Hnd Hnew Hids Hcap]. split_and!.
  - split; ssimpl; rewrite ?Hcs, ?Hrm, ?Hp, ?Ht, ?Hin; ssimpl; try done.
    + by rewrite open_after_app, open_after_neutral.
    + apply exactly_once_app. split; [done|]. by apply exactly_once_neutral.
    + by rewrite Hm.
  - left. ssimpl. by rewrite Hp.
  - split; [exact Hsc|]. ssimpl. rewrite Hrm, Hin. done.
Qed.

Lemma neutral_sent_ack (s : state) pid r :
  neutral (Sent (if sink5 s then Packet5 (V5.PPublishAck (ack_of pid r)) else Packet3 (V3.PPublishAck pid))).
Proof. by destruct (sink5 s). Qed.

Lemma publish_ack_quiet pid r (s : state) :
  swp (send_publish_ack pid r) s (fun _ s' => quiet_step s s') (fun _ s' => quiet_step s s').
Proof. unfold send_publish_ack. swp_step. swp_step. apply send_quiet, neutral_sent_ack. Qed.

(** The part of the QoS 1 branch after the packet id is registered. *)
Lemma qos1_registered (s s1 : state) (p : BPublish) pid (inflight_res : bool) :
  qos2_id p = None ->
  (forall s2, quiet_step s1 s2 ->
     good s (if inflight_res then set_in_inflight (InInflight.remove (in_inflight s2) pid).2 s2 else s2)) ->
  swp (let! pubres := stry (question (publish p)) in
       match pubres with
       | Ok pubres =>
           let! ack_res := stry (send_publish_ack pid pubres) in
           (if inflight_res then in_remove pid else sret tt) ;;;
           match ack_res with Err e => sthrow (Reason_from_error e) | _ => sret tt end
       | Err e => (if inflight_res then in_remove pid else sret tt) ;;; sthrow e
       | Panic => spanic
       | Diverged => slift Diverged
       end) s1 (fun _ s' => good s s') (fun _ s' => ended s').
Proof.
  intros Hp Hgood.
  assert (Hend : forall s2, quiet_step s1 s2 -> ended
    (if inflight_res then set_in_inflight (InInflight.remove (in_inflight s2) pid).2 s2 else s2)).
  { intros s2 Hq. apply inv_ended, Hgood, Hq. }
  swp_step. swp_step. swp_step. eapply swp_mono; [by apply publish_quiet|..]; intros r s2 Hq2; cbv beta.
  - swp_step. swp_step. eapply swp_mono; [apply publish_ack_quiet|..]; intros x s3 Hq3; cbv beta;
      pose proof (quiet_trans _ _ _ Hq2 Hq3) as Hq; unfold in_remove;
      (destruct inflight_res; do 3 swp_step; [apply (Hgood s3 Hq) || apply (Hend s3 Hq)|]);
      apply (Hgood s3 Hq) || apply (Hend s3 Hq).
  - unfold in_remove. destruct inflight_res; do 3 swp_step; apply (Hend s2 Hq2).
Qed.

Lemma qos1_spec (p : BPublish) (s : state) :
  inbound_inv s -> settled s -> qos (BPublish.inner p) = AtLeastOnce ->
  swp (process_publish p) s (fun _ s' => good s s') (fun _ s' => ended s').
Proof.
  intros Hi Hs Hq. assert (Hp : qos2_id p = None) by (unfold qos2_id; by rewrite Hq).
  unfold process_publish. rewrite Hq. swp_step. apply swp_lift.
  { by destruct (BPublish.packet_id p). }
  2:{ intros e _. by apply inv_ended. }
  intros pid _. swp_step. swp_step. unfold swp at 1, in_add, InInflight.add.
  destruct (InInflight.max_inflight (in_inflight s) <=? Z.of_nat (size (cached s))) eqn:Hfull.
  { cbn [map_err]. do 5 swp_step. apply inv_ended, (quiet_inv s); [|done].
    split_and!; try done. eexists. split; [done|]. by constructor. }
  case_bool_decide as Hin; [|rewrite bool_decide_false by done]; cbn [map_err].
  - apply (qos1_registered s _ p pid true); [done|]. intros s2 Hq2.
    refine (unregister s _ s2 pid _ Hi Hs Hin _ _ Hfull eq_refl Hq2); done.
  - apply (qos1_registered s _ p pid false); [done|]. intros s2 Hq2. by apply quiet_good.
Qed.

Lemma qos2_spec (p : BPublish) (s : state) :
  inbound_inv s -> settled s -> qos (BPublish.inner p) = ExactlyOnce ->
  swp (process_publish p) s (fun _ s' => good s s') (fun _ s' => ended s').
Proof.
  intros Hi Hs Hq. unfold process_publish. rewrite Hq. swp_step.
  destruct (BPublish.packet_id p) as [pid|] eqn:Hpid; [|by apply inv_ended].
  assert (Hp : qos2_id p = Some pid) by (unfold qos2_id; by rewrite Hq).
  unfold swp at 1. cbn. swp_step. swp_step.
  destruct (existsb _ _) eqn:Hex; [swp_step; by apply quiet_good|].
  assert (Hnp : pid ∉ (qos2_pending s).*1).
  { intros (e & -> & Hin)%list_elem_of_fmap. rewrite <- not_true_iff_false, existsb_exists in Hex.
    apply Hex. exists e. split; [by apply list_elem_of_In|apply Z.eqb_refl]. }
  swp_step. swp_step. destruct (InInflight.contains (in_inflight s) pid) eqn:Hk.
  - unfold InInflight.contains in Hk. apply bool_decide_eq_true in Hk. pose proof Hi as [Ho Honce _ _ _ _ _].
    destruct (received_allowed s pid PublishResult.success) as [Hall Hopen]; [by rewrite <- Ho|].
    swp_step. unfold send_publish_received. swp_step. swp_step. swp_step.
    + destruct Hi as [_ _ Hw Hnd Hnew Hids Hcap]. split_and!; [|done|by split_and!]. split; ssimpl; try done.
      * by rewrite open_after_snoc, Hopen.
      * by rewrite exactly_once_snoc.
    + apply inv_ended, (quiet_inv s); [|done]. split_and!; try done. eexists. split; [done|]. by constructor.
  - unfold InInflight.contains in Hk. apply bool_decide_eq_false in Hk.
    swp_step. swp_step. destruct (InInflight.is_full (in_inflight s)) eqn:Hfull.
    + destruct (Z.leb_spec SESSION_QOS2_PENDING_CAP (len (qos2_pending s))); swp_step.
      * apply quiet_good; try done. split_and!; try done. eexists. split; [done|]. by constructor.
      * destruct Hi as [Ho Honce Hw Hnd Hnew Hids Hcap]. split_and!; [|by right|by split_and!].
        split; ssimpl; try done; rewrite ?fmap_app.
        -- apply NoDup_app. split_and!; [done| |apply NoDup_singleton]. set_solver.
        -- intros pid'. rewrite elem_of_app. intros [?|?]; [auto|set_solver].
        -- apply Forall_app. split; [done|]. by constructor.
        -- unfold len in *. rewrite length_app. simpl. lia.
    + assert (Hpn : qos2_pending s = []) by (destruct Hs; congruence).
      eapply swp_mono; [by apply ack_qos2_spec| |done]. intros _ s' (?&Hps&?).
      split_and!; [done| |done]. left. congruence.
Qed.

Lemma process_publish_spec (p : BPublish) (s : state) :
  inbound_inv s -> settled s ->
  swp (process_publish p) s (fun _ s' => good s s') (fun _ s' => ended s').
Proof.
  intros Hi Hs. destruct (qos (BPublish.inner p)) eqn:Hq;
    [|by apply qos1_spec|by apply qos2_spec].
  unfold process_publish. rewrite Hq. swp_step. swp_step.
  eapply swp_mono; [apply publish_quiet|..]; [unfold qos2_id; by rewrite Hq| |].
  - intros r s' Hqs. swp_step. by apply quiet_good.
  - intros e s' Hqs. by apply inv_ended, (quiet_inv s).
Qed.

(** A PUBREL takes its packet id out of the trace's open ones and out of the
    window. *)
Lemma release_step (s : state) pid e :
  inbound_inv s -> (forall o, open_step o e = o ∖ {[pid]}) -> (forall o, allowed o e) ->
  let s1 := set_trace (trace s ++ [e]) s in
  let s2 := set_in_inflight (InInflight.remove (in_inflight s1) pid).2 s1 in
  inbound_inv s2 /\ same_limits s s2.
Proof.
  intros [Ho Honce Hw Hnd Hnew Hids Hcap] Hopen Hall. ssimpl.
  destruct (remove_cached pid (in_inflight s)) as [Hrc Hrm]. split; [|by split_and!].
  split; ssimpl; rewrite ?Hrc, ?Hrm; try done.
  - by rewrite open_after_snoc, Hopen, Ho.
  - by rewrite exactly_once_snoc.
  - assert (size (cached s ∖ {[pid]}) <= size (cached s))%nat; [|lia]. apply subseteq_size. set_solver.
  - intros pid' Hin. specialize (Hnew pid' Hin). set_solver.
Qed.

Lemma release_spec (s : state) pid e p :
  inbound_inv s -> (forall o, open_step o e = o ∖ {[pid]}) -> (forall o, allowed o e) ->
  neutral (Sent p) ->
  swp (emit e ;;; in_remove pid ;;; question (send p) ;;; drain_qos2_pending) s
    (fun _ s' => good s s') (fun _ s' => ended s').
Proof.
  intros Hi Hopen Hall Hp. destruct (release_step s pid e) as [Hi1 Hl1]; try done.
  unfold in_remove. do 6 swp_step. eapply swp_mono; [apply send_quiet; done|..]; cbv beta.
  - intros _ s2 Hq. eapply swp_mono; [apply qos2_drain_spec; by eapply quiet_inv| |done].
    intros _ s3 (?&?&?). split_and!; try done. etrans; [exact Hl1|]. etrans; [by apply quiet_limits|done].
  - intros x s2 Hq. apply inv_ended. by eapply quiet_inv.
Qed.

Lemma release3_spec (s : state) pid :
  inbound_inv s -> sink5 s = false ->
  swp (emit (Received (Packet3 (V3.PPublishRelease pid))) ;;; handle_publish_release3 pid) s
    (fun _ s' => good s s') (fun _ s' => ended s').
Proof.
  intros Hi H5. pose proof (release_spec s pid (Received (Packet3 (V3.PPublishRelease pid)))
    (Packet3 (V3.PPublishComplete pid)) Hi) as Hr.
  unfold handle_publish_release3, send3. unfold swp, sbind, question, smap_err, sget in *. cbn in *.
  rewrite H5. by apply Hr.
Qed.

Lemma release5_spec (s : state) a :
  inbound_inv s -> sink5 s = true ->
  swp (emit (Received (Packet5 (V5.PPublishRelease a))) ;;; handle_publish_release5 a) s
    (fun _ s' => good s s') (fun _ s' => ended s').
Proof.
  intros Hi H5. pose proof (release_spec s (V5.pa2_packet_id a) (Received (Packet5 (V5.PPublishRelease a)))
    (Packet5 (V5.PPublishComplete
       (V5.mkPublishAck2 (V5.pa2_packet_id a) PublishAck2ReasonM.Success [] None))) Hi) as Hr.
  unfold handle_publish_release5, send5. unfold swp, sbind, question, smap_err, sget in *. cbn in *.
  rewrite H5. by apply Hr.
Qed.
End qos2.
