(* ===== verification/SessionOutbound.v ===== *)
(** * Outbound messages of a session: [session.rs], [hook.rs]

    Delivering a message of the queue, the acknowledgements of the client,
    the retries when they do not come. *)

From stdpp Require Import prelude list strings gmap.
From Stdlib Require Import ZArith Lia.
From S2P Require Import Prelude CodecTypes CodecUtils CodecV3 CodecV5Types Topic BrokerTypes Subscription Queue Inflight Connection Fitter TopicAlias Delayed Session SessionLogic.

Local Open Scope Z_scope.

Definition set_dup (p : BPublish) : BPublish :=
  let i := BPublish.inner p in
  BPublish.mk (mkPublish true (retain i) (qos i) (topic i) (packet_id i) (payload i) (properties i))
    (BPublish.target_clientid p) (BPublish.delay_interval p) (BPublish.create_time p).

Definition set_packet_id (p : BPublish) (pid : option Z) : BPublish :=
  let i := BPublish.inner p in
  BPublish.mk (mkPublish (dup i) (retain i) (qos i) (topic i) pid (payload i) (properties i))
    (BPublish.target_clientid p) (BPublish.delay_interval p) (BPublish.create_time p).

(** [NonZeroU16::new], [NonZeroU32::new]. *)
Definition nonzero (z : Z) : option Z := if z =? 0 then None else Some z.

(** The policy of the session's queue: a QoS 0 message that does not fit is
    dropped, another one pushes out the oldest. *)
Definition session_policy (m : From * BPublish) : Queue.Policy :=
  match qos (BPublish.inner m.2) with AtMostOnce => Queue.Current | _ => Queue.Early end.

Definition no_packet_id : Error := Other (text "no packet_id available, should unreachable!()").
Definition receiver_gone : Error := Other (text "send failed because receiver is gone").

Section outbound.
Context {W Q : Type} `{!Broker W} `{!DequeMap OutInflightMessage Q}.
Context (try_send_ok : nat -> nat -> bool).
Local Open Scope session_scope.
Abbreviation sm := (sess W Q).

(** ** Expiry *)

(** [as_millis() as i64]. *)
Definition expiry_millis (cfg : ListenerConfig) (p : BPublish) : Z :=
  match properties (BPublish.inner p) ≫= CodecTypes.message_expiry_interval with
  | Some i => i * 1000
  | None => message_expiry_interval_cfg cfg / 1000000
  end.

Definition check_expiry (now expiry : Z) (p : BPublish) : MessageExpiryCheckResult :=
  if expiry =? 0 then Remaining None
  else
    let remaining := now - default now (BPublish.create_time p) in
    if remaining <? expiry then Remaining (nonzero (wrap 32 ((expiry - remaining) / 1000)))
    else Expiry.

Definition message_expiry_check (from : From) (p : BPublish) : sm Error MessageExpiryCheckResult :=
  let! expired := ask (hook_message_expiry from p) in
  if expired then sret Expiry
  else
    let! cfg := sget (fun s => listen_cfg (st_fitter s)) in
    let! now := sget (fun s => timestamp_millis (world s)) in
    sret (check_expiry now (expiry_millis cfg p) p).

(** ** Delivery *)

Definition next_packet_id : sm Error (option Z) := fun s =>
  let '(r, o) := OutInflight.next_id (out_inflight s) in
  (match r with
   | Ok pid => Ok (nonzero pid)
   | Err _ => Err no_packet_id
   | Panic => Panic | Diverged => Diverged
   end, set_out_inflight o s).

Definition push_inflight {E} (st : MomentStatus) (from : From) (p : BPublish) : sm E (option Z) := fun s =>
  let '(old, o) := OutInflight.push_back (out_inflight s)
                     (OutMsg_new (timestamp_millis (world s)) st from p) in
  (Ok old, set_out_inflight o s).

(** A message that needs a packet id and has none to keep. *)
Definition needs_packet_id (p : BPublish) : bool :=
  match qos (BPublish.inner p) with
  | AtMostOnce => false
  | _ => negb (dup (BPublish.inner p)) || bool_decide (BPublish.packet_id p = None)
  end.

Definition moment_status (q : QoS) : option MomentStatus :=
  match q with
  | AtLeastOnce => Some UnAck
  | ExactlyOnce => Some UnReceived
  | AtMostOnce => None
  end.

Definition deliver (from : From) (p : BPublish) : sm Error unit :=
  let! expiry_check_res := message_expiry_check from p in
  if is_expiry expiry_check_res then
    let! id := sget st_id in
    emit (MessageDropped (Some id) from p MessageExpiration)
  else
    let! p := if needs_packet_id p
              then (let! pid := next_packet_id in sret (set_packet_id p pid))
              else sret p in
    let! changed := ask (hook_message_delivered from p) in
    let p := default p changed in
    sink_publish p (remaining_interval expiry_check_res) ;;;
    match moment_status (qos (BPublish.inner p)) with
    | Some st => push_inflight st from p ;;; sret tt
    | None => sret tt
    end.

(** The branch of the event loop: a message is taken from the queue only
    where the window has credit. *)
Definition deliver_next (overflow_checks : bool) : sm Error unit :=
  let! credit := sget (fun s => OutInflight.has_credit overflow_checks (out_inflight s)) in
  match credit with
  | Ok true =>
      let! polled := fun s =>
        let '(r, c) := Queue.poll_next (deliver_queue s) in (Ok r, set_queue c s) in
      match polled with
      | Queue.Ready (Some (from, p)) => deliver from p
      | Queue.Ready None => sret tt
      | Queue.Pending => sret tt
      end
  | Ok false => sret tt
  | Err e => match e with end
  | Panic => spanic
  | Diverged => slift Diverged
  end.

(** ** The mailbox of the session itself *)

Definition mail (m : Message) : sm Error bool := fun s =>
  if rx_closed s then (Ok false, s) else (Ok true, set_rx (rx s ++ [m]) s).

Definition forward (from : From) (p : BPublish) : sm Error unit :=
  let! sent := mail (MForward from p) in
  if sent then sret tt
  else
    let! id := sget st_id in
    emit (MessageDropped (Some id) from p (RError (text "Send Publish message error, Tx is closed"))).

(** [Message::Forward]: into the queue. *)
Definition enqueue (from : From) (p : BPublish) : sm Error unit :=
  let! r := fun s =>
    let '(r, c) := Queue.send try_send_ok session_policy (deliver_queue s) (from, p) in
    (Ok r, set_queue c s) in
  match r with
  | Err (from, p) =>
      let! id := sget st_id in
      emit (MessageDropped (Some id) from p MessageQueueFull)
  | _ => sret tt
  end.

(** ** Retries *)

Definition reforward (m : OutInflightMessage) : sm Error unit :=
  match status m with
  | UnAck | UnReceived => forward (from m) (set_dup (publish m))
  | UnComplete =>
      let! expiry_check_res := message_expiry_check (from m) (publish m) in
      if is_expiry expiry_check_res then sret tt
      else
        let! sent := mail (MSendRerelease m) in
        if sent then sret tt else sthrow receiver_gone
  end.

(** [while let Some(m) = pop_front_timeout() { reforward(m)? }]. *)
Fixpoint retry_loop (fuel : nat) : sm Error unit :=
  match fuel with
  | O => slift Diverged
  | S fuel =>
      let! popped := fun s =>
        let '(r, o) := OutInflight.pop_front_timeout (timestamp_millis (world s)) (out_inflight s) in
        (Ok r, set_out_inflight o s) in
      match popped with
      | Some m => reforward m ;;; retry_loop fuel
      | None => sret tt
      end
  end.

Definition retry_timeouts : sm Error unit :=
  let! n := sget (fun s => OutInflight.len (out_inflight s)) in retry_loop (S (Z.to_nat n)).

Definition rerelease_ack (pid : Z) (old : option Z) : V5.PublishAck2 :=
  V5.mkPublishAck2 pid
    (if bool_decide (is_Some old) then PublishAck2ReasonM.SendOnward
     else PublishAck2ReasonM.PacketIdNotFound) [] None.

Definition send_rerelease (m : OutInflightMessage) : sm Reason unit :=
  match BPublish.packet_id (publish m) with
  | None => sthrow (RProtocolError (text "packet_id is None"))
  | Some pid =>
      let! old := push_inflight UnComplete (from m) (publish m) in
      let! five := sget sink5 in
      question (send (if five then Packet5 (V5.PPublishRelease (rerelease_ack pid old))
                      else Packet3 (V3.PPublishRelease pid)))
  end.

(** ** Acknowledgements *)

(** PUBACK and PUBCOMP. *)
Definition handle_acked (pid : Z) : sm Error unit :=
  let! removed := fun s =>
    let '(r, o) := OutInflight.remove (out_inflight s) pid in (Ok r, set_out_inflight o s) in
  match removed with
  | Some m => emit (MessageAcked (from m) (publish m))
  | None => sret tt
  end.

Definition set_uncomplete (pid : Z) : sm Error unit :=
  smodify (fun s => set_out_inflight
    (OutInflight.update_status (timestamp_millis (world s)) (out_inflight s) pid UnComplete) s).

(** PUBREC. *)
Definition handle_publish_received3 (pid : Z) : sm Error unit :=
  set_uncomplete pid ;;; send3 (V3.PPublishRelease pid).
Definition handle_publish_received5 (a : V5.PublishAck) : sm Error unit :=
  set_uncomplete (V5.pa_packet_id a) ;;;
  send5 (V5.PPublishRelease
           (V5.mkPublishAck2 (V5.pa_packet_id a) PublishAck2ReasonM.SendOnward [] None)).
End outbound.
