(* ===== verification/SessionDelivery.v ===== *)
(** * Delivery to the client, its acknowledgements and the retries

    The outbound handlers leave the inbound side alone; delivery registers
    a message under a fresh packet id; acknowledgements move it through
    the window. *)

From stdpp Require Import prelude list strings gmap.
From Stdlib Require Import ZArith Lia.
From S2P Require Import Prelude CodecTypes CodecUtils CodecV3 CodecV5Types Topic BrokerTypes Subscription Queue Inflight Connection Fitter TopicAlias Delayed Session SessionLogic SessionOutbound.

Local Open Scope Z_scope.

Section delivery.
Context {W Q : Type} `{!Broker W} `{!DequeMap OutInflightMessage Q} `{!DequeMapOk OutInflightMessage Q}.
Context (try_send_ok : nat -> nat -> bool).
Local Open Scope session_scope.
Abbreviation state := (SessionState W Q).
Abbreviation sm := (sess W Q).

(** ** The inbound side is left alone *)

Lemma alias_get_returns sa t :
  ServerTopicAliases.max_topic_aliases sa <= U16_MAX ->
  returns (ServerTopicAliases.get sa t).1 /\
  ServerTopicAliases.max_topic_aliases (ServerTopicAliases.get sa t).2
    = ServerTopicAliases.max_topic_aliases sa.
Proof.
  intros Hm. unfold ServerTopicAliases.get. destruct (_ =? 0); [done|].
  destruct (_ !! _); [done|]. set (n := Z.of_nat (size (ServerTopicAliases.aliases sa))).
  destruct (Z.leb_spec (ServerTopicAliases.max_topic_aliases sa) n); [done|].
  unfold U16_MAX in Hm. unfold wrap. rewrite Z.mod_small by lia.
  destruct (Z.eqb_spec (n + 1) 0); [lia|done].
Qed.

Lemma sink_publish_v5_returns sa p e :
  default 0 (ServerTopicAliases.max_topic_aliases <$> sa) <= U16_MAX ->
  returns (sink_publish_v5 sa p e).1 /\
  ServerTopicAliases.max_topic_aliases <$> (sink_publish_v5 sa p e).2
    = ServerTopicAliases.max_topic_aliases <$> sa.
Proof.
  intros Hm. unfold sink_publish_v5. destruct sa as [sa|]; [|done]. simpl in Hm.
  destruct (alias_get_returns sa (topic p) Hm) as [Hr Hmax].
  destruct (ServerTopicAliases.get sa (topic p)) as [[[t a]|e0| |] sa']; simpl in *; try done;
    by rewrite Hmax.
Qed.

Lemma quiet_state {E A} (f : state -> A * state) :
  (forall s, quiet_step s (f s).2) -> quiet (E := E) (fun s => let '(a, s') := f s in (Ok a, s')).
Proof. intros Hf s _. unfold swp. specialize (Hf s). by destruct (f s). Qed.

(** Changes of the outbound fields alone. *)
Lemma quiet_fields (s : state) o c l :
  quiet_step s (set_out_inflight o s) /\ quiet_step s (set_queue c s) /\ quiet_step s (set_rx l s).
Proof. split_and!; (split_and!; try done; exists []; by rewrite app_nil_r). Qed.

Lemma quiet_expiry_check f p : quiet (message_expiry_check (Q := Q) f p).
Proof. unfold message_expiry_check. auto 10 with quiet. Qed.

Lemma quiet_push {E} st f p : quiet (E := E) (push_inflight (W := W) (Q := Q) st f p).
Proof.
  intros s _. unfold push_inflight, swp. destruct (OutInflight.push_back _ _) as [old o].
  apply (quiet_fields s o (deliver_queue s) (rx s)).
Qed.

Lemma next_id_returns (o : OutInflight.t (Q := Q)) : returns (OutInflight.next_id o).1.
Proof.
  assert (Hr : forall n k, returns (OutInflight.next_id_loop n (OutInflight.queues o) k).1).
  { induction n as [|n IH]; intros k; cbn [OutInflight.next_id_loop]; [done|].
    destruct (k =? 0); [apply IH|]. destruct (negb _); [done|apply IH]. }
  unfold OutInflight.next_id. specialize (Hr (Z.to_nat U16_MAX) (OutInflight.next o)).
  by destruct (OutInflight.next_id_loop _ _ _).
Qed.

Lemma quiet_next_id : quiet (next_packet_id (W := W) (Q := Q)).
Proof.
  intros s _. unfold next_packet_id, swp. pose proof (next_id_returns (out_inflight s)) as Hr.
  destruct (OutInflight.next_id (out_inflight s)) as [[pid|e| |] o]; try done;
    apply (quiet_fields s o (deliver_queue s) (rx s)).
Qed.

Lemma quiet_sink_publish p e : quiet (sink_publish (W := W) (Q := Q) p e).
Proof.
  unfold sink_publish. intros s Ha. swp_step. swp_step. swp_step; [|by apply send_quiet].
  swp_step. swp_step. pose proof (sink_publish_v5_returns (server_topic_aliases s) (BPublish.inner p) e Ha)
    as [Hr Hmax].
  destruct (sink_publish_v5 _ _ _) as [r sa]. simpl in Hr, Hmax. swp_step. swp_step.
  assert (Hq : quiet_step s (set_server_aliases sa s)).
  { split_and!; try done.
    - unfold same_connection, alias_max. ssimpl. by rewrite Hmax.
    - exists []. by rewrite app_nil_r. }
  destruct r as [p'|[]| |]; try done. swp_step. unfold slift, swp at 1.
  eapply swp_mono; [by apply send_quiet|..]; intros ? s' Hs'; by apply (quiet_trans s _ s' Hq).
Qed.

Lemma quiet_deliver f p : quiet (deliver (W := W) (Q := Q) f p).
Proof.
  unfold deliver. apply quiet_bind; [apply quiet_expiry_check|]. intros r.
  destruct (is_expiry r); [auto 10 with quiet|].
  apply quiet_bind.
  { destruct (needs_packet_id p); [|auto with quiet].
    apply quiet_bind; [apply quiet_next_id|auto with quiet]. }
  intros p1. apply quiet_bind; [auto with quiet|]. intros c. apply quiet_bind; [apply quiet_sink_publish|].
  intros _. destruct (moment_status _); [|auto with quiet].
  apply quiet_bind; [apply quiet_push|auto with quiet].
Qed.

Lemma quiet_poll {E} :
  quiet (E := E) (fun s : state => let '(r, c) := Queue.poll_next (deliver_queue s) in (Ok r, set_queue c s)).
Proof.
  intros s _. unfold swp. destruct (Queue.poll_next (deliver_queue s)) as [r c].
  apply (quiet_fields s (out_inflight s) c (rx s)).
Qed.

Lemma quiet_deliver_next : quiet (deliver_next (W := W) (Q := Q) false).
Proof.
  unfold deliver_next. intros s Ha. swp_step. swp_step. unfold OutInflight.has_credit at 1.
  destruct (_ <? 0); simpl;
    (destruct (_ <? _); [|by apply quiet_ret]); revert s Ha;
    (apply quiet_bind; [apply quiet_poll|]); intros [|[[f p]|]]; auto using quiet_deliver with quiet.
Qed.

Lemma quiet_mail m : quiet (mail (W := W) (Q := Q) m).
Proof.
  intros s _. unfold mail, swp. destruct (rx_closed s); [apply quiet_refl|].
  apply (quiet_fields s (out_inflight s) (deliver_queue s) (rx s ++ [m])).
Qed.

Lemma quiet_forward f p : quiet (forward (W := W) (Q := Q) f p).
Proof. unfold forward. auto 10 using quiet_mail with quiet. Qed.

Lemma quiet_enqueue f p : quiet (enqueue (W := W) (Q := Q) try_send_ok f p).
Proof.
  unfold enqueue. apply quiet_bind.
  - intros s _. unfold swp. destruct (Queue.send _ _ _ _) as [r c].
    apply (quiet_fields s (out_inflight s) c (rx s)).
  - intros [|[f' p']| |]; auto 10 with quiet.
Qed.

Lemma quiet_reforward m : quiet (reforward (W := W) (Q := Q) m).
Proof.
  unfold reforward. destruct (status m); try apply quiet_forward.
  apply quiet_bind; [apply quiet_expiry_check|]. intros r. destruct (is_expiry r); [auto with quiet|].
  apply quiet_bind; [apply quiet_mail|]. intros []; auto with quiet.
Qed.

Lemma quiet_handle_acked pid : quiet (handle_acked (W := W) (Q := Q) pid).
Proof.
  unfold handle_acked. apply quiet_bind.
  - intros s _. unfold swp. destruct (OutInflight.remove _ _) as [r o].
    apply (quiet_fields s o (deliver_queue s) (rx s)).
  - intros [m|]; auto with quiet.
Qed.

Lemma quiet_set_uncomplete pid : quiet (set_uncomplete (W := W) (Q := Q) pid).
Proof. apply quiet_modify. intros s. apply (proj1 (quiet_fields s
  (OutInflight.update_status (timestamp_millis (world s)) (out_inflight s) pid UnComplete) (deliver_queue s) (rx s))). Qed.

Lemma quiet_send_rerelease m : quiet (send_rerelease (W := W) (Q := Q) m).
Proof.
  unfold send_rerelease. destruct (BPublish.packet_id (publish m)) as [pid|]; [|auto with quiet].
  apply quiet_bind; [apply quiet_push|]. intros old. apply quiet_bind; [auto with quiet|]. intros five.
  apply quiet_question, quiet_send. by destruct five.
Qed.

(** ** Retries come to an end *)

Lemma expiry_check_out f p (s : state) :
  swp (message_expiry_check f p) s (fun _ s' => out_inflight s' = out_inflight s)
    (fun _ s' => out_inflight s' = out_inflight s).
Proof. unfold message_expiry_check. swp_step. swp_step. swp_step; [by swp_step|]. by do 5 swp_step. Qed.

Lemma forward_out f p (s : state) :
  swp (forward f p) s (fun _ s' => out_inflight s' = out_inflight s)
    (fun _ s' => out_inflight s' = out_inflight s).
Proof.
  unfold forward. swp_step. unfold mail, swp at 1. by destruct (rx_closed s); repeat swp_step.
Qed.

Lemma reforward_out m (s : state) :
  swp (reforward m) s (fun _ s' => out_inflight s' = out_inflight s)
    (fun _ s' => out_inflight s' = out_inflight s).
Proof.
  unfold reforward. destruct (status m); try apply forward_out. swp_step.
  eapply swp_mono; [apply expiry_check_out| |done]. intros r s1 H1. cbv beta.
  swp_step; [by swp_step|]. swp_step. unfold mail, swp at 1. by destruct (rx_closed s1); repeat swp_step.
Qed.

Lemma pop_timeout_len now (o : OutInflight.t (Q := Q)) m o' :
  OutInflight.pop_front_timeout now o = (Some m, o') -> OutInflight.len o = OutInflight.len o' + 1.
Proof.
  unfold OutInflight.pop_front_timeout. destruct (OutInflight.front_timeout now o); [|done].
  intros H. destruct (OutInflight.pop_front_iter o) as [Ht Hh]. rewrite H in Ht, Hh. simpl in Ht, Hh.
  unfold OutInflight.len. rewrite !dq_len_spec, Ht.
  destruct (dq_iter (OutInflight.queues o)); simpl in *; [done|lia].
Qed.

Lemma retry_loop_quiet fuel (s : state) :
  alias_ok s -> OutInflight.len (out_inflight s) < Z.of_nat fuel ->
  swp (retry_loop fuel) s (fun _ s' => quiet_step s s') (fun _ s' => quiet_step s s').
Proof.
  revert s. induction fuel as [|fuel IH]; intros s Ha Hf.
  { unfold OutInflight.len in Hf. rewrite dq_len_spec in Hf. lia. }
  cbn [retry_loop]. swp_step. unfold swp at 1.
  destruct (OutInflight.pop_front_timeout _ (out_inflight s)) as [[m|] o] eqn:Hp; cbv beta;
    destruct (quiet_fields s o (deliver_queue s) (rx s)) as (Hq & _); [|by swp_step].
  swp_step. apply pop_timeout_len in Hp.
  assert (Hb : swp (reforward m) (set_out_inflight o s)
    (fun _ s' => quiet_step s s' /\ out_inflight s' = o) (fun _ s' => quiet_step s s')).
  { pose proof (quiet_reforward m _ (quiet_alias _ _ Hq Ha)) as H1.
    pose proof (reforward_out m (set_out_inflight o s)) as H2. unfold swp in *.
    destruct (reforward m (set_out_inflight o s)) as [[] s']; try done;
      (split || idtac); try done; by apply (quiet_trans s _ s' Hq). }
  eapply swp_mono; [exact Hb| |done]. intros _ s1 [Hq1 Ho1]. cbv beta.
  eapply swp_mono; [apply IH|..].
  - by apply (quiet_alias s).
  - rewrite Ho1. lia.
  - intros x s2 H2. by apply (quiet_trans s s1 s2).
  - intros x s2 H2. by apply (quiet_trans s s1 s2).
Qed.

Lemma quiet_retry : quiet (retry_timeouts (W := W) (Q := Q)).
Proof.
  intros s Ha. unfold retry_timeouts. swp_step. swp_step. apply retry_loop_quiet; [done|].
  unfold OutInflight.len. rewrite dq_len_spec. lia.
Qed.

(** ** A delivered message is registered *)

(** The packet on the wire; the topic of an MQTT 5 one may be an alias. *)
Definition carries (pkt : Packet) (p : BPublish) : Prop :=
  match pkt with
  | Packet3 (V3.PPublish q) => q = BPublish.inner p
  | Packet5 (V5.PPublish q) =>
      dup q = dup (BPublish.inner p) /\ retain q = retain (BPublish.inner p) /\
      qos q = qos (BPublish.inner p) /\ packet_id q = BPublish.packet_id p /\
      payload q = payload (BPublish.inner p)
  | _ => False
  end.

Lemma sink_publish_spec p e (s : state) :
  alias_ok s ->
  swp (sink_publish p e) s
    (fun _ s' => out_inflight s' = out_inflight s /\
       exists pkt, carries pkt p /\ trace s' = trace s ++ [Sent pkt])
    (fun _ s' => out_inflight s' = out_inflight s /\
       exists pkt, carries pkt p /\ trace s' = trace s ++ [SendFailed pkt]).
Proof.
  intros Ha. unfold sink_publish. swp_step. swp_step. swp_step; swap 1 2.
  { swp_step; (split; [done|]); eexists; (split; [|done]); done. }
  swp_step. swp_step. pose proof (sink_publish_v5_returns (server_topic_aliases s) (BPublish.inner p) e Ha)
    as [Hr _].
  destruct (sink_publish_v5 _ _ _) as [r sa] eqn:Hp. simpl in Hr. swp_step. swp_step.
  destruct r as [q|[]| |]; try done. swp_step. unfold slift, swp at 1.
  assert (Hc : carries (Packet5 (V5.PPublish q)) p).
  { unfold sink_publish_v5 in Hp. by repeat case_match; simplify_eq. }
  swp_step; (split; [done|]); eexists; (split; [exact Hc|done]).
Qed.

(** A broker without plug-ins on the way out. *)
Class NoDeliveryHooks : Prop := {
  no_expiry_hook from p w : hook_message_expiry from p w = (false, w);
  no_delivered_hook from p w : hook_message_delivered from p w = (None, w);
}.

Lemma next_packet_id_ok (s : state) :
  u16 (OutInflight.next (out_inflight s)) -> OutInflight.len (out_inflight s) < 65534 ->
  exists pid o, next_packet_id s = (Ok (Some pid), set_out_inflight o s) /\ 1 <= pid <= U16_MAX /\
    OutInflight.get (out_inflight s) pid = None /\
    OutInflight.queues o = OutInflight.queues (out_inflight s).
Proof.
  intros Hn Hl. destruct (OutInflight.next_id_ok (out_inflight s) Hn Hl) as (pid & o & Hid & Hp & He & Hq & _).
  exists pid, o. unfold next_packet_id. rewrite Hid. unfold nonzero.
  destruct (Z.eqb_spec pid 0); [lia|]. split_and!; [done|lia|lia|by apply OutInflight.exist_get|done].
Qed.

(** The last part of [deliver]. *)
Lemma register_spec st f p pid (s : state) :
  BPublish.packet_id p = Some pid -> moment_status (qos (BPublish.inner p)) = Some st ->
  swp (match moment_status (qos (BPublish.inner p)) with
       | Some st => push_inflight st f p ;;; sret tt
       | None => sret tt
       end) s
    (fun _ s' => trace s' = trace s /\
       OutInflight.get (out_inflight s') pid =
         Some (OutMsg_new (timestamp_millis (world s)) st f p) /\
       forall id', id' <> pid -> OutInflight.get (out_inflight s') id' = OutInflight.get (out_inflight s) id')
    (fun (_ : Error) _ => False).
Proof.
  intros Hpid ->. swp_step. unfold swp at 1, push_inflight.
  set (m := OutMsg_new _ st f p). pose proof (OutInflight.push_back_get (out_inflight s) m pid) as Hg.
  destruct (OutInflight.push_back (out_inflight s) m) as [old o]. swp_step. ssimpl. by split; [|apply Hg].
Qed.

(** C13. Delivery: a message of QoS 1 or 2 that is not a repetition and has
    not expired is given a packet id between 1 and 65535 that no message in
    flight uses, and exactly one PUBLISH goes out, with that id. If the
    network takes it the message is in the window under the id, waiting for
    PUBACK or PUBREC, and nothing else of the window changed; if not, the
    window did not change. *)
Theorem delivery_registered `{!NoDeliveryHooks} (s : state) (f : From) (p : BPublish)
    (st : MomentStatus) (i : option Z) :
  alias_ok s -> u16 (OutInflight.next (out_inflight s)) -> OutInflight.len (out_inflight s) < 65534 ->
  moment_status (qos (BPublish.inner p)) = Some st -> dup (BPublish.inner p) = false ->
  check_expiry (timestamp_millis (world s)) (expiry_millis (listen_cfg (st_fitter s)) p) p = Remaining i ->
  exists pid, 1 <= pid <= U16_MAX /\ OutInflight.get (out_inflight s) pid = None /\
    let p' := set_packet_id p (Some pid) in
    swp (deliver f p) s
      (fun _ s' =>
         (exists m, OutInflight.get (out_inflight s') pid = Some m /\ Inflight.publish m = p' /\
            Inflight.from m = f /\ status m = st) /\
         (forall id', id' <> pid -> OutInflight.get (out_inflight s') id' = OutInflight.get (out_inflight s) id') /\
         exists pkt, carries pkt p' /\ trace s' = trace s ++ [Sent pkt])
      (fun _ s' =>
         (forall id', OutInflight.get (out_inflight s') id' = OutInflight.get (out_inflight s) id') /\
         exists pkt, carries pkt p' /\ trace s' = trace s ++ [SendFailed pkt]).
Proof.
  intros Ha Hn Hl Hst Hdup Hexp.
  destruct (next_packet_id_ok s Hn Hl) as (pid & o & Hid & Hpid & Hfree & Hq).
  exists pid. split_and!; [lia|lia|done|]. intros p'.
  assert (Hneed : needs_packet_id p = true).
  { unfold needs_packet_id. rewrite Hdup. by destruct (qos (BPublish.inner p)). }
  unfold deliver, message_expiry_check. swp_step. swp_step. swp_step. rewrite no_expiry_hook in H0. simplify_eq.
  replace (set_world (world s) s) with s by (by destruct s).
  do 5 swp_step. rewrite Hexp. cbn [is_expiry]. rewrite Hneed. swp_step. swp_step.
  unfold swp at 1. rewrite Hid.
  swp_step. swp_step. swp_step. rewrite no_delivered_hook in H0. simplify_eq. cbn [default from_option].
  swp_step. eapply swp_mono; [apply sink_publish_spec; exact Ha|..].
  - intros _ s1 [Ho (pkt & Hc & Ht)]. cbv beta. eapply swp_mono; [by apply (register_spec st f p' pid)| |done].
    intros _ s2 (Ht2 & Hg & Hoth). split_and!.
    + by eexists.
    + intros id' Hne. rewrite Hoth, Ho by done. ssimpl. unfold OutInflight.get. by rewrite Hq.
    + exists pkt. split; [done|]. by rewrite Ht2, Ht.
  - intros e s1 [Ho (pkt & Hc & Ht)]. split.
    + intros id'. rewrite Ho. ssimpl. unfold OutInflight.get. by rewrite Hq.
    + exists pkt. split; [done|]. by rewrite Ht.
Qed.

(** ** Acknowledgements *)

(** PUBREC, as the version of the connection has it. *)
Definition handle_publish_received (s : state) (pid : Z) : sm Error unit :=
  if sink5 s then handle_publish_received5 (V5.mkPublishAck pid PublishAckReasonM.Success [] None)
  else handle_publish_received3 pid.

Definition pubrel (s : state) (pid : Z) : Packet :=
  if sink5 s
  then Packet5 (V5.PPublishRelease (V5.mkPublishAck2 pid PublishAck2ReasonM.SendOnward [] None))
  else Packet3 (V3.PPublishRelease pid).

Lemma handle_acked_spec (s : state) pid :
  exists o, handle_acked pid s =
    (Ok tt, match OutInflight.get (out_inflight s) pid with
            | Some m => set_trace (trace s ++ [MessageAcked (Inflight.from m) (Inflight.publish m)]) (set_out_inflight o s)
            | None => set_out_inflight o s
            end) /\
    OutInflight.get o pid = None /\
    forall id', id' <> pid -> OutInflight.get o id' = OutInflight.get (out_inflight s) id'.
Proof.
  destruct (OutInflight.remove_get (out_inflight s) pid) as (Hr & Hn & Hoth).
  unfold handle_acked, sbind. destruct (OutInflight.remove (out_inflight s) pid) as [r o]. simpl in *. subst r.
  exists o. by destruct (OutInflight.get (out_inflight s) pid).
Qed.

Lemma received_spec (s : state) pid m :
  OutInflight.get (out_inflight s) pid = Some m ->
  swp (handle_publish_received s pid) s
    (fun _ s' => OutInflight.get (out_inflight s') pid =
         Some (OutMsg_update_status (timestamp_millis (world s)) UnComplete m) /\
       (forall id', id' <> pid -> OutInflight.get (out_inflight s') id' = OutInflight.get (out_inflight s) id') /\
       trace s' = trace s ++ [Sent (pubrel s pid)])
    (fun _ s' => trace s' = trace s ++ [SendFailed (pubrel s pid)]).
Proof.
  intros Hm. destruct (OutInflight.update_status_get (timestamp_millis (world s)) (out_inflight s) pid UnComplete)
    as (Hg & _ & Hoth).
  unfold handle_publish_received, pubrel, handle_publish_received5, handle_publish_received3, set_uncomplete,
    send3, send5.
  destruct (sink5 s) eqn:H5; do 4 swp_step; ssimpl; cbn [V5.pa_packet_id]; rewrite H5;
    swp_step; ssimpl; try done; (split_and!; [by apply Hg|done|done]).
Qed.

(** C14. The acknowledgements of the client. PUBACK or PUBCOMP takes the
    message with its packet id out of the window, reports it as
    acknowledged and touches no other; for an unknown id nothing happens.
    PUBREC moves the message to the second half of its handshake and
    answers with PUBREL, the message kept; the PUBCOMP that follows ends
    it. *)
Theorem outbound_handshake (s : state) (pid : Z) :
  let acked (s s' : state) (r : list Effect) :=
    OutInflight.get (out_inflight s') pid = None /\
    (forall id', id' <> pid -> OutInflight.get (out_inflight s') id' = OutInflight.get (out_inflight s) id') /\
    trace s' = trace s ++ r in
  (OutInflight.get (out_inflight s) pid = None ->
     exists s', handle_acked pid s = (Ok tt, s') /\ acked s s' []) /\
  (forall m, OutInflight.get (out_inflight s) pid = Some m ->
     (exists s', handle_acked pid s = (Ok tt, s') /\ acked s s' [MessageAcked (Inflight.from m) (Inflight.publish m)]) /\
     swp (handle_publish_received s pid) s
       (fun _ s1 => OutInflight.get (out_inflight s1) pid =
            Some (OutMsg_update_status (timestamp_millis (world s)) UnComplete m) /\
          trace s1 = trace s ++ [Sent (pubrel s pid)] /\
          exists s2, handle_acked pid s1 = (Ok tt, s2) /\
            acked s s2 [Sent (pubrel s pid); MessageAcked (Inflight.from m) (Inflight.publish m)])
       (fun _ s1 => trace s1 = trace s ++ [SendFailed (pubrel s pid)])).
Proof.
  intros acked. split.
  - intros Hn. destruct (handle_acked_spec s pid) as (o & Ha & Hg & Hoth). rewrite Hn in Ha.
    eexists. split; [exact Ha|]. split_and!; try done. by rewrite app_nil_r.
  - intros m Hm. split.
    + destruct (handle_acked_spec s pid) as (o & Ha & Hg & Hoth). rewrite Hm in Ha.
      eexists. split; [exact Ha|]. by split_and!.
    + eapply swp_mono; [by apply received_spec| |done]. intros _ s1 (Hg & Hoth & Ht).
      split_and!; [done|done|]. destruct (handle_acked_spec s1 pid) as (o & Ha & Hg1 & Hoth1).
      rewrite Hg in Ha. eexists. split; [exact Ha|]. split_and!; try done.
      * intros id' Hne. ssimpl. by rewrite Hoth1, Hoth.
      * ssimpl. by rewrite Ht, <- app_assoc.
Qed.
End delivery.
