(* ===== verification/SessionSubscribe.v ===== *)
(** * Subscribing and unsubscribing: [session.rs]

    The SUBSCRIBE and UNSUBSCRIBE packets of a session: the limits of the
    listener, the hooks, the access control, and the entry of the session
    in the shared state. *)

From stdpp Require Import prelude list strings gmap.
From Stdlib Require Import ZArith Lia.
From S2P Require Import Prelude CodecTypes CodecUtils CodecV3 CodecV5Types Topic BrokerTypes Subscription Queue Inflight Connection Fitter TopicAlias Delayed Session SessionLogic.

Local Open Scope Z_scope.

Section subscribe.
Context {W Q : Type} `{!Broker W} `{!Texts}.
Local Open Scope session_scope.
Abbreviation state := (SessionState W Q).
Abbreviation sm := (sess W Q).

Definition FilterError_to_error (e : FilterError) : Error :=
  Other match e with
        | IllegalFilter s => text "Illegal topic filter, " ++ debug_str s
        | SharedNotEnabled s => text "Shared subscription is not enabled, " ++ debug_str s
        | LimitNotEnabled s => text "Limit subscription is not enabled, " ++ debug_str s
        end.

Definition with_filter (sub : Subscribe) (tf : string) : Subscribe := mkSubscribe tf (sub_opts sub).
Definition with_qos (sub : Subscribe) (q : QoS) : Subscribe :=
  mkSubscribe (sub_filter sub) (set_qos (sub_opts sub) q).

Definition limited_text (limit count : Z) (tf : string) : bytes :=
  text "limited: " ++ format_int limit ++ text ", current count: " ++ format_int count
  ++ text ", topic_filter: " ++ text tf.

(** ** The limits of the listener *)

Definition check_max_subscriptions : sm Error unit :=
  let! cfg := sget (fun s => listen_cfg (st_fitter s)) in
  let! n := sget (fun s => session_subs_len (st_id s) (world s)) in
  if (0 <? max_subscriptions cfg) && (max_subscriptions cfg <=? n)
  then sthrow (Mqtt ETooManySubscriptions) else sret tt.

Definition check_topic_levels (tf : string) : sm Error unit :=
  let! cfg := sget (fun s => listen_cfg (st_fitter s)) in
  if 0 <? max_topic_levels cfg then
    let! t := slift (map_err (fun e => Other (topic_error_text e)) (Topic_from_str tf)) in
    if max_topic_levels cfg <? Z.of_nat (length t)
    then sthrow (Mqtt ETooManyTopicLevels) else sret tt
  else sret tt.

(** The clients that already hold the filter, this one apart. *)
Definition check_limit (sub : Subscribe) : sm Error unit :=
  match limit_subs (sub_opts sub) with
  | None => sret tt
  | Some limit =>
      let! client := sget (fun s => client_id (st_id s)) in
      let! rels := sget (fun s => relations_of (sub_filter sub) client (world s)) in
      let '(allow, count) :=
        match rels with
        | Some (true, n) => (true, n - 1)
        | Some (false, c) => (c <? limit, c)
        | None => (true, 0)
        end in
      if allow then sret tt
      else sthrow (Mqtt (ESubscribeLimited (limited_text limit count (sub_filter sub))))
  end.

Definition check_limits (sub : Subscribe) : sm Error unit :=
  check_max_subscriptions ;;;
  check_topic_levels (sub_filter sub) ;;;
  check_limit sub.

(** ** Subscribing *)

Definition enter (sub : Subscribe) : sm Error SubscribeReturn :=
  let! id := sget st_id in
  let! sub_ret := ask_outcome (entry_subscribe id sub) in
  match SubscribeReturn_success sub_ret with
  | Some q =>
      emit (SpawnedSubscribeMessages (sub_filter sub) (shared_group (sub_opts sub))
              (retain_handling (sub_opts sub)) (bool_decide (prev_opts sub_ret = None)) q) ;;;
      emit (SessionSubscribed sub) ;;;
      sret sub_ret
  | None => sret sub_ret
  end.

Definition subscribe_inner (sub : Subscribe) : sm Error SubscribeReturn :=
  check_limits sub ;;;
  let! cfg := sget (fun s => listen_cfg (st_fitter s)) in
  let sub := with_qos sub (QoS_less_value (opts_qos (sub_opts sub)) (max_qos_allowed cfg)) in
  let! adjusted := ask (hook_client_subscribe sub) in
  let sub := match adjusted with Some tf => with_filter sub tf | None => sub end in
  let! acl_result := ask (hook_client_subscribe_check_acl sub) in
  let refused_or_sub :=
    match acl_result with
    | Some r =>
        match SubscribeReturn_success r with
        | Some q => inr (with_qos sub (QoS_less_value (opts_qos (sub_opts sub)) q))
        | None => inl r
        end
    | None => inr sub
    end in
  match refused_or_sub with
  | inl r => sret r
  | inr sub => enter sub
  end.

Definition count_ack (r : SubscribeAckReason) : sm Error unit :=
  match r with
  | SubscribeAckReasonM.NotAuthorized => emit (Metric ClientSubscribeAuthError)
  | SubscribeAckReasonM.GrantedQos0 | SubscribeAckReasonM.GrantedQos1
  | SubscribeAckReasonM.GrantedQos2 => sret tt
  | _ => emit (Metric ClientSubscribeError)
  end.

Definition subscribe (sub : Subscribe) : sm Error SubscribeReturn :=
  let! ret := stry (subscribe_inner sub) in
  match ret with
  | Ok sub_ret => count_ack (ack_reason sub_ret) ;;; sret sub_ret
  | Err e => emit (Metric ClientSubscribeError) ;;; sthrow e
  | Panic => spanic
  | Diverged => slift Diverged
  end.

Definition unsubscribe (unsub : Unsubscribe) : sm Error unit :=
  let! adjusted := ask (hook_client_unsubscribe unsub) in
  let unsub := match adjusted with
               | Some tf => mkUnsubscribe tf (unsub_group unsub) | None => unsub end in
  let! id := sget st_id in
  let! ok := ask_outcome (entry_unsubscribe id unsub) in
  if ok then emit (SessionUnsubscribed unsub) else sret tt.

(** ** The packets *)

Definition subscription_settings : sm Error (bool * bool) :=
  let! cfg := sget (fun s => listen_cfg (st_fitter s)) in
  let! shared := sget (fun s => shared_subscription_supported cfg (world s)) in
  sret (shared, limit_subscription cfg).

Definition return_code (r : outcome Error SubscribeReturn) : V3.SubscribeReturnCode :=
  match r with
  | Ok sub_ret =>
      match SubscribeReturn_success sub_ret with
      | Some q => V3.Success q
      | None => V3.Failure
      end
  | _ => V3.Failure
  end.

Definition ack_status (r : outcome Error SubscribeReturn) : SubscribeAckReason :=
  match r with Ok sub_ret => ack_reason sub_ret | _ => SubscribeAckReasonM.UnspecifiedError end.

Fixpoint subscribe_each {F A} (make : F -> outcome FilterError Subscribe)
    (answer : outcome Error SubscribeReturn -> A) (filters : list F) : sm Error (list A) :=
  match filters with
  | [] => sret []
  | f :: rest =>
      let! s := slift (map_err FilterError_to_error (make f)) in
      let! r := stry (subscribe s) in
      let! acks := subscribe_each make answer rest in
      sret (answer r :: acks)
  end.

Definition subscribes_v3 (topic_filters : list (bytes * QoS)) : sm Error (list V3.SubscribeReturnCode) :=
  let! settings := subscription_settings in
  let '(shared, limited) := settings in
  subscribe_each (fun f => Subscribe_from_v3 f.1 f.2 shared limited) return_code topic_filters.

Definition subscribes_v5 (subs : V5.Subscribe) : sm Error V5.SubscribeAck :=
  let! settings := subscription_settings in
  let '(shared, limited) := settings in
  let! status := subscribe_each
    (fun f => Subscribe_from_v5 f.1 f.2 shared limited (V5.s_id subs)) ack_status
    (V5.s_topic_filters subs) in
  sret (V5.mkSubscribeAck (V5.s_packet_id subs) [] None status).

Fixpoint unsubscribe_each (shared limited : bool) (filters : list bytes) : sm Error unit :=
  match filters with
  | [] => sret tt
  | f :: rest =>
      let! unsub := slift (map_err FilterError_to_error (Unsubscribe_from f shared limited)) in
      unsubscribe unsub ;;;
      unsubscribe_each shared limited rest
  end.

Definition unsubscribes_v3 (topic_filters : list bytes) : sm Error unit :=
  let! settings := subscription_settings in
  let '(shared, limited) := settings in
  unsubscribe_each shared limited topic_filters.

Definition unsubscribes_v5 (unsubs : V5.Unsubscribe) : sm Error V5.UnsubscribeAck :=
  let! settings := subscription_settings in
  let '(shared, limited) := settings in
  unsubscribe_each shared limited (V5.u_topic_filters unsubs) ;;;
  sret (V5.mkUnsubscribeAck (V5.u_packet_id unsubs) [] None
          (const UnsubscribeAckReasonM.Success <$> V5.u_topic_filters unsubs)).

(** ** The inbound side is left alone *)

Lemma returns_map_err {E F A} (f : E -> F) (o : outcome E A) : returns o -> returns (map_err f o).
Proof. by destruct o. Qed.

Lemma quiet_check_levels tf : quiet (check_topic_levels tf).
Proof.
  unfold check_topic_levels. apply quiet_bind; [auto with quiet|]. intros cfg.
  destruct (0 <? max_topic_levels cfg); [|auto with quiet].
  apply quiet_bind; [|auto with quiet]. apply quiet_lift, returns_map_err, from_str_returns.
Qed.

Lemma quiet_check_limit sub : quiet (check_limit sub).
Proof.
  unfold check_limit. destruct (limit_subs _) as [limit|]; [|auto with quiet].
  do 2 (apply quiet_bind; [auto with quiet|intros ?]).
  destruct a0 as [[[] n]|]; auto with quiet.
Qed.

Lemma quiet_enter `{!BrokerOk W} sub : quiet (enter sub).
Proof.
  unfold enter. apply quiet_bind; [auto with quiet|intros ?].
  apply quiet_bind; [apply quiet_ask_outcome, entry_subscribe_returns|intros ?]. auto 8 with quiet.
Qed.

Lemma quiet_subscribe_inner `{!BrokerOk W} sub : quiet (subscribe_inner sub).
Proof.
  unfold subscribe_inner, check_limits, check_max_subscriptions.
  apply quiet_bind; [auto 8 using quiet_check_levels, quiet_check_limit with quiet|intros _].
  do 3 (apply quiet_bind; [auto with quiet|intros ?]). cbv zeta.
  destruct (match a1 with Some _ => _ | None => _ end) as [r|sub']; [auto with quiet|].
  apply quiet_enter.
Qed.

Lemma quiet_subscribe `{!BrokerOk W} sub : quiet (subscribe sub).
Proof.
  unfold subscribe, count_ack. apply quiet_try_bind; [apply quiet_subscribe_inner| |auto with quiet].
  intros r. apply quiet_bind; [|auto with quiet]. destruct (ack_reason r); auto with quiet.
Qed.

Lemma quiet_unsubscribe `{!BrokerOk W} unsub : quiet (unsubscribe unsub).
Proof.
  unfold unsubscribe. do 2 (apply quiet_bind; [auto with quiet|intros ?]).
  apply quiet_bind; [apply quiet_ask_outcome, entry_unsubscribe_returns|]. auto with quiet.
Qed.

Lemma Subscribe_from_returns tf q o shared limited sid :
  returns (Subscribe_from_v3 tf q shared limited) /\
  returns (Subscribe_from_v5 tf o shared limited sid) /\ returns (Unsubscribe_from tf shared limited).
Proof.
  assert (Hr : returns (parse_topic_filter (str tf) shared limited)).
  { unfold parse_topic_filter. repeat case_match; simplify_eq; try done; by repeat case_match. }
  unfold Subscribe_from_v3, Subscribe_from_v5, Unsubscribe_from.
  by destruct (parse_topic_filter (str tf) shared limited) as [[[] ?]|? | |].
Qed.

Lemma quiet_subscribe_each `{!BrokerOk W} {F A} (make : F -> outcome FilterError Subscribe)
    (answer : outcome Error SubscribeReturn -> A) filters :
  (forall f, returns (make f)) -> quiet (subscribe_each make answer filters).
Proof.
  intros Hm. induction filters as [|f rest IH]; simpl; [auto with quiet|].
  apply quiet_bind; [by apply quiet_lift, returns_map_err|]. intros sub.
  apply quiet_bind; [by apply quiet_try, quiet_subscribe|]. auto with quiet.
Qed.

Lemma quiet_settings : quiet (E := Error) subscription_settings.
Proof. unfold subscription_settings. auto with quiet. Qed.

Lemma quiet_subscribes_v3 `{!BrokerOk W} filters : quiet (subscribes_v3 filters).
Proof.
  unfold subscribes_v3. apply quiet_bind; [apply quiet_settings|]. intros [shared limited].
  apply quiet_subscribe_each. intros f. by apply (Subscribe_from_returns f.1 f.2 (V5.mkSubscriptionOptions
    AtMostOnce false false RetainHandlingM.AtSubscribe) shared limited None).
Qed.

Lemma quiet_subscribes_v5 `{!BrokerOk W} subs : quiet (subscribes_v5 subs).
Proof.
  unfold subscribes_v5. apply quiet_bind; [apply quiet_settings|]. intros [shared limited].
  apply quiet_bind; [|auto with quiet]. apply quiet_subscribe_each. intros f.
  by apply (Subscribe_from_returns f.1 AtMostOnce).
Qed.

Lemma quiet_unsubscribe_each `{!BrokerOk W} shared limited filters :
  quiet (unsubscribe_each shared limited filters).
Proof.
  induction filters as [|f rest IH]; simpl; [auto with quiet|].
  apply quiet_bind.
  - apply quiet_lift, returns_map_err. by apply (Subscribe_from_returns f AtMostOnce (V5.mkSubscriptionOptions
      AtMostOnce false false RetainHandlingM.AtSubscribe) shared limited None).
  - intros unsub. apply quiet_bind; [apply quiet_unsubscribe|done].
Qed.

Lemma quiet_unsubscribes_v3 `{!BrokerOk W} filters : quiet (unsubscribes_v3 filters).
Proof.
  unfold unsubscribes_v3. apply quiet_bind; [apply quiet_settings|]. intros [shared limited].
  apply quiet_unsubscribe_each.
Qed.

Lemma quiet_unsubscribes_v5 `{!BrokerOk W} unsubs : quiet (unsubscribes_v5 unsubs).
Proof.
  unfold unsubscribes_v5. apply quiet_bind; [apply quiet_settings|]. intros [shared limited].
  apply quiet_bind; [apply quiet_unsubscribe_each|auto with quiet].
Qed.

(** ** What a granted subscription went through *)

(** The limits of the listener leave room for the filter. *)
Definition within_limits (s : state) (sub : Subscribe) : Prop :=
  let cfg := listen_cfg (st_fitter s) in
  (0 < max_subscriptions cfg -> session_subs_len (st_id s) (world s) < max_subscriptions cfg) /\
  (0 < max_topic_levels cfg -> exists t, Topic_from_str (sub_filter sub) = Ok t /\
     Z.of_nat (length t) <= max_topic_levels cfg) /\
  (forall limit others, limit_subs (sub_opts sub) = Some limit ->
     relations_of (sub_filter sub) (client_id (st_id s)) (world s) = Some (false, others) ->
     others < limit).

(** [sub'] is what access control was asked about, with a quality of
    service that no one exceeds. *)
Definition granted (s : state) (sub sub' : Subscribe) : Prop :=
  let q := opts_qos (sub_opts sub') in
  (QoS_value q <= QoS_value (opts_qos (sub_opts sub))) /\
  QoS_value q <= QoS_value (max_qos_allowed (listen_cfg (st_fitter s))) /\
  shared_group (sub_opts sub') = shared_group (sub_opts sub) /\
  exists asked w, sub_filter asked = sub_filter sub' /\
    match (hook_client_subscribe_check_acl asked w).1 with
    | Some r => exists qa, SubscribeReturn_success r = Some qa /\ QoS_value q <= QoS_value qa
    | None => True
    end.

(** The shared state grants what it is asked for. *)
Class EntryOk : Prop := {
  entry_grants id sub w r w' : entry_subscribe id sub w = (Ok r, w') ->
    SubscribeReturn_success r = Some (opts_qos (sub_opts sub));
}.

Lemma less_value_le a b :
  QoS_value (QoS_less_value a b) <= QoS_value a /\ QoS_value (QoS_less_value a b) <= QoS_value b.
Proof. destruct a, b; simpl; lia. Qed.

Lemma with_qos_qos sub q : opts_qos (sub_opts (with_qos sub q)) = q.
Proof. by destruct sub as [? []]. Qed.
Lemma with_qos_group sub q : shared_group (sub_opts (with_qos sub q)) = shared_group (sub_opts sub).
Proof. by destruct sub as [? []]. Qed.

Lemma check_limit_spec sub (s : state) :
  swp (check_limit sub) s
    (fun _ s' => s' = s /\ forall limit others, limit_subs (sub_opts sub) = Some limit ->
       relations_of (sub_filter sub) (client_id (st_id s)) (world s) = Some (false, others) ->
       others < limit)
    (fun _ s' => s' = s).
Proof.
  unfold check_limit. destruct (limit_subs (sub_opts sub)) as [limit|]; [|by swp_step].
  do 4 swp_step. destruct (relations_of _ _ _) as [[[] n]|] eqn:Hr; [by swp_step| |by swp_step].
  swp_step; swp_step; [|done]. split; [done|]. intros ?? [= <-] [= <-]. by apply Z.ltb_lt.
Qed.

Lemma check_levels_spec tf (s : state) :
  swp (check_topic_levels tf) s
    (fun _ s' => s' = s /\ let cfg := listen_cfg (st_fitter s) in
       (0 < max_topic_levels cfg -> exists t, Topic_from_str tf = Ok t /\
          Z.of_nat (length t) <= max_topic_levels cfg))
    (fun _ s' => s' = s).
Proof.
  unfold check_topic_levels. do 2 swp_step.
  destruct (Z.ltb_spec 0 (max_topic_levels (listen_cfg (st_fitter s)))) as [Hlev|Hlev].
  - swp_step. apply swp_lift; [apply returns_map_err, from_str_returns| |done].
    intros t Ht. destruct (Topic_from_str tf) as [t'|? | |] eqn:Hf; simplify_eq/=.
    swp_step; swp_step; [done|]. split; [done|]. intros _. exists t. apply Z.ltb_ge in Heqb. done.
  - swp_step. split; [done|]. cbn. lia.
Qed.

(** The checks change nothing, and pass only within the limits. *)
Lemma checks_spec sub (s : state) :
  swp (check_limits sub) s (fun _ s' => s' = s /\ within_limits s sub) (fun _ s' => s' = s).
Proof.
  unfold check_limits, check_max_subscriptions. do 5 swp_step. swp_step; swp_step; [done|]. apply andb_false_iff in Heqb.
  swp_step. eapply swp_mono; [apply check_levels_spec| |done]. intros _ ? [-> H2]. cbv beta.
  eapply swp_mono; [apply check_limit_spec| |done]. intros _ ? [-> H3].
  split; [done|]. split; [|by split].
  destruct Heqb as [Hb|Hb]; [apply Z.ltb_ge in Hb|apply Z.leb_gt in Hb]; lia.
Qed.

(** After the checks. *)
Definition entered (s s' : state) (sub : Subscribe) (r : SubscribeReturn) : Prop :=
  match SubscribeReturn_success r with
  | Some q => exists sub', granted s sub sub' /\ opts_qos (sub_opts sub') = q /\
      trace s' = trace s ++
        [SpawnedSubscribeMessages (sub_filter sub') (shared_group (sub_opts sub'))
           (retain_handling (sub_opts sub')) (bool_decide (prev_opts r = None)) q;
         SessionSubscribed sub']
  | None => trace s' = trace s
  end.

Lemma enter_spec `{!BrokerOk W} `{!EntryOk} (s s1 : state) sub sub' :
  granted s sub sub' -> trace s1 = trace s ->
  swp (enter sub') s1 (fun r s' => entered s s' sub r) (fun _ s' => trace s' = trace s).
Proof.
  intros Hg Ht. unfold enter. do 3 swp_step. apply swp_ask_outcome; [apply entry_subscribe_returns| |done].
  intros r w Hr. apply entry_grants in Hr. rewrite Hr. do 5 swp_step. unfold entered. rewrite Hr.
  exists sub'. split_and!; [done|done|]. ssimpl. by rewrite Ht, <- app_assoc.
Qed.

Lemma subscribe_inner_spec `{!BrokerOk W} `{!EntryOk} sub (s : state) :
  swp (subscribe_inner sub) s
    (fun r s' => entered s s' sub r /\ within_limits s sub) (fun _ s' => trace s' = trace s).
Proof.
  unfold subscribe_inner. swp_step. eapply swp_mono; [apply checks_spec| |by intros ? ? ->].
  intros _ ? [-> Hlim]. cbv beta. do 2 swp_step.
  set (sub1 := with_qos sub _). do 2 swp_step.
  set (sub2 := match a with Some tf => with_filter sub1 tf | None => sub1 end).
  assert (H2 : opts_qos (sub_opts sub2) = opts_qos (sub_opts sub1) /\
    shared_group (sub_opts sub2) = shared_group (sub_opts sub)).
  { unfold sub2, sub1. rewrite <- (with_qos_group sub (QoS_less_value (opts_qos (sub_opts sub))
      (max_qos_allowed (listen_cfg (st_fitter s))))). by destruct a. }
  do 2 swp_step.
  assert (Hq1 : opts_qos (sub_opts sub1) = QoS_less_value (opts_qos (sub_opts sub))
    (max_qos_allowed (listen_cfg (st_fitter s)))) by apply with_qos_qos.
  destruct (less_value_le (opts_qos (sub_opts sub)) (max_qos_allowed (listen_cfg (st_fitter s)))) as [Hr Hm].
  rewrite <- Hq1 in Hr, Hm. destruct H2 as [H2q H2g]. rewrite <- H2q in Hr, Hm.
  destruct a0 as [r|]; [destruct (SubscribeReturn_success r) as [qa|] eqn:Hr1|].
  - destruct (less_value_le (opts_qos (sub_opts sub2)) qa) as [Hle Hla].
    eapply swp_mono; [apply (enter_spec s _ sub)|by split|done]; [|done].
    unfold granted. rewrite with_qos_qos, with_qos_group. split_and!; [lia|lia|done|].
    exists sub2, (world (set_world w s)). split; [done|]. rewrite H3. by exists qa.
  - swp_step. split; [|done]. unfold entered. by rewrite Hr1.
  - eapply swp_mono; [apply (enter_spec s _ sub)|by split|done]; [|done].
    split_and!; [done|done|done|]. exists sub2, (world (set_world w s)). by rewrite H3.
Qed.


(** ** The answers *)

Lemma subscribe_each_spec `{!BrokerOk W} {F A} (make : F -> outcome FilterError Subscribe)
    (answer : outcome Error SubscribeReturn -> A) filters (s : state) :
  (forall f, returns (make f)) -> alias_ok s ->
  swp (subscribe_each make answer filters) s
    (fun acks _ => length acks = length filters)
    (fun _ _ => exists f e, f ∈ filters /\ make f = Err e).
Proof.
  intros Hm. revert s. induction filters as [|f rest IH]; intros s Ha; cbn [subscribe_each]; [by swp_step|].
  swp_step. apply swp_lift; [by apply returns_map_err| |].
  2:{ intros e He. destruct (make f) eqn:Hf; simplify_eq/=. exists f. eexists. split; [apply list_elem_of_here|done]. }
  intros sub _. swp_step. swp_step. eapply swp_mono; [by apply quiet_subscribe|..]; intros x s1 Hq; cbv beta;
    swp_step; (eapply swp_mono; [apply IH, (quiet_alias s s1 Hq Ha)|..]);
    first [intros acks ? Hl; swp_step; simpl; by rewrite Hl
          |intros ? ? (f' & e' & Hin & He); exists f', e'; split; [by apply list_elem_of_further|done]].
Qed.

End subscribe.
