(* ===== verification/SessionLoop.v ===== *)
(** * The event loop of a session: [session.rs]

    [process_mqtt_message] and [process_message] as a whole, taking over
    the state of an earlier session, and the loop that serves the network,
    the mailbox, the queue and the timers. *)

From stdpp Require Import prelude list strings gmap.
From Stdlib Require Import ZArith Lia.
From S2P Require Import Prelude CodecTypes CodecUtils CodecV3 CodecV5Types Topic BrokerTypes Subscription Queue Inflight Connection Fitter TopicAlias Delayed Session SessionLogic SessionInbound SessionQoS2 SessionOutbound SessionDelivery SessionSubscribe.

Local Open Scope Z_scope.

Section loop.
Context {W Q : Type} `{!Broker W} `{!Texts} `{!DequeMap OutInflightMessage Q}.
Context (try_send_ok : nat -> nat -> bool).
Local Open Scope session_scope.
Abbreviation state := (SessionState W Q).
Abbreviation sm := (sess W Q).

(** ** Disconnect information ([DefaultSession]) *)

Definition disconnected_reason_add {E} (r : Reason) : sm E unit :=
  smodify (fun s => let d := disconnect_info s in
    set_disconnect_info (DisconnectInfo.mk (DisconnectInfo.disconnected_at d)
      (DisconnectInfo.reasons d ++ [r]) (DisconnectInfo.mqtt_disconnect d)) s).

Definition disconnected_reason_take {E} : sm E Reason := fun s =>
  let d := disconnect_info s in
  (Ok (Reasons (DisconnectInfo.reasons d)),
   set_disconnect_info (DisconnectInfo.mk (DisconnectInfo.disconnected_at d) []
     (DisconnectInfo.mqtt_disconnect d)) s).

Definition disconnected_set {E} (d : option Disconnect) (reason : option Reason) : sm E unit :=
  smodify (fun s =>
    let i := disconnect_info s in
    let at_ := if DisconnectInfo.is_disconnected i then DisconnectInfo.disconnected_at i
               else timestamp_millis (world s) in
    set_disconnect_info
      (DisconnectInfo.mk at_
         (DisconnectInfo.reasons i ++ (from_option (fun d => [ConnectDisconnect (Some d)]) [] d)
          ++ (from_option (fun r => [r]) [] reason))
         (match d with Some _ => d | None => DisconnectInfo.mqtt_disconnect i end)) s).

Definition insert_flag {E} (f : StateFlags -> StateFlags) : sm E unit :=
  smodify (fun s => set_flags (f (flags s)) s).

(** ** A packet of the client *)

(** Where a handler falls through to the keep-alive hook it gives [true]. *)
Definition handle_packet (pkt : Packet) : sm Reason bool :=
  match pkt with
  | Packet3 (V3.PPublish p) | Packet5 (V5.PPublish p) => handle_publish p ;;; sret true
  | Packet3 (V3.PPublishRelease pid) => handle_publish_release3 pid ;;; sret true
  | Packet5 (V5.PPublishRelease ack2) => handle_publish_release5 ack2 ;;; sret true
  | Packet3 (V3.PPublishAck pid) => question (handle_acked pid) ;;; sret true
  | Packet5 (V5.PPublishAck ack) => question (handle_acked (V5.pa_packet_id ack)) ;;; sret true
  | Packet3 (V3.PPublishReceived pid) => question (handle_publish_received3 pid) ;;; sret true
  | Packet5 (V5.PPublishReceived ack) => question (handle_publish_received5 ack) ;;; sret true
  | Packet3 (V3.PPublishComplete pid) => question (handle_acked pid) ;;; sret true
  | Packet5 (V5.PPublishComplete ack2) => question (handle_acked (V5.pa2_packet_id ack2)) ;;; sret true
  | Packet3 (V3.PSubscribe pid topic_filters) =>
      let! status := smap_err (fun e => SubscribeFailed (Some (error_text e))) (subscribes_v3 topic_filters) in
      question (send3 (V3.PSubscribeAck pid status)) ;;; sret true
  | Packet5 (V5.PSubscribe subs) =>
      let! ack := smap_err (fun e => SubscribeFailed (Some (error_text e))) (subscribes_v5 subs) in
      question (send5 (V5.PSubscribeAck ack)) ;;; sret true
  | Packet3 (V3.PUnsubscribe pid topic_filters) =>
      smap_err (fun e => UnsubscribeFailed (Some (error_text e))) (unsubscribes_v3 topic_filters) ;;;
      question (send3 (V3.PUnsubscribeAck pid)) ;;; sret true
  | Packet5 (V5.PUnsubscribe unsubs) =>
      let! ack := smap_err (fun e => UnsubscribeFailed (Some (error_text e))) (unsubscribes_v5 unsubs) in
      question (send5 (V5.PUnsubscribeAck ack)) ;;; sret true
  | Packet3 V3.PPingRequest =>
      question (send3 V3.PPingResponse) ;;; insert_flag (set_ping true) ;;; sret true
  | Packet5 V5.PPingRequest =>
      question (send5 V5.PPingResponse) ;;; insert_flag (set_ping true) ;;; sret true
  | Packet3 V3.PDisconnect =>
      insert_flag insert_disconnect_received ;;;
      disconnected_set (Some DisconnectV3) None ;;; sret false
  | Packet5 (V5.PDisconnect d) =>
      insert_flag insert_disconnect_received ;;;
      disconnected_set (Some (DisconnectV5 d)) None ;;; sret false
  | Packet5 (V5.PAuth _) => question (send5 (V5.PAuth V5.Auth_default)) ;;; sret true
  | _ => sthrow (RError (text "Received an unimplemented message, " ++ debug_packet pkt))
  end.

Definition keepalive : sm Reason unit :=
  let! is_ping := sget (fun s => fl_ping (flags s)) in
  emit (ClientKeepalive is_ping) ;;;
  if is_ping then insert_flag (set_ping false) else sret tt.

(** The packet goes to the trace when it is received. *)
Definition process_mqtt_message (pkt : Packet) : sm Reason unit :=
  emit (Received pkt) ;;;
  let! through := handle_packet pkt in
  if through then keepalive else sret tt.

(** ** Taking over an earlier session *)

Definition take_over_subscription (id : Id) (sub : string * SubscriptionOptions) : sm Error unit :=
  stry (ask_outcome (router_add sub.1 id sub.2)) ;;;
  emit (SpawnedStoredMessages sub.1 (opts_qos sub.2) (shared_group sub.2)).

Fixpoint each {E A} (f : A -> sm E unit) (l : list A) : sm E unit :=
  match l with
  | [] => sret tt
  | a :: l => f a ;;; each f l
  end.

(** [inflight_messages.pop()] takes the last one. *)
Definition transfer_session_state (clear_subscriptions : bool) (info : OfflineInfo) : sm Error unit :=
  let! id := sget st_id in
  (if negb clear_subscriptions
   then each (take_over_subscription id) (oi_subscriptions info) ;;;
        ask (fun w => (tt, session_subs_extend id (oi_subscriptions info) w))
   else sret tt) ;;;
  each (fun m => if bool_decide (status m = UnComplete) then sret tt
                 else stry (reforward m) ;;; sret tt) (rev (oi_inflight_messages info)) ;;;
  each (fun m => forward m.1 m.2) (oi_offline_messages info).

(** ** A message of the mailbox *)

Definition reply {E} (closed : bool) (e : Effect) : sm E unit := if closed then sret tt else emit e.

Fixpoint subscribe_all (subs : list Subscribe) : sm Reason (list (outcome Error SubscribeReturn)) :=
  match subs with
  | [] => sret []
  | sub :: rest =>
      let! r := stry (subscribe sub) in
      let! rs := subscribe_all rest in
      sret (r :: rs)
  end.

Definition kick_flags (is_admin clean_start : bool) (f : StateFlags) : StateFlags :=
  let f := insert_kicked f in
  let f := if is_admin then insert_by_admin_kick f else f in
  if clean_start then insert_clean_start f else f.

Definition process_message (msg : Message) : sm Reason unit :=
  match msg with
  | MForward from p => question (enqueue try_send_ok from p)
  | MSendRerelease m => send_rerelease m
  | MKick closed by_id clean_start is_admin =>
      if closed then sret tt
      else
        emit KickReplied ;;;
        insert_flag (kick_flags is_admin clean_start) ;;;
        sthrow (ConnectKicked is_admin)
  | MSubscribe sub closed =>
      let! r := stry (subscribe sub) in reply closed (SubscribeReplied r)
  | MSubscribes subs replies_tx =>
      let! replies := subscribe_all subs in
      match replies_tx with
      | Some closed => reply closed (SubscribesReplied replies)
      | None => sret tt
      end
  | MUnsubscribe unsub closed =>
      let! r := stry (unsubscribe unsub) in reply closed (UnsubscribeReplied r)
  | MSessionStateTransfer info clean_start => question (transfer_session_state clean_start info)
  | MClosed r => sthrow r
  end.

(** ** The loop *)

(** What [select!] wakes up for; [Arrived] and [Elsewhere] are the other
    tasks at work: a message put into the mailbox, a change of the state
    of the broker. *)
Inductive LoopEvent : Type :=
| KeepAliveElapsed
| DeliverTimeout
| DeliverReady
| MailReady
| PacketReady (pkt : outcome Error (option Packet))
| Arrived (msg : Message)
| Elsewhere (w : W).

Definition loop_step (overflow_checks : bool) (e : LoopEvent) : sm Reason unit :=
  match e with
  | KeepAliveElapsed => sthrow ConnectKeepaliveTimeout
  | DeliverTimeout => question retry_timeouts
  | DeliverReady => question (deliver_next overflow_checks)
  | MailReady =>
      let! mailbox := sget rx in
      match mailbox with
      | [] => sret tt
      | msg :: rest => smodify (set_rx rest) ;;; process_message msg
      end
  | PacketReady pkt =>
      let! pkt := question (slift pkt) in
      match pkt with
      | Some pkt => process_mqtt_message pkt
      | None => sthrow ConnectRemoteClose
      end
  | Arrived msg => smodify (fun s => set_rx (rx s ++ [msg]) s)
  | Elsewhere w => smodify (set_world w)
  end.

Definition run_loop (overflow_checks : bool) (es : list LoopEvent) : sm Reason unit :=
  each (loop_step overflow_checks) es.
End loop.
