(* ===== verification/SessionAuth.v ===== *)
(** * What access control lets a session do

    A session hands a message to the broker, and enters a subscription, only
    where the hooks that check it allow it. [emits id P m]: whatever [m]
    does in the trace of the session [id] has the property [P], with any
    result and without any assumption. *)

From stdpp Require Import prelude list strings gmap.
From Stdlib Require Import ZArith Lia.
From S2P Require Import Prelude CodecTypes CodecUtils CodecV3 CodecV5Types Topic BrokerTypes Subscription Queue Inflight Connection Fitter TopicAlias Delayed Session SessionInbound SessionOutbound SessionSubscribe SessionLoop.

Local Open Scope Z_scope.

Section emits.
Context {W Q : Type} `{!Broker W}.
Context (id : Id) (P : Effect -> Prop).
Abbreviation state := (SessionState W Q).
Abbreviation sm := (sess W Q).

Definition emits {E A} (m : sm E A) : Prop :=
  forall s, st_id s = id -> st_id (m s).2 = id /\ exists t, trace (m s).2 = trace s ++ t /\ Forall P t.

Lemma emits_silent {E A} (m : sm E A) :
  (forall s, st_id (m s).2 = st_id s /\ trace (m s).2 = trace s) -> emits m.
Proof. intros Hm s Hs. destruct (Hm s) as [-> ->]. split; [done|]. exists []. by rewrite app_nil_r. Qed.

Lemma emits_emit {E} e : P e -> emits (E := E) (emit e).
Proof. intros He s Hs. split; [done|]. exists [e]. split; [done|]. by constructor. Qed.

Lemma emits_then {E A B} (m : sm E A) (k : A -> sm E B) :
  emits m -> (forall s a, st_id s = id -> (m s).1 = Ok a -> emits (k a)) -> emits (sbind m k).
Proof.
  intros Hm Hk s Hs. unfold sbind. specialize (Hm s Hs). specialize (Hk s). destruct (m s) as [o s1]. simpl in Hm, Hk.
  destruct Hm as (Hid & t & Ht & HP). destruct o as [a|e| |]; simpl; [|by eauto..].
  destruct (Hk a Hs eq_refl s1 Hid) as (Hid' & t' & Ht' & HP'). split; [done|]. exists (t ++ t').
  rewrite Ht', Ht, app_assoc. split; [done|]. by apply Forall_app.
Qed.

Lemma emits_bind {E A B} (m : sm E A) (k : A -> sm E B) :
  emits m -> (forall a, emits (k a)) -> emits (sbind m k).
Proof. intros Hm Hk. by apply emits_then. Qed.

Lemma emits_map_err {E F A} (f : E -> F) (m : sm E A) : emits m -> emits (smap_err f m).
Proof. intros Hm s Hs. specialize (Hm s Hs). unfold smap_err. by destruct (m s). Qed.

Lemma emits_try {E F A} (m : sm E A) : emits m -> emits (stry (F := F) m).
Proof. intros Hm s Hs. specialize (Hm s Hs). unfold stry. by destruct (m s) as [[] ?]. Qed.

Lemma emits_each {E A} (f : A -> sm E unit) l : (forall a, emits (f a)) -> emits (each f l).
Proof. intros Hf. induction l as [|a l IH]; [by apply emits_silent|]. by apply emits_bind. Qed.
End emits.

(** Decomposes a handler down to what it sets and writes. *)
Ltac emits_step :=
  lazymatch goal with
  | |- emits _ _ (sbind _ _) => apply emits_bind; [|intros ?]
  | |- emits _ _ (smap_err _ _) => apply emits_map_err
  | |- emits _ _ (question _) => apply emits_map_err
  | |- emits _ _ (stry _) => apply emits_try
  | |- emits _ _ (emit _) => apply emits_emit; try done
  | |- emits _ _ (each _ _) => apply emits_each; intros ?
  | |- emits _ _ (match ?x with _ => _ end) => destruct x eqn:?
  | |- emits _ _ (sret _) => by apply emits_silent
  | |- emits _ _ (sthrow _) => by apply emits_silent
  | |- emits _ _ spanic => by apply emits_silent
  | |- emits _ _ (slift _) => by apply emits_silent
  | |- emits _ _ (sget _) => by apply emits_silent
  | |- emits _ _ (smodify _) => by apply emits_silent
  | |- emits _ _ (ask ?f) => apply emits_silent; intros ?; unfold ask; by destruct (f _)
  | |- emits _ _ (ask_outcome ?f) => apply emits_silent; intros ?; unfold ask_outcome; by destruct (f _)
  end.
Ltac emits_silent := apply emits_silent; intros ?; by repeat case_match.

Section auth.
Context {W Q : Type} `{!Broker W} `{!Texts} `{!DequeMap OutInflightMessage Q}.
Context (try_send_ok : nat -> nat -> bool).
Abbreviation state := (SessionState W Q).
Abbreviation sm := (sess W Q).

(** What the checks allow: a message that [published] holds of, and what
    they answer about a subscription. *)
Class AclSound (published : BPublish -> Prop) (answered : Subscribe -> option SubscribeReturn -> Prop) : Prop := {
  publish_check p w : acl_is_allow (hook_message_publish_check_acl p w).1 = true -> published p;
  subscribe_check sub w : answered sub (hook_client_subscribe_check_acl sub w).1;
}.

Context (published : BPublish -> Prop) (answered : Subscribe -> option SubscribeReturn -> Prop).
Context `{!AclSound published answered}.

(** The subscription [sub] as it is entered: access control was asked about
    its filter, and had no answer or one with at least its quality of
    service. *)
Definition subscription_allowed (sub : Subscribe) : Prop :=
  exists asked r, sub = with_qos asked (opts_qos (sub_opts sub)) /\ answered asked r /\
    match r with
    | Some r => exists q, SubscribeReturn_success r = Some q /\ QoS_value (opts_qos (sub_opts sub)) <= QoS_value q
    | None => True
    end.

Context (id : Id).

Definition authorized (e : Effect) : Prop :=
  match e with
  | Forwarded from p _ _ => from = mkFrom Custom id /\ published p
  | SessionSubscribed sub => subscription_allowed sub
  | _ => True
  end.

Abbreviation ok := (emits id authorized).

Lemma ok_send p : ok (send (W := W) (Q := Q) p).
Proof. unfold send. repeat emits_step. Qed.
Lemma ok_send3 p : ok (send3 (W := W) (Q := Q) p).
Proof. unfold send3. repeat (emits_step || apply ok_send). Qed.
Lemma ok_send5 p : ok (send5 (W := W) (Q := Q) p).
Proof. unfold send5. repeat (emits_step || apply ok_send). Qed.

(** ** Publishing *)

Lemma ok_publish_inner p : ok (publish_inner (W := W) (Q := Q) p).
Proof.
  unfold publish_inner. apply emits_bind; [unfold resolve_alias; emits_silent|]. intros p1.
  apply emits_then; [emits_step|]. intros s1 from Hs1 [= <-].
  apply emits_bind; [emits_step|]. intros cfg. apply emits_bind; [emits_step|]. intros p2.
  apply emits_bind; [emits_step|]. intros changed. cbv zeta. set (p3 := default p2 changed).
  apply emits_then; [emits_step|]. intros s2 acl Hs2 Hacl.
  assert (Hp : acl_is_allow acl = true -> published p3).
  { revert Hacl. unfold ask. pose proof (publish_check p3 (world s2)) as Hc.
    destruct (hook_message_publish_check_acl _ _). simpl in Hc |- *. by intros [= <-]. }
  destruct (acl_is_allow acl); [specialize (Hp eq_refl)|]; repeat emits_step. simpl. by rewrite Hs1.
Qed.

Lemma ok_publish p : ok (publish (W := W) (Q := Q) p).
Proof. unfold publish. repeat (emits_step || apply ok_publish_inner). Qed.

(** ** The other handlers *)

Lemma ok_ack_qos2 pid p : ok (ack_qos2_inbound (W := W) (Q := Q) pid p).
Proof.
  unfold ack_qos2_inbound, send_publish_received, in_add, in_remove.
  repeat (emits_step || apply ok_publish || apply ok_send || emits_silent).
Qed.

Lemma ok_drain_loop fuel : ok (drain_loop (W := W) (Q := Q) fuel).
Proof. induction fuel as [|fuel IH]; cbn [drain_loop]; repeat (emits_step || apply ok_ack_qos2 || apply IH). Qed.

Lemma ok_process_publish p : ok (process_publish (W := W) (Q := Q) p).
Proof.
  unfold process_publish, send_publish_ack, send_publish_received, in_add, in_remove.
  repeat (emits_step || apply ok_publish || apply ok_ack_qos2 || apply ok_send || emits_silent).
Qed.

Lemma ok_mail m : ok (mail (W := W) (Q := Q) m).
Proof. unfold mail. emits_silent. Qed.

Lemma ok_forward from p : ok (forward (W := W) (Q := Q) from p).
Proof. unfold forward. repeat (emits_step || apply ok_mail). Qed.

Lemma ok_reforward m : ok (reforward (W := W) (Q := Q) m).
Proof. unfold reforward, message_expiry_check. repeat (emits_step || apply ok_forward || apply ok_mail). Qed.

Lemma ok_deliver from p : ok (deliver (W := W) (Q := Q) from p).
Proof.
  unfold deliver, message_expiry_check, sink_publish, next_packet_id, push_inflight.
  repeat (emits_step || apply ok_send || emits_silent).
Qed.

Lemma ok_retry_loop fuel : ok (retry_loop (W := W) (Q := Q) fuel).
Proof. induction fuel as [|fuel IH]; cbn [retry_loop]; repeat (emits_step || apply ok_reforward || apply IH || emits_silent). Qed.

(** ** Subscribing *)

Lemma ok_enter sub : subscription_allowed sub -> ok (enter (W := W) (Q := Q) sub).
Proof. intros Hs. unfold enter. repeat emits_step. Qed.

Lemma with_qos_self sub : sub = with_qos sub (opts_qos (sub_opts sub)).
Proof. by destruct sub as [f [[]|[]]]. Qed.

Lemma ok_subscribe_inner sub : ok (subscribe_inner (W := W) (Q := Q) sub).
Proof.
  unfold subscribe_inner, check_limits, check_max_subscriptions, check_topic_levels, check_limit.
  apply emits_bind; [repeat emits_step|]. intros _. apply emits_bind; [emits_step|]. intros cfg. cbv zeta.
  apply emits_bind; [emits_step|]. intros adjusted.
  set (asked := match adjusted with Some tf => _ | None => _ end).
  apply emits_then; [emits_step|]. intros s acl Hs Hacl.
  assert (Hm : answered asked acl).
  { revert Hacl. unfold ask. pose proof (subscribe_check asked (world s)) as Hc.
    destruct (hook_client_subscribe_check_acl _ _). simpl in Hc |- *. by intros [= <-]. }
  destruct acl as [r|]; [destruct (SubscribeReturn_success r) as [q|] eqn:Hq|]; [|emits_step|]; apply ok_enter.
  - exists asked, (Some r). rewrite with_qos_qos. split; [done|]. split; [done|].
    exists q. split; [done|]. unfold QoS_less_value. case_match; lia.
  - exists asked, None. split; [apply with_qos_self|done].
Qed.

Lemma ok_subscribe sub : ok (subscribe (W := W) (Q := Q) sub).
Proof. unfold subscribe, count_ack. repeat (emits_step || apply ok_subscribe_inner). Qed.

Lemma ok_subscribe_all subs : ok (subscribe_all (W := W) (Q := Q) subs).
Proof. induction subs as [|sub rest IH]; cbn [subscribe_all]; repeat (emits_step || apply ok_subscribe || apply IH). Qed.

Lemma ok_subscribe_each {F A} (make : F -> outcome FilterError Subscribe)
    (answer : outcome Error SubscribeReturn -> A) filters : ok (subscribe_each (W := W) (Q := Q) make answer filters).
Proof.
  induction filters as [|f rest IH]; cbn [subscribe_each]; repeat (emits_step || apply ok_subscribe || apply IH).
Qed.

Lemma ok_unsubscribe unsub : ok (unsubscribe (W := W) (Q := Q) unsub).
Proof. unfold unsubscribe. repeat emits_step. Qed.

Lemma ok_unsubscribe_each shared limited filters : ok (unsubscribe_each (W := W) (Q := Q) shared limited filters).
Proof.
  induction filters as [|f rest IH]; cbn [unsubscribe_each]; repeat (emits_step || apply ok_unsubscribe || apply IH).
Qed.

(** ** The loop *)

Lemma ok_handle_packet pkt : ok (handle_packet (W := W) (Q := Q) pkt).
Proof.
  unfold handle_packet, handle_publish, handle_publish_release3, handle_publish_release5, drain_qos2_pending, in_remove,
    handle_acked, handle_publish_received3, handle_publish_received5, set_uncomplete, subscribes_v3, subscribes_v5,
    unsubscribes_v3, unsubscribes_v5, subscription_settings, insert_flag, disconnected_set.
  repeat (emits_step || apply ok_process_publish || apply ok_drain_loop || apply ok_send3 || apply ok_send5
    || apply ok_subscribe_each || apply ok_unsubscribe_each || emits_silent).
Qed.

Lemma ok_process_message msg : ok (process_message (W := W) (Q := Q) try_send_ok msg).
Proof.
  unfold process_message, enqueue, send_rerelease, push_inflight, insert_flag, reply, transfer_session_state,
    take_over_subscription.
  repeat (emits_step || apply ok_subscribe || apply ok_subscribe_all || apply ok_unsubscribe || apply ok_send
    || apply ok_forward || apply ok_reforward || emits_silent).
Qed.

Lemma ok_loop_step overflow_checks e : ok (loop_step (W := W) (Q := Q) try_send_ok overflow_checks e).
Proof.
  unfold loop_step, retry_timeouts, deliver_next, process_mqtt_message, keepalive, insert_flag.
  repeat (emits_step || apply ok_retry_loop || apply ok_deliver || apply ok_process_message || apply ok_handle_packet
    || emits_silent).
Qed.

Lemma ok_run_loop overflow_checks es : ok (run_loop (W := W) (Q := Q) try_send_ok overflow_checks es).
Proof. apply emits_each. intros e. apply ok_loop_step. Qed.
End auth.

