(* ===== verification/SessionRun.v ===== *)
(** * Runs of a session

    The loop of [SessionLoop] keeps the invariant of the inbound side,
    whatever the client, the mailbox, the timers and the other tasks do:
    QoS 2 messages are delivered exactly once. *)

From stdpp Require Import prelude list strings gmap.
From Stdlib Require Import ZArith Lia.
From S2P Require Import Prelude CodecTypes CodecUtils CodecV3 CodecV5Types Topic BrokerTypes Subscription Queue Inflight Connection Fitter TopicAlias Delayed Session SessionLogic SessionInbound SessionQoS2 SessionOutbound SessionDelivery SessionSubscribe SessionLoop.

Local Open Scope Z_scope.

Section run.
Context {W Q : Type} `{!Broker W} `{!BrokerOk W} `{!Texts}.
Context `{!DequeMap OutInflightMessage Q} `{!DequeMapOk OutInflightMessage Q}.
Context (try_send_ok : nat -> nat -> bool).
Local Open Scope session_scope.
Abbreviation state := (SessionState W Q).
Abbreviation sm := (sess W Q).

(** ** Quiet handlers of one version of the protocol *)

Definition quiet_on (five : bool) {E A} (m : sm E A) : Prop :=
  forall s, sink5 s = five -> alias_ok s ->
    swp m s (fun _ s' => quiet_step s s') (fun _ s' => quiet_step s s').

Lemma quiet_quiet_on five {E A} (m : sm E A) : quiet m -> quiet_on five m.
Proof. intros Hm s _. apply Hm. Qed.

Lemma quiet_on_bind five {E A B} (m : sm E A) (k : A -> sm E B) :
  quiet_on five m -> (forall a, quiet_on five (k a)) -> quiet_on five (sbind m k).
Proof.
  intros Hm Hk s H5 Ha. apply swp_bind. eapply swp_mono; [by apply Hm| |done].
  intros a s1 H1. cbv beta. assert (sink5 s1 = five) by (rewrite <- H5; apply H1).
  eapply swp_mono; [apply Hk; [done|by apply (quiet_alias s)]|..]; intros x s2 H2; by apply (quiet_trans s s1 s2).
Qed.

Lemma quiet_on_question five {A} (m : sm Error A) : quiet_on five m -> quiet_on five (question m).
Proof. intros Hm s H5 Ha. by apply swp_question, Hm. Qed.

Lemma quiet_map_err {E F A} (f : E -> F) (m : sm E A) : quiet m -> quiet (smap_err f m).
Proof.
  intros Hm s Ha. specialize (Hm s Ha). unfold swp, smap_err in *. by destruct (m s) as [[] ?].
Qed.

Lemma quiet_on_send3 p : neutral (Sent (Packet3 p)) -> quiet_on false (send3 (W := W) (Q := Q) p).
Proof. intros Hp s H5 _. unfold send3. swp_step. swp_step. rewrite H5. by apply send_quiet. Qed.
Lemma quiet_on_send5 p : neutral (Sent (Packet5 p)) -> quiet_on true (send5 (W := W) (Q := Q) p).
Proof. intros Hp s H5 _. unfold send5. swp_step. swp_step. rewrite H5. by apply send_quiet. Qed.

Lemma quiet_flag {E} f : quiet (E := E) (insert_flag (W := W) (Q := Q) f).
Proof. apply quiet_modify. intros s. split_and!; try done. exists []. by rewrite app_nil_r. Qed.

Lemma quiet_set {E} d r : quiet (E := E) (disconnected_set (W := W) (Q := Q) d r).
Proof. apply quiet_modify. intros s. split_and!; try done. exists []. by rewrite app_nil_r. Qed.

Lemma quiet_on_received five pid a :
  quiet_on five (if five then handle_publish_received5 a else handle_publish_received3 (Q := Q) pid).
Proof.
  destruct five; (apply quiet_on_bind; [by apply quiet_quiet_on, quiet_set_uncomplete|]); intros _.
  - by apply quiet_on_send5.
  - by apply quiet_on_send3.
Qed.

(** ** Packets *)

(** The packets whose handler touches the inbound side. *)
Definition inbound_packet (pkt : Packet) : bool :=
  match pkt with
  | Packet3 (V3.PPublish _) | Packet5 (V5.PPublish _)
  | Packet3 (V3.PPublishRelease _) | Packet5 (V5.PPublishRelease _) => true
  | _ => false
  end.

Definition of_version (five : bool) (pkt : Packet) : Prop :=
  match pkt with Packet3 _ => five = false | Packet5 _ => five = true end.

Lemma quiet_packet five pkt :
  of_version five pkt -> inbound_packet pkt = false -> quiet_on five (handle_packet (W := W) (Q := Q) pkt).
Proof.
  intros Hv Hi.
  assert (Hret : forall b : bool, quiet_on five (E := Reason) (sret (W := W) (Q := Q) b)).
  { intros b. auto using quiet_quiet_on with quiet. }
  assert (Hthrow : forall r, quiet_on five (A := bool) (sthrow (W := W) (Q := Q) (E := Reason) r)).
  { intros r. auto using quiet_quiet_on with quiet. }
  pose proof (quiet_on_received five) as Hrec.
  destruct pkt as [[]|[]]; simpl in Hv; subst five; try done; cbn [handle_packet];
    repeat (apply quiet_on_bind; [|intros ?]);
    first
      [ done
      | apply quiet_quiet_on;
        first [ apply quiet_question, quiet_handle_acked | apply quiet_flag | apply quiet_set
              | solve [apply quiet_map_err;
                auto using quiet_subscribes_v3, quiet_subscribes_v5, quiet_unsubscribes_v3,
                  quiet_unsubscribes_v5] ]
      | apply quiet_on_question;
        first [ by apply quiet_on_send3 | by apply quiet_on_send5
              | by apply (Hrec 0) | by apply (Hrec _ (V5.PublishAck_default)) ] ].
Qed.

Lemma quiet_keepalive : quiet (keepalive (W := W) (Q := Q)).
Proof. unfold keepalive. auto using quiet_flag with quiet. Qed.

Lemma limits_alias (s s' : state) : same_limits s s' -> alias_ok s -> alias_ok s' /\ sink5 s' = sink5 s.
Proof. unfold alias_ok. by intros [(_&?&_&->) _]. Qed.

(** A quiet handler after one that kept the invariant. *)
Lemma then_quiet five {A} (m : sm Reason A) (s s1 : state) :
  quiet_on five m -> good s s1 -> sink5 s = five -> alias_ok s ->
  swp m s1 (fun _ s' => good s s') (fun _ s' => ended s').
Proof.
  intros Hm (Hi1 & Hs1 & Hl1) H5 Ha. destruct (limits_alias s s1 Hl1 Ha) as [Ha1 H51].
  eapply swp_mono; [apply Hm; [congruence|done]|..].
  - intros x s2 Hq. destruct (quiet_good s1 s2 Hq Hi1 Hs1) as (?&?&?). split_and!; try done. by etrans.
  - intros e s2 Hq. by apply inv_ended, (quiet_inv s1).
Qed.

Lemma received_good (s : state) pkt :
  inbound_inv s -> settled s -> neutral (Received pkt) ->
  good s (set_trace (trace s ++ [Received pkt]) s).
Proof.
  intros Hi Hs Hn. apply quiet_good; [|done|done]. split_and!; try done.
  eexists. split; [done|]. by constructor.
Qed.

(** The handlers that touch the inbound side, with their packet. *)
Lemma inbound_packet_spec (s : state) pkt :
  inbound_inv s -> settled s -> of_version (sink5 s) pkt -> inbound_packet pkt = true ->
  swp (emit (Received pkt) ;;; handle_packet pkt) s (fun _ s' => good s s') (fun _ s' => ended s').
Proof.
  intros Hi Hs Hv Hp.
  assert (Hpub : forall p, neutral (Received pkt) ->
    swp (emit (Received pkt) ;;; handle_publish p ;;; sret true) s
      (fun (_ : bool) s' => good s s') (fun _ s' => ended s')).
  { intros p Hn. destruct (received_good s pkt Hi Hs Hn) as (Hi1 & Hs1 & Hl1). unfold handle_publish.
    do 5 swp_step. eapply swp_mono; [by apply process_publish_spec| |done].
    intros _ s2 (?&?&?). swp_step. split_and!; try done. }
  assert (Hrel : forall m : sm Reason unit,
    swp (emit (Received pkt) ;;; m) s (fun _ s' => good s s') (fun _ s' => ended s') ->
    swp (emit (Received pkt) ;;; m ;;; sret true) s (fun _ s' => good s s') (fun _ s' => ended s')).
  { intros m Hm. unfold swp, sbind, emit, smodify in *.
    by destruct (m (set_trace (trace s ++ [Received pkt]) s)) as [[] ?]. }
  destruct pkt as [[]|[]]; try done; cbn [handle_packet]; simpl in Hv.
  - by apply Hpub.
  - by apply Hrel, release3_spec.
  - by apply Hpub.
  - by apply Hrel, release5_spec.
Qed.

Lemma process_packet_spec (s : state) pkt :
  inbound_inv s -> settled s -> alias_ok s -> of_version (sink5 s) pkt ->
  swp (process_mqtt_message pkt) s (fun _ s' => good s s') (fun _ s' => ended s').
Proof.
  intros Hi Hs Ha Hv. unfold process_mqtt_message.
  assert (Hth : forall (b : bool) (s1 : state), good s s1 ->
    swp (if b then keepalive else sret tt) s1 (fun _ s' => good s s') (fun (_ : Reason) s' => ended s')).
  { intros b s1 Hg. apply (then_quiet (sink5 s)); try done. apply quiet_quiet_on.
    destruct b; auto using quiet_keepalive with quiet. }
  destruct (inbound_packet pkt) eqn:Hp.
  - pose proof (inbound_packet_spec s pkt Hi Hs Hv Hp) as Hspec. revert Hspec.
    unfold swp, sbind, emit, smodify. destruct (handle_packet pkt _) as [[b|e| |] s1]; try done.
    intros Hg. apply (Hth b s1 Hg).
  - assert (Hn : neutral (Received pkt)) by (by destruct pkt as [[]|[]]).
    pose proof (received_good s pkt Hi Hs Hn) as Hg. do 3 swp_step.
    eapply swp_mono; [by apply (then_quiet (sink5 s)); [apply quiet_packet|..]| |done].
    intros b s1 Hg1. by apply Hth.
Qed.

(** ** The mailbox *)

Lemma quiet_each {E A} (f : A -> sm E unit) l : (forall a, quiet (f a)) -> quiet (each f l).
Proof. intros Hf. induction l as [|a l IH]; simpl; auto with quiet. Qed.

Lemma quiet_transfer clear info : quiet (transfer_session_state (W := W) (Q := Q) clear info).
Proof.
  unfold transfer_session_state. apply quiet_bind; [auto with quiet|]. intros id.
  apply quiet_bind; [|intros _; apply quiet_bind; [|intros _]].
  - destruct (negb clear); [|auto with quiet]. apply quiet_bind; [|auto with quiet].
    apply quiet_each. intros sub. unfold take_over_subscription.
    apply quiet_bind; [|auto with quiet]. apply quiet_try, quiet_ask_outcome, router_add_returns.
  - apply quiet_each. intros m. destruct (bool_decide _); [auto with quiet|].
    apply quiet_bind; [apply quiet_try, quiet_reforward|auto with quiet].
  - apply quiet_each. intros m. apply quiet_forward.
Qed.

Lemma quiet_reply {E} closed e : neutral e -> quiet (E := E) (reply (W := W) (Q := Q) closed e).
Proof. intros He. unfold reply. destruct closed; auto with quiet. Qed.

Lemma quiet_subscribe_all subs : quiet (subscribe_all (W := W) (Q := Q) subs).
Proof.
  induction subs as [|sub rest IH]; simpl; [auto with quiet|].
  apply quiet_bind; [apply quiet_try, quiet_subscribe|]. auto with quiet.
Qed.

Lemma quiet_message msg : quiet (process_message (W := W) (Q := Q) try_send_ok msg).
Proof.
  destruct msg; cbn [process_message].
  - apply quiet_question, quiet_enqueue.
  - apply quiet_send_rerelease.
  - auto using quiet_flag with quiet.
  - auto with quiet.
  - apply quiet_bind; [apply quiet_try, quiet_subscribe|]. intros r. by apply quiet_reply.
  - apply quiet_bind; [apply quiet_subscribe_all|]. intros rs.
    destruct reply; [by apply quiet_reply|auto with quiet].
  - apply quiet_bind; [apply quiet_try, quiet_unsubscribe|]. intros r. by apply quiet_reply.
  - apply quiet_question, quiet_transfer.
Qed.

(** ** The loop *)

(** The network decodes the packets of the version of the connection. *)
Definition event_ok (five : bool) (e : LoopEvent (W := W)) : Prop :=
  match e with
  | PacketReady pkt => returns pkt /\ forall p, pkt = Ok (Some p) -> of_version five p
  | _ => True
  end.

Lemma loop_step_spec (s s1 : state) e :
  good s s1 -> alias_ok s -> event_ok (sink5 s) e ->
  swp (loop_step try_send_ok false e) s1 (fun _ s' => good s s') (fun _ s' => ended s').
Proof.
  intros Hg Ha He. pose proof Hg as (Hi1 & Hs1 & Hl1). destruct (limits_alias s s1 Hl1 Ha) as [Ha1 H51].
  assert (Hq : forall m : sm Reason unit, quiet m ->
    swp m s1 (fun _ s' => good s s') (fun _ s' => ended s')).
  { intros m Hm. apply (then_quiet (sink5 s)); try done. by apply quiet_quiet_on. }
  assert (Hmod : forall f, (forall s0 : state, quiet_step s0 (f s0)) ->
    swp (smodify f) s1 (fun _ s' => good s s') (fun (_ : Reason) s' => ended s')).
  { intros f Hf. by apply Hq, quiet_modify. }
  destruct e as [| | | |pkt|msg|w]; cbn [loop_step event_ok] in *.
  - apply Hq. auto with quiet.
  - apply Hq. apply quiet_question, quiet_retry.
  - apply Hq. apply quiet_question, quiet_deliver_next.
  - apply Hq. apply quiet_bind; [auto with quiet|]. intros [|msg rest]; [auto with quiet|].
    apply quiet_bind; [|intros _; apply quiet_message]. apply quiet_modify. intros s0.
    apply (quiet_fields s0 (out_inflight s0) (deliver_queue s0) rest).
  - destruct He as [Hr Hv]. do 2 swp_step. apply swp_lift; [done| |by intros; apply inv_ended].
    intros [p|] ->; [|swp_step; by apply inv_ended].
    eapply swp_mono; [apply process_packet_spec; try done; rewrite H51; by apply Hv| |done].
    intros _ s2 (?&?&?). split_and!; try done. by etrans.
  - apply Hmod. intros s0. apply (quiet_fields s0 (out_inflight s0) (deliver_queue s0) (rx s0 ++ [msg])).
  - apply Hmod. intros s0. split_and!; try done. exists []. by rewrite app_nil_r.
Qed.

Lemma run_loop_spec (s s1 : state) es :
  good s s1 -> alias_ok s -> Forall (event_ok (sink5 s)) es ->
  swp (run_loop try_send_ok false es) s1 (fun _ s' => good s s') (fun _ s' => ended s').
Proof.
  intros Hg Ha. revert s1 Hg. unfold run_loop. induction es as [|e es IH]; intros s1 Hg Hes; simpl.
  - swp_step. done.
  - apply Forall_cons in Hes as [He Hes]. swp_step.
    eapply swp_mono; [by apply (loop_step_spec s)| |done]. intros x s2 Hg2. by apply IH.
Qed.

(** A session that was just set up. *)
Definition fresh (s : state) : Prop :=
  trace s = [] /\ InInflight.cached (in_inflight s) = ∅ /\ qos2_pending s = [] /\
  0 <= InInflight.max_inflight (in_inflight s) /\ alias_ok s.

(** C1. Exactly-once delivery of QoS 2: from a session just set up, and
    whatever the client sends, the mailbox brings, the timers and the rest
    of the broker do, the loop neither panics nor gets stuck, and in
    everything it did a QoS 2 message is handed to the broker only where
    its packet id was not in use, that is, once between two PUBRELs of it;
    a successful PUBREC goes out to an MQTT 5 client only after that; at
    most [max_inflight] packet ids are in use and at most 4096 messages
    wait. While the connection lasts the window holds exactly the packet
    ids in use, and nothing waits where there is room for it. *)
Theorem session_exactly_once (s : state) (es : list LoopEvent) :
  fresh s -> Forall (event_ok (sink5 s)) es ->
  let once (s' : state) :=
    exactly_once ∅ (trace s') /\
    Z.of_nat (size (InInflight.cached (in_inflight s'))) <= InInflight.max_inflight (in_inflight s') /\
    len (qos2_pending s') <= SESSION_QOS2_PENDING_CAP in
  swp (run_loop try_send_ok false es) s
    (fun _ s' => once s' /\ InInflight.cached (in_inflight s') = open_after ∅ (trace s') /\ settled s')
    (fun _ s' => once s').
Proof.
  intros (Ht & Hc & Hp & Hm & Ha) Hes once.
  assert (Hi : inbound_inv s).
  { split; rewrite ?Ht, ?Hc, ?Hp; try done.
    constructor. }
  eapply swp_mono; [apply (run_loop_spec s s); try done|..].
  - split_and!; [done|by left|done].
  - intros _ s' (Hi' & Hs' & _). split_and!; [by apply inv_ended|apply Hi'|done].
  - done.
Qed.
End run.
