(* ===== verification/SessionEnd.v ===== *)
(** * The end of a connection: [session.rs]

    What [run] does when the loop is left: the last will, the hooks, and
    the session kept offline until it expires or is taken over. *)

From stdpp Require Import prelude list strings gmap.
From Stdlib Require Import ZArith Lia.
From S2P Require Import Prelude CodecTypes CodecUtils CodecV3 CodecV5Types Topic BrokerTypes Subscription Queue Inflight Connection Fitter TopicAlias Delayed Session SessionLogic SessionOutbound SessionLoop.

Local Open Scope Z_scope.

Section ending.
Context {W Q : Type} `{!Broker W} `{!Texts} `{!DequeMap OutInflightMessage Q}.
Context (try_send_ok : nat -> nat -> bool).
Context (parse_query : bytes -> list (bytes * bytes)).
Local Open Scope session_scope.
Abbreviation state := (SessionState W Q).
Abbreviation sm := (sess W Q).

(** ** The last will *)

Definition last_will_enable (f : StateFlags) (clean_session : bool) : bool :=
  let session_present := fl_kicked f && negb (fl_clean_start f) && negb clean_session in
  negb (fl_disconnect_received f || session_present).

Definition connect_info (s : state) : ConnectInfo := conn_info (st_fitter s).

Definition will_delay_interval (s : state) : option Z :=
  ci_last_will (connect_info s) ≫= lw_will_delay_interval.

Definition process_last_will : sm Error unit :=
  let! will := sget (fun s => ci_last_will (connect_info s)) in
  match will with
  | None => sret tt
  | Some lw =>
      let! now := sget (fun s => timestamp_millis (world s)) in
      let p := will_publish parse_query now lw in
      let! from := sget (fun s => mkFrom LastWillFrom (st_id s)) in
      let! changed := ask (hook_message_publish from p) in
      let p := default p changed in
      let! storage := sget (fun s => message_mgr_enable (world s)) in
      let! fitter := sget st_fitter in
      let expiry := if storage then Some (message_expiry_interval fitter (BPublish.inner p)) else None in
      ask_outcome (forwards from p storage expiry) ;;;
      emit (Forwarded from p storage expiry)
  end.

Definition clean_session (s : state) (d : option Disconnect) : bool :=
  match connect_info s with
  | ConnectV3 _ c => V3.clean_session c
  | ConnectV5 _ _ => session_expiry_interval (st_fitter s) d =? 0
  end.

(** The will now, or how long it waits. *)
Definition will_or_delay (clean : bool) : sm Error (option Z) :=
  let! enabled := sget (fun s => last_will_enable (flags s) clean) in
  if enabled then
    let! delay := sget will_delay_interval in
    if clean || bool_decide (delay = None)
    then stry (E := Error) process_last_will ;;; sret None
    else sret delay
  else sret None.

(** ** Discarding the session *)

Definition dropped (reason : Reason) (m : From * BPublish) : sm Error unit :=
  let! id := sget st_id in emit (MessageDropped (Some id) m.1 m.2 reason).

(** The two [while let] loops, one unit of fuel per message. *)
Fixpoint drop_queue (fuel : nat) (reason : Reason) : sm Error unit :=
  match fuel with
  | O => slift Diverged
  | S fuel =>
      let! popped := fun s =>
        let '(r, c) := Queue.sender_pop (deliver_queue s) in (Ok r, set_queue c s) in
      match popped with
      | Some m => dropped reason m ;;; drop_queue fuel reason
      | None => sret tt
      end
  end.

Fixpoint drop_inflight (fuel : nat) (reason : Reason) : sm Error unit :=
  match fuel with
  | O => slift Diverged
  | S fuel =>
      let! popped := fun s =>
        let '(r, o) := OutInflight.pop_front (out_inflight s) in (Ok r, set_out_inflight o s) in
      match popped with
      | Some m => dropped reason (from m, publish m) ;;; drop_inflight fuel reason
      | None => sret tt
      end
  end.

Definition clean (reason : Reason) : sm Error unit :=
  let! n := sget (fun s => Queue.len (Queue.queue (deliver_queue s))) in
  drop_queue (S n) reason ;;;
  let! n := sget (fun s => OutInflight.len (out_inflight s)) in
  drop_inflight (S (Z.to_nat n)) reason ;;;
  emit (SessionTerminated reason) ;;;
  let! id := sget st_id in
  let! same := sget (fun s => entry_id_same id (world s)) in
  match same with
  | Some true => ask (fun w => (tt, entry_remove_with id w)) ;;; emit SessionRemoved
  | _ => sret tt
  end.

(** ** Offline *)

Inductive OfflineEvent : Type :=
| OfflineMail
| SessionExpired
| WillDelayElapsed
| OfflineArrived (msg : Message)
| OfflineElsewhere (w : W).

(** What waits for the will: its delay, and whether the loop was left. *)
Record Offline : Type := mkOffline { pending_will : option Z; left : bool }.

Definition publish_pending (o : Offline) : sm Error unit :=
  match pending_will o with
  | Some _ => stry (E := Error) process_last_will ;;; sret tt
  | None => sret tt
  end.

Definition offline_message (o : Offline) (msg : Message) : sm Error Offline :=
  match msg with
  | MForward from p =>
      emit (OfflineMessage from p) ;;; enqueue try_send_ok from p ;;; sret o
  | MKick closed by_id clean_start is_admin =>
      if closed then sret o
      else
        emit KickReplied ;;;
        insert_flag (kick_flags is_admin clean_start) ;;;
        sret (mkOffline (pending_will o) true)
  | _ => sret o
  end.

Definition offline_step (o : Offline) (e : OfflineEvent) : sm Error Offline :=
  match e with
  | OfflineMail =>
      let! mailbox := sget rx in
      match mailbox with
      | [] => sret o
      | msg :: rest => smodify (set_rx rest) ;;; offline_message o msg
      end
  | SessionExpired => publish_pending o ;;; sret (mkOffline (pending_will o) true)
  | WillDelayElapsed => publish_pending o ;;; sret (mkOffline None false)
  | OfflineArrived msg => smodify (fun s => set_rx (rx s ++ [msg]) s) ;;; sret o
  | OfflineElsewhere w => smodify (set_world w) ;;; sret o
  end.

Fixpoint offline_run_loop (o : Offline) (es : list OfflineEvent) : sm Error Offline :=
  match es with
  | [] => sret o
  | e :: es =>
      let! o := offline_step o e in
      if left o then sret o else offline_run_loop o es
  end.

(** ** The end of [run] *)

Definition disconnected_reason (s : state) : Reason := Reasons (DisconnectInfo.reasons (disconnect_info s)).

Definition end_reason : sm Error Reason :=
  let! reasons := sget (fun s => DisconnectInfo.reasons (disconnect_info s)) in
  match reasons with
  | [] => disconnected_reason_add ConnectRemoteClose ;;; sret ConnectRemoteClose
  | _ => sget disconnected_reason
  end.

(** The DISCONNECT an MQTT 5 client is sent. *)
Definition disconnect_packet (reason : Reason) : V5.Disconnect :=
  match reason with
  | ConnectDisconnect (Some (DisconnectV5 d)) => d
  | _ => V5.mkDisconnect (Reason_to_reason_code reason) None None (Some (reason_text reason)) []
  end.

Definition say_goodbye (reason : Reason) : sm Error unit :=
  let! five := sget sink5 in
  (if five then stry (E := Error) (send (Packet5 (V5.PDisconnect (disconnect_packet reason)))) ;;; sret tt
   else sret tt) ;;;
  emit (ClientDisconnected reason).

(** Whether the session goes offline, with the will's delay. *)
Definition discard_or_offline (clean_sess : bool) (delay : option Z) : sm Error (option (option Z)) :=
  let! f := sget flags in
  if fl_kicked f then
    (if fl_by_admin_kick f then let! r := disconnected_reason_take in clean r else sret tt) ;;; sret None
  else if clean_sess then
    (let! r := disconnected_reason_take in clean r) ;;; sret None
  else
    let! inflight := sget (fun s => OutInflight.clone_inflight_messages (out_inflight s)) in
    (match inflight with [] => sret tt | _ => emit (OfflineInflightMessages inflight) end) ;;;
    sret (Some delay).

Definition after_close (clean_sess : bool) : sm Error (option (option Z)) :=
  let! delay := will_or_delay clean_sess in
  let! reason := end_reason in
  say_goodbye reason ;;;
  discard_or_offline clean_sess delay.

(** Up to the offline loop. *)
Definition connection_end (result : outcome Reason unit) : sm Error (option (option Z)) :=
  (match result with Err reason => disconnected_reason_add reason | _ => sret tt end) ;;;
  emit ConnectionClosed ;;;
  let! disconnect := sget (fun s => DisconnectInfo.mqtt_disconnect (disconnect_info s)) in
  let! clean_sess := sget (fun s => clean_session s disconnect) in
  disconnected_set None None ;;;
  after_close clean_sess.

(** The rest, on the events that happen while offline. *)
Definition session_end (result : outcome Reason unit) (es : list OfflineEvent) : sm Error unit :=
  let! offline := connection_end result in
  match offline with
  | None => sret tt
  | Some delay =>
      let! o := offline_run_loop (mkOffline delay false) es in
      let! f := sget flags in
      if left o && negb (fl_kicked f) then clean SessionExpiration else sret tt
  end.

(** [SessionState::offline_restart]: a session that was kept without its
    connection goes on offline. The flags of the connection are not kept;
    in MQTT 5 its DISCONNECT is, which bears on the session's expiry only. *)
Definition offline_restart (es : list OfflineEvent) : sm Error unit :=
  smodify (set_flags no_flags) ;;;
  let! disconnect := sget (fun s => DisconnectInfo.mqtt_disconnect (disconnect_info s)) in
  let! clean_sess := sget (fun s => clean_session s disconnect) in
  let! delay := will_or_delay clean_sess in
  let! o := offline_run_loop (mkOffline delay false) es in
  let! f := sget flags in
  if left o && negb (fl_kicked f) then clean SessionExpiration else sret tt.

(** ** Handing a session over: [Session::to_offline_info] *)

Fixpoint pop_all (fuel : nat) (q : Queue.t (From * BPublish)) : option (list (From * BPublish) * Queue.t (From * BPublish)) :=
  match fuel with
  | O => None
  | S fuel =>
      match Queue.pop q with
      | (Some m, q) =>
          match pop_all fuel q with
          | Some (ms, q) => Some (m :: ms, q)
          | None => None
          end
      | (None, q) => Some ([], q)
      end
  end.

(** [subs] and [created_at] are the session's own. *)
Definition to_offline_info (subs : list (string * SubscriptionOptions)) (created_at : Z) (s : state)
    : option OfflineInfo :=
  let q := Queue.queue (deliver_queue s) in
  match pop_all (S (Queue.len q)) q, OutInflight.to_inflight_messages (out_inflight s) with
  | Some (msgs, _), Some (inflight, _) => Some (mkOfflineInfo (st_id s) subs msgs inflight created_at)
  | _, _ => None
  end.
End ending.
