(* ===== verification/SessionWill.v ===== *)
(** * The last will and the end of a session

    The will is published at most once, and where the session ends without
    a DISCONNECT it is. A session that is taken over hands its messages to
    the next one. *)

From stdpp Require Import prelude list strings gmap.
From Stdlib Require Import ZArith Lia.
From S2P Require Import Prelude CodecTypes CodecUtils CodecV3 CodecV5Types Topic BrokerTypes Subscription Queue Inflight Connection Fitter TopicAlias Delayed Session SessionLogic SessionOutbound SessionLoop SessionEnd.

Local Open Scope Z_scope.

Definition is_will (e : Effect) : bool :=
  match e with Forwarded from _ _ _ => bool_decide (typ from = LastWillFrom) | _ => false end.
Definition is_terminated (e : Effect) : bool :=
  match e with SessionTerminated _ => true | _ => false end.

(** How many times the will was published, and the session ended. *)
Definition wills (t : list Effect) : nat := length (List.filter is_will t).
Definition endings (t : list Effect) : nat := length (List.filter is_terminated t).

Section will.
Context {W Q : Type} `{!Broker W} `{!BrokerOk W} `{!Texts}.
Context `{!DequeMap OutInflightMessage Q} `{!DequeMapOk OutInflightMessage Q}.
Context (try_send_ok : nat -> nat -> bool).
Context (parse_query : bytes -> list (bytes * bytes)).
Local Open Scope session_scope.
Abbreviation state := (SessionState W Q).
Abbreviation sm := (sess W Q).

(** ** Steps that publish [n] wills and end the session [k] times *)

Definition adds (n k : nat) (s s' : state) : Prop :=
  st_fitter s' = st_fitter s /\ exists t, trace s' = trace s ++ t /\ wills t = n /\ endings t = k.

Lemma adds_refl s : adds 0 0 s s.
Proof. split; [done|]. exists []. by rewrite app_nil_r. Qed.

Lemma adds_eq s s' t :
  st_fitter s' = st_fitter s -> trace s' = trace s ++ t -> adds (wills t) (endings t) s s'.
Proof. intros Hf Ht. split; [done|]. by exists t. Qed.

Lemma adds_trans n k n' k' s s' s'' :
  adds n k s s' -> adds n' k' s' s'' -> adds (n + n') (k + k') s s''.
Proof.
  intros [Hf (t & Ht & <- & <-)] [Hf' (t' & Ht' & <- & <-)]. split; [congruence|].
  exists (t ++ t'). rewrite Ht', Ht, app_assoc. unfold wills, endings. by rewrite !List.filter_app, !length_app.
Qed.

(** The handler adds exactly that, keeps the flags and does not fail. *)
Definition tame (n k : nat) {A} (m : sm Error A) : Prop :=
  forall s, swp m s (fun _ s' => adds n k s s' /\ flags s' = flags s) (fun _ _ => False).

Lemma tame_bind n k n' k' {A B} (m : sm Error A) (f : A -> sm Error B) :
  tame n k m -> (forall a, tame n' k' (f a)) -> tame (n + n') (k + k') (sbind m f).
Proof.
  intros Hm Hf s. apply swp_bind. eapply swp_mono; [apply Hm| |done].
  intros a s1 [H1 Hf1]. cbv beta. eapply swp_mono; [apply Hf| |done].
  intros b s2 [H2 Hf2]. split; [by eapply adds_trans|congruence].
Qed.

Lemma tame_bind0 n k {A B} (m : sm Error A) (f : A -> sm Error B) :
  tame 0 0 m -> (forall a, tame n k (f a)) -> tame n k (sbind m f).
Proof. apply (tame_bind 0 0 n k). Qed.

Lemma tame_ret {A} (a : A) : tame 0 0 (sret a).
Proof. intros s. swp_step. split; [apply adds_refl|done]. Qed.
Lemma tame_get {A} (f : state -> A) : tame 0 0 (sget f).
Proof. intros s. swp_step. split; [apply adds_refl|done]. Qed.
Lemma tame_emit e : tame (if is_will e then 1 else 0) (if is_terminated e then 1 else 0) (emit e).
Proof.
  intros s. swp_step. split; [|done]. split; [done|]. exists [e]. split; [done|].
  unfold wills, endings. simpl. by destruct (is_will e), (is_terminated e).
Qed.
Lemma tame_emit0 e : is_will e = false -> is_terminated e = false -> tame 0 0 (emit e).
Proof. intros Hw He. pose proof (tame_emit e) as H0. by rewrite Hw, He in H0. Qed.
Lemma tame_ask {A} (f : W -> A * W) : tame 0 0 (ask f).
Proof. intros s. swp_step. split; [|done]. split; [done|]. exists []. by rewrite app_nil_r. Qed.
Lemma tame_modify f :
  (forall s : state, st_fitter (f s) = st_fitter s /\ trace (f s) = trace s /\ flags (f s) = flags s) ->
  tame 0 0 (smodify f).
Proof.
  intros Hf s. swp_step. destruct (Hf s) as (?&Ht&?). split; [|done]. split; [done|].
  exists []. by rewrite app_nil_r.
Qed.

(** ** What the end is made of *)

(** Everything but the trace, the queue and the window. *)
Definition drops (s s' : state) (ms : list (From * BPublish)) (r : Reason) : Prop :=
  st_fitter s' = st_fitter s /\ flags s' = flags s /\ st_id s' = st_id s /\ world s' = world s /\
  trace s' = trace s ++ ((fun m => MessageDropped (Some (st_id s)) m.1 m.2 r) <$> ms).

Lemma drops_trans s s' s'' ms ms' r :
  drops s s' ms r -> drops s' s'' ms' r -> drops s s'' (ms ++ ms') r.
Proof.
  intros (?&?&Hid&?&Ht) (?&?&?&?&Ht'). split_and!; try congruence.
  by rewrite Ht', Ht, Hid, fmap_app, app_assoc.
Qed.

Lemma drop_queue_spec fuel r (s : state) :
  (length (Queue.inner (Queue.queue (deliver_queue s))) < fuel)%nat ->
  swp (drop_queue fuel r) s
    (fun _ s' => drops s s' (Queue.inner (Queue.queue (deliver_queue s))) r /\
       Queue.inner (Queue.queue (deliver_queue s')) = [] /\ out_inflight s' = out_inflight s)
    (fun _ _ => False).
Proof.
  revert s. induction fuel as [|fuel IH]; intros s Hf; [lia|]. cbn [drop_queue]. swp_step.
  unfold swp at 1, Queue.sender_pop, Queue.pop.
  destruct (Queue.inner (Queue.queue (deliver_queue s))) as [|m rest] eqn:Hq.
  - swp_step. split; [|done]. unfold drops. split_and!; try done. by rewrite app_nil_r.
  - unfold dropped. do 4 swp_step. eapply swp_mono; [apply IH|..].
    + ssimpl. simpl in *. lia.
    + intros _ s' (Hd & He & Ho). ssimpl in Ho. split_and!; [|done|done].
      apply (drops_trans s (set_trace (trace s ++ [MessageDropped (Some (st_id s)) m.1 m.2 r]) s) s' [m] rest);
        [by unfold drops; split_and!|]. exact Hd.
    + done.
Qed.

Lemma drop_inflight_spec fuel r (s : state) :
  (length (dq_iter (OutInflight.queues (out_inflight s))) < fuel)%nat ->
  swp (drop_inflight fuel r) s
    (fun _ s' => drops s s' ((fun m => (from m, publish m)) <$>
         OutInflight.clone_inflight_messages (out_inflight s)) r /\
       OutInflight.clone_inflight_messages (out_inflight s') = [] /\ deliver_queue s' = deliver_queue s)
    (fun _ _ => False).
Proof.
  unfold OutInflight.clone_inflight_messages.
  revert s. induction fuel as [|fuel IH]; intros s Hf; [lia|]. cbn [drop_inflight]. swp_step.
  unfold swp at 1. destruct (OutInflight.pop_front_iter (out_inflight s)) as [Ht Hh].
  destruct (OutInflight.pop_front (out_inflight s)) as [r0 o]. simpl in Ht, Hh. subst r0.
  destruct (dq_iter (OutInflight.queues (out_inflight s))) as [|[pid m] rest] eqn:Hq; simpl in *.
  - swp_step. ssimpl. rewrite Ht. split; [|done]. unfold drops. split_and!; try done. by rewrite app_nil_r.
  - unfold dropped. do 4 swp_step. eapply swp_mono; [apply IH|..].
    + ssimpl. rewrite Ht. simpl in *. lia.
    + ssimpl. rewrite Ht. intros _ s' (Hd & He & Ho). split_and!; [|done|done].
      apply (drops_trans s (set_trace (trace s ++ [MessageDropped (Some (st_id s)) (from m) (publish m) r]) s) s'
        [(from m, publish m)]); [by unfold drops; split_and!|]. exact Hd.
    + done.
Qed.

Definition clean_effects (s : state) (r : Reason) : list Effect :=
  ((fun m => MessageDropped (Some (st_id s)) m.1 m.2 r) <$>
     Queue.inner (Queue.queue (deliver_queue s)) ++
     ((fun m => (from m, publish m)) <$> OutInflight.clone_inflight_messages (out_inflight s))) ++
  [SessionTerminated r] ++
  (if bool_decide (entry_id_same (st_id s) (world s) = Some true) then [SessionRemoved] else []).

Lemma clean_spec (s : state) (r : Reason) :
  swp (clean r) s
    (fun _ s' => Queue.inner (Queue.queue (deliver_queue s')) = [] /\
       OutInflight.clone_inflight_messages (out_inflight s') = [] /\
       st_fitter s' = st_fitter s /\ flags s' = flags s /\ trace s' = trace s ++ clean_effects s r)
    (fun _ _ => False).
Proof.
  unfold clean. do 3 swp_step. eapply swp_mono; [apply drop_queue_spec; unfold Queue.len; lia| |done].
  intros _ s1 (Hd1 & Hq1 & Ho1). cbv beta. do 3 swp_step. eapply swp_mono; [apply drop_inflight_spec| |done].
  { unfold OutInflight.len. rewrite dq_len_spec. lia. }
  intros _ s2 (Hd2 & Hi2 & Hq2). rewrite Ho1 in Hd2. destruct (drops_trans _ _ _ _ _ _ Hd1 Hd2) as (?&?&Hid&Hw&Ht).
  cbv beta. do 6 swp_step. ssimpl. unfold clean_effects. rewrite Hid, Hw, Ht.
  destruct (entry_id_same (st_id s) (world s)) as [[]|]; repeat swp_step; ssimpl;
    rewrite ?Hq2, ?Hi2; (split_and!; [done|done|done|done|]); by rewrite <- !app_assoc.
Qed.

(** Discarding a session reports every message that was waiting, in the
    queue and then in the window, as dropped, once each and in order, and
    then the end of the session; nothing is left in either, and the entry
    of the client is removed only where it is still this session's. *)
Theorem clean_discards (s : state) (r : Reason) :
  swp (clean r) s
    (fun _ s' =>
       Queue.inner (Queue.queue (deliver_queue s')) = [] /\
       OutInflight.clone_inflight_messages (out_inflight s') = [] /\
       trace s' = trace s ++
         ((fun m => MessageDropped (Some (st_id s)) m.1 m.2 r) <$>
            Queue.inner (Queue.queue (deliver_queue s)) ++
            ((fun m => (from m, publish m)) <$> OutInflight.clone_inflight_messages (out_inflight s))) ++
         [SessionTerminated r] ++
         (if bool_decide (entry_id_same (st_id s) (world s) = Some true) then [SessionRemoved] else []))
    (fun _ _ => False).
Proof. eapply swp_mono; [apply clean_spec|by intros ? s' (?&?&_&_&?)|done]. Qed.

Lemma tame_clean r : tame 0 1 (clean (W := W) (Q := Q) r).
Proof.
  intros s. eapply swp_mono; [apply clean_spec| |done]. intros _ s' (_&_&Hf&Hfl&Ht). split; [|done].
  assert (Hd : forall l : list (From * BPublish),
    let t := (fun m => MessageDropped (Some (st_id s)) m.1 m.2 r) <$> l in wills t = 0%nat /\ endings t = 0%nat).
  { induction l as [|m l [Hw He]]; done. }
  split; [done|]. exists (clean_effects s r). split; [done|].
  unfold clean_effects, wills, endings. rewrite !List.filter_app, !length_app.
  destruct (Hd (Queue.inner (Queue.queue (deliver_queue s)) ++
    ((fun m => (from m, publish m)) <$> OutInflight.clone_inflight_messages (out_inflight s)))) as [Hw He].
  unfold wills, endings in Hw, He. rewrite Hw, He. by destruct (bool_decide _).
Qed.

(** ** The will *)

Definition will_of (s : state) : option LastWill := ci_last_will (connect_info s).

(** Forwarding does not fail. *)
Definition forwards_total : Prop :=
  forall from p storage expiry (w : W), exists w', forwards from p storage expiry w = (Ok tt, w').

Lemma process_will_spec (s : state) :
  let m := (stry (E := Error) (F := Error) (process_last_will parse_query) : sm Error _) in
  swp m s (fun _ s' => exists n, adds n 0 s s' /\ flags s' = flags s /\ (n <= 1)%nat /\
      (will_of s = None -> n = 0%nat) /\ (forwards_total -> will_of s <> None -> n = 1%nat))
    (fun _ _ => False).
Proof.
  intros m. unfold m, process_last_will. do 3 swp_step. fold (will_of s).
  destruct (will_of s) as [lw|].
  - repeat swp_step. apply swp_ask_outcome; [apply forwards_returns|..].
    + intros [] w' _. swp_step. exists 1%nat. split_and!; try done; try lia.
      split; [done|]. by eexists [_].
    + intros e w' He. exists 0%nat. split_and!; try done; try lia.
      * apply (adds_eq s _ []); [done|]. by rewrite app_nil_r.
      * intros Hf _. edestruct Hf as [w'' Hw]. rewrite Hw in He. done.
  - swp_step. exists 0%nat. split_and!; try done; try lia. apply adds_refl.
Qed.

(** ** Offline *)

Definition weight (o : Offline) : nat :=
  if left o then 0 else match pending_will o with Some _ => 1 | None => 0 end.

(** A step of the offline loop pays for the will it publishes. *)
Definition paid (s s' : state) (o o' : Offline) : Prop :=
  (pending_will o' <> None -> pending_will o <> None) /\
  exists n, adds n 0 s s' /\ (n + weight o' <= weight o)%nat /\
    (forwards_total -> (left o' = false \/ fl_kicked (flags s') = false) -> n + weight o' = weight o)%nat.

Lemma publish_pending_spec (o : Offline) (s : state) :
  left o = false -> (pending_will o <> None -> will_of s <> None) ->
  swp (publish_pending parse_query o) s
    (fun _ s' => flags s' = flags s /\ exists n, adds n 0 s s' /\ (n <= weight o)%nat /\
       (forwards_total -> n = weight o)) (fun _ _ => False).
Proof.
  intros Hl Hw. unfold publish_pending, weight. rewrite Hl. destruct (pending_will o).
  - swp_step. eapply swp_mono; [apply process_will_spec| |done].
    intros r s' (n & Ha & Hf & Hn & _ & Ht). swp_step. split; [done|]. exists n. split_and!; [done..|].
    intros Hft. apply Ht; [done|]. by apply Hw.
  - swp_step. split; [done|]. exists 0%nat. split_and!; [apply adds_refl|done|done].
Qed.

Lemma tame_enqueue f p : tame 0 0 (enqueue (W := W) (Q := Q) try_send_ok f p).
Proof.
  unfold enqueue. apply tame_bind0.
  - intros s. unfold swp. destruct (Queue.send _ _ _ _) as [r c]. split; [|done].
    apply (adds_eq s _ []); [done|]. by rewrite app_nil_r.
  - intros [|[f' p']| |]; try apply tame_ret. apply tame_bind0; [apply tame_get|]. intros id. by apply tame_emit0.
Qed.

Lemma paid_adds (s s' : state) o : adds 0 0 s s' -> paid s s' o o.
Proof. intros Ha. split; [done|]. exists 0%nat. split_and!; [done|lia|lia]. Qed.

Lemma offline_message_spec (o : Offline) msg (s : state) :
  left o = false ->
  swp (offline_message try_send_ok o msg) s (fun o' s' => paid s s' o o') (fun _ _ => False).
Proof.
  intros Hl. destruct msg; cbn [offline_message]; try (swp_step; apply paid_adds, adds_refl).
  - do 3 swp_step. eapply swp_mono; [apply tame_enqueue| |done]. intros _ s' [Ha _]. swp_step.
    apply paid_adds. refine (adds_trans 0 0 0 0 s _ s' _ Ha). by apply (adds_eq s _ [OfflineMessage from p]).
  - destruct closed; [swp_step; apply paid_adds, adds_refl|]. unfold insert_flag. repeat swp_step.
    split; [done|]. exists 0%nat. unfold weight. simpl. split_and!; [by apply (adds_eq s _ [KickReplied])|lia|].
    intros _ [?|Hk]; [done|]. ssimpl in Hk. unfold kick_flags in Hk. by destruct is_admin, clean_start.
Qed.

Lemma offline_step_spec (o : Offline) e (s : state) :
  left o = false -> (pending_will o <> None -> will_of s <> None) ->
  swp (offline_step try_send_ok parse_query o e) s (fun o' s' => paid s s' o o') (fun _ _ => False).
Proof.
  intros Hl Hw. destruct e as [| | |msg|w]; cbn [offline_step].
  - do 2 swp_step. destruct (rx s) as [|msg rest]; [swp_step; apply paid_adds, adds_refl|].
    do 2 swp_step. eapply swp_mono; [by apply offline_message_spec| |done]. done.
  - swp_step. eapply swp_mono; [by apply publish_pending_spec| |done].
    intros _ s' (Hf & n & Ha & Hn & Ht). swp_step. split; [done|]. exists n. unfold weight at 1 3. simpl.
    split_and!; [done|lia|]. intros Hft _. rewrite Ht by done. lia.
  - swp_step. eapply swp_mono; [by apply publish_pending_spec| |done].
    intros _ s' (Hf & n & Ha & Hn & Ht). swp_step. split; [done|]. exists n. unfold weight at 1 3. simpl.
    split_and!; [done|lia|]. intros Hft _. rewrite Ht by done. lia.
  - do 3 swp_step. apply paid_adds. apply (adds_eq s _ []); [done|]. by rewrite app_nil_r.
  - do 3 swp_step. apply paid_adds. apply (adds_eq s _ []); [done|]. by rewrite app_nil_r.
Qed.

Lemma paid_trans (s s1 s2 : state) o o1 o2 :
  paid s s1 o o1 -> left o1 = false -> paid s1 s2 o1 o2 -> paid s s2 o o2.
Proof.
  intros [Hp (n & Ha & Hn & Ht)] Hl [Hp2 (m & Ha2 & Hm & Ht2)]. split; [auto|].
  exists (n + m)%nat. split_and!; [by apply (adds_trans n 0 m 0 s s1)|lia|].
  intros Hft Hc. specialize (Ht Hft (or_introl Hl)). specialize (Ht2 Hft Hc). lia.
Qed.

Lemma offline_loop_spec (o : Offline) es (s : state) :
  left o = false -> (pending_will o <> None -> will_of s <> None) ->
  swp (offline_run_loop try_send_ok parse_query o es) s (fun o' s' => paid s s' o o') (fun _ _ => False).
Proof.
  revert o s. induction es as [|e es IH]; intros o s Hl Hw; cbn [offline_run_loop].
  { swp_step. apply paid_adds, adds_refl. }
  swp_step. eapply swp_mono; [by apply offline_step_spec| |done]. intros o1 s1 Hp1. cbv beta.
  destruct (left o1) eqn:Hl1; [by swp_step|]. eapply swp_mono; [apply IH; [done|]| |done].
  - destruct Hp1 as [Hp (n & [Hf _] & _)]. intros Hn. unfold will_of, connect_info in *. rewrite Hf. auto.
  - intros o2 s2 Hp2. by apply (paid_trans s s1 s2 o o1 o2).
Qed.

(** ** The whole end *)

(** 1 where there is a will and the connection ended so that it is due:
    without a DISCONNECT, and not by another connection taking over a
    session that is to go on. *)
Definition due (s : state) (clean_sess : bool) : nat :=
  if bool_decide (is_Some (will_of s) /\ fl_disconnect_received (flags s) = false /\
       ~ (fl_kicked (flags s) = true /\ fl_clean_start (flags s) = false /\ clean_sess = false))
  then 1 else 0.

Lemma due_enabled (s : state) clean_sess :
  due s clean_sess = if last_will_enable (flags s) clean_sess && bool_decide (is_Some (will_of s)) then 1%nat else 0%nat.
Proof.
  unfold due, last_will_enable.
  destruct (fl_disconnect_received (flags s)), (fl_kicked (flags s)), (fl_clean_start (flags s)), clean_sess,
    (will_of s); simpl; repeat case_bool_decide; naive_solver.
Qed.

Definition waiting (delay : option Z) : nat := match delay with Some _ => 1 | None => 0 end.

Lemma will_or_delay_spec clean_sess (s : state) :
  swp (will_or_delay parse_query clean_sess) s
    (fun d s' => flags s' = flags s /\ (clean_sess = true -> d = None) /\ (d <> None -> will_of s <> None) /\
       exists n, adds n 0 s s' /\ (n + waiting d <= due s clean_sess)%nat /\
         (forwards_total -> n + waiting d = due s clean_sess)%nat)
    (fun _ _ => False).
Proof.
  rewrite due_enabled. unfold will_or_delay. do 2 swp_step. destruct (last_will_enable (flags s) clean_sess); cbn [andb].
  2:{ swp_step. split_and!; try done. exists 0%nat. split_and!; [apply adds_refl|done|done]. }
  do 2 swp_step. swp_step.
  - swp_step. eapply swp_mono; [apply process_will_spec| |done]. intros r s' (n & Ha & Hf & Hn & Hno & Hyes).
    swp_step. split_and!; try done. exists n. split; [done|]. unfold waiting.
    destruct (will_of s); [rewrite bool_decide_true by done|rewrite bool_decide_false by (by intros [? ?])];
      (split; [|intros Hft]); rewrite ?Hno by done; try lia. specialize (Hyes Hft). rewrite Hyes; [done|done].
  - swp_step. apply orb_false_iff in Heqb as [-> Hd]. apply bool_decide_eq_false in Hd.
    assert (Hw : will_of s <> None).
    { unfold will_delay_interval in Hd. unfold will_of. intros Hn. by rewrite Hn in Hd. }
    split_and!; try done. exists 0%nat. split; [apply adds_refl|]. unfold waiting.
    destruct (will_delay_interval s); [|done]. destruct (will_of s); [|done].
    by rewrite bool_decide_true.
Qed.

Lemma tame_end_reason : tame 0 0 (end_reason (W := W) (Q := Q)).
Proof.
  unfold end_reason. apply tame_bind0; [apply tame_get|]. intros [|r rs]; [|apply tame_get].
  apply tame_bind0; [by apply tame_modify|]. intros _. apply tame_ret.
Qed.

Lemma tame_send p : is_will (Sent p) = false -> tame 0 0 (stry (E := Error) (send (W := W) (Q := Q) p)).
Proof.
  intros _ s. do 2 swp_step; (split; [|done]).
  - by apply (adds_eq s _ [Sent p]).
  - by apply (adds_eq s _ [SendFailed p]).
Qed.

Lemma tame_goodbye r : tame 0 0 (say_goodbye (W := W) (Q := Q) r).
Proof.
  unfold say_goodbye. apply tame_bind0; [apply tame_get|]. intros five. apply tame_bind0.
  - destruct five; [|apply tame_ret]. apply tame_bind0; [by apply tame_send|]. intros _. apply tame_ret.
  - intros _. by apply tame_emit0.
Qed.

Lemma tame_take : tame 0 0 (disconnected_reason_take (W := W) (Q := Q)).
Proof.
  intros s. unfold disconnected_reason_take, swp. split; [|done].
  apply (adds_eq s _ []); [done|]. by rewrite app_nil_r.
Qed.

Lemma discard_spec clean_sess delay (s : state) :
  swp (discard_or_offline clean_sess delay) s
    (fun r s' => flags s' = flags s /\ exists k, adds 0 k s s' /\
       match r with
       | Some d => d = delay /\ k = 0%nat
       | None => fl_kicked (flags s) = true \/ clean_sess = true
       end)
    (fun _ _ => False).
Proof.
  assert (Htake : tame 0 1 (let! r := disconnected_reason_take in clean r)).
  { apply tame_bind0; [apply tame_take|apply tame_clean]. }
  unfold discard_or_offline. do 2 swp_step. destruct (fl_kicked (flags s)) eqn:Hk; [|destruct clean_sess].
  - swp_step. destruct (fl_by_admin_kick (flags s)).
    + eapply swp_mono; [apply Htake| |done]. intros _ s' [Ha Hf]. swp_step. split; [done|].
      exists 1%nat. auto.
    + do 2 swp_step. split; [done|]. exists 0%nat. split; [apply adds_refl|auto].
  - swp_step. eapply swp_mono; [apply Htake| |done]. intros _ s' [Ha Hf]. swp_step. split; [done|].
    exists 1%nat. auto.
  - do 3 swp_step. destruct (OutInflight.clone_inflight_messages _) as [|m ms]; repeat swp_step;
      (split; [done|]; exists 0%nat; split; [|done]); [apply adds_refl|].
    by apply (adds_eq s _ [OfflineInflightMessages (m :: ms)]).
Qed.

(** What is known when the connection is closed: [d] wills were due. *)
Definition closed_with (d : nat) (s s' : state) (r : option (option Z)) : Prop :=
  flags s' = flags s /\ exists n k, adds n k s s' /\
  match r with
  | Some delay => (delay <> None -> will_of s' <> None) /\ k = 0%nat /\
      (n + waiting delay <= d)%nat /\ (forwards_total -> n + waiting delay = d)%nat
  | None => (n <= d)%nat /\ (forwards_total -> fl_kicked (flags s) = false -> n = d)
  end.

Lemma after_close_spec clean_sess (s : state) :
  swp (after_close parse_query clean_sess) s
    (fun r s' => closed_with (due s clean_sess) s s' r) (fun _ _ => False).
Proof.
  unfold after_close. swp_step. eapply swp_mono; [apply will_or_delay_spec| |done].
  intros delay s1 (Hf1 & Hc & Hd & n & Ha1 & Hn & Ht). cbv beta. swp_step.
  eapply swp_mono; [apply tame_end_reason| |done]. intros reason s2 [Ha2 Hf2]. cbv beta. swp_step.
  eapply swp_mono; [apply tame_goodbye| |done]. intros _ s3 [Ha3 Hf3]. cbv beta.
  eapply swp_mono; [apply discard_spec| |done]. intros r s4 (Hf4 & k & Ha4 & Hr).
  assert (Ha : adds n k s s4).
  { pose proof (adds_trans _ _ _ _ _ _ _ (adds_trans _ _ _ _ _ _ _ Ha1 Ha2)
      (adds_trans _ _ _ _ _ _ _ Ha3 Ha4)) as Ha. by rewrite ?Nat.add_0_r, ?Nat.add_0_l in Ha. }
  split; [congruence|]. exists n, k. split; [done|]. destruct r as [delay'|].
  - destruct Hr as [-> ->]. split_and!; try done. intros Hdn. unfold will_of, connect_info.
    destruct Ha as [-> _]. by apply Hd.
  - split; [lia|]. intros Hft Hk. specialize (Ht Hft). destruct Hr as [Hr|Hr]; [congruence|].
    rewrite (Hc Hr) in Ht. simpl in Ht. lia.
Qed.

Definition clean_at_end (s : state) : bool :=
  clean_session s (DisconnectInfo.mqtt_disconnect (disconnect_info s)).

Lemma closed_with_before d (s s1 s' : state) r :
  adds 0 0 s s1 -> flags s1 = flags s -> closed_with d s1 s' r -> closed_with d s s' r.
Proof.
  intros Ha Hf (Hf' & n & k & Ha' & Hr). split; [congruence|]. exists n, k.
  split; [by apply (adds_trans 0 0 n k s s1)|]. by rewrite Hf in Hr.
Qed.

Lemma connection_end_spec result (s : state) :
  swp (connection_end parse_query result) s
    (fun r s' => closed_with (due s (clean_at_end s)) s s' r) (fun _ _ => False).
Proof.
  unfold connection_end, disconnected_set, disconnected_reason_add. swp_step.
  assert (Hgo : forall s1 : state, adds 0 0 s s1 -> flags s1 = flags s ->
    swp (after_close parse_query (clean_at_end s)) s1
      (fun r s' => closed_with (due s (clean_at_end s)) s s' r) (fun _ _ => False)).
  { intros s1 Ha Hf. eapply swp_mono; [apply after_close_spec| |done]. intros r s' Hr.
    apply (closed_with_before _ s s1); try done. unfold due, will_of, connect_info in *.
    by rewrite <- Hf, <- (proj1 Ha). }
  destruct result; repeat swp_step; ssimpl; (apply Hgo; [|done]);
    by apply (adds_eq s _ [ConnectionClosed]).
Qed.

(** The offline loop and what follows it, where the will waits for [delay]. *)
Lemma offline_tail_spec delay es (s : state) :
  (delay <> None -> will_of s <> None) ->
  swp (let! o := offline_run_loop try_send_ok parse_query (mkOffline delay false) es in
       let! f := sget flags in
       if left o && negb (fl_kicked f) then clean SessionExpiration else sret tt) s
    (fun _ s' => exists n k, adds n k s s' /\ (n <= waiting delay)%nat /\
       (forwards_total -> k <> 0%nat -> n = waiting delay))
    (fun _ _ => False).
Proof.
  intros Hw. swp_step. eapply swp_mono; [apply offline_loop_spec; [done|exact Hw]| |done].
  intros o s1 [_ (n & Ha & Hn & Ht)]. cbv beta. do 2 swp_step.
  unfold weight in Hn, Ht. cbn [left pending_will] in Hn, Ht. fold (waiting delay) in Hn, Ht. swp_step.
  - eapply swp_mono; [apply tame_clean| |done]. intros _ s2 [Ha2 _].
    exists (n + 0)%nat, (0 + 1)%nat. split; [by eapply adds_trans|]. split; [lia|]. intros Hft _.
    apply andb_true_iff in Heqb as [Hl Hk]. apply negb_true_iff in Hk.
    specialize (Ht Hft (or_intror Hk)). rewrite Hl in Ht. lia.
  - swp_step. exists n, 0%nat. split; [done|]. split; [lia|done].
Qed.


(** A restarted session and its will: whether the client had said
    DISCONNECT is forgotten. The will is published at most once, not at all
    without one, and has been published by the time the session expires. *)
Theorem restart_will_once (s : state) (es : list OfflineEvent) :
  let d := if bool_decide (is_Some (will_of s)) then 1%nat else 0%nat in
  swp (offline_restart try_send_ok parse_query es) s
    (fun _ s' => exists t, trace s' = trace s ++ t /\ (wills t <= d)%nat /\
       (forwards_total -> endings t <> 0%nat -> wills t = d))
    (fun _ _ => False).
Proof.
  intros d. assert (Hd : forall c, due (set_flags no_flags s) c = d) by (intros c; by rewrite due_enabled).
  unfold offline_restart. do 7 swp_step.
  eapply swp_mono; [apply will_or_delay_spec| |done].
  intros delay s1 (_ & _ & Hw & n & Ha1 & Hn & Ht). rewrite Hd in Hn, Ht. cbv beta. eapply swp_mono; [apply offline_tail_spec| |done].
  { intros Hne. specialize (Hw Hne). unfold will_of, connect_info in *. by rewrite (proj1 Ha1). }
  intros _ s2 (m & k & Ha2 & Hm & Ht2).
  destruct (adds_trans _ _ _ _ _ _ _ Ha1 Ha2) as [_ (t & Htr & Hwt & He)]. exists t.
  split_and!; [done|lia|]. intros Hft Hne. specialize (Ht Hft). specialize (Ht2 Hft ltac:(lia)). lia.
Qed.
End will.
