(* ===== verification/SessionHandover.v ===== *)
(** * Handing a session over

    A client that connects again takes over the messages its earlier
    session still had: [Session::to_offline_info] collects them,
    [transfer_session_state] puts them into the mailbox of the new one. *)

From stdpp Require Import prelude list strings gmap.
From Stdlib Require Import ZArith Lia.
From S2P Require Import Prelude CodecTypes CodecUtils CodecV3 CodecV5Types Topic BrokerTypes Subscription Queue Inflight Connection Fitter TopicAlias Delayed Session SessionLogic SessionOutbound SessionLoop SessionEnd.

Local Open Scope Z_scope.

Section handover.
Context {W Q : Type} `{!Broker W} `{!BrokerOk W}.
Context `{!DequeMap OutInflightMessage Q} `{!DequeMapOk OutInflightMessage Q}.
Local Open Scope session_scope.
Abbreviation state := (SessionState W Q).
Abbreviation sm := (sess W Q).

(** ** Collecting *)

Lemma pop_all_spec fuel (q : Queue.t (From * BPublish)) :
  (length (Queue.inner q) < fuel)%nat -> exists q', pop_all fuel q = Some (Queue.inner q, q').
Proof.
  revert q. induction fuel as [|fuel IH]; intros q Hf; [lia|]. cbn [pop_all]. unfold Queue.pop.
  destruct (Queue.inner q) as [|m rest] eqn:Hq; [by eexists|].
  match goal with |- context [pop_all fuel ?q1] => destruct (IH q1) as [q' ->] end; [simpl in *; lia|].
  by eexists.
Qed.

(** ** Into the mailbox *)

(** The handler puts [ms] into the mailbox and does not fail. *)
Definition mails (s : state) {A} (m : sm Error A) (ms : list Message) : Prop :=
  swp m s (fun _ s' => rx s' = rx s ++ ms /\ rx_closed s' = rx_closed s) (fun _ _ => False).

Lemma mails_each {A} (f : A -> sm Error unit) (g : A -> list Message) l (s : state) :
  rx_closed s = false -> (forall a s, rx_closed s = false -> mails s (f a) (g a)) ->
  mails s (each f l) (l ≫= g).
Proof.
  intros Hc Hf. revert s Hc. unfold mails. induction l as [|a l IH]; intros s Hc; simpl.
  - swp_step. by rewrite app_nil_r.
  - swp_step. eapply swp_mono; [by apply Hf| |done]. intros _ s1 [Hr1 Hc1]. cbv beta.
    eapply swp_mono; [apply IH; congruence| |done]. intros _ s2 [Hr2 Hc2]. split; [|congruence].
    by rewrite Hr2, Hr1, app_assoc.
Qed.

Lemma mails_forward f p (s : state) : rx_closed s = false -> mails s (forward f p) [MForward f p].
Proof.
  intros Hc. unfold mails, forward. swp_step. unfold mail, swp at 1. rewrite Hc. by swp_step.
Qed.

(** A message in flight that the client has not begun to release is sent
    again, marked as a repetition. *)
Definition resent (m : OutInflightMessage) : list Message :=
  if bool_decide (status m = UnComplete) then [] else [MForward (from m) (set_dup (publish m))].

Lemma mails_resent m (s : state) :
  rx_closed s = false ->
  mails s (if bool_decide (status m = UnComplete) then sret tt else stry (reforward m) ;;; sret tt) (resent m).
Proof.
  intros Hc. unfold mails, resent. case_bool_decide as Hs.
  - swp_step. by rewrite app_nil_r.
  - unfold reforward. do 2 swp_step.
    assert (Hf := mails_forward (from m) (set_dup (publish m)) s Hc).
    destruct (status m); [| |done]; (eapply swp_mono; [exact Hf|by intros; swp_step|done]).
Qed.

Lemma mails_take_over id sub (s : state) : mails s (take_over_subscription id sub) [].
Proof.
  unfold mails, take_over_subscription. do 2 swp_step.
  apply swp_ask_outcome; [apply router_add_returns|..]; intros; swp_step; ssimpl; by rewrite app_nil_r.
Qed.

(** C15. A client that connects again misses nothing that was waiting for it:
    what the old session collects is always complete, and taking it over
    puts the messages in flight, marked as repetitions, and the messages of
    the queue, unchanged and in order, into the mailbox of the new session,
    each exactly once and behind what is there. Only a message whose PUBREC
    had been received is left out; those in flight come in reverse order. *)
Theorem handover_complete (old new : state) (subs : list (string * SubscriptionOptions))
    (created_at : Z) (clear_subscriptions : bool) :
  rx_closed new = false ->
  exists info, to_offline_info subs created_at old = Some info /\
    swp (transfer_session_state clear_subscriptions info) new
      (fun _ s' => rx s' = rx new ++
         (rev (OutInflight.clone_inflight_messages (out_inflight old)) ≫= resent) ++
         ((fun m => MForward m.1 m.2) <$> Queue.inner (Queue.queue (deliver_queue old))))
      (fun _ _ => False).
Proof.
  intros Hc. unfold to_offline_info, OutInflight.to_inflight_messages.
  destruct (pop_all_spec (S (Queue.len (Queue.queue (deliver_queue old)))) (Queue.queue (deliver_queue old)))
    as [q ->]; [unfold Queue.len; lia|].
  destruct (OutInflight.drain_loop_spec (S (Z.to_nat (OutInflight.len (out_inflight old)))) (out_inflight old) [])
    as (o & -> & _); [unfold OutInflight.len; rewrite dq_len_spec; lia|].
  eexists. split; [done|]. unfold transfer_session_state.
  cbn [oi_subscriptions oi_inflight_messages oi_offline_messages app]. do 3 swp_step.
  assert (Hsubs : mails new
    (if negb clear_subscriptions
     then each (take_over_subscription (st_id new)) subs ;;;
          ask (fun w => (tt, session_subs_extend (st_id new) subs w))
     else sret tt) []).
  { unfold mails. destruct (negb clear_subscriptions); swp_step; [|by rewrite app_nil_r].
    eapply swp_mono; [apply (mails_each _ (fun _ => [])); [done|intros; apply mails_take_over]| |done].
    intros _ s1 [Hr1 Hc1]. swp_step. ssimpl. split; [|done]. rewrite Hr1.
    assert (Hnil : subs ≫= (fun _ => []) = ([] : list Message)) by (clear; induction subs; done).
    by rewrite Hnil. }
  eapply swp_mono; [exact Hsubs| |done]. intros _ s1 [Hr1 Hc1]. cbv beta. swp_step.
  eapply swp_mono; [apply (mails_each _ resent); [congruence|intros; by apply mails_resent]| |done].
  intros _ s2 [Hr2 Hc2]. cbv beta.
  eapply swp_mono; [apply (mails_each _ (fun m => [MForward m.1 m.2])); [congruence|intros; by apply mails_forward]| |done].
  intros _ s3 [Hr3 _]. rewrite Hr3, Hr2, Hr1, app_nil_r, <- app_assoc. done.
Qed.
End handover.
