(* ===== verification/SessionSubs.v ===== *)
(** * The subscriptions of a session: [SessionSubs] of [types.rs]

    A session's own subscriptions, and the two gauges of the broker that
    count the subscriptions and the shared ones of all the sessions. *)

From stdpp Require Import prelude list strings gmap.
From Stdlib Require Import ZArith Lia.
From S2P Require Import Prelude CodecTypes CodecV5Types BrokerTypes Subscription.

Local Open Scope Z_scope.

Definition has_shared_group (o : SubscriptionOptions) : bool := bool_decide (is_Some (shared_group o)).

Module SessionSubs.

Abbreviation SubMap := (gmap string SubscriptionOptions).

(** [stats.subscriptions] and [stats.subscriptions_shared]. *)
Record Gauges : Type := mkGauges { subscriptions : Counter.t; subscriptions_shared : Counter.t }.

Definition inc_all (g : Gauges) : Gauges := mkGauges (Counter.inc (subscriptions g)) (subscriptions_shared g).
Definition dec_all (g : Gauges) : Gauges := mkGauges (Counter.dec (subscriptions g)) (subscriptions_shared g).
Definition inc_shared (g : Gauges) : Gauges := mkGauges (subscriptions g) (Counter.inc (subscriptions_shared g)).
Definition dec_shared (g : Gauges) : Gauges := mkGauges (subscriptions g) (Counter.dec (subscriptions_shared g)).

Definition State : Type := SubMap * Gauges.

Definition add (st : State) (topic_filter : string) (opts : SubscriptionOptions)
    : option SubscriptionOptions * State :=
  let '(subs, g) := st in
  let is_shared := has_shared_group opts in
  let prev := subs !! topic_filter in
  let subs := <[topic_filter := opts]> subs in
  let g :=
    match prev with
    | Some prev_opts =>
        match has_shared_group prev_opts, is_shared with
        | true, false => dec_shared g
        | false, true => inc_shared g
        | _, _ => g
        end
    | None => let g := inc_all g in if is_shared then inc_shared g else g
    end in
  (prev, (subs, g)).

Definition remove (st : State) (topic_filter : string)
    : option (string * SubscriptionOptions) * State :=
  let '(subs, g) := st in
  match subs !! topic_filter with
  | Some opts =>
      let g := dec_all g in
      (Some (topic_filter, opts),
       (delete topic_filter subs, if has_shared_group opts then dec_shared g else g))
  | None => (None, st)
  end.

(** The filters, in the order of the map. *)
Definition to_topic_filters (subs : SubMap) : list string := (map_to_list subs).*1.

Fixpoint drain_filters (st : State) (filters : list string) : list (string * SubscriptionOptions) * State :=
  match filters with
  | [] => ([], st)
  | tf :: rest =>
      let '(removed, st) := remove st tf in
      let '(subs, st) := drain_filters st rest in
      (option_list removed ++ subs, st)
  end.

Definition drain (st : State) : list (string * SubscriptionOptions) * State :=
  drain_filters st (to_topic_filters st.1).

Definition extend (st : State) (subs : list (string * SubscriptionOptions)) : State :=
  foldl (fun st sub => (add st sub.1 sub.2).2) st subs.

Definition clear (st : State) : State :=
  let '(subs, g) := st in
  (∅, foldl (fun g opts => let g := dec_all g in if has_shared_group opts then dec_shared g else g)
        g (map_to_list subs).*2).

Definition len (subs : SubMap) : Z := Z.of_nat (size subs).
Definition shared_len (subs : SubMap) : Z :=
  Z.of_nat (size (filter (fun e => has_shared_group e.2 = true) subs)).

(** ** The gauges count *)

Inductive op : Type :=
| Add (tf : string) (opts : SubscriptionOptions)
| Remove (tf : string)
| Drain
| Extend (subs : list (string * SubscriptionOptions))
| Clear.

Definition step (st : State) (o : op) : State :=
  match o with
  | Add tf opts => (add st tf opts).2
  | Remove tf => (remove st tf).2
  | Drain => (drain st).2
  | Extend subs => extend st subs
  | Clear => clear st
  end.

(** [all] and [shared] are what the gauges show beside this session. *)
Definition counted (all shared : Z) (st : State) : Prop :=
  isize (Counter.current (subscriptions st.2)) = isize (all + len st.1) /\
  isize (Counter.current (subscriptions_shared st.2)) = isize (shared + shared_len st.1).

Lemma shared_len_insert_new (subs : SubMap) tf opts :
  subs !! tf = None ->
  shared_len (<[tf := opts]> subs) = shared_len subs + (if has_shared_group opts then 1 else 0).
Proof.
  intros Hn. unfold shared_len. rewrite map_filter_insert. cbn [snd]. case_decide as Hs.
  - rewrite Hs, map_size_insert_None; [lia|]. apply map_lookup_filter_None. by left.
  - rewrite map_filter_delete, delete_id.
    + destruct (has_shared_group opts); [done|lia].
    + apply map_lookup_filter_None. by left.
Qed.

Lemma shared_len_delete (subs : SubMap) tf opts :
  subs !! tf = Some opts ->
  shared_len subs = shared_len (delete tf subs) + (if has_shared_group opts then 1 else 0).
Proof.
  intros Hs. rewrite <- (insert_delete_id subs tf opts Hs) at 1. apply shared_len_insert_new.
  apply lookup_delete_eq.
Qed.

Lemma isize_plus a b c : isize a = isize b -> isize (a + c) = isize (b + c).
Proof. intros H. by rewrite <- (Counter.isize_add a), H, Counter.isize_add. Qed.

Lemma isize_isize a : isize (isize a) = isize a.
Proof. pose proof (Counter.isize_add a 0) as H. by rewrite !Z.add_0_r in H. Qed.

Lemma counted_inc c b : isize (Counter.current c) = isize b -> isize (Counter.current (Counter.inc c)) = isize (b + 1).
Proof. intros H. simpl. rewrite isize_isize. by apply isize_plus. Qed.
Lemma counted_dec c b : isize (Counter.current c) = isize b -> isize (Counter.current (Counter.dec c)) = isize (b - 1).
Proof. intros H. simpl. rewrite isize_isize. by apply (isize_plus _ _ (-1)). Qed.

Lemma add_counted all shared st tf opts : counted all shared st -> counted all shared (add st tf opts).2.
Proof.
  destruct st as [subs g]. unfold counted, add, len. cbn [fst snd]. intros [Ha Hs].
  rewrite map_size_insert. destruct (subs !! tf) as [prev|] eqn:Hp.
  - pose proof (shared_len_delete subs tf prev Hp) as Hd.
    pose proof (shared_len_insert_new (delete tf subs) tf opts (lookup_delete_eq _ _)) as Hn.
    rewrite insert_delete_eq in Hn. rewrite Hn. rewrite Hd in Hs.
    destruct (has_shared_group prev), (has_shared_group opts); cbn [inc_shared dec_shared subscriptions subscriptions_shared];
      (split; [done|]); try done.
    + rewrite (counted_dec _ _ Hs). f_equal. lia.
    + rewrite (counted_inc _ _ Hs). f_equal. lia.
  - rewrite (shared_len_insert_new subs tf opts Hp).
    destruct (has_shared_group opts); cbn [inc_all inc_shared subscriptions subscriptions_shared].
    + rewrite (counted_inc _ _ Ha), (counted_inc _ _ Hs). split; f_equal; lia.
    + rewrite (counted_inc _ _ Ha), Hs. split; f_equal; lia.
Qed.

(** The gauges after an entry is gone. *)
Lemma dec_counted all shared subs g tf opts :
  subs !! tf = Some opts -> counted all shared (subs, g) ->
  let g' := let g := dec_all g in if has_shared_group opts then dec_shared g else g in
  counted all shared (delete tf subs, g').
Proof.
  unfold counted, len. cbn [fst snd]. intros Hp [Ha Hs]. rewrite (shared_len_delete subs tf opts Hp) in Hs.
  assert (Hsz : Z.of_nat (size subs) = Z.of_nat (size (delete tf subs)) + 1).
  { rewrite <- (insert_delete_id subs tf opts Hp) at 1. rewrite map_size_insert, lookup_delete_eq. lia. }
  rewrite Hsz in Ha.
  destruct (has_shared_group opts); cbn [dec_all dec_shared subscriptions subscriptions_shared].
  - rewrite (counted_dec _ _ Ha), (counted_dec _ _ Hs). split; f_equal; lia.
  - rewrite (counted_dec _ _ Ha), Hs. split; f_equal; lia.
Qed.

Lemma remove_counted all shared st tf : counted all shared st -> counted all shared (remove st tf).2.
Proof.
  destruct st as [subs g]. intros Hc. unfold remove. destruct (subs !! tf) as [opts|] eqn:Hp; [|done].
  by apply dec_counted.
Qed.

Lemma drain_filters_spec all shared filters st :
  counted all shared st -> NoDup filters -> (forall tf, tf ∈ filters -> is_Some (st.1 !! tf)) ->
  let '(subs, st') := drain_filters st filters in
  counted all shared st' /\ Forall2 (fun tf sub => sub.1 = tf /\ st.1 !! tf = Some sub.2) filters subs /\
  forall tf, st'.1 !! tf = if decide (tf ∈ filters) then None else st.1 !! tf.
Proof.
  revert st. induction filters as [|tf rest IH]; intros [subs g] Hc Hnd Hin; cbn [drain_filters remove fst].
  - split_and!; [done|constructor|]. intros tf. case_decide as Hn; [by apply not_elem_of_nil in Hn|done].
  - apply NoDup_cons in Hnd as [Hni Hnd]. destruct (Hin tf) as [opts Hp]; [apply list_elem_of_here|].
    simpl in Hp. rewrite Hp.
    specialize (IH (delete tf subs, let g := dec_all g in if has_shared_group opts then dec_shared g else g)).
    destruct (drain_filters _ rest) as [l st'] eqn:Hd. cbn [fst] in IH.
    destruct IH as (Hc' & Hf & Hl); [by apply dec_counted|done| |].
    { intros tf' Hin'. rewrite lookup_delete_ne by (intros ->; done). apply Hin. by apply list_elem_of_further. }
    split_and!; [done| |].
    + simpl. constructor; [done|]. eapply Forall2_impl; [exact Hf|]. intros tf' sub [-> Hs]. split; [done|].
      by apply lookup_delete_Some in Hs as [_ ?].
    + intros tf'. rewrite Hl. destruct (decide (tf' = tf)) as [->|Hne].
      * rewrite lookup_delete_eq. rewrite (decide_True (P := tf ∈ tf :: rest)) by apply list_elem_of_here.
        by destruct (decide _).
      * rewrite lookup_delete_ne by done. destruct (decide (tf' ∈ rest)) as [Hr|Hr].
        -- by rewrite decide_True by (by apply list_elem_of_further).
        -- rewrite decide_False; [done|]. by intros [?|?]%elem_of_cons.
Qed.

Lemma drain_spec all shared st :
  counted all shared st ->
  counted all shared (drain st).2 /\ (drain st).2.1 = ∅ /\ (drain st).1 = map_to_list st.1.
Proof.
  intros Hc. unfold drain. pose proof (drain_filters_spec all shared (to_topic_filters st.1) st Hc) as Hd.
  assert (Hel : forall tf, tf ∈ to_topic_filters st.1 <-> is_Some (st.1 !! tf)).
  { intros tf. unfold to_topic_filters. rewrite list_elem_of_fmap. split.
    - intros ([k o] & -> & Hin%elem_of_map_to_list). by eexists.
    - intros [o Ho]. exists (tf, o). split; [done|]. by apply elem_of_map_to_list. }
  destruct (drain_filters _ _) as [subs st']. cbn [fst snd].
  destruct Hd as (Hc' & Hf & Hl); [apply NoDup_fst_map_to_list|by intros ? ?%Hel|]. split_and!; [done| |].
  - apply map_eq. intros tf. rewrite Hl, lookup_empty. case_decide as Hin; [done|].
    destruct (st.1 !! tf) eqn:Hs; [|done]. destruct Hin. apply Hel. by eexists.
  - unfold to_topic_filters in Hf. clear Hl Hel.
    assert (Hall : forall e, e ∈ map_to_list st.1 -> st.1 !! e.1 = Some e.2).
    { intros [k o] Hin. by apply elem_of_map_to_list in Hin. }
    revert subs Hf. induction (map_to_list st.1) as [|[k o] l IH]; intros subs Hf.
    + by apply Forall2_nil_inv_l in Hf.
    + apply Forall2_cons_inv_l in Hf as ([k' o'] & subs' & [Hk Ho] & Hf & ->). simpl in Hk, Ho. subst k'.
      pose proof (Hall (k, o) (list_elem_of_here _ _)) as Hko. simpl in Hko. rewrite Hko in Ho. simplify_eq.
      f_equal. apply IH; [|done]. intros e He. apply Hall. by apply list_elem_of_further.
Qed.

Lemma extend_counted all shared subs st : counted all shared st -> counted all shared (extend st subs).
Proof.
  revert st. unfold extend. induction subs as [|sub subs IH]; intros st Hc; [done|].
  simpl. apply IH. by apply add_counted.
Qed.

Lemma clear_counted all shared st : counted all shared st -> counted all shared (clear st).
Proof.
  destruct st as [subs g]. unfold clear. revert g.
  induction subs as [|tf opts subs Hn Hfst IH] using map_first_key_ind; intros g Hc; [done|].
  rewrite map_to_list_insert_first_key by done. cbn [fmap list_fmap snd foldl]. apply IH.
  pose proof (dec_counted all shared (<[tf := opts]> subs) g tf opts (lookup_insert_eq _ _ _) Hc) as Hd.
  by rewrite delete_insert_id in Hd.
Qed.

Lemma step_counted all shared st o : counted all shared st -> counted all shared (step st o).
Proof.
  destruct o; simpl; intros Hc.
  - by apply add_counted.
  - by apply remove_counted.
  - by apply drain_spec.
  - by apply extend_counted.
  - by apply clear_counted.
Qed.

(** The broker's gauges count the subscriptions exactly: from a session
    without any, and after any sequence of additions (also of a filter that
    was there, with or without a shared group before and after), removals,
    hand-overs and clearings, each gauge has grown by the number of
    subscriptions, or shared subscriptions, the session has; when it is
    cleared the gauges are back where they were. *)
Theorem session_subs_gauges (g : Gauges) (ops : list op) :
  let st := foldl step (∅, g) ops in
  isize (Counter.current (subscriptions st.2)) = isize (Counter.current (subscriptions g) + len st.1) /\
  isize (Counter.current (subscriptions_shared st.2))
    = isize (Counter.current (subscriptions_shared g) + shared_len st.1) /\
  isize (Counter.current (subscriptions (clear st).2)) = isize (Counter.current (subscriptions g)).
Proof.
  intros st. assert (Hc : counted (Counter.current (subscriptions g))
    (Counter.current (subscriptions_shared g)) st).
  { unfold st. induction ops as [|o ops IH] using rev_ind.
    - split; f_equal; unfold len, shared_len; simpl; rewrite ?map_filter_empty, map_size_empty; lia.
    - rewrite foldl_app. by apply step_counted. }
  destruct Hc as [Ha Hs]. split_and!; [done|done|].
  destruct (clear_counted _ _ st (conj Ha Hs)) as [Ha' _]. rewrite Ha'. f_equal.
  destruct st as [subs ?]. unfold clear, len. simpl. rewrite map_size_empty. lia.
Qed.

Lemma extend_lookup subs st tf :
  NoDup subs.*1 ->
  (extend st subs).1 !! tf =
    match (list_to_map subs : SubMap) !! tf with Some o => Some o | None => st.1 !! tf end.
Proof.
  revert st. unfold extend. induction subs as [|[k o] subs IH]; intros st Hnd; [done|].
  apply NoDup_cons in Hnd as [Hn Hnd]. cbn [foldl]. rewrite list_to_map_cons, IH by done.
  destruct st as [m g]. cbn [add fst snd]. destruct (decide (tf = k)) as [->|Hne].
  - rewrite lookup_insert_eq. rewrite (not_elem_of_list_to_map_1 _ _ Hn). by rewrite lookup_insert_eq.
  - by rewrite !lookup_insert_ne.
Qed.

(** A session's subscriptions survive being handed over: drained from
    one session and added to an empty one they are the same. *)
Theorem drain_extend_roundtrip (st : State) (g : Gauges) :
  (extend (∅, g) (drain st).1).1 = st.1 /\ (drain st).2.1 = ∅.
Proof.
  destruct (drain_spec (Counter.current (subscriptions st.2) - len st.1)
    (Counter.current (subscriptions_shared st.2) - shared_len st.1) st) as (_ & He & Hm).
  { split; f_equal; lia. }
  split; [|done]. rewrite Hm. apply map_eq. intros tf. rewrite extend_lookup by apply NoDup_fst_map_to_list.
  rewrite list_to_map_to_list. cbn [fst]. rewrite lookup_empty. by destruct (st.1 !! tf).
Qed.
End SessionSubs.
