(* ===== verification/Shared.v ===== *)
(** * The shared state: [shared.rs]

    [DefaultShared]: the sessions of the node by client, with the sender of
    their mailbox, beside the router; the operations on an entry
    ([LockEntry]) and the forwarding of messages to the mailboxes. *)

From stdpp Require Import prelude list strings gmap.
From Stdlib Require Import ZArith Lia.
From S2P Require Import Prelude CodecTypes CodecV5Types Topic Trie BrokerTypes Subscription Router Inflight Connection Session SessionOutbound SessionSubs RetainStorage.

Local Open Scope Z_scope.

(** [EntryItem]: the session and the sender of its mailbox. Of the session
    the shared state uses the identity, the subscriptions and whether it is
    connected. *)
Record Peer : Type := mkPeer {
  peer_id : Id;
  peer_subs : gmap string SubscriptionOptions;
  peer_connected : bool;
  tx_closed : bool;
  mailbox : list Message;
}.

Definition with_subs (p : Peer) (subs : gmap string SubscriptionOptions) : Peer :=
  mkPeer (peer_id p) subs (peer_connected p) (tx_closed p) (mailbox p).
Definition with_mail (p : Peer) (m : Message) : Peer :=
  mkPeer (peer_id p) (peer_subs p) (peer_connected p) (tx_closed p) (mailbox p ++ [m]).

(** A client, and the shared subscription it was chosen for. *)
Definition Recipient : Type := bytes * option (string * string).

Inductive OfflineSession : Type :=
| NotExist
| Exist (o : option OfflineInfo).

(** How waiting for the answer of a kicked session ends. *)
Inductive KickWait : Type := WaitReplied | WaitDropped | WaitTimeout.

Module Shared.
Section shared.
Context {S : Type} `{!SharedSubscription S}.

Record t : Type := mk {
  this_node : Z;
  peers : gmap bytes Peer;
  router : Router.t;
  selection : S;
  gauges : SessionSubs.Gauges;
  (** The calls of [message_mgr.mark_forwarded]. *)
  marked : list (Z * list Recipient);
}.

Definition set_peers (b : t) (ps : gmap bytes Peer) : t :=
  mk (this_node b) ps (router b) (selection b) (gauges b) (marked b).
Definition set_router (b : t) (r : Router.t) : t :=
  mk (this_node b) (peers b) r (selection b) (gauges b) (marked b).
Definition set_gauges (b : t) (g : SessionSubs.Gauges) : t :=
  mk (this_node b) (peers b) (router b) (selection b) g (marked b).
Definition set_selection (b : t) (s : S) : t :=
  mk (this_node b) (peers b) (router b) s (gauges b) (marked b).
Definition mark (b : t) (msg_id : option Z) (rs : list Recipient) : t :=
  match msg_id, rs with
  | Some msg_id, _ :: _ => mk (this_node b) (peers b) (router b) (selection b) (gauges b) (marked b ++ [(msg_id, rs)])
  | _, _ => b
  end.

(** ** Entries *)

Definition exist (b : t) (client : bytes) : bool := bool_decide (is_Some (peers b !! client)).

Definition id_same (b : t) (id : Id) : option bool :=
  (fun p => Id_eq (peer_id p) id) <$> peers b !! client_id id.

Definition is_connected (b : t) (client : bytes) : bool :=
  match peers b !! client with Some p => peer_connected p | None => false end.

Definition tx (b : t) (client : bytes) : option (bool * Id) :=
  (fun p => (tx_closed p, peer_id p)) <$> peers b !! client.

Definition set (b : t) (id : Id) (p : Peer) : t := set_peers b (<[client_id id := p]> (peers b)).

(** [tx.unbounded_send]: false when the receiver is gone. *)
Definition unbounded_send (b : t) (client : bytes) (m : Message) : bool * t :=
  match peers b !! client with
  | Some p =>
      if tx_closed p then (false, b) else (true, set_peers b (<[client := with_mail p m]> (peers b)))
  | None => (false, b)
  end.

Definition session_gone : Error := Other (text "session is not exist").

Definition topic_error (texts : TopicError -> bytes) (e : TopicError) : Error := Other (texts e).

Context (topic_error_text : TopicError -> bytes).

(** The session's own subscriptions. *)
Definition subscriptions_add (b : t) (client : bytes) (tf : string) (opts : SubscriptionOptions)
    : option SubscriptionOptions * t :=
  match peers b !! client with
  | Some p =>
      let '(prev, (subs, g)) := SessionSubs.add (peer_subs p, gauges b) tf opts in
      (prev, set_gauges (set_peers b (<[client := with_subs p subs]> (peers b))) g)
  | None => (None, b)
  end.

Definition subscriptions_remove (b : t) (client : bytes) (tf : string) : bool * t :=
  match peers b !! client with
  | Some p =>
      let '(removed, (subs, g)) := SessionSubs.remove (peer_subs p, gauges b) tf in
      (bool_decide (is_Some removed), set_gauges (set_peers b (<[client := with_subs p subs]> (peers b))) g)
  | None => (false, b)
  end.

Definition subscribe (b : t) (id : Id) (sub : Subscribe) : outcome Error SubscribeReturn * t :=
  match peers b !! client_id id with
  | None => (Err session_gone, b)
  | Some p =>
      if node_id (peer_id p) =? this_node b then
        match Router.add (router b) (sub_filter sub) id (sub_opts sub) with
        | (Ok _, r) =>
            let '(prev, b) := subscriptions_add (set_router b r) (client_id id) (sub_filter sub) (sub_opts sub) in
            (Ok (SubscribeReturn_new_success (opts_qos (sub_opts sub)) prev), b)
        | (Err e, r) => (Err (topic_error topic_error_text e), set_router b r)
        | (Panic, r) => (Panic, set_router b r)
        | (Diverged, r) => (Diverged, set_router b r)
        end
      else (Panic, b)
  end.

Definition unsubscribe (b : t) (id : Id) (unsub : Unsubscribe) : outcome Error bool * t :=
  match peers b !! client_id id with
  | None => (Err session_gone, b)
  | Some _ =>
      let b := set_router b (Router.remove (router b) (unsub_filter unsub) id).2 in
      let '(ok, b) := subscriptions_remove b (client_id id) (unsub_filter unsub) in
      (Ok ok, b)
  end.

(** [_unsubscribe] of a peer that was just taken out, for each filter. *)
Definition clear_routes (r : Router.t) (p : Peer) : Router.t :=
  foldl (fun r tf => (Router.remove r tf (peer_id p)).2) r (SessionSubs.to_topic_filters (peer_subs p)).

Definition remove_peer (b : t) (client : bytes) (p : Peer) (clear_subscriptions : bool) : t :=
  let b := set_peers b (delete client (peers b)) in
  if clear_subscriptions then set_router b (clear_routes (router b) p) else b.

Definition remove_entry (b : t) (id : Id) (clear_subscriptions : bool) : option Peer * t :=
  match peers b !! client_id id with
  | Some p => (Some p, remove_peer b (client_id id) p clear_subscriptions)
  | None => (None, b)
  end.

Definition remove_entry_with (b : t) (id : Id) (clear_subscriptions : bool) (with_id : Id) : option Peer * t :=
  match peers b !! client_id id with
  | Some p =>
      if Id_eq (peer_id p) with_id then (Some p, remove_peer b (client_id id) p clear_subscriptions)
      else (None, b)
  | None => (None, b)
  end.

Definition remove (b : t) (id : Id) : option Peer * t := remove_entry b id true.
Definition remove_with (b : t) (id with_id : Id) : option Peer * t := remove_entry_with b id true with_id.

(** [kick]: [wait] is how the wait for the kicked session ended, [offline]
    its [to_offline_info]. *)
Definition kick (b : t) (id : Id) (wait : KickWait) (offline : Peer -> option OfflineInfo)
    (clean_start clear_subscriptions is_admin : bool) : outcome Error OfflineSession * t :=
  let '(dropped, b) :=
    match tx b (client_id id) with
    | Some (false, _) =>
        let '(sent, b) := unbounded_send b (client_id id) (MKick false id clean_start is_admin) in
        (sent && match wait with WaitDropped => true | _ => false end, b)
    | _ => (false, b)
    end in
  if dropped then (Err (Other (text "recv kick result is RecvError(())")), b)
  else
    match remove_entry b id clear_subscriptions with
    | (Some p, b) => (Ok (Exist (if clean_start then None else offline p)), b)
    | (None, b) => (Ok NotExist, b)
    end.

(** [Entry::publish]. *)
Definition publish (b : t) (id : Id) (from : From) (p : BPublish)
    : outcome (From * BPublish * Reason) unit * t :=
  match tx b (client_id id) with
  | None => (Err (from, p, RError (text "Tx is None")), b)
  | Some _ =>
      match unbounded_send b (client_id id) (MForward from p) with
      | (true, b) => (Ok tt, b)
      | (false, b) => (Err (from, p, RError (text "Tx is closed")), b)
      end
  end.

(** ** Forwarding *)

Definition Failure : Type := Id * From * BPublish * Reason.

Definition set_subscription_ids (ids : option (list Z)) (p : option PublishProperties) : option PublishProperties :=
  match ids, p with
  | Some ids, Some q =>
      Some (mkPublishProperties (topic_alias q) (correlation_data q) (CodecTypes.message_expiry_interval q)
              (content_type q) (user_properties q) (is_utf8_payload q) (response_topic q) ids)
  | _, _ => p
  end.

(** The copy of the message for one subscription. *)
Definition copy_for (publish : BPublish) (opts : SubscriptionOptions) (sub_ids : option (list Z)) : BPublish :=
  let i := BPublish.inner publish in
  let keep := match retain_as_published opts with Some true => retain i | _ => false end in
  BPublish.mk
    (mkPublish false keep (QoS_less_value (qos i) (opts_qos opts)) (topic i) None (payload i)
       (set_subscription_ids sub_ids (properties i)))
    (BPublish.target_clientid publish) (BPublish.delay_interval publish) (BPublish.create_time publish).

(** The recipients that a delivery to [client] stands for. *)
Definition recipients_of (topic_filter : string) (client : bytes) (group : option SharedGroupType)
    : list Recipient :=
  match group with
  | Some (g, _, cids) =>
      (fun g_cid => (g_cid, if bool_decide (g_cid = client) then Some (topic_filter, g) else None)) <$> cids
  | None => [(client, None)]
  end.

Definition forward_one (now : Z) (from : From) (publish : BPublish)
    (st : list Failure * list Recipient * t) (rel : SubRelation) : list Failure * list Recipient * t :=
  let '(errs, oks, b) := st in
  let '(topic_filter, client, opts, sub_ids, group) := rel in
  let p := copy_for publish opts sub_ids in
  match tx b client with
  | None =>
      (errs ++ [(Id_from now 0 client, from, p, RError (text "the client has disconnected"))], oks, b)
  | Some (_, to) =>
      match unbounded_send b client (MForward from p) with
      | (true, b) => (errs, oks ++ recipients_of topic_filter client group, b)
      | (false, b) => (errs ++ [(to, from, p, RError (text "Connection Tx is closed"))], oks, b)
      end
  end.

Definition forwards_to (now : Z) (b : t) (from : From) (publish : BPublish) (relations : list SubRelation)
    : outcome (list Recipient * list Failure) (list Recipient) * t :=
  let '(errs, oks, b) := foldl (forward_one now from publish) ([], [], b) relations in
  (match errs with [] => Ok oks | _ => Err (oks, errs) end, b).

Definition target_relation (publish : BPublish) (target : bytes) : list SubRelation :=
  [(str (topic (BPublish.inner publish)), target,
    set_qos default_options (qos (BPublish.inner publish)), None, None)].

Definition is_online (b : t) : Z -> bytes -> bool := fun _ client => is_connected b client.

(** [router.matches], an error of which is no relation. *)
Definition route (b : t) (from : From) (publish : BPublish) : outcome Empty_set (gmap Z (list SubRelation)) * t :=
  let '(r, s) := Router.matches (is_online b) (router b) (selection b) (id from)
                   (str (topic (BPublish.inner publish))) in
  (match r with Ok m => Ok m | Err _ => Ok ∅ | Panic => Panic | Diverged => Diverged end, set_selection b s).

Definition forwards (now : Z) (b : t) (msg_id : option Z) (from : From) (publish : BPublish)
    : outcome (Z * list Failure) Z * t :=
  match BPublish.target_clientid publish with
  | Some target =>
      match forwards_to now b from publish (target_relation publish target) with
      | (Ok recipients, b) =>
          if node_id (id from) =? this_node b then (Ok 1, mark b msg_id recipients) else (Ok 0, b)
      | (Err (_, errs), b) => (Err (0, errs), b)
      | (Panic, b) => (Panic, b)
      | (Diverged, b) => (Diverged, b)
      end
  | None =>
      match route b from publish with
      | (Ok relations_map, b) =>
          match relations_map !! this_node b with
          | Some relations =>
              match forwards_to now b from publish relations with
              | (Ok recipients, b) => (Ok (len recipients), mark b msg_id recipients)
              | (Err (recipients, errs), b) => (Err (len recipients, errs), mark b msg_id recipients)
              | (Panic, b) => (Panic, b)
              | (Diverged, b) => (Diverged, b)
              end
          | None => (Ok 0, b)
          end
      | (Err e, b) => match e with end
      | (Panic, b) => (Panic, b)
      | (Diverged, b) => (Diverged, b)
      end
  end.

(** [forwards_and_get_shareds]: the shared subscriptions are handed back. *)
Definition split_shared (m : gmap Z (list SubRelation)) : list SubRelation * gmap Z (list SubRelation) :=
  foldl (fun '(plain, shared) '(node, rels) =>
           foldl (fun '(plain, shared) rel =>
                    match (rel : SubRelation).2 with
                    | Some _ => (plain, <[node := default [] (shared !! node) ++ [rel]]> shared)
                    | None => (plain ++ [rel], shared)
                    end) (plain, shared) rels)
    ([], ∅) (map_to_list m).

Definition forwards_and_get_shareds (now : Z) (b : t) (from : From) (publish : BPublish)
    : outcome (list Recipient * list Failure) (gmap Z (list SubRelation) * list Recipient) * t :=
  match BPublish.target_clientid publish with
  | Some target =>
      match forwards_to now b from publish (target_relation publish target) with
      | (Ok recipients, b) => (Ok (∅, recipients), b)
      | (Err e, b) => (Err e, b)
      | (Panic, b) => (Panic, b)
      | (Diverged, b) => (Diverged, b)
      end
  | None =>
      match route b from publish with
      | (Ok relations_map, b) =>
          let '(plain, shared) := split_shared relations_map in
          match plain with
          | [] => (Ok (shared, []), b)
          | _ =>
              match forwards_to now b from publish plain with
              | (Ok recipients, b) => (Ok (shared, recipients), b)
              | (Err e, b) => (Err e, b)
              | (Panic, b) => (Panic, b)
              | (Diverged, b) => (Diverged, b)
              end
          end
      | (Err e, b) => match e with end
      | (Panic, b) => (Panic, b)
      | (Diverged, b) => (Diverged, b)
      end
  end.

Definition collect_subscription_client_ids (m : gmap Z (list SubRelation)) : list Recipient :=
  (map_to_list m).*2 ≫= fun subs => subs ≫= fun '(tf, cid, _, _, group) => recipients_of tf cid group.

Definition merge_subscription_client_ids (a b : list Recipient) : list Recipient := a ++ b.

Definition sessions_count (b : t) : Z := Z.of_nat (size (peers b)).
Definition subscriptions_count (b : t) : Z :=
  foldr (fun p n => SessionSubs.len (peer_subs p) + n) 0 (map_to_list (peers b)).*2.

(** [SessionStatus]: the id, and whether it is online. *)
Definition session_status (b : t) (client : bytes) : option (Id * bool) :=
  (fun p => (peer_id p, peer_connected p)) <$> peers b !! client.

(** ** Forwarding to the mailboxes *)

Definition reachable (b : t) (client : bytes) : bool :=
  match peers b !! client with Some p => negb (tx_closed p) | None => false end.

Definition rel_client (rel : SubRelation) : bytes := rel.1.1.1.2.
Definition rel_copy (publish : BPublish) (rel : SubRelation) : BPublish :=
  copy_for publish rel.1.1.2 rel.1.2.
Definition rel_recipients (rel : SubRelation) : list Recipient :=
  recipients_of rel.1.1.1.1 (rel_client rel) rel.2.

(** The messages of the relations of one client. *)
Definition mails_for (from : From) (publish : BPublish) (relations : list SubRelation) (client : bytes)
    : list Message :=
  (fun rel => MForward from (rel_copy publish rel)) <$> filter (fun rel => rel_client rel = client) relations.

Definition add_mails (ms : list Message) (p : Peer) : Peer :=
  mkPeer (peer_id p) (peer_subs p) (peer_connected p) (tx_closed p)
    (if tx_closed p then mailbox p else mailbox p ++ ms).

(** [b'] is [b] with these messages in the mailboxes that are open. *)
Definition delivered (from : From) (publish : BPublish) (relations : list SubRelation) (b b' : t) : Prop :=
  this_node b' = this_node b /\ router b' = router b /\ selection b' = selection b /\
  gauges b' = gauges b /\ marked b' = marked b /\
  forall client, peers b' !! client = add_mails (mails_for from publish relations client) <$> peers b !! client.

Lemma add_mails_nil p : add_mails [] p = p.
Proof. unfold add_mails. rewrite app_nil_r. by destruct p as [???[] ?]. Qed.
Lemma add_mails_closed ms p : tx_closed p = true -> add_mails ms p = p.
Proof. intros H. unfold add_mails. rewrite H. destruct p. by simpl in *; subst. Qed.
Lemma add_mails_app ms ms' p : add_mails ms' (add_mails ms p) = add_mails (ms ++ ms') p.
Proof. unfold add_mails. simpl. destruct (tx_closed p); [done|]. by rewrite app_assoc. Qed.

Lemma mails_for_one from publish rel client :
  mails_for from publish [rel] client =
    if decide (rel_client rel = client) then [MForward from (rel_copy publish rel)] else [].
Proof. unfold mails_for. rewrite filter_cons. by case_decide. Qed.

Lemma delivered_refl from publish b : delivered from publish [] b b.
Proof.
  split_and!; try done. intros client. destruct (peers b !! client) as [p|]; [|done].
  simpl. by rewrite add_mails_nil.
Qed.

Lemma delivered_trans from publish rels rels' b b' b'' :
  delivered from publish rels b b' -> delivered from publish rels' b' b'' ->
  delivered from publish (rels ++ rels') b b''.
Proof.
  intros (?&?&?&?&?&Hp) (?&?&?&?&?&Hp'). split_and!; try congruence. intros client. rewrite Hp', Hp.
  destruct (peers b !! client) as [p|]; [|done]. simpl. rewrite add_mails_app. unfold mails_for.
  by rewrite filter_app, fmap_app.
Qed.

Lemma delivered_reachable from publish relations b b' client :
  delivered from publish relations b b' -> reachable b' client = reachable b client.
Proof.
  intros (_&_&_&_&_&Hp). unfold reachable. rewrite Hp. by destruct (peers b !! client).
Qed.

Lemma forward_one_spec now from publish errs oks b rel :
  exists errs1 b', forward_one now from publish (errs, oks, b) rel =
      (errs ++ errs1, oks ++ (if reachable b (rel_client rel) then rel_recipients rel else []), b') /\
    (fun f : Failure => (f.1.1.2, f.1.2)) <$> errs1 =
      (if reachable b (rel_client rel) then [] else [(from, rel_copy publish rel)]) /\
    delivered from publish [rel] b b'.
Proof.
  destruct rel as [[[[tf client] opts] ids] group]. unfold forward_one, reachable, tx, unbounded_send, rel_client. simpl.
  destruct (peers b !! client) as [p|] eqn:Hp; simpl.
  - destruct (tx_closed p) eqn:Hc; simpl.
    + eexists [_], b. rewrite app_nil_r. split_and!; [done|done|].
      split_and!; try done. intros c. rewrite mails_for_one. cbn [rel_client fst snd]. case_decide as Hcl.
      * subst c. rewrite Hp. simpl. by rewrite add_mails_closed.
      * destruct (peers b !! c); [|done]. simpl. by rewrite add_mails_nil.
    + eexists [], _. rewrite app_nil_r. split_and!; [done|done|].
      split_and!; try done. intros c. rewrite mails_for_one. cbn [rel_client fst snd set_peers peers]. case_decide as Hcl.
      * subst c. rewrite lookup_insert_eq, Hp. simpl. unfold add_mails, with_mail. by rewrite Hc.
      * rewrite lookup_insert_ne by done. destruct (peers b !! c); [|done]. simpl. by rewrite add_mails_nil.
  - eexists [_], b. rewrite app_nil_r. split_and!; [done|done|].
    split_and!; try done. intros c. rewrite mails_for_one. cbn [rel_client fst snd]. case_decide as Hcl.
    * subst c. by rewrite Hp.
    * destruct (peers b !! c); [|done]. simpl. by rewrite add_mails_nil.
Qed.

Lemma forward_all_spec now from publish rels errs oks b :
  exists errs1 b', foldl (forward_one now from publish) (errs, oks, b) rels =
      (errs ++ errs1, oks ++ (filter (fun rel => reachable b (rel_client rel) = true) rels ≫= rel_recipients), b') /\
    (fun f : Failure => (f.1.1.2, f.1.2)) <$> errs1 =
      (fun rel => (from, rel_copy publish rel)) <$> filter (fun rel => reachable b (rel_client rel) = false) rels /\
    delivered from publish rels b b'.
Proof.
  revert errs oks b. induction rels as [|rel rels IH]; intros errs oks b.
  { exists [], b. simpl. rewrite !app_nil_r. split_and!; [done|done|apply delivered_refl]. }
  cbn [foldl]. destruct (forward_one_spec now from publish errs oks b rel) as (e1 & b1 & -> & He1 & Hd1).
  destruct (IH (errs ++ e1) (oks ++ (if reachable b (rel_client rel) then rel_recipients rel else [])) b1)
    as (e2 & b2 & -> & He2 & Hd2).
  exists (e1 ++ e2), b2. split_and!.
  - rewrite <- !app_assoc. do 2 f_equal. f_equal. rewrite filter_cons.
    rewrite (list_filter_iff (fun rel => reachable b1 (rel_client rel) = true) (fun rel => reachable b (rel_client rel) = true))
      by (intros ?; by rewrite (delivered_reachable _ _ _ _ _ _ Hd1)).
    destruct (reachable b (rel_client rel)); done.
  - rewrite fmap_app, He1, He2, filter_cons.
    rewrite (list_filter_iff (fun rel => reachable b1 (rel_client rel) = false) (fun rel => reachable b (rel_client rel) = false))
      by (intros ?; by rewrite (delivered_reachable _ _ _ _ _ _ Hd1)).
    destruct (reachable b (rel_client rel)); done.
  - by apply (delivered_trans from publish [rel] rels b b1 b2).
Qed.

(** Forwarding to a list of relations: the mailbox of every client gets,
    in order and behind what is there, one copy of the message for each of
    its relations, if it is open, and nothing else changes. A copy is not a
    duplicate, has no packet id, the lower of the two qualities of service,
    the retain flag only where the subscription asks for it, and the
    subscription's identifiers. The recipients are those of the relations
    whose client is reachable, with the members of their shared groups, and
    every other relation is reported as a failure with its copy. *)
Theorem forwards_to_correct (now : Z) (b : t) (from : From) (publish : BPublish) (relations : list SubRelation) :
  let oks := filter (fun rel => reachable b (rel_client rel) = true) relations ≫= rel_recipients in
  let failed := filter (fun rel => reachable b (rel_client rel) = false) relations in
  exists errs b', delivered from publish relations b b' /\
    (fun f : Failure => (f.1.1.2, f.1.2)) <$> errs = (fun rel => (from, rel_copy publish rel)) <$> failed /\
    forwards_to now b from publish relations =
      (if bool_decide (failed = []) then Ok oks else Err (oks, errs), b') /\
    forall rel, let p := BPublish.inner (rel_copy publish rel) in
      let i := BPublish.inner publish in let opts := rel.1.1.2 in
      dup p = false /\ packet_id p = None /\ topic p = topic i /\ payload p = payload i /\
      QoS_value (qos p) = Z.min (QoS_value (qos i)) (QoS_value (opts_qos opts)) /\
      (retain p = true <-> retain i = true /\ retain_as_published opts = Some true) /\
      (forall q ids, properties i = Some q -> rel.1.2 = Some ids ->
         subscription_ids <$> properties p = Some ids).
Proof.
  intros oks failed. destruct (forward_all_spec now from publish relations [] [] b) as (errs & b' & Hf & He & Hd).
  exists errs, b'. split_and!; [done|done| |].
  - unfold forwards_to. rewrite Hf. cbn [app]. fold oks failed in He |- *.
    case_bool_decide as Hfl; destruct errs; [done|by rewrite Hfl in He|by destruct failed|done].
  - intros rel p i opts. unfold p, rel_copy, copy_for. fold i opts. cbn [BPublish.inner dup packet_id topic payload qos retain properties].
    split_and!; try done.
    + by destruct (qos i), (opts_qos opts).
    + destruct (retain_as_published opts) as [[]|]; naive_solver.
    + intros q ids -> ->. done.
Qed.
End shared.
End Shared.
