(* ===== verification/SharedRouting.v ===== *)
(** * From a published message to the mailboxes

    The router and the shared state together: who finds a published message
    in the mailbox. *)

From stdpp Require Import prelude list strings gmap.
From Stdlib Require Import ZArith Lia.
From S2P Require Import Prelude CodecTypes CodecV5Types Topic Trie BrokerTypes Subscription Router RouterMatch Inflight Connection Session SessionSubs Shared.

Local Open Scope Z_scope.

(** ** Relations and the subscriptions they come from *)

(** Every relation is one of the subscriptions found. *)
Lemma relation_found fs rel :
  rel ∈ Collector.to_relations (foldl Collector.add_found Collector.empty fs) ->
  (rel.1.1.1.1, Shared.rel_client rel, rel.1.1.2, rel.2) ∈ fs.
Proof.
  unfold Collector.to_relations. destruct (Collector.add_all fs) as [H3 H5]. rewrite H3.
  intros [Hin|Hin]%elem_of_app.
  - apply list_elem_of_fmap in Hin as ([[[tf c] o] g] & -> & [_ Hin]%list_elem_of_filter). done.
  - apply list_elem_of_fmap in Hin as ([c [[[tf o] ids] g]] & -> & Hin%elem_of_map_to_list).
    rewrite H5 in Hin. unfold Collector.merged in Hin.
    destruct (Collector.v5_of c fs) as [|[[[tf' c'] o'] g'] l] eqn:Hv; simplify_eq.
    assert (Hm : (tf, c', o, g) ∈ Collector.v5_of c fs) by (rewrite Hv; apply list_elem_of_here).
    apply list_elem_of_filter in Hm as [[_ Hc] Hin]. unfold Collector.found_client in Hc. simpl in Hc. by subst c'.
Qed.

(** Every subscription found gives its client a relation, a v3 one its own. *)
Lemma found_relation fs tf c o g :
  (tf, c, o, g) ∈ fs ->
  let rels := Collector.to_relations (foldl Collector.add_found Collector.empty fs) in
  (is_v3 o = true -> (tf, c, o, None, g) ∈ rels) /\ exists rel, rel ∈ rels /\ Shared.rel_client rel = c.
Proof.
  intros Hin. unfold Collector.to_relations. destruct (Collector.add_all fs) as [H3 H5]. rewrite H3.
  assert (H3in : is_v3 o = true -> (tf, c, o, None, g) ∈
    Collector.v3_relation <$> filter (fun f => is_v3 (Collector.found_opts f) = true) fs).
  { intros Ho. apply list_elem_of_fmap. exists (tf, c, o, g). split; [done|]. by apply list_elem_of_filter. }
  split; [intros Ho; apply elem_of_app; left; auto|].
  destruct (is_v3 o) eqn:Ho.
  - exists (tf, c, o, None, g). split; [apply elem_of_app; left; auto|done].
  - assert (Hv : (tf, c, o, g) ∈ Collector.v5_of c fs) by (by apply list_elem_of_filter).
    specialize (H5 c). destruct (Collector.v5_of c fs) as [|[[[tf' c'] o'] g'] l]; [by apply not_elem_of_nil in Hv|].
    simpl in H5. eexists. split; [apply elem_of_app; right; apply list_elem_of_fmap|].
    + exists (c, (tf', o', Collector.some_list (Collector.identifiers ((tf', c', o', g') :: l)), g')).
      split; [done|]. by apply elem_of_map_to_list.
    + done.
Qed.

(** The members of [on_node]. *)
Lemma elem_on_node node ps f : f ∈ on_node node ps <-> (node, f) ∈ ps.
Proof.
  unfold on_node. rewrite list_elem_of_fmap. split.
  - intros ([n g] & -> & [Hn Hin]%list_elem_of_filter). simpl in *. by subst.
  - intros Hin. exists (node, f). split; [done|]. by apply list_elem_of_filter.
Qed.

Section routing.
Context {S : Type} `{SharedSubscriptionOk S}.

(** The relations for this node: none, or those its collector made. *)
Lemma node_relations ps m node :
  RouterMatch.relations_of ps m ->
  default [] (m !! node) = Collector.to_relations (foldl Collector.add_found Collector.empty (on_node node ps)).
Proof. intros Hr. rewrite (Hr node). by destruct (on_node node ps). Qed.

Lemma forwards_to_returns now (b : Shared.t (S := S)) from publish rels :
  exists r b', Shared.forwards_to now b from publish rels = (r, b') /\
    match r with Ok _ | Err _ => True | _ => False end /\ Shared.delivered from publish rels b b'.
Proof.
  unfold Shared.forwards_to. destruct (Shared.forward_all_spec now from publish rels [] [] b)
    as (errs & b' & -> & _ & Hd).
  eexists _, b'. split; [done|]. split; [by destruct errs|done].
Qed.

(** C5. A published message, from the router to the mailboxes. Where the
    router is consistent and the topic is a topic name, forwarding returns,
    and what it adds to the mailboxes is given by a list of relations, each
    a copy of the message for one subscription: every one of them is a
    subscription of a client of this node whose filter matches the topic by
    the rules of MQTT and that No Local does not exclude; every such MQTT 3
    subscription outside a shared group has one of its own, every MQTT 5
    client with such a subscription has one; and of every shared group with
    such subscriptions a member is chosen, which has one if it is a client
    of this node. *)
Theorem publish_reaches_subscribers (now : Z) (b : Shared.t (S := S)) (from : From) (publish : BPublish)
    (topic : Topic) :
  let r := Shared.router b in
  let name := str (CodecTypes.topic (BPublish.inner publish)) in
  let node := Shared.this_node b in
  Router.inv r -> BPublish.target_clientid publish = None ->
  contains_wildcard name = false -> Topic_from_str name = Ok topic ->
  exists rels result b', Shared.forwards now b None from publish = (result, b') /\ returns result /\
    (forall client, Shared.peers b' !! client =
       Shared.add_mails (Shared.mails_for from publish rels client) <$> Shared.peers b !! client) /\
    (forall rel, rel ∈ rels ->
       eligible r (id from) topic rel.1.1.1.1 (Shared.rel_client rel) node rel.1.1.2) /\
    (forall tf client opts, eligible r (id from) topic tf client node opts -> shared_group opts = None ->
       (is_v3 opts = true -> (tf, client, opts, None, None) ∈ rels) /\
       exists rel, rel ∈ rels /\ Shared.rel_client rel = client) /\
    (forall tf client n opts g, eligible r (id from) topic tf client n opts -> shared_group opts = Some g ->
       exists member n' opts', eligible r (id from) topic tf member n' opts' /\ shared_group opts' = Some g /\
         (n' = node -> exists rel, rel ∈ rels /\ Shared.rel_client rel = member)).
Proof.
  intros r name node Hi Htarget Hw Hp. pose proof (from_str_wildcard_free _ _ Hw Hp) as Hwf.
  destruct (matches_placed (Shared.is_online b) r (Shared.selection b) (id from) name topic Hp)
    as (pss & m & s' & Hm & Hr & Hpss).
  set (rels := default [] (m !! node)). exists rels.
  pose proof (node_relations _ _ node Hr) as Hrels. fold rels in Hrels.
  assert (Hrun : exists result b', Shared.forwards now b None from publish = (result, b') /\ returns result /\
    Shared.delivered from publish rels (Shared.set_selection b s') b').
  { unfold Shared.forwards, Shared.route. rewrite Htarget. fold r name. rewrite Hm.
    change (Shared.this_node (Shared.set_selection b s')) with node. unfold rels.
    destruct (m !! node) as [l|]; cbn [default from_option].
    - destruct (forwards_to_returns now (Shared.set_selection b s') from publish l) as (res & b' & Hf & Hret & Hd).
      rewrite Hf.
      destruct res as [oks|[oks errs]| |]; try done; (eexists _, _; split; [done|]; split; [done|]; done).
    - eexists _, _. split; [done|]. split; [done|]. apply Shared.delivered_refl. }
  destruct Hrun as (result & b' & Hf & Hret & Hd). exists result, b'. split_and!; [done|done|apply Hd|..].
  - intros rel Hin. rewrite Hrels in Hin. apply relation_found, elem_on_node in Hin.
    destruct (rel.2) as [[[g online] cids]|].
    + by apply (placed_shared (Shared.is_online b) r (id from) topic pss) in Hin as (He & _).
    + by apply (placed_plain (Shared.is_online b) r (id from) topic pss) in Hin as (He & _).
  - intros tf client opts He Hg. rewrite Hrels. apply found_relation, elem_on_node.
    by apply (placed_plain (Shared.is_online b) r (id from) topic pss).
  - intros tf client n opts g He Hg.
    destruct (placed_shared_some (Shared.is_online b) r (id from) topic pss Hi Hwf Hpss tf client n opts g He Hg)
      as ([n' [[[tf' member] opts'] [[[g' online] cids]|]]] & Hin & [= -> ->]).
    pose proof Hin as Hin'. apply (placed_shared (Shared.is_online b) r (id from) topic pss) in Hin' as (He' & Hg' & _);
      [|done..].
    exists member, n', opts'. split_and!; [done|done|]. intros ->. rewrite Hrels.
    eapply found_relation, elem_on_node, Hin.
Qed.
End routing.
