(* ===== verification/SharedSync.v ===== *)
(** * The sessions and the router agree

    A client's subscriptions are kept twice, in its session and in the
    router. The operations of an entry keep the two the same, and a session
    that is removed leaves no route behind. *)

From stdpp Require Import prelude list strings gmap relations.
From Stdlib Require Import ZArith Lia.
From S2P Require Import Prelude CodecTypes CodecV5Types Topic Trie BrokerTypes Subscription Router Inflight Connection Session SessionSubs Shared.

Local Open Scope Z_scope.

Section sync.
Context {S : Type} `{!SharedSubscription S} (topic_error_text : TopicError -> bytes).
Abbreviation t := (Shared.t (S := S)).

(** What a session holds of its subscriptions. *)
Definition held (b : t) (tf : string) (client : bytes) : option (Id * SubscriptionOptions) :=
  p ← Shared.peers b !! client; (fun o => (peer_id p, o)) <$> peer_subs p !! tf.

Record in_sync (b : t) : Prop := {
  sync_router : Router.inv (Shared.router b);
  sync_keys : forall client p, Shared.peers b !! client = Some p ->
    client_id (peer_id p) = client /\ node_id (peer_id p) = Shared.this_node b;
  sync_routes : forall tf client, Router.subscribed (Shared.router b) tf client = held b tf client;
}.

(** A session without subscriptions. *)
Definition fresh_peer (id : Id) : Peer := mkPeer id ∅ true false [].

(** The steps: a client connects with a clean session (the old one kicked
    out and its routes cleared), the session that holds the entry subscribes
    and unsubscribes, entries are removed, messages are forwarded. *)
Inductive shared_step (b : t) : t -> Prop :=
| StepConnect id wait offline admin r b' :
    node_id id = Shared.this_node b ->
    Shared.kick b id wait offline true true admin = (Ok r, b') ->
    shared_step b (Shared.set b' id (fresh_peer id))
| StepSubscribe id sub :
    Shared.id_same b id = Some true ->
    shared_step b (Shared.subscribe topic_error_text b id sub).2
| StepUnsubscribe id unsub :
    Shared.id_same b id = Some true -> shared_step b (Shared.unsubscribe b id unsub).2
| StepRemove id : shared_step b (Shared.remove b id).2
| StepRemoveWith id with_id : shared_step b (Shared.remove_with b id with_id).2
| StepForward now from publish rels : shared_step b (Shared.forwards_to now b from publish rels).2.

Definition empty_shared (node : Z) (s : S) (g : SessionSubs.Gauges) : t :=
  Shared.mk node ∅ Router.new s g [].

(** ** Preservation *)

Lemma same_peer (b : t) id :
  in_sync b -> Shared.id_same b id = Some true ->
  exists p, Shared.peers b !! client_id id = Some p /\ peer_id p = id.
Proof.
  intros _ Hs. unfold Shared.id_same in Hs. destruct (Shared.peers b !! client_id id) as [p|] eqn:Hp; [|done].
  exists p. split; [done|]. injection Hs as Hs. by apply Id_eq_spec.
Qed.

(** Changes of the mailboxes alone. *)
Lemma sync_mails (b b' : t) :
  Shared.router b' = Shared.router b -> Shared.this_node b' = Shared.this_node b ->
  (forall client, exists ms, Shared.peers b' !! client = Shared.add_mails ms <$> Shared.peers b !! client) ->
  in_sync b -> in_sync b'.
Proof.
  intros Hr Hn Hp [H1 H2 H3]. split.
  - by rewrite Hr.
  - intros client p Hpe. destruct (Hp client) as [ms Hms]. rewrite Hms in Hpe.
    destruct (Shared.peers b !! client) as [q|] eqn:Hq; [|done]. injection Hpe as <-. rewrite Hn. by apply (H2 client q).
  - intros tf client. rewrite Hr, H3. unfold held. destruct (Hp client) as [ms ->].
    by destruct (Shared.peers b !! client).
Qed.

(** Subscribing and unsubscribing change one entry of both. *)
Lemma sync_update (b : t) r id p subs g tf (o : option SubscriptionOptions) :
  in_sync b -> Shared.peers b !! client_id id = Some p -> peer_id p = id -> Router.inv r ->
  (forall tf', subs !! tf' = if decide (tf' = tf) then o else peer_subs p !! tf') ->
  (forall tf' client, Router.subscribed r tf' client =
     if decide (tf' = tf /\ client = client_id id) then (fun o => (id, o)) <$> o
     else Router.subscribed (Shared.router b) tf' client) ->
  in_sync (Shared.set_gauges (Shared.set_peers (Shared.set_router b r)
    (<[client_id id := with_subs p subs]> (Shared.peers b))) g).
Proof.
  intros [H1 H2 H3] Hp Hid Hi Hsub Hr. split; [done|..]; simpl.
  - intros client q [[<- <-]|[Hne Hq]]%lookup_insert_Some; [exact (H2 _ _ Hp)|exact (H2 _ _ Hq)].
  - intros tf' client. rewrite Hr. unfold held. simpl. destruct (decide (client = client_id id)) as [->|Hne].
    + rewrite lookup_insert_eq. simpl. rewrite Hsub, Hid. destruct (decide (tf' = tf)) as [->|Htf].
      * by rewrite decide_True.
      * rewrite decide_False by tauto. rewrite H3. unfold held. rewrite Hp. simpl. by rewrite Hid.
    + rewrite lookup_insert_ne by done. rewrite decide_False by tauto. apply H3.
Qed.

Lemma sync_subscribe (b : t) id sub :
  in_sync b -> Shared.id_same b id = Some true -> in_sync (Shared.subscribe topic_error_text b id sub).2.
Proof.
  intros Hs Hsame. destruct (same_peer b id Hs Hsame) as (p & Hp & Hid). unfold Shared.subscribe. rewrite Hp.
  destruct (sync_keys b Hs _ _ Hp) as [_ ->]. rewrite Z.eqb_refl. unfold Router.add.
  destruct (Topic_from_str (sub_filter sub)) as [topic| | |] eqn:Ht; simpl; try by (destruct Hs; by split).
  destruct (Router.add_inv (Shared.router b) (sub_filter sub) topic id (sub_opts sub) (sync_router b Hs) Ht) as [Hi Hsub].
  unfold Shared.subscriptions_add. cbn [Shared.set_router Shared.peers]. rewrite Hp.
  cbn [SessionSubs.add snd]. apply sync_update with (tf := sub_filter sub) (o := Some (sub_opts sub)); try done.
  intros tf'. destruct (decide (tf' = sub_filter sub)) as [->|Hne]; [by rewrite lookup_insert_eq|by rewrite lookup_insert_ne].
Qed.

Lemma sync_unsubscribe (b : t) id unsub :
  in_sync b -> Shared.id_same b id = Some true -> in_sync (Shared.unsubscribe b id unsub).2.
Proof.
  intros Hs Hsame. destruct (same_peer b id Hs Hsame) as (p & Hp & Hid). unfold Shared.unsubscribe. rewrite Hp.
  destruct (Router.remove_spec (Shared.router b) (unsub_filter unsub) id (sync_router b Hs)) as (r & Hr & Hi & Hsub).
  rewrite Hr. cbn [snd]. unfold Shared.subscriptions_remove. cbn [Shared.set_router Shared.peers]. rewrite Hp.
  pose proof (sync_routes b Hs (unsub_filter unsub) (client_id id)) as Hroute. unfold held in Hroute.
  rewrite Hp in Hroute. cbn [mbind option_bind] in Hroute. rewrite Hid in Hroute.
  unfold SessionSubs.remove. destruct (peer_subs p !! unsub_filter unsub) as [o|] eqn:Ho; cbn [snd].
  - apply sync_update with (tf := unsub_filter unsub) (o := None); try done.
    + intros tf'. rewrite lookup_delete. apply decide_ext. split; congruence.
    + intros tf' client. rewrite Hsub, Hroute. simpl. rewrite bool_decide_true by done. apply decide_ext. tauto.
  - apply sync_update with (tf := unsub_filter unsub) (o := None); try done.
    + intros tf'. destruct (decide (tf' = unsub_filter unsub)) as [->|]; done.
    + intros tf' client. rewrite Hsub, Hroute. simpl.
      destruct (decide _) as [[-> ->]|]; [|done]. by rewrite Hroute.
Qed.

(** Clearing the routes of a session, filter by filter. *)
Lemma clear_routes_spec r (p : Peer) filters :
  Router.inv r ->
  let r' := foldl (fun r tf => (Router.remove r tf (peer_id p)).2) r filters in
  Router.inv r' /\ forall tf client, Router.subscribed r' tf client =
    match Router.subscribed r tf client with
    | Some (i, o) => if decide (tf ∈ filters /\ i = peer_id p /\ client = client_id (peer_id p)) then None else Some (i, o)
    | None => None
    end.
Proof.
  revert r. induction filters as [|f filters IH]; intros r Hi; cbn [foldl].
  - split; [done|]. intros tf client. destruct (Router.subscribed r tf client) as [[i o]|]; [|done].
    case_decide as Hd; [|done]. by destruct Hd as [?%not_elem_of_nil _].
  - destruct (Router.remove_spec r f (peer_id p) Hi) as (r1 & Hr & Hi1 & Hs1). rewrite Hr. cbn [snd].
    destruct (IH r1 Hi1) as [Hi2 Hs2]. split; [done|]. intros tf client. rewrite Hs2, Hs1.
    destruct (decide (tf = f /\ client = client_id (peer_id p))) as [[-> ->]|Hne].
    + destruct (Router.subscribed r f (client_id (peer_id p))) as [[i o]|]; cbn [option_map].
      * case_bool_decide as Hb; [rewrite decide_True by done|rewrite decide_False by naive_solver].
        -- rewrite decide_True; [done|]. split_and!; [apply list_elem_of_here|done|done].
        -- rewrite !decide_False by naive_solver. done.
      * by rewrite decide_False by naive_solver.
    + rewrite (decide_False (P := _ = true /\ _)) by naive_solver.
      destruct (Router.subscribed r tf client) as [[i o]|]; [|done]. apply decide_ext.
      rewrite elem_of_cons. naive_solver.
Qed.

Lemma sync_remove_peer (b : t) id p :
  in_sync b -> Shared.peers b !! client_id id = Some p ->
  in_sync (Shared.remove_peer b (client_id id) p true).
Proof.
  intros Hs Hp. destruct (sync_keys b Hs _ _ Hp) as [Hc _]. unfold Shared.remove_peer, Shared.clear_routes.
  destruct (clear_routes_spec (Shared.router b) p (SessionSubs.to_topic_filters (peer_subs p)) (sync_router b Hs))
    as [Hi Hr].
  split; cbn [Shared.set_router Shared.set_peers Shared.router Shared.peers Shared.this_node]; [done|..].
  - intros client q [_ Hq]%lookup_delete_Some. by apply (sync_keys b Hs).
  - intros tf client. rewrite Hr, (sync_routes b Hs). unfold held.
    cbn [Shared.set_router Shared.set_peers Shared.peers].
    destruct (decide (client = client_id id)) as [->|Hne].
    + rewrite Hp, lookup_delete_eq. simpl. destruct (peer_subs p !! tf) as [o|] eqn:Ho; [|done]. simpl.
      rewrite decide_True; [done|]. split_and!; [|done|done].
      apply list_elem_of_fmap. exists (tf, o). split; [done|]. by apply elem_of_map_to_list.
    + rewrite lookup_delete_ne by done. destruct (Shared.peers b !! client) as [q|]; [|done]. simpl.
      destruct (peer_subs q !! tf) as [o|]; [|done]. simpl. rewrite decide_False; [done|]. by intros (_&_&Hcl); congruence.
Qed.

Lemma sync_remove (b : t) id clear :
  clear = true -> in_sync b ->
  in_sync (Shared.remove_entry b id clear).2 /\
  Shared.peers (Shared.remove_entry b id clear).2 !! client_id id = None /\
  Shared.this_node (Shared.remove_entry b id clear).2 = Shared.this_node b.
Proof.
  intros -> Hs. unfold Shared.remove_entry. destruct (Shared.peers b !! client_id id) as [p|] eqn:Hp; [|done].
  split_and!; [by apply sync_remove_peer| |done]. apply lookup_delete_eq.
Qed.

Lemma sync_send (b : t) client m : in_sync b ->
  in_sync (Shared.unbounded_send b client m).2 /\
  Shared.this_node (Shared.unbounded_send b client m).2 = Shared.this_node b.
Proof.
  intros Hs. unfold Shared.unbounded_send. destruct (Shared.peers b !! client) as [p|] eqn:Hp; [|done].
  destruct (tx_closed p) eqn:Hc; [done|]. split; [|done]. apply (sync_mails b); try done.
  intros c. cbn [Shared.set_peers Shared.peers snd]. destruct (decide (c = client)) as [->|Hne].
  - exists [m]. rewrite lookup_insert_eq, Hp. simpl. unfold Shared.add_mails, with_mail. by rewrite Hc.
  - exists []. rewrite lookup_insert_ne by done. destruct (Shared.peers b !! c); [|done]. simpl.
    by rewrite Shared.add_mails_nil.
Qed.

Lemma sync_kick (b : t) id wait offline admin r b' :
  in_sync b -> Shared.kick b id wait offline true true admin = (Ok r, b') ->
  in_sync b' /\ Shared.peers b' !! client_id id = None /\ Shared.this_node b' = Shared.this_node b.
Proof.
  intros Hs. unfold Shared.kick.
  set (first := match Shared.tx b (client_id id) with Some (false, _) => _ | _ => _ end).
  assert (Hf : in_sync first.2 /\ Shared.this_node first.2 = Shared.this_node b).
  { unfold first. destruct (Shared.tx b (client_id id)) as [[[] i]|]; try done.
    pose proof (sync_send b (client_id id) (MKick false id true admin) Hs).
    by destruct (Shared.unbounded_send _ _ _). }
  destruct first as [dropped b1]. destruct Hf as [Hs1 Hn1]. cbn [snd] in *. destruct dropped; [done|].
  destruct (sync_remove b1 id true eq_refl Hs1) as (Hs2 & Hp2 & Hn2).
  destruct (Shared.remove_entry b1 id true) as [[p|] b2]; cbn [snd] in *; intros [= _ <-]; split_and!; congruence || done.
Qed.

Lemma sync_set (b : t) id :
  in_sync b -> Shared.peers b !! client_id id = None -> node_id id = Shared.this_node b ->
  in_sync (Shared.set b id (fresh_peer id)).
Proof.
  intros [H1 H2 H3] Hn Hnode. split; cbn [Shared.set Shared.set_peers Shared.router Shared.peers Shared.this_node]; [done|..].
  - intros client p [[<- <-]|[_ Hp]]%lookup_insert_Some; [done|by apply H2].
  - intros tf client. rewrite H3. unfold held. cbn [Shared.set Shared.set_peers Shared.peers].
    destruct (decide (client = client_id id)) as [->|Hne].
    + rewrite Hn, lookup_insert_eq. simpl. by rewrite lookup_empty.
    + by rewrite lookup_insert_ne.
Qed.

Lemma sync_step (b b' : t) : shared_step b b' -> in_sync b -> in_sync b'.
Proof.
  intros Hst Hs. destruct Hst as [id wait offline admin r b' Hnode Hk|id sub Hsame|id unsub Hsame|id|id with_id|now from publish rels].
  - destruct (sync_kick b id wait offline admin r b' Hs Hk) as (Hs' & Hp & Hn). apply sync_set; congruence || done.
  - by apply sync_subscribe.
  - by apply sync_unsubscribe.
  - by apply sync_remove.
  - unfold Shared.remove_with, Shared.remove_entry_with.
    destruct (Shared.peers b !! client_id id) as [p|] eqn:Hp; [|done].
    destruct (Id_eq (peer_id p) with_id); [by apply sync_remove_peer|done].
  - unfold Shared.forwards_to. destruct (Shared.forward_all_spec now from publish rels [] [] b)
      as (errs & b' & -> & _ & Hn & Hr & _ & _ & _ & Hp). cbn [snd]. apply (sync_mails b); try done. intros c. by eexists.
Qed.

Lemma reachable_in_sync (node : Z) (s : S) (g : SessionSubs.Gauges) (b : t) :
  rtc shared_step (empty_shared node s g) b -> in_sync b.
Proof.
  assert (H0 : in_sync (empty_shared node s g)).
  { split; [apply Router.router_inv_new|done|]. intros tf client. unfold held. simpl. by rewrite lookup_empty. }
  intros Hr. revert H0. induction Hr as [|x y z Hst _ IH]; [done|]. intros Hx. by apply IH, (sync_step x y).
Qed.

End sync.
