(* ===== verification/Node.v ===== *)
(** * A node: forwarding as a whole ([session.rs], [shared.rs])

    [SessionState::forwards] over the delayed messages, the retained
    messages and the shared state; the messages a new subscription is sent;
    and the node as the [Broker] its sessions talk to, which discharges what
    the theorems on sessions assume of one. *)

From stdpp Require Import prelude list strings gmap.
From Stdlib Require Import ZArith Lia.
From S2P Require Import Prelude CodecTypes CodecV5Types Topic Trie BrokerTypes Subscription Router RouterMatch Retain RetainStorage Inflight Connection Fitter Delayed Session SessionLogic SessionOutbound SessionSubscribe SessionSubs Shared SharedRouting.

Local Open Scope Z_scope.

(** The hooks of the node: a message without subscribers, a dropped one. *)
Inductive NodeEvent : Type :=
| Nonsubscribed (from : From)
| Dropped (to : option Id) (from : From) (p : BPublish) (r : Reason).

Section node.
Context {S H : Type} `{!SharedSubscription S} `{!BinaryHeap H}.
Context (topic_error_text : TopicError -> bytes).

Record Node : Type := mkNode {
  n_millis : Z;    (** the wall clock, [timestamp_millis] *)
  n_instant : Z;   (** the monotonic clock, in nanoseconds *)
  n_shared : Shared.t (S := S);
  n_retained : RetainStorage.t;
  n_retain_cfg : RamRetainer.PluginConfig;
  n_retain_enable : bool;
  n_delayed : DelayedSender.t (H := H);
  n_delayed_immediate : bool;
  n_storage_enable : bool;
  (** The calls of [message_mgr.store]. *)
  n_stored : list (Z * From * BPublish * Z);
  n_events : list NodeEvent;
  (** How the next packets fare on the network. *)
  n_network : list (option Error);
}.

Definition set_shared (n : Node) (b : Shared.t) : Node :=
  mkNode (n_millis n) (n_instant n) b (n_retained n) (n_retain_cfg n) (n_retain_enable n) (n_delayed n)
    (n_delayed_immediate n) (n_storage_enable n) (n_stored n) (n_events n) (n_network n).
Definition set_retained (n : Node) (r : RetainStorage.t) : Node :=
  mkNode (n_millis n) (n_instant n) (n_shared n) r (n_retain_cfg n) (n_retain_enable n) (n_delayed n)
    (n_delayed_immediate n) (n_storage_enable n) (n_stored n) (n_events n) (n_network n).
Definition set_delayed (n : Node) (d : DelayedSender.t) : Node :=
  mkNode (n_millis n) (n_instant n) (n_shared n) (n_retained n) (n_retain_cfg n) (n_retain_enable n) d
    (n_delayed_immediate n) (n_storage_enable n) (n_stored n) (n_events n) (n_network n).
Definition add_events (n : Node) (es : list NodeEvent) : Node :=
  mkNode (n_millis n) (n_instant n) (n_shared n) (n_retained n) (n_retain_cfg n) (n_retain_enable n) (n_delayed n)
    (n_delayed_immediate n) (n_storage_enable n) (n_stored n) (n_events n ++ es) (n_network n).
Definition add_stored (n : Node) (m : Z * From * BPublish * Z) : Node :=
  mkNode (n_millis n) (n_instant n) (n_shared n) (n_retained n) (n_retain_cfg n) (n_retain_enable n) (n_delayed n)
    (n_delayed_immediate n) (n_storage_enable n) (n_stored n ++ [m]) (n_events n) (n_network n).
Definition set_network (n : Node) (l : list (option Error)) : Node :=
  mkNode (n_millis n) (n_instant n) (n_shared n) (n_retained n) (n_retain_cfg n) (n_retain_enable n) (n_delayed n)
    (n_delayed_immediate n) (n_storage_enable n) (n_stored n) (n_events n) l.

(** ** Forwarding *)

Definition topic_of (p : BPublish) : string := str (topic (BPublish.inner p)).

(** The retained message; its broadcast has no effect on a single node. *)
Definition store_retained (n : Node) (msg_id : option Z) (from : From) (publish : BPublish) (expiry : option Z)
    : outcome Error unit * Node :=
  if n_retain_enable n && retain (BPublish.inner publish) then
    let '(r, s) := RamRetainer.set (n_retain_cfg n) (n_instant n) (n_retained n) (topic_of publish)
                     (mkRetain msg_id from publish) expiry in
    (map_err (Shared.topic_error topic_error_text) r, set_retained n s)
  else (Ok tt, n).

Definition store_message (n : Node) (msg_id expiry : option Z) (from : From) (publish : BPublish) : Node :=
  match msg_id, expiry with
  | Some msg_id, Some expiry => add_stored n (msg_id, from, publish, expiry)
  | _, _ => n
  end.

Definition dropped_events (errs : list Shared.Failure) : list NodeEvent :=
  (fun '(to, from, p, reason) => Dropped (Some to) from p reason) <$> errs.

Definition inner_forwards (n : Node) (from : From) (publish : BPublish) (storage : bool) (expiry : option Z)
    : outcome Error unit * Node :=
  let msg_id : option Z := None in
  match store_retained n msg_id from publish expiry with
  | (Ok _, n) =>
      let n := store_message n msg_id expiry from publish in
      let '(r, b) := Shared.forwards (n_millis n) (n_shared n) msg_id from publish in
      let n := set_shared n b in
      match r with
      | Ok count => (Ok tt, if count =? 0 then add_events n [Nonsubscribed from] else n)
      | Err (_, errs) => (Ok tt, add_events n (dropped_events errs))
      | Panic => (Panic, n)
      | Diverged => (Diverged, n)
      end
  | (o, n) => (o, n)
  end.

Definition node_forwards (n : Node) (from : From) (publish : BPublish) (storage : bool) (expiry : option Z)
    : outcome Error unit * Node :=
  match BPublish.delay_interval publish with
  | Some _ =>
      let '(r, d) := DelayedSender.delay_publish (n_millis n) (n_delayed n) from publish storage expiry in
      let n := set_delayed n d in
      match r with
      | Some (f, p) =>
          if n_delayed_immediate n then inner_forwards n f p storage expiry
          else (Ok tt, add_events n [Dropped None f p DelayedPublishRefused])
      | None => (Ok tt, n)
      end
  | None => inner_forwards n from publish storage expiry
  end.

(** ** What a new subscription is sent *)

(** [Entry::publish], with the hook on a failure; whether it went through. *)
Definition send_to (n : Node) (id : Id) (from : From) (p : BPublish) : bool * Node :=
  let '(r, b) := Shared.publish (n_shared n) id from p in
  let n := set_shared n b in
  match r with
  | Err (from, p, reason) => (false, add_events n [Dropped (Some id) from p reason])
  | _ => (true, n)
  end.

Definition retained_copy (now : Z) (topic : string) (r : Retain) (q : QoS) : BPublish :=
  let i := BPublish.inner (r_publish r) in
  BPublish.mk (mkPublish false true (QoS_less_value (qos i) q) (text topic) None (payload i) (properties i))
    (BPublish.target_clientid (r_publish r)) (BPublish.delay_interval (r_publish r)) (Some now).

Definition send_retain_messages (n : Node) (id : Id) (retains : list (string * Retain)) (q : QoS) : Node :=
  foldl (fun n '(topic, r) => (send_to n id (r_from r) (retained_copy (n_millis n) topic r q)).2) n retains.

Definition send_retain_enabled (handling : option RetainHandling) (prev_opts_is_none : bool) : bool :=
  match handling with
  | Some RetainHandlingM.AtSubscribe => true
  | Some RetainHandlingM.AtSubscribeNew => prev_opts_is_none
  | Some RetainHandlingM.NoAtSubscribe => false
  | None => true
  end.

(** [_send_retain_excludeds]; what it returns is not used by its caller. *)
Definition send_retained (n : Node) (id : Id) (topic_filter : string) (handling : option RetainHandling)
    (prev_opts_is_none : bool) (q : QoS) : Node :=
  if n_retain_enable n && send_retain_enabled handling prev_opts_is_none then
    match RamRetainer.get (n_instant n) (n_retained n) topic_filter with
    | Ok retains => send_retain_messages n id retains q
    | _ => n
    end
  else n.

Definition stored_copy (p : BPublish) (q : QoS) : BPublish :=
  let i := BPublish.inner p in
  BPublish.mk (mkPublish false false (QoS_less_value (qos i) q) (topic i) None (payload i) (properties i))
    (BPublish.target_clientid p) (BPublish.delay_interval p) (BPublish.create_time p).

(** [message_mark_forwarded]: of messages that this node took. *)
Definition mark_forwarded (n : Node) (from_node msg_id : Z) (rs : list Recipient) : Node :=
  if from_node =? Shared.this_node (n_shared n) then set_shared n (Shared.mark (n_shared n) (Some msg_id) rs) else n.

(** [_send_storaged_messages], with the messages to send; [excludeds] is
    what was sent as retained. *)
Definition send_stored_messages (n : Node) (id : Id) (msgs : list (Z * From * BPublish)) (q : QoS)
    (excludeds : option (list (Z * Z))) (topic_filter : string) (group : option string) : Node :=
  foldl (fun n '(msg_id, from, p) =>
    let from_node := node_id (BrokerTypes.id from) in
    if bool_decide ((from_node, msg_id) ∈ default [] excludeds) then n
    else
      let '(sent, n) := send_to n id from (stored_copy p q) in
      if sent then mark_forwarded n from_node msg_id [(client_id id, pair topic_filter <$> group)] else n) n msgs.

(** [_send_subscribe_messages]: [stored] is what the message store has for
    the filter. *)
Definition send_subscribe_messages (n : Node) (id : Id) (topic_filter : string) (group : option string)
    (handling : option RetainHandling) (prev_opts_is_none : bool) (q : QoS)
    (stored : list (Z * From * BPublish)) : Node :=
  let n := send_retained n id topic_filter handling prev_opts_is_none q in
  if n_storage_enable n then send_stored_messages n id stored q None topic_filter group else n.
End node.
Arguments Node : clear implicits.

(** ** [dedup_retains_by_topic] *)

Definition retain_ts (r : Retain) : Z := default 0 (BPublish.create_time (r_publish r)).

Definition dedup_step (retains : list (string * Retain)) (latest : gmap string nat) (e : nat * (string * Retain))
    : gmap string nat :=
  let '(idx, (topic, r)) := e in
  let keep := match latest !! topic with
              | Some i => match retains !! i with Some (_, old) => retain_ts old <? retain_ts r | None => true end
              | None => true
              end in
  if keep then <[topic := idx]> latest else latest.

(** The kept indices in order. *)
Definition dedup_retains_by_topic (retains : list (string * Retain)) : list (string * Retain) :=
  let latest := foldl (dedup_step retains) ∅ (imap (fun i e => (i, e)) retains) in
  omap (fun e => if bool_decide (latest !! e.2.1 = Some e.1) then Some e.2 else None) (imap (fun i e => (i, e)) retains).
