(* ===== verification/NodeForward.v ===== *)
(** * Forwarding accounts for every message ([session.rs], [shared.rs])

    What [SessionState::forwards] does with a message, over the retained
    messages, the delayed messages, the router and the mailboxes, and what
    a new subscription is sent. *)

From stdpp Require Import prelude list strings gmap.
From Stdlib Require Import ZArith Lia.
From S2P Require Import Prelude CodecTypes CodecV5Types Topic Trie BrokerTypes Subscription Router RouterMatch Retain RetainStorage Inflight Connection Fitter Delayed Session SessionSubs Shared SharedRouting Node.

Local Open Scope Z_scope.

(** ** The relations of a message *)

Section routes.
Context {S : Type} `{SharedSubscriptionOk S}.
Implicit Type b : Shared.t (S := S).

(** The relations that [forwards] goes through on this node. *)
Definition relations_for (b : Shared.t (S := S)) (from : From) (publish : BPublish) : list SubRelation :=
  match BPublish.target_clientid publish with
  | Some target => Shared.target_relation publish target
  | None =>
      match (Shared.route b from publish).1 with
      | Ok m => default [] (m !! Shared.this_node b)
      | _ => []
      end
  end.

Definition failed_of b (rels : list SubRelation) : list SubRelation :=
  filter (fun rel => Shared.reachable b (Shared.rel_client rel) = false) rels.
Definition recipients b (rels : list SubRelation) : list Recipient :=
  filter (fun rel => Shared.reachable b (Shared.rel_client rel) = true) rels ≫= Shared.rel_recipients.

Lemma route_returns b from publish : exists m s', Shared.route b from publish = (Ok m, Shared.set_selection b s').
Proof.
  unfold Shared.route. set (name := str _). pose proof (from_str_returns name) as Hret.
  destruct (Topic_from_str name) as [topic|e| |] eqn:Hp; try done.
  - destruct (matches_placed (Shared.is_online b) (Shared.router b) (Shared.selection b) (BrokerTypes.id from) name topic Hp)
      as (pss & m & s' & -> & _). by eexists _, _.
  - unfold Router.matches. rewrite Hp. by eexists _, _.
Qed.

(** The recipients counted for a message that went through. *)
Definition count_for b (from : From) (publish : BPublish) (rels : list SubRelation) : Z :=
  match BPublish.target_clientid publish with
  | Some _ => if node_id (BrokerTypes.id from) =? Shared.this_node b then 1 else 0
  | None => len (recipients b rels)
  end.

Lemma mark_none b rs : Shared.mark b None rs = b.
Proof. done. Qed.

Lemma forwards_to_run now b from publish rels :
  exists errs b', Shared.forwards_to now b from publish rels =
      (match failed_of b rels with [] => Ok (recipients b rels) | _ => Err (recipients b rels, errs) end, b') /\
    (fun f : Shared.Failure => (f.1.1.2, f.1.2)) <$> errs =
      (fun rel => (from, Shared.rel_copy publish rel)) <$> failed_of b rels /\
    Shared.delivered from publish rels b b'.
Proof.
  destruct (Shared.forward_all_spec now from publish rels [] [] b) as (errs & b' & Hf & He & Hd).
  exists errs, b'. split_and!; [|done|done]. unfold Shared.forwards_to. rewrite Hf. cbn [app].
  change (filter (fun rel => Shared.reachable b (Shared.rel_client rel) = false) rels) with (failed_of b rels) in He.
  by destruct errs, (failed_of b rels).
Qed.

(** [forwards] of the shared state, as its relations determine it. *)
Lemma forwards_run now b from publish :
  let rels := relations_for b from publish in
  exists errs s' b', Shared.forwards now b None from publish =
      (match failed_of b rels with
       | [] => Ok (count_for b from publish rels)
       | _ => Err (match BPublish.target_clientid publish with Some _ => 0 | None => len (recipients b rels) end, errs)
       end, b') /\
    (fun f : Shared.Failure => (f.1.1.2, f.1.2)) <$> errs =
      (fun rel => (from, Shared.rel_copy publish rel)) <$> failed_of b rels /\
    Shared.delivered from publish rels (Shared.set_selection b s') b'.
Proof.
  unfold Shared.forwards, relations_for, count_for. destruct (BPublish.target_clientid publish) as [target|].
  - destruct (forwards_to_run now b from publish (Shared.target_relation publish target)) as (errs & b' & -> & He & Hd).
    exists errs, (Shared.selection b), b'. split_and!; [|done|by destruct b].
    destruct (failed_of _ _); [|done]. replace (Shared.this_node b') with (Shared.this_node b) by (symmetry; apply Hd).
    by destruct (_ =? _).
  - destruct (route_returns b from publish) as (m & s' & ->). cbn [fst Shared.this_node Shared.set_selection].
    destruct (m !! Shared.this_node b) as [l|]; cbn [default from_option Datatypes.id].
    + destruct (forwards_to_run now (Shared.set_selection b s') from publish l) as (errs & b' & -> & He & Hd).
      exists errs, s', b'.
      unfold Datatypes.id. change (failed_of (Shared.set_selection b s') l) with (failed_of b l) in *.
      change (recipients (Shared.set_selection b s') l) with (recipients b l).
      split_and!; [by destruct (failed_of b l)|done|done].
    + exists [], s', (Shared.set_selection b s'). split_and!; [done|done|apply Shared.delivered_refl].
Qed.

(** A relation that the router gave stands for at least one recipient. *)
Lemma relation_recipients b from publish topic :
  let name := str (CodecTypes.topic (BPublish.inner publish)) in
  Router.inv (Shared.router b) -> contains_wildcard name = false -> Topic_from_str name = Ok topic ->
  forall rel, rel ∈ relations_for b from publish -> Shared.rel_recipients rel <> [].
Proof.
  intros name Hi Hw Hp rel. unfold relations_for.
  destruct (BPublish.target_clientid publish) as [target|].
  { unfold Shared.target_relation. rewrite list_elem_of_singleton. intros ->. done. }
  unfold Shared.route. fold name.
  destruct (matches_placed (Shared.is_online b) (Shared.router b) (Shared.selection b) (BrokerTypes.id from) name topic Hp)
    as (pss & m & s' & -> & Hr & Hpss). cbn [fst]. rewrite (node_relations _ _ _ Hr).
  intros Hin%relation_found%elem_on_node. unfold Shared.rel_recipients.
  destruct (rel.2) as [[[g online] cids]|]; [|done].
  apply (placed_shared (Shared.is_online b) (Shared.router b) (BrokerTypes.id from) topic pss Hi
           (from_str_wildcard_free _ _ Hw Hp) Hpss) in Hin as (He & Hg & Hc).
  assert (Hm : Shared.rel_client rel ∈ cids) by (apply Hc; eauto).
  unfold Shared.recipients_of. destruct cids; [by apply not_elem_of_nil in Hm|done].
Qed.

Lemma recipients_nil b rels :
  (forall rel, rel ∈ rels -> Shared.rel_recipients rel <> []) -> failed_of b rels = [] ->
  recipients b rels = [] -> rels = [].
Proof.
  destruct rels as [|rel rels]; [done|]. intros Hne. unfold failed_of, recipients. rewrite !filter_cons.
  destruct (Shared.reachable b (Shared.rel_client rel)); [|done]. simpl. intros _ [Hr _]%app_eq_nil.
  by destruct (Hne rel (list_elem_of_here _ _)).
Qed.
End routes.

(** ** What becomes of a message *)

(** What an event is about: the sender of a message without subscribers, or
    the sender and the copy that was dropped. *)
Definition event_of (e : NodeEvent) : From + From * BPublish :=
  match e with
  | Nonsubscribed from => inl from
  | Dropped _ from p _ => inr (from, p)
  end.

Section node_forwarding.
Context {S H : Type} `{SharedSubscriptionOk S} `{!BinaryHeap H}.
Context (texts : TopicError -> bytes).
Implicit Type n : Node S H.

(** A message is accounted for between two states of the node: its copies
    are in the open mailboxes, and each copy that could not be put there is
    a dropped one; only where it has no relation it is without subscribers. *)
Definition accounted n n' (from : From) (publish : BPublish) (rels : list SubRelation) : Prop :=
  let b := n_shared n in
  (forall client, Shared.peers (n_shared n') !! client =
     Shared.add_mails (Shared.mails_for from publish rels client) <$> Shared.peers b !! client) /\
  Shared.router (n_shared n') = Shared.router b /\
  exists es, n_events n' = n_events n ++ es /\
    event_of <$> es = match rels with
                      | [] => [inl from]
                      | _ => (fun rel => inr (from, Shared.rel_copy publish rel)) <$> failed_of b rels
                      end.

Lemma dropped_events_of (errs : list Shared.Failure) :
  event_of <$> dropped_events errs = inr <$> ((fun f : Shared.Failure => (f.1.1.2, f.1.2)) <$> errs).
Proof.
  unfold dropped_events. rewrite <- !list_fmap_compose. apply list_fmap_ext.
  by intros ? [[[to from] p] r] _.
Qed.

(** The events that go with the relations of a message. *)
Definition events_for n (from : From) (publish : BPublish) (rels : list SubRelation) : list (From + From * BPublish) :=
  match rels with
  | [] => [inl from]
  | _ => (fun rel => inr (from, Shared.rel_copy publish rel)) <$> failed_of (n_shared n) rels
  end.

Lemma accounted_intro n n' from publish rels s' es :
  Shared.delivered from publish rels (Shared.set_selection (n_shared n) s') (n_shared n') ->
  n_events n' = n_events n ++ es -> event_of <$> es = events_for n from publish rels ->
  accounted n n' from publish rels.
Proof. intros (_ & Hr & _ & _ & _ & Hp) He Hes. split_and!; [done|done|]. by exists es. Qed.

Lemma target_relations (b : Shared.t (S := S)) from publish target :
  BPublish.target_clientid publish = Some target -> relations_for b from publish <> [].
Proof. unfold relations_for. by intros ->. Qed.

(** Whether the count is zero, where all the mailboxes were open. *)
Lemma count_zero (b : Shared.t (S := S)) from publish topic :
  let name := str (CodecTypes.topic (BPublish.inner publish)) in
  let rels := relations_for b from publish in
  Router.inv (Shared.router b) -> contains_wildcard name = false -> Topic_from_str name = Ok topic ->
  BPublish.target_clientid publish = None \/ node_id (BrokerTypes.id from) = Shared.this_node b ->
  failed_of b rels = [] -> (count_for b from publish rels =? 0) = bool_decide (rels = []).
Proof.
  intros name rels Hi Hw Hp Ht Hf. pose proof (relation_recipients b from publish topic Hi Hw Hp) as Hne.
  unfold count_for. destruct (BPublish.target_clientid publish) as [target|] eqn:Htc.
  - destruct Ht as [?|Ht]; [done|]. rewrite Ht, Z.eqb_refl, bool_decide_eq_false_2; [done|].
    by eapply target_relations.
  - case_bool_decide as Hr.
    + unfold rels in *. by rewrite Hr.
    + apply Z.eqb_neq. intros Hl. apply Hr, (recipients_nil b); [done|done|].
      unfold len in Hl. by destruct (recipients b rels).
Qed.

(** Past the retained message. *)
Lemma inner_forwards_run n n1 from publish storage expiry topic :
  let name := str (CodecTypes.topic (BPublish.inner publish)) in
  store_retained texts n None from publish expiry = (Ok tt, n1) ->
  n_shared n1 = n_shared n -> n_events n1 = n_events n ->
  Router.inv (Shared.router (n_shared n)) ->
  contains_wildcard name = false -> Topic_from_str name = Ok topic ->
  BPublish.target_clientid publish = None \/ node_id (BrokerTypes.id from) = Shared.this_node (n_shared n) ->
  exists n', inner_forwards texts n from publish storage expiry = (Ok tt, n') /\
    accounted n n' from publish (relations_for (n_shared n) from publish) /\
    n_retained n' = n_retained n1 /\ n_stored n' = n_stored n1.
Proof.
  intros name Hs Hb He Hi Hw Hp Ht. unfold inner_forwards. rewrite Hs. cbn [store_message]. rewrite Hb.
  destruct (forwards_run (n_millis n1) (n_shared n) from publish) as (errs & s' & b' & -> & Herr & Hd).
  pose proof (count_zero _ from publish topic Hi Hw Hp Ht) as Hcount. cbv zeta in Hcount.
  set (rels := relations_for (n_shared n) from publish) in *.
  assert (Hev : failed_of (n_shared n) rels <> [] ->
    events_for n from publish rels = (fun rel => inr (from, Shared.rel_copy publish rel)) <$> failed_of (n_shared n) rels)
    by (by destruct rels).
  destruct (failed_of (n_shared n) rels) as [|rel failed] eqn:Hf.
  - rewrite Hcount by done. case_bool_decide as Hr; (eexists; split; [done|]; split; [|done]).
    + apply (accounted_intro _ _ _ _ _ s' [Nonsubscribed from]); [done| |by rewrite Hr].
      cbn [n_events add_events set_shared]. by rewrite He.
    + apply (accounted_intro _ _ _ _ _ s' []); [done| |].
      * cbn [n_events set_shared]. by rewrite He, app_nil_r.
      * unfold events_for. rewrite Hf. by destruct rels.
  - eexists. split; [done|]. split; [|done]. apply (accounted_intro _ _ _ _ _ s' (dropped_events errs)); [done| |].
    + cbn [n_events add_events set_shared]. by rewrite He.
    + rewrite dropped_events_of, Herr, <- list_fmap_compose, Hev by done. done.
Qed.

(** A message is never put into the message store. *)
Lemma inner_forwards_store n from publish storage expiry :
  n_stored (inner_forwards texts n from publish storage expiry).2 = n_stored n.
Proof.
  unfold inner_forwards.
  assert (Hs : n_stored (store_retained texts n None from publish expiry).2 = n_stored n).
  { unfold store_retained. destruct (_ && _); [|done]. by destruct (RamRetainer.set _ _ _ _ _ _). }
  destruct (store_retained texts n None from publish expiry) as [[| | |] n1]; try done. cbn [store_message snd] in *.
  destruct (Shared.forwards _ _ _ _ _) as [[c|[c errs]| |] b]; try done. by destruct (c =? 0).
Qed.

Lemma message_never_stored n from publish storage expiry :
  n_stored (node_forwards texts n from publish storage expiry).2 = n_stored n.
Proof.
  unfold node_forwards. destruct (BPublish.delay_interval publish); [|apply inner_forwards_store].
  destruct (DelayedSender.delay_publish _ _ _ _ _ _) as [[[f p]|] d]; [|done].
  change (n_delayed_immediate (set_delayed n d)) with (n_delayed_immediate n).
  destruct (n_delayed_immediate n); [by rewrite inner_forwards_store|done].
Qed.

Lemma store_retained_run n from publish expiry topic :
  let name := str (CodecTypes.topic (BPublish.inner publish)) in
  let kept := RetainTree.to_map (RetainStorage.messages (n_retained n)) in
  RetainStorage.inv (n_retained n) -> Z.of_nat (size kept) < 2 ^ 63 ->
  contains_wildcard name = false -> Topic_from_str name = Ok topic ->
  exists n1, store_retained texts n None from publish expiry = (Ok tt, n1) /\
    n_shared n1 = n_shared n /\ n_events n1 = n_events n /\ n_stored n1 = n_stored n /\
    RetainStorage.inv (n_retained n1) /\
    RetainTree.to_map (RetainStorage.messages (n_retained n1)) =
      if n_retain_enable n && retain (BPublish.inner publish)
      then RamRetainer.abs_set_limited (n_retain_cfg n) (n_instant n) kept topic (mkRetain None from publish) expiry
      else kept.
Proof.
  intros name kept Hi Hsz Hw Hp. unfold store_retained. destruct (_ && _).
  - destruct (RamRetainer.set_limited_spec (n_retain_cfg n) (n_instant n) (n_retained n) name topic
      (mkRetain None from publish) expiry Hi Hsz Hw Hp) as (s' & Hs & Hi' & Hm).
    unfold topic_of. fold name. rewrite Hs. eexists. split; [done|]. done.
  - by exists n.
Qed.

(** C2. A message that is forwarded is accounted for, over all the parts it
    goes through. On a consistent node and a topic name, [forwards] of a
    message without a delay returns; with the retain flag it becomes the
    retained message of its topic within the limits of the retainer; the
    open mailboxes hold its copies, one for each of its relations, and
    every copy that could not be put into one is reported as dropped,
    exactly once; it is reported as without subscribers exactly when there
    is no relation. *)
Theorem publish_accounted n from publish storage expiry topic :
  let name := str (CodecTypes.topic (BPublish.inner publish)) in
  let kept := RetainTree.to_map (RetainStorage.messages (n_retained n)) in
  Router.inv (Shared.router (n_shared n)) ->
  RetainStorage.inv (n_retained n) -> Z.of_nat (size kept) < 2 ^ 63 ->
  contains_wildcard name = false -> Topic_from_str name = Ok topic ->
  BPublish.delay_interval publish = None ->
  BPublish.target_clientid publish = None \/ node_id (BrokerTypes.id from) = Shared.this_node (n_shared n) ->
  exists n', node_forwards texts n from publish storage expiry = (Ok tt, n') /\
    accounted n n' from publish (relations_for (n_shared n) from publish) /\
    RetainStorage.inv (n_retained n') /\
    RetainTree.to_map (RetainStorage.messages (n_retained n')) =
      if n_retain_enable n && retain (BPublish.inner publish)
      then RamRetainer.abs_set_limited (n_retain_cfg n) (n_instant n) kept topic (mkRetain None from publish) expiry
      else kept.
Proof.
  intros name kept Hi Hri Hsz Hw Hp Hd Ht. unfold node_forwards. rewrite Hd.
  destruct (store_retained_run n from publish expiry topic Hri Hsz Hw Hp) as (n1 & Hs & Hb & He & _ & Hi1 & Hm1).
  destruct (inner_forwards_run n n1 from publish storage expiry topic Hs Hb He Hi Hw Hp Ht)
    as (n' & Hrun & Hacc & Hret & _).
  exists n'. rewrite Hret. by split_and!.
Qed.
End node_forwarding.

(** ** What a new subscription is sent *)

Section subscribing.
Context {S H : Type} `{!SharedSubscription S} `{!BinaryHeap H}.
Implicit Type n : Node S H.

Definition retained_mails (now : Z) (q : QoS) (items : list (string * Retain)) : list Message :=
  (fun '(topic, r) => MForward (r_from r) (retained_copy now topic r q)) <$> items.

Lemma send_to_open n id from p :
  Shared.reachable (n_shared n) (client_id id) = true ->
  exists n', send_to n id from p = (true, n') /\ n_millis n' = n_millis n /\ n_events n' = n_events n /\
    (forall c, Shared.peers (n_shared n') !! c =
       Shared.add_mails (if bool_decide (c = client_id id) then [MForward from p] else []) <$>
       Shared.peers (n_shared n) !! c).
Proof.
  unfold Shared.reachable, send_to, Shared.publish, Shared.tx, Shared.unbounded_send.
  destruct (Shared.peers (n_shared n) !! client_id id) as [peer|] eqn:Hp; [|done].
  destruct (tx_closed peer) eqn:Hc; [done|]. intros _. simpl. eexists. split_and!; [done..|]. intros c. simpl.
  case_bool_decide as Hcl.
  - subst c. rewrite lookup_insert_eq, Hp. simpl. unfold Shared.add_mails, with_mail. by rewrite Hc.
  - rewrite lookup_insert_ne by done. destruct (_ !! c); [|done]. simpl. by rewrite Shared.add_mails_nil.
Qed.

Lemma send_to_closed n id from p :
  Shared.reachable (n_shared n) (client_id id) = false ->
  exists n' e, send_to n id from p = (false, n') /\ n_millis n' = n_millis n /\ n_shared n' = n_shared n /\
    n_events n' = n_events n ++ [e] /\ event_of e = inr (from, p).
Proof.
  unfold Shared.reachable, send_to, Shared.publish, Shared.tx, Shared.unbounded_send.
  destruct (Shared.peers (n_shared n) !! client_id id) as [peer|] eqn:Hp; simpl.
  - destruct (tx_closed peer) eqn:Hc; [|done]. intros _. by eexists _, _.
  - intros _. by eexists _, _.
Qed.

Lemma send_retain_open n id items q :
  Shared.reachable (n_shared n) (client_id id) = true ->
  let n' := send_retain_messages n id items q in
  n_events n' = n_events n /\ forall c, Shared.peers (n_shared n') !! c =
    Shared.add_mails (if bool_decide (c = client_id id) then retained_mails (n_millis n) q items else []) <$>
    Shared.peers (n_shared n) !! c.
Proof.
  unfold send_retain_messages. revert n. induction items as [|[topic r] items IH]; intros n Hr; simpl.
  { split; [done|]. intros c. destruct (_ !! c); simpl; [|done]. case_bool_decide; by rewrite Shared.add_mails_nil. }
  destruct (send_to_open n id (r_from r) (retained_copy (n_millis n) topic r q) Hr) as (n1 & -> & Hm & He & Hp).
  destruct (IH n1) as [He' Hp'].
  { unfold Shared.reachable in *. simpl. rewrite Hp. by destruct (_ !! client_id id). }
  simpl in *. split; [congruence|]. intros c. rewrite Hp', Hp, Hm.
  destruct (Shared.peers (n_shared n) !! c); [|done]. simpl. rewrite Shared.add_mails_app. by case_bool_decide.
Qed.

Lemma send_retain_closed n id items q :
  Shared.reachable (n_shared n) (client_id id) = false ->
  let n' := send_retain_messages n id items q in
  n_shared n' = n_shared n /\ exists es, n_events n' = n_events n ++ es /\
    event_of <$> es = (fun '(topic, r) => inr (r_from r, retained_copy (n_millis n) topic r q)) <$> items.
Proof.
  unfold send_retain_messages. revert n. induction items as [|[topic r] items IH]; intros n Hr; simpl.
  { split; [done|]. exists []. by rewrite app_nil_r. }
  destruct (send_to_closed n id (r_from r) (retained_copy (n_millis n) topic r q) Hr) as (n1 & e & -> & Hm & Hs & He & Hev).
  destruct (IH n1) as [Hs' (es & He' & Hes)]; [by rewrite Hs|]. simpl in *. split; [congruence|].
  exists (e :: es). split; [by rewrite He', He, <- app_assoc|]. rewrite Hm in Hes. by apply (f_equal2 cons).
Qed.

(** C27. The retained messages of a new subscription. Where the retain
    handling of the subscription asks for them, the client is sent exactly
    the retained messages that have not expired and whose topic the filter
    matches by the rules of MQTT, each with the retain flag, the lower of
    the two qualities of service and its own topic, behind what is in its
    mailbox, and no one else is sent anything; if the mailbox is closed or
    the session is gone each of them is reported as dropped. Retain
    handling 2, and 1 for a subscription that was there before, send
    nothing. *)
Theorem subscribe_gets_retained n id filter fl handling first q :
  RetainStorage.inv (n_retained n) -> Topic_from_str filter = Ok fl ->
  let n' := send_retained n id filter handling first q in
  exists items,
    (forall name r, (name, r) ∈ items <->
       n_retain_enable n = true /\ handling <> Some RetainHandlingM.NoAtSubscribe /\
       (handling = Some RetainHandlingM.AtSubscribeNew -> first = true) /\
       exists topic tv, RetainStorage.live (n_instant n) (RetainTree.to_map (RetainStorage.messages (n_retained n))) !! topic
           = Some tv /\ mqtt_match_levels fl topic = true /\
         name = Topic_to_string topic /\ r = TimedValue.inner tv) /\
    (forall name r, let p := BPublish.inner (retained_copy (n_millis n) name r q) in
       retain p = true /\ dup p = false /\ packet_id p = None /\ CodecTypes.topic p = text name /\
       QoS_value (qos p) = Z.min (QoS_value (qos (BPublish.inner (r_publish r)))) (QoS_value q)) /\
    (if Shared.reachable (n_shared n) (client_id id) then
       n_events n' = n_events n /\ forall c, Shared.peers (n_shared n') !! c =
         Shared.add_mails (if bool_decide (c = client_id id) then retained_mails (n_millis n) q items else []) <$>
         Shared.peers (n_shared n) !! c
     else n_shared n' = n_shared n /\ exists es, n_events n' = n_events n ++ es /\
       event_of <$> es = (fun '(topic, r) => inr (r_from r, retained_copy (n_millis n) topic r q)) <$> items).
Proof.
  intros Hi Hp. cbv zeta.
  destruct (RetainStorage.get_message_spec (n_instant n) (n_retained n) filter fl Hi Hp) as (items & Hget & Hin).
  assert (Hq : forall a, QoS_value (QoS_less_value a q) = Z.min (QoS_value a) (QoS_value q))
    by (intros a; by destruct a, q).
  unfold send_retained. destruct (n_retain_enable n && send_retain_enabled handling first) eqn:Hen.
  - apply andb_true_iff in Hen as [Hen Hh]. exists items. split_and!.
    + intros name r. rewrite Hin. destruct handling as [[]|]; naive_solver.
    + intros name r. by split_and!; simpl.
    + unfold RamRetainer.get. rewrite Hget. destruct (Shared.reachable _ _) eqn:Hr.
      * by apply send_retain_open.
      * by apply send_retain_closed.
  - exists []. split_and!.
    + intros name r. split; [by intros ?%not_elem_of_nil|]. intros (Hen' & H1 & H2 & _). rewrite Hen' in Hen.
      destruct handling as [[]|]; naive_solver.
    + intros name r. by split_and!; simpl.
    + destruct (Shared.reachable _ _).
      * split; [done|]. intros c. destruct (_ !! c); [|done]. simpl. case_bool_decide; by rewrite Shared.add_mails_nil.
      * split; [done|]. exists []. by rewrite app_nil_r.
Qed.
End subscribing.

(** ** The retained messages of several nodes *)

Section dedup.
Context (retains : list (string * Retain)).

(** The message at [i] is the newest of its topic among the first [k], and
    the first of those. *)
Definition newest (k : nat) (t : string) (i : nat) : Prop :=
  exists r, retains !! i = Some (t, r) /\ (i < k)%nat /\
    forall j r', (j < k)%nat -> retains !! j = Some (t, r') ->
      retain_ts r' < retain_ts r \/ (retain_ts r' = retain_ts r /\ (i <= j)%nat).

Definition latest (k : nat) : gmap string nat :=
  foldl (dedup_step retains) ∅ (imap (fun i e => (i, e)) (take k retains)).

Lemma newest_unique k t i i' : newest k t i -> newest k t i' -> i = i'.
Proof.
  intros (r & Hi & Hk & Hb) (r' & Hi' & Hk' & Hb').
  destruct (Hb _ _ Hk' Hi'), (Hb' _ _ Hk Hi); lia.
Qed.

Lemma latest_S k t r : retains !! k = Some (t, r) -> latest (S k) = dedup_step retains (latest k) (k, (t, r)).
Proof.
  intros Hk. unfold latest. rewrite (take_S_r _ _ _ Hk), imap_app, foldl_app. cbn [imap foldl]. do 2 f_equal.
  rewrite length_take. apply lookup_lt_Some in Hk. cbn. lia.
Qed.

(** One message more. *)
Lemma newest_other k t u r i : retains !! k = Some (u, r) -> u <> t -> newest (S k) t i <-> newest k t i.
Proof.
  intros Hk Hne. split; intros (r0 & Hi & Hlt & Hb); exists r0; split_and!; try done.
  - assert (i <> k) by (intros ->; congruence). lia.
  - intros j r' Hj. apply Hb. lia.
  - lia.
  - intros j r' Hj Hr'. destruct (decide (j = k)) as [->|]; [congruence|]. apply Hb; [lia|done].
Qed.

Lemma newest_first k t r : retains !! k = Some (t, r) ->
  (forall j r', (j < k)%nat -> retains !! j = Some (t, r') -> False) -> newest (S k) t k.
Proof.
  intros Hk Hno. exists r. split_and!; [done|lia|]. intros j r' Hj Hr'.
  destruct (decide (j = k)) as [->|]; [right; split; [congruence|lia]|]. destruct (Hno j r'); [lia|done].
Qed.

Lemma newest_step k t r i r0 : retains !! k = Some (t, r) -> newest k t i -> retains !! i = Some (t, r0) ->
  newest (S k) t (if retain_ts r0 <? retain_ts r then k else i).
Proof.
  intros Hk (r1 & Hi & Hlt & Hb) Hi0. assert (r1 = r0) as -> by congruence.
  destruct (Z.ltb_spec (retain_ts r0) (retain_ts r)) as [Hlt'|Hge].
  - exists r. split_and!; [done|lia|]. intros j r' Hj Hr'.
    destruct (decide (j = k)) as [->|]; [right; split; [congruence|lia]|].
    destruct (Hb j r'); [lia|done|left; lia..].
  - exists r0. split_and!; [done|lia|]. intros j r' Hj Hr'.
    destruct (decide (j = k)) as [->|].
    + assert (r' = r) as -> by congruence. destruct (decide (retain_ts r = retain_ts r0)); [right; lia|left; lia].
    + apply Hb; [lia|done].
Qed.

Lemma latest_spec k : (k <= length retains)%nat ->
  (forall t i, latest k !! t = Some i <-> newest k t i) /\
  (forall t, latest k !! t = None -> forall j r', (j < k)%nat -> retains !! j = Some (t, r') -> False).
Proof.
  induction k as [|k IH]; intros Hk.
  { unfold latest. rewrite take_0. cbn. split; intros t; [|intros _; lia].
    intros i. rewrite lookup_empty. split; [done|]. intros (? & _ & ? & _); lia. }
  destruct IH as [IH1 IH2]; [lia|]. destruct (lookup_lt_is_Some_2 retains k) as [[u r] Hu]; [lia|].
  rewrite (latest_S _ _ _ Hu). unfold dedup_step.
  assert (Hcur : exists i, newest (S k) u i /\ latest (S k) = <[u := i]> (latest k)).
  { rewrite (latest_S _ _ _ Hu). unfold dedup_step. destruct (latest k !! u) as [i|] eqn:Hl.
    - pose proof (proj1 (IH1 u i) Hl) as Hn. destruct (Hn) as (r0 & Hi & _). rewrite Hi.
      pose proof (newest_step _ _ _ _ _ Hu Hn Hi) as Hs. destruct (retain_ts r0 <? retain_ts r).
      + by exists k.
      + exists i. split; [done|]. by rewrite insert_id.
    - exists k. split; [|done]. eapply newest_first; eauto. }
  destruct Hcur as (i0 & Hn0 & He). rewrite (latest_S _ _ _ Hu) in He. unfold dedup_step in He. rewrite He.
  split.
  - intros t i. destruct (decide (u = t)) as [<-|Hne].
    + rewrite lookup_insert_eq. split; [by intros [= <-]|]. intros Hn. f_equal. by eapply newest_unique.
    + rewrite lookup_insert_ne, (newest_other _ _ _ _ _ Hu Hne) by done. apply IH1.
  - intros t. destruct (decide (u = t)) as [<-|Hne]; [by rewrite lookup_insert_eq|].
    rewrite lookup_insert_ne by done. intros Hnone j r' Hj Hr'.
    destruct (decide (j = k)) as [->|]; [congruence|]. eapply IH2; [done| |done]. lia.
Qed.

Lemma latest_all : latest (length retains) = foldl (dedup_step retains) ∅ (imap (fun i e => (i, e)) retains).
Proof. unfold latest. by rewrite take_ge. Qed.
End dedup.

(** Picking the elements of a list by their index. *)
Section pick.
Context {A B : Type}.
Implicit Types (sel : nat -> A * B -> bool) (l : list (A * B)).

Definition pick sel (o : nat) l : list (A * B) :=
  omap (fun e => if sel e.1 e.2 then Some e.2 else None) (imap (fun i e => ((o + i)%nat, e)) l).

Lemma pick_cons sel o x l : pick sel o (x :: l) = (if sel o x then [x] else []) ++ pick sel (S o) l.
Proof.
  unfold pick. rewrite imap_cons. cbn [omap list_omap fst snd]. rewrite Nat.add_0_r.
  rewrite (imap_ext ((fun i e => ((o + i)%nat, e)) ∘ S) (fun i e => ((S o + i)%nat, e)))
    by (intros; simpl; f_equal; lia).
  by destruct (sel o x).
Qed.

Lemma pick_sublist sel o l : sublist (pick sel o l) l.
Proof.
  revert o. induction l as [|x l IH]; intros o; [done|]. rewrite pick_cons.
  destruct (sel o x); simpl; [by apply sublist_skip|by apply sublist_cons].
Qed.

Lemma elem_pick sel o l x : x ∈ pick sel o l <-> exists i, l !! i = Some x /\ sel (o + i)%nat x = true.
Proof.
  unfold pick. rewrite list_elem_of_omap. split.
  - intros ([j y] & (i & y' & [= -> ->] & Hi)%elem_of_lookup_imap_1 & Hs). simpl in Hs.
    destruct (sel _ _) eqn:He; [|done]. injection Hs as ->. eauto.
  - intros (i & Hi & Hs). exists ((o + i)%nat, x). split; [|simpl; by rewrite Hs].
    apply elem_of_lookup_imap. by exists i, x.
Qed.

Lemma pick_NoDup sel o l :
  (forall i j x y, l !! i = Some x -> l !! j = Some y -> sel (o + i)%nat x = true -> sel (o + j)%nat y = true ->
     x.1 = y.1 -> i = j) ->
  NoDup (pick sel o l).*1.
Proof.
  revert o. induction l as [|x l IH]; intros o Hu; [constructor|]. rewrite pick_cons, fmap_app.
  assert (Hl : NoDup (pick sel (S o) l).*1).
  { apply IH. intros i j a b Ha Hb Hsa Hsb Hab.
    assert (S i = S j) as [= ->]; [|done]. apply (Hu _ _ a b); try done.
    - by rewrite Nat.add_succ_r.
    - by rewrite Nat.add_succ_r. }
  destruct (sel o x) eqn:Hs; [|done]. simpl. constructor; [|done].
  intros (y & Hxy & (i & Hi & Hsi)%elem_pick)%list_elem_of_fmap.
  assert (0%nat = S i); [|done]. apply (Hu _ _ x y); try done.
  - by rewrite Nat.add_0_r.
  - by rewrite Nat.add_succ_r.
Qed.
End pick.

Definition dedup_kept (retains : list (string * Retain)) (i : nat) (e : string * Retain) : bool :=
  bool_decide (latest retains (length retains) !! e.1 = Some i).

Lemma dedup_pick retains : dedup_retains_by_topic retains = pick (dedup_kept retains) 0 retains.
Proof. unfold dedup_retains_by_topic, pick, dedup_kept. by rewrite latest_all. Qed.

Lemma dedup_kept_spec retains i t r :
  dedup_kept retains i (t, r) = true <-> newest retains (length retains) t i.
Proof. unfold dedup_kept. rewrite bool_decide_eq_true. by apply latest_spec. Qed.

(** The retained messages of several nodes: of every topic that is there
    [dedup_retains_by_topic] keeps exactly one message, a newest one, and
    among those that are equally new the one that comes first; they stay in
    their order. *)
Theorem dedup_newest (retains : list (string * Retain)) :
  let kept := dedup_retains_by_topic retains in
  sublist kept retains /\ NoDup kept.*1 /\
  (forall t r, (t, r) ∈ kept <-> exists i, retains !! i = Some (t, r) /\ newest retains (length retains) t i) /\
  (forall t, t ∈ kept.*1 <-> t ∈ retains.*1).
Proof.
  cbv zeta. rewrite dedup_pick.
  assert (Hin : forall t r, (t, r) ∈ pick (dedup_kept retains) 0 retains <->
    exists i, retains !! i = Some (t, r) /\ newest retains (length retains) t i)
    by (intros t r; rewrite elem_pick; by setoid_rewrite dedup_kept_spec).
  split_and!; [apply pick_sublist| |done|].
  - apply pick_NoDup. intros i j [t r] [t' r'] _ _ Hi%dedup_kept_spec Hj%dedup_kept_spec [= <-].
    by eapply newest_unique.
  - intros t. rewrite !list_elem_of_fmap. split.
    + intros ([u r] & -> & (i & Hi & _)%Hin). exists (u, r). split; [done|]. by eapply list_elem_of_lookup_2.
    + intros ([u r] & Ht & [j Hj]%list_elem_of_lookup_1). cbn [fst] in Ht. subst u.
      destruct (latest_spec retains (length retains)) as [Hs Hn]; [done|].
      destruct (latest retains (length retains) !! t) as [i|] eqn:Hl.
      * apply Hs in Hl. destruct (Hl) as (r0 & Hi & _). exists (t, r0). split; [done|]. apply Hin. eauto.
      * exfalso. eapply Hn; [done| |done]. by eapply lookup_lt_Some.
Qed.
