(* ===== verification/NodeBroker.v ===== *)
(** * The node as the broker of its sessions

    The theorems on sessions are proved against the class [Broker]. Here the
    node is an instance of it: forwarding is [node_forwards], the entry of a
    session is that of the shared state, the network is a list of how the
    next packets fare, and the hooks answer as a hook manager without
    handlers does. The instance has the laws that the theorems assume
    ([BrokerOk], [EntryOk], [NoDeliveryHooks]). *)

From stdpp Require Import prelude list strings gmap.
From Stdlib Require Import ZArith Lia.
From S2P Require Import Prelude CodecTypes CodecV5Types Topic Trie BrokerTypes Subscription Router RouterMatch Retain RetainStorage Inflight Connection Fitter Delayed Session SessionLogic SessionDelivery SessionSubscribe SessionSubs Shared SharedRouting Node NodeForward.

Local Open Scope Z_scope.

Section broker.
Context {S H : Type} `{SharedSubscriptionOk S} `{!BinaryHeap H}.
Context (texts : TopicError -> bytes).

(** The sessions in the table are those of this node: without it the
    assertion of [subscribe] fails. *)
Definition peers_local (node : Z) (ps : gmap bytes Peer) : Prop :=
  map_Forall (fun _ p => node_id (peer_id p) = node) ps.
Definition local (n : Node S H) : Prop :=
  peers_local (Shared.this_node (n_shared n)) (Shared.peers (n_shared n)).

Definition LocalNode : Type := { n : Node S H | local n }.

(** ** Every operation leaves the sessions where they are *)

Lemma peers_local_insert node ps c p : peers_local node ps -> node_id (peer_id p) = node -> peers_local node (<[c := p]> ps).
Proof. intros Hl Hp. by apply map_Forall_insert_2. Qed.

Lemma local_delivered from publish rels (b b' : Shared.t (S := S)) :
  Shared.delivered from publish rels b b' ->
  peers_local (Shared.this_node b) (Shared.peers b) -> peers_local (Shared.this_node b') (Shared.peers b').
Proof.
  intros (Hn & _ & _ & _ & _ & Hp) Hl c p. rewrite Hp, Hn. intros (q & Hq & ->)%fmap_Some. simpl. by apply (Hl c).
Qed.

Lemma local_inner n from publish storage expiry :
  local n -> local (inner_forwards texts n from publish storage expiry).2.
Proof.
  intros Hl. unfold inner_forwards.
  assert (Hs : n_shared (store_retained texts n None from publish expiry).2 = n_shared n).
  { unfold store_retained. destruct (_ && _); [|done]. by destruct (RamRetainer.set _ _ _ _ _ _). }
  destruct (store_retained texts n None from publish expiry) as [r n1]. simpl in Hs.
  destruct r; try (unfold local; simpl; by rewrite Hs). cbn [store_message].
  destruct (forwards_run (n_millis n1) (n_shared n1) from publish) as (errs & s' & b' & -> & _ & Hd).
  assert (Hb : peers_local (Shared.this_node b') (Shared.peers b')).
  { eapply local_delivered; [done|]. rewrite Hs. done. }
  destruct (failed_of _ _); [|done]. by destruct (_ =? 0).
Qed.

Lemma local_forwards n from publish storage expiry :
  local n -> local (node_forwards texts n from publish storage expiry).2.
Proof.
  intros Hl. unfold node_forwards. destruct (BPublish.delay_interval publish); [|by apply local_inner].
  destruct (DelayedSender.delay_publish _ _ _ _ _ _) as [[[f p]|] d]; [|done].
  change (n_delayed_immediate (set_delayed n d)) with (n_delayed_immediate n).
  destruct (n_delayed_immediate n); [by apply local_inner|done].
Qed.

Lemma local_entry_subscribe n id sub :
  local n -> local (set_shared n (Shared.subscribe texts (n_shared n) id sub).2).
Proof.
  unfold local. intros Hl. unfold Shared.subscribe.
  destruct (Shared.peers (n_shared n) !! client_id id) as [p|] eqn:Hp; [|done].
  destruct (_ =? _); [|done]. destruct (Router.add _ _ _ _) as [[] r]; try done.
  unfold Shared.subscriptions_add. cbn [Shared.peers Shared.set_router]. rewrite Hp.
  destruct (SessionSubs.add _ _ _) as [prev [subs g]]. simpl. apply peers_local_insert; [done|]. exact (Hl _ _ Hp).
Qed.

Lemma local_entry_unsubscribe n id unsub :
  local n -> local (set_shared n (Shared.unsubscribe (n_shared n) id unsub).2).
Proof.
  unfold local. intros Hl. unfold Shared.unsubscribe.
  destruct (Shared.peers (n_shared n) !! client_id id) as [p|] eqn:Hp; [|done].
  unfold Shared.subscriptions_remove. cbn [Shared.peers Shared.set_router]. rewrite Hp.
  destruct (SessionSubs.remove _ _) as [removed [subs g]]. simpl. apply peers_local_insert; [done|]. exact (Hl _ _ Hp).
Qed.

(** [session_subs_extend]: the entry's subscriptions, with the gauges. *)
Definition subscriptions_extend (b : Shared.t (S := S)) (id : Id) (subs : list (string * SubscriptionOptions)) : Shared.t :=
  match Shared.peers b !! client_id id with
  | Some p =>
      let '(m, g) := SessionSubs.extend (peer_subs p, Shared.gauges b) subs in
      Shared.set_gauges (Shared.set_peers b (<[client_id id := with_subs p m]> (Shared.peers b))) g
  | None => b
  end.

Lemma local_extend n id subs : local n -> local (set_shared n (subscriptions_extend (n_shared n) id subs)).
Proof.
  unfold local. intros Hl. unfold subscriptions_extend.
  destruct (Shared.peers (n_shared n) !! client_id id) as [p|] eqn:Hp; [|done].
  destruct (SessionSubs.extend _ _) as [m g]. simpl. apply peers_local_insert; [done|]. exact (Hl _ _ Hp).
Qed.

Lemma local_remove_with n id with_id :
  local n -> local (set_shared n (Shared.remove_with (n_shared n) id with_id).2).
Proof.
  unfold local. intros Hl. unfold Shared.remove_with, Shared.remove_entry_with, Shared.remove_peer.
  destruct (_ !! client_id id) as [p|]; [|done]. destruct (Id_eq _ _); [|done]. simpl.
  intros c q Hq. apply lookup_delete_Some in Hq as [_ Hq]. by apply (Hl c).
Qed.

(** ** The instance *)

(** An operation of the node, on a local one. *)
Definition locally {A} (f : Node S H -> A * Node S H) (ok : forall n, local n -> local (f n).2) (w : LocalNode)
    : A * LocalNode := ((f (`w)).1, (f (`w)).2 ↾ ok _ (proj2_sig w)).

Definition take_packet (n : Node S H) : option Error * Node S H :=
  match n_network n with
  | [] => (None, n)
  | r :: l => (r, set_network n l)
  end.

Lemma local_take_packet n : local n -> local (take_packet n).2.
Proof. unfold take_packet. by destruct (n_network n). Qed.

Definition shared_op {A} (f : Shared.t (S := S) -> A * Shared.t (S := S)) (n : Node S H) : A * Node S H :=
  ((f (n_shared n)).1, set_shared n (f (n_shared n)).2).

Definition add_route (filter : string) (id : Id) (opts : SubscriptionOptions) (b : Shared.t (S := S))
    : outcome Error unit * Shared.t (S := S) :=
  let '(r, router) := Router.add (Shared.router b) filter id opts in
  (map_err (Shared.topic_error texts) r, Shared.set_router b router).

Lemma local_add_route filter id opts n : local n -> local (shared_op (add_route filter id opts) n).2.
Proof. unfold local, shared_op, add_route. by destruct (Router.add _ _ _ _). Qed.

Definition relations_in (b : Shared.t (S := S)) (filter : string) (client : bytes) : option (bool * Z) :=
  (fun rels => (bool_decide (is_Some (rels !! client)), Z.of_nat (size rels))) <$>
    Router.relations (Shared.router b) !! filter.

Definition subs_len (b : Shared.t (S := S)) (id : Id) : Z :=
  match Shared.peers b !! client_id id with Some p => SessionSubs.len (peer_subs p) | None => 0 end.

#[export] Instance node_broker : Broker LocalNode := {
  timestamp_millis w := n_millis (`w);
  hook_message_publish _ _ w := (None, w);
  hook_message_publish_check_acl _ w := (acl_allow, w);
  hook_message_expiry _ _ w := (false, w);
  hook_message_delivered _ _ w := (None, w);
  hook_client_subscribe _ w := (None, w);
  hook_client_subscribe_check_acl _ w := (None, w);
  hook_client_unsubscribe _ w := (None, w);
  message_mgr_enable w := n_storage_enable (`w);
  retain_enable w := n_retain_enable (`w);
  shared_subscription_supported _ _ := true;
  forwards from p storage expiry :=
    locally (fun n => node_forwards texts n from p storage expiry) (fun n => local_forwards n from p storage expiry);
  send_packet _ := locally take_packet local_take_packet;
  relations_of filter client w := relations_in (n_shared (`w)) filter client;
  session_subs_len id w := subs_len (n_shared (`w)) id;
  entry_subscribe id sub :=
    locally (shared_op (fun b => Shared.subscribe texts b id sub)) (fun n => local_entry_subscribe n id sub);
  entry_unsubscribe id unsub :=
    locally (shared_op (fun b => Shared.unsubscribe b id unsub)) (fun n => local_entry_unsubscribe n id unsub);
  router_add filter id opts := locally (shared_op (add_route filter id opts)) (local_add_route filter id opts);
  session_subs_extend id subs w :=
    (locally (shared_op (fun b => (tt, subscriptions_extend b id subs))) (fun n => local_extend n id subs) w).2;
  entry_id_same id w := Shared.id_same (n_shared (`w)) id;
  entry_remove_with id w :=
    (locally (shared_op (fun b => Shared.remove_with b id id)) (fun n => local_remove_with n id id) w).2;
}.

(** ** The laws *)

Lemma retainer_set_returns cfg now s topic r expiry : returns (RamRetainer.set cfg now s topic r expiry).1.
Proof.
  assert (Hs : forall t, returns (RetainStorage.set_with_timeout now s topic r t).1).
  { intros t. unfold RetainStorage.set_with_timeout. pose proof (from_str_returns topic).
    destruct (Topic_from_str topic); try done. destruct (RetainTree.remove _ _). by destruct (negb _). }
  unfold RamRetainer.set. destruct (_ <? _); [done|]. destruct (_ && _); [|done].
  unfold RamRetainer.get, RetainStorage.get_message. pose proof (from_str_returns topic).
  destruct (Topic_from_str topic); try done. by destruct (negb _).
Qed.

Lemma inner_forwards_returns (n : Node S H) from publish storage expiry :
  returns (inner_forwards texts n from publish storage expiry).1.
Proof.
  unfold inner_forwards. assert (Hs : returns (store_retained texts n None from publish expiry).1).
  { unfold store_retained. destruct (_ && _); [|done].
    pose proof (retainer_set_returns (n_retain_cfg n) (n_instant n) (n_retained n) (topic_of publish)
      (mkRetain None from publish) expiry) as Hr.
    destruct (RamRetainer.set _ _ _ _ _ _) as [[] s]; done. }
  destruct (store_retained texts n None from publish expiry) as [[] n1]; try done. cbn [store_message].
  destruct (forwards_run (n_millis n1) (n_shared n1) from publish) as (errs & s' & b' & -> & _ & _).
  by destruct (failed_of _ _).
Qed.

Lemma node_forwards_returns (n : Node S H) from publish storage expiry :
  returns (node_forwards texts n from publish storage expiry).1.
Proof.
  unfold node_forwards. destruct (BPublish.delay_interval publish); [|apply inner_forwards_returns].
  destruct (DelayedSender.delay_publish _ _ _ _ _ _) as [[[f p]|] d]; [|done].
  destruct (n_delayed_immediate _); [apply inner_forwards_returns|done].
Qed.

Lemma shared_subscribe_returns (b : Shared.t (S := S)) id sub :
  peers_local (Shared.this_node b) (Shared.peers b) -> returns (Shared.subscribe texts b id sub).1.
Proof.
  intros Hl. unfold Shared.subscribe. destruct (_ !! client_id id) as [p|] eqn:Hp; [|done].
  rewrite (Hl _ _ Hp), Z.eqb_refl. unfold Router.add. pose proof (from_str_returns (sub_filter sub)).
  destruct (Topic_from_str (sub_filter sub)); try done. by destruct (Shared.subscriptions_add _ _ _ _).
Qed.

#[export] Instance node_broker_ok : BrokerOk LocalNode.
Proof.
  constructor.
  - intros from p storage expiry [n Hn]. apply node_forwards_returns.
  - intros id sub [n Hn]. by apply shared_subscribe_returns.
  - intros id unsub [n Hn]. cbn -[Shared.unsubscribe]. unfold Shared.unsubscribe.
    destruct (_ !! client_id id); [|done]. by destruct (Shared.subscriptions_remove _ _ _).
  - intros filter id opts [n Hn]. cbn -[Router.add]. unfold add_route, Router.add.
    pose proof (from_str_returns filter). by destruct (Topic_from_str filter).
  - done.
Qed.

#[export] Instance node_entry_ok : EntryOk.
Proof.
  constructor. intros id sub [n Hn] r w'. cbn -[Shared.subscribe]. unfold locally, shared_op. cbn [fst snd proj1_sig].
  intros [= Hs _]. revert Hs. unfold Shared.subscribe. destruct (_ !! client_id id); [|done].
  destruct (_ =? _); [|done]. destruct (Router.add _ _ _ _) as [[] ?]; try done.
  destruct (Shared.subscriptions_add _ _ _ _). intros [= <-]. by destruct (opts_qos (sub_opts sub)).
Qed.

#[export] Instance node_no_delivery_hooks : NoDeliveryHooks.
Proof. by constructor. Qed.
End broker.
