(* ===== verification/SessionWitness.v ===== *)
(** * A node with two clients

    The theorems on sessions, on the shared state and on the node, applied
    to a node with concrete parts: the default choice in shared groups, an
    ordered list for the heap of delayed messages, an association list for
    the window; client [a] is the session, client [b] has subscribed. *)

From stdpp Require Import prelude list strings gmap relations.
From Stdlib Require Import ZArith Lia.
From S2P Require Import Prelude CodecTypes CodecUtils CodecV3 CodecV5Types Topic Trie BrokerTypes Subscription Router RouterMatch Retain RetainStorage Queue Inflight Connection Fitter TopicAlias Delayed Session SessionLogic SessionInbound SessionQoS2 SessionOutbound SessionDelivery SessionSubscribe SessionLoop SessionRun SessionEnd SessionWill SessionHandover SessionSubs Shared SharedRouting SharedSync Node NodeForward NodeBroker.

Local Open Scope Z_scope.

Abbreviation SampleNode := (Node DefaultShared.Seq SortedHeap.t).
Abbreviation World := (LocalNode (S := DefaultShared.Seq) (H := SortedHeap.t)).
Abbreviation SampleState := (SessionState World (AssocDeque.t OutInflightMessage)).

Definition no_text {A} (_ : A) : bytes := [].

#[local] Instance sample_broker : Broker World := node_broker no_text.
#[local] Instance sample_broker_ok : BrokerOk World := node_broker_ok no_text.
#[local] Instance sample_entry_ok : EntryOk := node_entry_ok no_text.
#[local] Instance sample_no_hooks : NoDeliveryHooks := node_no_delivery_hooks no_text.
#[local] Instance sample_texts : Texts := Build_Texts no_text no_text no_text no_text no_text.

Definition id_a : Id := Id_from 0 1 (text "a").
Definition id_b : Id := Id_from 0 1 (text "b").
Definition try_send_yes (_ _ : nat) : bool := true.

(** ** The shared state: both clients connected, [b] subscribed *)

Definition gauges0 : SessionSubs.Gauges := SessionSubs.mkGauges Counter.new Counter.new.
Definition shared0 : Shared.t (S := DefaultShared.Seq) := empty_shared 1 0 gauges0.

Definition sub_b : Subscribe := mkSubscribe "t/+" (options_of_v3 AtLeastOnce None None).

Definition connect (b : Shared.t (S := DefaultShared.Seq)) (id : Id) : Shared.t :=
  Shared.set (Shared.kick b id WaitReplied (fun _ => None) true true false).2 id (fresh_peer id).

Definition shared_ab : Shared.t (S := DefaultShared.Seq) := connect (connect shared0 id_a) id_b.
Definition shared_sub : Shared.t (S := DefaultShared.Seq) := (Shared.subscribe no_text shared_ab id_b sub_b).2.

Lemma shared_sub_steps : rtc (shared_step no_text) shared0 shared_sub.
Proof.
  eapply rtc_l; [by eapply (StepConnect _ _ id_a WaitReplied (fun _ => None) false)|].
  eapply rtc_l; [by eapply (StepConnect _ _ id_b WaitReplied (fun _ => None) false)|].
  eapply rtc_l; [by apply (StepSubscribe no_text shared_ab id_b sub_b)|]. apply rtc_refl.
Qed.


(** ** The node *)

Definition node_of (b : Shared.t (S := DefaultShared.Seq)) : SampleNode :=
  mkNode 1000 0 b RetainStorage.new RamRetainer.default_config true
    (DelayedSender.mk heap_empty Counter.new 10) false false [] [] [].

Definition node_sub : SampleNode := node_of shared_sub.

Definition world_sub : World := node_sub ↾ bool_decide_eq_true_1 (local node_sub) eq_refl.

(** ** Messages *)

Definition from_a : From := mkFrom Custom id_a.
Definition message (q : QoS) (pid : option Z) (topic : string) : Publish :=
  mkPublish false false q (text topic) pid (text "hello") None.

Definition session_a (w : World) : SampleState :=
  mkState id_a false
    (mkFitter (ConnectV3 id_a (V3.mkConnect MQTT_LEVEL_311 true 60
       (Some (V3.mkLastWill AtMostOnce false (text "t/will") (text "bye"))) (text "a") None None None)) default_listener)
    None None (InInflight.new Counter.new 16) [] (OutInflight.new 16 20000 0)
    (Queue.mkChan (Queue.new 100) 0) [] false (DisconnectInfo.mk 0 [] None) no_flags [] w.

(** What a specification says of a run whose result is known. *)
Lemma swp_run {E A} (m : sess World (AssocDeque.t OutInflightMessage) E A) s P R a :
  swp m s P R -> (m s).1 = Ok a -> exists s', m s = (Ok a, s') /\ P a s'.
Proof. unfold swp. destruct (m s) as [[] s']; intros H [= ->]; eauto. Qed.

(** ** The inbound side: QoS 2 from [a], sent twice *)

Definition from_client (p : V3.Packet) : LoopEvent (W := World) := PacketReady (Ok (Some (Packet3 p))).
Definition inbound_events : list LoopEvent :=
  [from_client (V3.PPublish (message ExactlyOnce (Some 7) "t/1"));
   from_client (V3.PPublish (message ExactlyOnce (Some 7) "t/1"));
   from_client (V3.PPublishRelease 7);
   from_client (V3.PPublish (message ExactlyOnce (Some 7) "t/1"))].

Definition after_inbound : SampleState := (run_loop try_send_yes false inbound_events (session_a world_sub)).2.

Definition is_forwarded (e : Effect) : bool := match e with Forwarded _ _ _ _ => true | _ => false end.

Lemma session_exactly_once_witness :
  exactly_once ∅ (trace after_inbound) /\
  length (List.filter is_forwarded (trace after_inbound)) = 2%nat /\
  length <$> (mailbox <$> Shared.peers (n_shared (proj1_sig (world after_inbound))) !! text "b") = Some 2%nat.
Proof.
  split; [|split; vm_compute; reflexivity].
  assert (Hf : fresh (session_a world_sub)) by (by split_and!).
  assert (He : Forall (event_ok (sink5 (session_a world_sub))) inbound_events).
  { repeat constructor; try done; intros ? [= <-]; done. }
  pose proof (session_exactly_once try_send_yes (session_a world_sub) inbound_events Hf He) as H.
  assert (Hr : (run_loop try_send_yes false inbound_events (session_a world_sub)).1 = Ok tt) by (vm_compute; reflexivity).
  unfold after_inbound. destruct (swp_run _ _ _ _ _ H Hr) as (s' & -> & Hs). apply Hs.
Defined.

(** ** The outbound side: a message for [a] *)

Definition outgoing : BPublish := BPublish.mk (message AtLeastOnce None "t/2") None None (Some 1000).

Lemma delivery_registered_witness :
  exists pid, 1 <= pid <= U16_MAX /\
    match deliver from_a outgoing (session_a world_sub) with
    | (Ok _, s') => exists m, OutInflight.get (out_inflight s') pid = Some m /\ status m = UnAck
    | _ => False
    end.
Proof.
  assert (Hexp : check_expiry (timestamp_millis (world (session_a world_sub)))
    (expiry_millis (listen_cfg (st_fitter (session_a world_sub))) outgoing) outgoing = Remaining (Some 300))
    by (vm_compute; reflexivity).
  assert (Ha : alias_ok (session_a world_sub)) by (vm_compute; discriminate).
  assert (Hn : u16 (OutInflight.next (out_inflight (session_a world_sub)))) by (vm_compute; split; [discriminate|reflexivity]).
  assert (Hl : OutInflight.len (out_inflight (session_a world_sub)) < 65534) by (vm_compute; reflexivity).
  destruct (delivery_registered (session_a world_sub) from_a outgoing UnAck (Some 300) Ha Hn Hl eq_refl eq_refl Hexp)
    as (pid & Hp & _ & H).
  assert (Hr : (deliver from_a outgoing (session_a world_sub)).1 = Ok tt) by (vm_compute; reflexivity).
  destruct (swp_run _ _ _ _ _ H Hr) as (s' & -> & (m & Hm & _ & _ & Hst) & _).
  exists pid. split; [exact Hp|]. exists m. by split.
Defined.

Definition after_deliver : SampleState := (deliver from_a outgoing (session_a world_sub)).2.

Lemma outbound_handshake_witness :
  exists m s', OutInflight.get (out_inflight after_deliver) 1 = Some m /\
    handle_acked 1 after_deliver = (Ok tt, s') /\ OutInflight.get (out_inflight s') 1 = None /\
    trace s' = trace after_deliver ++ [MessageAcked from_a (Inflight.publish m)].
Proof.
  destruct (outbound_handshake after_deliver 1) as [_ H].
  assert (Hf : Inflight.from <$> OutInflight.get (out_inflight after_deliver) 1 = Some from_a)
    by (vm_compute; reflexivity).
  destruct (OutInflight.get (out_inflight after_deliver) 1) as [m|]; [|discriminate Hf].
  injection Hf as Hf. destruct (H m eq_refl) as [(s' & Ha & Hg & _ & Ht) _]. rewrite Hf in Ht.
  exists m, s'. split; [reflexivity|]. split; [exact Ha|]. split; [exact Hg|exact Ht].
Defined.

(** ** Subscribing *)

Definition sub_a : Subscribe := mkSubscribe "t/#" (options_of_v3 ExactlyOnce None None).


Definition topic_filters : list (bytes * QoS) := [(text "x/y", AtLeastOnce); (text "t/+", AtMostOnce)].


(** ** The end of a session *)

Definition no_query (_ : bytes) : list (bytes * bytes) := [].
Definition after_end : SampleState :=
  (session_end try_send_yes no_query (Err ConnectKeepaliveTimeout) [] (session_a world_sub)).2.


Lemma clean_discards_witness :
  exists s', clean MessageExpiration after_deliver = (Ok tt, s') /\
    OutInflight.clone_inflight_messages (out_inflight s') = [] /\
    trace s' = trace after_deliver ++
      [MessageDropped (Some id_a) from_a (set_packet_id outgoing (Some 1)) MessageExpiration;
       SessionTerminated MessageExpiration; SessionRemoved].
Proof.
  pose proof (clean_discards after_deliver MessageExpiration) as H.
  assert (Hr : (clean MessageExpiration after_deliver).1 = Ok tt) by (vm_compute; reflexivity).
  destruct (swp_run _ _ _ _ _ H Hr) as (s' & E & _ & Hc & Ht). exists s'. split; [exact E|]. split; [exact Hc|].
  rewrite Ht. vm_compute. reflexivity.
Defined.

Lemma handover_complete_witness :
  exists info s', to_offline_info [] 0 after_deliver = Some info /\
    transfer_session_state true info (session_a world_sub) = (Ok tt, s') /\ length (rx s') = 1%nat.
Proof.
  destruct (handover_complete after_deliver (session_a world_sub) [] 0 true) as (info & Hi & H); [reflexivity|].
  assert (Hr : match to_offline_info [] 0 after_deliver with
               | Some i => (transfer_session_state true i (session_a world_sub)).1 = Ok tt
               | None => False
               end) by (vm_compute; reflexivity).
  rewrite Hi in Hr.
  destruct (swp_run _ _ _ _ _ H Hr) as (s' & E & Hx). exists info, s'. split; [exact Hi|]. split; [exact E|].
  rewrite Hx. vm_compute. reflexivity.
Defined.

(** ** A published message *)

Definition published : BPublish := BPublish.from (message AtLeastOnce None "t/1").
Definition retained_message : BPublish := BPublish.from (mkPublish false true AtLeastOnce (text "t/1") None (text "on") None).

Lemma shared_sub_inv : Router.inv (Shared.router shared_sub).
Proof. exact (sync_router _ (reachable_in_sync no_text 1 0 gauges0 _ shared_sub_steps)). Qed.

Definition topic_t1 : Topic := [Normal "t"; Normal "1"].

Lemma t1_name : str (text "t/1") = "t/1"%string.
Proof. vm_compute. reflexivity. Qed.
Lemma t1_wildcard : contains_wildcard (str (text "t/1")) = false.
Proof. vm_compute. reflexivity. Qed.
Lemma t1_topic : Topic_from_str (str (text "t/1")) = Ok topic_t1.
Proof. vm_compute. reflexivity. Qed.

Lemma publish_reaches_subscribers_witness :
  exists rels result b', Shared.forwards 1000 shared_sub None from_a published = (result, b') /\ returns result /\
    (forall client, Shared.peers b' !! client =
       Shared.add_mails (Shared.mails_for from_a published rels client) <$> Shared.peers shared_sub !! client) /\
    length <$> (mailbox <$> Shared.peers (Shared.forwards 1000 shared_sub None from_a published).2 !! text "b") = Some 1%nat.
Proof.
  destruct (publish_reaches_subscribers 1000 shared_sub from_a published topic_t1 shared_sub_inv eq_refl t1_wildcard t1_topic)
    as (rels & result & b' & Hf & Hr & Hp & _).
  exists rels, result, b'. split; [exact Hf|]. split; [exact Hr|]. split; [exact Hp|]. vm_compute. reflexivity.
Defined.

Lemma publish_accounted_witness :
  exists n', node_forwards no_text node_sub from_a retained_message false None = (Ok tt, n') /\
    accounted node_sub n' from_a retained_message (relations_for shared_sub from_a retained_message) /\
    RetainStorage.inv (n_retained n') /\
    size (RetainTree.to_map (RetainStorage.messages (n_retained
      (node_forwards no_text node_sub from_a retained_message false None).2))) = 1%nat.
Proof.
  destruct (publish_accounted no_text node_sub from_a retained_message false None topic_t1) as (n' & Hf & Ha & Hi & _);
    [exact shared_sub_inv|exact RetainStorage.inv_new|vm_compute; reflexivity|exact t1_wildcard|exact t1_topic|reflexivity|by left|].
  exists n'. split; [exact Hf|]. split; [exact Ha|]. split; [exact Hi|]. vm_compute. reflexivity.
Defined.

Definition node_retained : SampleNode := (node_forwards no_text node_sub from_a retained_message false None).2.

Lemma node_retained_inv : RetainStorage.inv (n_retained node_retained).
Proof.
  assert (H : n_retained node_retained = (RamRetainer.set RamRetainer.default_config 0 RetainStorage.new "t/1"
    (mkRetain None from_a retained_message) None).2) by (vm_compute; reflexivity).
  rewrite H. destruct (RamRetainer.set_limited_spec RamRetainer.default_config 0 RetainStorage.new "t/1" topic_t1
    (mkRetain None from_a retained_message) None) as (s' & -> & Hi & _);
    [exact RetainStorage.inv_new|vm_compute; reflexivity..|exact Hi].
Qed.

Lemma subscribe_gets_retained_witness :
  exists items, (forall name r, (name, r) ∈ items -> Topic_to_string topic_t1 = "t/1"%string) /\
    let n' := send_retained node_retained id_a "t/#" None true AtMostOnce in
    n_events n' = n_events node_retained /\
    Shared.peers (n_shared n') !! text "a" =
      Shared.add_mails (retained_mails 1000 AtMostOnce items) <$> Shared.peers (n_shared node_retained) !! text "a" /\
    length <$> (mailbox <$> Shared.peers (n_shared n') !! text "a") = Some 1%nat.
Proof.
  destruct (subscribe_gets_retained node_retained id_a "t/#" [Normal "t"; MultiWildcard] None true AtMostOnce
    node_retained_inv eq_refl) as (items & _ & _ & H).
  assert (Hr : Shared.reachable (n_shared node_retained) (client_id id_a) = true) by (vm_compute; reflexivity).
  rewrite Hr in H. destruct H as [He Hp]. exists items. split; [reflexivity|]. split; [exact He|].
  split; [exact (Hp (text "a"))|vm_compute; reflexivity].
Defined.
