(* ===== verification/Hook.v ===== *)
(** * Hooks: [hook.rs]

    Plug-ins register handlers for the points of a client's and a message's
    life. A handler is a function of the parameter, of the result of the
    handlers before it and of a state [X] that the handlers share with the
    rest of the broker; a manager keeps the handlers of each point ordered
    by priority and id. *)

From stdpp Require Import prelude list strings gmap sorting.
From Stdlib Require Import ZArith Lia OrderedTypeEx.
From S2P Require Import Prelude CodecTypes CodecV3 CodecV5Types Topic BrokerTypes Subscription Inflight Connection Fitter Session Acl SessionLogic SessionOutbound.

Local Open Scope Z_scope.

(** ** The points: [Type] *)

Inductive HookType : Type :=
| BeforeStartup
| SessionCreated | SessionTerminatedHook | SessionSubscribedHook | SessionUnsubscribedHook
| ClientAuthenticate | ClientConnect | ClientConnack | ClientConnected | ClientDisconnectedHook
| ClientSubscribe | ClientUnsubscribe | ClientSubscribeCheckAcl | ClientKeepaliveHook
| MessagePublishCheckAcl | MessagePublish | MessageDelivered | MessageAckedHook | MessageDroppedHook
| MessageExpiryCheck | MessageNonsubscribed
| OfflineMessageHook | OfflineInflightMessagesHook.

#[global] Instance HookType_eq_dec : EqDecision HookType.
Proof. solve_decision. Defined.

Definition hook_types : list (string * HookType) :=
  [("before_startup", BeforeStartup);
   ("session_created", SessionCreated); ("session_terminated", SessionTerminatedHook);
   ("session_subscribed", SessionSubscribedHook); ("session_unsubscribed", SessionUnsubscribedHook);
   ("client_authenticate", ClientAuthenticate); ("client_connect", ClientConnect);
   ("client_connack", ClientConnack); ("client_connected", ClientConnected);
   ("client_disconnected", ClientDisconnectedHook); ("client_subscribe", ClientSubscribe);
   ("client_unsubscribe", ClientUnsubscribe); ("client_subscribe_check_acl", ClientSubscribeCheckAcl);
   ("client_keepalive", ClientKeepaliveHook);
   ("message_publish_check_acl", MessagePublishCheckAcl); ("message_publish", MessagePublish);
   ("message_delivered", MessageDelivered); ("message_acked", MessageAckedHook);
   ("message_dropped", MessageDroppedHook); ("message_expiry_check", MessageExpiryCheck);
   ("message_nonsubscribed", MessageNonsubscribed);
   ("offline_message", OfflineMessageHook); ("offline_inflight_messages", OfflineInflightMessagesHook)].

(** [From<&str> for Type]: [unreachable!] of anything else. *)
Definition HookType_from_str (s : string) : outcome Empty_set HookType :=
  match find (fun e => bool_decide (e.1 = s)) hook_types with
  | Some e => Ok e.2
  | None => Panic
  end.

(** What a hook sees of a session. *)
Record HookSession : Type := mkHookSession {
  hs_id : Id;
  hs_password : option bytes;
  hs_protocol : option Z;
  hs_superuser : option bool;
  hs_listen_cfg : ListenerConfig;
  hs_auth_info : option AuthInfo;
}.

Inductive Parameter_ : Type :=
| PBeforeStartup
| PSessionCreated (s : HookSession)
| PSessionTerminated (s : HookSession) (r : Reason)
| PSessionSubscribed (s : HookSession) (sub : Subscribe)
| PSessionUnsubscribed (s : HookSession) (unsub : Unsubscribe)
| PClientConnect (c : ConnectInfo)
| PClientConnack (c : ConnectInfo) (r : AckReason)
| PClientAuthenticate (c : ConnectInfo)
| PClientConnected (s : HookSession)
| PClientDisconnected (s : HookSession) (r : Reason)
| PClientSubscribe (s : HookSession) (sub : Subscribe)
| PClientUnsubscribe (s : HookSession) (unsub : Unsubscribe)
| PClientSubscribeCheckAcl (s : HookSession) (sub : Subscribe)
| PClientKeepalive (s : HookSession) (ping : bool)
| PMessagePublishCheckAcl (s : HookSession) (p : BPublish)
| PMessagePublish (s : option HookSession) (from : From) (p : BPublish)
| PMessageDelivered (s : HookSession) (from : From) (p : BPublish)
| PMessageAcked (s : HookSession) (from : From) (p : BPublish)
| PMessageDropped (to : option Id) (from : From) (p : BPublish) (r : Reason)
| PMessageExpiryCheck (s : HookSession) (from : From) (p : BPublish)
| PMessageNonsubscribed (from : From)
| POfflineMessage (s : HookSession) (from : From) (p : BPublish)
| POfflineInflightMessages (s : HookSession) (ms : list OutInflightMessage).

Definition get_type (p : Parameter_) : HookType :=
  match p with
  | PBeforeStartup => BeforeStartup
  | PSessionCreated _ => SessionCreated
  | PSessionTerminated _ _ => SessionTerminatedHook
  | PSessionSubscribed _ _ => SessionSubscribedHook
  | PSessionUnsubscribed _ _ => SessionUnsubscribedHook
  | PClientAuthenticate _ => ClientAuthenticate
  | PClientConnect _ => ClientConnect
  | PClientConnack _ _ => ClientConnack
  | PClientConnected _ => ClientConnected
  | PClientDisconnected _ _ => ClientDisconnectedHook
  | PClientSubscribe _ _ => ClientSubscribe
  | PClientUnsubscribe _ _ => ClientUnsubscribe
  | PClientSubscribeCheckAcl _ _ => ClientSubscribeCheckAcl
  | PClientKeepalive _ _ => ClientKeepaliveHook
  | PMessagePublishCheckAcl _ _ => MessagePublishCheckAcl
  | PMessagePublish _ _ _ => MessagePublish
  | PMessageDelivered _ _ _ => MessageDelivered
  | PMessageAcked _ _ _ => MessageAckedHook
  | PMessageDropped _ _ _ _ => MessageDroppedHook
  | PMessageExpiryCheck _ _ _ => MessageExpiryCheck
  | PMessageNonsubscribed _ => MessageNonsubscribed
  | POfflineMessage _ _ _ => OfflineMessageHook
  | POfflineInflightMessages _ _ => OfflineInflightMessagesHook
  end.

(** ** The manager *)

Section hooks.
Context {X : Type}.

Definition Handler : Type := Parameter_ -> option HookResult -> X -> ReturnType * X.

(** [(Priority, HandlerId)]; tuples are compared from the left. *)
Definition Key : Type := Z * string.
Definition key_lt (a b : Key) : Prop := a.1 < b.1 \/ (a.1 = b.1 /\ String_as_OT.lt a.2 b.2).
Definition key_compare (a b : Key) : comparison :=
  match a.1 ?= b.1 with Eq => String_as_OT.cmp a.2 b.2 | c => c end.

Record HookEntry : Type := mkEntry { he_key : Key; he_handler : Handler; he_enabled : bool }.

(** The [BTreeMap] of a point, ascending. *)
Abbreviation Entries := (list HookEntry).

Record DefaultHookManager : Type := mkManager { handlers : HookType -> Entries }.

Definition manager_new : DefaultHookManager := mkManager (fun _ => []).

Definition set_entries (m : DefaultHookManager) (t : HookType) (es : Entries) : DefaultHookManager :=
  mkManager (fun t' => if decide (t' = t) then es else handlers m t').

Fixpoint btree_insert (e : HookEntry) (es : Entries) : Entries :=
  match es with
  | [] => [e]
  | x :: rest =>
      match key_compare (he_key e) (he_key x) with
      | Lt => e :: es
      | Eq => e :: rest
      | Gt => x :: btree_insert e rest
      end
  end.

Definition contains_key (k : Key) (es : Entries) : bool :=
  existsb (fun e => bool_decide (he_key e = k)) es.

(** [add]: [id] is the fresh UUID; false where the key is taken. *)
Definition manager_add (m : DefaultHookManager) (typ : HookType) (priority : Z) (id : string) (h : Handler)
    : bool * DefaultHookManager :=
  let es := handlers m typ in
  if contains_key (priority, id) es then (false, m)
  else (true, set_entries m typ (btree_insert (mkEntry (priority, id) h false) es)).

Fixpoint exec_loop (es : Entries) (p : Parameter_) (acc : option HookResult) (x : X) : option HookResult * X :=
  match es with
  | [] => (acc, x)
  | e :: es =>
      if he_enabled e then
        let '((proceed, new_acc), x) := he_handler e p acc x in
        if proceed then exec_loop es p new_acc x else (new_acc, x)
      else exec_loop es p acc x
  end.

Definition exec (m : DefaultHookManager) (t : HookType) (p : Parameter_) (x : X) : option HookResult * X :=
  exec_loop (rev (handlers m t)) p None x.

(** ** Registering: [DefaultHookRegister] *)

Record DefaultHookRegister : Type := mkRegister { type_ids : list (HookType * Key) }.

Definition register_new : DefaultHookRegister := mkRegister [].

Definition add_priority (m : DefaultHookManager) (r : DefaultHookRegister) (typ : HookType) (priority : Z)
    (id : string) (h : Handler) : DefaultHookManager * DefaultHookRegister :=
  match manager_add m typ priority id h with
  | (true, m) => (m, mkRegister (type_ids r ++ [(typ, (priority, id))]))
  | (false, m) => (m, r)
  end.

Definition enable (b : bool) (k : Key) (e : HookEntry) : HookEntry :=
  if decide (he_key e = k) then mkEntry (he_key e) (he_handler e) b else e.

Definition adjust_status (m : DefaultHookManager) (r : DefaultHookRegister) (b : bool) : DefaultHookManager :=
  foldl (fun m '(typ, k) => set_entries m typ (enable b k <$> handlers m typ)) m (type_ids r).

Definition start (m : DefaultHookManager) (r : DefaultHookRegister) : DefaultHookManager := adjust_status m r true.
Definition stop (m : DefaultHookManager) (r : DefaultHookRegister) : DefaultHookManager := adjust_status m r false.

(** ** What the manager and a session's hook answer *)

Context (m : DefaultHookManager).

Definition run_hook (p : Parameter_) (x : X) : option HookResult * X := exec m (get_type p) p x.

Definition client_connect (c : ConnectInfo) (x : X) : option (list (bytes * bytes)) * X :=
  let '(r, x) := run_hook (PClientConnect c) x in
  (match r with Some (HUserProperties l) => Some l | _ => None end, x).

Definition ack_ok (ver : Z) : AckReason :=
  if ver =? MQTT_LEVEL_31 then AckV3 V3.ConnectionAccepted
  else if ver =? MQTT_LEVEL_311 then AckV3 V3.ConnectionAccepted
  else if ver =? MQTT_LEVEL_5 then AckV5 ConnectAckReasonM.Success
  else AckV3 V3.ConnectionAccepted.
Definition ack_bad_user (ver : Z) : AckReason :=
  if ver =? MQTT_LEVEL_31 then AckV3 V3.BadUserNameOrPassword
  else if ver =? MQTT_LEVEL_311 then AckV3 V3.BadUserNameOrPassword
  else if ver =? MQTT_LEVEL_5 then AckV5 ConnectAckReasonM.BadUserNameOrPassword
  else AckV3 V3.BadUserNameOrPassword.
Definition ack_not_authorized (ver : Z) : AckReason :=
  if ver =? MQTT_LEVEL_31 then AckV3 V3.NotAuthorized
  else if ver =? MQTT_LEVEL_311 then AckV3 V3.NotAuthorized
  else if ver =? MQTT_LEVEL_5 then AckV5 ConnectAckReasonM.NotAuthorized
  else AckV3 V3.NotAuthorized.

Definition client_authenticate (c : ConnectInfo) (allow_anonymous : bool) (x : X)
    : (AckReason * bool * option AuthInfo) * X :=
  let ver := ci_proto_ver c in
  if bool_decide (ci_username c = None) && allow_anonymous then ((ack_ok ver, false, None), x)
  else
    let '(result, x) := run_hook (PClientAuthenticate c) x in
    (match result with
     | Some (HAuthResult AuthBadUsernameOrPassword) => (ack_bad_user ver, false, None)
     | Some (HAuthResult AuthNotAuthorized) => (ack_not_authorized ver, false, None)
     | Some (HAuthResult (AuthAllow superuser info)) => (ack_ok ver, superuser, info)
     | _ => if allow_anonymous then (ack_ok ver, false, None) else (ack_not_authorized ver, false, None)
     end, x).

Definition client_connack (c : ConnectInfo) (return_code : AckReason) (x : X) : AckReason * X :=
  let '(r, x) := run_hook (PClientConnack c return_code) x in
  (match r with Some (HConnectAckReason r) => r | _ => return_code end, x).

Definition manager_message_publish (s : option HookSession) (from : From) (p : BPublish) (x : X) : option BPublish * X :=
  let '(r, x) := run_hook (PMessagePublish s from p) x in
  (match r with Some (HPublish p) => Some p | _ => None end, x).

Definition message_dropped (to : option Id) (from : From) (p : BPublish) (r : Reason) (x : X) : X :=
  (run_hook (PMessageDropped to from p r) x).2.
Definition message_nonsubscribed (from : From) (x : X) : X := (run_hook (PMessageNonsubscribed from) x).2.

(** [DefaultHook]. *)
Context (s : HookSession).

Definition superuser_of : bool := default false (hs_superuser s).

Definition client_subscribe_check_acl (sub : Subscribe) (x : X) : option SubscribeReturn * X :=
  if superuser_of then (Some (SubscribeReturn_new_success (opts_qos (sub_opts sub)) None), x)
  else
    let '(r, x) := run_hook (PClientSubscribeCheckAcl s sub) x in
    (match r with Some (HSubscribeAclResult r) => Some r | _ => None end, x).

Definition message_publish_check_acl (p : BPublish) (x : X) : PublishResult.t * X :=
  if superuser_of then (acl_allow, x)
  else
    let '(r, x) := run_hook (PMessagePublishCheckAcl s p) x in
    (match r with Some (HPublishAclResult r) => r | _ => acl_allow end, x).

Definition client_subscribe (sub : Subscribe) (x : X) : option string * X :=
  let '(r, x) := run_hook (PClientSubscribe s sub) x in
  (match r with Some (HTopicFilter (Some tf)) => Some tf | _ => None end, x).
Definition client_unsubscribe (unsub : Unsubscribe) (x : X) : option string * X :=
  let '(r, x) := run_hook (PClientUnsubscribe s unsub) x in
  (match r with Some (HTopicFilter (Some tf)) => Some tf | _ => None end, x).

Definition message_publish (from : From) (p : BPublish) (x : X) : option BPublish * X :=
  manager_message_publish (Some s) from p x.
Definition message_delivered (from : From) (p : BPublish) (x : X) : option BPublish * X :=
  let '(r, x) := run_hook (PMessageDelivered s from p) x in
  (match r with Some (HPublish p) => Some p | _ => None end, x).

Definition message_expiry_check (now : Z) (from : From) (p : BPublish) (x : X) : MessageExpiryCheckResult * X :=
  let '(r, x) := run_hook (PMessageExpiryCheck s from p) x in
  (match r with
   | Some HMessageExpiry => Expiry
   | _ => check_expiry now (expiry_millis (hs_listen_cfg s) p) p
   end, x).
End hooks.
Arguments Handler : clear implicits.
Arguments DefaultHookManager : clear implicits.
Arguments HookEntry : clear implicits.

(** ** The handlers are kept in order *)

#[global] Instance key_lt_trans : Transitive key_lt.
Proof.
  intros a b c [?|[? ?]] [?|[? ?]]; [left; lia..|]. right. split; [lia|]. by eapply String_as_OT.lt_trans.
Qed.

Lemma key_compare_spec a b :
  match key_compare a b with Lt => key_lt a b | Eq => a = b | Gt => key_lt b a end.
Proof.
  unfold key_compare, key_lt. destruct a as [pa sa], b as [pb sb]. simpl. destruct (Z.compare_spec pa pb) as [->|?|?]; [|by left..].
  destruct (String_as_OT.cmp sa sb) eqn:Hc.
  - apply String_as_OT.cmp_eq in Hc. by subst.
  - right. split; [done|]. by apply String_as_OT.cmp_lt.
  - right. split; [done|]. apply String_as_OT.cmp_lt. rewrite String_as_OT.cmp_antisym, Hc. done.
Qed.

Section order.
Context {X : Type}.
Implicit Types (es : list (HookEntry X)) (m : DefaultHookManager X).

Definition entry_lt (a b : HookEntry X) : Prop := key_lt (he_key a) (he_key b).
Definition ordered es : Prop := StronglySorted entry_lt es.

Lemma elem_btree_insert e es x : x ∈ btree_insert e es -> x = e \/ x ∈ es.
Proof.
  induction es as [|y es IH]; simpl; [intros ->%list_elem_of_singleton; by left|].
  destruct (key_compare _ _); rewrite ?elem_of_cons; naive_solver.
Qed.

Lemma btree_insert_ordered e es : ordered es -> ordered (btree_insert e es).
Proof.
  unfold ordered. induction es as [|y es IH]; intros Hs; simpl; [repeat constructor|].
  apply StronglySorted_inv in Hs as [Hs Hy]. rewrite Forall_forall in Hy.
  pose proof (key_compare_spec (he_key e) (he_key y)) as Hc. destruct (key_compare _ _).
  - constructor; [done|]. apply Forall_forall. intros z Hz. unfold entry_lt. rewrite Hc. by apply Hy.
  - constructor; [constructor; [done|by apply Forall_forall]|]. constructor; [done|]. apply Forall_forall.
    intros z Hz. specialize (Hy z Hz). unfold entry_lt in *. by etransitivity.
  - constructor; [by apply IH|]. apply Forall_forall. intros z [-> |Hz]%elem_btree_insert; [done|by apply Hy].
Qed.

Lemma enable_ordered b k es : ordered es -> ordered (enable b k <$> es).
Proof.
  apply StronglySorted_fmap. intros e f. unfold entry_lt, enable. by repeat case_decide.
Qed.

Inductive op : Type :=
| Add (typ : HookType) (priority : Z) (id : string) (h : Handler X)
| Adjust (r : DefaultHookRegister) (b : bool).

Definition step m (o : op) : DefaultHookManager X :=
  match o with
  | Add typ priority id h => (manager_add m typ priority id h).2
  | Adjust r b => adjust_status m r b
  end.

Definition all_ordered m : Prop := forall t, ordered (handlers m t).

Lemma set_entries_ordered m t es : all_ordered m -> ordered es -> all_ordered (set_entries m t es).
Proof. intros Hm He t'. unfold set_entries. simpl. by case_decide. Qed.

Lemma step_ordered m o : all_ordered m -> all_ordered (step m o).
Proof.
  intros Hm. destruct o as [typ priority id h|r b]; simpl.
  - unfold manager_add. destruct (contains_key _ _); [done|]. simpl. apply set_entries_ordered; [done|].
    by apply btree_insert_ordered.
  - unfold adjust_status. revert m Hm. induction (type_ids r) as [|[typ k] l IH]; intros m Hm; [done|].
    simpl. apply IH, set_entries_ordered; [done|]. apply enable_ordered, Hm.
Qed.

Lemma steps_ordered ops m : all_ordered m -> all_ordered (foldl step m ops).
Proof. revert m. induction ops as [|o ops IH]; intros m Hm; [done|]. simpl. by apply IH, step_ordered. Qed.

(** ** What runs *)

(** The handlers all go on, one after the other: from the result and state
    before them to those behind them. *)
Inductive proceeding (p : Parameter_) : list (Handler X) -> option HookResult -> X -> option HookResult -> X -> Prop :=
| proceeding_nil acc x : proceeding p [] acc x acc x
| proceeding_cons h hs acc x acc1 x1 acc2 x2 :
    h p acc x = ((true, acc1), x1) -> proceeding p hs acc1 x1 acc2 x2 -> proceeding p (h :: hs) acc x acc2 x2.

Definition enabled_entries m (t : HookType) : list (HookEntry X) := filter (fun e => he_enabled e = true) (rev (handlers m t)).

Lemma exec_loop_filter es p acc x :
  exec_loop es p acc x = exec_loop (filter (fun e => he_enabled e = true) es) p acc x.
Proof.
  revert acc x. induction es as [|e es IH]; intros acc x; [done|]. rewrite filter_cons. cbn [exec_loop].
  destruct (he_enabled e) eqn:He; [|rewrite decide_False by done; apply IH]. rewrite decide_True by done. cbn [exec_loop].
  rewrite He. destruct (he_handler e p acc x) as [[[] r] x1]; [apply IH|done].
Qed.

Lemma exec_proceeding es p acc x acc' x' rest :
  Forall (fun e => he_enabled e = true) es ->
  proceeding p (he_handler <$> es) acc x acc' x' ->
  exec_loop (es ++ rest) p acc x = exec_loop rest p acc' x'.
Proof.
  revert acc x. induction es as [|e es IH]; intros acc x Hall Hp; inversion Hp as [|???? acc1 x1 ?? Hh Hps]; subst; [done|].
  apply Forall_cons in Hall as [He Hall]. simpl. rewrite He, Hh. by apply IH.
Qed.

Lemma StronglySorted_rev {A} (R : relation A) l : StronglySorted R l -> StronglySorted (flip R) (rev l).
Proof.
  induction 1 as [|x l Hs IH Hf]; simpl; [constructor|]. apply StronglySorted_app_2; [|done|repeat constructor].
  intros y z Hy Hz. apply list_elem_of_singleton in Hz as ->. rewrite Forall_forall in Hf. apply Hf.
  by apply list_elem_of_In, List.in_rev, list_elem_of_In.
Qed.

Lemma StronglySorted_filter {A} (R : relation A) (P : A -> Prop) `{!forall x, Decision (P x)} l :
  StronglySorted R l -> StronglySorted R (filter P l).
Proof.
  induction 1 as [|x l Hs IH Hf]; [constructor|]. rewrite filter_cons. case_decide; [|done].
  constructor; [done|]. rewrite Forall_forall in *. intros y [_ Hy]%list_elem_of_filter. by apply Hf.
Qed.

End order.

(** ** What the hooks decide *)

Section answers.
Context {X : Type} (m : DefaultHookManager X).

(** Each point has one name, and the name gives the point back. *)
Lemma hook_type_names t : exists name, (name, t) ∈ hook_types /\ HookType_from_str name = Ok t /\
  forall name', HookType_from_str name' = Ok t -> name' = name.
Proof.
  assert (Hn : forall s t', HookType_from_str s = Ok t' -> (s, t') ∈ hook_types).
  { intros s t'. unfold HookType_from_str. destruct (find _ _) as [[n u]|] eqn:Hf; [|done].
    apply find_some in Hf as [Hin Hb]. simpl in Hb. apply bool_decide_eq_true in Hb as ->. intros [= <-].
    by apply list_elem_of_In. }
  assert (Hone : exists name, (name, t) ∈ hook_types /\ HookType_from_str name = Ok t).
  { destruct t; eexists; (split; [unfold hook_types; repeat (apply list_elem_of_here || apply list_elem_of_further)|reflexivity]). }
  destruct Hone as (name & Hin & Hok). exists name. split_and!; [done|done|]. intros name' Hin'%Hn.
  assert (Hnd : NoDup hook_types.*2) by (apply (bool_decide_eq_true_1 _); vm_compute; reflexivity).
  apply list_elem_of_lookup in Hin as [i Hi]. apply list_elem_of_lookup in Hin' as [j Hj].
  assert (i = j) as <-.
  { eapply (NoDup_lookup _ i j t Hnd); rewrite list_lookup_fmap; [by rewrite Hi|by rewrite Hj]. }
  congruence.
Qed.

Definition accepted (ver : Z) (r : AckReason) : Prop := r = ack_ok ver.

Lemma refused_differs ver : ack_bad_user ver <> ack_ok ver /\ ack_not_authorized ver <> ack_ok ver.
Proof.
  unfold ack_bad_user, ack_not_authorized, ack_ok.
  by destruct (ver =? MQTT_LEVEL_31), (ver =? MQTT_LEVEL_311), (ver =? MQTT_LEVEL_5).
Qed.

(** Authentication. A client is let in where it gives no user name and
    anonymous clients are allowed; otherwise the handlers are asked, and it
    is let in exactly where they allow it, or, anonymous clients being
    allowed, where they say neither that its password is bad nor that it is
    not authorized. It is a superuser only if a handler says so, and a
    refused client has no access rules. *)
Theorem authenticate_sound (c : ConnectInfo) (allow_anonymous : bool) (x : X) :
  let '((ack, superuser, info), x') := client_authenticate m c allow_anonymous x in
  let said := (run_hook m (PClientAuthenticate c) x).1 in
  let anonymous := ci_username c = None /\ allow_anonymous = true in
  (accepted (ci_proto_ver c) ack <->
     anonymous \/ (exists s i, said = Some (HAuthResult (AuthAllow s i))) \/
     (allow_anonymous = true /\ said <> Some (HAuthResult AuthBadUsernameOrPassword) /\
      said <> Some (HAuthResult AuthNotAuthorized))) /\
  (superuser = true -> exists i, said = Some (HAuthResult (AuthAllow true i))) /\
  (info <> None -> accepted (ci_proto_ver c) ack /\ exists s, said = Some (HAuthResult (AuthAllow s info))) /\
  (anonymous -> x' = x).
Proof.
  unfold client_authenticate, accepted. destruct (refused_differs (ci_proto_ver c)) as [Hb Hn].
  destruct (bool_decide (ci_username c = None) && allow_anonymous) eqn:Ha.
  { apply andb_true_iff in Ha as [Hu%bool_decide_eq_true ->]. split_and!; [|done..]. split; [by left|done]. }
  assert (Hna : ~ (ci_username c = None /\ allow_anonymous = true)).
  { intros [Hu ->]. by rewrite bool_decide_eq_true_2 in Ha. }
  destruct (run_hook m (PClientAuthenticate c) x) as [said x']. cbn [fst].
  destruct said as [[l|[su info| | |]|r|tf|r|r|p|]|]; destruct allow_anonymous; split_and!; try done; naive_solver.
Qed.

(** Access control. For a superuser the handlers are not asked and
    everything is allowed. Otherwise a PUBLISH is refused exactly where the
    handlers' result is a refusal, with the code and the disconnect they
    say, and a SUBSCRIBE where it is a result with a failure; where they
    say nothing, both are allowed. *)
Theorem access_checks (s : HookSession) (p : BPublish) (sub : Subscribe) (x : X) :
  (hs_superuser s = Some true ->
     message_publish_check_acl m s p x = (acl_allow, x) /\
     client_subscribe_check_acl m s sub x = (Some (SubscribeReturn_new_success (opts_qos (sub_opts sub)) None), x)) /\
  (hs_superuser s <> Some true ->
     (forall r, (run_hook m (PMessagePublishCheckAcl s p) x).1 = Some (HPublishAclResult r) ->
        (message_publish_check_acl m s p x).1 = r) /\
     (acl_is_allow (message_publish_check_acl m s p x).1 = false <->
        exists r, (run_hook m (PMessagePublishCheckAcl s p) x).1 = Some (HPublishAclResult r) /\ acl_is_allow r = false) /\
     (forall r, (client_subscribe_check_acl m s sub x).1 = Some r <->
        (run_hook m (PClientSubscribeCheckAcl s sub) x).1 = Some (HSubscribeAclResult r))).
Proof.
  unfold message_publish_check_acl, client_subscribe_check_acl, superuser_of. split; [by intros ->|].
  intros Hs. destruct (default false (hs_superuser s)) eqn:Hd; [by destruct (hs_superuser s) as [[]|]|].
  destruct (run_hook m (PMessagePublishCheckAcl s p) x) as [r x1].
  destruct (run_hook m (PClientSubscribeCheckAcl s sub) x) as [r2 x2]. cbn [fst].
  split_and!.
  - by intros ? ->.
  - destruct r as [[]|]; cbn [fst]; (split; [try done; eauto|]); naive_solver.
  - intros a. destruct r2 as [[]|]; cbn [fst]; naive_solver.
Qed.

(** A manager without enabled handlers leaves everything as it is. *)
Lemma no_handlers_exec t p (x : X) :
  (forall e, e ∈ handlers m t -> he_enabled e = false) -> exec m t p x = (None, x).
Proof.
  intros Hd. unfold exec.
  assert (Hr : Forall (fun e => he_enabled e = false) (rev (handlers m t))).
  { apply Forall_forall. intros e He. apply Hd. by apply list_elem_of_In, List.in_rev, list_elem_of_In. }
  induction Hr as [|e es He _ IH]; simpl; [done|]. by rewrite He.
Qed.
End answers.
