(* ===== verification/AclBuiltin.v ===== *)
(** * The built-in access control: [builtins/acl.rs]

    An ordered list of rules, each with the users it is about, the
    operations and the topics. Rules may have placeholders for the client's
    id and user name, which are filled in when a client connects. *)

From stdpp Require Import prelude list strings gmap.
From Stdlib Require Import ZArith Lia.
From S2P Require Import Prelude CodecTypes CodecV3 CodecV5Types Topic Trie BrokerTypes Subscription Connection Fitter Session Json Acl Hook.

Local Open Scope Z_scope.
Local Open Scope try_scope.

Module AclPlugin.

(** ** Configuration *)

Inductive Access : Type := AccessAllow | AccessDeny.

#[global] Instance Access_eq_dec : EqDecision Access.
Proof. solve_decision. Defined.

Inductive User : Type :=
| Username (name : bytes) (password : option bytes) (superuser : bool)
| Clientid (client : bytes)
| Ipaddr (ip : string)
| UserProtocol (protocol : Z)
| AllUsers.

Inductive Control : Type := ControlAll | ControlConnect | ControlPublish | ControlSubscribe | ControlPubsub.

Record Topics : Type := mkTopics {
  all : bool;
  eqs : gset string;
  eq_placeholders : list string;
  tree : Trie.Node (option bytes);
  placeholders : list string;
}.

Record Rule : Type := mkRule { access : Access; users : list User; control : Control; topics : Topics }.

Inductive ConfigError : Type :=
| BadConfig (cfg : Json)
| BadTopic (e : TopicError).

Definition Access_try_from (j : Json) : outcome ConfigError Access :=
  match as_str j with
  | None => Err (BadConfig j)
  | Some s =>
      if bool_decide (to_lowercase s = "allow") then Ok AccessAllow
      else if bool_decide (to_lowercase s = "deny") then Ok AccessDeny else Err (BadConfig j)
  end.

Definition username_of (a : Access) (name : string) (password superuser : option Json) (j : Json)
    : outcome ConfigError (list User) :=
  match a with
  | AccessAllow =>
      match password with
      | Some (JString p) => Ok [Username (text name) (Some (text p)) (default false (superuser ≫= as_bool))]
      | None => Ok [Username (text name) None (default false (superuser ≫= as_bool))]
      | Some _ => Err (BadConfig j)
      end
  | AccessDeny => Ok [Username (text name) None false]
  end.

Definition users_try_from (j : Json) (a : Access) : outcome ConfigError (list User) :=
  match j with
  | JString s => if bool_decide (to_lowercase s = "all") then Ok [AllUsers] else Err (BadConfig j)
  | JObject map =>
      try! names :=
        match json_get "user" map ≫= as_str with
        | Some name => username_of a name (json_get "password" map) (json_get "superuser" map) j
        | None => Ok []
        end in
      Ok (names ++ option_list (Clientid ∘ text <$> (json_get "clientid" map ≫= as_str))
                ++ option_list (Ipaddr <$> (json_get "ipaddr" map ≫= as_str))
                ++ option_list ((fun n => UserProtocol (n mod 256)) <$> (json_get "protocol" map ≫= as_u64)))
  | _ => Err (BadConfig j)
  end.

Definition Control_try_from (j : option Json) : outcome ConfigError Control :=
  match j with
  | None => Ok ControlAll
  | Some (JString s) =>
      let s' := to_lowercase s in
      if bool_decide (s' = "connect") then Ok ControlConnect
      else if bool_decide (s' = "publish") then Ok ControlPublish
      else if bool_decide (s' = "subscribe") then Ok ControlSubscribe
      else if bool_decide (s' = "pubsub") then Ok ControlPubsub
      else if bool_decide (s' = "all") then Ok ControlAll
      else Err (BadConfig (JString s))
  | Some j => Err (BadConfig j)
  end.

Definition PH_C : string := "%c".
Definition PH_U : string := "%u".
Definition has_placeholder (s : string) : bool := contains PH_U s || contains PH_C s.

Definition no_topics : Topics := mkTopics false ∅ [] Trie.Node_default [].

Definition insert_filter (t : Topics) (f : Topic) (v : option bytes) : Topics :=
  mkTopics (all t) (eqs t) (eq_placeholders t) (Trie.insert (tree t) f v).2 (placeholders t).
Definition insert_eq (t : Topics) (s : string) : Topics :=
  mkTopics (all t) ({[s]} ∪ eqs t) (eq_placeholders t) (tree t) (placeholders t).

Definition add_topic_cfg (cfg : Json) (t : Topics) (topic : Json) : outcome ConfigError Topics :=
  match topic with
  | JString s =>
      if has_placeholder s then Ok (mkTopics (all t) (eqs t) (eq_placeholders t) (tree t) (placeholders t ++ [s]))
      else try! f := map_err BadTopic (Topic_from_str s) in Ok (insert_filter t f None)
  | JObject map =>
      match json_get "eq" map with
      | Some (JString s) =>
          if has_placeholder s then Ok (mkTopics (all t) (eqs t) (eq_placeholders t ++ [s]) (tree t) (placeholders t))
          else Ok (insert_eq t s)
      | _ => Err (BadConfig cfg)
      end
  | _ => Err (BadConfig cfg)
  end.

Fixpoint add_topics_cfg (cfg : Json) (l : list Json) (t : Topics) : outcome ConfigError Topics :=
  match l with
  | [] => Ok t
  | j :: l => try! t := add_topic_cfg cfg t j in add_topics_cfg cfg l t
  end.

Definition Topics_try_from (j : option Json) : outcome ConfigError Topics :=
  match j with
  | None => Ok (mkTopics true ∅ [] Trie.Node_default [])
  | Some (JArray l) => add_topics_cfg (JArray l) l no_topics
  | Some j => Err (BadConfig j)
  end.

Definition Rule_try_from (j : Json) : outcome ConfigError Rule :=
  match j with
  | JArray items =>
      try! access_cfg := ok_or (BadConfig j) (items !! 0%nat) in
      try! user_cfg := ok_or (BadConfig j) (items !! 1%nat) in
      try! access := Access_try_from access_cfg in
      try! users := users_try_from user_cfg access in
      try! control := Control_try_from (items !! 2%nat) in
      try! topics := Topics_try_from (items !! 3%nat) in
      Ok (mkRule access users control topics)
  | _ => Err (BadConfig j)
  end.

Fixpoint parse_each (l : list Json) : outcome ConfigError (list Rule) :=
  match l with
  | [] => Ok []
  | j :: l => try! r := Rule_try_from j in try! rs := parse_each l in Ok (r :: rs)
  end.

Definition parse_rules (j : Json) : outcome ConfigError (list Rule) :=
  match j with JArray l => parse_each l | _ => Ok [] end.

(** [rules_default]. *)
Definition default_cfg : Json :=
  JArray [
    JArray [JString "allow"; JObject [("user", JString "dashboard")]; JString "subscribe"; JArray [JString "$SYS/#"]];
    JArray [JString "allow"; JObject [("ipaddr", JString "127.0.0.1")]; JString "pubsub"; JArray [JString "$SYS/#"; JString "#"]];
    JArray [JString "deny"; JString "all"; JString "subscribe"; JArray [JString "$SYS/#"; JObject [("eq", JString "#")]]];
    JArray [JString "allow"; JString "all"]].

(** ** Whether a rule is about a client *)

Section acl.
(** [IpAddr::to_string]. *)
Context (ip_text : bytes -> string).

Definition user_hit (u : User) (id : Id) (password : option bytes) (protocol : option Z) (allow : bool)
    : bool * bool :=
  match u with
  | AllUsers => (true, false)
  | Username name1 password1 superuser =>
      match username id, password, password1, allow with
      | Some name2, Some password2, Some password1, true =>
          (bool_decide (name1 = name2) && bool_decide (password1 = password2), superuser)
      | Some name2, Some _, Some _, false => (bool_decide (name1 = name2), false)
      | Some name2, _, None, true => (bool_decide (name1 = name2), superuser)
      | Some name2, _, None, false => (bool_decide (name1 = name2), false)
      | Some _, None, Some _, _ => (false, false)
      | None, _, _, _ => (false, false)
      end
  | Clientid client => (bool_decide (client_id id = client), false)
  | Ipaddr a =>
      match remote_addr id with
      | Some addr => (bool_decide (a = ip_text (ip addr)), false)
      | None => (false, false)
      end
  | UserProtocol p =>
      match protocol with Some p' => (p' =? p, false) | None => (false, false) end
  end.

(** The superuser flag is that of the last user. *)
Fixpoint users_hit (us : list User) (id : Id) (password : option bytes) (protocol : option Z) (allow superuser : bool)
    : bool * bool :=
  match us with
  | [] => (true, superuser)
  | u :: us =>
      let '(hit, su) := user_hit u id password protocol allow in
      if hit then users_hit us id password protocol allow su else (false, false)
  end.

Definition rule_hit (r : Rule) (id : Id) (password : option bytes) (protocol : option Z) (allow : bool) : bool * bool :=
  users_hit (users r) id password protocol allow false.

(** ** Whether its topics match *)

Definition tree_matches (n : Trie.Node (option bytes)) (topic : Topic) : list (Topic * gset (option bytes)) :=
  default [] (Trie.collect (S (length (Trie.walk n topic []))) (S (length topic)) (Trie.matches n topic)).

Definition cid_matches (client : bytes) (cid : option bytes) : bool :=
  match cid with Some c => bool_decide (c = client) | None => true end.

Definition topics_match (t : Topics) (topic : Topic) (topic_str : string) (client : bytes) : bool :=
  all t || bool_decide (topic_str ∈ eqs t) ||
  existsb (fun '(_, values) => existsb (cid_matches client) (elements values)) (tree_matches (tree t) topic).

(** ** Placeholders *)

Definition set_rule_topics (r : Rule) (t : Topics) : Rule := mkRule (access r) (users r) (control r) t.

Definition add_topic_filter (r : Rule) (topic_filter : string) (client : bytes) : outcome TopicError unit * Rule :=
  match Topic_from_str topic_filter with
  | Ok t => (Ok tt, set_rule_topics r (insert_filter (topics r) t (Some client)))
  | Err e => (Err e, r) | Panic => (Panic, r) | Diverged => (Diverged, r)
  end.

Definition remove_filter (t : Topics) (f : Topic) (v : option bytes) : Topics :=
  mkTopics (all t) (eqs t) (eq_placeholders t) (Trie.remove (tree t) f v).2 (placeholders t).

Definition client_filters (n : Trie.Node (option bytes)) (t : Topic) (client : bytes) : list Topic :=
  tree_matches n t ≫= fun '(f, values) =>
    omap (fun cid => if bool_decide (cid = Some client) then Some f else None) (elements values).

Definition remove_topic (r : Rule) (topic : string) (client : bytes) : outcome TopicError unit * Rule :=
  match Topic_from_str topic with
  | Ok t =>
      (Ok tt, set_rule_topics r
         (foldl (fun t f => remove_filter t f (Some client)) (topics r) (client_filters (tree (topics r)) t client)))
  | Err e => (Err e, r) | Panic => (Panic, r) | Diverged => (Diverged, r)
  end.

Definition fill (id : Id) (s : string) : string :=
  replace PH_U (default "" (str <$> username id)) (replace PH_C (str (client_id id)) s).

(** [build_placeholders], for one rule: the errors are only logged. The
    filters added are cached in the session. *)
Definition build_filters (id : Id) (r : Rule) : Rule :=
  foldl (fun r ph => (add_topic_filter r (fill id ph) (client_id id)).2) r (placeholders (topics r)).
Definition build_eqs (id : Id) (r : Rule) : Rule :=
  foldl (fun r ph => set_rule_topics r (insert_eq (topics r) (fill id ph))) r (eq_placeholders (topics r)).

Definition on_connected (rs : list Rule) (id : Id) (cache : list string) : list Rule * list string :=
  (build_eqs id ∘ build_filters id <$> rs,
   cache ++ (rs ≫= fun r => fill id <$> placeholders (topics r))).

Definition on_disconnected (rs : list Rule) (id : Id) (cache : list string) : list Rule :=
  foldl (fun rs tf => (fun r => (remove_topic r tf (client_id id)).2) <$> rs) rs cache.

(** ** The handler *)

Definition is_allow (r : Rule) : bool := bool_decide (access r = AccessAllow).

Definition for_connect (c : Control) : bool := match c with ControlConnect | ControlAll => true | _ => false end.
Definition connect_hit (c : ConnectInfo) (r : Rule) : bool * bool :=
  rule_hit r (ci_id c) (ci_password c) (Some (ci_proto_ver c)) (is_allow r).

Definition on_authenticate (rs : list Rule) (c : ConnectInfo) (acc : option HookResult) : ReturnType :=
  match acc with
  | Some (HAuthResult AuthBadUsernameOrPassword) | Some (HAuthResult AuthNotAuthorized) => (false, acc)
  | _ =>
      match List.find (fun r => for_connect (control r) && (connect_hit c r).1) rs with
      | Some r =>
          if is_allow r then (false, Some (HAuthResult (AuthAllow (connect_hit c r).2 None)))
          else (false, Some (HAuthResult AuthNotAuthorized))
      | None => (false, Some (HAuthResult AuthNotAuthorized))
      end
  end.

Definition session_hit (s : HookSession) (r : Rule) : bool :=
  (rule_hit r (hs_id s) (hs_password s) (hs_protocol s) (is_allow r)).1.

Definition parsed (s : string) : Topic := match Topic_from_str s with Ok t => t | _ => [] end.

Definition rule_matches (s : HookSession) (controlled : Control -> bool) (topic : string) (r : Rule) : bool :=
  controlled (control r) && session_hit s r && topics_match (topics r) (parsed topic) topic (client_id (hs_id s)).

Definition for_subscribe (c : Control) : bool :=
  match c with ControlSubscribe | ControlPubsub | ControlAll => true | _ => false end.
Definition for_publish (c : Control) : bool :=
  match c with ControlPublish | ControlPubsub | ControlAll => true | _ => false end.

Definition on_subscribe (rs : list Rule) (s : HookSession) (sub : Subscribe) (acc : option HookResult) : ReturnType :=
  let refused := (false, Some (HSubscribeAclResult (SubscribeReturn_new_failure SubscribeAckReasonM.UnspecifiedError))) in
  let decide_ :=
    match List.find (rule_matches s for_subscribe (sub_filter sub)) rs with
    | Some r =>
        if is_allow r
        then (false, Some (HSubscribeAclResult (SubscribeReturn_new_success (opts_qos (sub_opts sub)) None)))
        else refused
    | None => refused
    end in
  match acc with
  | Some (HSubscribeAclResult r) => if SubscribeReturn_failure r then (false, acc) else decide_
  | _ => decide_
  end.

Definition on_publish (rs : list Rule) (disconnect_if_pub_rejected : bool) (s : HookSession) (p : Publish)
    (acc : option HookResult) : ReturnType :=
  let decide_ :=
    match List.find (rule_matches s for_publish (str (topic p))) rs with
    | Some r => if is_allow r then publish_allowed else publish_rejected disconnect_if_pub_rejected
    | None => publish_rejected disconnect_if_pub_rejected
    end in
  match acc with
  | Some (HPublishAclResult r) => if negb (acl_is_allow r) then (false, acc) else decide_
  | _ => decide_
  end.

(** [AclHandler::hook]: the state is the rules and the filters cached in
    the session. The task that [ClientConnected] spawns is run at once. *)
Definition hook (disconnect_if_pub_rejected : bool) : Handler (list Rule * list string) := fun param acc st =>
  let '(rs, cache) := st in
  match param with
  | PClientConnected s => ((true, acc), on_connected rs (hs_id s) cache)
  | PClientDisconnected s _ => ((true, acc), (on_disconnected rs (hs_id s) cache, cache))
  | PClientAuthenticate c => (on_authenticate rs c acc, st)
  | PClientSubscribeCheckAcl s sub => (on_subscribe rs s sub acc, st)
  | PMessagePublishCheckAcl s p => (on_publish rs disconnect_if_pub_rejected s (BPublish.inner p) acc, st)
  | _ => ((true, acc), st)
  end.

(** [init]: the handler at five points; [ids] are the fresh ids. *)
Definition init (m : DefaultHookManager (list Rule * list string)) (priority : Z) (disconnect_if_pub_rejected : bool)
    (ids : nat -> string) : DefaultHookManager (list Rule * list string) :=
  let h := hook disconnect_if_pub_rejected in
  let '(m, r) := add_priority m register_new ClientConnected priority (ids 0%nat) h in
  let '(m, r) := add_priority m r ClientDisconnectedHook priority (ids 1%nat) h in
  let '(m, r) := add_priority m r ClientAuthenticate priority (ids 2%nat) h in
  let '(m, r) := add_priority m r ClientSubscribeCheckAcl priority (ids 3%nat) h in
  let '(m, r) := add_priority m r MessagePublishCheckAcl priority (ids 4%nat) h in
  start m r.
End acl.

(** ** What the topic tree finds, for topics and for filters

    A subscription is looked up like a topic: its wildcards are levels like
    any other. *)

Section reach.
Context {V : Type} `{Countable V}.
Implicit Types (n : Trie.Node V) (path q sp : list Level).

(** The filters that a path finds; [top] is whether it starts there. *)
Fixpoint reach (top : bool) path q : Prop :=
  match path with
  | [] => q = [] \/ q = [MultiWildcard]
  | p0 :: rest =>
      (top && Level_is_metadata p0 = false /\
        (q = [MultiWildcard] \/ exists q', q = SingleWildcard :: q' /\ reach false rest q')) \/
      exists q', q = p0 :: q' /\ reach false rest q'
  end.

Lemma reach_self top path : reach top path path.
Proof. revert top. induction path as [|l path IH]; intros top; simpl; eauto. Qed.

Lemma elem_walk_child n rest sp l fs vs :
  (forall c, (fs, vs) ∈ Trie.walk c rest (sp ++ [l]) <->
     exists q, fs = (sp ++ [l]) ++ q /\ reach false rest q /\ vs = Trie.lookup_path c q /\ vs <> ∅) ->
  (fs, vs) ∈ Trie.walk_child n rest sp l <->
    exists q, fs = sp ++ l :: q /\ reach false rest q /\ vs = Trie.lookup_path n (l :: q) /\ vs <> ∅.
Proof.
  intros IH. unfold Trie.walk_child. simpl. destruct (Trie.branches n !! l) as [c|].
  - rewrite IH. setoid_rewrite <- app_assoc. done.
  - split; [by intros ?%not_elem_of_nil|]. intros (q & _ & _ & -> & Hne). done.
Qed.

Lemma elem_walk n path sp fs vs :
  (fs, vs) ∈ Trie.walk n path sp <->
  exists q, fs = sp ++ q /\ reach (bool_decide (sp = [])) path q /\ vs = Trie.lookup_path n q /\ vs <> ∅.
Proof.
  revert n sp fs vs. induction path as [|p0 rest IH]; intros n sp fs vs.
  { simpl. rewrite elem_of_app, Trie.elem_opt_item, Trie.elem_hash_items. split.
    - intros [(-> & -> & Hne)|(-> & -> & Hne)]; [exists []; rewrite app_nil_r|exists [MultiWildcard]]; auto.
    - intros (q & -> & [-> | ->] & -> & Hne); rewrite ?app_nil_r; auto. }
  rewrite Trie.walk_step, elem_of_app.
  assert (Hc : forall l, (fs, vs) ∈ Trie.walk_child n rest sp l <->
    exists q, fs = sp ++ l :: q /\ reach false rest q /\ vs = Trie.lookup_path n (l :: q) /\ vs <> ∅).
  { intros l. apply elem_walk_child. intros c. rewrite IH. by rewrite bool_decide_eq_false_2 by (by destruct sp). }
  rewrite Hc. cbn [reach]. destruct (bool_decide (sp = []) && Level_is_metadata p0).
  - rewrite elem_of_nil. naive_solver.
  - rewrite elem_of_app, Trie.elem_hash_items, Hc. naive_solver.
Qed.
End reach.

Lemma tree_matches_walk n tp : tree_matches n tp = Trie.walk n tp [].
Proof. unfold tree_matches. by rewrite Trie.collect_walk by lia. Qed.

Lemma cid_matches_spec client cid : cid_matches client cid = true <-> cid = None \/ cid = Some client.
Proof. destruct cid; simpl; rewrite ?bool_decide_eq_true; naive_solver. Qed.

Lemma existsb_elem {A} (f : A -> bool) l : existsb f l = true <-> exists x, x ∈ l /\ f x = true.
Proof. rewrite existsb_exists. by setoid_rewrite list_elem_of_In. Qed.

(** Whether a topic or filter is let through by the topics of a rule. *)
Definition reaches (t : Topics) (tp : Topic) (s : string) (client : bytes) : Prop :=
  all t = true \/ s ∈ eqs t \/
  exists q cid, cid ∈ Trie.lookup_path (tree t) q /\ reach true tp q /\ (cid = None \/ cid = Some client).

Lemma topics_match_reach t tp s client : topics_match t tp s client = true <-> reaches t tp s client.
Proof.
  unfold topics_match, reaches. rewrite !orb_true_iff, bool_decide_eq_true, existsb_elem, tree_matches_walk.
  assert (Hor : forall P Q R R' : Prop, (R <-> R') -> (P \/ Q) \/ R <-> P \/ Q \/ R') by tauto.
  apply Hor. split.
  - intros ([fs vs] & (q & -> & Hr & -> & _)%elem_walk & Hc). apply existsb_elem in Hc as (cid & Hin & Hc).
    exists q, cid. by rewrite <- cid_matches_spec, <- elem_of_elements.
  - intros (q & cid & Hin & Hr & Hc). exists (q, Trie.lookup_path (tree t) q). split.
    + apply elem_walk. exists q. split_and!; try done. set_solver.
    + apply existsb_elem. exists cid. by rewrite cid_matches_spec, elem_of_elements.
Qed.

(** For a topic name, the filters that the rules of MQTT match. *)
Lemma reach_match tp q :
  wildcard_free tp -> reach true tp q <-> hash_last q = true /\ mqtt_match_levels q tp = true.
Proof.
  intros Hw. set (n := (Trie.insert_path Trie.Node_default q tt).2).
  assert (Hq : Trie.lookup_path n q = {[tt]}).
  { unfold n. rewrite Trie.insert_path_lookup, decide_True, Trie.lookup_path_default by done. set_solver. }
  pose proof (elem_walk n tp [] q {[tt]}) as He. rewrite Trie.walk_elem in He by done.
  unfold mqtt_match_levels, mqtt_match. rewrite andb_true_iff. split.
  - intros Hr. destruct (proj2 He) as (q' & -> & [? ?] & _ & _ & Hd); [by exists q|]. auto.
  - intros (Hl & Hd & Hm). destruct (proj1 He) as (q' & -> & ? & _); [by exists q|done].
Qed.

(** ** The first rule decides *)

Lemma find_first_of {A} (f : A -> bool) l x : List.find f l = Some x <-> first_of (fun y => f y = true) l x.
Proof.
  induction l as [|y l IH]; simpl; [split; [done|by intros ?%first_of_nil]|].
  rewrite first_of_cons. destruct (f y); [|rewrite IH]; naive_solver.
Qed.

Lemma find_all {A} (f : A -> bool) l : List.find f l = None <-> forall x, x ∈ l -> f x <> true.
Proof.
  induction l as [|y l IH]; simpl; [split; [by intros _ ? ?%not_elem_of_nil|done]|].
  rewrite all_cons. destruct (f y); [naive_solver|]. rewrite IH. naive_solver.
Qed.

Lemma first_of_iff {A} (P Q : A -> Prop) l x : (forall y, P y <-> Q y) -> first_of P l x <-> first_of Q l x.
Proof. unfold first_of. intros H. by setoid_rewrite H. Qed.

Section decides.
Context (ip_text : bytes -> string).

(** A rule is about a client if all its user conditions hold. *)
Definition about (r : Rule) (id : Id) (password : option bytes) (protocol : option Z) : Prop :=
  Forall (fun u => (user_hit ip_text u id password protocol (is_allow r)).1 = true) (users r).

Lemma users_hit_about us id password protocol allow su :
  (users_hit ip_text us id password protocol allow su).1 = true <->
  Forall (fun u => (user_hit ip_text u id password protocol allow).1 = true) us.
Proof.
  revert su. induction us as [|u us IH]; intros su; simpl; [by split; [constructor|]|].
  rewrite Forall_cons. destruct (user_hit ip_text u id password protocol allow) as [[] su']; simpl; [rewrite IH|];
    naive_solver.
Qed.

(** The superuser flag of a rule with user conditions is that of the last. *)
Lemma users_hit_superuser us u id password protocol allow su :
  (users_hit ip_text (us ++ [u]) id password protocol allow su).1 = true ->
  (users_hit ip_text (us ++ [u]) id password protocol allow su).2 = (user_hit ip_text u id password protocol allow).2.
Proof.
  revert su. induction us as [|u' us IH]; intros su; simpl.
  - by destruct (user_hit ip_text u id password protocol allow) as [[] su'].
  - destruct (user_hit ip_text u' id password protocol allow) as [[] su']; [apply IH|done].
Qed.

Definition about_session (s : HookSession) (r : Rule) : Prop := about r (hs_id s) (hs_password s) (hs_protocol s).

(** The rules that decide a connection, a SUBSCRIBE and a PUBLISH. *)
Definition decides_connect (c : ConnectInfo) (r : Rule) : Prop :=
  for_connect (control r) = true /\ about r (ci_id c) (ci_password c) (Some (ci_proto_ver c)).
Definition decides_subscribe (s : HookSession) (filter : Topic) (sub : Subscribe) (r : Rule) : Prop :=
  for_subscribe (control r) = true /\ about_session s r /\
  reaches (topics r) filter (sub_filter sub) (client_id (hs_id s)).
Definition covers (t : Topics) (name : Topic) (s : string) (client : bytes) : Prop :=
  all t = true \/ s ∈ eqs t \/
  exists q cid, cid ∈ Trie.lookup_path (tree t) q /\ hash_last q = true /\ mqtt_match_levels q name = true /\
    (cid = None \/ cid = Some client).
Definition decides_publish (s : HookSession) (name : Topic) (p : Publish) (r : Rule) : Prop :=
  for_publish (control r) = true /\ about_session s r /\
  covers (topics r) name (str (topic p)) (client_id (hs_id s)).

Lemma rule_matches_reach s controlled str_ tp r :
  Topic_from_str str_ = Ok tp ->
  rule_matches ip_text s controlled str_ r = true <->
  controlled (control r) = true /\ about_session s r /\ reaches (topics r) tp str_ (client_id (hs_id s)).
Proof.
  intros Htp. unfold rule_matches, session_hit, rule_hit, parsed. rewrite Htp.
  rewrite !andb_true_iff, topics_match_reach, users_hit_about. unfold about_session, about. tauto.
Qed.

Lemma reaches_covers t tp s client : wildcard_free tp -> reaches t tp s client <-> covers t tp s client.
Proof. intros Hw. unfold reaches, covers. setoid_rewrite (reach_match tp); naive_solver. Qed.

Definition verdict {A} (accept refuse : A) (r : option Rule) : A :=
  match r with Some r => if is_allow r then accept else refuse | None => refuse end.

Definition first_or_none {A} (P : A -> Prop) (l : list A) (o : option A) : Prop :=
  match o with Some x => first_of P l x | None => forall x, x ∈ l -> ~ P x end.

Lemma find_first_or_none {A} (f : A -> bool) (P : A -> Prop) l o :
  (forall x, f x = true <-> P x) -> first_or_none P l o <-> List.find f l = o.
Proof.
  intros Hf. destruct o; simpl; [rewrite find_first_of|rewrite find_all].
  - apply first_of_iff. naive_solver.
  - naive_solver.
Qed.

(** What an earlier handler has refused stays refused. *)
Definition auth_refused (acc : option HookResult) : bool :=
  match acc with
  | Some (HAuthResult AuthBadUsernameOrPassword) | Some (HAuthResult AuthNotAuthorized) => true
  | _ => false
  end.
Definition subscribe_refused (acc : option HookResult) : bool :=
  match acc with Some (HSubscribeAclResult r) => SubscribeReturn_failure r | _ => false end.
Definition publish_refused (acc : option HookResult) : bool :=
  match acc with Some (HPublishAclResult r) => negb (acl_is_allow r) | _ => false end.

Definition rule_superuser (c : ConnectInfo) (o : option Rule) : bool :=
  match o ≫= fun r => last (users r) with
  | Some u => (user_hit ip_text u (ci_id c) (ci_password c) (Some (ci_proto_ver c)) true).2
  | None => false
  end.

Definition sub_refusal : SubscribeReturn := SubscribeReturn_new_failure SubscribeAckReasonM.UnspecifiedError.

Lemma rule_hit_superuser r id password protocol allow :
  (rule_hit ip_text r id password protocol allow).1 = true ->
  (rule_hit ip_text r id password protocol allow).2 =
    match last (users r) with Some u => (user_hit ip_text u id password protocol allow).2 | None => false end.
Proof.
  unfold rule_hit. destruct (users r) as [|u us _] using rev_ind; [done|].
  rewrite last_snoc. apply users_hit_superuser.
Qed.

Lemma connect_superuser c r :
  (connect_hit ip_text c r).1 = true -> is_allow r = true ->
  (connect_hit ip_text c r).2 = rule_superuser c (Some r).
Proof. unfold connect_hit, rule_superuser. intros Hr Ha. rewrite Ha in *. by rewrite rule_hit_superuser. Qed.

Lemma connect_hit_decides c r :
  for_connect (control r) && (connect_hit ip_text c r).1 = true <-> decides_connect c r.
Proof. unfold decides_connect, about, connect_hit, rule_hit. by rewrite andb_true_iff, users_hit_about. Qed.

(** C20. The built-in rules: unless an earlier handler has refused it, a
    connection, SUBSCRIBE or PUBLISH is decided by the first rule that is
    about the operation and the client (all its user conditions hold) and
    covers the topic, and refused if there is none. A rule covers a topic
    name if it has no topics, or the topic literally, or a filter that
    matches by the rules of MQTT, either for all clients or, from a
    placeholder, for this one. *)
Theorem builtin_acl_first_rule (rs : list Rule) (c : ConnectInfo) (s : HookSession) (sub : Subscribe) (filter : Topic)
    (p : Publish) (name : Topic) (disconnect : bool) (acc : option HookResult) (o : option Rule) :
  Topic_from_str (sub_filter sub) = Ok filter ->
  Topic_from_str (str (topic p)) = Ok name -> wildcard_free name ->
  (first_or_none (decides_connect c) rs o ->
     on_authenticate ip_text rs c acc =
       if auth_refused acc then (false, acc)
       else (false, Some (HAuthResult (verdict (AuthAllow (rule_superuser c o) None) AuthNotAuthorized o)))) /\
  (first_or_none (decides_subscribe s filter sub) rs o ->
     on_subscribe ip_text rs s sub acc =
       if subscribe_refused acc then (false, acc)
       else (false, Some (HSubscribeAclResult
               (verdict (SubscribeReturn_new_success (opts_qos (sub_opts sub)) None) sub_refusal o)))) /\
  (first_or_none (decides_publish s name p) rs o ->
     on_publish ip_text rs disconnect s p acc =
       if publish_refused acc then (false, acc) else verdict publish_allowed (publish_rejected disconnect) o).
Proof.
  intros Hf Hn Hw. split_and!; intros Ho.
  - eapply find_first_or_none in Ho; [|intros x; apply connect_hit_decides].
    unfold on_authenticate. rewrite Ho. destruct o as [r|]; simpl; [|by destruct acc as [[]|]; try case_match].
    apply find_first_of in Ho as (? & ? & _ & [_ Hr]%andb_true_iff & _).
    unfold auth_refused. destruct (is_allow r) eqn:Ha; [rewrite (connect_superuser c r) by done|]; by repeat case_match.
  - eapply (find_first_or_none (rule_matches ip_text s for_subscribe _)) in Ho; [|intros x; by apply rule_matches_reach].
    unfold on_subscribe, subscribe_refused. rewrite Ho.
    destruct o as [r|]; [simpl; destruct (is_allow r)|]; by destruct acc as [[]|].
  - eapply (find_first_or_none (rule_matches ip_text s for_publish _)) in Ho;
      [|intros x; rewrite rule_matches_reach, reaches_covers by done; done].
    unfold on_publish, publish_refused. rewrite Ho.
    destruct o as [r|]; [simpl; destruct (is_allow r)|]; destruct acc as [[]|]; by try case_match.
Qed.
End decides.

(** ** Placeholders *)

(** [t] differs from [t0] only in the filters it has for [client], which are
    among [own]. *)
Record extends (client : bytes) (own : list Topic) (t0 t : Topics) : Prop := mkExtends {
  ext_all : all t = all t0;
  ext_eqs : eqs t = eqs t0;
  ext_eq_placeholders : eq_placeholders t = eq_placeholders t0;
  ext_placeholders : placeholders t = placeholders t0;
  ext_pruned : Trie.pruned (tree t);
  ext_others : forall q cid, cid <> Some client ->
    cid ∈ Trie.lookup_path (tree t) q <-> cid ∈ Trie.lookup_path (tree t0) q;
  ext_own : forall q, Some client ∈ Trie.lookup_path (tree t) q <-> q ∈ own;
}.

Lemma extends_ext client own own' t0 t :
  (forall q, q ∈ own <-> q ∈ own') -> extends client own t0 t -> extends client own' t0 t.
Proof. intros Ho [? ? ? ? ? ? Hq]. split; try done. intros q. by rewrite Hq, Ho. Qed.

Lemma extends_insert client own t0 t f :
  extends client own t0 t -> extends client (f :: own) t0 (insert_filter t f (Some client)).
Proof.
  intros [? ? ? ? ? Ho Hq]. split; simpl; try done.
  - by apply Trie.insert_path_pruned.
  - intros q cid Hc. unfold Trie.insert. rewrite Trie.insert_path_lookup, <- Ho by done. case_decide; set_solver.
  - intros q. unfold Trie.insert. rewrite Trie.insert_path_lookup, elem_of_cons, <- Hq. case_decide; set_solver.
Qed.

Lemma extends_remove client own t0 t f :
  extends client own t0 t -> extends client (base.filter (fun q => q <> f) own) t0 (remove_filter t f (Some client)).
Proof.
  intros [? ? ? ? ? Ho Hq]. split; simpl; try done.
  - by apply Trie.remove_path_pruned.
  - intros q cid Hc. unfold Trie.remove. rewrite Trie.remove_path_lookup, <- Ho by done. case_decide; set_solver.
  - intros q. unfold Trie.remove. rewrite Trie.remove_path_lookup, list_elem_of_filter, <- Hq. case_decide; set_solver.
Qed.

Lemma extends_removes client own t0 t fs :
  extends client own t0 t ->
  extends client (base.filter (fun q => q ∉ fs) own) t0 (foldl (fun t f => remove_filter t f (Some client)) t fs).
Proof.
  revert own t. induction fs as [|f fs IH]; intros own t He; simpl.
  - eapply extends_ext; [|done]. intros q. rewrite list_elem_of_filter, elem_of_nil. tauto.
  - eapply extends_ext, IH, extends_remove, He. intros q. rewrite !list_elem_of_filter, elem_of_cons. naive_solver.
Qed.

(** With none of the client's filters, nothing is left of it. *)
Lemma extends_nil client own t0 t :
  extends client own t0 t -> (forall q, q ∉ own) -> Trie.pruned (tree t0) ->
  (forall q, Some client ∉ Trie.lookup_path (tree t0) q) -> t = t0.
Proof.
  intros [? ? ? ? Hp Ho Hq] Hn Hp0 H0.
  assert (tree t = tree t0).
  { apply Trie.pruned_ext; [done..|]. intros q. apply set_eq. intros cid.
    destruct (decide (cid = Some client)) as [->|Hc]; [|by apply Ho]. rewrite Hq. naive_solver. }
  destruct t, t0; simpl in *; by subst.
Qed.

(** Removing a filter takes it away, and gives no new ones. *)
Lemma remove_topic_extends client own t0 r s :
  extends client own t0 (topics r) ->
  exists own', extends client own' t0 (topics (remove_topic r s client).2) /\
    (forall q, q ∈ own' -> q ∈ own) /\ (forall q, Topic_from_str s = Ok q -> q ∉ own').
Proof.
  intros He. unfold remove_topic. destruct (Topic_from_str s) as [f| | |]; [|by exists own..].
  eexists. split; [by apply extends_removes|]. split; [intros q [? ?]%list_elem_of_filter; done|].
  intros q [= ->] [Hn Hq]%list_elem_of_filter. apply Hn. unfold client_filters. rewrite tree_matches_walk.
  apply list_elem_of_bind. exists (q, Trie.lookup_path (tree (topics r)) q).
  assert (Hin : Some client ∈ Trie.lookup_path (tree (topics r)) q) by (by apply (ext_own _ _ _ _ He)).
  split.
  - apply list_elem_of_omap. exists (Some client). rewrite elem_of_elements, bool_decide_eq_true_2 by done. done.
  - apply elem_walk. exists q. split_and!; [done|apply reach_self|done|set_solver].
Qed.

Definition remove_topics (client : bytes) (r : Rule) (cache : list string) : Rule :=
  foldl (fun r tf => (remove_topic r tf client).2) r cache.

Lemma on_disconnected_each rs id cache :
  on_disconnected rs id cache = (fun r => remove_topics (client_id id) r cache) <$> rs.
Proof.
  unfold on_disconnected, remove_topics. revert rs. induction cache as [|tf cache IH]; intros rs; simpl.
  - by rewrite list_fmap_id.
  - by rewrite IH, <- list_fmap_compose.
Qed.

Lemma set_rule_topics_id r : set_rule_topics r (topics r) = r.
Proof. by destruct r. Qed.

Lemma remove_topic_rule r s client :
  (remove_topic r s client).2 = set_rule_topics r (topics (remove_topic r s client).2).
Proof. unfold remove_topic. destruct (Topic_from_str s); simpl; [done|by rewrite set_rule_topics_id..]. Qed.

Lemma add_topic_filter_rule r s client :
  (add_topic_filter r s client).2 = set_rule_topics r (topics (add_topic_filter r s client).2).
Proof. unfold add_topic_filter. destruct (Topic_from_str s); simpl; [done|by rewrite set_rule_topics_id..]. Qed.

Lemma remove_topics_extends client own t0 r cache :
  extends client own t0 (topics r) ->
  exists own' t, remove_topics client r cache = set_rule_topics r t /\ extends client own' t0 t /\
    (forall q, q ∈ own' -> q ∈ own) /\ (forall q s, s ∈ cache -> Topic_from_str s = Ok q -> q ∉ own').
Proof.
  unfold remove_topics. revert own r. induction cache as [|tf cache IH]; intros own r He; simpl.
  - exists own, (topics r). rewrite set_rule_topics_id. split_and!; [done..|by intros q s ?%not_elem_of_nil].
  - destruct (remove_topic_extends client own t0 r tf He) as (o1 & He1 & Hs1 & Hn1).
    destruct (IH o1 _ He1) as (o2 & t & Hr & He2 & Hs2 & Hn2). exists o2, t. rewrite Hr. split_and!.
    + by rewrite remove_topic_rule.
    + done.
    + auto.
    + intros q s [-> |Hin]%elem_of_cons Hq Ho; [by eapply Hn1; [|apply Hs2]|by eapply Hn2].
Qed.

(** The filters that a client's placeholders stand for. *)
Definition granted (id : Id) (phs : list string) (q : Topic) : Prop :=
  exists ph, ph ∈ phs /\ Topic_from_str (fill id ph) = Ok q.

Lemma build_filters_extends id r :
  Trie.pruned (tree (topics r)) -> (forall q, Some (client_id id) ∉ Trie.lookup_path (tree (topics r)) q) ->
  exists own t, build_filters id r = set_rule_topics r t /\ extends (client_id id) own (topics r) t /\
    forall q, q ∈ own <-> granted id (placeholders (topics r)) q.
Proof.
  intros Hp Hn. unfold build_filters, granted.
  assert (Hgen : forall phs own r0, extends (client_id id) own (topics r) (topics r0) ->
    exists own' t, foldl (fun r ph => (add_topic_filter r (fill id ph) (client_id id)).2) r0 phs = set_rule_topics r0 t /\
      extends (client_id id) own' (topics r) t /\
      forall q, q ∈ own' <-> q ∈ own \/ exists ph, ph ∈ phs /\ Topic_from_str (fill id ph) = Ok q).
  { induction phs as [|ph phs IH]; intros own r0 He; simpl.
    - exists own, (topics r0). rewrite set_rule_topics_id. split_and!; [done..|]. intros q.
      setoid_rewrite elem_of_nil. naive_solver.
    - assert (He1 : exists own1, extends (client_id id) own1 (topics r) (topics (add_topic_filter r0 (fill id ph) (client_id id)).2)
        /\ forall q, q ∈ own1 <-> q ∈ own \/ Topic_from_str (fill id ph) = Ok q).
      { unfold add_topic_filter. destruct (Topic_from_str (fill id ph)) as [f| | |]; [|exists own; naive_solver..].
        exists (f :: own). split; [by apply extends_insert|]. intros q. rewrite elem_of_cons. naive_solver. }
      destruct He1 as (own1 & He1 & Ho1). destruct (IH own1 _ He1) as (own2 & t & -> & He2 & Ho2).
      exists own2, t. split_and!; [by rewrite add_topic_filter_rule|done|].
      intros q. rewrite Ho2, Ho1. setoid_rewrite elem_of_cons. naive_solver. }
  destruct (Hgen (placeholders (topics r)) [] r) as (own & t & Hr & He & Ho).
  - split; try done. intros q. rewrite elem_of_nil. naive_solver.
  - exists own, t. split_and!; [done..|]. intros q. rewrite Ho, elem_of_nil. naive_solver.
Qed.

Lemma extends_reaches client own t0 t tp s b :
  (forall q, Some client ∉ Trie.lookup_path (tree t0) q) -> extends client own t0 t ->
  reaches t tp s b <-> reaches t0 tp s b \/ b = client /\ exists q, q ∈ own /\ reach true tp q.
Proof.
  intros Hn [Ha He _ _ _ Ho Hq]. unfold reaches. rewrite Ha, He. split.
  - intros [|[|(q & cid & Hin & Hr & Hc)]]; [by auto..|].
    destruct (decide (cid = Some client)) as [->|Hne].
    + right. destruct Hc as [|[= ->]]; [done|]. split; [done|]. exists q. by rewrite <- Hq.
    + left. right; right. exists q, cid. by rewrite <- Ho.
  - intros [[|[|(q & cid & Hin & Hr & Hc)]]|(-> & q & Hin & Hr)]; [by auto..| |]; right; right.
    + exists q, cid. rewrite Ho; [done|]. intros ->. by apply (Hn q).
    + exists q, (Some client). rewrite Hq. auto.
Qed.

(** A rule without literal topics with placeholders, and without filters of
    the client. *)
Definition fresh_for (client : bytes) (r : Rule) : Prop :=
  eq_placeholders (topics r) = [] /\ Trie.pruned (tree (topics r)) /\
  forall q, Some client ∉ Trie.lookup_path (tree (topics r)) q.

(** The placeholders of a client, while its rules have none for it yet
    and no literal topics with placeholders: once it is connected a rule
    covers exactly what it covered before and, for this client only, what
    the filters made of its name and user name find; and when it is gone
    the rules are again what they were. *)
Theorem placeholders_scoped (rs : list Rule) (id : Id) (cache : list string) :
  Forall (fresh_for (client_id id)) rs ->
  let connected := on_connected rs id cache in
  (forall i r r', rs !! i = Some r -> connected.1 !! i = Some r' ->
     access r' = access r /\ users r' = users r /\ control r' = control r /\
     forall tp s client, topics_match (topics r') tp s client = true <->
       topics_match (topics r) tp s client = true \/
       client = client_id id /\ exists q, granted id (placeholders (topics r)) q /\ reach true tp q) /\
  on_disconnected connected.1 id connected.2 = rs.
Proof.
  intros Hf connected.
  assert (Hb : forall r, fresh_for (client_id id) r -> build_eqs id (build_filters id r) = build_filters id r).
  { intros r (He & Hp & Hn). destruct (build_filters_extends id r) as (own & t & -> & Hx & _); [done..|].
    unfold build_eqs. simpl. by rewrite (ext_eq_placeholders _ _ _ _ Hx), He. }
  rewrite Forall_forall in Hf. split.
  - intros i r r' Hr Hr'. simpl in Hr'. rewrite list_lookup_fmap, Hr in Hr'. injection Hr' as <-.
    apply list_elem_of_lookup_2 in Hr. specialize (Hf r Hr). simpl. rewrite Hb by done.
    destruct Hf as (_ & Hp & Hn). destruct (build_filters_extends id r) as (own & t & -> & Hx & Ho); [done..|].
    split_and!; [done..|]. intros tp s client. rewrite !topics_match_reach. simpl.
    rewrite extends_reaches by done. by setoid_rewrite Ho.
  - rewrite on_disconnected_each. simpl. rewrite <- list_fmap_compose.
    rewrite <- (list_fmap_id rs) at 2. apply list_fmap_ext. intros i r Hr.
    apply list_elem_of_lookup_2 in Hr. specialize (Hf r Hr) as Hfr. simpl. rewrite Hb by done.
    destruct Hfr as (_ & Hp & Hn). destruct (build_filters_extends id r) as (own & t & -> & Hx & Ho); [done..|].
    edestruct (remove_topics_extends (client_id id) own (topics r) (set_rule_topics r t)) as (own' & t' & -> & Hx' & Hs & Hno); [done|].
    rewrite (extends_nil _ _ _ _ Hx'); [by destruct r| |done..]. intros q Hq.
    pose proof (Hs q Hq) as (ph & Hph & Hpar)%Ho. eapply Hno; [|done..].
    apply elem_of_app. right. apply list_elem_of_bind. exists r. split; [|done]. by apply list_elem_of_fmap_2.
Qed.

(** ** Examples *)

Definition rules_of (j : Json) : list Rule := match parse_rules j with Ok rs => rs | _ => [] end.
Definition default_rules : list Rule := rules_of default_cfg.

Lemma default_rules_parse :
  parse_rules default_cfg = Ok default_rules /\ access <$> default_rules = [AccessAllow; AccessAllow; AccessDeny; AccessAllow].
Proof. split; vm_compute; reflexivity. Qed.

Definition sample_session (client : string) : HookSession :=
  mkHookSession (Id_from 0 1 (text client)) None (Some 4) (Some false) default_listener None.
Definition no_ip (_ : bytes) : string := "10.0.0.1".
Definition may_publish (rs : list Rule) (client topic : string) : bool :=
  match (on_publish no_ip rs true (sample_session client) (mkPublish false false AtMostOnce (text topic) None [] None) None).2 with
  | Some (HPublishAclResult r) => acl_is_allow r
  | _ => false
  end.
Definition may_subscribe (rs : list Rule) (client filter : string) : bool :=
  match (on_subscribe no_ip rs (sample_session client) (mkSubscribe filter default_options) None).2 with
  | Some (HSubscribeAclResult r) => negb (SubscribeReturn_failure r)
  | _ => false
  end.

(** By default [#] may not be subscribed to. *)
Lemma builtin_acl_first_rule_witness :
  on_subscribe no_ip default_rules (sample_session "c") (mkSubscribe "#" default_options) None =
    (false, Some (HSubscribeAclResult sub_refusal)).
Proof.
  pose (p := mkPublish false false AtMostOnce (text "a") None [] None).
  destruct (builtin_acl_first_rule no_ip default_rules (client_info "c" None) (sample_session "c")
    (mkSubscribe "#" default_options) [MultiWildcard] p [Normal "a"] true None (default_rules !! 2%nat)
    ltac:(vm_compute; reflexivity) ltac:(vm_compute; reflexivity) ltac:(repeat constructor)) as (_ & Hs & _).
  rewrite Hs; [vm_compute; reflexivity|].
  apply (find_first_or_none (rule_matches no_ip (sample_session "c") for_subscribe "#")); [|vm_compute; reflexivity].
  intros x. apply rule_matches_reach. vm_compute. reflexivity.
Defined.

Definition own_rules : list Rule :=
  rules_of (JArray [JArray [JString "allow"; JString "all"; JString "pubsub"; JArray [JString "dev/%c/#"]]]).

Lemma placeholders_scoped_witness :
  let connected := on_connected own_rules (Id_from 0 1 (text "a")) [] in
  on_disconnected connected.1 (Id_from 0 1 (text "a")) connected.2 = own_rules.
Proof.
  refine (proj2 (placeholders_scoped own_rules (Id_from 0 1 (text "a")) [] _)).
  apply Forall_singleton. split; [reflexivity|]. split; [apply Trie.pruned_default|].
  intros q. simpl. rewrite Trie.lookup_path_default. apply not_elem_of_empty.
Defined.

Lemma own_rules_scope :
  let rs := (on_connected own_rules (Id_from 0 1 (text "a")) []).1 in
  may_publish rs "a" "dev/a/up" && negb (may_publish rs "b" "dev/a/up") && negb (may_publish rs "a" "dev/b/up") = true.
Proof. vm_compute. reflexivity. Qed.

(** ** What the rules let through *)

(** A literal topic with a placeholder is for every client, and stays when
    its client has gone. *)
Lemma literal_placeholders_leak :
  let rules := rules_of (JArray [JArray [JString "allow"; JString "all"; JString "pubsub";
                                         JArray [JObject [("eq", JString "dev/%c")]]]]) in
  let connected := on_connected rules (Id_from 0 1 (text "a")) [] in
  let gone := on_disconnected connected.1 (Id_from 0 1 (text "a")) connected.2 in
  negb (may_publish rules "b" "dev/a") && may_publish connected.1 "b" "dev/a" && may_publish gone "b" "dev/a" = true.
Proof. vm_compute. reflexivity. Qed.

(** A client that calls itself [+] has the topics of all the others. *)
Lemma client_wildcard_placeholder :
  may_publish (on_connected own_rules (Id_from 0 1 (text "+")) []).1 "+" "dev/a/up" = true.
Proof. vm_compute. reflexivity. Qed.

(** A denied topic is reached by a subscription that is wider than the rule. *)
Lemma deny_subscription_wider :
  let rules := rules_of (JArray [JArray [JString "deny"; JString "all"; JString "subscribe"; JArray [JString "secret/#"]];
                                 JArray [JString "allow"; JString "all"]]) in
  negb (may_subscribe rules "c" "secret/a") && may_subscribe rules "c" "+/a" = true.
Proof. vm_compute. reflexivity. Qed.

(** A user with no known key is every user. *)
Lemma unknown_user_key_matches_all :
  users_try_from (JObject [("username", JString "admin")]) AccessAllow = Ok [] /\
  forall ip_text id password protocol allow, (users_hit ip_text [] id password protocol allow false).1 = true.
Proof. done. Qed.

(** Another condition after the user name takes the superuser flag away. *)
Lemma superuser_flag_lost :
  let user := JObject [("user", JString "admin"); ("superuser", JBool true); ("clientid", JString "c")] in
  match users_try_from user AccessAllow with
  | Ok us =>
      users_hit no_ip us (mkId 0 1 None None (text "c") (Some (text "admin")) 0) None None true false = (true, false)
  | _ => False
  end.
Proof. vm_compute. reflexivity. Qed.

(** A protocol version is cut to its last byte. *)
Lemma protocol_truncated :
  users_try_from (JObject [("protocol", JNumber (Some 260))]) AccessAllow = Ok [UserProtocol 4].
Proof. reflexivity. Qed.
End AclPlugin.
