(* ===== verification/AclBroker.v ===== *)
(** * Sessions under a hook manager

    The broker of a session with its hooks answered by a hook manager, and
    the built-in access control as the handler: what a client may publish
    and subscribe to over a whole connection. *)

From stdpp Require Import prelude list strings gmap.
From Stdlib Require Import ZArith Lia.
From S2P Require Import Prelude CodecTypes CodecUtils CodecV3 CodecV5Types Topic Trie BrokerTypes Subscription Inflight Connection Fitter Session SessionInbound SessionOutbound SessionSubscribe SessionLoop SessionAuth SessionEnd NodeBroker SessionWitness Json Acl Hook AclBuiltin.

Local Open Scope Z_scope.

(** ** The hooks of a broker *)

Section hooked.
Context {W X : Type} (base : Broker W) (m : DefaultHookManager X) (s : HookSession) (x : X).

(** The handlers are asked in the state [x]: what they would change of it
    is not kept. *)
Definition hooked_broker : Broker W := {|
  timestamp_millis := timestamp_millis;
  hook_message_publish from p w := ((message_publish m s from p x).1, w);
  hook_message_publish_check_acl p w := ((message_publish_check_acl m s p x).1, w);
  hook_message_expiry from p w :=
    (match (run_hook m (PMessageExpiryCheck s from p) x).1 with Some HMessageExpiry => true | _ => false end, w);
  hook_message_delivered from p w := ((message_delivered m s from p x).1, w);
  hook_client_subscribe sub w := ((client_subscribe m s sub x).1, w);
  hook_client_subscribe_check_acl sub w := ((client_subscribe_check_acl m s sub x).1, w);
  hook_client_unsubscribe unsub w := ((client_unsubscribe m s unsub x).1, w);
  message_mgr_enable := message_mgr_enable;
  retain_enable := retain_enable;
  shared_subscription_supported := shared_subscription_supported;
  forwards := forwards;
  send_packet := send_packet;
  relations_of := relations_of;
  session_subs_len := session_subs_len;
  entry_subscribe := entry_subscribe;
  entry_unsubscribe := entry_unsubscribe;
  router_add := router_add;
  session_subs_extend := session_subs_extend;
  entry_id_same := entry_id_same;
  entry_remove_with := entry_remove_with;
|}.
End hooked.

(** ** The built-in access control *)

Import AclPlugin.

Section builtin.
Context {W Q : Type} (base : Broker W) `{!Texts} `{!DequeMap OutInflightMessage Q}.
Context (ip_text : bytes -> string) (priority : Z) (disconnect : bool) (ids : nat -> string).
Context (rs : list Rule) (cache : list string) (s : HookSession).

Definition acl_manager : DefaultHookManager (list Rule * list string) :=
  init ip_text manager_new priority disconnect ids.

Lemma enabled_after k h : enable (X := list Rule * list string) true k (mkEntry k h false) = mkEntry k h true.
Proof. unfold enable. by rewrite decide_True. Qed.

Lemma acl_handlers t :
  handlers acl_manager t =
    match t with
    | ClientConnected => [mkEntry (priority, ids 0%nat) (hook ip_text disconnect) true]
    | ClientDisconnectedHook => [mkEntry (priority, ids 1%nat) (hook ip_text disconnect) true]
    | ClientAuthenticate => [mkEntry (priority, ids 2%nat) (hook ip_text disconnect) true]
    | ClientSubscribeCheckAcl => [mkEntry (priority, ids 3%nat) (hook ip_text disconnect) true]
    | MessagePublishCheckAcl => [mkEntry (priority, ids 4%nat) (hook ip_text disconnect) true]
    | _ => []
    end.
Proof. destruct t; try reflexivity; cbv -[enable hook]; by rewrite enabled_after. Qed.

Lemma run_publish_check p :
  run_hook acl_manager (PMessagePublishCheckAcl s p) (rs, cache) =
    ((on_publish ip_text rs disconnect s (BPublish.inner p) None).2, (rs, cache)).
Proof.
  unfold run_hook, exec. simpl get_type. rewrite acl_handlers.
  cbn [rev app exec_loop he_enabled he_handler hook].
  by destruct (on_publish ip_text rs disconnect s (BPublish.inner p) None) as [[] r].
Qed.

Lemma run_subscribe_check sub :
  run_hook acl_manager (PClientSubscribeCheckAcl s sub) (rs, cache) =
    ((on_subscribe ip_text rs s sub None).2, (rs, cache)).
Proof.
  unfold run_hook, exec. simpl get_type. rewrite acl_handlers.
  cbn [rev app exec_loop he_enabled he_handler hook].
  by destruct (on_subscribe ip_text rs s sub None) as [[] r].
Qed.

(** The first rule about the client and the topic allows it. *)
Definition allowed_by (about_op : Control -> bool) (topic : string) : Prop :=
  exists r, first_of (fun r => rule_matches ip_text s about_op topic r = true) rs r /\ access r = AccessAllow.

Definition may_publish (p : BPublish) : Prop :=
  hs_superuser s = Some true \/ allowed_by for_publish (str (topic (BPublish.inner p))).
Definition answers (sub : Subscribe) (r : option SubscribeReturn) : Prop :=
  exists q, r = Some q /\ (SubscribeReturn_failure q = false ->
    hs_superuser s = Some true \/ allowed_by for_subscribe (sub_filter sub)).

Definition acl_broker : Broker W := hooked_broker base acl_manager s (rs, cache).

Lemma is_allow_access r : is_allow r = true -> access r = AccessAllow.
Proof. apply bool_decide_eq_true_1. Qed.

Lemma superuser_true : superuser_of s = true -> hs_superuser s = Some true.
Proof. unfold superuser_of. by destruct (hs_superuser s) as [[]|]. Qed.

Lemma acl_broker_sound : AclSound (Broker0 := acl_broker) may_publish answers.
Proof.
  constructor.
  - intros p w. cbn. unfold message_publish_check_acl. destruct (superuser_of s) eqn:Hs.
    + intros _. left. by apply superuser_true.
    + rewrite run_publish_check. cbn. unfold on_publish.
      destruct (List.find _ rs) as [r|] eqn:Hf; [destruct (is_allow r) eqn:Ha|]; try done.
      intros _. right. exists r. split; [by apply find_first_of|by apply is_allow_access].
  - intros sub w. cbn. unfold client_subscribe_check_acl. destruct (superuser_of s) eqn:Hs.
    + eexists. split; [done|]. intros _. left. by apply superuser_true.
    + rewrite run_subscribe_check. cbn. unfold on_subscribe.
      destruct (List.find _ rs) as [r|] eqn:Hf; [destruct (is_allow r) eqn:Ha|]; (eexists; split; [done|]); try done.
      intros _. right. exists r. split; [by apply find_first_of|by apply is_allow_access].
Qed.

Lemma success_no_failure r q : SubscribeReturn_success r = Some q -> SubscribeReturn_failure r = false.
Proof. unfold SubscribeReturn_success, SubscribeReturn_failure. by destruct (ack_reason r). Qed.

End builtin.

(** ** A client with the topics below its own name *)

#[local] Existing Instance sample_texts.

Definition acl_session : HookSession := sample_session "a".
Definition acl_rules : list Rule := (on_connected own_rules id_a []).1.
Definition acl_world : Broker World := acl_broker sample_broker no_ip 10 true (fun _ => "id") acl_rules [] acl_session.

Definition may_publish_topic (t : string) : bool := AclPlugin.may_publish acl_rules "a" t.

Definition own_events : list LoopEvent :=
  [from_client (V3.PPublish (message AtMostOnce None "dev/a/up"));
   from_client (V3.PSubscribe 1 [(text "dev/a/down", AtLeastOnce)]);
   from_client (V3.PPublish (message AtMostOnce None "t/1"))].

Definition own_run : outcome Reason unit * SampleState :=
  run_loop (Broker0 := acl_world) try_send_yes false own_events (session_a world_sub).



(** The will is not checked: it goes to a topic that the rules refuse. *)
Lemma will_unchecked :
  may_publish_topic "t/will" = false /\
  existsb is_forwarded (trace (process_last_will (Broker0 := acl_world) no_query (session_a world_sub)).2) = true.
Proof. split; vm_compute; reflexivity. Qed.
