(* ===== verification/AuthJwt.v ===== *)
(** * Token authentication: [builtins/auth_jwt.rs]

    A client is authenticated by a JSON web token that it gives as its
    password or its user name. The token library (decoding, signatures and
    the standard claims) is an argument; the configuration, the expected
    claims with their placeholders, and what the claims give the session
    are modelled here. *)

From stdpp Require Import prelude list strings gmap.
From Stdlib Require Import ZArith Lia.
From S2P Require Import Prelude CodecTypes CodecUtils CodecV3 CodecV5Types BrokerTypes Subscription Connection Fitter Session Json Acl Hook.

Local Open Scope Z_scope.
Local Open Scope try_scope.

(** ** Text *)

(** [String::from_utf8_lossy]: each longest start of a sequence that is not
    well formed becomes U+FFFD. The first sequence: whether it is well
    formed, and its length. *)
Definition utf8_sequence (b0 : Z) (rest : bytes) : bool * nat :=
  let cont i := match rest !! i with Some b => utf8_cont b | None => false end in
  let second := match rest with b1 :: _ => utf8_second_ok b0 b1 | [] => false end in
  if between 0 b0 127 then (true, 1%nat)
  else if between 194 b0 223 then if cont 0%nat then (true, 2%nat) else (false, 1%nat)
  else if between 224 b0 239 then
    if negb second then (false, 1%nat) else if cont 1%nat then (true, 3%nat) else (false, 2%nat)
  else if between 240 b0 244 then
    if negb second then (false, 1%nat) else if negb (cont 1%nat) then (false, 2%nat)
    else if cont 2%nat then (true, 4%nat) else (false, 3%nat)
  else (false, 1%nat).

Definition REPLACEMENT : bytes := [239; 191; 189].

Fixpoint lossy (fuel : nat) (s : bytes) : bytes :=
  match fuel, s with
  | S fuel, b0 :: rest =>
      let '(ok, n) := utf8_sequence b0 rest in
      (if ok then take n s else REPLACEMENT) ++ lossy fuel (drop n s)
  | _, _ => []
  end.
Definition from_utf8_lossy (s : bytes) : bytes := lossy (length s) s.

(** ** Configuration *)

Inductive JWTFrom : Type := FromUsername | FromPassword.
Inductive JWTEncrypt : Type := HmacBased | PublicKey.

Inductive JwtError : Type :=
| UsernameMissing
| IpaddrMissing
| InvalidHeader
| InvalidToken
| ClaimFailed (name : string) (expected : list string) (actual : option string)
| InvalidEncrypt
| InvalidFrom
| InvalidClaim (claim : string) (value : Json)
| EmptySecret
| EmptyPublicKey
| KeyError.

(** The text, and the placeholders it holds: user name, client id, address,
    protocol. *)
Record ClaimItem : Type := mkClaim { claim_text : string; p_uname : bool; p_cid : bool; p_ipaddr : bool; p_proto : bool }.

Record ValidateClaims : Type := mkClaims {
  validate_customs : list (string * list ClaimItem);
  validate_exp_enable : bool;
  validate_nbf_enable : bool;
  validate_sub : option ClaimItem;
  validate_iss : option (list ClaimItem);
  validate_aud : option (list ClaimItem);
}.

Definition PLACEHOLDER_IPADDR : string := "${ipaddr}".
Definition PLACEHOLDER_PROTOCOL : string := "${protocol}".

Definition parse (name : string) (val : Json) : bool * bool * option ClaimItem :=
  if bool_decide (name = "exp") then
    if default false (as_bool val) then (true, false, None) else (false, false, None)
  else if bool_decide (name = "nbf") then
    if default false (as_bool val) then (false, true, None) else (false, false, None)
  else
    match as_str val with
    | Some s =>
        (false, false, Some (mkClaim s (contains PLACEHOLDER_USERNAME s) (contains PLACEHOLDER_CLIENTID s)
                               (contains PLACEHOLDER_IPADDR s) (contains PLACEHOLDER_PROTOCOL s)))
    | None => (false, false, None)
    end.

Definition claim_values (claim : string) (val : Json) : outcome JwtError (list (bool * bool * option ClaimItem)) :=
  match val with
  | JArray arr => Ok (parse claim <$> arr)
  | JString _ | JBool true => Ok [parse claim val]
  | _ => Err (InvalidClaim claim val)
  end.

(** One item; where both would apply only the first flag is set. *)
Definition enable_flags (flags : bool * bool) (item : bool * bool * option ClaimItem) : bool * bool :=
  let '(exp, nbf) := flags in
  let '(exp_enable, nbf_enable, _) := item in
  if exp_enable && negb exp then (true, nbf) else if nbf_enable && negb nbf then (exp, true) else (exp, nbf).

Definition insert_custom (name : string) (items : list ClaimItem) (l : list (string * list ClaimItem))
    : list (string * list ClaimItem) :=
  filter (fun e => e.1 <> name) l ++ [(name, items)].

Definition add_claim (v : ValidateClaims) (claim : string) (items : list ClaimItem) : ValidateClaims :=
  match items with
  | [] => v
  | first :: _ =>
      let '(mkClaims customs exp nbf sub iss aud) := v in
      if bool_decide (claim = "sub") then mkClaims customs exp nbf (Some first) iss aud
      else if bool_decide (claim = "iss") then mkClaims customs exp nbf sub (Some items) aud
      else if bool_decide (claim = "aud") then mkClaims customs exp nbf sub iss (Some items)
      else mkClaims (insert_custom claim items customs) exp nbf sub iss aud
  end.

Definition set_enabled (flags : bool * bool) (v : ValidateClaims) : ValidateClaims :=
  mkClaims (validate_customs v) flags.1 flags.2 (validate_sub v) (validate_iss v) (validate_aud v).

Fixpoint read_claims (v : ValidateClaims) (objs : list (string * Json)) : outcome JwtError ValidateClaims :=
  match objs with
  | [] => Ok v
  | (claim, val) :: objs =>
      try! items := claim_values claim val in
      let v := set_enabled (foldl enable_flags (validate_exp_enable v, validate_nbf_enable v) items) v in
      read_claims (add_claim v claim (omap snd items)) objs
  end.

Definition no_claims : ValidateClaims := mkClaims [] false false None None None.
Definition validate_claims_default : ValidateClaims := mkClaims [] true false None None None.

(** What is no object is read like an empty one. *)
Definition deserialize_validate_claims (j : Json) : outcome JwtError ValidateClaims :=
  read_claims no_claims (match j with JObject objs => objs | _ => [] end).

Definition deserialize_encrypt (s : string) : outcome JwtError JWTEncrypt :=
  if bool_decide (s = "hmac-based") then Ok HmacBased
  else if bool_decide (s = "public-key") then Ok PublicKey else Err InvalidEncrypt.
Definition serialize_encrypt (e : JWTEncrypt) : string :=
  match e with HmacBased => "hmac-based" | PublicKey => "public-key" end.
Definition deserialize_from (s : string) : outcome JwtError JWTFrom :=
  if bool_decide (s = "username") then Ok FromUsername
  else if bool_decide (s = "password") then Ok FromPassword else Err InvalidFrom.
Definition serialize_from (f : JWTFrom) : string :=
  match f with FromUsername => "username" | FromPassword => "password" end.

Record PluginConfig : Type := mkConfig {
  disconnect_if_pub_rejected : bool;
  disconnect_if_expiry : bool;
  priority : Z;
  from : JWTFrom;
  encrypt : JWTEncrypt;
  hmac_secret : string;
  hmac_base64 : bool;
  public_key : string;
  validate_claims : ValidateClaims;
}.

Definition default_config : PluginConfig :=
  mkConfig true false 50 FromPassword HmacBased "oximqttsecret" false "" validate_claims_default.

(** ** The token library: [jsonwebtoken]

    [decode_header] reads the algorithm of a token, [decode] checks its
    signature with the key and its claims with the validation and gives the
    claims. *)

Record Validation (Alg : Type) : Type := mkValidation {
  alg : Alg;
  v_validate_exp : bool;
  v_validate_nbf : bool;
  v_validate_aud : bool;
  v_aud : option (list string);
  v_iss : option (list string);
  v_sub : option string;
  required_spec_claims : list string;
}.
Arguments mkValidation {Alg}.
Arguments alg {Alg}.
Arguments v_validate_exp {Alg}.
Arguments v_validate_nbf {Alg}.
Arguments v_validate_aud {Alg}.
Arguments v_aud {Alg}.
Arguments v_iss {Alg}.
Arguments v_sub {Alg}.
Arguments required_spec_claims {Alg}.

Abbreviation Claims := (list (string * Json)).

Class TokenLibrary (Alg Key : Type) : Type := {
  decode_header : string -> option Alg;
  decode : string -> Key -> Validation Alg -> option Claims;
  key_of : PluginConfig -> option Key;
}.

(** [JString s] for one of [l], or an array with such a string. *)
Definition claim_among (j : Json) (l : list string) : Prop :=
  match j with
  | JString s => s ∈ l
  | JArray js => exists s, JString s ∈ js /\ s ∈ l
  | _ => False
  end.

(** What the library documents: a token is decoded only if it is signed
    with the key, the required claims are there, and the claims that are
    there are as asked for; [live] is whether an expiry or a start is
    acceptable now. *)
Class TokenLibraryOk (Alg Key : Type) `{TokenLibrary Alg Key} (signed : string -> Key -> Claims -> Prop)
    (live : bool -> Json -> Prop) : Prop := {
  decode_signed t k v c : decode t k v = Some c -> signed t k c;
  decode_required t k v c name : decode t k v = Some c -> name ∈ required_spec_claims v -> is_Some (json_get name c);
  decode_exp t k v c j : decode t k v = Some c -> v_validate_exp v = true -> json_get "exp" c = Some j -> live true j;
  decode_nbf t k v c j : decode t k v = Some c -> v_validate_nbf v = true -> json_get "nbf" c = Some j -> live false j;
  decode_sub t k v c s j : decode t k v = Some c -> v_sub v = Some s -> json_get "sub" c = Some j -> j = JString s;
  decode_iss t k v c l j : decode t k v = Some c -> v_iss v = Some l -> json_get "iss" c = Some j -> claim_among j l;
  decode_aud t k v c l j : decode t k v = Some c -> v_validate_aud v = true -> v_aud v = Some l ->
    json_get "aud" c = Some j -> claim_among j l;
}.

(** ** The handler *)

Section jwt.
Context {Alg Key : Type} `{!TokenLibrary Alg Key}.
(** [IpAddr::to_string]. *)
Context (ip_text : bytes -> string).
Context (cfg : PluginConfig) (key : Key).

(** [Self::token]. *)
Definition token (c : ConnectInfo) : option string :=
  match from cfg with
  | FromUsername => str <$> ci_username c
  | FromPassword => (fun p => str (from_utf8_lossy p)) <$> ci_password c
  end.

(** [Self::replaces]. *)
Definition replaces (c : ConnectInfo) (item : ClaimItem) : outcome JwtError string :=
  try! s := (if p_uname item then
               match ci_username c with
               | Some u => Ok (replace PLACEHOLDER_USERNAME (str u) (claim_text item))
               | None => Err UsernameMissing
               end
             else Ok (claim_text item)) in
  let s := if p_cid item then replace PLACEHOLDER_CLIENTID (str (ci_client_id c)) s else s in
  try! s := (if p_ipaddr item then
               match ci_ipaddress c with
               | Some a => Ok (replace PLACEHOLDER_IPADDR (ip_text (ip a)) s)
               | None => Err IpaddrMissing
               end
             else Ok s) in
  Ok (if p_proto item then replace PLACEHOLDER_PROTOCOL (str (format_int (ci_proto_ver c))) s else s).

(** [collect] into a result. *)
Fixpoint collect {A B} (f : A -> outcome JwtError B) (l : list A) : outcome JwtError (list B) :=
  match l with
  | [] => Ok []
  | a :: l => try! b := f a in try! bs := collect f l in Ok (b :: bs)
  end.

(** The texts of a list of expected values, where there is one. *)
Definition expected (c : ConnectInfo) (items : option (list ClaimItem)) : outcome JwtError (option (list string)) :=
  match items with
  | Some ((_ :: _) as items) => try! l := collect (replaces c) items in Ok (Some l)
  | _ => Ok None
  end.

Definition required (aud iss : option (list string)) (sub : option string) : list string :=
  let names (name : string) {A} (o : option A) := match o with Some _ => [name] | None => [] end in
  names "aud"%string aud ++ names "iss"%string iss ++ names "sub"%string sub.

Definition standard_auth (c : ConnectInfo) (t : string) (v : ValidateClaims) : outcome JwtError Claims :=
  try! aud := expected c (validate_aud v) in
  try! iss := expected c (validate_iss v) in
  try! sub := match validate_sub v with
              | Some item => try! s := replaces c item in Ok (Some s)
              | None => Ok None
              end in
  try! a := ok_or InvalidHeader (decode_header t) in
  ok_or InvalidToken
    (decode t key (mkValidation a (validate_exp_enable v) (validate_nbf_enable v) (bool_decide (is_Some aud))
                     aud iss sub (required aud iss sub))).

Fixpoint check_customs (claims : Claims) (customs : list (string * list string)) : outcome JwtError unit :=
  match customs with
  | [] => Ok tt
  | (name, items) :: customs =>
      let actual := json_get name claims ≫= as_str in
      if match actual with Some s => bool_decide (s ∈ items) | None => false end then check_customs claims customs
      else Err (ClaimFailed name items actual)
  end.

Definition extended_auth (c : ConnectInfo) (v : ValidateClaims) (claims : Claims) : outcome JwtError unit :=
  try! customs := collect (fun '(name, items) => try! items := collect (replaces c) items in Ok (name, items))
                    (validate_customs v) in
  check_customs claims customs.

Definition not_authorized : ReturnType := (false, Some (HAuthResult AuthNotAuthorized)).

(** The rules of the [acl] claim. *)
Definition token_rules (c : ConnectInfo) (claims : Claims) : outcome AclRule.RuleError (list AclRule.t) :=
  match json_get "acl" claims with
  | Some (JArray acls) =>
      (fix go l := match l with
                   | [] => Ok []
                   | j :: l => try! r := AclRule.try_from j c in try! rs := go l in Ok (r :: rs)
                   end) acls
  | _ => Ok []
  end.

Definition claim_superuser (claims : Claims) : bool := default false (json_get "superuser" claims ≫= as_bool).
Definition claim_expire_at (claims : Claims) : option Z := from_secs <$> (json_get "exp" claims ≫= as_u64).

Definition on_authenticate (c : ConnectInfo) (acc : option HookResult) : ReturnType :=
  match acc with
  | Some (HAuthResult AuthBadUsernameOrPassword) | Some (HAuthResult AuthNotAuthorized) => (false, acc)
  | _ =>
      match token c with
      | None => not_authorized
      | Some t =>
          match standard_auth c t (validate_claims cfg) with
          | Ok claims =>
              match extended_auth c (validate_claims cfg) claims with
              | Ok _ =>
                  match token_rules c claims with
                  | Ok rules =>
                      let superuser := claim_superuser claims in
                      (false, Some (HAuthResult (AuthAllow superuser
                                (Some (mkAuthInfo superuser (claim_expire_at claims) rules)))))
                  | _ => not_authorized
                  end
              | _ => not_authorized
              end
          | _ => not_authorized
          end
      end
  end.

Definition on_subscribe (s : HookSession) (sub : Subscribe) (acc : option HookResult) : ReturnType :=
  let by_token :=
    match hs_auth_info s ≫= fun a => subscribe_acl a sub with
    | Some r => r
    | None => (true, acc)
    end in
  match acc with
  | Some (HSubscribeAclResult r) => if SubscribeReturn_failure r then (false, acc) else by_token
  | _ => by_token
  end.

Definition on_publish (s : HookSession) (p : Publish) (acc : option HookResult) : ReturnType :=
  let by_token :=
    match hs_auth_info s ≫= fun a => publish_acl a p (disconnect_if_pub_rejected cfg) with
    | Some r => r
    | None => (true, acc)
    end in
  match acc with
  | Some (HPublishAclResult r) => if acl_is_allow r then by_token else (false, acc)
  | _ => by_token
  end.

(** What the keep-alive of a client makes of its entry: the message that
    ends the session, if it can be sent. *)
Definition expired_reason : Reason := ConnectDisconnect (Some (DisconnectOther (text "JWT Auth expired"))).
Definition on_keepalive (now : Z) (s : HookSession) : list (Id * Message) :=
  match hs_auth_info s with
  | Some a =>
      if auth_is_expired a now && disconnect_if_expiry cfg then [(hs_id s, MClosed expired_reason)] else []
  | None => []
  end.

(** [AuthHandler::hook]; the state of the hooks is the messages sent to
    sessions. *)
Definition hook (now : Z) : Handler (list (Id * Message)) := fun param acc sent =>
  match param with
  | PClientAuthenticate c => (on_authenticate c acc, sent)
  | PClientSubscribeCheckAcl s sub => (on_subscribe s sub acc, sent)
  | PMessagePublishCheckAcl s p => (on_publish s (BPublish.inner p) acc, sent)
  | PClientKeepalive s _ => ((true, acc), sent ++ on_keepalive now s)
  | _ => ((true, acc), sent)
  end.
End jwt.

(** [init]: without a section the module stays off. *)
Definition init {Alg Key : Type} `{!TokenLibrary Alg Key} (ip_text : bytes -> string)
    (m : DefaultHookManager (list (Id * Message))) (section : option PluginConfig) (now : Z) (ids : nat -> string)
    : outcome JwtError (DefaultHookManager (list (Id * Message))) :=
  match section with
  | None => Ok m
  | Some cfg =>
      try! _ := match encrypt cfg with
                | HmacBased => if bool_decide (hmac_secret cfg = "") then Err EmptySecret else Ok tt
                | PublicKey => if bool_decide (public_key cfg = "") then Err EmptyPublicKey else Ok tt
                end in
      try! key := ok_or KeyError (key_of (Alg := Alg) cfg) in
      let h := hook ip_text cfg key now in
      let '(m, r) := add_priority m register_new ClientAuthenticate (priority cfg) (ids 0%nat) h in
      let '(m, r) := add_priority m r ClientSubscribeCheckAcl (priority cfg) (ids 1%nat) h in
      let '(m, r) := add_priority m r MessagePublishCheckAcl (priority cfg) (ids 2%nat) h in
      let '(m, r) := add_priority m r ClientKeepaliveHook 0 (ids 3%nat) h in
      Ok (start m r)
  end.

(** ** Text: well-formed input stays as it is *)

Lemma utf8_first b0 rest :
  from_utf8 (b0 :: rest) = true ->
  exists n, utf8_sequence b0 rest = (true, S n) /\ from_utf8 (drop n rest) = true.
Proof.
  unfold utf8_sequence. cbn [from_utf8]. repeat case_match; subst; try discriminate; cbn [lookup list_lookup] in *;
    simplify_eq; intros Hu; rewrite ?andb_true_iff in Hu; destruct_and?; rewrite ?negb_true_iff in *; try congruence;
    eexists; (split; [reflexivity|done]).
Qed.

Lemma lossy_utf8 fuel s : from_utf8 s = true -> (length s <= fuel)%nat -> lossy fuel s = s.
Proof.
  revert s. induction fuel as [|fuel IH]; intros [|b0 rest] Hu Hl; simpl in Hl; try done; [lia|].
  destruct (utf8_first b0 rest Hu) as (n & Hs & Hr). cbn [lossy]. rewrite Hs. cbn [take drop app]. f_equal.
  rewrite (IH (drop n rest)); [by rewrite take_drop|done|]. rewrite length_drop. lia.
Qed.

Lemma from_utf8_lossy_id s : from_utf8 s = true -> from_utf8_lossy s = s.
Proof. intros Hu. by apply lossy_utf8. Qed.

(** ** Settings *)

Lemma encrypt_roundtrip e : deserialize_encrypt (serialize_encrypt e) = Ok e.
Proof. by destruct e. Qed.
Lemma from_roundtrip f : deserialize_from (serialize_from f) = Ok f.
Proof. by destruct f. Qed.

(** The texts a claim is expected to be one of. *)
Definition claim_strings (val : Json) : list string :=
  match val with JString s => [s] | JArray l => omap as_str l | _ => [] end.

Definition special (name : string) : Prop :=
  name = "exp"%string \/ name = "nbf"%string \/ name = "sub"%string \/ name = "iss"%string \/ name = "aud"%string.

(** The claim says [true], alone or in an array. *)
Definition says_true (val : Json) : Prop :=
  val = JBool true \/ exists l, val = JArray l /\ JBool true ∈ l.

(** The items of a claim that is neither [exp] nor [nbf]. *)
Lemma claim_values_texts claim val items :
  claim <> "exp"%string -> claim <> "nbf"%string -> claim_values claim val = Ok items ->
  claim_text <$> omap snd items = claim_strings val /\
  forall e n i, (e, n, i) ∈ items -> e = false /\ n = false.
Proof.
  intros He Hn. assert (Hp : forall v, exists i, parse claim v = (false, false, i) /\ claim_text <$> i = as_str v).
  { intros v. unfold parse. rewrite !bool_decide_eq_false_2 by done. by destruct v; eexists. }
  destruct val as [|[]|z|s|l|o]; simpl; intros [= <-].
  - destruct (Hp (JBool true)) as (i & -> & Hi). destruct i; [done|]. simpl. split; [done|].
    by intros ??? [= -> -> _]%list_elem_of_singleton.
  - destruct (Hp (JString s)) as (i & -> & Hi). destruct i as [i|]; [|done]. simpl in *. injection Hi as ->. split; [done|].
    by intros ??? [= -> -> _]%list_elem_of_singleton.
  - split.
    + induction l as [|v l IH]; [done|]. destruct (Hp v) as (i & Hv & Hi). simpl. rewrite Hv. simpl.
      destruct (as_str v) as [s|]; destruct i as [i|]; simplify_eq/=; by rewrite ?IH.
    + intros e n i (v & Hv & _)%list_elem_of_fmap. destruct (Hp v) as (j & Hj & _). rewrite Hj in Hv. by simplify_eq.
Qed.

(** The items of [exp] ([b = true]) and of [nbf] only set their flag. *)
Lemma flag_items (b : bool) val items (flags : bool * bool) :
  claim_values (if b then "exp" else "nbf") val = Ok items ->
  omap snd items = [] /\
  exists on, foldl enable_flags flags items =
      (if b then (flags.1 || on, flags.2) else (flags.1, flags.2 || on)) /\ (on = true <-> says_true val).
Proof.
  set (P v := parse (if b then "exp"%string else "nbf"%string) v).
  assert (Hp : forall v, P v = (if default false (as_bool v) then (b, negb b, None) else (false, false, None))).
  { intros v. unfold P, parse. destruct b; cbn; by destruct (default false (as_bool v)). }
  assert (Hf : forall l fl, omap snd (P <$> l) = [] /\ exists on, foldl enable_flags fl (P <$> l) =
      (if b then (fl.1 || on, fl.2) else (fl.1, fl.2 || on)) /\ (on = true <-> JBool true ∈ l)).
  { induction l as [|v l IH]; intros [e n]; simpl.
    - split; [done|]. exists false. rewrite !orb_false_r. split; [by destruct b|]. split; [done|by intros ?%elem_of_nil].
    - rewrite Hp. destruct (IH (enable_flags (e, n) (P v))) as (Hom & on & Hfl & Hon). rewrite Hp in Hfl.
      assert (v = JBool true \/ v <> JBool true) as [->|Hv] by (destruct v as [|[]| | | |]; auto; by right).
      + cbn [as_bool default] in *. split; [done|]. exists true. split; [|split; [by constructor|done]].
        destruct b, e, n; simpl in *; exact Hfl.
      + assert (Hb : default false (as_bool v) = false) by (by destruct v as [|[]| | | |]). rewrite Hb in *. split; [done|].
        exists on. split; [exact Hfl|]. rewrite Hon, elem_of_cons. naive_solver. }
  unfold claim_values. fold P. destruct val as [|[]|z|s|l|o]; intros [= <-].
  - destruct (Hf [JBool true] flags) as (Hom & on & Hfl & Hon). split; [done|]. exists on. split; [done|].
    rewrite Hon, list_elem_of_singleton. unfold says_true. naive_solver.
  - destruct (Hf [JString s] flags) as (Hom & on & Hfl & Hon). split; [done|]. exists on. split; [done|].
    rewrite Hon, list_elem_of_singleton. unfold says_true. naive_solver.
  - destruct (Hf l flags) as (Hom & on & Hfl & Hon). split; [done|]. exists on. split; [done|].
    rewrite Hon. unfold says_true. naive_solver.
Qed.

Definition texts_of (items : list ClaimItem) : list string := claim_text <$> items.

(** What the settings say after the claims [objs]. *)
Record claims_read (objs : list (string * Json)) (v : ValidateClaims) : Prop := {
  read_exp : validate_exp_enable v = true <-> exists val, ("exp"%string, val) ∈ objs /\ says_true val;
  read_nbf : validate_nbf_enable v = true <-> exists val, ("nbf"%string, val) ∈ objs /\ says_true val;
  read_sub s : claim_text <$> validate_sub v = Some s <->
    exists val, ("sub"%string, val) ∈ objs /\ head (claim_strings val) = Some s;
  read_iss l : texts_of <$> validate_iss v = Some l <->
    exists val, ("iss"%string, val) ∈ objs /\ claim_strings val = l /\ l <> [];
  read_aud l : texts_of <$> validate_aud v = Some l <->
    exists val, ("aud"%string, val) ∈ objs /\ claim_strings val = l /\ l <> [];
  read_customs name l : (exists items, (name, items) ∈ validate_customs v /\ texts_of items = l) <->
    exists val, (name, val) ∈ objs /\ ~ special name /\ claim_strings val = l /\ l <> [];
}.

Definition read_one (v : ValidateClaims) (claim : string) (items : list (bool * bool * option ClaimItem)) : ValidateClaims :=
  add_claim (set_enabled (foldl enable_flags (validate_exp_enable v, validate_nbf_enable v) items) v) claim (omap snd items).

Lemma elem_snoc_key {A} (l : list (string * A)) k k' (a a' : A) :
  (k, a) ∈ l ++ [(k', a')] <-> (k, a) ∈ l \/ (k = k' /\ a = a').
Proof. rewrite elem_of_app, list_elem_of_singleton. naive_solver. Qed.

Lemma flags_kept items flags :
  (forall e n i, (e, n, i) ∈ items -> e = false /\ n = false) -> foldl enable_flags flags items = flags.
Proof.
  revert flags. induction items as [|[[e n] i] items IH]; intros [ex nb] Hi; [done|]. simpl.
  destruct (Hi e n i) as [-> ->]; [by left|]. simpl. apply IH. intros ????. eapply Hi. by right.
Qed.

Lemma elem_insert_custom name items l name' items' :
  name ∉ l.*1 -> (name', items') ∈ insert_custom name items l <-> (name', items') ∈ l \/ (name' = name /\ items' = items).
Proof.
  intros Hn. unfold insert_custom. rewrite elem_snoc_key, list_elem_of_filter. split; [naive_solver|].
  intros [Hin|?]; [|by right]. left. split; [|done]. simpl. intros ->. apply Hn. apply list_elem_of_fmap. by exists (name, items').
Qed.

Lemma ex_snoc (P : Json -> Prop) k claim (objs : list (string * Json)) val0 :
  (exists val, (k, val) ∈ objs ++ [(claim, val0)] /\ P val) <-> (exists val, (k, val) ∈ objs /\ P val) \/ (k = claim /\ P val0).
Proof. setoid_rewrite elem_snoc_key. naive_solver. Qed.

Lemma ex_old (P : Json -> Prop) k claim (objs : list (string * Json)) val0 :
  k <> claim -> (exists val, (k, val) ∈ objs ++ [(claim, val0)] /\ P val) <-> (exists val, (k, val) ∈ objs /\ P val).
Proof. rewrite ex_snoc. naive_solver. Qed.

Lemma ex_none (P : Json -> Prop) (objs : list (string * Json)) claim :
  claim ∉ objs.*1 -> ~ exists val, (claim, val) ∈ objs /\ P val.
Proof. intros Hn (val & Hin & _). apply Hn, list_elem_of_fmap. by exists (claim, val). Qed.

Lemma add_nothing v claim : add_claim v claim [] = v.
Proof. done. Qed.

Lemma set_enabled_same v : set_enabled (validate_exp_enable v, validate_nbf_enable v) v = v.
Proof. by destruct v. Qed.

Ltac read_fields :=
  split; cbn [validate_exp_enable validate_nbf_enable validate_sub validate_iss validate_aud validate_customs];
  intros; rewrite ?ex_old by done; try done.

Lemma add_claim_ok objs v claim val items :
  claims_read objs v -> claim ∉ objs.*1 -> claim ∉ (validate_customs v).*1 ->
  claim <> "exp"%string -> claim <> "nbf"%string -> texts_of items = claim_strings val ->
  claims_read (objs ++ [(claim, val)]) (add_claim v claim items).
Proof.
  intros [Hexp Hnbf Hsub Hiss Haud Hcus] Hnew Hcnew He Hb Ht.
  destruct items as [|i items]; [|destruct v as [customs exp nbf sub iss aud]];
    cbn [add_claim validate_exp_enable validate_nbf_enable validate_sub validate_iss validate_aud validate_customs] in *.
  { split; intros; rewrite ex_snoc, <- ?Ht; [rewrite Hexp|rewrite Hnbf|rewrite Hsub|rewrite Hiss|rewrite Haud|rewrite Hcus]; naive_solver. }
  assert (Hne : claim_strings val <> []) by (by rewrite <- Ht).
  assert (Hc : forall n l, special claim -> (exists items, (n, items) ∈ customs /\ texts_of items = l) <->
    (exists val0, (n, val0) ∈ objs ++ [(claim, val)] /\ ~ special n /\ claim_strings val0 = l /\ l <> [])).
  { intros n l Hs. rewrite ex_snoc, Hcus. naive_solver. }
  destruct (decide (claim = "sub"%string)) as [->|Hs].
  { rewrite bool_decide_eq_true_2 by done. read_fields; [|apply Hc; unfold special; naive_solver].
    rewrite ex_snoc, <- Ht. pose proof (ex_none (fun v => head (claim_strings v) = Some s) objs _ Hnew). simpl. naive_solver. }
  rewrite bool_decide_eq_false_2 by done. destruct (decide (claim = "iss"%string)) as [->|Hi].
  { rewrite bool_decide_eq_true_2 by done. read_fields; [|apply Hc; unfold special; naive_solver].
    rewrite ex_snoc, <- Ht. pose proof (ex_none (fun v => claim_strings v = l /\ l <> []) objs _ Hnew). simpl. naive_solver. }
  rewrite bool_decide_eq_false_2 by done. destruct (decide (claim = "aud"%string)) as [->|Ha].
  { rewrite bool_decide_eq_true_2 by done. read_fields; [|apply Hc; unfold special; naive_solver].
    rewrite ex_snoc, <- Ht. pose proof (ex_none (fun v => claim_strings v = l /\ l <> []) objs _ Hnew). simpl. naive_solver. }
  rewrite bool_decide_eq_false_2 by done. read_fields.
  setoid_rewrite elem_insert_custom; [|done]. rewrite ex_snoc, <- Hcus, <- Ht.
  assert (Hns : ~ special claim) by (unfold special; naive_solver). naive_solver.
Qed.

Lemma read_one_ok objs v claim val items :
  claims_read objs v -> claim ∉ objs.*1 -> claim_values claim val = Ok items ->
  claims_read (objs ++ [(claim, val)]) (read_one v claim items).
Proof.
  intros [Hexp Hnbf Hsub Hiss Haud Hcus] Hnew Hval. unfold read_one.
  assert (Hcnew : claim ∉ (validate_customs v).*1).
  { intros ([n its] & -> & Hin)%list_elem_of_fmap. destruct (Hcus n (texts_of its)) as [Hc _].
    destruct Hc as (val' & Hin' & _); [by exists its|]. apply Hnew, list_elem_of_fmap. by exists (n, val'). }
  destruct (decide (claim = "exp"%string)) as [->|He].
  { destruct (flag_items true val items (validate_exp_enable v, validate_nbf_enable v) Hval) as (-> & on & -> & Hon).
    rewrite add_nothing. split; cbn [set_enabled validate_exp_enable validate_nbf_enable validate_sub validate_iss validate_aud validate_customs fst snd];
      intros; rewrite ?ex_old by done; try done.
    - rewrite ex_snoc, orb_true_iff, Hexp, Hon. naive_solver.
    - rewrite ex_snoc, Hcus. unfold special. naive_solver. }
  destruct (decide (claim = "nbf"%string)) as [->|Hb].
  { destruct (flag_items false val items (validate_exp_enable v, validate_nbf_enable v) Hval) as (-> & on & -> & Hon).
    rewrite add_nothing. split; cbn [set_enabled validate_exp_enable validate_nbf_enable validate_sub validate_iss validate_aud validate_customs fst snd];
      intros; rewrite ?ex_old by done; try done.
    - rewrite ex_snoc, orb_true_iff, Hnbf, Hon. naive_solver.
    - rewrite ex_snoc, Hcus. unfold special. naive_solver. }
  destruct (claim_values_texts claim val items He Hb Hval) as [Htexts Hflags]. rewrite flags_kept by done.
  fold (texts_of (omap snd items)) in Htexts. rewrite set_enabled_same. by apply add_claim_ok.
Qed.

Definition acceptable (val : Json) : bool :=
  match val with JArray _ | JString _ | JBool true => true | _ => false end.

Lemma claim_values_cases claim val :
  if acceptable val then exists items, claim_values claim val = Ok items
  else claim_values claim val = Err (InvalidClaim claim val).
Proof. destruct val as [|[]| | | |]; simpl; eauto. Qed.

Lemma read_claims_spec objs before v :
  NoDup (before ++ objs).*1 -> claims_read before v ->
  match read_claims v objs with
  | Ok v' => claims_read (before ++ objs) v' /\ Forall (fun e => acceptable e.2 = true) objs
  | Err e => exists name val, (name, val) ∈ objs /\ acceptable val = false /\ e = InvalidClaim name val
  | _ => False
  end.
Proof.
  revert before v. induction objs as [|[claim val] objs IH]; intros before v Hnd Hr; cbn [read_claims].
  { rewrite app_nil_r. by split. }
  pose proof (claim_values_cases claim val) as Hv. destruct (acceptable val) eqn:Hacc.
  - destruct Hv as (items & Hv). rewrite Hv. cbn [and_then].
    assert (Hnew : claim ∉ before.*1).
    { intros Hin. rewrite fmap_app in Hnd. apply NoDup_app in Hnd as (_ & Hd & _). apply (Hd claim Hin). simpl. by left. }
    change (before ++ (claim, val) :: objs) with (before ++ [(claim, val)] ++ objs) in *. rewrite app_assoc in *.
    pose proof (IH _ _ Hnd (read_one_ok before v claim val items Hr Hnew Hv)) as H. unfold read_one in H.
    destruct (read_claims _ objs); try done.
    + destruct H. split; [done|]. by constructor.
    + destruct H as (n & x & Hin & ? & ?). exists n, x. split; [by right|done].
  - rewrite Hv. simpl. exists claim, val. split; [by left|done].
Qed.

(** The settings for claims. Read from an object without repeated
    names, they are refused exactly where some claim is given something
    other than a string, an array or [true], and then the error names it.
    Otherwise: the expiry is checked exactly where [exp] says true, the
    start where [nbf] does; the subject is the first text given for [sub],
    issuer and audience one of the texts given for [iss] and [aud]; and
    every other claim with a text is expected to be one of its texts. *)
Theorem claims_settings (objs : list (string * Json)) :
  NoDup objs.*1 ->
  match deserialize_validate_claims (JObject objs) with
  | Ok v => claims_read objs v /\ Forall (fun e => acceptable e.2 = true) objs
  | Err e => exists name val, (name, val) ∈ objs /\ acceptable val = false /\ e = InvalidClaim name val
  | _ => False
  end.
Proof.
  intros Hnd. apply (read_claims_spec objs [] no_claims Hnd).
  split; intros; simpl; split; try done; try (intros (? & ?%elem_of_nil & _); done).
Qed.

(** ** Who is let in by a token *)

Section sound.
Context {Alg Key : Type} `{!TokenLibrary Alg Key} {signed : string -> Key -> Claims -> Prop} {live : bool -> Json -> Prop}.
Context `{!TokenLibraryOk Alg Key signed live} (ip_text : bytes -> string) (cfg : PluginConfig) (key : Key).

(** A claim is one of the expected texts, placeholders filled in. *)
Definition claim_one_of (c : ConnectInfo) (items : list ClaimItem) (P : list string -> Prop) : Prop :=
  exists l, collect (replaces ip_text c) items = Ok l /\ P l.

(** The claims of a token are as the settings ask for this client. *)
Record claims_hold (c : ConnectInfo) (claims : Claims) : Prop := {
  hold_sub item : validate_sub (validate_claims cfg) = Some item ->
    claim_one_of c [item] (fun l => json_get "sub" claims = JString <$> head l);
  hold_iss items : validate_iss (validate_claims cfg) = Some items -> items <> [] ->
    claim_one_of c items (fun l => exists j, json_get "iss" claims = Some j /\ claim_among j l);
  hold_aud items : validate_aud (validate_claims cfg) = Some items -> items <> [] ->
    claim_one_of c items (fun l => exists j, json_get "aud" claims = Some j /\ claim_among j l);
  hold_customs name items : (name, items) ∈ validate_customs (validate_claims cfg) ->
    claim_one_of c items (fun l => exists s, json_get name claims = Some (JString s) /\ s ∈ l);
  hold_exp j : validate_exp_enable (validate_claims cfg) = true -> json_get "exp" claims = Some j -> live true j;
  hold_nbf j : validate_nbf_enable (validate_claims cfg) = true -> json_get "nbf" claims = Some j -> live false j;
}.

Lemma and_then_ok {E A B} (o : outcome E A) (k : A -> outcome E B) b :
  and_then o k = Ok b -> exists a, o = Ok a /\ k a = Ok b.
Proof. destruct o; [by eexists|done..]. Qed.

Lemma ok_or_ok {E A} (e : E) (o : option A) a : ok_or e o = Ok a -> o = Some a.
Proof. destruct o; [by intros [= ->]|done]. Qed.

Lemma check_customs_ok claims customs name l :
  check_customs claims customs = Ok tt -> (name, l) ∈ customs ->
  exists s, json_get name claims = Some (JString s) /\ s ∈ l.
Proof.
  induction customs as [|[n items] customs IH]; [by intros _ ?%elem_of_nil|]. cbn [check_customs].
  destruct (json_get n claims) as [j|] eqn:Hj; [|done]. cbn [mbind option_bind].
  destruct j as [| | |s| |]; try done. cbn [as_str]. destruct (bool_decide (s ∈ items)) eqn:Hs; [|done].
  intros Hc [[= -> ->]|Hin]%elem_of_cons; [|by apply IH]. exists s. split; [done|]. by apply bool_decide_eq_true in Hs.
Qed.

Lemma collect_elem {A B} (f : A -> outcome JwtError B) (l : list A) (bs : list B) a :
  collect f l = Ok bs -> a ∈ l -> exists b, f a = Ok b /\ b ∈ bs.
Proof.
  revert bs. induction l as [|x l IH]; intros bs; [by intros _ ?%elem_of_nil|]. cbn [collect].
  intros (b & Hb & (bs' & Hbs & [= <-])%and_then_ok)%and_then_ok [->|Hin]%elem_of_cons.
  - exists b. split; [done|by left].
  - destruct (IH bs' Hbs Hin) as (b' & ? & ?). exists b'. split; [done|by right].
Qed.

Lemma expected_some c items (l : list string) :
  expected ip_text c (Some items) = Ok (Some l) -> collect (replaces ip_text c) items = Ok l.
Proof. destruct items as [|i items]; [done|]. by intros (l' & Hl & [= ->])%and_then_ok. Qed.

Lemma expected_shape c items o : items <> [] -> expected ip_text c (Some items) = Ok o -> exists l, o = Some l.
Proof. destruct items; [done|]. intros _ (l & _ & [= <-])%and_then_ok. by eexists. Qed.

Lemma standard_auth_sound c t claims :
  standard_auth ip_text key c t (validate_claims cfg) = Ok claims ->
  signed t key claims /\
  (forall item, validate_sub (validate_claims cfg) = Some item ->
     claim_one_of c [item] (fun l => json_get "sub" claims = JString <$> head l)) /\
  (forall items, validate_iss (validate_claims cfg) = Some items -> items <> [] ->
     claim_one_of c items (fun l => exists j, json_get "iss" claims = Some j /\ claim_among j l)) /\
  (forall items, validate_aud (validate_claims cfg) = Some items -> items <> [] ->
     claim_one_of c items (fun l => exists j, json_get "aud" claims = Some j /\ claim_among j l)) /\
  (forall j, validate_exp_enable (validate_claims cfg) = true -> json_get "exp" claims = Some j -> live true j) /\
  (forall j, validate_nbf_enable (validate_claims cfg) = true -> json_get "nbf" claims = Some j -> live false j).
Proof.
  intros (aud & Haud & (iss & Hiss & (sub & Hsub & (a & Ha & Hdec%ok_or_ok)%and_then_ok)%and_then_ok)%and_then_ok)%and_then_ok.
  pose proof (fun name => decode_required _ _ _ _ name Hdec) as Hreq. cbn [required_spec_claims] in Hreq.
  split_and!.
  - by eapply decode_signed.
  - intros item Hi. rewrite Hi in Hsub. destruct (and_then_ok _ _ _ Hsub) as (s & Hs & [= <-]).
    exists [s]. simpl. rewrite Hs. split; [done|].
    destruct (Hreq "sub"%string) as [j Hj]; [unfold required; rewrite !elem_of_app; right; right; by left|].
    rewrite Hj. by rewrite (decode_sub _ _ _ _ s j Hdec eq_refl Hj).
  - intros items Hi Hne. rewrite Hi in Hiss. destruct (expected_shape _ _ _ Hne Hiss) as [l ->].
    exists l. split; [by apply expected_some|].
    destruct (Hreq "iss"%string) as [j Hj]; [unfold required; rewrite !elem_of_app; right; left; by left|].
    exists j. split; [done|]. by eapply (decode_iss _ _ _ _ l j Hdec).
  - intros items Hi Hne. rewrite Hi in Haud. destruct (expected_shape _ _ _ Hne Haud) as [l ->].
    exists l. split; [by apply expected_some|].
    destruct (Hreq "aud"%string) as [j Hj]; [unfold required; rewrite !elem_of_app; left; by left|].
    exists j. split; [done|]. by eapply (decode_aud _ _ _ _ l j Hdec).
  - intros j He. by eapply (decode_exp _ _ _ _ j Hdec).
  - intros j He. by eapply (decode_nbf _ _ _ _ j Hdec).
Qed.

Lemma extended_auth_sound c claims name items :
  extended_auth ip_text c (validate_claims cfg) claims = Ok tt -> (name, items) ∈ validate_customs (validate_claims cfg) ->
  claim_one_of c items (fun l => exists s, json_get name claims = Some (JString s) /\ s ∈ l).
Proof.
  intros (customs & Hc & Hcheck)%and_then_ok Hin.
  destruct (collect_elem _ _ _ _ Hc Hin) as ([n l] & (l' & Hl & [= <- <-])%and_then_ok & Hin').
  exists l'. split; [done|]. by apply (check_customs_ok claims customs).
Qed.

(** C11. Letting in by a token. The handler ends the chain. It lets a client
    in only with a token that is signed with the key, whose required claims
    are as the settings ask, with the placeholders filled in for this very
    client; the session is then a superuser exactly if the token says so,
    with the rules and the expiry of the token. A client another handler
    has refused stays refused; every other client is not authorized. *)
Theorem jwt_authenticates (c : ConnectInfo) (acc : option HookResult) :
  let refused := acc = Some (HAuthResult AuthBadUsernameOrPassword) \/ acc = Some (HAuthResult AuthNotAuthorized) in
  let accepts superuser info := exists t claims rules,
    token cfg c = Some t /\ signed t key claims /\ claims_hold c claims /\ token_rules c claims = Ok rules /\
    superuser = claim_superuser claims /\ info = Some (mkAuthInfo superuser (claim_expire_at claims) rules) in
  exists r, on_authenticate ip_text cfg key c acc = (false, Some (HAuthResult r)) /\
    match r with
    | AuthAllow superuser info => ~ refused /\ accepts superuser info
    | AuthNotAuthorized => True
    | AuthBadUsernameOrPassword => acc = Some (HAuthResult AuthBadUsernameOrPassword)
    | AuthNotFound => False
    end.
Proof.
  intros refused accepts.
  assert (Hcore : ~ refused -> exists r, match token cfg c with
    | None => not_authorized
    | Some t => match standard_auth ip_text key c t (validate_claims cfg) with
                | Ok claims => match extended_auth ip_text c (validate_claims cfg) claims with
                    | Ok _ => match token_rules c claims with
                        | Ok rules => (false, Some (HAuthResult (AuthAllow (claim_superuser claims)
                             (Some (mkAuthInfo (claim_superuser claims) (claim_expire_at claims) rules)))))
                        | _ => not_authorized end
                    | _ => not_authorized end
                | _ => not_authorized end
    end = (false, Some (HAuthResult r)) /\
    match r with AuthAllow superuser info => ~ refused /\ accepts superuser info | AuthNotAuthorized => True | _ => False end).
  { intros Hnr. destruct (token cfg c) as [t|] eqn:Ht; [|by exists AuthNotAuthorized].
    destruct (standard_auth _ _ _ _ _) as [claims| | |] eqn:Hs; [|by exists AuthNotAuthorized..].
    destruct (extended_auth _ _ _ _) as [[]| | |] eqn:Hx; [|by exists AuthNotAuthorized..].
    destruct (token_rules _ _) as [rules| | |] eqn:Hru; [|by exists AuthNotAuthorized..].
    eexists. split; [done|]. split; [done|]. destruct (standard_auth_sound _ _ _ Hs) as (Hsig & Hsub & Hiss & Haud & He & Hn).
    exists t, claims, rules. split_and!; try done. split; try done. intros name items Hin. by apply (extended_auth_sound c claims name). }
  unfold on_authenticate. destruct acc as [[l|[su info| | |]|r|tf|r|r|p|]|];
    try (destruct Hcore as (r' & Hcr & Hr'); [unfold refused; naive_solver|]; exists r'; split; [exact Hcr|]; destruct r'; [exact Hr'|done..]).
  - by exists AuthBadUsernameOrPassword.
  - by exists AuthNotAuthorized.
Qed.
End sound.

(** ** What the token lets the session do *)

Section rights.
Context {Alg Key : Type} `{!TokenLibrary Alg Key} (ip_text : bytes -> string).

Lemma one_handler (e : HookEntry (list (Id * Message))) (m : DefaultHookManager (list (Id * Message))) t p x :
  handlers m t = [e] -> he_enabled e = true -> exec m t p x = ((he_handler e p None x).1.2, (he_handler e p None x).2).
Proof. unfold exec. intros -> He. simpl. rewrite He. by destruct (he_handler e p None x) as [[[] ?] ?]. Qed.

(** The handlers of a broker with this module only. *)
Lemma init_handlers cfg now ids m :
  init (Alg := Alg) ip_text manager_new (Some cfg) now ids = Ok m ->
  exists key, key_of (Alg := Alg) cfg = Some key /\
    forall t, t = ClientAuthenticate \/ t = ClientSubscribeCheckAcl \/ t = MessagePublishCheckAcl ->
      exists id, handlers m t = [mkEntry (priority cfg, id) (hook ip_text cfg key now) true].
Proof.
  unfold init. intros (u & _ & (key & Hkey%ok_or_ok & Hm)%and_then_ok)%and_then_ok. exists key. split; [done|].
  cbn in Hm. injection Hm as <-. intros t [->|[->| ->]]; eexists; cbn; unfold enable;
    repeat match goal with
    | |- context [@decide (@eq HookType ?a ?b) _] => rewrite (decide_True (P := a = b)) by done
    | |- context [@decide (@eq HookType ?a ?b) _] => rewrite (decide_False (P := a = b)) by done
    end; cbn; by rewrite decide_True.
Qed.

(** The rights a token gives. In a broker with this module, what a
    session that is no superuser may publish and subscribe to is what the
    rules of its token say: a PUBLISH is refused exactly where they refuse
    it, with the disconnect of the settings; a SUBSCRIBE is answered by
    them; where they say nothing both are allowed, and a session without a
    token is free. *)
Theorem token_rights cfg now ids m (s : HookSession) (p : BPublish) (sub : Subscribe) x :
  init (Alg := Alg) ip_text manager_new (Some cfg) now ids = Ok m -> hs_superuser s <> Some true ->
  message_publish_check_acl m s p x =
    (match hs_auth_info s ≫= fun a => publish_acl a (BPublish.inner p) (disconnect_if_pub_rejected cfg) with
     | Some (_, Some (HPublishAclResult r)) => r
     | _ => acl_allow
     end, x) /\
  client_subscribe_check_acl m s sub x =
    (match hs_auth_info s ≫= fun a => subscribe_acl a sub with
     | Some (_, Some (HSubscribeAclResult r)) => Some r
     | _ => None
     end, x).
Proof.
  intros Hm Hs. destruct (init_handlers _ _ _ _ Hm) as (key & _ & Hh).
  assert (Hsu : superuser_of s = false) by (unfold superuser_of; by destruct (hs_superuser s) as [[]|]).
  unfold message_publish_check_acl, client_subscribe_check_acl, run_hook. rewrite Hsu. cbn [get_type].
  destruct (Hh MessagePublishCheckAcl) as [i1 H1]; [auto|]. destruct (Hh ClientSubscribeCheckAcl) as [i2 H2]; [auto|].
  rewrite (one_handler _ _ _ _ _ H1 eq_refl), (one_handler _ _ _ _ _ H2 eq_refl). cbn [he_handler hook fst snd]. split.
  - unfold on_publish. by destruct (hs_auth_info s ≫= _) as [[? [[]|]]|].
  - unfold on_subscribe. by destruct (hs_auth_info s ≫= _) as [[? [[]|]]|].
Qed.
End rights.

(** ** A token library to run it with

    One key, tokens from a table, the checks the library documents; the
    present is 100. *)

Module SampleLibrary.
Definition among (j : Json) (l : list string) : bool :=
  match j with
  | JString s => bool_decide (s ∈ l)
  | JArray js => existsb (fun x => match x with JString s => bool_decide (s ∈ l) | _ => false end) js
  | _ => false
  end.

Definition in_time (exp : bool) (j : Json) : bool :=
  match as_u64 j with Some n => if exp then 100 <=? n else n <=? 100 | None => false end.

Definition checked (on : bool) (j : option Json) (p : Json -> bool) : bool :=
  match on, j with true, Some j => p j | _, _ => true end.
Definition given {A} (o : option A) : bool := match o with Some _ => true | None => false end.

Definition valid (v : Validation unit) (c : Claims) : bool :=
  forallb (fun n => given (json_get n c)) (required_spec_claims v) &&
  checked (v_validate_exp v) (json_get "exp" c) (in_time true) &&
  checked (v_validate_nbf v) (json_get "nbf" c) (in_time false) &&
  checked (given (v_sub v)) (json_get "sub" c)
    (fun j => match j with JString s => bool_decide (v_sub v = Some s) | _ => false end) &&
  checked (given (v_iss v)) (json_get "iss" c) (fun j => among j (default [] (v_iss v))) &&
  checked (v_validate_aud v && given (v_aud v)) (json_get "aud" c) (fun j => among j (default [] (v_aud v))).

(** The token ["a"] of client a, that may publish to ["a/#"] until 200. *)
Definition claims_a : Claims :=
  [("sub"%string, JString "a"); ("exp"%string, JNumber (Some 200));
   ("acl"%string, JArray [JObject [("permission"%string, JString "allow"); ("action"%string, JString "publish");
                                   ("topic"%string, JString "a/#")];
                          JObject [("permission"%string, JString "deny"); ("action"%string, JString "all");
                                   ("topic"%string, JString "#")]])].
(** The token ["forever"], without an expiry. *)
Definition claims_forever : Claims := [("sub"%string, JString "a")].

Definition tokens (t k : string) : option Claims :=
  if bool_decide (k = "oximqttsecret") then
    if bool_decide (t = "a") then Some claims_a
    else if bool_decide (t = "forever") then Some claims_forever else None
  else None.

#[global] Instance library : TokenLibrary unit string := {
  decode_header t := if bool_decide (t = "") then None else Some tt;
  decode t k v := match tokens t k with Some c => if valid v c then Some c else None | None => None end;
  key_of cfg := Some (hmac_secret cfg);
}.

Lemma among_ok j l : among j l = true -> claim_among j l.
Proof.
  destruct j as [| | |s|js|]; simpl; try done; [by intros ?%bool_decide_eq_true|].
  intros (j & Hin & Hj)%existsb_exists. apply list_elem_of_In in Hin. destruct j; try done. apply bool_decide_eq_true in Hj. eauto.
Qed.

#[global] Instance library_ok :
  TokenLibraryOk unit string (fun t k c => tokens t k = Some c) (fun exp j => in_time exp j = true).
Proof.
  assert (Hd : forall t k v c, decode (Alg := unit) t k v = Some c -> tokens t k = Some c /\ valid v c = true).
  { intros t k v c. simpl. destruct (tokens t k) as [c'|]; [|done]. destruct (valid v c') eqn:?; [by intros [= ->]|done]. }
  split; [intros t k v c [Ht _]%Hd; done|intros t k v c name [_ Hv]%Hd|intros t k v c j [_ Hv]%Hd..|intros t k v c s j [_ Hv]%Hd|
    intros t k v c l j [_ Hv]%Hd|intros t k v c l j [_ Hv]%Hd]; unfold valid in Hv; rewrite !andb_true_iff in Hv;
    destruct Hv as [[[[[H1 H2] H3] H4] H5] H6].
  - intros Hin. rewrite forallb_forall in H1. specialize (H1 name). rewrite <- list_elem_of_In in H1. specialize (H1 Hin).
    by destruct (json_get name c).
  - intros He Hj. by rewrite He, Hj in H2.
  - intros He Hj. by rewrite He, Hj in H3.
  - intros Hs Hj. rewrite Hs, Hj in H4. simpl in H4. destruct j; try done. apply bool_decide_eq_true in H4. congruence.
  - intros Hl Hj. rewrite Hl, Hj in H5. by apply among_ok.
  - intros Hon Hl Hj. rewrite Hon, Hl, Hj in H6. by apply among_ok.
Qed.
End SampleLibrary.

Definition no_ip_text (_ : bytes) : string := "".
Definition own_claims : ValidateClaims :=
  mkClaims [] true false (Some (mkClaim "${clientid}" false true false false)) None None.
Definition sample_config : PluginConfig :=
  mkConfig true false 50 FromPassword HmacBased "oximqttsecret" false "" own_claims.
Definition with_token (client tok : string) : ConnectInfo :=
  ConnectV3 (Id_from 0 1 (text client)) (V3.mkConnect MQTT_LEVEL_311 true 60 None (text client) None (Some (text tok)) None).

(** Client a is let in with its token, and by the theorem its client id is
    the subject; client b is not let in with it. *)
Lemma jwt_authenticates_witness :
  exists superuser info claims,
    on_authenticate no_ip_text sample_config "oximqttsecret"%string (with_token "a" "a") None =
      (false, Some (HAuthResult (AuthAllow superuser info))) /\
    SampleLibrary.tokens "a" "oximqttsecret" = Some claims /\ json_get "sub" claims = Some (JString "a") /\
    on_authenticate no_ip_text sample_config "oximqttsecret"%string (with_token "b" "a") None = not_authorized.
Proof.
  destruct (jwt_authenticates no_ip_text sample_config "oximqttsecret"%string (with_token "a" "a") None) as (r & Hr & Hm).
  assert (Ha : exists su info, r = AuthAllow su info).
  { revert Hr. vm_compute. intros [= <-]. eexists _, _; reflexivity. }
  destruct Ha as (su & info & ->). destruct Hm as (_ & t & claims & rules & Ht & Hsig & Hhold & _).
  injection Ht as <-. exists su, info, claims. split_and!; [done|exact Hsig| |vm_compute; reflexivity].
  destruct (hold_sub _ _ _ _ Hhold _ eq_refl) as (l & Hl & Hsub). rewrite Hsub. injection Hl as <-. reflexivity.
Defined.

Lemma claims_settings_witness :
  exists v, deserialize_validate_claims (JObject [("exp"%string, JBool true); ("role"%string, JString "pump")]) = Ok v /\
    validate_exp_enable v = true.
Proof.
  assert (Hnd : NoDup [("exp"%string, JBool true); ("role"%string, JString "pump")].*1)
    by (apply (bool_decide_eq_true_1 _); vm_compute; reflexivity).
  pose proof (claims_settings [("exp"%string, JBool true); ("role"%string, JString "pump")] Hnd) as H.
  destruct (deserialize_validate_claims _) as [v| | |] eqn:Hd; [|discriminate Hd..]. exists v. split; [done|].
  destruct H as [Hr _]. apply (read_exp _ _ Hr). exists (JBool true). split; [by left|by left].
Defined.

Definition jwt_manager : outcome JwtError (DefaultHookManager (list (Id * Message))) :=
  init (Alg := unit) no_ip_text manager_new (Some sample_config) 0 (fun _ => "id"%string).
Definition session_with (info : option AuthInfo) : HookSession :=
  mkHookSession (Id_from 0 1 (text "a")) None (Some 4) (Some false) default_listener info.
Definition info_a : option AuthInfo :=
  match on_authenticate no_ip_text sample_config "oximqttsecret"%string (with_token "a" "a") None with
  | (_, Some (HAuthResult (AuthAllow _ info))) => info
  | _ => None
  end.
Definition publish_to (t : string) : BPublish := BPublish.from (mkPublish false false AtMostOnce (text t) None [] None).

(** With that token client a may publish to its own topics only. *)
Lemma token_rights_witness :
  exists m, jwt_manager = Ok m /\
    acl_is_allow (message_publish_check_acl m (session_with info_a) (publish_to "a/1") []).1 = true /\
    acl_is_allow (message_publish_check_acl m (session_with info_a) (publish_to "b/1") []).1 = false.
Proof.
  assert (Hm : exists m, jwt_manager = Ok m) by (eexists; reflexivity). destruct Hm as [m Hm]. exists m. split; [done|].
  assert (Hs : hs_superuser (session_with info_a) <> Some true) by done.
  destruct (token_rights no_ip_text sample_config 0 (fun _ => "id"%string) m (session_with info_a) (publish_to "a/1")
    (mkSubscribe "a" default_options) [] Hm Hs) as [H1 _].
  destruct (token_rights no_ip_text sample_config 0 (fun _ => "id"%string) m (session_with info_a) (publish_to "b/1")
    (mkSubscribe "a" default_options) [] Hm Hs) as [H2 _].
  rewrite H1, H2. split; vm_compute; reflexivity.
Defined.

(** ** What the settings do not say *)

(** Switching the expiry off is refused. *)
Lemma exp_false_refused : exists e, deserialize_validate_claims (JObject [("exp"%string, JBool false)]) = Err e.
Proof. eexists. vm_compute. reflexivity. Qed.

(** Asking for another claim switches it off. *)
Lemma exp_off_by_omission :
  validate_exp_enable (validate_claims default_config) = true /\
  exists v, deserialize_validate_claims (JObject [("sub"%string, JString "a")]) = Ok v /\ validate_exp_enable v = false.
Proof. split; [done|]. eexists. split; vm_compute; reflexivity. Qed.

(** A claim that is to be [true] is not looked at. *)
Lemma true_claim_ignored :
  exists v, deserialize_validate_claims (JObject [("admin"%string, JBool true)]) = Ok v /\ validate_customs v = [].
Proof. eexists. split; vm_compute; reflexivity. Qed.

(** A token without an expiry is good forever, with the expiry checked. *)
Lemma token_without_expiry :
  validate_exp_enable (validate_claims sample_config) = true /\
  exists info, on_authenticate no_ip_text sample_config "oximqttsecret"%string (with_token "a" "forever") None =
    (false, Some (HAuthResult (AuthAllow false (Some info)))) /\ expire_at info = None.
Proof. split; [done|]. eexists. split; vm_compute; reflexivity. Qed.
