(* ===== verification/Floats.v ===== *)
(** * Floating-point numbers

    The [f64] and [f32] arithmetic of the statistics, on the Standard
    Library's specification of IEEE 754: a value is a [spec_float], and each
    operation rounds as the code's does. *)

From stdpp Require Import prelude.
From Stdlib Require Import ZArith Lia SpecFloat.
From S2P Require Import Prelude.

Local Open Scope Z_scope.

(** A duration in nanoseconds. *)
Definition SECOND : Z := 1000000000.

(** [x as iN] and [x as uN]: truncation, saturating, [NaN] to 0. *)
Definition to_int (lo hi : Z) (x : spec_float) : Z :=
  match x with
  | S754_zero _ | S754_nan => 0
  | S754_infinity s => if s then lo else hi
  | S754_finite s m e =>
      let v := Z.shiftl (Z.pos m) e in
      Z.max lo (Z.min hi (if s then - v else v))
  end.
Definition to_i64 : spec_float -> Z := to_int (- 2 ^ 63) (2 ^ 63 - 1).
Definition to_isize : spec_float -> Z := to_i64.
Definition to_u64 : spec_float -> Z := to_int 0 (2 ^ 64 - 1).

Module F64.
Definition t : Type := spec_float.
Definition add : t -> t -> t := SFadd 53 1024.
Definition mul : t -> t -> t := SFmul 53 1024.
Definition div : t -> t -> t := SFdiv 53 1024.
Definition of_Z (n : Z) : t := binary_normalize 53 1024 n 0 false.
Definition zero : t := S754_zero false.

Definition is_nan (x : t) : bool := match x with S754_nan => true | _ => false end.

(** [f64::max]: [NaN] loses. *)
Definition max (x y : t) : t := if is_nan x then y else if is_nan y then x else if SFltb x y then y else x.

(** [f64::ceil] *)
Definition ceil (x : t) : t :=
  match x with
  | S754_finite s m e =>
      if 0 <=? e then x
      else binary_normalize 53 1024 (- ((- cond_Zopp s (Z.pos m)) / 2 ^ (- e))) 0 s
  | _ => x
  end.

(** [Duration::as_secs_f64] *)
Definition as_secs (d : Z) : t := add (of_Z (d / SECOND)) (div (of_Z (d mod SECOND)) (of_Z SECOND)).
End F64.

Module F32Ops.
Definition add : spec_float -> spec_float -> spec_float := SFadd 24 128.
Definition div : spec_float -> spec_float -> spec_float := SFdiv 24 128.
Definition of_Z (n : Z) : spec_float := binary_normalize 24 128 n 0 false.
End F32Ops.

(** Casts stay in range. *)
Lemma to_int_range lo hi x : lo <= 0 <= hi -> lo <= to_int lo hi x <= hi.
Proof. intros H. destruct x as [s|s| |s m e]; simpl; [lia|destruct s; lia|lia|lia]. Qed.

Example half_of_a_second : F64.as_secs 1500000000 = S754_finite false 6755399441055744 (-52).
Proof. by vm_compute. Qed.
