(* ===== verification/Stats.v ===== *)
(** * Statistics: [utils/rate_counter.rs], [stats.rs], [metrics.rs], [context.rs]

    Module [RateCounter] has the counter of throughput, with its atomic
    steps interleaved; Module [Stats] the statistics of a node, their
    snapshot and their aggregation; Module [Metrics] the event counters.
    The maps of a node ([HashMap]) are [gmap]s: the code never depends on
    their order. *)

From stdpp Require Import prelude list gmap strings.
From Stdlib Require Import ZArith Lia SpecFloat.
From S2P Require Import Prelude CodecTypes BrokerTypes Connection RouterAdmin Floats.

Local Open Scope Z_scope.

(** ** Rates *)

Module RateCounter.
(** The five atomics; [speed] holds the bits of an [f64]. *)
Record t : Type := mk {
  total : Z;
  speed : F64.t;
  last_total : Z;
  current : Z;
  maximum : Z;
  mode : Counter.StatsMergeMode;
}.

Definition new_with_mode (m : Counter.StatsMergeMode) : t := mk 0 F64.zero 0 0 0 m.
Definition new : t := new_with_mode Counter.NoMerge.

Definition snapshot (s : t) : t := mk (total s) (speed s) (total s) (current s) (maximum s) (mode s).

(** The atomic steps of [incs]: [fetch_add] on [total], [fetch_add] on
    [current], [fetch_max] on [max]. [n as i64] wraps, as does [old + n] in
    a release build. *)
Definition add_total (s : t) (n : Z) : t :=
  mk (wrap 64 (total s + n)) (speed s) (last_total s) (current s) (maximum s) (mode s).
Definition add_current (s : t) (n : Z) : t :=
  mk (total s) (speed s) (last_total s) (isize (current s + n)) (maximum s) (mode s).
Definition fetch_max (s : t) (v : Z) : t :=
  mk (total s) (speed s) (last_total s) (current s) (Z.max (maximum s) v) (mode s).

Definition incs (s : t) (n : Z) : t :=
  let s := add_total s n in
  let old := current s in
  let s := add_current s (isize n) in
  fetch_max s (isize (old + isize n)).
Definition inc (s : t) : t := incs s 1.
Definition decs (s : t) (n : Z) : t := add_current s (- n).
Definition dec (s : t) : t := decs s 1.

Definition tick (s : t) (interval : Z) : t :=
  let curr := total s in
  let prev := last_total s in
  let delta := F64.of_Z (wrap 64 (curr - prev)) in
  let rate := F64.div delta (F64.as_secs interval) in
  mk (total s) rate curr (current s) (maximum s) (mode s).

Definition reset (s : t) : t := mk 0 F64.zero 0 0 0 (mode s).

Definition add (s o : t) : t :=
  mk (wrap 64 (total s + total o)) (speed s) (last_total s) (isize (current s + current o))
    (isize (maximum s + maximum o)) (mode s).
Definition set (s o : t) : t := mk (total o) (speed o) (total o) (current o) (maximum o) (mode s).

Definition merge (s o : t) : t :=
  match mode s with
  | Counter.NoMerge => s
  | Counter.Sum => add s o
  | Counter.Max =>
      mk (Z.max (total s) (total o)) (speed s) (last_total s) (Z.max (current s) (current o))
        (Z.max (maximum s) (maximum o)) (mode s)
  | Counter.Min =>
      mk (Z.min (total s) (total o)) (speed s) (last_total s) (Z.min (current s) (current o))
        (Z.min (maximum s) (maximum o)) (mode s)
  | Counter.Average => s
  end.

(** [RateCounterData], what is serialized, and the counter made of it. *)
Record RateCounterData : Type := mkData {
  d_total : Z; d_speed : F64.t; d_current : Z; d_max : Z; d_mode : Counter.StatsMergeMode;
}.
Definition serialize (s : t) : RateCounterData := mkData (total s) (speed s) (current s) (maximum s) (mode s).
Definition deserialize (d : RateCounterData) : t := mk (d_total d) (d_speed d) (d_total d) (d_current d) (d_max d) (d_mode d).

(** *** Interleaving

    Clones share the atomics, so that threads interleave between the atomic
    steps. [p_counted] are the amounts of the calls of [incs] that have
    added to [total], [p_raised] the values of those that have added to
    [current] and have not raised the maximum yet. The rest is history: what
    was added and taken in all, what had been added at the last tick, and
    the most that ever was in flight. *)
Record world : Type := mkWorld {
  w_counter : t;
  p_counted : list Z;
  p_raised : list Z;
  h_added : Z;
  h_taken : Z;
  h_ticked : Z;
  h_peak : Z;
}.

(** What is in flight: the amounts added to [current], less what was taken. *)
Definition sum (l : list Z) : Z := foldr Z.add 0 l.
Definition flight (w : world) : Z := h_added w - sum (p_counted w) - h_taken w.

Definition in_i64 (z : Z) : Prop := - 2 ^ 63 <= z < 2 ^ 63.

Inductive step : world -> world -> Prop :=
| step_total s pc pr a k t p n :
    0 <= n < 2 ^ 63 ->
    step (mkWorld s pc pr a k t p) (mkWorld (add_total s n) (n :: pc) pr (a + n) k t p)
| step_current s pc1 n pc2 pr a k t p :
    let old := current s in
    let w := mkWorld (add_current s (isize n)) (pc1 ++ pc2) (isize (old + isize n) :: pr) a k t in
    let peak := Z.max p (a - sum (pc1 ++ pc2) - k) in
    in_i64 (flight (w peak)) ->
    step (mkWorld s (pc1 ++ n :: pc2) pr a k t p) (w peak)
| step_max s pc pr1 v pr2 a k t p :
    step (mkWorld s pc (pr1 ++ v :: pr2) a k t p) (mkWorld (fetch_max s v) pc (pr1 ++ pr2) a k t p)
| step_decs s pc pr a k t p n :
    0 <= n ->
    in_i64 (flight (mkWorld (decs s n) pc pr a (k + n) t p)) ->
    step (mkWorld s pc pr a k t p) (mkWorld (decs s n) pc pr a (k + n) t p)
| step_tick s pc pr a k t p d :
    step (mkWorld s pc pr a k t p) (mkWorld (tick s d) pc pr a k a p).

Definition start : world := mkWorld new [] [] 0 0 0 0.

(** ** Facts *)

Record inv (w : world) : Prop := mkInv {
  inv_total : total (w_counter w) = wrap 64 (h_added w);
  inv_ticked : last_total (w_counter w) = wrap 64 (h_ticked w);
  inv_current : current (w_counter w) = flight w;
  inv_range : in_i64 (flight w);
  inv_order : 0 <= h_ticked w <= h_added w;
  inv_below : flight w <= h_peak w;
  inv_counted : Forall (fun n => 0 <= n < 2 ^ 63) (p_counted w);
  inv_peak : foldr Z.max (maximum (w_counter w)) (p_raised w) = h_peak w;
}.

Lemma sum_app l l' : sum (l ++ l') = sum l + sum l'.
Proof. unfold sum. induction l as [|x l IH]; simpl; [done|]. rewrite IH. lia. Qed.

Lemma wrap_add a b : wrap 64 (wrap 64 a + b) = wrap 64 (a + b).
Proof. unfold wrap. by rewrite Zplus_mod_idemp_l. Qed.

Lemma foldr_max_app m l v l' : foldr Z.max m (l ++ v :: l') = foldr Z.max (Z.max m v) (l ++ l').
Proof.
  assert (Hm : forall l, foldr Z.max (Z.max m v) l = Z.max v (foldr Z.max m l)).
  { intros l0. induction l0 as [|x l0 IH]; simpl; lia. }
  rewrite Hm. clear Hm. induction l as [|x l IH]; simpl; [done|]. rewrite IH. lia.
Qed.

Lemma sum_cons n l : sum (n :: l) = n + sum l.
Proof. done. Qed.

Lemma rate_step_inv w w' : step w w' -> inv w -> inv w'.
Proof.
  intros Hs [Ht Hl Hc Hr Ho Hb Hp Hk]. destruct Hs; unfold flight, in_i64 in *; cbn -[sum] in *.
  - constructor; unfold flight; cbn -[sum]; rewrite ?sum_cons; try done; try lia.
    + by rewrite Ht, wrap_add.
    + unfold in_i64. lia.
    + by constructor.
  - rewrite sum_app, ?sum_cons in *. apply Forall_app in Hp as [Hp1 Hp2]. apply Forall_cons in Hp2 as [Hn Hp2].
    assert (Hnew : isize (old + isize n) = a - (sum pc1 + sum pc2) - k).
    { subst old. rewrite (Counter.isize_id n) by lia. rewrite Counter.isize_id; rewrite Hc; lia. }
    subst peak w. constructor; unfold flight; cbn -[sum]; rewrite ?sum_app; try done; try lia.
    by apply Forall_app.
  - constructor; unfold flight; cbn -[sum]; try done. by rewrite <- foldr_max_app.
  - constructor; unfold flight; cbn -[sum]; try done; try lia. rewrite Hc, Counter.isize_id; lia.
  - constructor; unfold flight; cbn -[sum]; try done; lia.
Qed.

Lemma rate_reachable_inv w : rtc step start w -> inv w.
Proof.
  intros Hr. enough (H : forall w0, rtc step w0 w -> inv w0 -> inv w).
  { apply (H start Hr). by constructor. }
  clear Hr. intros w0 Hr. induction Hr as [|w0 w1 w Hs _ IH]; [done|]. intros Hi. by apply IH, (rate_step_inv w0 w1).
Qed.

Lemma wrap_difference a b : 0 <= b <= a -> a < 2 ^ 64 -> wrap 64 (wrap 64 a - wrap 64 b) = a - b.
Proof. intros Hb Ha. unfold wrap. rewrite (Z.mod_small a), (Z.mod_small b), Z.mod_small by lia. done. Qed.


(** A call of [incs] on its own is its three steps. *)
Lemma incs_steps s n a k t p :
  0 <= n < 2 ^ 63 -> in_i64 (a + n - k) ->
  rtc step (mkWorld s [] [] a k t p) (mkWorld (incs s n) [] [] (a + n) k t (Z.max p (a + n - 0 - k))).
Proof.
  intros Hn Hf. eapply rtc_l; [by apply (step_total s [] [])|].
  eapply rtc_l; [apply (step_current _ [] n [])|].
  { unfold flight. cbn [h_added p_counted h_taken app sum foldr]. by rewrite Z.sub_0_r. }
  eapply rtc_l; [apply (step_max _ [] [] _ [])|]. apply rtc_refl.
Qed.

(** What crosses nodes is the counter as it was, a new one. *)
Lemma serialize_snapshot s : deserialize (serialize s) = snapshot s.
Proof. done. Qed.

(** Averaging does nothing here either. *)
Lemma rate_average s o : mode s = Counter.Average -> merge s o = s.
Proof. unfold merge. by intros ->. Qed.

End RateCounter.

(** ** The queues of tasks *)

(** [TaskExecStats]; the executors are a library's, what they report is
    given. *)
Record TaskExecStats : Type := mkTaskExecStats {
  active_count : Z;
  completed_count : Z;
  pending_wakers_count : Z;
  waiting_wakers_count : Z;
  waiting_count : Z;
  exec_rate : F64.t;
}.

Definition TaskExecStats_add (s o : TaskExecStats) : TaskExecStats :=
  mkTaskExecStats (isize (active_count s + active_count o)) (isize (completed_count s + completed_count o))
    (wrap 64 (pending_wakers_count s + pending_wakers_count o)) (wrap 64 (waiting_wakers_count s + waiting_wakers_count o))
    (isize (waiting_count s + waiting_count o)) (F64.add (exec_rate s) (exec_rate o)).

Definition TaskExecStats_default : TaskExecStats := mkTaskExecStats 0 0 0 0 0 F64.zero.

(** [Sum] *)
Definition TaskExecStats_sum (l : list TaskExecStats) : TaskExecStats := foldl TaskExecStats_add TaskExecStats_default l.

(** ** The statistics of a node *)

(** What an [isize] holds. *)
Definition isize_range (z : Z) : Prop := - 2 ^ 63 <= z < 2 ^ 63.

Module Stats.
Abbreviation Counters := (gmap Z Counter.t).

Record t : Type := mk {
  handshakings : Counter.t;
  handshakings_active : Counter.t;
  handshakings_rate : Counter.t;
  connections : Counter.t;
  sessions : Counter.t;
  subscriptions : Counter.t;
  subscriptions_shared : Counter.t;
  message_queues : Counter.t;
  out_inflights : Counter.t;
  in_inflights : Counter.t;
  forwards : Counter.t;
  message_storages : Counter.t;
  retaineds : Counter.t;
  delayed_publishs : Counter.t;
  topics_map : Counters;
  routes_map : Counters;
  execs_actives : gmap (list Z) TaskExecStats;
  debug_client_states_map : gmap Z Z;
  debug_topics_tree_map : gmap Z Z;
  debug_shared_peers : Counter.t;
  debug_subscriptions : Z;
  debug_session_channels : Counter.t;
}.

Definition new : t :=
  let c := Counter.new in mk c c c c c c c c c c c c c c ∅ ∅ ∅ ∅ ∅ c 0 c.

(** What a snapshot reads of the server. *)
Record Context : Type := mkContext {
  node_id : Z;
  router_topics : Counter.t;
  router_routes : Counter.t;
  execs : gmap (list Z) TaskExecStats;
  scx_handshakings : Counter.t;
  handshake_active : Z;
  handshake_rate : F64.t;
  scx_connections : Counter.t;
  scx_sessions : Counter.t;
  message_count : Z;
  message_max : Z;
  delayed_len : Z;
  client_states_count : Z;
  topics_tree : Z;
  sessions_count : Z;
  subscriptions_count : Z;
}.

(** [(get_rate * 100.0) as isize] *)
Definition hundred : F64.t := F64.of_Z 100.
Definition rate_in_hundredths (r : F64.t) : Z := to_isize (F64.mul r hundred).

(** [Stats::clone]: it updates the node's own record and copies it. *)
Definition clone (s : t) (scx : Context) : t * t :=
  let s := mk
    (Counter.set (handshakings s) (scx_handshakings scx))
    (Counter.current_set (handshakings_active s) (handshake_active scx))
    (Counter.sets (handshakings_rate s) (rate_in_hundredths (handshake_rate scx)))
    (Counter.set (connections s) (scx_connections scx))
    (Counter.set (sessions s) (scx_sessions scx))
    (subscriptions s) (subscriptions_shared s) (message_queues s) (out_inflights s) (in_inflights s) (forwards s)
    (Counter.max_max (Counter.current_set (message_storages s) (message_count scx)) (message_max scx))
    (retaineds s)
    (Counter.current_set (delayed_publishs s) (isize (delayed_len scx)))
    (topics_map s) (routes_map s) (execs_actives s) (debug_client_states_map s) (debug_topics_tree_map s)
    (Counter.current_set (debug_shared_peers s) (isize (sessions_count scx)))
    (debug_subscriptions s) (debug_session_channels s) in
  (s, mk
    (handshakings s) (handshakings_active s) (handshakings_rate s) (connections s) (sessions s) (subscriptions s)
    (subscriptions_shared s) (message_queues s) (out_inflights s) (in_inflights s) (forwards s) (message_storages s)
    Counter.new (delayed_publishs s)
    {[node_id scx := router_topics scx]} {[node_id scx := router_routes scx]} (execs scx)
    {[node_id scx := client_states_count scx]} {[node_id scx := topics_tree scx]}
    (debug_shared_peers s) (subscriptions_count scx) (debug_session_channels s)).

(** [extend]: what the other map has wins. [entry().and_modify().or_insert()]
    adds up. *)
Definition extend {A} (m o : gmap Z A) : gmap Z A := o ∪ m.
Definition add_execs (m o : gmap (list Z) TaskExecStats) : gmap (list Z) TaskExecStats :=
  union_with (fun x y => Some (TaskExecStats_add x y)) m o.

Definition add (s o : t) : t := mk
  (Counter.add (handshakings s) (handshakings o))
  (Counter.add (handshakings_active s) (handshakings_active o))
  (Counter.add (handshakings_rate s) (handshakings_rate o))
  (Counter.add (connections s) (connections o))
  (Counter.add (sessions s) (sessions o))
  (Counter.add (subscriptions s) (subscriptions o))
  (Counter.add (subscriptions_shared s) (subscriptions_shared o))
  (Counter.add (message_queues s) (message_queues o))
  (Counter.add (out_inflights s) (out_inflights o))
  (Counter.add (in_inflights s) (in_inflights o))
  (Counter.add (forwards s) (forwards o))
  (Counter.add (message_storages s) (message_storages o))
  (Counter.merge (retaineds s) (retaineds o))
  (Counter.merge (delayed_publishs s) (delayed_publishs o))
  (extend (topics_map s) (topics_map o)) (extend (routes_map s) (routes_map o))
  (add_execs (execs_actives s) (execs_actives o))
  (extend (debug_client_states_map s) (debug_client_states_map o))
  (extend (debug_topics_tree_map s) (debug_topics_tree_map o))
  (Counter.add (debug_shared_peers s) (debug_shared_peers o))
  (wrap 64 (debug_subscriptions s + debug_subscriptions o))
  (Counter.add (debug_session_channels s) (debug_session_channels o)).

(** The numbers of the JSON for management. *)
Inductive number : Type := Int (z : Z) | Float (x : F64.t).
Definition hundredths (z : Z) : number := Float (F64.div (F64.of_Z z) hundred).

(** The counters of all nodes, merged as the router does. *)
Definition counters_of (m : Counters) : list Counter.t := (map_to_list m).*2.

Definition to_json (s : t) : list (bytes * number) :=
  let topics := merge_topics (counters_of (topics_map s)) in
  let routes := merge_routes (counters_of (routes_map s)) in
  [(text "handshakings.count", Int (Counter.current (handshakings s)));
   (text "handshakings.max", Int (Counter.maximum (handshakings s)));
   (text "handshakings_active.count", Int (Counter.current (handshakings_active s)));
   (text "handshakings_rate.count", hundredths (Counter.current (handshakings_rate s)));
   (text "handshakings_rate.max", hundredths (Counter.maximum (handshakings_rate s)));
   (text "connections.count", Int (Counter.current (connections s)));
   (text "connections.max", Int (Counter.maximum (connections s)));
   (text "sessions.count", Int (Counter.current (sessions s)));
   (text "sessions.max", Int (Counter.maximum (sessions s)));
   (text "subscriptions.count", Int (Counter.current (subscriptions s)));
   (text "subscriptions.max", Int (Counter.maximum (subscriptions s)));
   (text "subscriptions_shared.count", Int (Counter.current (subscriptions_shared s)));
   (text "subscriptions_shared.max", Int (Counter.maximum (subscriptions_shared s)));
   (text "retaineds.count", Int (Counter.current (retaineds s)));
   (text "retaineds.max", Int (Counter.maximum (retaineds s)));
   (text "message_queues.count", Int (Counter.current (message_queues s)));
   (text "message_queues.max", Int (Counter.maximum (message_queues s)));
   (text "out_inflights.count", Int (Counter.current (out_inflights s)));
   (text "out_inflights.max", Int (Counter.maximum (out_inflights s)));
   (text "in_inflights.count", Int (Counter.current (in_inflights s)));
   (text "in_inflights.max", Int (Counter.maximum (in_inflights s)));
   (text "forwards.count", Int (Counter.current (forwards s)));
   (text "forwards.max", Int (Counter.maximum (forwards s)));
   (text "message_storages.count", Int (Counter.current (message_storages s)));
   (text "message_storages.max", Int (Counter.maximum (message_storages s)));
   (text "delayed_publishs.count", Int (Counter.current (delayed_publishs s)));
   (text "delayed_publishs.max", Int (Counter.maximum (delayed_publishs s)));
   (text "topics.count", Int (Counter.current topics));
   (text "topics.max", Int (Counter.maximum topics));
   (text "routes.count", Int (Counter.current routes));
   (text "routes.max", Int (Counter.maximum routes))].

(** ** Facts *)

(** The counters that [add] sums up. *)
Definition summed : list (t -> Counter.t) :=
  [handshakings; handshakings_active; handshakings_rate; connections; sessions; subscriptions; subscriptions_shared;
   message_queues; out_inflights; in_inflights; forwards; message_storages; debug_shared_peers; debug_session_channels].

(** The maps that have an entry per node. *)
Definition per_node : list (t -> Counters) := [topics_map; routes_map].

Lemma summed_add f s o : f ∈ summed -> f (add s o) = Counter.add (f s) (f o).
Proof. unfold summed. rewrite !elem_of_cons, elem_of_nil. intros H. by repeat (destruct H as [->|H]; [done|]). Qed.

Lemma per_node_add f s o : f ∈ per_node -> f (add s o) = extend (f s) (f o).
Proof. unfold per_node. rewrite !elem_of_cons, elem_of_nil. by intros [->|[->|[]]]. Qed.

Definition sum_of (f : t -> Z) (l : list t) : Z := foldr (fun s z => f s + z) 0 l.

Lemma summed_current f s l : f ∈ summed ->
  isize (Counter.current (f (foldl add s l))) = isize (Counter.current (f s) + sum_of (fun o => Counter.current (f o)) l).
Proof.
  intros Hf. revert s. induction l as [|o l IH]; intros s; simpl; [by rewrite Z.add_0_r|].
  rewrite IH, summed_add by done. cbn [Counter.add Counter.current]. by rewrite Counter.isize_add, Z.add_assoc.
Qed.

Lemma summed_in_range f s l : f ∈ summed -> isize_range (Counter.current (f s)) ->
  isize_range (Counter.current (f (foldl add s l))).
Proof.
  intros Hf. revert s. induction l as [|o l IH]; intros s Hs; [done|]. apply IH. rewrite summed_add by done. apply Counter.isize_range.
Qed.

Lemma per_node_kept f s l n c : f ∈ per_node -> f s !! n = Some c -> Forall (fun o => f o !! n = None) l ->
  f (foldl add s l) !! n = Some c.
Proof.
  intros Hf. revert s. induction l as [|o l IH]; intros s Hs Hl; [done|]. apply Forall_cons in Hl as [Ho Hl]. apply IH; [|done].
  rewrite per_node_add by done. unfold extend. by rewrite lookup_union_r.
Qed.

(** The statistics of a cluster: adding the snapshots of the other nodes
    gives the sum of every summed counter, and for every node its own
    counts of topics and routes, whatever the order of the nodes. *)
Theorem cluster_stats (s : t) (l : list t) (f : t -> Counter.t) (g : t -> Counters) :
  f ∈ summed -> g ∈ per_node -> isize_range (Counter.current (f s)) ->
  isize_range (sum_of (fun o => Counter.current (f o)) (s :: l)) ->
  Counter.current (f (foldl add s l)) = sum_of (fun o => Counter.current (f o)) (s :: l) /\
  (forall l1 o l2 n c, s :: l = l1 ++ o :: l2 -> g o !! n = Some c -> Forall (fun o' => g o' !! n = None) l2 ->
     g (foldl add s l) !! n = Some c).
Proof.
  intros Hf Hg Hs Hsum. split.
  - pose proof (summed_current f s l Hf) as H. rewrite !Counter.isize_id in H; [done|done|].
    by apply summed_in_range.
  - intros l1 o l2 n c Hl Ho Hl2. destruct l1 as [|s' l1]; injection Hl as -> ->; [by apply per_node_kept|].
    rewrite foldl_app. cbn [foldl]. apply per_node_kept; [done| |done]. rewrite per_node_add by done. by apply lookup_union_Some_l.
Qed.

(** Retained and delayed messages are left out of the sum: their counters
    are made with the mode that does not merge. And a snapshot never tells
    how many messages are retained. *)
Lemma retained_not_counted s scx : retaineds (clone s scx).2 = Counter.new.
Proof. done. Qed.

Lemma delayed_not_added s o : Counter.mode (delayed_publishs s) = Counter.NoMerge -> delayed_publishs (add s o) = delayed_publishs s.
Proof. cbn. unfold Counter.merge. by intros ->. Qed.

Lemma cluster_stats_witness :
  let node i c := (clone new (mkContext i (Counter.new_with 3 4 Counter.NoMerge) (Counter.new_with i i Counter.NoMerge) ∅
                     Counter.new 0 F64.zero (Counter.new_with c c Counter.NoMerge) Counter.new 0 0 0 0 0 0 0)).2 in
  let all := foldl add (node 1 10) [node 2 20; node 3 30] in
  Counter.current (connections all) = 60 /\ routes_map all !! 2 = Some (Counter.new_with 2 2 Counter.NoMerge).
Proof.
  intros node all.
  destruct (cluster_stats (node 1 10) [node 2 20; node 3 30] connections routes_map) as [H1 H2].
  - unfold summed. rewrite !elem_of_cons. tauto.
  - unfold per_node. rewrite !elem_of_cons. tauto.
  - by split.
  - by split.
  - split; [exact H1|]. apply (H2 [node 1 10] (node 2 20) [node 3 30]); [done|done|by repeat constructor].
Defined.
End Stats.

(** ** Events *)

Module Metrics.
(** The fields of [Metrics], in their order; the macro gives each of them
    the same operations. *)
Inductive field : Type :=
| client_authenticate | client_auth_anonymous | client_auth_anonymous_error | client_handshaking_timeout
| client_connect | client_connack | client_connack_auth_error | client_connack_unavailable_error
| client_connack_error | client_connected | client_disconnected | client_subscribe_check_acl
| client_publish_check_acl | client_subscribe | client_unsubscribe | client_subscribe_error
| client_subscribe_auth_error | client_publish_auth_error | client_publish_error | session_subscribed
| session_unsubscribed | session_created | session_resumed | session_terminated | messages_publish
| messages_delivered | messages_acked | messages_dropped | messages_publish_custom
| messages_delivered_custom | messages_acked_custom | messages_publish_admin | messages_delivered_admin
| messages_acked_admin | messages_publish_lastwill | messages_delivered_lastwill | messages_acked_lastwill
| messages_publish_system | messages_delivered_system | messages_acked_system | messages_publish_bridge
| messages_delivered_bridge | messages_acked_bridge | messages_delivered_retain | messages_acked_retain
| messages_nonsubscribed | messages_nonsubscribed_custom | messages_nonsubscribed_admin
| messages_nonsubscribed_lastwill | messages_nonsubscribed_system | messages_nonsubscribed_bridge.

#[export] Instance field_eq_dec : EqDecision field.
Proof. solve_decision. Defined.

(** [stringify!] *)
Definition field_name (f : field) : string :=
  match f with
  | client_authenticate => "client_authenticate"
  | client_auth_anonymous => "client_auth_anonymous"
  | client_auth_anonymous_error => "client_auth_anonymous_error"
  | client_handshaking_timeout => "client_handshaking_timeout"
  | client_connect => "client_connect"
  | client_connack => "client_connack"
  | client_connack_auth_error => "client_connack_auth_error"
  | client_connack_unavailable_error => "client_connack_unavailable_error"
  | client_connack_error => "client_connack_error"
  | client_connected => "client_connected"
  | client_disconnected => "client_disconnected"
  | client_subscribe_check_acl => "client_subscribe_check_acl"
  | client_publish_check_acl => "client_publish_check_acl"
  | client_subscribe => "client_subscribe"
  | client_unsubscribe => "client_unsubscribe"
  | client_subscribe_error => "client_subscribe_error"
  | client_subscribe_auth_error => "client_subscribe_auth_error"
  | client_publish_auth_error => "client_publish_auth_error"
  | client_publish_error => "client_publish_error"
  | session_subscribed => "session_subscribed"
  | session_unsubscribed => "session_unsubscribed"
  | session_created => "session_created"
  | session_resumed => "session_resumed"
  | session_terminated => "session_terminated"
  | messages_publish => "messages_publish"
  | messages_delivered => "messages_delivered"
  | messages_acked => "messages_acked"
  | messages_dropped => "messages_dropped"
  | messages_publish_custom => "messages_publish_custom"
  | messages_delivered_custom => "messages_delivered_custom"
  | messages_acked_custom => "messages_acked_custom"
  | messages_publish_admin => "messages_publish_admin"
  | messages_delivered_admin => "messages_delivered_admin"
  | messages_acked_admin => "messages_acked_admin"
  | messages_publish_lastwill => "messages_publish_lastwill"
  | messages_delivered_lastwill => "messages_delivered_lastwill"
  | messages_acked_lastwill => "messages_acked_lastwill"
  | messages_publish_system => "messages_publish_system"
  | messages_delivered_system => "messages_delivered_system"
  | messages_acked_system => "messages_acked_system"
  | messages_publish_bridge => "messages_publish_bridge"
  | messages_delivered_bridge => "messages_delivered_bridge"
  | messages_acked_bridge => "messages_acked_bridge"
  | messages_delivered_retain => "messages_delivered_retain"
  | messages_acked_retain => "messages_acked_retain"
  | messages_nonsubscribed => "messages_nonsubscribed"
  | messages_nonsubscribed_custom => "messages_nonsubscribed_custom"
  | messages_nonsubscribed_admin => "messages_nonsubscribed_admin"
  | messages_nonsubscribed_lastwill => "messages_nonsubscribed_lastwill"
  | messages_nonsubscribed_system => "messages_nonsubscribed_system"
  | messages_nonsubscribed_bridge => "messages_nonsubscribed_bridge"
  end.

Definition all_fields : list field :=
  [client_authenticate; client_auth_anonymous; client_auth_anonymous_error; client_handshaking_timeout;
   client_connect; client_connack; client_connack_auth_error; client_connack_unavailable_error;
   client_connack_error; client_connected; client_disconnected; client_subscribe_check_acl;
   client_publish_check_acl; client_subscribe; client_unsubscribe; client_subscribe_error;
   client_subscribe_auth_error; client_publish_auth_error; client_publish_error; session_subscribed;
   session_unsubscribed; session_created; session_resumed; session_terminated; messages_publish;
   messages_delivered; messages_acked; messages_dropped; messages_publish_custom; messages_delivered_custom;
   messages_acked_custom; messages_publish_admin; messages_delivered_admin; messages_acked_admin;
   messages_publish_lastwill; messages_delivered_lastwill; messages_acked_lastwill; messages_publish_system;
   messages_delivered_system; messages_acked_system; messages_publish_bridge; messages_delivered_bridge;
   messages_acked_bridge; messages_delivered_retain; messages_acked_retain; messages_nonsubscribed;
   messages_nonsubscribed_custom; messages_nonsubscribed_admin; messages_nonsubscribed_lastwill;
   messages_nonsubscribed_system; messages_nonsubscribed_bridge].

Record t : Type := mk { get : field -> Z }.

Definition new : t := mk (fun _ => 0).
Definition clone (s : t) : t := mk (get s).
(** [<field>_inc], an atomic addition that wraps. *)
Definition inc (f : field) (s : t) : t := mk (fun g => if decide (g = f) then wrap 64 (get s g + 1) else get s g).
Definition to_json (s : t) : list (string * Z) := (fun f => (field_name f, get s f)) <$> all_fields.
Definition add (s o : t) : t := mk (fun f => wrap 64 (get s f + get o f)).

(** Events of the clients of several nodes: counting each node's events and
    adding up counts them all. *)
Definition count_events (l : list field) : t := foldl (fun s f => inc f s) new l.

Definition occurrences (f : field) (l : list field) : Z := foldr (fun g z => (if decide (f = g) then 1 else 0) + z) 0 l.

Lemma count_from f l s : 0 <= get s f < 2 ^ 64 ->
  get (foldl (fun s f => inc f s) s l) f = wrap 64 (get s f + occurrences f l).
Proof.
  revert s. induction l as [|g l IH]; intros s Hs; simpl.
  - rewrite Z.add_0_r. unfold wrap. by rewrite Z.mod_small.
  - assert (Hw : 0 <= wrap 64 (get s f + 1) < 2 ^ 64) by (apply Z.mod_pos_bound; lia).
    rewrite IH; simpl; case_decide as Hd; try lia; [by rewrite RateCounter.wrap_add, Z.add_assoc|done].
Qed.

Lemma count_events_exact f l : get (count_events l) f = wrap 64 (occurrences f l).
Proof. unfold count_events. rewrite count_from; simpl; [done|lia]. Qed.

Lemma occurrences_app f l l' : occurrences f (l ++ l') = occurrences f l + occurrences f l'.
Proof. induction l as [|g l IH]; simpl; [done|]. rewrite IH. lia. Qed.

Lemma add_counts f l l' : get (add (count_events l) (count_events l')) f = get (count_events (l ++ l')) f.
Proof.
  simpl. rewrite !count_events_exact, occurrences_app, RateCounter.wrap_add. unfold wrap. by rewrite Zplus_mod_idemp_r.
Qed.

(** Every field is in the JSON, once, under a name of its own. *)
Lemma to_json_complete s f : (field_name f, get s f) ∈ to_json s.
Proof. unfold to_json. apply list_elem_of_fmap. exists f. split; [done|]. destruct f; apply (bool_decide_unpack _); by vm_compute. Qed.

Lemma field_names_distinct : NoDup (field_name <$> all_fields).
Proof. apply (bool_decide_unpack _). by vm_compute. Qed.
End Metrics.
