(* ===== verification/Load.v ===== *)
(** * The load of a node: [executor.rs], [node.rs], [context.rs]

    When the broker turns clients away: the handshakes under way on each
    listener against its limit, and the load of the machine, measured at
    most once per interval. The executors of tasks and what the operating
    system reports are arguments. Also the status of nodes and the
    information they show. *)

From stdpp Require Import prelude list gmap strings.
From Stdlib Require Import ZArith Lia SpecFloat.
From S2P Require Import Prelude CodecTypes BrokerTypes Connection Fitter Floats.

Local Open Scope Z_scope.

(** ** Handshakes: [executor.rs] *)

(** An executor with the settings it was built with. *)
Record Entry : Type := mkEntry { workers : Z; queue_max : Z; busy_limit : Z }.

Record HandshakeExecutor : Type := mkHandshakeExecutor {
  handshake_execs : gmap Z Entry;
  default_busy_limit : Z;
}.

Definition HandshakeExecutor_new (limit : Z) : HandshakeExecutor := mkHandshakeExecutor ∅ limit.

(** [0.35], and [(max_handshaking_limit as f64 * 0.35) as isize]. *)
Definition thirty_five_percent : F64.t := S754_finite false 6305039478318694 (-54).
Definition share_of (limit : Z) : Z := to_isize (F64.mul (F64.of_Z limit) thirty_five_percent).

Definition new_entry (e : HandshakeExecutor) (cfg : ListenerConfig) : Entry :=
  mkEntry (max_handshaking_limit cfg) (max_connections cfg)
    (if default_busy_limit e =? 0 then share_of (max_handshaking_limit cfg) else default_busy_limit e).

(** [get] creates the executor of a listener at its first use. *)
Definition get (e : HandshakeExecutor) (name : Z) (cfg : ListenerConfig) : HandshakeExecutor * Entry :=
  match handshake_execs e !! name with
  | Some entry => (e, entry)
  | None =>
      let entry := new_entry e cfg in
      (mkHandshakeExecutor (<[name := entry]> (handshake_execs e)) (default_busy_limit e), entry)
  end.

Section executors.
(** What the executor of a listener reports, and whether the shared state is
    overloaded ([operation_is_busy], false unless a plugin replaces it). *)
Context (active : Z -> Z) (rate : Z -> F64.t) (operation_is_busy : bool).

Definition active_count (e : HandshakeExecutor) : Z :=
  isize (foldr (fun p n => active p + n) 0 (map_to_list (handshake_execs e)).*1).

(** In the order of the map. *)
Definition get_rate (e : HandshakeExecutor) : F64.t :=
  foldl (fun r p => F64.add r (rate p)) F64.zero (map_to_list (handshake_execs e)).*1.

Definition saturated (p : Z * Entry) : option Z := if busy_limit p.2 <? active p.1 then Some 1 else None.

Definition handshakes_busy (e : HandshakeExecutor) : bool :=
  let _is_busy := 0 <? foldr Z.add 0 (omap saturated (map_to_list (handshake_execs e))) in
  _is_busy || operation_is_busy.
End executors.

(** ** The machine: [Node] of [node.rs] *)

Record Node : Type := mkNode {
  id : Z;
  start_time : Z;
  max_busy_loadavg : spec_float;
  max_busy_cpuloadavg : spec_float;
  busy_update_interval : Z;
  cpuload_stored : Z;
}.

Definition Node_new (id now : Z) (max_load max_cpu : spec_float) (interval : Z) : Node :=
  mkNode id now max_load max_cpu interval 0.
Definition Node_default (now : Z) : Node := Node_new 0 now (F32Ops.of_Z 80) (F32Ops.of_Z 90) (2 * SECOND).

(** [cpuload]: "0.0 - 100.0". *)
Definition cpuload (n : Node) : spec_float := F32Ops.div (F32Ops.of_Z (cpuload_stored n)) (F32Ops.of_Z 100).

(** The shares of the processors' time, in [f32]. *)
Record CPULoad : Type := mkCPULoad { user : spec_float; nice : spec_float; system : spec_float; interrupt : spec_float }.

(** [update_cpuload] with what was measured, if it was. *)
Definition update_cpuload (n : Node) (measured : option CPULoad) : Node :=
  let load :=
    match measured with
    | Some l =>
        let aggregate1 := F32Ops.add (F32Ops.add (F32Ops.add (user l) (nice l)) (system l)) (interrupt l) in
        F32.mul aggregate1 (F32Ops.of_Z 100)
    | None => S754_zero false
    end in
  mkNode (id n) (start_time n) (max_busy_loadavg n) (max_busy_cpuloadavg n) (busy_update_interval n) (to_i64 load).

(** [_is_busy] with the load average of the last minute. *)
Definition _is_busy (n : Node) (load_average : option spec_float) : bool :=
  let load1 := default (S754_zero false) load_average in
  SFltb (max_busy_loadavg n) load1 || SFltb (max_busy_cpuloadavg n) (cpuload n).

(** The two statics. *)
Record Cache : Type := mkCache { cached_busy : bool; cached_time : Z }.
Definition empty_cache : Cache := mkCache false 0.

(** [as_millis() as TimestampMillis] *)
Definition interval_millis (n : Node) : Z := isize (busy_update_interval n / 1000000).

Definition sys_is_busy (n : Node) (now : Z) (load_average : option spec_float) (c : Cache) : bool * Cache :=
  if now - cached_time c <? interval_millis n then (cached_busy c, c)
  else let busy := _is_busy n load_average in (busy, mkCache busy now).

(** ** [ServerContext::is_busy] *)

(** [||] asks the machine only when the handshakes are not busy. *)
Definition is_busy (enable : bool) (handshakes : bool) (n : Node) (now : Z) (load_average : option spec_float) (c : Cache)
    : bool * Cache :=
  if enable then if handshakes then (true, c) else sys_is_busy n now load_average c else (false, c).

(** ** What nodes tell *)

Inductive NodeStatus : Type :=
| Running (n : Z)
| Stop
| NodeError (s : bytes).

Definition running (s : NodeStatus) : Z := match s with Running c => c | _ => 0 end.
Definition is_running (s : NodeStatus) : bool := match s with Running _ => true | _ => false end.
Definition NodeStatus_default : NodeStatus := Stop.

(** [Node::status] with the answer of [health_status]. *)
Definition status (health : bool + bytes) : NodeStatus :=
  match health with
  | inl running => if running then Running 1 else Stop
  | inr e => NodeError e
  end.

Record NodeInfo : Type := mkNodeInfo {
  connections : Z;
  boottime : bytes;
  load1 : spec_float; load5 : spec_float; load15 : spec_float;
  memory_total : Z; memory_used : Z; memory_free : Z;
  disk_total : Z; disk_free : Z;
  node_status : NodeStatus;
  node_id : Z;
  node_name : bytes;
  uptime : bytes;
  version : bytes;
  rustc_version : bytes;
}.

(** What the operating system reports, each part if it does. *)
Record SystemReport : Type := mkSystemReport {
  boot_time : option bytes;
  load_average : option (spec_float * spec_float * spec_float);
  memory : option (Z * Z);
  mounts : option (list (Z * Z));
}.

(** [i64]'s [Display]. *)
Definition format_i64 (z : Z) : bytes := if z <? 0 then [45] ++ format_int (- z) else format_int z.

Definition to_uptime (uptime : Z) : bytes :=
  let uptime_secs := Z.rem uptime 60 in
  let uptime := Z.quot uptime 60 in
  let uptime_minus := Z.rem uptime 60 in
  let uptime := Z.quot uptime 60 in
  let uptime_hours := Z.rem uptime 24 in
  let uptime_days := Z.quot uptime 24 in
  format_i64 uptime_days ++ text " days " ++ format_i64 uptime_hours ++ text " hours, "
  ++ format_i64 uptime_minus ++ text " minutes, " ++ format_i64 uptime_secs ++ text " seconds".

Definition node_uptime (n : Node) (now : Z) : bytes := to_uptime (Z.quot (now - start_time n) SECOND).

(** [Iterator::sum] of [u64]. *)
Definition sum_u64 (l : list Z) : Z := foldl (fun s x => wrap 64 (s + x)) 0 l.

Definition node_info (n : Node) (now : Z) (connected : Z) (sys : SystemReport) (health : bool + bytes)
    (name version rustc : bytes) : NodeInfo :=
  let '(l1, l5, l15) := default (S754_zero false, S754_zero false, S754_zero false) (load_average sys) in
  let '(total, free) :=
    match mounts sys with Some m => (sum_u64 m.*1, sum_u64 m.*2) | None => (0, 0) end in
  let '(mem_total, mem_free) := default (0, 0) (memory sys) in
  mkNodeInfo connected (default [] (boot_time sys)) l1 l5 l15
    mem_total (Z.max 0 (mem_total - mem_free)) mem_free total free (status health) (id n) name (node_uptime n now) version rustc.

(** [NodeInfo::add]; the sums of [u64] wrap in a release build. *)
Definition add_status (a b : NodeStatus) : NodeStatus :=
  Running (match a, b with
           | Running c1, Running c2 => wrap 64 (c1 + c2)
           | Running c1, _ => c1
           | _, Running c2 => c2
           | _, _ => 0
           end).

Definition NodeInfo_add (s o : NodeInfo) : NodeInfo :=
  mkNodeInfo (connections s) (boottime s) (F32Ops.add (load1 s) (load1 o)) (F32Ops.add (load5 s) (load5 o)) (F32Ops.add (load15 s) (load15 o))
    (wrap 64 (memory_total s + memory_total o)) (wrap 64 (memory_used s + memory_used o)) (wrap 64 (memory_free s + memory_free o))
    (wrap 64 (disk_total s + disk_total o)) (wrap 64 (disk_free s + disk_free o))
    (add_status (node_status s) (node_status o)) (node_id s) (node_name s) (uptime s) (version s) (rustc_version s).

(** ** When clients are turned away *)

Lemma sum_ones_pos l : Forall (fun x => x = 1) l -> 0 <= foldr Z.add 0 l /\ (0 < foldr Z.add 0 l <-> l <> []).
Proof.
  induction 1 as [|x l -> _ [IH1 IH2]]; simpl.
  - split; [lia|]. split; [lia|done].
  - split; [lia|]. split; [done|]. intros _. lia.
Qed.

Lemma saturated_ones active (l : list (Z * Entry)) : Forall (fun x => x = 1) (omap (saturated active) l).
Proof. induction l as [|p l IH]; simpl; [done|]. unfold saturated at 1. destruct (_ <? _); simpl; [by constructor|done]. Qed.

(** The handshakes are busy exactly if one listener has more of them under
    way than its limit, or the shared state says so. *)
Lemma handshakes_busy_iff active shared e :
  handshakes_busy active shared e = true <->
  (exists name entry, handshake_execs e !! name = Some entry /\ busy_limit entry < active name) \/ shared = true.
Proof.
  unfold handshakes_busy. rewrite orb_true_iff, Z.ltb_lt.
  destruct (sum_ones_pos _ (saturated_ones active (map_to_list (handshake_execs e)))) as [_ ->].
  assert (H : omap (saturated active) (map_to_list (handshake_execs e)) <> [] <->
              exists name entry, handshake_execs e !! name = Some entry /\ busy_limit entry < active name); [|by rewrite H].
  split.
  - intros Hne. destruct (omap _ _) as [|x l] eqn:Hl; [done|].
    assert (Hx : x ∈ omap (saturated active) (map_to_list (handshake_execs e))) by (rewrite Hl; left).
    apply list_elem_of_omap in Hx as ([name entry] & Hin%elem_of_map_to_list & Hs). exists name, entry. split; [done|].
    unfold saturated in Hs. cbn [fst snd] in Hs. destruct (Z.ltb_spec (busy_limit entry) (active name)); [lia|done].
  - intros (name & entry & Hin & Hlt) Hnil. enough (H : 1 ∈ omap (saturated active) (map_to_list (handshake_execs e))).
    { rewrite Hnil in H. by apply elem_of_nil in H. }
    apply list_elem_of_omap. exists (name, entry). split; [by apply elem_of_map_to_list|].
    unfold saturated. cbn [fst snd]. destruct (Z.ltb_spec (busy_limit entry) (active name)); [done|lia].
Qed.

(** An executor keeps the limit of its first use. *)
Lemma get_again e name cfg cfg' : (get (get e name cfg).1 name cfg').2 = (get e name cfg).2.
Proof.
  unfold get. destruct (handshake_execs e !! name) as [entry|] eqn:He; cbn [fst snd handshake_execs].
  - by rewrite He.
  - by rewrite lookup_insert_eq.
Qed.

(** The derived limit is 35 per cent, rounded down, or one less where the
    product is rounded to just below an integer. *)
Definition share_close (n : Z) : bool := (35 * n / 100 - 1 <=? share_of n) && (share_of n <=? 35 * n / 100).
Lemma share_close_upto : forallb (fun k => share_close (Z.of_nat k)) (seq 0 2001) = true /\ share_of 1000 = 350 /\ share_of 180 = 62.
Proof. by vm_compute. Qed.

(** *** The cache *)

(** The answers to calls at the given times, each with what a measurement
    would say at that time. *)
Fixpoint asked (n : Node) (c : Cache) (calls : list (Z * option spec_float)) : list bool :=
  match calls with
  | [] => []
  | (now, load) :: calls => let '(busy, c) := sys_is_busy n now load c in busy :: asked n c calls
  end.

Lemma asked_cached n c calls i now load b :
  calls !! i = Some (now, load) -> asked n c calls !! i = Some b ->
  (b = cached_busy c /\ now - cached_time c < interval_millis n) \/
  (exists j now' load', (j <= i)%nat /\ calls !! j = Some (now', load') /\ b = _is_busy n load' /\
     (j = i \/ now - now' < interval_millis n)).
Proof.
  revert c i. induction calls as [|[t l] calls IH]; intros c i Hc Ha; [done|].
  simpl in Ha. unfold sys_is_busy in Ha. destruct (Z.ltb_spec (t - cached_time c) (interval_millis n)) as [Hold|Hnew]; cbn in Ha.
  - destruct i as [|i]; cbn in *; [injection Hc as -> ->; injection Ha as <-; by left|].
    destruct (IH c i Hc Ha) as [?|(j & t' & l' & Hj & Hcj & Hb & Hi)]; [by left|right].
    exists (S j), t', l'. split_and!; [lia|done|done|]. destruct Hi as [->|]; auto.
  - right. destruct i as [|i]; cbn in *; [injection Hc as -> ->; injection Ha as <-; exists 0%nat, now, load; split_and!; auto; lia|].
    destruct (IH _ i Hc Ha) as [[Hb Ht]|(j & t' & l' & Hj & Hcj & Hb & Hi)]; cbn in *.
    + exists 0%nat, t, l. split_and!; auto; lia.
    + exists (S j), t', l'. split_and!; [lia|done|done|]. destruct Hi as [->|]; auto.
Qed.

(** Every answer is a measurement made at that call, or at an earlier one
    less than the interval ago. *)
Lemma sys_busy_fresh n calls i now load b :
  interval_millis n <= now -> calls !! i = Some (now, load) -> asked n empty_cache calls !! i = Some b ->
  exists j now' load', (j <= i)%nat /\ calls !! j = Some (now', load') /\ b = _is_busy n load' /\
    (j = i \/ now - now' < interval_millis n).
Proof.
  intros Hn Hc Ha. destruct (asked_cached n empty_cache calls i now load b Hc Ha) as [[_ Ht]|?]; [|done]. cbn in Ht. lia.
Qed.

(** *** The processors *)

Definition with_load (n : Node) (percent : Z) : Node :=
  mkNode (id n) (start_time n) (max_busy_loadavg n) (max_busy_cpuloadavg n) (busy_update_interval n) percent.

(** What [update_cpuload] stores is a percentage, and [cpuload] divides it
    by 100: it never exceeds 1, and never the limit of 90. *)
Lemma cpu_never_busy : forallb (fun k => negb (SFltb (F32Ops.of_Z 90) (cpuload (with_load (Node_default 0) (Z.of_nat k))))) (seq 0 101) = true.
Proof. by vm_compute. Qed.

Lemma full_load_stored :
  let full := mkCPULoad (S754_finite false 8388608 (-24)) (S754_zero false) (S754_finite false 8388608 (-24)) (S754_zero false) in
  cpuload_stored (update_cpuload (Node_default 0) (Some full)) = 100 /\
  _is_busy (update_cpuload (Node_default 0) (Some full)) None = false.
Proof. by vm_compute. Qed.

(** *** Nodes *)

(** Adding up counts the running nodes. *)
Lemma statuses_counted s l :
  Forall (fun x => 0 <= running x) (s :: l) -> foldr (fun x n => running x + n) 0 (s :: l) < 2 ^ 64 ->
  running (foldl add_status s l) = foldr (fun x n => running x + n) 0 (s :: l).
Proof.
  revert s. induction l as [|o l IH]; intros s; cbn [foldl foldr]; intros Hl Ht; [lia|].
  rewrite !Forall_cons in Hl. destruct Hl as (Hs & Ho & Hl).
  assert (Hn : 0 <= foldr (fun x n => running x + n) 0 l) by (clear -Hl; induction Hl as [|x l Hx _ IH]; simpl; lia).
  assert (Ha : running (add_status s o) = running s + running o).
  { destruct s, o; cbn [add_status running] in *; try lia. unfold wrap. rewrite Z.mod_small; lia. }
  rewrite IH; cbn [foldr]; rewrite ?Ha; [lia| |lia]. constructor; [lia|done].
Qed.

(** But nodes that do not run come out as running ones, none of them. *)
Lemma stopped_nodes_running s o : is_running s = false -> is_running o = false -> add_status s o = Running 0 /\ is_running (add_status s o) = true.
Proof. by destruct s, o. Qed.

Lemma uptime_parts t : 0 <= t ->
  exists d h m s, 0 <= d /\ 0 <= h < 24 /\ 0 <= m < 60 /\ 0 <= s < 60 /\ t = ((d * 24 + h) * 60 + m) * 60 + s /\
    to_uptime t = format_int d ++ text " days " ++ format_int h ++ text " hours, " ++ format_int m ++ text " minutes, " ++ format_int s ++ text " seconds".
Proof.
  intros Ht. pose proof (Z.quot_rem' t 60). pose proof (Z.rem_bound_pos t 60 Ht ltac:(lia)). pose proof (Z.quot_pos t 60 Ht ltac:(lia)) as Q1.
  pose proof (Z.quot_rem' (Z.quot t 60) 60). pose proof (Z.rem_bound_pos _ 60 Q1 ltac:(lia)). pose proof (Z.quot_pos _ 60 Q1 ltac:(lia)) as Q2.
  pose proof (Z.quot_rem' (Z.quot (Z.quot t 60) 60) 24). pose proof (Z.rem_bound_pos _ 24 Q2 ltac:(lia)). pose proof (Z.quot_pos _ 24 Q2 ltac:(lia)).
  exists (Z.quot (Z.quot (Z.quot t 60) 60) 24), (Z.rem (Z.quot (Z.quot t 60) 60) 24), (Z.rem (Z.quot t 60) 60), (Z.rem t 60).
  split_and!; try lia. unfold to_uptime, format_i64.
  repeat (match goal with |- context [?x <? 0] => destruct (Z.ltb_spec x 0); [lia|] end). done.
Qed.
