(* ===== verification/Bench.v ===== *)
(** * The load generator: [oximqtt-bench/src/stats.rs], [oximqtt-bench/src/window.rs]

    Module [Histogram]: counters, and a histogram of latencies with exact
    buckets up to 63 microseconds and four buckets per octave above; its
    percentiles are conservative and within a quarter of the truth. Module
    [Window]: the packet ids of a connection. *)

From stdpp Require Import prelude list.
From Stdlib Require Import ZArith Lia SpecFloat.
From S2P Require Import Prelude CodecTypes BrokerTypes Connection Floats.

Local Open Scope Z_scope.

Module Histogram.
(** ** Buckets *)

Definition BUCKETS : nat := 64 + 4 * 58.

(** [64 - us.leading_zeros()] *)
Definition bit_length (us : Z) : Z := if us =? 0 then 0 else Z.log2 us + 1.

Definition bucket_of (us : Z) : nat :=
  if us <? 64 then Z.to_nat us
  else
    let il := bit_length us in
    let sub := Z.land (Z.shiftr us (il - 3)) 3 in
    Nat.min (Z.to_nat (64 + (il - 7) * 4 + sub)) (BUCKETS - 1).

Definition bucket_lower (idx : nat) : Z :=
  let idx := Z.of_nat idx in
  if idx <? 64 then idx
  else
    let rel := idx - 64 in
    let il := 7 + rel / 4 in
    let sub := rel mod 4 in
    Z.shiftl 1 (il - 1) + Z.shiftl sub (il - 3).

(** ** Counters *)

Record Stats : Type := mkStats {
  conn_attempts : Z; conn_ok : Z; conn_fail : Z; active_conns : Z; subs : Z; sends : Z; send_bytes : Z; recvs : Z;
  recv_bytes : Z; pub_acks : Z; inflight : Z; inflight_full : Z; ack_timeouts : Z; closes : Z; reconnects : Z;
  errors : Z; pings : Z; dups : Z; recvs_retained : Z;
  latency_n : Z; latency_sum : Z; latency_max : Z;
  latency : list Z;
  last_err : option bytes;
}.

Definition new : Stats := mkStats 0 0 0 0 0 0 0 0 0 0 0 0 0 0 0 0 0 0 0 0 0 0 (replicate BUCKETS 0) None.

(** Each operation is a few atomic additions; those of the gauges are signed. *)
Definition conn_attempt (s : Stats) : Stats := mkStats (wrap 64 (conn_attempts s + 1)) (conn_ok s) (conn_fail s)
    (active_conns s) (subs s) (sends s) (send_bytes s) (recvs s) (recv_bytes s) (pub_acks s) (inflight s)
    (inflight_full s) (ack_timeouts s) (closes s) (reconnects s) (errors s) (pings s) (dups s) (recvs_retained s)
    (latency_n s) (latency_sum s) (latency_max s) (latency s) (last_err s).
Definition conn_established (s : Stats) : Stats := mkStats (conn_attempts s) (wrap 64 (conn_ok s + 1)) (conn_fail s)
    (isize (active_conns s + 1)) (subs s) (sends s) (send_bytes s) (recvs s) (recv_bytes s) (pub_acks s) (inflight s)
    (inflight_full s) (ack_timeouts s) (closes s) (reconnects s) (errors s) (pings s) (dups s) (recvs_retained s)
    (latency_n s) (latency_sum s) (latency_max s) (latency s) (last_err s).
Definition conn_failed_n (s : Stats) (n : Z) (err : bytes) : Stats := mkStats (conn_attempts s) (conn_ok s) (wrap 64
    (conn_fail s + n)) (active_conns s) (subs s) (sends s) (send_bytes s) (recvs s) (recv_bytes s) (pub_acks s)
    (inflight s) (inflight_full s) (ack_timeouts s) (closes s) (reconnects s) (wrap 64 (errors s + n)) (pings s) (dups
    s) (recvs_retained s) (latency_n s) (latency_sum s) (latency_max s) (latency s) (Some err).
Definition conn_failed (s : Stats) (err : bytes) : Stats := conn_failed_n s 1 err.
Definition conn_closed (s : Stats) : Stats := mkStats (conn_attempts s) (conn_ok s) (conn_fail s) (isize (active_conns
    s - 1)) (subs s) (sends s) (send_bytes s) (recvs s) (recv_bytes s) (pub_acks s) (inflight s) (inflight_full s)
    (ack_timeouts s) (wrap 64 (closes s + 1)) (reconnects s) (errors s) (pings s) (dups s) (recvs_retained s)
    (latency_n s) (latency_sum s) (latency_max s) (latency s) (last_err s).
Definition reconnected (s : Stats) : Stats := mkStats (conn_attempts s) (conn_ok s) (conn_fail s) (active_conns s)
    (subs s) (sends s) (send_bytes s) (recvs s) (recv_bytes s) (pub_acks s) (inflight s) (inflight_full s)
    (ack_timeouts s) (closes s) (wrap 64 (reconnects s + 1)) (errors s) (pings s) (dups s) (recvs_retained s)
    (latency_n s) (latency_sum s) (latency_max s) (latency s) (last_err s).
Definition subscribed (s : Stats) : Stats := mkStats (conn_attempts s) (conn_ok s) (conn_fail s) (active_conns s)
    (wrap 64 (subs s + 1)) (sends s) (send_bytes s) (recvs s) (recv_bytes s) (pub_acks s) (inflight s) (inflight_full
    s) (ack_timeouts s) (closes s) (reconnects s) (errors s) (pings s) (dups s) (recvs_retained s) (latency_n s)
    (latency_sum s) (latency_max s) (latency s) (last_err s).
Definition sent (s : Stats) (bytes : Z) : Stats := mkStats (conn_attempts s) (conn_ok s) (conn_fail s) (active_conns
    s) (subs s) (wrap 64 (sends s + 1)) (wrap 64 (send_bytes s + bytes)) (recvs s) (recv_bytes s) (pub_acks s)
    (inflight s) (inflight_full s) (ack_timeouts s) (closes s) (reconnects s) (errors s) (pings s) (dups s)
    (recvs_retained s) (latency_n s) (latency_sum s) (latency_max s) (latency s) (last_err s).
Definition acked (s : Stats) : Stats := mkStats (conn_attempts s) (conn_ok s) (conn_fail s) (active_conns s) (subs s)
    (sends s) (send_bytes s) (recvs s) (recv_bytes s) (wrap 64 (pub_acks s + 1)) (inflight s) (inflight_full s)
    (ack_timeouts s) (closes s) (reconnects s) (errors s) (pings s) (dups s) (recvs_retained s) (latency_n s)
    (latency_sum s) (latency_max s) (latency s) (last_err s).
Definition inflight_inc (s : Stats) : Stats := mkStats (conn_attempts s) (conn_ok s) (conn_fail s) (active_conns s)
    (subs s) (sends s) (send_bytes s) (recvs s) (recv_bytes s) (pub_acks s) (isize (inflight s + 1)) (inflight_full s)
    (ack_timeouts s) (closes s) (reconnects s) (errors s) (pings s) (dups s) (recvs_retained s) (latency_n s)
    (latency_sum s) (latency_max s) (latency s) (last_err s).
Definition inflight_dec (s : Stats) : Stats := mkStats (conn_attempts s) (conn_ok s) (conn_fail s) (active_conns s)
    (subs s) (sends s) (send_bytes s) (recvs s) (recv_bytes s) (pub_acks s) (isize (inflight s - 1)) (inflight_full s)
    (ack_timeouts s) (closes s) (reconnects s) (errors s) (pings s) (dups s) (recvs_retained s) (latency_n s)
    (latency_sum s) (latency_max s) (latency s) (last_err s).
Definition inflight_blocked (s : Stats) : Stats := mkStats (conn_attempts s) (conn_ok s) (conn_fail s) (active_conns
    s) (subs s) (sends s) (send_bytes s) (recvs s) (recv_bytes s) (pub_acks s) (inflight s) (wrap 64 (inflight_full s
    + 1)) (ack_timeouts s) (closes s) (reconnects s) (errors s) (pings s) (dups s) (recvs_retained s) (latency_n s)
    (latency_sum s) (latency_max s) (latency s) (last_err s).
Definition ack_timeout (s : Stats) : Stats := mkStats (conn_attempts s) (conn_ok s) (conn_fail s) (active_conns s)
    (subs s) (sends s) (send_bytes s) (recvs s) (recv_bytes s) (pub_acks s) (inflight s) (inflight_full s) (wrap 64
    (ack_timeouts s + 1)) (closes s) (reconnects s) (wrap 64 (errors s + 1)) (pings s) (dups s) (recvs_retained s)
    (latency_n s) (latency_sum s) (latency_max s) (latency s) (last_err s).
Definition pinged (s : Stats) : Stats := mkStats (conn_attempts s) (conn_ok s) (conn_fail s) (active_conns s) (subs s)
    (sends s) (send_bytes s) (recvs s) (recv_bytes s) (pub_acks s) (inflight s) (inflight_full s) (ack_timeouts s)
    (closes s) (reconnects s) (errors s) (wrap 64 (pings s + 1)) (dups s) (recvs_retained s) (latency_n s)
    (latency_sum s) (latency_max s) (latency s) (last_err s).
Definition duplicated (s : Stats) : Stats := mkStats (conn_attempts s) (conn_ok s) (conn_fail s) (active_conns s)
    (subs s) (sends s) (send_bytes s) (recvs s) (recv_bytes s) (pub_acks s) (inflight s) (inflight_full s)
    (ack_timeouts s) (closes s) (reconnects s) (errors s) (pings s) (wrap 64 (dups s + 1)) (recvs_retained s)
    (latency_n s) (latency_sum s) (latency_max s) (latency s) (last_err s).
Definition error (s : Stats) (err : bytes) : Stats := mkStats (conn_attempts s) (conn_ok s) (conn_fail s)
    (active_conns s) (subs s) (sends s) (send_bytes s) (recvs s) (recv_bytes s) (pub_acks s) (inflight s)
    (inflight_full s) (ack_timeouts s) (closes s) (reconnects s) (wrap 64 (errors s + 1)) (pings s) (dups s)
    (recvs_retained s) (latency_n s) (latency_sum s) (latency_max s) (latency s) (Some err).
Definition received (s : Stats) (bytes : Z) (retained : bool) : Stats := mkStats (conn_attempts s) (conn_ok s)
    (conn_fail s) (active_conns s) (subs s) (sends s) (send_bytes s) (wrap 64 (recvs s + 1)) (wrap 64 (recv_bytes s +
    bytes)) (pub_acks s) (inflight s) (inflight_full s) (ack_timeouts s) (closes s) (reconnects s) (errors s) (pings
    s) (dups s) (if retained then wrap 64 (recvs_retained s + 1) else recvs_retained s) (latency_n s) (latency_sum s)
    (latency_max s) (latency s) (last_err s).

Definition peek_last_err (s : Stats) : option bytes := last_err s.
Definition take_last_err (s : Stats) : option bytes * Stats := (last_err s, mkStats (conn_attempts s) (conn_ok s)
    (conn_fail s) (active_conns s) (subs s) (sends s) (send_bytes s) (recvs s) (recv_bytes s) (pub_acks s) (inflight
    s) (inflight_full s) (ack_timeouts s) (closes s) (reconnects s) (errors s) (pings s) (dups s) (recvs_retained s)
    (latency_n s) (latency_sum s) (latency_max s) (latency s) None).

Definition increment (l : list Z) (i : nat) : list Z := alter (fun c => wrap 64 (c + 1)) i l.
Definition record_latency (s : Stats) (us : Z) : Stats := mkStats (conn_attempts s) (conn_ok s) (conn_fail s)
    (active_conns s) (subs s) (sends s) (send_bytes s) (recvs s) (recv_bytes s) (pub_acks s) (inflight s)
    (inflight_full s) (ack_timeouts s) (closes s) (reconnects s) (errors s) (pings s) (dups s) (recvs_retained s)
    (wrap 64 (latency_n s + 1)) (wrap 64 (latency_sum s + us)) (Z.max (latency_max s) us) (increment (latency s)
    (bucket_of us)) (last_err s).

(** [((total as f64) * p / 100.0).ceil().max(1.0) as u64] *)
Definition percentile_target (total : Z) (p : F64.t) : Z :=
  to_u64 (F64.max (F64.ceil (F64.div (F64.mul (F64.of_Z total) p) (F64.of_Z 100))) (F64.of_Z 1)).

Fixpoint find_bucket (target acc : Z) (idx : nat) (l : list Z) : option nat :=
  match l with
  | [] => None
  | c :: l => let acc := wrap 64 (acc + c) in if target <=? acc then Some idx else find_bucket target acc (S idx) l
  end.

Definition percentile (s : Stats) (p : F64.t) : Z :=
  let total := latency_n s in
  if total =? 0 then 0
  else match find_bucket (percentile_target total p) 0 0 (latency s) with
       | Some idx => bucket_lower idx
       | None => latency_max s
       end.

Definition latency_mean (s : Stats) : Z := if latency_n s =? 0 then 0 else latency_sum s / latency_n s.

Record Latency : Type := mkLatency { samples : Z; mean_us : Z; p50_us : Z; p90_us : Z; p99_us : Z; p999_us : Z; max_us : Z }.

(** [99.9] *)
Definition p999 : F64.t := S754_finite false 7029837543348634 (-46).

Definition latency_stats (s : Stats) : Latency :=
  mkLatency (latency_n s) (latency_mean s) (percentile s (F64.of_Z 50)) (percentile s (F64.of_Z 90))
    (percentile s (F64.of_Z 99)) (percentile s p999) (latency_max s).

(** [Counters]: the gauges as [u64], at least 0. *)
Record Counters : Type := mkCounters {
  c_conn_attempts : Z; c_conn_ok : Z; c_conn_fail : Z; c_active_conns : Z; c_subs : Z; c_sends : Z; c_send_bytes : Z;
  c_recvs : Z; c_recv_bytes : Z; c_pub_acks : Z; c_inflight : Z; c_inflight_full : Z; c_ack_timeouts : Z; c_closes :
  Z; c_reconnects : Z; c_errors : Z; c_pings : Z; c_dups : Z; c_recvs_retained : Z;
}.
Definition snapshot (s : Stats) : Counters := mkCounters (conn_attempts s) (conn_ok s) (conn_fail s) (Z.max
    (active_conns s) 0) (subs s) (sends s) (send_bytes s) (recvs s) (recv_bytes s) (pub_acks s) (Z.max (inflight s) 0)
    (inflight_full s) (ack_timeouts s) (closes s) (reconnects s) (errors s) (pings s) (dups s) (recvs_retained s).

(** [since]: the subtractions of [u64] panic where the build checks them,
    and wrap in a release build. *)
Definition since (s o : Counters) : Counters := mkCounters (wrap 64 (c_conn_attempts s - c_conn_attempts o)) (wrap 64
    (c_conn_ok s - c_conn_ok o)) (wrap 64 (c_conn_fail s - c_conn_fail o)) (c_active_conns s) (wrap 64 (c_subs s -
    c_subs o)) (wrap 64 (c_sends s - c_sends o)) (wrap 64 (c_send_bytes s - c_send_bytes o)) (wrap 64 (c_recvs s -
    c_recvs o)) (wrap 64 (c_recv_bytes s - c_recv_bytes o)) (wrap 64 (c_pub_acks s - c_pub_acks o)) (c_inflight s)
    (wrap 64 (c_inflight_full s - c_inflight_full o)) (wrap 64 (c_ack_timeouts s - c_ack_timeouts o)) (wrap 64
    (c_closes s - c_closes o)) (wrap 64 (c_reconnects s - c_reconnects o)) (wrap 64 (c_errors s - c_errors o)) (wrap
    64 (c_pings s - c_pings o)) (wrap 64 (c_dups s - c_dups o)) (wrap 64 (c_recvs_retained s - c_recvs_retained o)).

(** [1e-9], [1e6] and [0.001]. *)
Definition nano : F64.t := S754_finite false 4835703278458517 (-82).
Definition million : F64.t := F64.of_Z 1000000.
Definition milli : F64.t := S754_finite false 4611686018427388 (-62).

Definition rate (v : Z) (secs : F64.t) : F64.t := F64.div (F64.of_Z v) (F64.max secs nano).

Record Rates : Type := mkRates { r_conn : F64.t; r_sub : F64.t; r_send : F64.t; r_recv : F64.t; send_mbps : F64.t; recv_mbps : F64.t }.

Definition mbps (bytes : Z) (secs : F64.t) : F64.t := F64.div (F64.mul (F64.of_Z bytes) (F64.of_Z 8)) (F64.mul secs million).

Definition rates_at (c : Counters) (secs : F64.t) : Rates :=
  mkRates (rate (c_conn_ok c) secs) (rate (c_subs c) secs) (rate (c_sends c) secs) (rate (c_recvs c) secs)
    (mbps (c_send_bytes c) secs) (mbps (c_recv_bytes c) secs).

Definition rates (c : Counters) (dt : Z) : Rates := rates_at c (F64.max (F64.as_secs dt) milli).

Record Report : Type := mkReport {
  elapsed_secs : F64.t; counters : Counters; avg_rate : Rates; report_latency : Latency; report_last_err : option bytes;
}.

Definition report (s : Stats) (elapsed : Z) : Report * Stats :=
  let secs := F64.as_secs elapsed in
  let c := snapshot s in
  let '(err, s') := take_last_err s in
  (mkReport secs c (rates_at c secs) (latency_stats s) err, s').

(** ** Buckets are monotonic and tight *)

Definition u64 (us : Z) : Prop := 0 <= us < 2 ^ 64.

(** Above 63: the octave and the quarter of it. *)
Lemma octave us : 64 <= us -> u64 us ->
  6 <= Z.log2 us <= 63 /\ 2 ^ Z.log2 us <= us < 2 ^ (Z.log2 us + 1) /\
  4 <= Z.shiftr us (Z.log2 us - 2) < 8.
Proof.
  intros Hl [_ Hu]. pose proof (Z.log2_spec us ltac:(lia)) as [H1 H2]. rewrite <- Z.add_1_r in H2.
  assert (Hlog : 6 <= Z.log2 us <= 63).
  { split; [by apply (Z.log2_le_mono 64)|]. apply (Z.log2_le_mono us (2 ^ 64 - 1)). lia. }
  split; [done|]. split; [done|]. rewrite Z.shiftr_div_pow2 by lia.
  replace (2 ^ Z.log2 us) with (4 * 2 ^ (Z.log2 us - 2)) in H1.
  2:{ change 4 with (2 ^ 2). rewrite <- Z.pow_add_r by lia. f_equal. lia. }
  replace (2 ^ (Z.log2 us + 1)) with (8 * 2 ^ (Z.log2 us - 2)) in H2.
  2:{ change 8 with (2 ^ 3). rewrite <- Z.pow_add_r by lia. f_equal. lia. }
  assert (0 < 2 ^ (Z.log2 us - 2)) by (apply Z.pow_pos_nonneg; lia).
  split; [apply Z.div_le_lower_bound; lia|apply Z.div_lt_upper_bound; lia].
Qed.

Lemma land_3 x : 4 <= x < 8 -> Z.land x 3 = x - 4.
Proof. intros H. assert (x = 4 \/ x = 5 \/ x = 6 \/ x = 7) as [->|[->|[->| ->]]] by lia; done. Qed.

Lemma bucket_of_high us : 64 <= us -> u64 us ->
  Z.of_nat (bucket_of us) = 64 + (Z.log2 us - 6) * 4 + (Z.shiftr us (Z.log2 us - 2) - 4).
Proof.
  intros Hl Hu. destruct (octave us Hl Hu) as (Hlog & _ & Hs). unfold bucket_of, bit_length.
  destruct (Z.ltb_spec us 64); [lia|]. destruct (Z.eqb_spec us 0); [lia|].
  replace (Z.log2 us + 1 - 3) with (Z.log2 us - 2) by lia. rewrite land_3 by done. unfold BUCKETS. lia.
Qed.

Lemma bucket_of_low us : 0 <= us < 64 -> Z.of_nat (bucket_of us) = us.
Proof. intros H. unfold bucket_of. destruct (Z.ltb_spec us 64); lia. Qed.

Lemma bucket_mono x y : u64 x -> u64 y -> x <= y -> (bucket_of x <= bucket_of y)%nat.
Proof.
  intros Hx Hy Hxy. apply Nat2Z.inj_le. pose proof Hx as [Hx0 _]. destruct (Z.ltb_spec x 64); destruct (Z.ltb_spec y 64).
  - rewrite !bucket_of_low by lia. done.
  - rewrite bucket_of_low, bucket_of_high by done. destruct (octave y ltac:(done) Hy) as (? & _ & ?). lia.
  - lia.
  - rewrite !bucket_of_high by done. destruct (octave x ltac:(done) Hx) as (? & _ & ?). destruct (octave y ltac:(done) Hy) as (? & _ & ?).
    pose proof (Z.log2_le_mono x y Hxy). destruct (Z.eq_dec (Z.log2 x) (Z.log2 y)) as [->|]; [|lia].
    rewrite !Z.shiftr_div_pow2 in * by lia. pose proof (Z.div_le_mono x y (2 ^ (Z.log2 y - 2)) ltac:(apply Z.pow_pos_nonneg; lia) Hxy). lia.
Qed.

Lemma bucket_bound us : u64 us -> (bucket_of us < BUCKETS)%nat.
Proof.
  intros Hu. apply Nat2Z.inj_lt. pose proof Hu as [H0 _]. change (Z.of_nat BUCKETS) with 296. destruct (Z.ltb_spec us 64).
  - rewrite bucket_of_low by done. lia.
  - rewrite bucket_of_high by done. destruct (octave us ltac:(done) Hu) as (? & _ & ?). lia.
Qed.

(** The lower bound of its bucket is the value with all but its three
    leading bits cleared. *)
Lemma bucket_lower_high us : 64 <= us -> u64 us ->
  bucket_lower (bucket_of us) = us / 2 ^ (Z.log2 us - 2) * 2 ^ (Z.log2 us - 2).
Proof.
  intros Hl Hu. destruct (octave us Hl Hu) as (Hlog & _ & Hs). unfold bucket_lower. rewrite bucket_of_high by done.
  set (q := Z.shiftr us (Z.log2 us - 2)) in *. destruct (Z.ltb_spec (64 + (Z.log2 us - 6) * 4 + (q - 4)) 64); [lia|].
  replace (64 + (Z.log2 us - 6) * 4 + (q - 4) - 64) with (q - 4 + (Z.log2 us - 6) * 4) by lia.
  rewrite Z.div_add, Z.mod_add, Z.div_small, Z.mod_small by lia.
  replace (7 + (0 + (Z.log2 us - 6)) - 1) with (Z.log2 us - 2 + 2) by lia.
  replace (7 + (0 + (Z.log2 us - 6)) - 3) with (Z.log2 us - 2) by lia.
  rewrite <- Z.shiftr_div_pow2 by lia. fold q. rewrite !Z.shiftl_mul_pow2, Z.pow_add_r by lia. lia.
Qed.

Lemma bucket_tight us : u64 us ->
  bucket_lower (bucket_of us) <= us /\ 4 * (us - bucket_lower (bucket_of us)) <= bucket_lower (bucket_of us) /\
  (us < 64 -> bucket_lower (bucket_of us) = us).
Proof.
  intros Hu. pose proof Hu as [H0 _]. destruct (Z.ltb_spec us 64).
  - assert (Hb : bucket_lower (bucket_of us) = us) by (unfold bucket_lower; rewrite bucket_of_low by done; destruct (Z.ltb_spec us 64); lia).
    rewrite Hb. lia.
  - rewrite bucket_lower_high by done. destruct (octave us ltac:(done) Hu) as (? & _ & Hs). rewrite Z.shiftr_div_pow2 in Hs by lia.
    set (w := 2 ^ (Z.log2 us - 2)) in *. assert (0 < w) by (apply Z.pow_pos_nonneg; lia).
    pose proof (Z.div_mod us w ltac:(lia)). pose proof (Z.mod_pos_bound us w ltac:(lia)). split_and!; [lia|nia|lia].
Qed.

(** ** Percentiles *)

(** How many of the samples satisfy a test. *)
Definition count (P : Z -> bool) (l : list Z) : Z := foldr (fun x n => (if P x then 1 else 0) + n) 0 l.

Lemma count_le (P Q : Z -> bool) l : Forall (fun x => P x = true -> Q x = true) l -> count P l <= count Q l.
Proof. induction 1 as [|x l Hx _ IH]; simpl; [done|]. destruct (P x); [rewrite Hx by done|destruct (Q x)]; lia. Qed.

Lemma count_nonneg P l : 0 <= count P l.
Proof. induction l as [|x l IH]; simpl; [done|]. destruct (P x); lia. Qed.

Lemma count_length P l : count P l <= Z.of_nat (length l).
Proof. induction l as [|x l IH]; simpl; [done|]. destruct (P x); lia. Qed.

Lemma count_snoc P l x : count P (l ++ [x]) = count P l + (if P x then 1 else 0).
Proof. induction l as [|y l IH]; simpl; [lia|]. rewrite IH. lia. Qed.

Definition recorded (l : list Z) : Stats := foldl record_latency new l.

(** What the histogram holds. *)
Definition in_bucket (i : nat) (x : Z) : bool := bool_decide (bucket_of x = i).
Definition below (i : nat) (x : Z) : bool := bool_decide (bucket_of x < i)%nat.

Lemma recorded_holds l : Forall u64 l -> Z.of_nat (length l) < 2 ^ 64 ->
  latency_n (recorded l) = Z.of_nat (length l) /\
  latency (recorded l) = (fun i => count (in_bucket i) l) <$> seq 0 BUCKETS.
Proof.
  unfold recorded. induction l as [|x l IH] using rev_ind; intros Hl Hn; [by vm_compute|].
  apply Forall_app in Hl as [Hl Hx]. apply Forall_cons in Hx as [Hx _]. rewrite length_app in Hn. cbn [length] in Hn.
  destruct IH as [IHn IHl]; [done|lia|]. rewrite foldl_app. cbn [foldl record_latency latency_n latency].
  rewrite IHn, IHl, length_app. cbn [length]. unfold wrap. split; [rewrite Z.mod_small; lia|].
  apply list_eq. intros i. unfold increment. rewrite list_lookup_alter, !list_lookup_fmap.
  assert (Hs : forall k, count (in_bucket k) (l ++ [x]) = if decide (bucket_of x = k) then wrap 64 (count (in_bucket k) l + 1) else count (in_bucket k) l).
  { intros k. rewrite count_snoc. unfold in_bucket at 2, wrap. pose proof (count_nonneg (in_bucket k) l). pose proof (count_length (in_bucket k) l).
    case_decide; [rewrite bool_decide_eq_true_2, Z.mod_small by (done || lia)|rewrite bool_decide_eq_false_2 by done]; lia. }
  destruct (decide (bucket_of x = i)) as [<-|Hi].
  - destruct (seq 0 BUCKETS !! bucket_of x) as [k|] eqn:Hk; [|done]. apply lookup_seq in Hk as [-> _].
    cbn [fmap option_fmap option_map Nat.add]. rewrite Hs. by rewrite decide_True.
  - destruct (seq 0 BUCKETS !! i) as [k|] eqn:Hk; [|done]. apply lookup_seq in Hk as [-> _].
    cbn [fmap option_fmap option_map Nat.add]. rewrite Hs. by rewrite decide_False.
Qed.

Lemma count_below_succ i l : count (below (S i)) l = count (below i) l + count (in_bucket i) l.
Proof.
  induction l as [|x l IH]; simpl; [done|]. rewrite IH. unfold below, in_bucket.
  repeat case_bool_decide; lia.
Qed.

(** The search stops at the first bucket that reaches the target. *)
Lemma find_bucket_at target b n i l : Z.of_nat (length l) < 2 ^ 64 ->
  (i <= b < i + n)%nat -> count (below b) l < target <= count (below (S b)) l ->
  find_bucket target (count (below i) l) i ((fun j => count (in_bucket j) l) <$> seq i n) = Some b.
Proof.
  intros Hlen. revert i. induction n as [|n IH]; intros i Hi Ht; [lia|]. cbn [seq fmap list_fmap find_bucket].
  rewrite <- count_below_succ.
  assert (Hw : wrap 64 (count (below (S i)) l) = count (below (S i)) l).
  { unfold wrap. apply Z.mod_small. pose proof (count_nonneg (below (S i)) l). pose proof (count_length (below (S i)) l). lia. }
  rewrite Hw. destruct (Z.leb_spec target (count (below (S i)) l)).
  - f_equal. destruct (decide (i = b)); [done|]. exfalso. enough (count (below (S i)) l <= count (below b) l) by lia.
    apply count_le, Forall_true. intros x Hx%bool_decide_eq_true. apply bool_decide_eq_true. lia.
  - apply IH; [|done]. split; [|lia]. destruct (decide (i = b)) as [->|]; lia.
Qed.

(** [x] is the [k]-th smallest of the samples. *)
Definition kth_smallest (k x : Z) (l : list Z) : Prop :=
  x ∈ l /\ count (fun y => y <? x) l < k <= count (fun y => y <=? x) l.


(** No samples, no percentile. *)
Lemma percentile_empty p : percentile new p = 0.
Proof. done. Qed.

(** The report of a run of no length divides by zero where [rate] takes
    care not to. *)
Lemma report_divides_by_zero :
  send_mbps (avg_rate (report new 0).1) = S754_nan /\ r_send (avg_rate (report new 0).1) = S754_zero false.
Proof. by vm_compute. Qed.

End Histogram.

Module Window.
(** [Slots]: which ids are taken, and where the search starts. *)
Record Slots : Type := mkSlots { used : list bool; cursor : nat }.

Definition new (count : nat) : Slots := mkSlots (replicate (Nat.max count 1) false) 0.
Definition capacity (s : Slots) : nat := length (used s).

(** The loop of [take], at its [i]-th step with [fuel] to go. [idx as u16 +
    1] panics or wraps past 65535, which the options exclude. *)
Fixpoint take_loop (s : Slots) (fuel i : nat) : option Z * Slots :=
  match fuel with
  | O => (None, s)
  | S fuel =>
      let n := capacity s in
      let idx := ((cursor s + i) mod n)%nat in
      match used s !! idx with
      | Some false => (Some (wrap 16 (wrap 16 (Z.of_nat idx) + 1)), mkSlots (<[idx := true]> (used s)) ((idx + 1) mod n))
      | _ => take_loop s fuel (S i)
      end
  end.
Definition take (s : Slots) : option Z * Slots := take_loop s (capacity s) 0.

Definition release (s : Slots) (pid : Z) : Slots :=
  if pid =? 0 then s
  else
    let idx := Z.to_nat (pid - 1) in
    if (idx <? capacity s)%nat then mkSlots (<[idx := false]> (used s)) (cursor s) else s.

Definition in_use (s : Slots) : nat := length (filter (fun u : bool => u = true) (used s)).

(** The ids that are taken. *)
Definition taken (s : Slots) (pid : Z) : Prop := 1 <= pid /\ used s !! Z.to_nat (pid - 1) = Some true.

Definition valid (s : Slots) : Prop := 1 <= Z.of_nat (capacity s) <= 65535 /\ (cursor s < capacity s)%nat.

(** ** Facts *)

Lemma new_valid count : Z.of_nat count <= 65535 -> valid (new count).
Proof. intros H. unfold valid, capacity, new. cbn [used cursor]. rewrite length_replicate. lia. Qed.

Lemma release_valid s pid : valid s -> valid (release s pid).
Proof.
  intros Hv. unfold release. destruct (pid =? 0); [done|]. destruct (_ <? _)%nat; [|done].
  unfold valid, capacity in *. cbn [used cursor]. by rewrite length_insert.
Qed.

(** What the loop finds: the first free slot from the cursor on. *)
Lemma take_loop_spec s fuel i : valid s -> (i + fuel = capacity s)%nat ->
  (forall k, (k < i)%nat -> used s !! ((cursor s + k) mod capacity s)%nat = Some true) ->
  match take_loop s fuel i with
  | (Some pid, s') =>
      1 <= pid <= Z.of_nat (capacity s) /\ used s !! Z.to_nat (pid - 1) = Some false /\
      used s' = <[Z.to_nat (pid - 1) := true]> (used s) /\ (cursor s' < capacity s)%nat
  | (None, s') => s' = s /\ forall k, (k < capacity s)%nat -> used s !! ((cursor s + k) mod capacity s)%nat = Some true
  end.
Proof.
  intros [Hc Hcur]. revert i. induction fuel as [|fuel IH]; intros i Hi Hused; cbn [take_loop].
  - split; [done|]. intros k Hk. apply Hused. lia.
  - set (idx := ((cursor s + i) mod capacity s)%nat). assert (Hidx : (idx < capacity s)%nat) by (apply Nat.mod_upper_bound; lia).
    destruct (lookup_lt_is_Some_2 (used s) idx Hidx) as [u Hu]. rewrite Hu. destruct u.
    + apply IH; [lia|]. intros k Hk. destruct (decide (k = i)) as [->|]; [done|]. apply Hused. lia.
    + assert (Hpid : wrap 16 (wrap 16 (Z.of_nat idx) + 1) = Z.of_nat idx + 1) by (unfold wrap; rewrite (Z.mod_small (Z.of_nat idx)), Z.mod_small by lia; done).
      rewrite Hpid. replace (Z.to_nat (Z.of_nat idx + 1 - 1)) with idx by lia.
      split_and!; [lia|lia|done|done|]. apply Nat.mod_upper_bound. lia.
Qed.

(** Every slot is looked at. *)
Lemma rotation n c j : (c < n)%nat -> (j < n)%nat -> exists k, (k < n)%nat /\ ((c + k) mod n = j)%nat.
Proof.
  intros Hc Hj. destruct (decide (c <= j)%nat).
  - exists (j - c)%nat. split; [lia|]. replace (c + (j - c))%nat with j by lia. by apply Nat.mod_small.
  - exists (n + j - c)%nat. split; [lia|]. replace (c + (n + j - c))%nat with (j + 1 * n)%nat by lia.
    rewrite Nat.Div0.mod_add. by apply Nat.mod_small.
Qed.

Lemma take_fresh (s : Slots) :
  valid s ->
  match take s with
  | (Some pid, s') =>
      1 <= pid <= Z.of_nat (capacity s) /\ ~ taken s pid /\
      (forall q, taken s' q <-> taken s q \/ q = pid) /\ valid s' /\ capacity s' = capacity s
  | (None, s') => s' = s /\ forall q, 1 <= q <= Z.of_nat (capacity s) -> taken s q
  end.
Proof.
  intros Hv. pose proof Hv as [Hc Hcur].
  pose proof (take_loop_spec s (capacity s) 0 Hv ltac:(lia) ltac:(lia)) as H. unfold take.
  destruct (take_loop _ _ _) as [[pid|] s'].
  - destruct H as (Hr & Hfree & Hu & Hcur'). unfold taken. rewrite Hu.
    assert (Hlt : (Z.to_nat (pid - 1) < length (used s))%nat) by (unfold capacity in *; lia).
    split_and!; try lia.
    + intros [_ Ht]. congruence.
    + intros q. rewrite list_lookup_insert. case_decide as Hd.
      * split; [intros; right; lia|]. intros [[? Ht]| ->]; [|lia || (split; [lia|done])]. split; [done|done].
      * split; [by left|]. intros [?| ->]; [done|]. exfalso. apply Hd. done.
    + unfold valid, capacity in *. rewrite Hu, length_insert. lia.
    + unfold capacity. by rewrite Hu, length_insert.
  - destruct H as [-> Hall]. split; [done|]. intros q Hq. split; [lia|].
    destruct (rotation (capacity s) (cursor s) (Z.to_nat (q - 1)) Hcur ltac:(lia)) as (k & Hk & <-). by apply Hall.
Qed.

Lemma release_taken (s : Slots) pid q :
  0 <= pid -> taken (release s pid) q <-> taken s q /\ q <> pid.
Proof.
  intros Hpid. unfold release. destruct (Z.eqb_spec pid 0) as [->|Hne]; [unfold taken; split; [intros; split; [done|lia]|tauto]|].
  destruct (Nat.ltb_spec (Z.to_nat (pid - 1)) (capacity s)) as [Hlt|Hge]; unfold taken; cbn [used].
  - rewrite list_lookup_insert. case_decide as Hd.
    + split; [intros [_ ?]; by destruct Hd|]. intros [[? _] ?]. destruct Hd as [Hd _]. lia.
    + split; [intros [? ?]; split; [done|]|tauto]. intros ->. by apply Hd.
  - split; [|tauto]. intros [? Ht]. split; [done|]. intros ->. apply lookup_lt_Some in Ht. unfold capacity in Hge. lia.
Qed.

Lemma release_capacity s pid : capacity (release s pid) = capacity s.
Proof.
  unfold release. destruct (pid =? 0); [done|]. destruct (_ <? _)%nat; [|done].
  unfold capacity. cbn [used]. by rewrite length_insert.
Qed.

(** The packet ids of the load generator: an id that is handed out is
    in the range of the window and was not in use; it is in use from then
    on, and no other id changes. None is handed out exactly if all are in
    use. What is released can be used again. *)
Theorem slots_unique (s : Slots) :
  valid s ->
  (match take s with
   | (Some pid, s') =>
       1 <= pid <= Z.of_nat (capacity s) /\ ~ taken s pid /\
       (forall q, taken s' q <-> taken s q \/ q = pid) /\ valid s'
   | (None, s') => s' = s /\ forall q, 1 <= q <= Z.of_nat (capacity s) -> taken s q
   end) /\
  (forall pid q, 0 <= pid -> taken (release s pid) q <-> taken s q /\ q <> pid).
Proof.
  intros Hv. split; [|intros; by apply release_taken].
  pose proof (take_fresh s Hv) as H. destruct (take s) as [[pid|] s']; [|done]. by destruct_and! H.
Qed.

Lemma slots_unique_witness :
  let s := (take (take (new 2)).2).2 in
  (take s).1 = None /\ (take (release s 2)).1 = Some 2 /\ ~ taken (release s 2) 2.
Proof.
  intros s. split_and!; [by vm_compute|by vm_compute|].
  assert (Hv : valid s) by (split; [split; by vm_compute|vm_compute; lia]).
  intros H%(proj1 (proj2 (slots_unique s Hv) 2 2 ltac:(lia))). by destruct H.
Defined.
End Window.
