(* ===== verification/Utils.v ===== *)
(** * Sizes, durations and node addresses: [utils/mod.rs]

    The texts of the configuration: ["2G512M"], ["1h30m"], ["1@host:1883"].
    Text is a list of ASCII codes; the arithmetic is that of [usize] and
    [u64], with or without overflow checks. *)

From stdpp Require Import prelude list strings.
From Stdlib Require Import ZArith Lia.
From S2P Require Import Prelude CodecTypes Connection.

Local Open Scope Z_scope.

(** ** Text: the parts of the Standard Library that are used *)

Definition is_upper (c : Z) : bool := (65 <=? c) && (c <=? 90).
Definition is_lower (c : Z) : bool := (97 <=? c) && (c <=? 122).
Definition to_uppercase (s : bytes) : bytes := (fun c => if is_lower c then c - 32 else c) <$> s.
Definition to_lowercase (s : bytes) : bytes := (fun c => if is_upper c then c + 32 else c) <$> s.

(** [replace] of two characters by one. *)
Fixpoint replace2 (a b c : Z) (s : bytes) : bytes :=
  match s with
  | x :: rest =>
      match rest with
      | y :: rest' => if (x =? a) && (y =? b) then c :: replace2 a b c rest' else x :: replace2 a b c rest
      | [] => [x]
      end
  | [] => []
  end.

(** [split_inclusive]: each piece ends with a separator, the last one may
    not; [cur] is the piece so far. *)
Fixpoint split_inclusive (sep : Z -> bool) (cur : bytes) (s : bytes) : list bytes :=
  match s with
  | [] => match cur with [] => [] | _ => [cur] end
  | c :: s => if sep c then (cur ++ [c]) :: split_inclusive sep [] s else split_inclusive sep (cur ++ [c]) s
  end.

(** [str::parse] of an unsigned integer of 64 bits. *)
Fixpoint parse_digits (acc : Z) (s : bytes) : option Z :=
  match s with
  | [] => Some acc
  | c :: s =>
      if (48 <=? c) && (c <=? 57) then
        let acc := acc * 10 + (c - 48) in
        if acc <? 2 ^ 64 then parse_digits acc s else None
      else None
  end.
Definition parse_u64 (s : bytes) : option Z :=
  match s with
  | [] => None
  | [c] => if (c =? 43) || (c =? 45) then None else parse_digits 0 s
  | c :: rest => if c =? 43 then parse_digits 0 rest else parse_digits 0 s
  end.

(** Arithmetic of 64 bits: with overflow checks it panics where the result
    does not fit, otherwise it wraps. *)
Definition fit {E} (overflow_checks : bool) (v : Z) : outcome E Z :=
  if v <? 2 ^ 64 then Ok v else if overflow_checks then Panic else Ok (wrap 64 v).

(** ** Sizes *)

Definition BYTESIZE_K : Z := 1024.
Definition BYTESIZE_M : Z := 1048576.
Definition BYTESIZE_G : Z := 1073741824.

Inductive ParseSizeError : Type :=
| InvalidFormat
| InvalidNumber (s : bytes)
| InvalidUnit (c : Z).

Definition Bytesize_string (v : Z) : bytes :=
  let part (v unit c : Z) := if 0 <? v / unit then format_int (v / unit) ++ [c] else [] in
  let g := part v BYTESIZE_G 71 in
  let v := if 0 <? v / BYTESIZE_G then v mod BYTESIZE_G else v in
  let m := part v BYTESIZE_M 77 in
  let v := if 0 <? v / BYTESIZE_M then v mod BYTESIZE_M else v in
  let k := part v BYTESIZE_K 75 in
  let v := if 0 <? v / BYTESIZE_K then v mod BYTESIZE_K else v in
  g ++ m ++ k ++ (if 0 <? v then format_int v ++ [66] else []).

Definition size_unit (c : Z) : option Z :=
  if c =? 66 then Some 1 else if c =? 75 then Some BYTESIZE_K
  else if c =? 77 then Some BYTESIZE_M else if c =? 71 then Some BYTESIZE_G else None.

(** [nth_back(0)] and what is left of the iterator. *)
Definition last_and_rest (x : bytes) : option (Z * bytes) :=
  match last x with Some c => Some (c, take (length x - 1) x) | None => None end.

Section overflow.
Context (overflow_checks : bool).

Definition size_piece (x : bytes) : outcome ParseSizeError Z :=
  match last_and_rest x with
  | None => Err InvalidFormat
  | Some (u, num_str) =>
      match parse_u64 num_str with
      | None => Err (InvalidNumber num_str)
      | Some v =>
          match size_unit u with
          | Some 1 => Ok v
          | Some unit => fit overflow_checks (v * unit)
          | None => Err (InvalidUnit u)
          end
      end
  end.

(** [sum] over results: it stops at the first error. *)
Fixpoint sum_pieces {E} (f : bytes -> outcome E Z) (acc : Z) (l : list bytes) : outcome E Z :=
  match l with
  | [] => Ok acc
  | x :: l =>
      match f x with
      | Ok v =>
          match fit overflow_checks (acc + v) with
          | Ok acc => sum_pieces f acc l
          | Err e => Err e | Panic => Panic | Diverged => Diverged
          end
      | Err e => Err e | Panic => Panic | Diverged => Diverged
      end
  end.

Definition is_size_unit (c : Z) : bool := bool_decide (c ∈ [71; 77; 75; 66]).

Definition to_bytesize (text : bytes) : outcome ParseSizeError Z :=
  let text := replace2 75 66 75 (replace2 77 66 77 (replace2 71 66 71 (to_uppercase text))) in
  sum_pieces size_piece 0 (split_inclusive is_size_unit [] text).

(** ** Durations *)

(** The milliseconds of a unit; ["ms"] was replaced by ["Y"]. *)
Definition duration_unit (c : Z) : option Z :=
  if c =? 89 then Some 1 else if c =? 115 then Some 1000 else if c =? 109 then Some 60000
  else if c =? 104 then Some 3600000 else if c =? 100 then Some 86400000
  else if c =? 119 then Some 604800000 else if c =? 102 then Some 1209600000 else None.

(** What does not parse counts as nothing. *)
Definition duration_piece (x : bytes) : outcome Empty_set Z :=
  match last_and_rest x with
  | None => Ok 0
  | Some (u, num_str) =>
      match parse_u64 num_str with
      | None => Ok 0
      | Some v =>
          match duration_unit u with
          | Some 1 => Ok v
          | Some unit => fit overflow_checks (v * unit)
          | None => Ok 0
          end
      end
  end.

Definition is_duration_unit (c : Z) : bool := bool_decide (c ∈ [115; 109; 104; 100; 119; 102; 89]).

(** In nanoseconds. *)
Definition to_duration (text : bytes) : outcome Empty_set Z :=
  let text := replace2 109 115 89 (to_lowercase text) in
  match sum_pieces duration_piece 0 (split_inclusive is_duration_unit [] text) with
  | Ok ms => Ok (ms * 1000000)
  | Err e => Err e | Panic => Panic | Diverged => Diverged
  end.

Definition deserialize_duration (v : bytes) : outcome Empty_set Z := to_duration v.
Definition deserialize_duration_option (v : bytes) : outcome Empty_set (option Z) :=
  match v with
  | [] => Ok None
  | _ => match to_duration v with Ok d => Ok (Some d) | Err e => Err e | Panic => Panic | Diverged => Diverged end
  end.
End overflow.

(** ** Node addresses *)

Record NodeAddr : Type := mkNodeAddr { na_id : Z; na_addr : bytes }.

(** [split] at a character. *)
Fixpoint split_at (sep : Z) (cur : bytes) (s : bytes) : list bytes :=
  match s with
  | [] => [cur]
  | c :: s => if c =? sep then cur :: split_at sep [] s else split_at sep (cur ++ [c]) s
  end.

Inductive NodeAddrError : Type := NodeAddrFormat (s : bytes) | NodeIdInvalid (s : bytes).

Definition NodeAddr_from_str (s : bytes) : outcome NodeAddrError NodeAddr :=
  match split_at 64 [] s with
  | id :: addr :: _ =>
      match parse_u64 id with Some id => Ok (mkNodeAddr id addr) | None => Err (NodeIdInvalid id) end
  | _ => Err (NodeAddrFormat s)
  end.

(** [Debug for NodeAddr], as far as the address needs no escapes. *)
Definition NodeAddr_debug (n : NodeAddr) : bytes := format_int (na_id n) ++ [64] ++ [34] ++ na_addr n ++ [34].

(** ** Numbers in decimal *)

Definition digit (c : Z) : Prop := 48 <= c <= 57.

Lemma digits_of_digits fuel n : Forall digit (digits_of fuel n).
Proof.
  revert n. induction fuel as [|fuel IH]; intros n; simpl; [constructor|]. apply Forall_app. split.
  - destruct (n <? 10); [constructor|apply IH].
  - constructor; [|constructor]. unfold digit. pose proof (Z.mod_pos_bound n 10). lia.
Qed.

Lemma format_int_digits n : Forall digit (format_int n).
Proof. apply digits_of_digits. Qed.

Lemma format_int_nonempty n : exists c s, format_int n = c :: s.
Proof.
  unfold format_int. cbn [digits_of]. destruct (if n <? 10 then [] else _); simpl; eauto.
Qed.

Lemma parse_digits_of_text fuel n s :
  0 <= n < 2 ^ 64 -> n < 10 ^ Z.of_nat fuel -> parse_digits 0 (digits_of fuel n ++ s) = parse_digits n s.
Proof.
  revert n s. induction fuel as [|fuel IH]; intros n s Hn Hf.
  { simpl in Hf. assert (n = 0) as -> by lia. done. }
  assert (Hlast : forall a, a * 10 + n mod 10 = n -> parse_digits a ([48 + n mod 10] ++ s) = parse_digits n s).
  { intros a Ha. pose proof (Z.mod_pos_bound n 10 ltac:(lia)). cbn [app parse_digits].
    destruct (Z.leb_spec 48 (48 + n mod 10)); [|lia]. destruct (Z.leb_spec (48 + n mod 10) 57); [|lia]. cbn [andb].
    replace (a * 10 + (48 + n mod 10 - 48)) with n by lia. destruct (Z.ltb_spec n (2 ^ 64)); [done|lia]. }
  cbn [digits_of]. rewrite <- app_assoc. destruct (Z.ltb_spec n 10).
  - simpl app at 1. apply (Hlast 0). rewrite Z.mod_small; lia.
  - rewrite IH.
    + apply Hlast. pose proof (Z.div_mod n 10). lia.
    + split; [apply Z.div_pos; lia|]. apply Z.div_lt_upper_bound; lia.
    + apply Z.div_lt_upper_bound; [lia|]. rewrite Nat2Z.inj_succ, Z.pow_succ_r in Hf by lia. lia.
Qed.

Lemma parse_format n : 0 <= n < 2 ^ 64 -> parse_u64 (format_int n) = Some n.
Proof.
  intros Hn. assert (Hp : parse_digits 0 (format_int n) = Some n).
  { rewrite <- (app_nil_r (format_int n)). unfold format_int. rewrite parse_digits_of_text; [done|done|lia]. }
  pose proof (format_int_digits n) as Hd. destruct (format_int_nonempty n) as (c & s & Hs). rewrite Hs in *.
  apply Forall_cons in Hd as [Hc _]. unfold digit in Hc. unfold parse_u64.
  destruct s as [|c' s].
  - destruct (Z.eqb_spec c 43); [lia|]. destruct (Z.eqb_spec c 45); [lia|]. exact Hp.
  - destruct (Z.eqb_spec c 43); [lia|]. exact Hp.
Qed.

(** ** Texts made of numbers with units *)

(** A number, and the characters of its unit. *)
Definition piece_text (p : Z * bytes) : bytes := format_int p.1 ++ p.2.
Definition pieces_text (l : list (Z * bytes)) : bytes := concat (piece_text <$> l).

Lemma split_digits sep cur ds s :
  Forall (fun c => sep c = false) ds -> split_inclusive sep cur (ds ++ s) = split_inclusive sep (cur ++ ds) s.
Proof.
  revert cur. induction ds as [|d ds IH]; intros cur Hd; [by rewrite app_nil_r|].
  apply Forall_cons in Hd as [Hd Hds]. simpl. rewrite Hd, IH by done. by rewrite <- app_assoc.
Qed.

Lemma split_pieces sep l :
  (forall c, digit c -> sep c = false) -> Forall (fun p => exists u, p.2 = [u] /\ sep u = true) l ->
  split_inclusive sep [] (pieces_text l) = piece_text <$> l.
Proof.
  intros Hd. unfold pieces_text. induction l as [|[n us] l IH]; intros Hl; [done|].
  apply Forall_cons in Hl as [(u & Hu & Hs) Hl]. simpl in Hu. subst us.
  change (concat (piece_text <$> (n, [u]) :: l)) with ((format_int n ++ [u]) ++ concat (piece_text <$> l)).
  rewrite <- app_assoc, split_digits.
  2:{ eapply Forall_impl; [apply format_int_digits|]. intros c Hc. by apply Hd. }
  simpl. rewrite Hs. by rewrite IH.
Qed.

Lemma replace2_ne a b c x s : x <> a -> replace2 a b c (x :: s) = x :: replace2 a b c s.
Proof. intros Hx. destruct s as [|y s]; [done|]. simpl. by destruct (Z.eqb_spec x a). Qed.

Lemma replace2_next a b c x s : head s <> Some b -> replace2 a b c (x :: s) = x :: replace2 a b c s.
Proof.
  intros Hs. destruct s as [|y s]; [done|]. simpl in *. destruct (Z.eqb_spec y b) as [->|]; [done|]. by rewrite andb_false_r.
Qed.

Lemma replace2_digits a b c ds s : ~ digit a -> Forall digit ds -> replace2 a b c (ds ++ s) = ds ++ replace2 a b c s.
Proof.
  intros Ha. induction ds as [|d ds IH]; intros Hd; [done|]. apply Forall_cons in Hd as [Hd Hds].
  change ((d :: ds) ++ s) with (d :: (ds ++ s)). rewrite replace2_ne by (by intros ->). by rewrite IH.
Qed.

Lemma pieces_head l b : ~ digit b -> head (pieces_text l) <> Some b.
Proof.
  intros Hb. destruct l as [|[n u] l]; [done|]. unfold pieces_text, piece_text. simpl.
  pose proof (format_int_digits n) as Hd. destruct (format_int_nonempty n) as (c & s & Hs). rewrite Hs in *. simpl.
  apply Forall_cons in Hd as [Hc _]. intros [= ->]. done.
Qed.

(** [replace] on such a text: a unit of the two characters becomes the
    other one, the rest stays. *)
Definition replace_unit (a b c : Z) (u : bytes) : bytes := if bool_decide (u = [a; b]) then [c] else u.

Lemma replace2_pieces a b c l :
  ~ digit a -> ~ digit b -> Forall (fun p => p.2 = [a; b] \/ exists u, p.2 = [u]) l ->
  replace2 a b c (pieces_text l) = pieces_text ((fun p => (p.1, replace_unit a b c p.2)) <$> l).
Proof.
  intros Ha Hb. induction l as [|[n us] l IH]; intros Hl; [done|]. apply Forall_cons in Hl as [Hu Hl]. simpl in Hu.
  change (pieces_text ((n, us) :: l)) with ((format_int n ++ us) ++ pieces_text l).
  change (pieces_text ((fun p => (p.1, replace_unit a b c p.2)) <$> (n, us) :: l))
    with ((format_int n ++ replace_unit a b c us) ++ pieces_text ((fun p => (p.1, replace_unit a b c p.2)) <$> l)).
  rewrite <- !app_assoc, replace2_digits by (done || apply format_int_digits). f_equal. unfold replace_unit.
  destruct Hu as [->|[u ->]].
  - rewrite bool_decide_eq_true_2 by done. cbn [app replace2]. rewrite !Z.eqb_refl. simpl. by rewrite IH.
  - rewrite bool_decide_eq_false_2 by done. cbn [app]. rewrite replace2_next by (by apply pieces_head). by rewrite IH.
Qed.

Definition map_unit (f : Z -> Z) (p : Z * bytes) : Z * bytes := (p.1, fmap (M := list) f p.2).

Lemma map_pieces (f : Z -> Z) (l : list (Z * bytes)) :
  (forall c, digit c -> f c = c) -> fmap (M := list) f (pieces_text l) = pieces_text (map_unit f <$> l).
Proof.
  intros Hf. induction l as [|[n us] l IH]; [done|].
  change (pieces_text ((n, us) :: l)) with ((format_int n ++ us) ++ pieces_text l).
  change (pieces_text (map_unit f <$> (n, us) :: l)) with ((format_int n ++ (fmap (M := list) f us)) ++ pieces_text (map_unit f <$> l)).
  rewrite !fmap_app, IH. do 2 f_equal. rewrite <- (list_fmap_id (format_int n)) at 2. apply list_fmap_ext.
  intros i c Hc. apply Hf. pose proof (format_int_digits n) as Hd. rewrite Forall_lookup in Hd. by eapply Hd.
Qed.

Lemma last_of_piece n u : last_and_rest (format_int n ++ [u]) = Some (u, format_int n).
Proof.
  unfold last_and_rest. rewrite last_snoc, length_app. simpl. by rewrite Nat.add_sub, take_app_length.
Qed.

(** ** Sums *)

Definition total (unit : bytes -> Z) (l : list (Z * bytes)) : Z := foldr (fun p t => p.1 * unit p.2 + t) 0 l.

Lemma total_nonneg unit l :
  Forall (fun p => 0 <= p.1 /\ 0 <= unit p.2) l -> 0 <= total unit l.
Proof. induction 1 as [|[n u] l [Hn Hu] _ IH]; simpl; [done|]. simpl in *. nia. Qed.

Lemma fit_ok {E} oc v : v < 2 ^ 64 -> fit (E := E) oc v = Ok v.
Proof. intros Hv. unfold fit. by destruct (Z.ltb_spec v (2 ^ 64)); [|lia]. Qed.

Lemma sum_ok {E} oc (f : bytes -> outcome E Z) unit l acc :
  Forall (fun p => 0 <= p.1 /\ 0 <= unit p.2) l ->
  (forall p, p ∈ l -> p.1 * unit p.2 < 2 ^ 64 -> f (piece_text p) = Ok (p.1 * unit p.2)) ->
  0 <= acc -> acc + total unit l < 2 ^ 64 ->
  sum_pieces oc f acc (piece_text <$> l) = Ok (acc + total unit l).
Proof.
  revert acc. induction l as [|[n u] l IH]; intros acc Hl Hf Ha Ht; simpl in *; [by rewrite Z.add_0_r|].
  apply Forall_cons in Hl as [[Hn Hu] Hl]. simpl in *. pose proof (total_nonneg unit l Hl).
  rewrite (Hf (n, u)); simpl; [|by left|nia]. rewrite fit_ok by nia. rewrite IH; [f_equal; lia|done| |nia|lia].
  intros p Hp. apply Hf. by right.
Qed.

(** *** Sizes *)

Definition size_unit_of (u : bytes) : Z := match u with [c] => default 0 (size_unit c) | _ => 0 end.

Definition size_pieces (l : list (Z * bytes)) : Prop :=
  Forall (fun p => 0 <= p.1 < 2 ^ 64 /\ exists c, p.2 = [c] /\ is_Some (size_unit c)) l.

Lemma size_unit_cases c : is_Some (size_unit c) -> c = 66 \/ c = 75 \/ c = 77 \/ c = 71.
Proof.
  unfold size_unit. destruct (Z.eqb_spec c 66); [auto|]. destruct (Z.eqb_spec c 75); [auto|].
  destruct (Z.eqb_spec c 77); [auto|]. destruct (Z.eqb_spec c 71); [auto|]. by intros [? ?].
Qed.

Lemma same_pieces (f : bytes -> bytes) (P : Z * bytes -> Prop) l :
  Forall P l -> (forall p, P p -> f p.2 = p.2) -> (fun p => (p.1, f p.2)) <$> l = l.
Proof.
  intros Hl Hf. induction Hl as [|[n u] l Hp _ IH]; [done|]. rewrite fmap_cons, IH. specialize (Hf _ Hp). simpl in *. by rewrite Hf.
Qed.

Lemma size_replace a b c l : ~ digit a -> ~ digit b -> size_pieces l -> replace2 a b c (pieces_text l) = pieces_text l.
Proof.
  intros Ha Hb Hl. rewrite replace2_pieces; [|done|done|].
  - f_equal. apply (same_pieces _ _ _ Hl). intros p (_ & u & -> & _). unfold replace_unit. by rewrite bool_decide_eq_false_2.
  - eapply Forall_impl; [apply Hl|]. intros p (_ & u & -> & _). right. by exists u.
Qed.

(** What a size means: numbers with the units G, M, K and B, in any
    order and repeated, stand for their sum, as long as it fits 64 bits. *)
Theorem bytesize_sum (oc : bool) (l : list (Z * bytes)) :
  size_pieces l -> total size_unit_of l < 2 ^ 64 -> to_bytesize oc (pieces_text l) = Ok (total size_unit_of l).
Proof.
  intros Hl Ht. unfold to_bytesize.
  assert (Hnd : forall c, 57 < c -> ~ digit c) by (unfold digit; lia).
  assert (Hup : to_uppercase (pieces_text l) = pieces_text l).
  { unfold to_uppercase. rewrite map_pieces.
    - f_equal. apply (same_pieces (fmap (M := list) (fun c => if is_lower c then c - 32 else c)) _ _ Hl). intros p (_ & u & -> & Hu). by destruct (size_unit_cases u Hu) as [->|[->|[->| ->]]].
    - intros c Hc. unfold is_lower, digit in *. destruct (Z.leb_spec 97 c); [lia|done]. }
  rewrite Hup, !size_replace by (done || by apply Hnd).
  rewrite split_pieces.
  - rewrite (sum_ok oc _ size_unit_of); [done| | |lia|lia].
    + eapply Forall_impl; [apply Hl|]. intros p (? & u & -> & Hu). split; [lia|].
      by destruct (size_unit_cases u Hu) as [->|[->|[->| ->]]].
    + intros [n us] Hp Hfit. unfold size_pieces in Hl. rewrite Forall_forall in Hl. destruct (Hl _ Hp) as (Hn & u & Hus & Hu). simpl in *. subst us.
      unfold size_piece, piece_text. cbn [fst snd]. rewrite last_of_piece, parse_format by done. simpl in Hfit.
      destruct (size_unit_cases u Hu) as [->|[->|[->| ->]]]; simpl in *; rewrite ?fit_ok by (unfold BYTESIZE_K, BYTESIZE_M, BYTESIZE_G in *; lia); try done.
      f_equal. lia.
  - intros c Hc. unfold is_size_unit. apply bool_decide_eq_false_2. unfold digit in Hc. rewrite !elem_of_cons, elem_of_nil. lia.
  - eapply Forall_impl; [apply Hl|]. intros p (_ & u & -> & Hu). exists u. split; [done|].
    by destruct (size_unit_cases u Hu) as [->|[->|[->| ->]]].
Qed.

(** The pieces of [Bytesize::string]. *)
Definition part (n c : Z) : list (Z * bytes) := if 0 <? n then [(n, [c])] else [].
Definition string_pieces (v : Z) : list (Z * bytes) :=
  part (v / BYTESIZE_G) 71 ++ part (v mod BYTESIZE_G / BYTESIZE_M) 77
  ++ part (v mod BYTESIZE_G mod BYTESIZE_M / BYTESIZE_K) 75 ++ part (v mod BYTESIZE_G mod BYTESIZE_M mod BYTESIZE_K) 66.

Lemma pieces_text_app l l' : pieces_text (l ++ l') = pieces_text l ++ pieces_text l'.
Proof. unfold pieces_text. by rewrite fmap_app, concat_app. Qed.

Lemma part_text n c : pieces_text (part n c) = if 0 <? n then format_int n ++ [c] else [].
Proof. unfold part. destruct (0 <? n); [|done]. unfold pieces_text. simpl. by rewrite app_nil_r. Qed.

Lemma mod_when v k : 0 <= v -> 0 < k -> (if 0 <? v / k then v mod k else v) = v mod k.
Proof.
  intros Hv Hk. destruct (Z.ltb_spec 0 (v / k)) as [|Hd]; [done|]. symmetry. apply Z.mod_small. split; [done|].
  pose proof (Z.div_pos v k Hv Hk). assert (Hz : v / k = 0) by lia. apply Z.div_small_iff in Hz; lia.
Qed.

Lemma string_is_pieces v : 0 <= v -> Bytesize_string v = pieces_text (string_pieces v).
Proof.
  intros Hv. unfold Bytesize_string, string_pieces.
  rewrite (mod_when v) by (done || lia). set (v1 := v mod BYTESIZE_G).
  assert (0 <= v1) by (apply Z.mod_pos_bound; done). rewrite (mod_when v1) by (done || lia). set (v2 := v1 mod BYTESIZE_M).
  assert (0 <= v2) by (apply Z.mod_pos_bound; done). rewrite (mod_when v2) by (done || lia).
  by rewrite !pieces_text_app, !part_text.
Qed.

Lemma total_app unit l l' : total unit (l ++ l') = total unit l + total unit l'.
Proof. induction l as [|p l IH]; simpl; [done|]. rewrite IH. lia. Qed.

Lemma total_part n c : 0 <= n -> total size_unit_of (part n c) = n * size_unit_of [c].
Proof. intros Hn. unfold part. destruct (Z.ltb_spec 0 n); simpl; [lia|]. replace n with 0 by lia. lia. Qed.

(** Sizes round trip: whatever size is written, at any number of 64
    bits, reading it gives it back. *)
Theorem bytesize_roundtrip (oc : bool) (v : Z) :
  0 <= v < 2 ^ 64 -> to_bytesize oc (Bytesize_string v) = Ok v.
Proof.
  intros Hv. rewrite string_is_pieces by lia.
  pose proof (Z.div_mod v BYTESIZE_G ltac:(done)) as E1. pose proof (Z.mod_pos_bound v BYTESIZE_G ltac:(done)) as B1.
  set (v1 := v mod BYTESIZE_G) in *.
  pose proof (Z.div_mod v1 BYTESIZE_M ltac:(done)) as E2. pose proof (Z.mod_pos_bound v1 BYTESIZE_M ltac:(done)) as B2.
  set (v2 := v1 mod BYTESIZE_M) in *.
  pose proof (Z.div_mod v2 BYTESIZE_K ltac:(done)) as E3. pose proof (Z.mod_pos_bound v2 BYTESIZE_K ltac:(done)) as B3.
  pose proof (Z.div_pos v BYTESIZE_G ltac:(lia) ltac:(done)). pose proof (Z.div_pos v1 BYTESIZE_M ltac:(lia) ltac:(done)).
  pose proof (Z.div_pos v2 BYTESIZE_K ltac:(lia) ltac:(done)).
  assert (Ht : total size_unit_of (string_pieces v) = v).
  { unfold string_pieces. fold v1. fold v2. rewrite !total_app, !total_part by lia. cbn [size_unit_of size_unit Z.eqb Pos.eqb default]. unfold id. lia. }
  assert (Hsize : forall n c, n < 2 ^ 64 -> is_Some (size_unit c) -> size_pieces (part n c)).
  { intros n c Hn Hc. unfold part. destruct (Z.ltb_spec 0 n); [|constructor]. constructor; [|constructor]. split; [simpl; lia|]. by exists c. }
  rewrite <- Ht at 2. apply bytesize_sum; [|rewrite Ht; lia].
  unfold string_pieces. fold v1. fold v2. unfold size_pieces. unfold BYTESIZE_G, BYTESIZE_M, BYTESIZE_K in *.
  repeat (apply Forall_app; split); apply Hsize; try (by eexists); lia.
Qed.

(** Where it does not fit: the release build takes it modulo 2^64. *)
Lemma bytesize_overflow :
  to_bytesize true (text "17179869184G") = Panic /\ to_bytesize false (text "17179869184G") = Ok 0 /\
  to_bytesize false (text "17179869184G1K") = Ok 1024.
Proof. by vm_compute. Qed.

(** *** Durations *)

Definition MS : bytes := [109; 115].
Definition duration_unit_of (u : bytes) : Z :=
  if bool_decide (u = MS) then 1 else match u with [c] => default 0 (duration_unit c) | _ => 0 end.

Definition duration_pieces (l : list (Z * bytes)) : Prop :=
  Forall (fun p => 0 <= p.1 < 2 ^ 64 /\ (p.2 = MS \/ exists c, p.2 = [c] /\ c ∈ [115; 109; 104; 100; 119; 102])) l.

Definition to_y (p : Z * bytes) : Z * bytes := (p.1, replace_unit 109 115 89 p.2).

Lemma duration_letter c : c ∈ [115; 109; 104; 100; 119; 102] -> c = 115 \/ c = 109 \/ c = 104 \/ c = 100 \/ c = 119 \/ c = 102.
Proof. rewrite !elem_of_cons, elem_of_nil. tauto. Qed.

(** The units after ["ms"] was replaced. *)
Lemma to_y_unit p : p.2 = MS \/ (exists c, p.2 = [c] /\ c ∈ [115; 109; 104; 100; 119; 102]) ->
  exists u k, (to_y p).2 = [u] /\ is_duration_unit u = true /\ duration_unit u = Some k /\ duration_unit_of p.2 = k /\ 0 < k.
Proof.
  destruct p as [n us]. cbn [snd]. intros [->|(c & -> & Hc)].
  - exists 89, 1. split_and!; done.
  - apply duration_letter in Hc. unfold to_y, replace_unit, duration_unit_of. rewrite !bool_decide_eq_false_2 by done.
    by destruct Hc as [->|[->|[->|[->|[->| ->]]]]]; eexists _, _.
Qed.

Lemma to_y_total l : duration_pieces l ->
  total (fun u => match u with [c] => default 0 (duration_unit c) | _ => 0 end) (to_y <$> l) = total duration_unit_of l.
Proof.
  induction 1 as [|p l [_ Hp] _ IH]; [done|]. destruct (to_y_unit p Hp) as (u & k & Hu & _ & Hk & Hd & _).
  rewrite fmap_cons. cbn [total foldr]. fold (total duration_unit_of l). rewrite <- IH. unfold total. rewrite Hu, Hk, Hd. done.
Qed.

Lemma duration_pieces_sum (oc : bool) (l : list (Z * bytes)) :
  duration_pieces l -> total duration_unit_of l < 2 ^ 64 ->
  to_duration oc (pieces_text l) = Ok (total duration_unit_of l * 1000000) /\
  to_duration oc (to_uppercase (pieces_text l)) = to_duration oc (pieces_text l).
Proof.
  intros Hl Ht. unfold to_duration.
  assert (Hlow : to_lowercase (pieces_text l) = pieces_text l /\ to_lowercase (to_uppercase (pieces_text l)) = pieces_text l).
  { unfold to_lowercase, to_uppercase. rewrite <- list_fmap_compose. rewrite !map_pieces.
    - split; f_equal.
      + apply (same_pieces (fmap (M := list) _) _ _ Hl). intros p [_ [->|(c & -> & Hc)]]; [done|].
        by destruct (duration_letter c Hc) as [->|[->|[->|[->|[->| ->]]]]].
      + apply (same_pieces (fmap (M := list) _) _ _ Hl). intros p [_ [->|(c & -> & Hc)]]; [done|].
        by destruct (duration_letter c Hc) as [->|[->|[->|[->|[->| ->]]]]].
    - intros c Hc. unfold digit, is_upper, is_lower in *. simpl. destruct (Z.leb_spec 97 c); [lia|]. simpl. destruct (Z.leb_spec 65 c); [lia|done].
    - intros c Hc. unfold digit, is_upper in *. destruct (Z.leb_spec 65 c); [lia|done]. }
  destruct Hlow as [-> ->]. split; [|done].
  rewrite replace2_pieces; [|unfold digit; lia..|].
  2:{ eapply Forall_impl; [apply Hl|]. intros p [_ [->|(c & -> & _)]]; [by left|right; by eexists]. }
  fold to_y. assert (Hy : Forall (fun p => exists p0, p = to_y p0 /\ p0 ∈ l) (to_y <$> l)).
  { apply Forall_forall. intros p (p0 & -> & Hp)%list_elem_of_fmap. by exists p0. }
  unfold duration_pieces in Hl. pose proof Hl as Hl'. rewrite Forall_forall in Hl'.
  change (fun p : Z * bytes => (p.1, replace_unit 109 115 89 p.2)) with to_y. rewrite split_pieces.
  - rewrite (sum_ok oc _ (fun u => match u with [c] => default 0 (duration_unit c) | _ => 0 end)); rewrite ?to_y_total by done; [done| | |lia|lia].
    + eapply Forall_impl; [apply Hy|]. intros p (p0 & -> & Hp). destruct (Hl' _ Hp) as [Hn Hu].
      destruct (to_y_unit p0 Hu) as (u & k & -> & _ & -> & _ & ?). simpl. lia.
    + intros p (p0 & -> & Hp)%list_elem_of_fmap. destruct (Hl' _ Hp) as [Hn Hu].
      destruct (to_y_unit p0 Hu) as (u & k & Hy2 & _ & Hk & _ & Hpos). unfold duration_piece, piece_text. rewrite Hy2, last_of_piece.
      cbn [to_y fst]. rewrite parse_format, Hk by done. cbn [default]. intros Hfit.
      destruct k as [|[q|q|]|]; try lia; rewrite ?fit_ok by done; try done. f_equal. unfold id. lia.
  - intros c Hc. unfold is_duration_unit. apply bool_decide_eq_false_2. unfold digit in Hc. rewrite !elem_of_cons, elem_of_nil. lia.
  - eapply Forall_impl; [apply Hy|]. intros p (p0 & -> & Hp). destruct (Hl' _ Hp) as [_ Hu].
    destruct (to_y_unit p0 Hu) as (u & k & ? & ? & _). by exists u.
Qed.

(** What a duration means: numbers with the units w, d, h, m, s, ms and
    f, in any order and repeated, stand for their sum, in either case of
    the letters, as long as its milliseconds fit 64 bits. *)
Theorem duration_sum (oc : bool) (l : list (Z * bytes)) :
  duration_pieces l -> total duration_unit_of l < 2 ^ 64 ->
  to_duration oc (pieces_text l) = Ok (total duration_unit_of l * 1000000) /\
  to_duration oc (to_uppercase (pieces_text l)) = to_duration oc (pieces_text l).
Proof. apply duration_pieces_sum. Qed.

(** *** Node addresses *)

Lemma split_at_none sep cur s : Forall (fun c => c <> sep) s -> split_at sep cur s = [cur ++ s].
Proof.
  revert cur. induction s as [|c s IH]; intros cur Hs; simpl; [by rewrite app_nil_r|].
  apply Forall_cons in Hs as [Hc Hs]. destruct (Z.eqb_spec c sep); [done|]. by rewrite IH, <- app_assoc.
Qed.

Lemma split_at_found sep cur s s' :
  Forall (fun c => c <> sep) s -> split_at sep cur (s ++ sep :: s') = (cur ++ s) :: split_at sep [] s'.
Proof.
  revert cur. induction s as [|c s IH]; intros cur Hs; simpl; [by rewrite Z.eqb_refl, app_nil_r|].
  apply Forall_cons in Hs as [Hc Hs]. destruct (Z.eqb_spec c sep); [done|]. by rewrite IH, <- app_assoc.
Qed.

(** The text [id@address] of an address without ["@"] reads back. *)
Lemma node_addr_parse n :
  0 <= na_id n < 2 ^ 64 -> Forall (fun c => c <> 64) (na_addr n) ->
  NodeAddr_from_str (format_int (na_id n) ++ [64] ++ na_addr n) = Ok n.
Proof.
  intros Hn Ha. unfold NodeAddr_from_str. cbn [app]. rewrite split_at_found.
  - rewrite split_at_none by done. cbn [app]. rewrite parse_format by done. by destruct n.
  - eapply Forall_impl; [apply format_int_digits|]. intros c Hc. unfold digit in Hc. lia.
Qed.

(** The text that [Debug] writes does not: its quotes become part of the
    address, and the rest of an address behind a second ["@"] is lost. *)
Lemma node_addr_debug_quotes :
  NodeAddr_from_str (NodeAddr_debug (mkNodeAddr 1 (text "host:1883"))) = Ok (mkNodeAddr 1 ([34] ++ text "host:1883" ++ [34])) /\
  NodeAddr_from_str (text "1@user@host") = Ok (mkNodeAddr 1 (text "user")).
Proof. by vm_compute. Qed.

(** ** Concrete texts *)

Lemma bytesize_sum_witness :
  to_bytesize true (pieces_text [(2, [71]); (512, [77]); (7, [66])]) = Ok (2 * 1073741824 + 512 * 1048576 + 7).
Proof.
  apply (bytesize_sum true [(2, [71]); (512, [77]); (7, [66])]); [|done].
  unfold size_pieces. repeat constructor; simpl; try lia; by eexists.
Defined.

Lemma bytesize_roundtrip_witness : to_bytesize true (text "15G1023M1023K1023B") = Ok (2 ^ 34 - 1).
Proof. apply (bytesize_roundtrip true (2 ^ 34 - 1)). lia. Defined.

Lemma duration_sum_witness :
  to_duration true (text "1h30m15ms") = Ok (5400015 * 1000000) /\
  to_duration true (to_uppercase (text "1h30m15ms")) = to_duration true (text "1h30m15ms").
Proof.
  apply (duration_sum true [(1, [104]); (30, [109]); (15, MS)]); [|done].
  unfold duration_pieces. rewrite !Forall_cons, Forall_nil. simpl.
  split_and!; try lia; [right; exists 104|right; exists 109|by left]; (split; [done|]); rewrite !elem_of_cons; tauto.
Defined.
