(* ===== verification/SysTopic.v ===== *)
(** * System topics: [builtins/sys_topic.rs]

    The node tells what happens to its clients, and its statistics, on
    topics below [$SYS]. The handler spawns one task per message; a task
    asks the hooks and forwards the message as [SessionState::forwards]
    does. The text of the JSON is the library's, and an argument. *)

From stdpp Require Import prelude list strings gmap.
From Stdlib Require Import ZArith Lia.
From S2P Require Import Prelude CodecTypes CodecV5Types Topic Trie BrokerTypes Subscription Router RouterMatch Retain RetainStorage Connection Fitter Delayed Session SessionSubs Shared SharedRouting Hook Node NodeForward SessionWitness Floats Stats Utils.

Local Open Scope Z_scope.

(** ** Configuration *)

Module SysTopic.
Record PluginConfig : Type := mkConfig {
  publish_qos : QoS;
  publish_interval : Z;
  message_retain_available : bool;
  message_expiry_interval : Z;
}.

Definition publish_qos_default : QoS := AtLeastOnce.
Definition publish_interval_default : Z := 60 * SECOND.
Definition message_retain_available_default : bool := false.
Definition message_expiry_interval_default : Z := 300 * SECOND.

Inductive ConfigError : Type := QosUnsupported | NotU8 | IntervalTooShort.

Definition deserialize_publish_qos (v : Z) : outcome ConfigError QoS :=
  if (v <? 0) || (255 <? v) then Err NotU8
  else if v =? 0 then Ok AtMostOnce else if v =? 1 then Ok AtLeastOnce else if v =? 2 then Ok ExactlyOnce
  else Err QosUnsupported.

Definition deserialize_publish_interval (oc : bool) (v : bytes) : outcome ConfigError Z :=
  match to_duration oc v with
  | Ok d => if d <? SECOND then Err IntervalTooShort else Ok d
  | Err e => match e with end
  | Panic => Panic
  | Diverged => Diverged
  end.

(** A section with these entries, as far as they are there. *)
Definition read_config (oc : bool) (qos : option Z) (interval : option bytes) (retain : option bool) (expiry : option bytes)
    : outcome ConfigError PluginConfig :=
  match default (Ok publish_qos_default) (deserialize_publish_qos <$> qos) with
  | Ok q =>
      match default (Ok publish_interval_default) (deserialize_publish_interval oc <$> interval) with
      | Ok i =>
          match default (Ok (E := Empty_set) message_expiry_interval_default) (deserialize_duration oc <$> expiry) with
          | Ok e => Ok (mkConfig q i (default message_retain_available_default retain) e)
          | Err e => match e with end
          | Panic => Panic
          | Diverged => Diverged
          end
      | Err e => Err e | Panic => Panic | Diverged => Diverged
      end
  | Err e => Err e | Panic => Panic | Diverged => Diverged
  end.

(** The interval that the task sleeps for. *)
Definition sleep_interval (cfg : PluginConfig) : Z :=
  if publish_interval cfg <? SECOND then SECOND else publish_interval cfg.

(** ** Messages *)

(** The values in a body, before they are turned into JSON. *)
Inductive Value : Type :=
| VNumber (z : Z)
| VText (s : bytes)
| VOptText (s : option bytes)
| VAddr (a : option SocketAddr)
| VBool (b : bool)
| VReason (r : Reason)
| VOpts (o : SubscriptionOptions)
| VFloat (x : F64.t).

(** A body: what [to_hook_body] gives for a connection, and further fields. *)
Record Body : Type := mkBody { hook_body : option ConnectInfo; fields : list (string * Value) }.

Record SysMessage : Type := mkMessage { m_topic : bytes; m_body : Body; m_qos : QoS; m_expiry : Z }.

(** What a session answers when it is asked. *)
Record SessionAnswers : Type := mkAnswers {
  created_at : Z; connected_at : Z; disconnected_at : Z; session_present : bool; connect_info : option ConnectInfo;
}.

Definition session_topic (node : Z) (client what : bytes) : bytes :=
  text "$SYS/brokers/" ++ format_int node ++ text "/session/" ++ client ++ text "/" ++ what.
Definition clients_topic (node : Z) (client what : bytes) : bytes :=
  text "$SYS/brokers/" ++ format_int node ++ text "/clients/" ++ client ++ text "/" ++ what.

Section handler.
Context (nodeid : Z) (ask : HookSession -> SessionAnswers) (now_time : bytes).

Definition about (s : HookSession) : list (string * Value) :=
  [("node"%string, VNumber (node_id (hs_id s))); ("ipaddress"%string, VAddr (remote_addr (hs_id s)));
   ("clientid"%string, VText (client_id (hs_id s))); ("username"%string, VOptText (username (hs_id s)))].
Definition at_time : string * Value := ("time"%string, VText now_time).

(** The [match] of [hook]. *)
Definition event_message (param : Parameter_) : option (bytes * Body) :=
  match param with
  | PSessionCreated s =>
      Some (session_topic nodeid (client_id (hs_id s)) (text "created"),
            mkBody None (about s ++ [("created_at"%string, VNumber (created_at (ask s))); at_time]))
  | PSessionTerminated s reason =>
      Some (session_topic nodeid (client_id (hs_id s)) (text "terminated"),
            mkBody None (about s ++ [("reason"%string, VReason reason); at_time]))
  | PClientConnected s =>
      (* without connection information the body is null, and stays so *)
      Some (clients_topic nodeid (client_id (hs_id s)) (text "connected"),
            match connect_info (ask s) with
            | Some c => mkBody (Some c) [("connected_at"%string, VNumber (connected_at (ask s)));
                                         ("session_present"%string, VBool (session_present (ask s))); at_time]
            | None => mkBody None []
            end)
  | PClientDisconnected s reason =>
      Some (clients_topic nodeid (client_id (hs_id s)) (text "disconnected"),
            mkBody None (about s ++ [("disconnected_at"%string, VNumber (disconnected_at (ask s))); ("reason"%string, VReason reason); at_time]))
  | PSessionSubscribed s sub =>
      Some (session_topic nodeid (client_id (hs_id s)) (text "subscribed"),
            mkBody None (about s ++ [("topic"%string, VText (Connection.text (sub_filter sub))); ("opts"%string, VOpts (sub_opts sub)); at_time]))
  | PSessionUnsubscribed s unsub =>
      Some (session_topic nodeid (client_id (hs_id s)) (text "unsubscribed"),
            mkBody None (about s ++ [("topic"%string, VText (Connection.text (unsub_filter unsub))); at_time]))
  | _ => None
  end.

(** The handler; [spawned] are the tasks it has started. *)
Definition hook (cfg : PluginConfig) : Handler (list SysMessage) := fun param acc spawned =>
  match event_message param with
  | Some (topic, body) =>
      ((true, acc), spawned ++ [mkMessage topic body (publish_qos cfg) (SysTopic.message_expiry_interval cfg)])
  | None => ((true, acc), spawned)
  end.
End handler.

(** The messages of the background task, once per interval. *)
Definition of_number (n : Stats.number) : Value := match n with Stats.Int z => VNumber z | Stats.Float x => VFloat x end.
Definition stats_message (cfg : PluginConfig) (node : Z) (s : Stats.t) : SysMessage :=
  mkMessage (text "$SYS/brokers/" ++ format_int node ++ text "/stats")
    (mkBody None ((fun '(k, n) => (str k, of_number n)) <$> Stats.to_json s)) (publish_qos cfg) (SysTopic.message_expiry_interval cfg).
Definition metrics_message (cfg : PluginConfig) (node : Z) (m : Metrics.t) : SysMessage :=
  mkMessage (text "$SYS/brokers/" ++ format_int node ++ text "/metrics")
    (mkBody None ((fun '(k, z) => (k, VNumber z)) <$> Metrics.to_json m)) (publish_qos cfg) (SysTopic.message_expiry_interval cfg).

(** One round of the task: the statistics are snapshot as they are sent. *)
Definition send_round (cfg : PluginConfig) (scx : Stats.Context) (s : Stats.t) (m : Metrics.t) : list SysMessage * Stats.t :=
  let '(s, snapshot) := Stats.clone s scx in
  ([stats_message cfg (Stats.node_id scx) snapshot; metrics_message cfg (Stats.node_id scx) m], s).

(** [init]: the six types of events. *)
Definition hook_types : list HookType :=
  [SessionCreated; SessionTerminatedHook; ClientConnected; ClientDisconnectedHook; SessionSubscribedHook; SessionUnsubscribedHook].

Fixpoint register {X} (h : Handler X) (ids : nat -> string) (i : nat) (types : list HookType)
    (m : DefaultHookManager X) (r : DefaultHookRegister) : DefaultHookManager X * DefaultHookRegister :=
  match types with
  | [] => (m, r)
  | t :: types => let '(m, r) := add_priority m r t 0 (ids i) h in register h ids (S i) types m r
  end.

Definition init (m : DefaultHookManager (list SysMessage)) (h : Handler (list SysMessage)) (ids : nat -> string)
    : DefaultHookManager (list SysMessage) :=
  let '(m, r) := register h ids 0 hook_types m register_new in start m r.

(** ** Publishing *)

Section publish.
Context {S H X : Type} `{!SharedSubscription S} `{!BinaryHeap H}.
Context (topic_error_text : TopicError -> bytes) (to_string : Body -> option bytes).

Definition system_id (now node : Z) : Id := Id_new now node 0 None None (text "system") (Some (text "system")).

Definition sys_message (now : Z) (m : SysMessage) (payload : bytes) : BPublish :=
  BPublish.mk (mkPublish false false (m_qos m) (m_topic m) None payload (Some V5.PublishProperties_default)) None None (Some now).

(** [sys_publish], with the hooks of the node; errors are logged. *)
Definition sys_publish (n : Node S H) (hooks : DefaultHookManager X) (x : X) (nodeid : Z) (m : SysMessage)
    : outcome Error unit * (Node S H * X) :=
  match to_string (m_body m) with
  | Some payload =>
      let from := mkFrom System (system_id (n_millis n) nodeid) in
      let p := sys_message (n_millis n) m payload in
      let '(r, x) := manager_message_publish hooks None from p x in
      let p := default p r in
      match node_forwards topic_error_text n from p (n_storage_enable n) (Some (m_expiry m)) with
      | (Ok _, n) => (Ok tt, (n, x))
      | (Err _, n) => (Ok tt, (n, x))
      | (o, n) => (o, (n, x))
      end
  | None => (Ok tt, (n, x))
  end.
End publish.
End SysTopic.

(** ** What is told *)

(** The session that an event is about, and what its topic says. *)
Definition event_subject (param : Parameter_) : option (HookSession * (Z -> bytes -> bytes -> bytes) * string) :=
  match param with
  | PSessionCreated s => Some (s, SysTopic.session_topic, "created")
  | PSessionTerminated s _ => Some (s, SysTopic.session_topic, "terminated")
  | PClientConnected s => Some (s, SysTopic.clients_topic, "connected")
  | PClientDisconnected s _ => Some (s, SysTopic.clients_topic, "disconnected")
  | PSessionSubscribed s _ => Some (s, SysTopic.session_topic, "subscribed")
  | PSessionUnsubscribed s _ => Some (s, SysTopic.session_topic, "unsubscribed")
  | _ => None
  end%string.

Section facts.
Context {S H X : Type} `{SharedSubscriptionOk S} `{!BinaryHeap H}.
Context (texts : TopicError -> bytes) (to_string : SysTopic.Body -> option bytes).
Implicit Type n : Node S H.

Lemma event_of_subject nodeid ask now_time param s f what : event_subject param = Some (s, f, what) ->
  get_type param ∈ SysTopic.hook_types /\
  exists body, SysTopic.event_message nodeid ask now_time param = Some (f nodeid (client_id (hs_id s)) (text what), body).
Proof.
  unfold SysTopic.hook_types. destruct param; try done; intros [= <- <- <-]; (split; [cbn [get_type]; rewrite !elem_of_cons; tauto|by eexists]).
Qed.

Lemma sys_publish_run n (hooks : DefaultHookManager X) x nodeid m payload topic :
  let from := mkFrom System (SysTopic.system_id (n_millis n) nodeid) in
  let p := SysTopic.sys_message (n_millis n) m payload in
  to_string (SysTopic.m_body m) = Some payload -> (manager_message_publish hooks None from p x).1 = None ->
  Router.inv (Shared.router (n_shared n)) ->
  contains_wildcard (str (SysTopic.m_topic m)) = false -> Topic_from_str (str (SysTopic.m_topic m)) = Ok topic ->
  exists n', SysTopic.sys_publish texts to_string n hooks x nodeid m = (Ok tt, (n', (manager_message_publish hooks None from p x).2)) /\
    accounted n n' from p (relations_for (n_shared n) from p) /\ n_retained n' = n_retained n.
Proof.
  intros from p Hs Hh Hi Hw Ht. unfold SysTopic.sys_publish. rewrite Hs. fold from p.
  destruct (manager_message_publish hooks None from p x) as [r x']. cbn in Hh. subst r. cbn [default from_option snd].
  assert (Hst : store_retained texts n None from p (Some (SysTopic.m_expiry m)) = (Ok tt, n)).
  { unfold store_retained. cbn. by rewrite andb_false_r. }
  destruct (inner_forwards_run texts n n from p (n_storage_enable n) (Some (SysTopic.m_expiry m)) topic Hst eq_refl eq_refl Hi Hw Ht (or_introl eq_refl))
    as (n' & Hrun & Hacc & Hret & _).
  unfold node_forwards. cbn [BPublish.delay_interval p SysTopic.sys_message]. fold p. unfold Datatypes.id. rewrite Hrun. by exists n'.
Qed.

(** What happens to a client is told: for each of the six events the
    handler passes the answer of the others on and starts one message, on a
    topic that names the node, the client and the event; and publishing it,
    where no hook replaces it, accounts for every subscriber of that topic
    and leaves the retained messages alone. *)
Theorem sys_event_told (cfg : SysTopic.PluginConfig) nodeid ask now_time (param : Parameter_) acc spawned s f what
    n (hooks : DefaultHookManager X) x topic :
  let name := f nodeid (client_id (hs_id s)) (text what) in
  event_subject param = Some (s, f, what) ->
  Router.inv (Shared.router (n_shared n)) -> contains_wildcard (str name) = false -> Topic_from_str (str name) = Ok topic ->
  get_type param ∈ SysTopic.hook_types /\
  exists body,
    let m := SysTopic.mkMessage name body (SysTopic.publish_qos cfg) (SysTopic.message_expiry_interval cfg) in
    SysTopic.hook nodeid ask now_time cfg param acc spawned = ((true, acc), spawned ++ [m]) /\
    forall payload, to_string body = Some payload ->
      let from := mkFrom System (SysTopic.system_id (n_millis n) nodeid) in
      let p := SysTopic.sys_message (n_millis n) m payload in
      (manager_message_publish hooks None from p x).1 = None ->
      exists n' x', SysTopic.sys_publish texts to_string n hooks x nodeid m = (Ok tt, (n', x')) /\
        accounted n n' from p (relations_for (n_shared n) from p) /\ n_retained n' = n_retained n.
Proof.
  intros name He Hi Hw Ht. destruct (event_of_subject nodeid ask now_time param s f what He) as (Htype & body & Hbody).
  split; [done|]. exists body. split.
  - unfold SysTopic.hook. by rewrite Hbody.
  - intros payload Hp from p Hh.
    destruct (sys_publish_run n hooks x nodeid (SysTopic.mkMessage name body (SysTopic.publish_qos cfg) (SysTopic.message_expiry_interval cfg)) payload topic Hp Hh Hi Hw Ht)
      as (n' & Hrun & Hacc & Hret). by exists n', (manager_message_publish hooks None from p x).2.
Qed.

(** Nothing else is told. *)
Lemma other_events_untold nodeid ask now_time cfg param acc spawned : event_subject param = None ->
  SysTopic.hook nodeid ask now_time cfg param acc spawned = ((true, acc), spawned).
Proof. by destruct param. Qed.
End facts.

(** The client id goes into the topic as it is: what happens to clients
    called [#], [a+] or [$x] is told to nobody, and the topic of one called
    [+] is taken for a filter. *)
Lemma odd_clients_untold :
  (forall c, c ∈ ["#"; "a+"; "$x"]%string ->
     exists e, Topic_from_str (str (SysTopic.clients_topic 1 (text c) (text "connected"))) = Err e) /\
  Topic_from_str (str (SysTopic.clients_topic 1 (text "+") (text "connected"))) =
    Ok [Metadata "$SYS"; Normal "brokers"; Normal "1"; Normal "clients"; SingleWildcard; Normal "connected"].
Proof.
  split; [|by vm_compute]. intros c. rewrite !elem_of_cons, elem_of_nil. by intros [->|[->|[->|[]]]]; eexists; vm_compute.
Qed.

(** *** Configuration *)

(** The interval of a configuration that is read is at least a second, so
    that the task's own minimum never applies. *)
Lemma interval_at_least_a_second oc qos interval retain expiry cfg :
  SysTopic.read_config oc qos interval retain expiry = Ok cfg -> SysTopic.sleep_interval cfg = SysTopic.publish_interval cfg.
Proof.
  unfold SysTopic.read_config, SysTopic.sleep_interval. intros Hr.
  enough (SECOND <= SysTopic.publish_interval cfg) by (destruct (Z.ltb_spec (SysTopic.publish_interval cfg) SECOND); lia).
  destruct (default _ (_ <$> qos)) as [q|e| |]; try done.
  destruct (default _ (_ <$> interval)) as [i|e| |] eqn:Hd; try done.
  destruct (default _ (_ <$> expiry)) as [x|e| |]; [|by destruct e|done|done]. injection Hr as <-. cbn.
  destruct interval as [v|]; cbn in Hd; [|by injection Hd as <-].
  unfold SysTopic.deserialize_publish_interval in Hd. destruct (to_duration oc v) as [d|e| |]; [|by destruct e|done|done].
  destruct (Z.ltb_spec d SECOND); [done|]. by injection Hd as <-.
Qed.

(** [message_retain_available] changes nothing: no system message is
    retained. *)
Lemma never_retained now m payload : retain (BPublish.inner (SysTopic.sys_message now m payload)) = false.
Proof. done. Qed.

(** ** A client of a sample node *)

Definition sample_session : HookSession := mkHookSession id_a None None None default_listener None.
Definition no_answers (_ : HookSession) : SysTopic.SessionAnswers := SysTopic.mkAnswers 0 0 0 false None.
Definition sys_config : SysTopic.PluginConfig := SysTopic.mkConfig AtLeastOnce (60 * SECOND) false (300 * SECOND).
Definition empty_text (_ : SysTopic.Body) : option bytes := Some (text "{}").

Definition sys_topic_a : Topic := [Metadata "$SYS"; Normal "brokers"; Normal "1"; Normal "clients"; Normal "a"; Normal "connected"].

Lemma sys_event_told_witness :
  exists body n' x',
    SysTopic.hook 1 no_answers [] sys_config (PClientConnected sample_session) None [] =
      ((true, None), [SysTopic.mkMessage (text "$SYS/brokers/1/clients/a/connected") body AtLeastOnce (300 * SECOND)]) /\
    SysTopic.sys_publish no_text empty_text node_sub manager_new tt 1
      (SysTopic.mkMessage (text "$SYS/brokers/1/clients/a/connected") body AtLeastOnce (300 * SECOND)) = (Ok tt, (n', x')) /\
    n_retained n' = n_retained node_sub.
Proof.
  destruct (sys_event_told (X := unit) no_text empty_text sys_config 1 no_answers [] (PClientConnected sample_session) None []
              sample_session SysTopic.clients_topic "connected" node_sub manager_new tt sys_topic_a eq_refl shared_sub_inv)
    as (_ & body & Hh & Hp); [by vm_compute|by vm_compute|].
  destruct (Hp (text "{}") eq_refl eq_refl) as (n' & x' & Hrun & _ & Hret).
  exists body, n', x'. split_and!; [exact Hh|exact Hrun|exact Hret].
Defined.
