(* ===== verification/Settings.v ===== *)
(** * Settings: [conf/mod.rs], [conf/listener.rs], [oximqtt-bin/src/server.rs]

    What a configuration file means: sections and entries that are absent
    take defaults, texts are read by [utils/mod.rs], listeners are sorted by
    protocol and port, and each becomes a builder of [net/builder.rs]. The
    file itself, the environment and the command line are read by libraries:
    the model starts at the values they give. *)

From stdpp Require Import prelude list gmap strings.
From Stdlib Require Import ZArith Lia SpecFloat.
From S2P Require Import Prelude CodecTypes BrokerTypes Connection Fitter Floats Utils Load.

Local Open Scope Z_scope.

Module Settings.
Inductive SettingsError : Type :=
| MissingField (name : string)
| BadAddr
| BadSize (e : ParseSizeError)
| BadZero
| BadRate (s : bytes)
| BadBurst (s : bytes)
| BadQoS.

(** ** Listeners: [conf/listener.rs] *)

Record ListenerInner : Type := mkListener {
  name : bytes;
  enable : bool;
  addr : SocketAddr;
  max_connections : Z;
  max_handshaking_limit : Z;
  max_packet_size : Z;
  backlog : Z;
  nodelay : bool;
  reuseaddr : option bool;
  reuseport : option bool;
  allow_anonymous : bool;
  min_keepalive : Z;
  max_keepalive : Z;
  allow_zero_keepalive : bool;
  keepalive_backoff : F32.t;
  max_inflight : Z;
  handshake_timeout : Z;
  max_mqueue_len : Z;
  mqueue_rate_limit : Z * Z;
  max_clientid_len : Z;
  max_qos_allowed : QoS;
  max_topic_levels : Z;
  session_expiry_interval : Z;
  max_session_expiry_interval : Z;
  message_retry_interval : Z;
  message_expiry_interval : Z;
  max_subscriptions : Z;
  max_topic_aliases : Z;
  cross_certificate : bool;
  cert : option bytes;
  key : option bytes;
  client_ca_certs : option bytes;
  limit_subscription : bool;
  delayed_publish : bool;
  proxy_protocol : bool;
  proxy_protocol_timeout : Z;
  cert_cn_as_username : bool;
  cert_subject_dn_as_username : bool;
  collect_cert_info : bool;
  idle_timeout : Z;
}.

(** A section of the file: the entries that it has. *)
Record ListenerSection : Type := mkSection {
  s_name : option bytes;
  s_enable : option bool;
  s_addr : option bytes;
  s_max_connections : option Z;
  s_max_handshaking_limit : option Z;
  s_max_packet_size : option bytes;
  s_backlog : option Z;
  s_nodelay : option bool;
  s_reuseaddr : option bool;
  s_reuseport : option bool;
  s_allow_anonymous : option bool;
  s_min_keepalive : option Z;
  s_max_keepalive : option Z;
  s_allow_zero_keepalive : option bool;
  s_keepalive_backoff : option F32.t;
  s_max_inflight : option Z;
  s_handshake_timeout : option bytes;
  s_max_mqueue_len : option Z;
  s_mqueue_rate_limit : option bytes;
  s_max_clientid_len : option Z;
  s_max_qos_allowed : option Z;
  s_max_topic_levels : option Z;
  s_session_expiry_interval : option bytes;
  s_max_session_expiry_interval : option bytes;
  s_message_retry_interval : option bytes;
  s_message_expiry_interval : option bytes;
  s_max_subscriptions : option Z;
  s_max_topic_aliases : option Z;
  s_cross_certificate : option bool;
  s_cert : option bytes;
  s_key : option bytes;
  s_client_ca_certs : option bytes;
  s_limit_subscription : option bool;
  s_delayed_publish : option bool;
  s_proxy_protocol : option bool;
  s_proxy_protocol_timeout : option bytes;
  s_cert_cn_as_username : option bool;
  s_cert_subject_dn_as_username : option bool;
  s_collect_cert_info : option bool;
  s_idle_timeout : option bytes;
}.

Definition addr_default : SocketAddr := mkSocketAddr (text "0.0.0.0") 1883.

Definition ListenerInner_default : ListenerInner :=
  mkListener (text "external/tcp") true addr_default 1024000 500 (1024 * 1024) 1024 false (Some true) None false 0
    U16_MAX true F32.three_quarters 16 (15 * SECOND) 1000 ((U32_MAX, SECOND)) 65535 ExactlyOnce 0 (7200 * SECOND) 0
    (30 * SECOND) (300 * SECOND) 0 0 false None None None false false false (5 * SECOND) false false false (90 *
    SECOND).

Section reading.
Context (oc : bool) (parse_addr : bytes -> option SocketAddr).

(** The monad of errors. *)
Definition and_then {A B} (o : outcome SettingsError A) (k : A -> outcome SettingsError B) : outcome SettingsError B :=
  match o with Ok a => k a | Err e => Err e | Panic => Panic | Diverged => Diverged end.
Local Notation "x ← m ; k" := (and_then m (fun x => k)) (at level 20, m at level 100, k at level 200, right associativity).

(** A reader that cannot fail. *)
Definition total {A} (o : outcome Empty_set A) : outcome SettingsError A :=
  match o with Ok a => Ok a | Err e => match e with end | Panic => Panic | Diverged => Diverged end.

(** [serde(default)]: the reader is for entries that are there. *)
Definition entry {A B} (d : B) (read : A -> outcome SettingsError B) (o : option A) : outcome SettingsError B :=
  match o with Some a => read a | None => Ok d end.

Definition read_addr (s : bytes) : outcome SettingsError SocketAddr :=
  match parse_addr s with Some a => Ok a | None => Err BadAddr end.
Definition read_size (s : bytes) : outcome SettingsError Z :=
  match to_bytesize oc s with Ok v => Ok v | Err e => Err (BadSize e) | Panic => Panic | Diverged => Diverged end.
Definition read_duration (s : bytes) : outcome SettingsError Z := total (deserialize_duration oc s).
Definition read_nonzero (n : Z) : outcome SettingsError Z := if n =? 0 then Err BadZero else Ok n.

(** [NonZeroU32::from_str] *)
Definition parse_nonzero_u32 (s : bytes) : option Z :=
  match parse_u64 s with Some n => if (0 <? n) && (n <=? U32_MAX) then Some n else None | None => None end.

Definition deserialize_mqueue_rate_limit (v : bytes) : outcome SettingsError (Z * Z) :=
  match split_at 44 [] v with
  | [a; b] =>
      match parse_nonzero_u32 a with
      | None => Err (BadBurst a)
      | Some burst =>
          replenish_n_per ← read_duration b;
          if replenish_n_per / 1000000 =? 0 then Err (BadRate v) else Ok (burst, replenish_n_per)
      end
  | _ => Err (BadRate v)
  end.

Definition deserialize_max_qos_allowed (v : Z) : outcome SettingsError QoS :=
  if v =? 0 then Ok AtMostOnce else if v =? 1 then Ok AtLeastOnce else if v =? 2 then Ok ExactlyOnce else Err BadQoS.

(** No expiry is 136 years. *)
Definition deserialize_message_expiry_interval (v : bytes) : outcome SettingsError Z :=
  d ← read_duration v;
  Ok (if d =? 0 then U32_MAX * SECOND else d).

Definition read_listener (s : ListenerSection) : outcome SettingsError ListenerInner :=
  v_addr ← match s_addr s with Some a => read_addr a | None => Err (MissingField "addr") end;
  v_max_packet_size ← entry (1024 * 1024) read_size (s_max_packet_size s);
  v_max_inflight ← entry 16 read_nonzero (s_max_inflight s);
  v_handshake_timeout ← entry (15 * SECOND) read_duration (s_handshake_timeout s);
  v_mqueue_rate_limit ← entry ((U32_MAX, SECOND)) deserialize_mqueue_rate_limit (s_mqueue_rate_limit s);
  v_max_qos_allowed ← entry ExactlyOnce deserialize_max_qos_allowed (s_max_qos_allowed s);
  v_session_expiry_interval ← entry (7200 * SECOND) read_duration (s_session_expiry_interval s);
  v_max_session_expiry_interval ← entry 0 read_duration (s_max_session_expiry_interval s);
  v_message_retry_interval ← entry (30 * SECOND) read_duration (s_message_retry_interval s);
  v_message_expiry_interval ← entry (300 * SECOND) deserialize_message_expiry_interval (s_message_expiry_interval s);
  v_proxy_protocol_timeout ← entry (5 * SECOND) read_duration (s_proxy_protocol_timeout s);
  v_idle_timeout ← entry (90 * SECOND) read_duration (s_idle_timeout s);
  Ok (mkListener (default [] (s_name s)) (default true (s_enable s)) v_addr (default 1024000 (s_max_connections s))
    (default 500 (s_max_handshaking_limit s)) v_max_packet_size (default 1024 (s_backlog s)) (default false (s_nodelay
    s)) (match s_reuseaddr s with Some v => Some v | None => Some true end) (s_reuseport s) (default false
    (s_allow_anonymous s)) (default 0 (s_min_keepalive s)) (default U16_MAX (s_max_keepalive s)) (default true
    (s_allow_zero_keepalive s)) (default F32.three_quarters (s_keepalive_backoff s)) v_max_inflight
    v_handshake_timeout (default 1000 (s_max_mqueue_len s)) v_mqueue_rate_limit (default 65535 (s_max_clientid_len s))
    v_max_qos_allowed (default 0 (s_max_topic_levels s)) v_session_expiry_interval v_max_session_expiry_interval
    v_message_retry_interval v_message_expiry_interval (default 0 (s_max_subscriptions s)) (default 0
    (s_max_topic_aliases s)) (default false (s_cross_certificate s)) (s_cert s) (s_key s) (s_client_ca_certs s)
    (default false (s_limit_subscription s)) (default false (s_delayed_publish s)) (default false (s_proxy_protocol
    s)) v_proxy_protocol_timeout (default false (s_cert_cn_as_username s)) (default false
    (s_cert_subject_dn_as_username s)) (default false (s_collect_cert_info s)) v_idle_timeout).
End reading.

(** [ListenerInner::handshake_timeout] *)
Definition handshake_timeout_millis (l : ListenerInner) : Z :=
  let millis := handshake_timeout l / 1000000 in if 65535 <? millis then 65535 else millis.

(** The sections by protocol, in the order that the maps give them, and the
    listeners by port. *)
Record Listeners : Type := mkListeners {
  tcps : gmap Z ListenerInner;
  tlss : gmap Z ListenerInner;
  wss : gmap Z ListenerInner;
  wsss : gmap Z ListenerInner;
  quics : gmap Z ListenerInner;
}.

Definition listener_port (l : ListenerInner) : Z := port (addr l).
Definition set_name (l : ListenerInner) (n : bytes) : ListenerInner :=
  mkListener n (enable l) (addr l) (max_connections l) (max_handshaking_limit l) (max_packet_size l) (backlog l)
    (nodelay l) (reuseaddr l) (reuseport l) (allow_anonymous l) (min_keepalive l) (max_keepalive l)
    (allow_zero_keepalive l) (keepalive_backoff l) (max_inflight l) (handshake_timeout l) (max_mqueue_len l)
    (mqueue_rate_limit l) (max_clientid_len l) (max_qos_allowed l) (max_topic_levels l) (session_expiry_interval l)
    (max_session_expiry_interval l) (message_retry_interval l) (message_expiry_interval l) (max_subscriptions l)
    (max_topic_aliases l) (cross_certificate l) (cert l) (key l) (client_ca_certs l) (limit_subscription l)
    (delayed_publish l) (proxy_protocol l) (proxy_protocol_timeout l) (cert_cn_as_username l)
    (cert_subject_dn_as_username l) (collect_cert_info l) (idle_timeout l).

(** One loop of [init]. *)
Definition init_protocol (suffix : bytes) (sections : list (bytes * ListenerInner)) : gmap Z ListenerInner :=
  foldl (fun m '(n, l) => if enable l then <[listener_port l := set_name l (n ++ suffix)]> m else m) ∅ sections.

Record Sections : Type := mkSections {
  _tcps : list (bytes * ListenerInner);
  _tlss : list (bytes * ListenerInner);
  _wss : list (bytes * ListenerInner);
  _wsss : list (bytes * ListenerInner);
  _quics : list (bytes * ListenerInner);
}.

Definition init (s : Sections) : Listeners :=
  mkListeners (init_protocol (text "/tcp") (_tcps s)) (init_protocol (text "/tls") (_tlss s))
    (init_protocol (text "/ws") (_wss s)) (init_protocol (text "/wss") (_wsss s)) (init_protocol (text "/quic") (_quics s)).

Definition get (ls : Listeners) (p : Z) : option ListenerInner :=
  match tcps ls !! p with
  | Some l => Some l
  | None =>
      match tlss ls !! p with
      | Some l => Some l
      | None =>
          match wss ls !! p with
          | Some l => Some l
          | None => match wsss ls !! p with Some l => Some l | None => quics ls !! p end
          end
      end
  end.

Definition set_default (ls : Listeners) : Listeners :=
  let inner := ListenerInner_default in
  mkListeners (<[listener_port inner := inner]> (tcps ls)) (tlss ls) (wss ls) (wsss ls) (quics ls).

(** ** The rest of the settings: [conf/mod.rs] *)

Record Task : Type := mkTask { exec_workers : Z; exec_queue_max : Z }.
Definition Task_default : Task := mkTask 1000 300000.

Record Busy : Type := mkBusy { check_enable : bool; update_interval : Z; loadavg : spec_float; cpuloadavg : spec_float; handshaking : Z }.
Definition Busy_default : Busy := mkBusy true (2 * SECOND) (F32Ops.of_Z 80) (F32Ops.of_Z 90) 0.

(** [Node] and [Mqtt] derive [Default]: where the section is absent the
    fields are those of their types, not those of the entries. *)
Record NodeSettings : Type := mkNodeSettings { node_id : Z; cookie : bytes; busy : Busy }.
Definition cookie_default : bytes := text "oximqttsecretcookie".
Definition Node_derived_default : NodeSettings := mkNodeSettings 0 [] Busy_default.
Definition read_node (section : option (option Z * option bytes * option Busy)) : NodeSettings :=
  match section with
  | None => Node_derived_default
  | Some (id, c, b) => mkNodeSettings (default 0 id) (default cookie_default c) (default Busy_default b)
  end.

Record Mqtt : Type := mkMqtt { delayed_publish_max : Z; delayed_publish_immediate : bool; max_sessions : Z }.
Definition delayed_publish_max_default : Z := 100000.
Definition delayed_publish_immediate_default : bool := true.
Definition max_sessions_default : Z := 0.
Definition Mqtt_derived_default : Mqtt := mkMqtt 0 false 0.
Definition read_mqtt (section : option (option Z * option bool * option Z)) : Mqtt :=
  match section with
  | None => Mqtt_derived_default
  | Some (m, i, s) => mkMqtt (default delayed_publish_max_default m) (default delayed_publish_immediate_default i) (default max_sessions_default s)
  end.

Record Inner : Type := mkInner { task : Task; node : NodeSettings; listeners : Listeners; mqtt : Mqtt }.

Definition Inner_default : Inner :=
  mkInner Task_default Node_derived_default (set_default (init (mkSections [] [] [] [] []))) Mqtt_derived_default.

(** [Settings::new], from what was deserialized and the [--id] option. *)
Definition set_node_id (n : NodeSettings) (id : Z) : NodeSettings := mkNodeSettings id (cookie n) (busy n).
Definition new (t : Task) (n : NodeSettings) (s : Sections) (m : Mqtt) (opt_id : option Z) : Inner :=
  let ls := init s in
  let ls := if bool_decide (tcps ls = ∅) && bool_decide (tlss ls = ∅) then set_default ls else ls in
  let n := match opt_id with Some id => if 0 <? id then set_node_id n id else n | None => n end in
  mkInner t n ls m.

(** ** Builders: [net/builder.rs], and [config_builder] of [server.rs] *)

Record Builder : Type := mkBuilder {
  b_name : bytes;
  b_laddr : SocketAddr;
  b_backlog : Z;
  b_nodelay : bool;
  b_reuseaddr : option bool;
  b_reuseport : option bool;
  b_cfg : ListenerConfig;
  tls_cross_certificate : bool;
  tls_cert : option bytes;
  tls_key : option bytes;
  tls_client_ca_certs : option bytes;
  b_proxy_protocol : bool;
  b_proxy_protocol_timeout : Z;
  b_idle_timeout : Z;
}.

Definition Builder_new : Builder :=
  mkBuilder [] addr_default 512 false None None default_listener false None None None false (5 * SECOND) (90 * SECOND).

Definition as_u32 (size : Z) : Z := wrap 32 size.

(** Every setting of the listener is passed on; the send timeout has none
    and keeps its default. *)
Definition config_builder (cfg : ListenerInner) : Builder :=
  let b := Builder_new in
  mkBuilder (name cfg) (addr cfg) (backlog cfg) (nodelay cfg) (reuseaddr cfg) (reuseport cfg)
    (mkListenerConfig (allow_anonymous cfg) (min_keepalive cfg) (max_keepalive cfg) (allow_zero_keepalive cfg)
       (keepalive_backoff cfg) (max_inflight cfg) (handshake_timeout cfg) (send_timeout (b_cfg b)) (max_mqueue_len cfg)
       (mqueue_rate_limit cfg) (max_clientid_len cfg) (max_qos_allowed cfg) (max_topic_levels cfg)
       (session_expiry_interval cfg) (max_session_expiry_interval cfg) (message_retry_interval cfg)
       (message_expiry_interval cfg) (max_subscriptions cfg) (max_topic_aliases cfg) (limit_subscription cfg)
       (delayed_publish cfg) (as_u32 (max_packet_size cfg)) (max_connections cfg) (max_handshaking_limit cfg)
       (cert_cn_as_username cfg) (cert_subject_dn_as_username cfg) (collect_cert_info cfg))
    (cross_certificate cfg) (cert cfg) (key cfg) (client_ca_certs cfg) (proxy_protocol cfg)
    (proxy_protocol_timeout cfg) (idle_timeout cfg).

(** The node, and the sockets that [main] opens. *)
Definition node_of_settings (s : Inner) (now : Z) : Load.Node :=
  let b := busy (node s) in Load.Node_new (node_id (node s)) now (loadavg b) (cpuloadavg b) (update_interval b).

Inductive Transport : Type := Tcp | Tls | Ws | Wss | Quic.
#[export] Instance Transport_eq_dec : EqDecision Transport.
Proof. solve_decision. Defined.
Definition bound (s : Inner) : list (Transport * Builder) :=
  let all (t : Transport) (m : gmap Z ListenerInner) := (fun p : Z * ListenerInner => (t, config_builder p.2)) <$> map_to_list m in
  all Tcp (tcps (listeners s)) ++ all Tls (tlss (listeners s)) ++ all Ws (wss (listeners s))
  ++ all Wss (wsss (listeners s)) ++ all Quic (quics (listeners s)).
End Settings.

Section facts.
Import Settings.

(** ** Which sockets are opened *)

Definition sections_of (s : Sections) (tr : Transport) : list (bytes * ListenerInner) :=
  match tr with Tcp => _tcps s | Tls => _tlss s | Ws => _wss s | Wss => _wsss s | Quic => _quics s end.
Definition suffix_of (tr : Transport) : bytes :=
  match tr with Tcp => text "/tcp" | Tls => text "/tls" | Ws => text "/ws" | Wss => text "/wss" | Quic => text "/quic" end.
Definition listeners_of (ls : Listeners) (tr : Transport) : gmap Z ListenerInner :=
  match tr with Tcp => tcps ls | Tls => tlss ls | Ws => wss ls | Wss => wsss ls | Quic => quics ls end.

(** The section that decides on its port: it is enabled, and no enabled one
    after it is on the same port. *)
Definition chosen (l : list (bytes * ListenerInner)) (n : bytes) (inner : ListenerInner) : Prop :=
  exists l1 l2, l = l1 ++ (n, inner) :: l2 /\ enable inner = true /\
    Forall (fun e => enable e.2 = true -> listener_port e.2 <> listener_port inner) l2.

Definition none_enabled (l : list (bytes * ListenerInner)) : Prop := Forall (fun e => enable e.2 = false) l.

Lemma init_protocol_snoc suffix l n inner :
  init_protocol suffix (l ++ [(n, inner)]) =
    if enable inner then <[listener_port inner := set_name inner (n ++ suffix)]> (init_protocol suffix l) else init_protocol suffix l.
Proof. unfold init_protocol. by rewrite foldl_app. Qed.

Lemma chosen_snoc l n inner n' inner' :
  chosen (l ++ [(n', inner')]) n inner <->
  (n = n' /\ inner = inner' /\ enable inner' = true) \/
  (chosen l n inner /\ (enable inner' = true -> listener_port inner' <> listener_port inner)).
Proof.
  split.
  - intros (l1 & l2 & Hl & He & Hf). destruct l2 as [|e l2 _] using rev_ind.
    + apply app_inj_tail in Hl as [_ [= -> ->]]. by left.
    + right. rewrite app_comm_cons, app_assoc in Hl. apply app_inj_tail in Hl as [-> <-].
      apply Forall_app in Hf as [Hf Hlast]. apply Forall_cons in Hlast as [Hlast _]. split; [|done]. by exists l1, l2.
  - intros [(-> & -> & He)|((l1 & l2 & -> & He & Hf) & Hn)].
    + exists l, []. by split_and!.
    + exists l1, (l2 ++ [(n', inner')]). rewrite <- app_assoc. split_and!; [done|done|]. apply Forall_app. split; [done|]. by constructor.
Qed.

Lemma init_protocol_lookup suffix l p r :
  init_protocol suffix l !! p = Some r <->
  exists n inner, chosen l n inner /\ listener_port inner = p /\ r = set_name inner (n ++ suffix).
Proof.
  revert r. induction l as [|[n' inner'] l IH] using rev_ind; intros r.
  - split; [done|]. intros (n & inner & (l1 & l2 & Hl & _) & _). by destruct l1.
  - rewrite init_protocol_snoc. setoid_rewrite chosen_snoc. destruct (enable inner') eqn:He.
    + destruct (decide (listener_port inner' = p)) as [Hp|Hp].
      * rewrite Hp, lookup_insert_eq. split.
        -- intros [= <-]. exists n', inner'. split_and!; [by left|done|done].
        -- intros (n & inner & [(-> & -> & _)|[_ Hne]] & Hi & ->); [done|]. exfalso. apply (Hne eq_refl). congruence.
      * rewrite lookup_insert_ne, IH by done. split.
        -- intros (n & inner & Hc & Hi & ->). exists n, inner. split_and!; [|done|done]. right. split; [done|]. intros _. by rewrite Hi.
        -- intros (n & inner & [(-> & -> & _)|[Hc _]] & Hi & ->); [done|]. by exists n, inner.
    + rewrite IH. split.
      * intros (n & inner & Hc & Hi & ->). exists n, inner. split_and!; [|done|done]. by right.
      * intros (n & inner & [(_ & _ & ?)|[Hc _]] & Hi & ->); [done|]. by exists n, inner.
Qed.

Lemma init_protocol_empty suffix l : init_protocol suffix l = ∅ <-> none_enabled l.
Proof.
  induction l as [|[n inner] l IH] using rev_ind; [by split; [constructor|]|].
  rewrite init_protocol_snoc. unfold none_enabled in *. rewrite Forall_app, Forall_cons, Forall_nil. cbn [snd].
  destruct (enable inner); [|rewrite IH; tauto]. split; [|by intros (_ & ? & _)]. intros H. by apply insert_non_empty in H.
Qed.

Lemma bound_elem s tr b :
  (tr, b) ∈ bound s <-> exists p l, listeners_of (listeners s) tr !! p = Some l /\ b = config_builder l.
Proof.
  assert (Hall : forall (t : Transport) (m : gmap Z ListenerInner),
            (tr, b) ∈ ((fun p : Z * ListenerInner => (t, config_builder p.2)) <$> map_to_list m) <->
            tr = t /\ exists p l, m !! p = Some l /\ b = config_builder l).
  { intros t m. rewrite list_elem_of_fmap. split.
    - intros ([p l] & [= -> ->] & Hin%elem_of_map_to_list). split; [done|]. by exists p, l.
    - intros (-> & p & l & Hin & ->). exists (p, l). split; [done|]. by apply elem_of_map_to_list. }
  unfold bound. rewrite !elem_of_app, !Hall. destruct tr; cbn [listeners_of]; naive_solver.
Qed.


(** A lookup by port finds a socket of the first protocol that has it. *)
Lemma get_found ls p l : get ls p = Some l -> exists tr, listeners_of ls tr !! p = Some l.
Proof.
  unfold get. destruct (tcps ls !! p) eqn:?; [intros [= <-]; by exists Tcp|]. destruct (tlss ls !! p) eqn:?; [intros [= <-]; by exists Tls|].
  destruct (wss ls !! p) eqn:?; [intros [= <-]; by exists Ws|]. destruct (wsss ls !! p) eqn:?; [intros [= <-]; by exists Wss|]. intros ?. by exists Quic.
Qed.

(** ** Entries *)

Definition empty_section : ListenerSection := mkSection
  None None None None None None None None None None None None None None None None None None None None
  None None None None None None None None None None None None None None None None None None None None.
Definition with_addr (a : bytes) : ListenerSection := mkSection
  None None (Some a) None None None None None None None None None None None None None None None None None
  None None None None None None None None None None None None None None None None None None None None.

(** A section with an address and nothing else has the defaults. *)
Lemma only_addr oc parse_addr a sa : parse_addr a = Some sa ->
  exists l, read_listener oc parse_addr (with_addr a) = Ok l /\ addr l = sa /\ enable l = true /\ max_connections l = 1024000 /\
    allow_anonymous l = false /\ max_inflight l = 16 /\ handshake_timeout l = 15 * SECOND /\
    set_name l (name ListenerInner_default) = mkListener (name ListenerInner_default) true sa (max_connections ListenerInner_default)
      (max_handshaking_limit l) (max_packet_size l) (backlog l) (nodelay l) (reuseaddr l) (reuseport l) (allow_anonymous l)
      (min_keepalive l) (max_keepalive l) (allow_zero_keepalive l) (keepalive_backoff l) (max_inflight l) (handshake_timeout l)
      (max_mqueue_len l) (mqueue_rate_limit l) (max_clientid_len l) (max_qos_allowed l) (max_topic_levels l)
      (session_expiry_interval l) (max_session_expiry_interval l) (message_retry_interval l) (message_expiry_interval l)
      (max_subscriptions l) (max_topic_aliases l) (cross_certificate l) (cert l) (key l) (client_ca_certs l)
      (limit_subscription l) (delayed_publish l) (proxy_protocol l) (proxy_protocol_timeout l) (cert_cn_as_username l)
      (cert_subject_dn_as_username l) (collect_cert_info l) (idle_timeout l).
Proof. intros Ha. unfold read_listener, read_addr, with_addr. cbn. rewrite Ha. eexists. split; [reflexivity|]. by split_and!. Qed.

(** An enabled listener needs an address: the default that is documented
    for it does not apply. *)
Lemma addr_required oc parse_addr : read_listener oc parse_addr empty_section = Err (MissingField "addr").
Proof. done. Qed.

(** A rate limit is a count and a duration. *)
Lemma rate_limit_read oc burst l :
  0 < burst <= U32_MAX -> duration_pieces l -> 0 < Utils.total duration_unit_of l < 2 ^ 64 ->
  Forall (fun c => c <> 44) (pieces_text l) ->
  deserialize_mqueue_rate_limit oc (format_int burst ++ [44] ++ pieces_text l) = Ok (burst, Utils.total duration_unit_of l * 1000000).
Proof.
  intros Hb Hl Ht Hc. unfold deserialize_mqueue_rate_limit. cbn [app]. rewrite split_at_found.
  2:{ eapply Forall_impl; [apply format_int_digits|]. intros c Hd. unfold digit in Hd. lia. }
  rewrite split_at_none by done. cbn [app]. unfold parse_nonzero_u32. unfold U32_MAX in Hb. rewrite parse_format by lia.
  unfold U32_MAX. destruct (Z.ltb_spec 0 burst); [|lia]. destruct (Z.leb_spec burst 4294967295); [|lia]. cbn [andb].
  unfold read_duration, deserialize_duration. destruct (duration_pieces_sum oc l Hl) as [-> _]; [lia|]. cbn [Settings.total and_then].
  rewrite Z.div_mul by done. destruct (Z.eqb_spec (Utils.total duration_unit_of l) 0); [lia|done].
Qed.

(** ** Settings that do not do what is said of them *)

(** Without an [mqtt] section no message is delayed and none is sent at
    once instead; with an empty one the documented defaults apply. *)
Lemma mqtt_section_absent :
  read_mqtt None = mkMqtt 0 false 0 /\ read_mqtt (Some (None, None, None)) = mkMqtt 100000 true 0.
Proof. done. Qed.

(** Of two listeners of a protocol on the same port, for two addresses of
    the machine, one is lost. *)
Lemma same_port_lost n1 n2 l1 l2 : enable l1 = true -> enable l2 = true -> listener_port l1 = listener_port l2 ->
  map_to_list (init_protocol (text "/tcp") [(n1, l1); (n2, l2)]) = [(listener_port l2, set_name l2 (n2 ++ text "/tcp"))].
Proof.
  intros H1 H2 Hp. unfold init_protocol. cbn [foldl]. by rewrite H1, H2, Hp, insert_insert_eq, insert_empty, map_to_list_singleton.
Qed.

(** A limit of 4 gibibytes becomes none: the size is cut to 32 bits. *)
Lemma packet_size_cut : exists l, read_listener true (fun _ => Some addr_default)
    (mkSection None None (Some []) None None (Some (text "4G")) None None None None None None None None None None None None None None
       None None None None None None None None None None None None None None None None None None None None) = Ok l /\
  max_packet_size l = 4 * 2 ^ 30 /\ max_packet_size_cfg (b_cfg (config_builder l)) = 0.
Proof. eexists. split; [vm_compute; reflexivity|]. by vm_compute. Qed.
End facts.
