(* ===== verification/Handshake.v ===== *)
(** * Connecting: [v3.rs], [v5.rs], [Session::new], [SessionState::new]

    From the CONNECT packet to the session that [run] takes over: the checks
    of [_handshake], authentication, the lock on the client's entry, the old
    session kicked out, the new one set up and entered, the CONNACK; and
    every way the connection can be refused. The handshake waits for hooks
    and for the lock; what the rest of the broker does meanwhile is an
    argument. *)

From stdpp Require Import prelude list strings gmap.
From Stdlib Require Import ZArith Lia.
From S2P Require Import Prelude CodecTypes CodecUtils CodecV3 CodecV5Types Topic Trie BrokerTypes Subscription Router Queue Inflight Connection Fitter TopicAlias Session Acl SessionLogic SessionRun Shared SharedSync Hook.

Local Open Scope Z_scope.

(** [ConnectAckReason::success]. *)
Definition AckReason_success (r : AckReason) : bool :=
  match r with
  | AckV3 V3.ConnectionAccepted | AckV5 ConnectAckReasonM.Success => true
  | _ => false
  end.

(** Where a handshake waits before it holds the lock. *)
Inductive Wait : Type := AtConnectHook | AtAuthenticate | AtLock (attempt : nat).

(** How a connection is refused: the code of the CONNACK, and the error. *)
Abbreviation Refusal := (AckReason * Error)%type.

Section handshake.
Context {S : Type} `{!SharedSubscription S} {X : Type}.
Abbreviation shared_state := (Shared.t (S := S)).

(** ** State *)

(** The shared state, [scx.sessions], [scx.handshakings], the metric of the
    handshakes the executor did not take, the state of the hooks, and the
    packets sent to the client. *)
Record HState : Type := mkHState {
  hs_shared : shared_state;
  hs_sessions : Counter.t;
  hs_handshakings : Counter.t;
  hs_timeouts : Z;
  hs_hooks : X;
  hs_sent : list Packet;
  (** The outbound limit of the MQTT 5 codec. *)
  hs_max_out_size : Z;
}.

Definition with_shared (s : HState) (b : shared_state) : HState :=
  mkHState b (hs_sessions s) (hs_handshakings s) (hs_timeouts s) (hs_hooks s) (hs_sent s) (hs_max_out_size s).
Definition with_sessions (s : HState) (c : Counter.t) : HState :=
  mkHState (hs_shared s) c (hs_handshakings s) (hs_timeouts s) (hs_hooks s) (hs_sent s) (hs_max_out_size s).
Definition with_handshakings (s : HState) (c : Counter.t) : HState :=
  mkHState (hs_shared s) (hs_sessions s) c (hs_timeouts s) (hs_hooks s) (hs_sent s) (hs_max_out_size s).
Definition with_timeouts (s : HState) (n : Z) : HState :=
  mkHState (hs_shared s) (hs_sessions s) (hs_handshakings s) n (hs_hooks s) (hs_sent s) (hs_max_out_size s).
Definition with_hooks (s : HState) (x : X) : HState :=
  mkHState (hs_shared s) (hs_sessions s) (hs_handshakings s) (hs_timeouts s) x (hs_sent s) (hs_max_out_size s).
Definition with_sent (s : HState) (l : list Packet) : HState :=
  mkHState (hs_shared s) (hs_sessions s) (hs_handshakings s) (hs_timeouts s) (hs_hooks s) l (hs_max_out_size s).
Definition with_max_out_size (s : HState) (n : Z) : HState :=
  mkHState (hs_shared s) (hs_sessions s) (hs_handshakings s) (hs_timeouts s) (hs_hooks s) (hs_sent s) n.

(** What a connection meets: the settings, the clocks, the answers of what
    is not part of the broker's state. *)
Record Env : Type := mkEnv {
  manager : DefaultHookManager X;
  cfg : ListenerConfig;
  env_node : Z;
  env_lid : Z;
  env_local : SocketAddr;
  env_remote : SocketAddr;
  busy_check_enable : bool;
  sys_is_busy : bool;
  mqtt_max_sessions : Z;
  (** A fresh UUID as 32 hexadecimal digits. *)
  uuid : bytes;
  (** The time at which the id is made, the time the connect hook was done
      after, in nanoseconds, and the time of the connection. *)
  id_time : Z;
  elapsed : Z;
  connect_time : Z;
  (** Whether the executor takes the handshake, and whether an attempt to
      lock the entry succeeds. *)
  exec_takes : bool;
  lock_free : nat -> bool;
  (** How the wait for the old session ends, and its [to_offline_info]. *)
  kick_wait : KickWait;
  offline_info : Peer -> option OfflineInfo;
  (** [auto_subscription]: [None] where it is not enabled. *)
  auto_subscription : option (Id -> outcome Error (list Subscribe));
  env_retain_enable : bool;
  env_shared_supported : ListenerConfig -> bool;
  (** The gauge of the windows for inbound messages. *)
  in_gauge : Counter.t;
  (** The certificate of the client, and how sending a CONNACK ends. *)
  cert_info : option CertInfo;
  ack_sent : option Error;
  (** What the rest of the broker does while the handshake waits, and the
      messages others send to the client's mailbox while the connack and
      the connected hook run. *)
  others : Wait -> HState -> HState;
  incoming : list Message;
}.

(** ** The monad *)

Definition hs (A : Type) : Type := HState -> outcome Refusal A * HState.

Definition hret {A} (a : A) : hs A := fun s => (Ok a, s).
Definition refuse {A} (r : AckReason) (e : Error) : hs A := fun s => (Err (r, e), s).
Definition hget {A} (f : HState -> A) : hs A := fun s => (Ok (f s), s).
Definition hmodify (f : HState -> HState) : hs unit := fun s => (Ok tt, f s).
Definition hhooks {A} (f : X -> A * X) : hs A := fun s =>
  let '(a, x) := f (hs_hooks s) in (Ok a, with_hooks s x).
Definition hbind {A B} (m : hs A) (k : A -> hs B) : hs B := fun s =>
  match m s with
  | (Ok a, s) => k a s
  | (Err e, s) => (Err e, s)
  | (Panic, s) => (Panic, s)
  | (Diverged, s) => (Diverged, s)
  end.
End handshake.
Arguments HState : clear implicits.
Arguments Env : clear implicits.

Declare Scope handshake_scope.
Delimit Scope handshake_scope with handshake.
Notation "'let!' x ':=' m 'in' k" := (hbind m (fun x => k))
  (at level 10, x pattern, m at level 100, k at level 200,
   format "'[v' 'let!'  x  ':='  m  'in' '/' k ']'") : handshake_scope.
Notation "m ';;;' k" := (hbind m (fun _ => k))
  (at level 199, right associativity) : handshake_scope.

(** ** The new session *)

(** [Session], but for its queue and window, which are in [SessionState]. *)
Record NewSession : Type := mkNewSession {
  ns_id : Id;
  ns_fitter : Fitter;
  ns_auth_info : option AuthInfo;
  ns_created_at : Z;
  ns_connected_at : Z;
  ns_session_present : bool;
  ns_superuser : bool;
  ns_last_id : option Id;
}.

(** What the hooks see of it. *)
Definition hook_session (n : NewSession) : HookSession :=
  mkHookSession (ns_id n) (ci_password (conn_info (ns_fitter n))) (Some (ci_proto_ver (conn_info (ns_fitter n))))
    (Some (ns_superuser n)) (listen_cfg (ns_fitter n)) (ns_auth_info n).

Definition as_millis (d : Z) : Z := d / 1000000.

Section new.
Context {W Q : Type} `{!DequeMap OutInflightMessage Q}.

(** The queue and the window of [Session::new]. *)
Definition new_deliver_queue (f : Fitter) : Queue.t (From * BPublish) :=
  Queue.on_pop (Queue.on_push (Queue.new (Z.to_nat (max_mqueue_len f)))).
Definition new_out_inflight (f : Fitter) : OutInflight.t (Q := Q) :=
  OutInflight.on_pop (OutInflight.on_push
    (OutInflight.new (max_inflight f) (as_millis (message_retry_interval (listen_cfg f)))
       (as_millis (message_expiry_interval_cfg (listen_cfg f))))).

(** [SessionState::new]; the receiver holds the messages [rx] sent so far. *)
Definition SessionState_new (n : NewSession) (five : bool) (gauge : Counter.t)
    (server_topic_alias_max client_topic_alias_max : Z) (rx : list Message) (w : W) : SessionState W Q :=
  mkState (ns_id n) five (ns_fitter n)
    (if 0 <? client_topic_alias_max then Some (ClientTopicAliases.new client_topic_alias_max) else None)
    (if 0 <? server_topic_alias_max then Some (ServerTopicAliases.new server_topic_alias_max) else None)
    (InInflight.new gauge (max_inflight_cfg (listen_cfg (ns_fitter n)))) []
    (new_out_inflight (ns_fitter n)) (Queue.mkChan (new_deliver_queue (ns_fitter n)) 0) rx false
    DisconnectInfo.default no_flags [] w.
End new.

(** ** The handshake *)

(** What a handshake hands to [run]: the session, the sizes of its alias
    tables, and what is in its mailbox. *)
Record Accepted : Type := mkAccepted {
  acc_session : NewSession;
  acc_five : bool;
  acc_server_aliases : Z;
  acc_client_aliases : Z;
  acc_rx : list Message;
}.

Definition accepted_state {W Q : Type} `{!DequeMap OutInflightMessage Q} (gauge : Counter.t) (a : Accepted) (w : W)
    : SessionState W Q :=
  SessionState_new (acc_session a) (acc_five a) gauge (acc_server_aliases a) (acc_client_aliases a) (acc_rx a) w.

Definition overloaded : Error := Other (text "the system is currently overloaded").
Definition handshake_timed_out : Error := Other (text "handshake timeout").
Definition execute_timed_out : Error := Other (text "Connection Refused, execute handshake timeout").
Definition client_id_too_long : Error := Other (text "client_id is too long").
Definition no_extended_auth : Error := Other (text "extended Auth is not supported").
Definition authentication_failed : Error := Other (text "Authentication failed").
Definition entry_locked : Error := Other (text "operation would block").
Definition receiver_gone : Error := Other (text "send failed because receiver is gone").
Definition too_many_sessions (max : Z) : Error :=
  Other (text "the number of sessions on the current node exceeds the limit, with a maximum of " ++ format_int max
         ++ text " sessions allowed").

(** [ServiceUnavailable] of MQTT 3, [ServerUnavailable] of MQTT 5. *)
Definition unavailable (five : bool) : AckReason :=
  if five then AckV5 ConnectAckReasonM.ServerUnavailable else AckV3 V3.ServiceUnavailable.
Definition bad_client_id (five : bool) : AckReason :=
  if five then AckV5 ConnectAckReasonM.ClientIdentifierNotValid else AckV3 V3.IdentifierRejected.

Section steps.
Context {S : Type} `{!SharedSubscription S} {X : Type} (env : Env S X).
Abbreviation state := (HState S X).
Abbreviation m := (hs (S := S) (X := X)).
Local Open Scope handshake_scope.

Definition wait (w : Wait) : m unit := hmodify (others env w).

(** The attempts at the lock: [attempts] is how many have failed. *)
Fixpoint lock_loop (five : bool) (retries attempts : nat) : m unit :=
  if lock_free env attempts then hret tt
  else
    match retries with
    | O => refuse (unavailable five) entry_locked
    | Datatypes.S retries => wait (AtLock attempts) ;;; lock_loop five retries (Datatypes.S attempts)
    end.
Definition lock_entry (five : bool) : m unit := lock_loop five 10 0.

(** The sessions are at their limit and the client has none. *)
Definition sessions_full (id : Id) (s : state) : bool :=
  (0 <? mqtt_max_sessions env) && (mqtt_max_sessions env <=? Counter.current (hs_sessions s))
  && negb (Shared.exist (hs_shared s) (client_id id)).

(** Up to the lock. [auth] is the authentication method of the client. *)
Definition check_connect (five : bool) (ci : ConnectInfo) : m (bool * option AuthInfo) :=
  let id := ci_id ci in
  let! _ := hhooks (client_connect (manager env) ci) in
  wait AtConnectHook ;;;
  if handshake_timeout (cfg env) <? elapsed env then refuse (unavailable five) handshake_timed_out
  else if (0 <? max_clientid_len (cfg env)) && (max_clientid_len (cfg env) <? len (client_id id)) then
    refuse (bad_client_id five) client_id_too_long
  else
    match (if five then ci_auth_method ci else None) with
    | Some _ => refuse (AckV5 ConnectAckReasonM.BadAuthenticationMethod) no_extended_auth
    | None =>
        let! full := hget (sessions_full id) in
        if full then refuse (unavailable five) (too_many_sessions (mqtt_max_sessions env))
        else
          let! (ack, superuser, auth_info) := hhooks (client_authenticate (manager env) ci (allow_anonymous (cfg env))) in
          wait AtAuthenticate ;;;
          if AckReason_success ack then
            lock_entry five ;;;
            hret (superuser, auth_info)
          else refuse ack authentication_failed
    end.

(** The old session is kicked out: whether a session is present, and what is
    taken over from it. *)
Definition kick_out (five : bool) (id : Id) (clean_session : bool) : m (bool * option OfflineInfo) := fun s =>
  match Shared.kick (hs_shared s) id (kick_wait env) (offline_info env) clean_session clean_session false with
  | (Err e, b) => (Err (unavailable five, e), with_shared s b)
  | (Ok NotExist, b) => (Ok (false, None), with_shared s b)
  | (Ok (Exist (Some o)), b) => (Ok (negb clean_session, Some o), with_shared s b)
  | (Ok (Exist None), b) => (Ok (false, None), with_shared s b)
  | (Panic, b) => (Panic, with_shared s b)
  | (Diverged, b) => (Diverged, with_shared s b)
  end.

(** [Session::new] counts the session, dropping the last handle on it takes
    it off again. *)
Definition Session_new (ci : ConnectInfo) (superuser : bool) (auth_info : option AuthInfo)
    (session_present : bool) (o : option OfflineInfo) : m NewSession :=
  hmodify (fun s => with_sessions s (Counter.inc (hs_sessions s))) ;;;
  hret (mkNewSession (ci_id ci) (mkFitter ci (cfg env)) auth_info
          (match o with Some o => oi_created_at o | None => connect_time env end) (connect_time env)
          session_present superuser (oi_id <$> o)).
Definition drop_session : m unit := hmodify (fun s => with_sessions s (Counter.dec (hs_sessions s))).

(** The timeout, and the value the client is told. *)
Definition settle_keep_alive (five : bool) (n : NewSession) : m (Z * Z) :=
  match keep_alive (ns_fitter n) (ci_keep_alive (conn_info (ns_fitter n))) with
  | (Ok timeout, told) => hret (timeout, told)
  | (Err e, _) => drop_session ;;; refuse (unavailable five) e
  | (Panic, _) => fun s => (Panic, s)
  | (Diverged, _) => fun s => (Diverged, s)
  end.

Definition fire (p : Parameter_) : m unit :=
  let! _ := hhooks (run_hook (manager env) p) in hret tt.

(** [entry.set], and what others send from then on. *)
Definition enter (id : Id) : m unit :=
  hmodify (fun s => with_shared s (Shared.set (hs_shared s) id (fresh_peer id))).
Definition receive_mail (id : Id) : m unit :=
  hmodify (fun s => with_shared s
    (foldl (fun b msg => (Shared.unbounded_send b (client_id id) msg).2) (hs_shared s) (incoming env))).

(** The state with the receiver of the mailbox goes away; the entry keeps
    the session. *)
Definition close_mailbox (p : Peer) : Peer := mkPeer (peer_id p) (peer_subs p) (peer_connected p) true (mailbox p).
Definition drop_state (id : Id) : m unit :=
  hmodify (fun s => with_shared s (Shared.set_peers (hs_shared s) (alter close_mailbox (client_id id) (Shared.peers (hs_shared s))))).

Definition send_self (five : bool) (id : Id) (msg : Message) : m unit := fun s =>
  match Shared.unbounded_send (hs_shared s) (client_id id) msg with
  | (true, b) => (Ok tt, with_shared s b)
  | (false, b) => (Err (unavailable five, receiver_gone), with_shared s b)
  end.

Definition subscribe_automatically (five : bool) (id : Id) : m unit :=
  match auto_subscription env with
  | None => hret tt
  | Some subscribes =>
      match subscribes id with
      | Ok subs => send_self five id (MSubscribes subs None)
      | Err e => drop_state id ;;; refuse (unavailable five) e
      | Panic => fun s => (Panic, s)
      | Diverged => fun s => (Diverged, s)
      end
  end.

Definition mailbox_of (id : Id) (s : state) : list Message :=
  default [] (mailbox <$> Shared.peers (hs_shared s) !! client_id id).

(** From the lock on, which it holds. *)
Definition establish (five : bool) (ci : ConnectInfo) (superuser : bool) (auth_info : option AuthInfo)
    : m (Accepted * Z * Z) :=
  let id := ci_id ci in
  let clean_session := ci_clean_start ci in
  let! (session_present, o) := kick_out five id clean_session in
  let! n := Session_new ci superuser auth_info session_present o in
  let! (timeout, told) := settle_keep_alive five n in
  let hook := hook_session n in
  (match o with None => fire (PSessionCreated hook) | Some _ => hret tt end) ;;;
  let client_topic_alias_max := if five then max_client_topic_aliases (ns_fitter n) else 0 in
  let server_topic_alias_max := if five then max_server_topic_aliases (ns_fitter n) else 0 in
  enter id ;;;
  let! _ := hhooks (client_connack (manager env) ci
                      (if five then AckV5 ConnectAckReasonM.Success else AckV3 V3.ConnectionAccepted)) in
  fire (PClientConnected hook) ;;;
  receive_mail id ;;;
  (match o with Some o => send_self five id (MSessionStateTransfer o clean_session) | None => hret tt end) ;;;
  subscribe_automatically five id ;;;
  let! rx := hget (mailbox_of id) in
  hret (mkAccepted n five server_topic_alias_max client_topic_alias_max rx, timeout, told).

(** [_handshake] of [v3.rs]. *)
Definition _handshake_v3 (id : Id) (c : V3.Connect) : m (Accepted * Z) :=
  let ci := ConnectV3 id c in
  let! (superuser, auth_info) := check_connect false ci in
  let! (a, timeout, _) := establish false ci superuser auth_info in
  hret (a, timeout).

(** The CONNACK of [v5.rs]. *)
Definition connect_ack (n : NewSession) (server_keepalive_sec client_topic_alias_max : Z) (is_assigned_client_id : bool)
    : V5.ConnectAck :=
  let secs := wrap 32 (session_expiry_interval (ns_fitter n) None / 1000000000) in
  V5.mkConnectAck (ns_session_present n) ConnectAckReasonM.Success (if 0 <? secs then Some secs else None)
    (max_inflight (ns_fitter n)) (max_qos_allowed (cfg env)) (Some (max_packet_size_cfg (cfg env)))
    (if is_assigned_client_id then Some (client_id (ns_id n)) else None) client_topic_alias_max
    (env_retain_enable env) true true (env_shared_supported env (cfg env)) (Some server_keepalive_sec)
    None None None None None [].

(** [_handshake] of [v5.rs]. *)
Definition _handshake_v5 (id : Id) (c : V5.Connect) (is_assigned_client_id : bool) : m (Accepted * V5.ConnectAck * Z) :=
  let ci := ConnectV5 id c in
  let! (superuser, auth_info) := check_connect true ci in
  let! (a, timeout, told) := establish true ci superuser auth_info in
  hret (a, connect_ack (acc_session a) told (acc_client_aliases a) is_assigned_client_id, timeout).

(** [recv_connect]: [r] is what [recv] brings. The user name may come from
    the certificate, of which the whole subject goes before the common name. *)
Definition cert_username (user : option bytes) : option bytes :=
  match cert_info env with
  | Some cert =>
      if cert_subject_dn_as_username (cfg env) && negb (len (subject cert) =? 0) then Some (subject cert)
      else if cert_cn_as_username (cfg env) then
        match common_name cert with Some cn => Some cn | None => user end
      else user
  | None => user
  end.
Definition kept_cert (cert : option CertInfo) : option CertInfo :=
  if collect_cert_info (cfg env) then cert_info env else cert.

Definition recv_connect_v3 (r : outcome Error (option V3.Packet)) : outcome Error V3.Connect :=
  match r with
  | Ok (Some (V3.PConnect c)) =>
      Ok (V3.mkConnect (V3.protocol c) (V3.clean_session c) (V3.keep_alive c) (V3.last_will c) (V3.client_id c)
            (cert_username (V3.username c)) (V3.password c) (kept_cert (V3.cert c)))
  | Err e => Err e
  | Ok _ => Err (Mqtt EInvalidProtocol)
  | Panic => Panic
  | Diverged => Diverged
  end.
Definition recv_connect_v5 (r : outcome Error (option V5.Packet)) : outcome Error V5.Connect :=
  match r with
  | Ok (Some (V5.PConnect c)) =>
      Ok (V5.mkConnect (V5.c_clean_start c) (V5.c_keep_alive c) (V5.c_session_expiry_interval_secs c) (V5.c_auth_method c)
            (V5.c_auth_data c) (V5.c_request_problem_info c) (V5.c_request_response_info c) (V5.c_receive_max c)
            (V5.c_topic_alias_max c) (V5.c_user_properties c) (V5.c_max_packet_size c) (V5.c_last_will c)
            (V5.c_client_id c) (cert_username (V5.c_username c)) (V5.c_password c) (kept_cert (V5.c_cert c)))
  | Err e => Err e
  | Ok _ => Err (Mqtt EInvalidProtocol)
  | Panic => Panic
  | Diverged => Diverged
  end.

(** [set_max_outbound_size]: five bytes are kept for the fixed header. *)
Definition set_max_outbound_size (size : Z) : m unit :=
  hmodify (fun s => with_max_out_size s (if 5 <? size then size - 5 else size)).

Definition new_id (client : bytes) (user : option bytes) : Id :=
  Id_new (id_time env) (env_node env) (env_lid env) (Some (env_local env)) (Some (env_remote env)) client user.

Definition handshake_error {A} (five : bool) (o : outcome Error A) : m A :=
  match o with
  | Ok a => hret a
  | Err e => refuse (unavailable five) e
  | Panic => fun s => (Panic, s)
  | Diverged => fun s => (Diverged, s)
  end.

(** [send_connect_ack]; where it fails the state goes away. *)
Definition send_ack (p : Packet) : outcome Error unit * (state -> state) :=
  match ack_sent env with
  | None => (Ok tt, fun s => with_sent s (hs_sent s ++ [p]))
  | Some e => (Err e, fun s => s)
  end.
Definition acknowledge (five : bool) (id : Id) (p : Packet) : m unit :=
  match send_ack p with
  | (Ok _, f) => hmodify f
  | (Err e, _) => drop_state id ;;; refuse (unavailable five) e
  | (Panic, _) => fun s => (Panic, s)
  | (Diverged, _) => fun s => (Diverged, s)
  end.

(** The executor takes the handshake, or the metric counts it. *)
Definition execute {A} (five : bool) (h : m A) : m A :=
  if exec_takes env then h
  else hmodify (fun s => with_timeouts s (hs_timeouts s + 1)) ;;; refuse (unavailable five) execute_timed_out.

Definition with_client_id3 (c : V3.Connect) (client : bytes) : V3.Connect :=
  V3.mkConnect (V3.protocol c) (V3.clean_session c) (V3.keep_alive c) (V3.last_will c) client
    (V3.username c) (V3.password c) (V3.cert c).
Definition with_client_id5 (c : V5.Connect) (client : bytes) : V5.Connect :=
  V5.mkConnect (V5.c_clean_start c) (V5.c_keep_alive c) (V5.c_session_expiry_interval_secs c) (V5.c_auth_method c)
    (V5.c_auth_data c) (V5.c_request_problem_info c) (V5.c_request_response_info c) (V5.c_receive_max c)
    (V5.c_topic_alias_max c) (V5.c_user_properties c) (V5.c_max_packet_size c) (V5.c_last_will c)
    client (V5.c_username c) (V5.c_password c) (V5.c_cert c).

(** [handshake] of [v3.rs]. *)
Definition handshake_v3 (r : outcome Error (option V3.Packet)) : m (Accepted * Z) :=
  if busy_check_enable env && sys_is_busy env then refuse (unavailable false) overloaded
  else
    let! c := handshake_error false (recv_connect_v3 r) in
    let! c :=
      (if len (V3.client_id c) =? 0 then
         if V3.clean_session c then hret (with_client_id3 c (uuid env))
         else refuse (AckV3 V3.IdentifierRejected) (Mqtt EIdentifierRejected)
       else hret c) in
    let id := new_id (V3.client_id c) (V3.username c) in
    let! (a, timeout) := execute false (_handshake_v3 id c) in
    acknowledge false id
      (Packet3 (V3.PConnectAck (V3.mkConnectAck V3.ConnectionAccepted (ns_session_present (acc_session a))))) ;;;
    hret (a, timeout).

(** [handshake] of [v5.rs]. *)
Definition handshake_v5 (r : outcome Error (option V5.Packet)) : m (Accepted * Z) :=
  if busy_check_enable env && sys_is_busy env then refuse (unavailable true) overloaded
  else
    let! c := handshake_error true (recv_connect_v5 r) in
    (match V5.c_max_packet_size c with Some size => set_max_outbound_size size | None => hret tt end) ;;;
    let assigned := len (V5.c_client_id c) =? 0 in
    let c := if assigned then with_client_id5 c (uuid env) else c in
    let id := new_id (V5.c_client_id c) (V5.c_username c) in
    let! (a, ack, timeout) := execute true (_handshake_v5 id c assigned) in
    acknowledge true id (Packet5 (V5.PConnectAck ack)) ;;;
    hret (a, timeout).

(** The CONNACK of a refusal, [refused_ack]: it is called without the
    CONNECT packet, so no hook is asked. *)
Definition default_connect_ack (r : ConnectAckReasonM.ConnectAckReason) : V5.ConnectAck :=
  V5.mkConnectAck false r None RECEIVE_MAX_DEFAULT ExactlyOnce None None 0 true true true true None None None None None None [].
Definition refused_packet (five : bool) (r : AckReason) : Packet :=
  if five then
    Packet5 (V5.PConnectAck (default_connect_ack
      (match r with AckV5 r => r | AckV3 _ => ConnectAckReasonM.ServerUnavailable end)))
  else
    Packet3 (V3.PConnectAck (V3.mkConnectAck (match r with AckV3 r => r | AckV5 _ => V3.ServiceUnavailable end) false)).

(** [process], up to [run]: the result of the handshake, or the error of the
    connection. *)
Definition process {A} (five : bool) (h : m A) (s : state) : outcome Error A * state :=
  let '(o, s) := h (with_handshakings s (Counter.inc (hs_handshakings s))) in
  let refused e s := (Err e, with_handshakings s (Counter.dec (hs_handshakings s))) in
  match o with
  | Ok a => (Ok a, with_handshakings s (Counter.dec (hs_handshakings s)))
  | Err (r, e) =>
      match send_ack (refused_packet five r) with
      | (Ok _, f) => refused e (f s)
      | (Err e', _) => refused e' s
      | (Panic, _) => (Panic, s)
      | (Diverged, _) => (Diverged, s)
      end
  | Panic => (Panic, s)
  | Diverged => (Diverged, s)
  end.

Definition process_v3 (r : outcome Error (option V3.Packet)) : state -> outcome Error (Accepted * Z) * state :=
  process false (handshake_v3 r).
Definition process_v5 (r : outcome Error (option V5.Packet)) : state -> outcome Error (Accepted * Z) * state :=
  process true (handshake_v5 r).
End steps.
