(* ===== verification/HandshakeProofs.v ===== *)
(** * What a handshake guarantees

    The rules for the monad of the handshake, the old session being kicked
    out, what [establish] leaves in the shared state however it ends, and
    what a client that is let in has passed. *)

From stdpp Require Import prelude list strings gmap relations.
From Stdlib Require Import ZArith Lia.
From S2P Require Import Prelude CodecTypes CodecUtils CodecV3 CodecV5Types Topic Trie BrokerTypes Subscription Router Queue Inflight Connection Fitter TopicAlias Session Acl SessionLogic SessionQoS2 SessionRun SessionSubs Shared SharedRouting SharedSync Hook Handshake.

Local Open Scope Z_scope.

Section logic.
Context {S X : Type}.
Abbreviation state := (HState S X).
Abbreviation m := (hs (S := S) (X := X)).

Definition hwp {A} (h : m A) (s : state) (ok : A -> state -> Prop) (err : Refusal -> state -> Prop) : Prop :=
  match h s with
  | (Ok a, s') => ok a s'
  | (Err e, s') => err e s'
  | (Panic, _) | (Diverged, _) => False
  end.

Lemma hwp_mono {A} (h : m A) s (ok ok' : A -> state -> Prop) (err err' : Refusal -> state -> Prop) :
  hwp h s ok err -> (forall a s', ok a s' -> ok' a s') -> (forall e s', err e s' -> err' e s') -> hwp h s ok' err'.
Proof. unfold hwp. destruct (h s) as [[] ?]; naive_solver. Qed.

Lemma hwp_ret {A} (a : A) s ok err : ok a s -> hwp (hret a) s ok err.
Proof. done. Qed.
Lemma hwp_refuse {A} r e s ok err : err (r, e) s -> hwp (A := A) (refuse r e) s ok err.
Proof. done. Qed.
Lemma hwp_get {A} (f : state -> A) s ok err : ok (f s) s -> hwp (hget f) s ok err.
Proof. done. Qed.
Lemma hwp_modify (f : state -> state) s ok err : ok tt (f s) -> hwp (hmodify f) s ok err.
Proof. done. Qed.
Lemma hwp_hooks {A} (f : X -> A * X) s ok err :
  ok (f (hs_hooks s)).1 (with_hooks s (f (hs_hooks s)).2) -> hwp (hhooks f) s ok err.
Proof. unfold hwp, hhooks. by destruct (f (hs_hooks s)). Qed.
Lemma hwp_bind {A B} (h : m A) (k : A -> m B) s ok err :
  hwp h s (fun a s' => hwp (k a) s' ok err) err -> hwp (hbind h k) s ok err.
Proof. unfold hwp, hbind. by destruct (h s) as [[] ?]. Qed.
End logic.

Ltac hwp_step :=
  lazymatch goal with
  | |- hwp (hbind _ _) _ _ _ => apply hwp_bind
  | |- hwp (hret _) _ _ _ => apply hwp_ret
  | |- hwp (refuse _ _) _ _ _ => apply hwp_refuse
  | |- hwp (hget _) _ _ _ => apply hwp_get
  | |- hwp (hmodify _) _ _ _ => apply hwp_modify
  | |- hwp (hhooks _) _ _ _ => apply hwp_hooks
  end.

Section handshake.
Context {S : Type} `{!SharedSubscription S} {X : Type} (env : Env S X).
Abbreviation state := (HState S X).
Abbreviation m := (hs (S := S) (X := X)).
Abbreviation b_t := (Shared.t (S := S)).

(** ** Up to the lock *)

(** The entry could be locked within eleven attempts. *)
Definition lockable : Prop := exists n, (n <= 10)%nat /\ lock_free env n = true.

Lemma lock_loop_spec (I : state -> Prop) five retries attempts s :
  (forall w s, I s -> I (others env w s)) -> I s ->
  hwp (lock_loop env five retries attempts) s
    (fun _ s' => I s' /\ exists n, (attempts <= n <= attempts + retries)%nat /\ lock_free env n = true)
    (fun e s' => I s' /\ e = (unavailable five, entry_locked) /\
       forall n, (attempts <= n <= attempts + retries)%nat -> lock_free env n = false).
Proof.
  intros Hw. revert attempts s. induction retries as [|k IH]; intros attempts s Hs; simpl;
    destruct (lock_free env attempts) eqn:Hl.
  - hwp_step. split; [done|]. exists attempts. split; [lia|done].
  - hwp_step. split_and!; [done|done|]. intros n Hn. by replace n with attempts by lia.
  - hwp_step. split; [done|]. exists attempts. split; [lia|done].
  - hwp_step. unfold wait. hwp_step. eapply hwp_mono; [by apply IH, Hw|..].
    + intros _ s' (? & n & ? & ?). split; [done|]. exists n. split; [lia|done].
    + intros e s' (? & ? & Hn). split_and!; [done|done|]. intros n Hle.
      destruct (decide (n = attempts)) as [->|]; [done|]. apply Hn. lia.
Qed.

Definition client_id_ok (id : Id) : Prop := max_clientid_len (cfg env) = 0 \/ len (client_id id) <= max_clientid_len (cfg env).

(** Authentication let the client in, with these rights. *)
Definition authenticated (ci : ConnectInfo) (superuser : bool) (info : option AuthInfo) : Prop :=
  exists x ack x', client_authenticate (manager env) ci (allow_anonymous (cfg env)) x = ((ack, superuser, info), x') /\
    AckReason_success ack = true.

(** What a client has passed when it gets the lock. *)
Record passed (five : bool) (ci : ConnectInfo) (superuser : bool) (info : option AuthInfo) : Prop := {
  passed_time : elapsed env <= handshake_timeout (cfg env);
  passed_id : client_id_ok (ci_id ci);
  passed_method : five = true -> ci_auth_method ci = None;
  passed_auth : authenticated ci superuser info;
  passed_lock : lockable;
}.

Lemma unavailable_fails five : AckReason_success (unavailable five) = false.
Proof. by destruct five. Qed.
Lemma bad_client_id_fails five : AckReason_success (bad_client_id five) = false.
Proof. by destruct five. Qed.

Lemma check_connect_spec (I : state -> Prop) five ci s :
  0 <= max_clientid_len (cfg env) ->
  (forall w s, I s -> I (others env w s)) -> (forall x s, I s -> I (with_hooks s x)) -> I s ->
  hwp (check_connect env five ci) s
    (fun '(superuser, info) s' => I s' /\ passed five ci superuser info /\
       exists s1, I s1 /\ sessions_full env (ci_id ci) s1 = false)
    (fun '(r, e) s' => I s' /\ AckReason_success r = false).
Proof.
  intros Hmax Hw Hx Hs. unfold check_connect. hwp_step. hwp_step. hwp_step. unfold wait at 1. hwp_step.
  set (s1 := others env _ _). assert (Hs1 : I s1) by (by apply Hw, Hx).
  destruct (Z.ltb_spec (handshake_timeout (cfg env)) (elapsed env)) as [|Ht]; [hwp_step; by destruct five|].
  destruct ((0 <? max_clientid_len (cfg env)) && _) eqn:Hc; [hwp_step; by destruct five|].
  assert (Hid : client_id_ok (ci_id ci)).
  { unfold client_id_ok. destruct (Z.ltb_spec 0 (max_clientid_len (cfg env))); [|left; lia].
    simpl in Hc. right. by apply Z.ltb_ge in Hc. }
  destruct (if five then ci_auth_method ci else None) eqn:Hm; [by hwp_step|].
  hwp_step. hwp_step. destruct (sessions_full _ _ _) eqn:Hfull; [hwp_step; by destruct five|].
  hwp_step. hwp_step. destruct (client_authenticate _ _ _ _) as [[[ack superuser] info] x] eqn:Ha. cbn [fst snd].
  hwp_step. unfold wait at 1. hwp_step. destruct (AckReason_success ack) eqn:Hack; [|hwp_step; split; [by apply Hw, Hx|done]].
  hwp_step. eapply hwp_mono; [apply (lock_loop_spec I); [done|by apply Hw, Hx]|..].
  - intros _ s2 (Hs2 & n & Hn & Hl). hwp_step. split_and!; [done| |by exists s1]. split; try done.
    + by intros ->.
    + by eexists _, _, _.
    + exists n. split; [lia|done].
  - intros e s2 (Hs2 & -> & _). split; [done|]. apply unavailable_fails.
Qed.

(** ** Kicking out *)

(** The old session with the message that tells it to go. *)
Definition told_to_go (id : Id) (clean : bool) (p : Peer) : Peer :=
  if tx_closed p then p else with_mail p (MKick false id clean false).

(** It did not answer: it went away with the message unread. *)
Definition unanswered (p : Peer) : bool := negb (tx_closed p) && match kick_wait env with WaitDropped => true | _ => false end.

Definition kick_error : Error := Other (text "recv kick result is RecvError(())").

(** What the new session takes over. *)
Definition taken_over (b : b_t) (id : Id) (clean : bool) : option OfflineInfo :=
  if clean then None else Shared.peers b !! client_id id ≫= fun p => offline_info env (told_to_go id clean p).

(** The shared state without the old session. *)
Definition without_old (b : b_t) (id : Id) (clean : bool) : b_t :=
  match Shared.peers b !! client_id id with
  | Some p => Shared.remove_peer b (client_id id) p clean
  | None => b
  end.

Lemma kick_spec (b : b_t) id clean :
  Shared.kick b id (kick_wait env) (offline_info env) clean clean false =
    match Shared.peers b !! client_id id with
    | None => (Ok NotExist, b)
    | Some p =>
        if unanswered p then
          (Err kick_error, Shared.set_peers b (<[client_id id := told_to_go id clean p]> (Shared.peers b)))
        else (Ok (Exist (if clean then None else offline_info env (told_to_go id clean p))), without_old b id clean)
    end.
Proof.
  unfold Shared.kick, Shared.tx, Shared.unbounded_send, Shared.remove_entry, without_old, unanswered, told_to_go.
  destruct (Shared.peers b !! client_id id) as [p|] eqn:Hp; cbn [fmap option_fmap option_map]; [|by rewrite Hp].
  destruct (tx_closed p) eqn:Hc; cbn [negb andb]; [by rewrite Hp|].
  destruct (kick_wait env); cbn [andb]; cbn [Shared.peers Shared.set_peers]; rewrite ?lookup_insert_eq; try done.
  - unfold Shared.remove_peer, Shared.clear_routes. destruct b as [n ps r sel g mk]. cbn. rewrite delete_insert_eq. by destruct clean.
  - unfold Shared.remove_peer, Shared.clear_routes. destruct b as [n ps r sel g mk]. cbn. rewrite delete_insert_eq. by destruct clean.
Qed.

Lemma without_old_gone (b : b_t) id clean : Shared.peers (without_old b id clean) !! client_id id = None.
Proof.
  unfold without_old. destruct (Shared.peers b !! client_id id) eqn:Hp; [|done].
  unfold Shared.remove_peer. destruct clean; cbn; by rewrite lookup_delete_eq.
Qed.

Lemma without_old_others (b : b_t) id clean c :
  c <> client_id id -> Shared.peers (without_old b id clean) !! c = Shared.peers b !! c.
Proof.
  intros Hc. unfold without_old. destruct (Shared.peers b !! client_id id) eqn:Hp; [|done].
  unfold Shared.remove_peer. destruct clean; cbn; by rewrite lookup_delete_ne.
Qed.

(** ** The new entry *)

(** An entry with a session just set up, and this mail. *)
Definition entered (b : b_t) (id : Id) (mail : list Message) : b_t :=
  Shared.set b id (mkPeer id ∅ true false mail).

Lemma entered_send (b : b_t) id mail msg :
  Shared.unbounded_send (entered b id mail) (client_id id) msg = (true, entered b id (mail ++ [msg])).
Proof.
  unfold Shared.unbounded_send, entered, Shared.set. cbn [Shared.peers Shared.set_peers]. rewrite lookup_insert_eq. cbn [tx_closed].
  unfold Shared.set_peers. cbn. by rewrite insert_insert_eq.
Qed.

Lemma entered_receive (b : b_t) id mail msgs :
  foldl (fun b msg => (Shared.unbounded_send b (client_id id) msg).2) (entered b id mail) msgs = entered b id (mail ++ msgs).
Proof.
  revert mail. induction msgs as [|msg msgs IH]; intros mail; simpl; [by rewrite app_nil_r|].
  rewrite entered_send. simpl. by rewrite IH, <- app_assoc.
Qed.

(** ** From the lock on *)

(** The answer of [auto_subscription] for a client. *)
Definition automatic (id : Id) : list Message :=
  match auto_subscription env with
  | Some subscribes => match subscribes id with Ok subs => [MSubscribes subs None] | _ => [] end
  | None => []
  end.

Definition auto_subscription_ok : Prop := forall f id, auto_subscription env = Some f -> returns (f id).

Definition new_session (b : b_t) (ci : ConnectInfo) (superuser : bool) (info : option AuthInfo) : NewSession :=
  let o := taken_over b (ci_id ci) (ci_clean_start ci) in
  mkNewSession (ci_id ci) (mkFitter ci (cfg env)) info
    (match o with Some o => oi_created_at o | None => connect_time env end) (connect_time env)
    (bool_decide (is_Some o)) superuser (oi_id <$> o).

(** Its mail: what others sent, what it takes over, its automatic
    subscriptions. *)
Definition first_mail (b : b_t) (id : Id) (clean : bool) : list Message :=
  incoming env ++ match taken_over b id clean with Some o => [MSessionStateTransfer o clean] | None => [] end
  ++ automatic id.

(** What [establish] does not touch. *)
Definition rest (s : state) : Counter.t * Z * list Packet * Z :=
  (hs_handshakings s, hs_timeouts s, hs_sent s, hs_max_out_size s).

(** How it goes: the session is entered; or the old session did not answer
    and stays; or the keep-alive is refused and the old session is gone; or
    the automatic subscriptions fail and an entry without a receiver
    stays. *)
Inductive establishes (five : bool) (ci : ConnectInfo) (superuser : bool) (info : option AuthInfo) (s : state)
    : outcome Refusal (Accepted * Z * Z) -> state -> Prop :=
| established timeout told s' :
    let id := ci_id ci in
    let b := hs_shared s in
    let n := new_session b ci superuser info in
    keep_alive (mkFitter ci (cfg env)) (ci_keep_alive ci) = (Ok timeout, told) ->
    hs_shared s' = entered (without_old b id (ci_clean_start ci)) id (first_mail b id (ci_clean_start ci)) ->
    hs_sessions s' = Counter.inc (hs_sessions s) -> rest s' = rest s ->
    establishes five ci superuser info s
      (Ok (mkAccepted n five (if five then max_server_topic_aliases (ns_fitter n) else 0)
             (if five then max_client_topic_aliases (ns_fitter n) else 0)
             (first_mail b id (ci_clean_start ci)), timeout, told)) s'
| not_answered p s' :
    Shared.peers (hs_shared s) !! client_id (ci_id ci) = Some p -> unanswered p = true ->
    hs_shared s' = Shared.set_peers (hs_shared s)
      (<[client_id (ci_id ci) := told_to_go (ci_id ci) (ci_clean_start ci) p]> (Shared.peers (hs_shared s))) ->
    hs_sessions s' = hs_sessions s -> rest s' = rest s ->
    establishes five ci superuser info s (Err (unavailable five, kick_error)) s'
| keep_alive_refused e told s' :
    keep_alive (mkFitter ci (cfg env)) (ci_keep_alive ci) = (Err e, told) ->
    hs_shared s' = without_old (hs_shared s) (ci_id ci) (ci_clean_start ci) ->
    hs_sessions s' = Counter.dec (Counter.inc (hs_sessions s)) -> rest s' = rest s ->
    establishes five ci superuser info s (Err (unavailable five, e)) s'
| auto_subscription_failed f e mail s' :
    auto_subscription env = Some f -> f (ci_id ci) = Err e ->
    hs_shared s' = Shared.set (without_old (hs_shared s) (ci_id ci) (ci_clean_start ci)) (ci_id ci)
      (mkPeer (ci_id ci) ∅ true true mail) ->
    hs_sessions s' = Counter.inc (hs_sessions s) -> rest s' = rest s ->
    establishes five ci superuser info s (Err (unavailable five, e)) s'.

Lemma keep_alive_cases f k :
  (exists timeout told, keep_alive f k = (Ok timeout, told)) \/ (exists e told, keep_alive f k = (Err e, told)).
Proof. unfold keep_alive. repeat case_match; eauto. Qed.

(** The kick leaves out the old session and says what is taken over. *)
Lemma kick_out_spec five id clean s :
  hwp (kick_out env five id clean) s
    (fun '(present, o) s' => o = taken_over (hs_shared s) id clean /\ present = bool_decide (is_Some o) /\
       s' = with_shared s (without_old (hs_shared s) id clean))
    (fun e s' => exists p, Shared.peers (hs_shared s) !! client_id id = Some p /\ unanswered p = true /\
       e = (unavailable five, kick_error) /\
       s' = with_shared s (Shared.set_peers (hs_shared s) (<[client_id id := told_to_go id clean p]> (Shared.peers (hs_shared s))))).
Proof.
  unfold hwp, kick_out. rewrite kick_spec. unfold taken_over, without_old.
  destruct (Shared.peers (hs_shared s) !! client_id id) as [p|] eqn:Hp; cbn [mbind option_bind].
  - destruct (unanswered p) eqn:Hu; [by exists p|]. destruct clean; [done|].
    destruct (offline_info env (told_to_go id false p)); done.
  - by destruct clean.
Qed.

(** What comes behind [entry.set]: mail is added. *)
Lemma hooks_shared {A} (f : X -> A * X) (s : state) ok err :
  (forall a x, ok a (with_hooks s x)) -> hwp (hhooks f) s ok err.
Proof. intros Ho. hwp_step. apply Ho. Qed.

Lemma send_self_entered five id (b : b_t) mail msg (s : state) ok err :
  hs_shared s = entered b id mail ->
  ok tt (with_shared s (entered b id (mail ++ [msg]))) -> hwp (send_self five id msg) s ok err.
Proof. intros Hs Hok. unfold hwp, send_self. by rewrite Hs, entered_send. Qed.

Lemma drop_entered (b : b_t) id mail :
  Shared.set_peers (entered b id mail) (alter close_mailbox (client_id id) (Shared.peers (entered b id mail)))
  = Shared.set b id (mkPeer id ∅ true true mail).
Proof.
  unfold entered, Shared.set, Shared.set_peers. cbn. f_equal. apply map_eq. intros c.
  destruct (decide (c = client_id id)) as [->|]; rewrite ?lookup_alter_eq, ?lookup_alter_ne by done;
    [by rewrite !lookup_insert_eq|by rewrite !lookup_insert_ne].
Qed.

(** Subscribing automatically and handing over. *)
Lemma subscribe_automatically_spec five id b mail s (ok : unit -> state -> Prop) (err : Refusal -> state -> Prop) :
  auto_subscription_ok -> hs_shared s = entered b id mail ->
  ok tt (with_shared s (entered b id (mail ++ automatic id))) ->
  (forall f e, auto_subscription env = Some f -> f id = Err e ->
     err (unavailable five, e) (with_shared s (Shared.set b id (mkPeer id ∅ true true mail)))) ->
  hwp (subscribe_automatically env five id) s ok err.
Proof.
  intros Hauto Hs Hok Herr. unfold subscribe_automatically, automatic in *.
  destruct (auto_subscription env) as [f|] eqn:Hf.
  - specialize (Hauto f id Hf). destruct (f id) as [subs|e| |] eqn:Hfi; [|..|done|done].
    + by eapply send_self_entered.
    + hwp_step. unfold drop_state. hwp_step. hwp_step. rewrite Hs, drop_entered. by apply (Herr f e).
  - hwp_step. rewrite app_nil_r in Hok. replace s with (with_shared s (entered b id mail)); [done|].
    rewrite <- Hs. by destruct s.
Qed.

Lemma establish_spec five ci superuser info s :
  auto_subscription_ok ->
  exists o s', establish env five ci superuser info s = (o, s') /\ establishes five ci superuser info s o s'.
Proof.
  intros Hauto.
  enough (hwp (establish env five ci superuser info) s
    (fun a s' => establishes five ci superuser info s (Ok a) s')
    (fun e s' => establishes five ci superuser info s (Err e) s')) as Hw.
  { unfold hwp in Hw. destruct (establish _ _ _ _ _ _) as [o s']. exists o, s'. split; [done|]. by destruct o. }
  unfold establish. hwp_step. eapply hwp_mono; [apply kick_out_spec| |].
  2:{ intros e s1 (p & Hp & Hu & -> & ->). by apply (not_answered _ _ _ _ _ p). }
  intros [present o] s1 (Ho & Hpres & ->). hwp_step. unfold Session_new. hwp_step. hwp_step. hwp_step.
  hwp_step. unfold settle_keep_alive. cbn [ns_fitter conn_info].
  destruct (keep_alive_cases (mkFitter ci (cfg env)) (ci_keep_alive ci)) as [(timeout & told & Hk)|(e & told & Hk)]; rewrite Hk.
  2:{ hwp_step. unfold drop_session. hwp_step. hwp_step. by eapply keep_alive_refused. }
  hwp_step. hwp_step. set (n := mkNewSession _ _ _ _ _ _ _ _).
  assert (Hn : n = new_session (hs_shared s) ci superuser info) by (unfold n, new_session; by rewrite Hpres, Ho).
  assert (Hfire : forall p (s : state) ok err, (forall x, ok tt (with_hooks s x)) -> hwp (fire env p) s ok err).
  { intros p s0 ok err Hok. unfold fire. hwp_step. apply hooks_shared. intros _ x. by hwp_step. }
  set (b1 := without_old (hs_shared s) (ci_id ci) (ci_clean_start ci)).
  eapply (hwp_mono _ _ (fun _ s2 => hs_shared s2 = b1 /\ hs_sessions s2 = Counter.inc (hs_sessions s) /\ rest s2 = rest s) _ (fun _ _ => False)); [|clearbody n|done].
  { destruct o; [by hwp_step|]. by apply Hfire. }
  intros _ s2 (Hb & Hc & Hr). hwp_step. unfold enter. hwp_step. hwp_step. apply hooks_shared. intros _ x. hwp_step. apply Hfire. intros x'.
  hwp_step. unfold receive_mail. hwp_step. cbn [with_shared with_hooks hs_shared hs_sessions hs_handshakings hs_timeouts hs_hooks hs_sent hs_max_out_size].
  rewrite Hb. change (Shared.set b1 (ci_id ci) (fresh_peer (ci_id ci))) with (entered b1 (ci_id ci) []). rewrite entered_receive. cbn [app].
  hwp_step.
  eapply (hwp_mono _ _ (fun _ s4 => hs_sessions s4 = Counter.inc (hs_sessions s) /\ rest s4 = rest s /\ hs_shared s4 = entered b1 (ci_id ci)
    (incoming env ++ match o with Some o => [MSessionStateTransfer o (ci_clean_start ci)] | None => [] end)) _ (fun _ _ => False)); [| |done].
  { destruct o as [o|]; [by eapply send_self_entered|]. hwp_step. by rewrite app_nil_r. }
  intros _ s4 (Hc4 & Hr4 & Hb4). hwp_step. eapply subscribe_automatically_spec; [done|done|..].
  - hwp_step. hwp_step. hwp_step.
    assert (Hm : mailbox_of (ci_id ci) (with_shared s4 (entered b1 (ci_id ci) ((incoming env ++ match o with Some o => [MSessionStateTransfer o (ci_clean_start ci)] | None => [] end) ++ automatic (ci_id ci))))
      = first_mail (hs_shared s) (ci_id ci) (ci_clean_start ci)).
    { unfold mailbox_of, entered, Shared.set. cbn [with_shared hs_shared Shared.set_peers Shared.peers]. rewrite lookup_insert_eq. cbn.
      unfold first_mail. by rewrite <- Ho, app_assoc. }
    rewrite Hm, Hn. apply established; [done| |done|done]. cbn [with_shared hs_shared].
    unfold first_mail. by rewrite <- Ho, app_assoc.
  - intros f e Hf He. by eapply auto_subscription_failed.
Qed.

(** ** The whole handshake *)

Context (Hauto : auto_subscription_ok) (Hlen : 0 <= max_clientid_len (cfg env)).

(** A property of the state that hooks and the rest of the broker keep. *)
Context (I : state -> Prop).
Context (HI_others : forall w s, I s -> I (others env w s)) (HI_hooks : forall x s, I s -> I (with_hooks s x)).

(** The client with this CONNECT packet got the lock. *)
Definition locked (five : bool) (ci : ConnectInfo) (superuser : bool) (info : option AuthInfo) (s1 : state) : Prop :=
  I s1 /\ passed five ci superuser info /\ exists s0, I s0 /\ sessions_full env (ci_id ci) s0 = false.

(** It is let in. *)
Definition let_in (five : bool) (ci : ConnectInfo) (a : Accepted) (timeout told : Z) (s2 : state) : Prop :=
  exists superuser info s1, locked five ci superuser info s1 /\
    establishes five ci superuser info s1 (Ok (a, timeout, told)) s2.

(** It is refused, before the lock or behind it. *)
Definition turned_away (five : bool) (ci : ConnectInfo) (r : AckReason) (e : Error) (s2 : state) : Prop :=
  (I s2 /\ AckReason_success r = false) \/
  exists superuser info s1, locked five ci superuser info s1 /\ establishes five ci superuser info s1 (Err (r, e)) s2.

Lemma check_establish {A} five ci s (g : Accepted * Z * Z -> m A) (k : Accepted * Z * Z -> A) :
  (forall x, g x = hret (k x)) -> I s ->
  hwp (hbind (check_connect env five ci) (fun '(superuser, info) =>
         hbind (establish env five ci superuser info) g)) s
    (fun y s2 => exists a timeout told, y = k (a, timeout, told) /\ let_in five ci a timeout told s2)
    (fun '(r, e) s2 => turned_away five ci r e s2).
Proof.
  intros Hg Hs. hwp_step. eapply hwp_mono; [by apply (check_connect_spec I)| |].
  - intros [superuser info] s1 (Hs1 & Hpass & Hroom). hwp_step.
    destruct (establish_spec five ci superuser info s1 Hauto) as (o & s2 & He & Hest). unfold hwp. rewrite He.
    assert (Hl : locked five ci superuser info s1) by done.
    destruct o as [[[a timeout] told]|[r e]| |]; [| |by inversion Hest..].
    + rewrite Hg. exists a, timeout, told. split; [done|]. by exists superuser, info, s1.
    + right. by exists superuser, info, s1.
  - intros [r e] s1 [Hs1 Hr]. by left.
Qed.

(** The CONNECT packet with its id, as the handshake goes on with it. *)
Definition connecting3 (r : outcome Error (option V3.Packet)) (ci : ConnectInfo) : Prop :=
  exists c, recv_connect_v3 env r = Ok c /\
    (len (V3.client_id c) = 0 -> V3.clean_session c = true) /\
    let client := if len (V3.client_id c) =? 0 then uuid env else V3.client_id c in
    ci = ConnectV3 (new_id env client (V3.username c)) (with_client_id3 c client).
Definition connecting5 (r : outcome Error (option V5.Packet)) (ci : ConnectInfo) (assigned : bool) : Prop :=
  exists c, recv_connect_v5 env r = Ok c /\ assigned = (len (V5.c_client_id c) =? 0) /\
    let client := if assigned then uuid env else V5.c_client_id c in
    ci = ConnectV5 (new_id env client (V5.c_username c)) (with_client_id5 c client).

Lemma with_same_client3 c : with_client_id3 c (V3.client_id c) = c.
Proof. by destruct c. Qed.
Lemma with_same_client5 c : with_client_id5 c (V5.c_client_id c) = c.
Proof. by destruct c. Qed.

(** The CONNACK that lets a client in. *)
Definition welcome3 (a : Accepted) : Packet :=
  Packet3 (V3.PConnectAck (V3.mkConnectAck V3.ConnectionAccepted (ns_session_present (acc_session a)))).
Definition welcome5 (a : Accepted) (told : Z) (assigned : bool) : Packet :=
  Packet5 (V5.PConnectAck (connect_ack env (acc_session a) told (acc_client_aliases a) assigned)).

(** The state when the CONNACK could not be sent. *)
Definition dropped (id : Id) (s : state) : state :=
  with_shared s (Shared.set_peers (hs_shared s) (alter close_mailbox (client_id id) (Shared.peers (hs_shared s)))).

(** A handshake that failed: before the lock, behind it, or at the CONNACK. *)
Definition failed (five : bool) (r : AckReason) (e : Error) (s' : state) : Prop :=
  (I s' /\ AckReason_success r = false) \/
  exists ci superuser info s1, locked five ci superuser info s1 /\
    (establishes five ci superuser info s1 (Err (r, e)) s' \/
     exists a s2, establishes five ci superuser info s1 (Ok a) s2 /\
       ack_sent env = Some e /\ r = unavailable five /\ s' = dropped (ci_id ci) s2).

(** A handshake that succeeded with this packet. *)
Definition succeeded (five : bool) (ci : ConnectInfo) (a : Accepted) (timeout told : Z) (p : Packet) (s' : state) : Prop :=
  ack_sent env = None /\ exists s2, let_in five ci a timeout told s2 /\ s' = with_sent s2 (hs_sent s2 ++ [p]).

Lemma acknowledge_spec five ci a timeout told p s2 :
  let_in five ci a timeout told s2 ->
  hwp (acknowledge env five (ci_id ci) p) s2
    (fun _ s' => succeeded five ci a timeout told p s') (fun '(r, e) s' => failed five r e s').
Proof.
  intros Hin. unfold acknowledge, send_ack. destruct (ack_sent env) as [e|] eqn:Hack.
  - hwp_step. unfold drop_state. hwp_step. hwp_step. destruct Hin as (superuser & info & s1 & Hl & He).
    right. exists ci, superuser, info, s1. split; [done|]. right. by exists (a, timeout, told), s2.
  - hwp_step. split; [done|]. by exists s2.
Qed.

Lemma turned_away_failed five ci r e s' : turned_away five ci r e s' -> failed five r e s'.
Proof. intros [?|(superuser & info & s1 & ? & ?)]; [by left|right]. exists ci, superuser, info, s1. split; [done|by left]. Qed.

Lemma execute_spec {A} five (h : m A) s (ok : A -> state -> Prop) (err : Refusal -> state -> Prop) :
  (forall n s, I s -> I (with_timeouts s n)) -> I s ->
  hwp h s ok err -> (forall s', I s' -> err (unavailable five, execute_timed_out) s') ->
  hwp (execute env five h) s ok err.
Proof.
  intros Ht Hs Hh He. unfold execute. destruct (exec_takes env); [done|]. hwp_step. hwp_step. hwp_step. by apply He, Ht.
Qed.

Lemma handshake_v3_spec r s :
  (forall n s, I s -> I (with_timeouts s n)) -> I s -> returns r ->
  hwp (handshake_v3 env r) s
    (fun '(a, timeout) s' => exists ci told, connecting3 r ci /\ succeeded false ci a timeout told (welcome3 a) s')
    (fun '(rr, e) s' => failed false rr e s').
Proof.
  intros Ht Hs Hr. unfold handshake_v3. destruct (_ && _); [hwp_step; by left|].
  hwp_step. assert (Hrec : returns (recv_connect_v3 env r)) by (destruct r as [[[]|]|?| |]; done).
  destruct (recv_connect_v3 env r) as [c|e| |] eqn:Hc; unfold handshake_error; [|hwp_step; by left|done|done].
  hwp_step. hwp_step.
  set (client := if len (V3.client_id c) =? 0 then uuid env else V3.client_id c).
  eapply (hwp_mono _ _ (fun c' s1 => s1 = s /\ c' = with_client_id3 c client /\
    (len (V3.client_id c) = 0 -> V3.clean_session c = true)) _ (fun '(rr, e) s1 => failed false rr e s1)); [| |done].
  { unfold client. destruct (Z.eqb_spec (len (V3.client_id c)) 0).
    - destruct (V3.clean_session c) eqn:Hcl; hwp_step; [done|by left].
    - hwp_step. by rewrite with_same_client3. }
  intros c' s1 (-> & -> & Hclean). hwp_step. set (ci := ConnectV3 (new_id env client (V3.username c)) (with_client_id3 c client)).
  apply execute_spec; [done|done| |by left; split].
  eapply hwp_mono; [apply (check_establish false ci _ _ (fun '(a, timeout, _) => (a, timeout))); [by intros [[??]?]|done]| |].
  - intros [a timeout] s2 (a' & timeout' & told & [= <- <-] & Hin). hwp_step.
    eapply hwp_mono; [by apply (acknowledge_spec false ci a timeout told)| |done].
    intros ? s' Hsucc. hwp_step. exists ci, told. split; [by exists c|done].
  - intros [rr e] s2 Haway. by apply (turned_away_failed _ ci).
Qed.

Lemma handshake_v5_spec r s :
  (forall n s, I s -> I (with_timeouts s n)) -> (forall n s, I s -> I (with_max_out_size s n)) -> I s -> returns r ->
  hwp (handshake_v5 env r) s
    (fun '(a, timeout) s' => exists ci told assigned, connecting5 r ci assigned /\
       succeeded true ci a timeout told (welcome5 a told assigned) s')
    (fun '(rr, e) s' => failed true rr e s').
Proof.
  intros Ht Hm Hs Hr. unfold handshake_v5. destruct (_ && _); [hwp_step; by left|].
  hwp_step. assert (Hrec : returns (recv_connect_v5 env r)) by (destruct r as [[[]|]|?| |]; done).
  destruct (recv_connect_v5 env r) as [c|e| |] eqn:Hc; unfold handshake_error; [|hwp_step; by left|done|done].
  hwp_step. hwp_step.
  eapply (hwp_mono _ _ (fun _ s1 => I s1) _ (fun _ _ => False)); [| |done].
  { destruct (V5.c_max_packet_size c) as [size|]; [|by hwp_step]. unfold set_max_outbound_size. hwp_step. by apply Hm. }
  intros [] s1 Hs1. hwp_step. set (assigned := len (V5.c_client_id c) =? 0).
  set (client := if assigned then uuid env else V5.c_client_id c).
  assert (Hcl : (if assigned then with_client_id5 c (uuid env) else c) = with_client_id5 c client).
  { unfold client. destruct assigned; [done|]. by rewrite with_same_client5. }
  rewrite Hcl. set (ci := ConnectV5 (new_id env client (V5.c_username c)) (with_client_id5 c client)).
  apply execute_spec; [done|done| |by left; split].
  eapply hwp_mono; [apply (check_establish true ci _ _
    (fun '(a, timeout, told) => (a, connect_ack env (acc_session a) told (acc_client_aliases a) assigned, timeout)));
    [by intros [[??]?]|done]| |].
  - intros [[a0 ack] timeout0] s2 (a & timeout & told & [= -> -> ->] & Hin). hwp_step.
    eapply hwp_mono; [by apply (acknowledge_spec true ci a timeout told)| |done].
    intros ? s' Hsucc. hwp_step. exists ci, told, assigned. split; [by exists c|done].
  - intros [rr e] s2 Haway. by apply (turned_away_failed _ ci).
Qed.

(** ** Both versions, with [process] *)

Inductive Received : Type :=
| Received3 (r : outcome Error (option V3.Packet))
| Received5 (r : outcome Error (option V5.Packet)).

Definition is_v5 (r : Received) : bool := match r with Received3 _ => false | Received5 _ => true end.
Definition received_ok (r : Received) : Prop := match r with Received3 r => returns r | Received5 r => returns r end.
Definition process_any (r : Received) : state -> outcome Error (Accepted * Z) * state :=
  match r with Received3 r => process_v3 env r | Received5 r => process_v5 env r end.

(** The CONNECT packet it goes on with, and the CONNACK that lets it in. *)
Definition welcomed (r : Received) (ci : ConnectInfo) (a : Accepted) (told : Z) (p : Packet) : Prop :=
  match r with
  | Received3 r => connecting3 r ci /\ p = welcome3 a
  | Received5 r => exists assigned, connecting5 r ci assigned /\ p = welcome5 a told assigned
  end.

Definition not_handshaking (s : state) : state := with_handshakings s (Counter.dec (hs_handshakings s)).

(** What a refused client is sent, if it can be sent. *)
Definition told_refused (five : bool) (r : AckReason) (s : state) : state :=
  match ack_sent env with
  | None => with_sent s (hs_sent s ++ [refused_packet five r])
  | Some _ => s
  end.

Lemma process_spec r s :
  (forall n s, I s -> I (with_timeouts s n)) -> (forall n s, I s -> I (with_max_out_size s n)) ->
  I (with_handshakings s (Counter.inc (hs_handshakings s))) -> received_ok r ->
  match process_any r s with
  | (Ok (a, timeout), s') => exists ci told p s2, welcomed r ci a told p /\
      succeeded (is_v5 r) ci a timeout told p s2 /\ s' = not_handshaking s2
  | (Err e', s') => exists rr e s2, failed (is_v5 r) rr e s2 /\
      e' = default e (ack_sent env) /\ s' = not_handshaking (told_refused (is_v5 r) rr s2)
  | (Panic, _) | (Diverged, _) => False
  end.
Proof.
  intros Ht Hm Hs Hr.
  assert (Hproc : forall five (h : m (Accepted * Z)),
    hwp h (with_handshakings s (Counter.inc (hs_handshakings s)))
      (fun '(a, timeout) s' => exists ci told p, welcomed r ci a told p /\ succeeded five ci a timeout told p s')
      (fun '(rr, e) s' => failed five rr e s') ->
    match process env five h s with
    | (Ok (a, timeout), s') => exists ci told p s2, welcomed r ci a told p /\
        succeeded five ci a timeout told p s2 /\ s' = not_handshaking s2
    | (Err e', s') => exists rr e s2, failed five rr e s2 /\
        e' = default e (ack_sent env) /\ s' = not_handshaking (told_refused five rr s2)
    | (Panic, _) | (Diverged, _) => False
    end).
  { intros five h Hh. unfold process, hwp in *. destruct (h _) as [[[a timeout]|[rr e]| |] s2]; [|..|done|done].
    - destruct Hh as (ci & told & p & Hw & Hsu). by exists ci, told, p, s2.
    - unfold send_ack, told_refused. destruct (ack_sent env) as [e'|]; by exists rr, e, s2. }
  destruct r as [r|r]; cbn [process_any is_v5 welcomed] in *; apply Hproc.
  - eapply hwp_mono; [by apply handshake_v3_spec| |done].
    intros [a timeout] s' (ci & told & Hc & Hsu). by exists ci, told, (welcome3 a).
  - eapply hwp_mono; [by apply handshake_v5_spec| |done].
    intros [a timeout] s' (ci & told & assigned & Hc & Hsu). exists ci, told, (welcome5 a told assigned).
    split; [by exists assigned|done].
Qed.
End handshake.
