(* ===== verification/Connecting.v ===== *)
(** * Theorems on connecting

    What is true of a client that is let in, of the broker after a refusal,
    of the CONNACK an MQTT 5 client is told, and of the shared state; with
    a node on which they are applied. *)

From stdpp Require Import prelude list strings gmap relations.
From Stdlib Require Import ZArith Lia.
From S2P Require Import Prelude CodecTypes CodecUtils CodecV3 CodecV5Types Topic Trie BrokerTypes Subscription Router Queue Inflight Connection Fitter TopicAlias Session Acl SessionLogic SessionQoS2 SessionRun SessionSubs Shared SharedRouting SharedSync Hook Handshake HandshakeProofs SessionWitness.

Local Open Scope Z_scope.

Section connecting.
Context {S : Type} `{!SharedSubscription S} {X : Type} (env : Env S X).
Abbreviation state := (HState S X).

(** The settings are in their ranges, and a UUID has digits. *)
Record env_ok : Prop := {
  env_auto : auto_subscription_ok env;
  env_len : 0 <= max_clientid_len (cfg env);
  env_inflight : 0 < max_inflight_cfg (cfg env) <= U16_MAX;
  env_aliases : u16 (max_topic_aliases (cfg env));
  env_uuid : uuid env <> [];
}.

(** The rest of the broker does nothing while the handshake waits. *)
Definition quiet : Prop := forall w s, others env w s = s.

(** The parts of the state the hooks do not have. *)
Definition as_before (s s1 : state) : Prop :=
  hs_shared s1 = hs_shared s /\ hs_sessions s1 = hs_sessions s /\ hs_sent s1 = hs_sent s /\
  hs_handshakings s1 = Counter.inc (hs_handshakings s).

Lemma process_quiet r s :
  env_ok -> quiet -> received_ok r ->
  match process_any env r s with
  | (Ok (a, timeout), s') => exists ci told p s2, welcomed env r ci a told p /\
      succeeded env (as_before s) (is_v5 r) ci a timeout told p s2 /\ s' = not_handshaking s2
  | (Err e', s') => exists rr e s2, failed env (as_before s) (is_v5 r) rr e s2 /\
      e' = default e (ack_sent env) /\ s' = not_handshaking (told_refused env (is_v5 r) rr s2)
  | (Panic, _) | (Diverged, _) => False
  end.
Proof.
  intros [Ha Hl _ _ _] Hq Hr. apply process_spec; try done. intros w s1. by rewrite Hq.
Qed.

Lemma process_any_spec r s :
  env_ok -> received_ok r ->
  match process_any env r s with
  | (Ok (a, timeout), s') => exists ci told p s2, welcomed env r ci a told p /\
      succeeded env (fun _ => True) (is_v5 r) ci a timeout told p s2 /\ s' = not_handshaking s2
  | (Err e', s') => exists rr e s2, failed env (fun _ => True) (is_v5 r) rr e s2 /\
      e' = default e (ack_sent env) /\ s' = not_handshaking (told_refused env (is_v5 r) rr s2)
  | (Panic, _) | (Diverged, _) => False
  end.
Proof. intros [Ha Hl _ _ _] Hr. by apply process_spec. Qed.

(** ** Who is let in *)

Lemma connecting_client r ci a told p :
  env_ok -> welcomed env r ci a told p -> client_id (ci_id ci) <> [].
Proof.
  intros Hok. assert (Hlen : forall (l : bytes), (len l =? 0) = false -> l <> []) by (by intros [] ?).
  destruct r as [r|r].
  - intros [(c & _ & _ & ->) _]. cbn. destruct (len (V3.client_id c) =? 0) eqn:He; [by apply Hok|by apply Hlen].
  - intros (assigned & (c & _ & -> & ->) & _). cbn. destruct (len (V5.c_client_id c) =? 0) eqn:He; [by apply Hok|by apply Hlen].
Qed.

Lemma entered_lookup (b : Shared.t (S := S)) id mail :
  Shared.peers (entered b id mail) !! client_id id = Some (mkPeer id ∅ true false mail).
Proof. unfold entered, Shared.set. cbn. by rewrite lookup_insert_eq. Qed.

(** What [let_in] leaves. *)
Lemma let_in_entry (I : state -> Prop) five ci a timeout told s2 :
  let_in env I five ci a timeout told s2 ->
  ci_id ci = ns_id (acc_session a) /\ conn_info (ns_fitter (acc_session a)) = ci /\
  listen_cfg (ns_fitter (acc_session a)) = cfg env /\ acc_five a = five /\
  passed env five ci (ns_superuser (acc_session a)) (ns_auth_info (acc_session a)) /\
  keep_alive (ns_fitter (acc_session a)) (ci_keep_alive ci) = (Ok timeout, told) /\
  acc_server_aliases a = (if five then max_server_topic_aliases (ns_fitter (acc_session a)) else 0) /\
  acc_client_aliases a = (if five then max_client_topic_aliases (ns_fitter (acc_session a)) else 0) /\
  Shared.peers (hs_shared s2) !! client_id (ci_id ci) = Some (mkPeer (ci_id ci) ∅ true false (acc_rx a)).
Proof.
  intros (superuser & info & s1 & (_ & Hpass & _) & Hest). inversion Hest; subst; split_and!; try done.
  cbn [acc_rx]. replace (hs_shared s2) with (entered (without_old (hs_shared s1) (ci_id ci) (ci_clean_start ci)) (ci_id ci)
    (first_mail env (hs_shared s1) (ci_id ci) (ci_clean_start ci))) by done. apply entered_lookup.
Qed.

Definition success_packet (p : Packet) : bool :=
  match p with
  | Packet3 (V3.PConnectAck a) => AckReason_success (AckV3 (V3.return_code a))
  | Packet5 (V5.PConnectAck a) => AckReason_success (AckV5 (V5.ca_reason_code a))
  | _ => false
  end.

Lemma welcome_success r ci a told p : welcomed env r ci a told p -> success_packet p = true.
Proof. destruct r; [by intros [_ ->]|by intros (? & _ & ->)]. Qed.


(** ** Who is refused *)

Lemma refused_not_success five rr : AckReason_success rr = false -> success_packet (refused_packet five rr) = false.
Proof. by destruct five, rr as [[]|[]]. Qed.

Lemma dec_inc (c : Counter.t) : Counter.current (Counter.dec (Counter.inc c)) = isize (Counter.current c).
Proof.
  unfold Counter.dec, Counter.inc, Counter.decs, Counter.incs. cbn [Counter.current].
  change (isize (Counter.current c + 1) - 1) with (isize (Counter.current c + 1) + -1). rewrite Counter.isize_add. f_equal. lia.
Qed.

(** The entry of a client after a refusal behind the lock. *)
Definition entry_after_refusal (id : Id) (s s' : state) : Prop :=
  match Shared.peers (hs_shared s') !! client_id id with
  | None => Counter.current (hs_sessions s') = isize (Counter.current (hs_sessions s))
  | Some p =>
      (exists p0 clean, Shared.peers (hs_shared s) !! client_id id = Some p0 /\ unanswered env p0 = true /\
         p = told_to_go id clean p0 /\ hs_sessions s' = hs_sessions s) \/
      (peer_id p = id /\ peer_connected p = true /\ tx_closed p = true /\ hs_sessions s' = Counter.inc (hs_sessions s))
  end.

Definition others_alone (id : Id) (s s' : state) : Prop :=
  forall c, c <> client_id id -> Shared.peers (hs_shared s') !! c = Shared.peers (hs_shared s) !! c.

Lemma establishes_refused five ci superuser info (s s1 s2 : state) r e :
  as_before s s1 -> establishes env five ci superuser info s1 (Err (r, e)) s2 ->
  AckReason_success r = false /\ rest s2 = rest s1 /\
  others_alone (ci_id ci) s s2 /\ entry_after_refusal (ci_id ci) s s2.
Proof.
  intros (Hb & Hc & _ & _) He. unfold others_alone, entry_after_refusal.
  inversion He as [|p ? Hp Hu Hb2 Hc2 Hr|e' told ? Hk Hb2 Hc2 Hr|f e' mail ? Hf Hfe Hb2 Hc2 Hr]; subst;
    (split; [by destruct five|split; [done|]]); rewrite Hb2, Hb in *.
  - split; cbn [Shared.set_peers Shared.peers].
    + intros c Hne. by rewrite lookup_insert_ne.
    + rewrite lookup_insert_eq. left. exists p, (ci_clean_start ci). split_and!; [done..|congruence].
  - split; [intros c Hne; by apply without_old_others|]. rewrite without_old_gone, Hc2, dec_inc. congruence.
  - split; unfold Shared.set; cbn [Shared.set_peers Shared.peers].
    + intros c Hne. rewrite lookup_insert_ne by done. by apply without_old_others.
    + rewrite lookup_insert_eq. right. split_and!; try done. congruence.
Qed.

Lemma dropped_refused five ci superuser info (s s1 s2 : state) a :
  as_before s s1 -> establishes env five ci superuser info s1 (Ok a) s2 ->
  rest (dropped (ci_id ci) s2) = rest s1 /\
  others_alone (ci_id ci) s (dropped (ci_id ci) s2) /\ entry_after_refusal (ci_id ci) s (dropped (ci_id ci) s2).
Proof.
  intros (Hb & Hc & _ & _) He. inversion He as [timeout told ? id b n Hk Hb2 Hc2 Hr| | |]; subst.
  unfold others_alone, entry_after_refusal, dropped. rewrite Hb2. unfold id, b. rewrite drop_entered, Hb.
  cbn [with_shared hs_shared hs_sessions]. split_and!; [done| |]; unfold Shared.set; cbn [Shared.set_peers Shared.peers].
  - intros c Hne. rewrite lookup_insert_ne by done. by apply without_old_others.
  - rewrite lookup_insert_eq. right. split_and!; try done. congruence.
Qed.

(** What a handshake that failed leaves. *)
Definition left_behind (five : bool) (s s' : state) : Prop :=
  (hs_shared s' = hs_shared s /\ hs_sessions s' = hs_sessions s) \/
  exists ci superuser info, passed env five ci superuser info /\
    others_alone (ci_id ci) s s' /\ entry_after_refusal (ci_id ci) s s'.

Lemma failed_leaves five (s s2 : state) rr e :
  failed env (as_before s) five rr e s2 ->
  AckReason_success rr = false /\ hs_sent s2 = hs_sent s /\
  hs_handshakings s2 = Counter.inc (hs_handshakings s) /\ left_behind five s s2.
Proof.
  assert (Hrest : forall s1 : state, as_before s s1 -> rest s2 = rest s1 ->
    hs_sent s2 = hs_sent s /\ hs_handshakings s2 = Counter.inc (hs_handshakings s)).
  { intros s1 (_ & _ & Hs & Hh) [= Hh2 _ Hs2 _]. split; congruence. }
  intros [[(Hb & Hc & Hs & Hh) Hr]|(ci & su & info & s1 & (Hbefore & Hpass & _) & [He|(a & s3 & He & _ & -> & ->)])].
  - split_and!; [done..|]. by left.
  - destruct (establishes_refused _ _ _ _ s s1 s2 rr e Hbefore He) as (Hf & Hr & Ho & Hen).
    destruct (Hrest s1 Hbefore Hr). split_and!; [done..|]. right. by exists ci, su, info.
  - destruct (dropped_refused _ _ _ _ s s1 s3 a Hbefore He) as (Hr & Ho & Hen).
    destruct (Hrest s1 Hbefore Hr). split_and!; [apply unavailable_fails|done|done|]. right. by exists ci, su, info.
Qed.


(** ** What an MQTT 5 client is told *)

(** The sizes of the alias tables of a session, 0 without them. *)
Definition client_aliases_of {W Q} (st : SessionState W Q) : Z :=
  default 0 (ClientTopicAliases.max_topic_aliases <$> client_topic_aliases st).

(** C9. The CONNACK of MQTT 5 is true. A client that is let in is told: a
    session is present exactly where one was taken over, never after a clean
    start; no more QoS 1 and 2 messages at a time than the window for them
    has room for; the number of topic aliases the session keeps for it; its
    client id where it sent none, and otherwise it keeps its own; the
    keep-alive that is waited for. The session in turn keeps within what
    the client said: its window and its topic aliases. *)
Theorem connack_truthful (r : outcome Error (option V5.Packet)) (s : state) a timeout s' :
  env_ok -> returns r -> process_any env (Received5 r) s = (Ok (a, timeout), s') ->
  let n := acc_session a in
  exists c ack told, recv_connect_v5 env r = Ok c /\
    last (hs_sent s') = Some (Packet5 (V5.PConnectAck ack)) /\
    V5.ca_reason_code ack = ConnectAckReasonM.Success /\
    V5.ca_session_present ack = bool_decide (is_Some (ns_last_id n)) /\
    (V5.c_clean_start c = true -> V5.ca_session_present ack = false) /\
    V5.ca_assigned_client_id ack = (if len (V5.c_client_id c) =? 0 then Some (client_id (ns_id n)) else None) /\
    (len (V5.c_client_id c) <> 0 -> client_id (ns_id n) = V5.c_client_id c) /\
    V5.ca_server_keepalive_sec ack = Some told /\
    keep_alive (ns_fitter n) (V5.c_keep_alive c) = (Ok timeout, told) /\
    forall (W Q : Type) (DQ : DequeMap OutInflightMessage Q) (w : W),
      let st := accepted_state (Q := Q) (in_gauge env) a w in
      V5.ca_receive_max ack <= InInflight.max_inflight (in_inflight st) /\
      V5.ca_topic_alias_max ack = client_aliases_of st /\
      (forall max, V5.c_receive_max c = Some max -> OutInflight.cap (out_inflight st) <= max) /\
      (0 <= V5.c_topic_alias_max c -> alias_max st <= V5.c_topic_alias_max c).
Proof.
  intros Hok Hr Hp n. pose proof (process_any_spec (Received5 r) s Hok Hr) as H. rewrite Hp in H.
  destruct H as (ci & told & p & s2 & (assigned & (c & Hrec & Hass & Hci) & ->) & (_ & s3 & Hin & ->) & ->).
  destruct (let_in_entry _ _ _ _ _ _ _ Hin) as (Hid & Hconn & Hcfg & _ & _ & Hk & Hsa & Hca & _). fold n in Hid, Hconn, Hcfg, Hk, Hsa, Hca.
  assert (Hpres : ns_session_present n = bool_decide (is_Some (ns_last_id n)) /\ (ci_clean_start ci = true -> ns_last_id n = None)).
  { destruct Hin as (su & info & s1 & _ & He). inversion He; subst a. unfold n. cbn [acc_session new_session ns_session_present ns_last_id].
    unfold n0, new_session. cbn [ns_session_present ns_last_id]. destruct (taken_over env _ _ _) eqn:Ht; (split; [done|]); [|done]. unfold taken_over in Ht. by destruct (ci_clean_start ci). }
  destruct Hpres as [Hpres Hclean].
  exists c, (connect_ack env n told (acc_client_aliases a) assigned), told. split; [done|].
  cbn [welcome5 not_handshaking with_handshakings with_sent hs_sent]. rewrite last_snoc.
  cbn [connect_ack V5.ca_reason_code V5.ca_session_present V5.ca_assigned_client_id V5.ca_server_keepalive_sec V5.ca_receive_max V5.ca_topic_alias_max].
  split_and!; try done.
  - intros Hcs. rewrite Hpres, Hclean; [done|]. by rewrite Hci.
  - by rewrite Hass.
  - intros Hne. rewrite <- Hid, Hci. cbn. rewrite Hass. by destruct (Z.eqb_spec (len (V5.c_client_id c)) 0).
  - by rewrite Hci in Hk.
  - intros W Q DQ w. set (st := accepted_state (in_gauge env) a w). split_and!.
    + change (InInflight.max_inflight (in_inflight st)) with (max_inflight_cfg (listen_cfg (ns_fitter n))).
      unfold max_inflight. destruct (match conn_info _ with ConnectV3 _ _ => None | _ => _ end); lia.
    + unfold client_aliases_of. cbn [st accepted_state SessionState_new client_topic_aliases].
      destruct (Z.ltb_spec 0 (acc_client_aliases a)) as [|Hle]; [done|]. cbn. rewrite Hca in Hle |- *.
      unfold max_client_topic_aliases in *. rewrite Hcfg in *. cbn [is_v5] in *. destruct Hok as [_ _ _ [? ?] _]. destruct (conn_info _); lia.
    + intros max Hmax. change (OutInflight.cap (out_inflight st)) with (max_inflight (ns_fitter n)). unfold max_inflight.
      rewrite Hconn, Hci. cbn [with_client_id5 V5.c_receive_max]. rewrite Hmax. lia.
    + intros Hnn. unfold alias_max. cbn [st accepted_state SessionState_new server_topic_aliases].
      destruct (0 <? acc_server_aliases a); [|done]. cbn. rewrite Hsa. unfold max_server_topic_aliases.
      rewrite Hconn, Hci. cbn [is_v5 with_client_id5 V5.c_topic_alias_max]. lia.
Qed.

(** ** What is taken over, and the shared state *)

(** C8. Taking over. Where the rest of the broker does nothing meanwhile, a
    client that is let in finds its old session gone. It takes over what
    that session hands out of itself, exactly where it did not ask for a
    clean start and there is something: then a session is present, keeps
    its time of creation, and its mailbox holds the transfer, behind what
    others had sent it by then and ahead of its automatic subscriptions.
    Otherwise nothing is carried over, and after a clean start the old
    session's routes are gone as well. No other client is touched, and one
    session more is counted. *)
Theorem connect_takes_over (r : Received) (s : state) a timeout s' :
  env_ok -> quiet -> received_ok r -> process_any env r s = (Ok (a, timeout), s') ->
  let n := acc_session a in
  let id := ns_id n in
  let clean := ci_clean_start (conn_info (ns_fitter n)) in
  let old := if clean then None else Shared.peers (hs_shared s) !! client_id id ≫= fun p => offline_info env (told_to_go id clean p) in
  ns_session_present n = bool_decide (is_Some old) /\
  ns_created_at n = match old with Some o => oi_created_at o | None => connect_time env end /\
  acc_rx a = incoming env ++ match old with Some o => [MSessionStateTransfer o clean] | None => [] end ++ automatic env id /\
  others_alone id s s' /\
  Shared.router (hs_shared s') =
    match Shared.peers (hs_shared s) !! client_id id with
    | Some p => if clean then Shared.clear_routes (Shared.router (hs_shared s)) p else Shared.router (hs_shared s)
    | None => Shared.router (hs_shared s)
    end /\
  hs_sessions s' = Counter.inc (hs_sessions s) /\
  Counter.current (hs_handshakings s') = isize (Counter.current (hs_handshakings s)).
Proof.
  intros Hok Hq Hr Hp n id clean old. pose proof (process_quiet r s Hok Hq Hr) as H. rewrite Hp in H.
  destruct H as (ci & told & p & s2 & _ & (_ & s3 & (su & info & s1 & ((Hb & Hc & Hsent & Hh) & _) & He) & ->) & ->).
  inversion He as [? ? ? id' b n' Hk Hb2 Hc2 Hrest| | |]; subst. cbn [acc_session acc_rx] in *.
  assert (Hold : taken_over env b id' (ci_clean_start ci) = old) by (unfold b; by rewrite Hb).
  split_and!.
  - by rewrite <- Hold.
  - by rewrite <- Hold.
  - unfold first_mail. by rewrite Hold.
  - intros c Hne. cbn [not_handshaking with_handshakings with_sent hs_shared]. rewrite Hb2. unfold entered, Shared.set, b. rewrite Hb.
    cbn [Shared.set_peers Shared.peers]. rewrite lookup_insert_ne by done. by apply without_old_others.
  - cbn [not_handshaking with_handshakings with_sent hs_shared]. rewrite Hb2. unfold b. rewrite Hb. unfold entered, Shared.set, without_old.
    cbn [Shared.set_peers Shared.router]. change id with id'. destruct (Shared.peers (hs_shared s) !! client_id id'); [|done].
    unfold Shared.remove_peer. change clean with (ci_clean_start ci). by destruct (ci_clean_start ci).
  - cbn. congruence.
  - cbn [not_handshaking with_handshakings with_sent hs_handshakings]. injection Hrest as -> _ _ _. rewrite Hh. apply dec_inc.
Qed.
End connecting.

(** ** A node to connect to *)

Section sample.
Abbreviation state := (HState DefaultShared.Seq ()).

Definition sample_env (cfg : ListenerConfig) (max_sessions : Z) (auto : option (Id -> outcome Error (list Subscribe)))
    (others : Wait -> state -> state) (incoming : list Message) : Env DefaultShared.Seq () :=
  {| manager := manager_new; cfg := cfg; env_node := 1; env_lid := 7;
     env_local := mkSocketAddr [127; 0; 0; 1] 1883; env_remote := mkSocketAddr [127; 0; 0; 1] 50000;
     busy_check_enable := true; sys_is_busy := false; mqtt_max_sessions := max_sessions; uuid := text "f00d";
     id_time := 2000; elapsed := 0; connect_time := 2001; exec_takes := true; lock_free := fun n => (2 <=? n)%nat;
     kick_wait := WaitReplied;
     offline_info := fun p => Some (mkOfflineInfo (peer_id p) (map_to_list (peer_subs p)) [] [] 1000);
     auto_subscription := auto; env_retain_enable := true; env_shared_supported := fun _ => true;
     in_gauge := Counter.new; cert_info := None; ack_sent := None; others := others; incoming := incoming |}.

Definition sample_state : state := mkHState shared_sub Counter.new Counter.new 0 tt [] 0.

Definition connect3 (client : string) (clean : bool) (keep_alive : Z) : outcome Error (option V3.Packet) :=
  Ok (Some (V3.PConnect (V3.mkConnect MQTT_LEVEL_311 clean keep_alive None (text client) None None None))).
Definition connect5 (client : string) (receive_max : option Z) : outcome Error (option V5.Packet) :=
  Ok (Some (V5.PConnect (V5.mkConnect true 60 0 None None true false receive_max 5 [] None None (text client) None None None))).

Definition alone (_ : Wait) (s : state) : state := s.
Definition plain : Env DefaultShared.Seq () := sample_env default_listener 10 None alone [].

Lemma plain_ok : env_ok plain.
Proof. split; vm_compute; try done; try (split; congruence). Qed.


(** An MQTT 5 client without an id gets one, and a smaller window. *)
Lemma connack_truthful_witness :
  exists a s' ack, process_any plain (Received5 (connect5 "" (Some 4))) sample_state = (Ok (a, 90), s') /\
    last (hs_sent s') = Some (Packet5 (V5.PConnectAck ack)) /\
    V5.ca_assigned_client_id ack = Some (client_id (ns_id (acc_session a))) /\ V5.ca_receive_max ack <= 16.
Proof.
  destruct (process_any plain (Received5 (connect5 "" (Some 4))) sample_state) as [o s'] eqn:Hp.
  assert (Ho : exists a, o = Ok (a, 90) /\ listen_cfg (ns_fitter (acc_session a)) = default_listener).
  { revert Hp. vm_compute. intros [= <- _]. eexists. split; reflexivity. }
  destruct Ho as (a & -> & Hcfg).
  destruct (connack_truthful plain (connect5 "" (Some 4)) sample_state a 90 s' plain_ok I Hp)
    as (c & ack & told & Hc & Hlast & _ & _ & _ & Hass & _ & _ & _ & Hst).
  exists a, s', ack. split_and!; [done|done| |].
  - rewrite Hass. injection Hc as <-. reflexivity.
  - destruct (Hst unit (AssocDeque.t OutInflightMessage) _ tt) as (Hle & _).
    change (InInflight.max_inflight _) with (max_inflight_cfg (listen_cfg (ns_fitter (acc_session a)))) in Hle. by rewrite Hcfg in Hle.
Defined.

(** Client [b] comes back: its subscription is handed over. *)
Lemma connect_takes_over_witness :
  exists a s', process_any plain (Received3 (connect3 "b" false 60)) sample_state = (Ok (a, 90), s') /\
    ns_session_present (acc_session a) = true /\
    acc_rx a = [MSessionStateTransfer (mkOfflineInfo id_b [("t/+"%string, sub_opts sub_b)] [] [] 1000) false].
Proof.
  destruct (process_any plain (Received3 (connect3 "b" false 60)) sample_state) as [o s'] eqn:Hp.
  assert (Ho : exists a, o = Ok (a, 90) /\ client_id (ns_id (acc_session a)) = text "b" /\
    ci_clean_start (conn_info (ns_fitter (acc_session a))) = false).
  { revert Hp. vm_compute. intros [= <- _]. eexists. split_and!; reflexivity. }
  destruct Ho as (a & -> & Hid & Hclean). exists a, s'. split; [done|].
  destruct (connect_takes_over plain (Received3 (connect3 "b" false 60)) sample_state a 90 s' plain_ok (fun _ _ => eq_refl) I Hp) as (Hpres & _ & Hrx & _).
  rewrite Hclean, Hid in Hpres, Hrx. rewrite Hpres, Hrx. split; reflexivity.
Defined.

(** ** Refusals behind the lock *)

Definition no_zero_keep_alive : ListenerConfig :=
  mkListenerConfig true 0 65535 false F32.three_quarters 16 (from_secs 30) (from_secs 10) 1000
    (U32_MAX, from_secs 1) 65535 ExactlyOnce 0 (from_secs (2 * 60 * 60)) 0 (from_secs 20)
    (from_secs (5 * 60)) 0 0 false false (1024 * 1024) 1000000 1000 false false false.
Definition strict : Env DefaultShared.Seq () := sample_env no_zero_keep_alive 10 None alone [].

Lemma strict_ok : env_ok strict.
Proof. split; vm_compute; try done; try (split; congruence). Qed.


(** The same, evaluated. *)
Lemma refused_keep_alive_ends_session :
  exists p s', Shared.peers (hs_shared sample_state) !! text "b" = Some p /\ peer_subs p !! "t/+"%string = Some (sub_opts sub_b) /\
    process_any strict (Received3 (connect3 "b" false 0)) sample_state = (Err zero_keepalive_error, s') /\
    Shared.peers (hs_shared s') !! text "b" = None.
Proof.
  destruct (process_any strict (Received3 (connect3 "b" false 0)) sample_state) as [o s'] eqn:Hp. revert Hp.
  vm_compute. intros [= <- <-]. eexists _, _. split_and!; reflexivity.
Qed.

(** Where the automatic subscriptions fail, the client is refused and its
    entry stays, with a mailbox nobody reads and a session that counts. *)
Definition failing_subscriptions : Env DefaultShared.Seq () :=
  sample_env default_listener 10 (Some (fun _ => Err (Other (text "no subscriptions")))) alone [].

Lemma refused_client_stays_connected :
  exists e s', process_any failing_subscriptions (Received3 (connect3 "c" true 60)) sample_state = (Err e, s') /\
    success_packet <$> last (hs_sent s') = Some false /\
    Shared.is_connected (hs_shared s') (text "c") = true /\ Shared.reachable (hs_shared s') (text "c") = false /\
    Counter.current (hs_sessions s') = Counter.current (hs_sessions sample_state) + 1.
Proof. eexists _, _. split; [vm_compute; reflexivity|]. vm_compute. split_and!; reflexivity. Qed.

(** The limit on sessions is checked before authentication and the lock:
    where another client is let in meanwhile, it is exceeded. *)
Definition let_in_another (w : Wait) (s : state) : state :=
  match w with AtAuthenticate => (process_any plain (Received3 (connect3 "d" true 60)) s).2 | _ => s end.
Definition one_session : Env DefaultShared.Seq () := sample_env default_listener 1 None let_in_another [].

Lemma session_limit_exceeded :
  exists a s', process_any one_session (Received3 (connect3 "c" true 60)) sample_state = (Ok (a, 90), s') /\
    mqtt_max_sessions one_session < Counter.current (hs_sessions s').
Proof.
  destruct (process_any one_session (Received3 (connect3 "c" true 60)) sample_state) as [o s'] eqn:Hp. revert Hp.
  vm_compute. intros [= <- <-]. eexists _, _. split; reflexivity.
Qed.

(** A message sent to a returning client while the hooks run is read before
    what it takes over. *)
Definition one_message : list Message := [MForward (mkFrom Custom id_a) (BPublish.from (message AtLeastOnce None "t/1"))].
Definition busy_mailbox : Env DefaultShared.Seq () := sample_env default_listener 10 None alone one_message.

Lemma mail_before_transfer :
  exists a s' o, process_any busy_mailbox (Received3 (connect3 "b" false 60)) sample_state = (Ok (a, 90), s') /\
    acc_rx a = one_message ++ [MSessionStateTransfer o false].
Proof.
  destruct (process_any busy_mailbox (Received3 (connect3 "b" false 60)) sample_state) as [o s'] eqn:Hp. revert Hp.
  vm_compute. intros [= <- <-]. eexists _, _, _. split; reflexivity.
Qed.
End sample.
