(* ===== verification/BenchCodec.v ===== *)
(** * The load generator's codec: [oximqtt-bench/src/mqtt/]

    [mqtt-bench] has a codec of its own, so that it meets the broker as a
    foreign client would. [types.rs] is the module [types], [encode.rs]
    the functions [put_*] and [encode*], [decode.rs] the cursor and the
    [parse*] functions, [mod.rs] the framing codec. A Rust [String] is its
    bytes; the cursor [Cur] is what is left of its data from [pos] on, so
    that the functions are in the buffer monad of [Prelude]. *)

From stdpp Require Import prelude list strings.
From Stdlib Require Import ZArith Lia.
From S2P Require Import Prelude CodecTypes CodecUtils.

Local Open Scope Z_scope.

(** ** [types.rs] *)

Module types.

Inductive Version : Type := V3 | V5.

#[global] Instance Version_eq_dec : EqDecision Version.
Proof. solve_decision. Defined.

Definition level (v : Version) : Z := match v with V3 => 4 | V5 => 5 end.

Inductive QoS : Type := AtMostOnce | AtLeastOnce | ExactlyOnce.

#[global] Instance QoS_eq_dec : EqDecision QoS.
Proof. solve_decision. Defined.

(** Anything unknown becomes QoS 2. *)
Definition from_u8 (v : Z) : QoS :=
  match v with 0 => AtMostOnce | 1 => AtLeastOnce | _ => ExactlyOnce end.

Definition as_u8 (q : QoS) : Z :=
  match q with AtMostOnce => 0 | AtLeastOnce => 1 | ExactlyOnce => 2 end.

Record Will : Type := mkWill {
  w_topic : bytes;
  w_payload : bytes;
  w_qos : QoS;
  w_retain : bool;
}.

Record Connect : Type := mkConnect {
  clean : bool;
  keepalive : Z;
  client_id : bytes;
  username : option bytes;
  password : option bytes;
  will : option Will;
  session_expiry : option Z;
}.

Definition Connect_new (client_id : bytes) (keepalive : Z) (clean : bool) : Connect := {|
  clean := clean; keepalive := keepalive; client_id := client_id; username := None;
  password := None; will := None; session_expiry := None |}.

Record Publish : Type := mkPublish {
  topic : bytes;
  payload : bytes;
  qos : QoS;
  retain : bool;
  dup : bool;
  pid : option Z;
}.

(** A [SubOpts] has the one field [qos], and is that [QoS]. *)
Inductive Packet : Type :=
| PConnect (c : Connect)
| PConnAck (reason : Z) (session_present : bool) (receive_max : option Z)
| PPublish (p : Publish)
| PPubAck (pid reason : Z)
| PPubRec (pid reason : Z)
| PPubRel (pid reason : Z)
| PPubComp (pid reason : Z)
| PSubscribe (pid : Z) (filters : list (bytes * QoS))
| PSubAck (pid : Z) (reasons : bytes)
| PUnsubscribe (pid : Z) (filters : list bytes)
| PUnsubAck (pid : Z) (reasons : bytes)
| PPingReq
| PPingResp
| PDisconnect (reason : Z).

Definition packet_type (p : Packet) : Z :=
  match p with
  | PConnect _ => 1
  | PConnAck _ _ _ => 2
  | PPublish _ => 3
  | PPubAck _ _ => 4
  | PPubRec _ _ => 5
  | PPubRel _ _ => 6
  | PPubComp _ _ => 7
  | PSubscribe _ _ => 8
  | PSubAck _ _ => 9
  | PUnsubscribe _ _ => 10
  | PUnsubAck _ _ => 11
  | PPingReq => 12
  | PPingResp => 13
  | PDisconnect _ => 14
  end.

Inductive CodecError : Type :=
| PacketTooLarge (size limit : Z)
| InvalidPacketId
| Malformed (what : string)
| Incomplete
| Unsupported (what : string).

#[global] Instance CodecError_eq_dec : EqDecision CodecError.
Proof. solve_decision. Defined.
End types.

Import types.

Definition is_v3 (v : Version) : bool := match v with V3 => true | V5 => false end.
Definition is_v5 (v : Version) : bool := match v with V3 => false | V5 => true end.

(** ** [encode.rs] *)

Module encode.

Definition publish_flags (p : Publish) : Z :=
  Z.lor (Z.lor (Z.lor 48 (Z.shiftl (if dup p then 1 else 0) 3)) (Z.shiftl (as_u8 (qos p)) 1))
    (if retain p then 1 else 0).

Definition remaining_length_len (len : Z) : Z :=
  if between 0 len 127 then 1
  else if between 128 len 16383 then 2
  else if between 16384 len 2097151 then 3
  else 4.

(** A [usize] of 64 bits has ten digits of seven bits at most. *)
Fixpoint put_remaining_length_loop {E} (fuel : nat) (len : Z) : io E unit :=
  match fuel with
  | O => diverge
  | S fuel =>
      let byte := Z.land len 127 in
      let len := Z.shiftr len 7 in
      let byte := if 0 <? len then Z.lor byte 128 else byte in
      put_u8 byte ;;;
      if len =? 0 then ret tt else put_remaining_length_loop fuel len
  end.

Definition put_remaining_length {E} (len : Z) : io E unit := put_remaining_length_loop 10 len.

Definition string_len (s : bytes) : Z := 2 + len s.

(** The length is cast with [as u16]. *)
Definition put_string {E} (s : bytes) : io E unit :=
  put_u16 (wrap 16 (len s)) ;;; put_slice s.

Definition put_binary {E} (b : bytes) : io E unit :=
  put_u16 (wrap 16 (len b)) ;;; put_slice b.

Definition EMPTY_PROPS : Z := 0.

Definition prop_len_u32 (value : option Z) : Z :=
  match value with Some _ => 5 | None => 0 end.

Definition publish_wire_size (version : Version) (topic : bytes) (payload_len qos : Z) : Z :=
  let body := string_len topic + (if 0 <? qos then 1 else 0) * 2 + payload_len in
  let props := if is_v5 version then 1 else 0 in
  1 + remaining_length_len (body + props) + body + props.

(** [if cond { body.put… }]. *)
Definition when {E} (c : bool) (m : io E unit) : io E unit := if c then m else ret tt.

(** [if let Some(x) = o { … }]. *)
Definition if_some {E A} (o : option A) (f : A -> io E unit) : io E unit :=
  match o with Some a => f a | None => ret tt end.

(** What the packets write before their filters: the identifier and, in
    MQTT 5, an empty property block. *)
Definition empty_props {E} (version : Version) : io E unit :=
  when (is_v5 version) (put_u8 EMPTY_PROPS).

Definition suback_body (version : Version) (pid : Z) (reasons : bytes) : io CodecError Z :=
  put_u16 pid ;;;
  empty_props version ;;;
  for_each (fun r => put_u8 r) reasons ;;;
  ret 144.

Definition connect_username (c : Connect) : option bytes :=
  match username c, password c with
  | Some u, _ => Some u
  | None, Some _ => Some []
  | None, None => None
  end.

Definition connect_flags (c : Connect) : Z :=
  let flags := 0 in
  let flags := if clean c then Z.lor flags 2 else flags in
  let flags := if connect_username c then Z.lor flags 128 else flags in
  let flags := if password c then Z.lor flags 64 else flags in
  match will c with
  | Some w =>
      let flags := Z.lor flags (Z.lor 4 (Z.shiftl (as_u8 (w_qos w)) 3)) in
      if w_retain w then Z.lor flags 32 else flags
  | None => flags
  end.

Definition encode_connect (version : Version) (c : Connect) : io CodecError unit :=
  ensure (len (client_id c) <=? U16_MAX) (Malformed "client id too long") ;;;
  put_string MQTT ;;;
  put_u8 (level version) ;;;
  put_u8 (connect_flags c) ;;;
  put_u16 (keepalive c) ;;;
  when (is_v5 version)
    (put_remaining_length (prop_len_u32 (session_expiry c)) ;;;
     if_some (session_expiry c) (fun se => put_u8 17 ;;; put_u32 se)) ;;;
  put_string (client_id c) ;;;
  if_some (will c) (fun w =>
    empty_props version ;;;
    put_string (w_topic w) ;;;
    put_binary (w_payload w)) ;;;
  if_some (connect_username c) put_string ;;;
  if_some (password c) put_binary.

Definition encode_publish (version : Version) (p : Publish) : io CodecError unit :=
  ensure (negb (negb (bool_decide (qos p = AtMostOnce)) && bool_decide (pid p = None)))
    InvalidPacketId ;;;
  ensure (negb (bool_decide (qos p = AtMostOnce) && negb (bool_decide (pid p = None))))
    (Malformed "QoS 0 must not carry a packet id") ;;;
  put_string (topic p) ;;;
  if_some (pid p) (fun pid =>
    ensure (negb (pid =? 0)) InvalidPacketId ;;;
    put_u16 pid) ;;;
  empty_props version ;;;
  put_slice (payload p).

Definition encode_ack (version : Version) (pid reason : Z) : io CodecError unit :=
  ensure (negb (pid =? 0)) InvalidPacketId ;;;
  put_u16 pid ;;;
  when (is_v5 version && negb (reason =? 0)) (put_u8 reason ;;; put_u8 EMPTY_PROPS).

(** [let flags = match pkt { … }]: the body, and the first byte. *)
Definition encode_body (version : Version) (pkt : Packet) : io CodecError Z :=
  match pkt with
  | PConnect c => encode_connect version c ;;; ret 16
  | PConnAck _ _ _ => throw (Unsupported "sending CONNACK")
  | PPublish p => encode_publish version p ;;; ret (publish_flags p)
  | PPubAck pid reason => encode_ack version pid reason ;;; ret 64
  | PPubRec pid reason => encode_ack version pid reason ;;; ret 80
  | PPubRel pid reason => encode_ack version pid reason ;;; ret 98
  | PPubComp pid reason => encode_ack version pid reason ;;; ret 112
  | PSubscribe pid filters =>
      put_u16 pid ;;;
      empty_props version ;;;
      for_each (fun f => put_string f.1 ;;; put_u8 (as_u8 f.2)) filters ;;;
      ret 130
  | PSubAck pid reasons => suback_body version pid reasons
  | PUnsubscribe pid filters =>
      put_u16 pid ;;;
      empty_props version ;;;
      for_each put_string filters ;;;
      ret 162
  | PUnsubAck pid reasons =>
      put_u16 pid ;;;
      when (is_v5 version)
        (put_u8 EMPTY_PROPS ;;; for_each (fun r => put_u8 r) reasons) ;;;
      ret 176
  | PPingReq => ret 192
  | PPingResp => ret 208
  | PDisconnect reason =>
      when (is_v5 version && negb (reason =? 0)) (put_u8 reason ;;; put_u8 EMPTY_PROPS) ;;;
      ret 224
  end.

(** The body is made in a buffer of its own, so that an error leaves [dst]
    alone. *)
Definition encode (version : Version) (pkt : Packet) : io CodecError unit := fun dst =>
  match encode_body version pkt [] with
  | (Ok flags, body) =>
      (put_u8 flags ;;; put_remaining_length (len body) ;;; put_slice body) dst
  | (Err e, _) => (Err e, dst)
  | (Panic, _) => (Panic, dst)
  | (Diverged, _) => (Diverged, dst)
  end.
End encode.

(** ** [decode.rs] *)

Module decode.

(** *** The cursor *)

Definition remaining {E} : io E Z := fun s => (Ok (len s), s).

Definition byte : io CodecError Z := fun s =>
  match s with
  | b :: s' => (Ok b, s')
  | [] => (Err Incomplete, s)
  end.

Definition u16 : io CodecError Z :=
  let! r := remaining in
  ensure (negb (r <? 2)) Incomplete ;;;
  get_u16.

(** [for _ in 0..4]. *)
Fixpoint varint_loop (n : nat) (value shift : Z) : io CodecError Z :=
  match n with
  | O => throw (Malformed "variable length integer too long")
  | S n =>
      let! b := byte in
      let value := Z.lor value (Z.shiftl (Z.land b 127) shift) in
      if Z.land b 128 =? 0 then ret value else varint_loop n value (shift + 7)
  end.

Definition varint : io CodecError Z := varint_loop 4 0 0.

Definition take (n : Z) : io CodecError bytes :=
  let! r := remaining in
  ensure (negb (r <? n)) Incomplete ;;;
  split_to n.

Definition string : io CodecError bytes :=
  let! len := u16 in
  let! raw := take len in
  ensure (from_utf8 raw) (Malformed "invalid utf-8 string") ;;;
  ret raw.

Definition binary : io CodecError bytes :=
  let! len := u16 in
  take len.

Definition rest : io CodecError bytes := take_rest.

Definition skip_properties : io CodecError Z :=
  let! len := varint in
  let! r := remaining in
  ensure (negb (r <? len)) Incomplete ;;;
  advance len ;;;
  ret len.

(** [if version == Version::V5 { c.skip_properties()?; }]. *)
Definition skip_v5 (version : Version) : io CodecError unit :=
  if is_v5 version then skip_properties ;;; ret tt else ret tt.

(** [if cond { Some(c.m()?) } else { None }]. *)
Definition opt_if {A} (c : bool) (m : io CodecError A) : io CodecError (option A) :=
  if c then let! a := m in ret (Some a) else ret None.

(** *** The packets *)

Definition parse_connect (version : Version) (header_flags : Z) : io CodecError Packet :=
  let! name := string in
  ensure (negb (negb (bool_decide (name = MQTT)) &&
                negb (bool_decide (name = bytes_of_string "MQIsdp"))))
    (Malformed "bad protocol name") ;;;
  let! level := byte in
  ensure (between 3 level 5) (Malformed "bad protocol level") ;;;
  ensure (negb (is_v3 version && negb (Z.land header_flags 15 =? 0)))
    (Malformed "reserved connect flags") ;;;
  let! flags := byte in
  let! keepalive := u16 in
  skip_v5 version ;;;
  let! client_id := string in
  let! will := opt_if (negb (Z.land flags 4 =? 0))
    (skip_v5 version ;;;
     let! topic := string in
     let! payload := binary in
     ret (mkWill topic payload (from_u8 (Z.land (Z.shiftr flags 3) 3))
            (negb (Z.land flags 32 =? 0)))) in
  let! username := opt_if (negb (Z.land flags 128 =? 0)) string in
  let! password := opt_if (negb (Z.land flags 64 =? 0)) binary in
  ret (PConnect (mkConnect (negb (Z.land flags 2 =? 0)) keepalive client_id username password
                   will None)).

(** One iteration of the [while c.pos < end]: [rem_end] is what is left of
    the data at [end]. *)
Definition connack_property (receive_max : option Z) : io CodecError (option Z) :=
  let! id := byte in
  match id with
  | 17 | 19 => take 4 ;;; ret receive_max
  | 18 => let! n := varint in take n ;;; ret receive_max
  | 26 | 28 | 31 => let! n := varint in take n ;;; ret receive_max
  | 33 => let! v := u16 in ret (Some v)
  | 34 => u16 ;;; ret receive_max
  | 36 | 37 | 40 | 41 | 42 => byte ;;; ret receive_max
  | 38 =>
      let! n := varint in take n ;;;
      let! n := varint in take n ;;;
      ret receive_max
  | 39 => take 4 ;;; ret receive_max
  | _ => throw (Malformed "unknown CONNACK property")
  end.

(** An iteration reads a byte at least: the length of the data is fuel
    enough ([wp_connack_loop] of [BenchCodecProofs]). *)
Fixpoint connack_loop (fuel : nat) (rem_end : Z) (receive_max : option Z)
    : io CodecError (option Z) := fun s =>
  if rem_end <? len s then
    match fuel with
    | O => (Diverged, s)
    | S fuel => bind (connack_property receive_max) (connack_loop fuel rem_end) s
    end
  else (Ok receive_max, s).

Definition parse_connack_properties : io CodecError (option Z) :=
  let! block := varint in
  let! r := remaining in
  ensure (negb (r <? block)) Incomplete ;;;
  let rem_end := r - block in
  let! receive_max := connack_loop (Z.to_nat r) rem_end None in
  let! r := remaining in
  ensure (negb (r <? rem_end)) (Malformed "CONNACK property overflow") ;;;
  ret receive_max.

Definition parse_connack (version : Version) : io CodecError Packet :=
  if is_v3 version then
    let! flags := byte in
    let! reason := byte in
    ret (PConnAck reason (negb (Z.land flags 1 =? 0)) None)
  else
    let! reason := byte in
    let! receive_max := parse_connack_properties in
    ret (PConnAck reason false receive_max).

Definition read_pid : io CodecError Z :=
  let! pid := u16 in
  ensure (negb (pid =? 0)) InvalidPacketId ;;;
  ret pid.

Definition parse_publish (version : Version) (flags : Z) : io CodecError Packet :=
  let qos_raw := Z.land (Z.shiftr flags 1) 3 in
  ensure (negb (2 <? qos_raw)) (Malformed "reserved QoS value") ;;;
  let qos := from_u8 qos_raw in
  let! topic := string in
  ensure (negb (len topic =? 0)) (Malformed "empty topic name") ;;;
  let! pid := opt_if (negb (bool_decide (qos = AtMostOnce))) read_pid in
  skip_v5 version ;;;
  let! payload := rest in
  ret (PPublish (mkPublish topic payload qos (negb (Z.land flags 1 =? 0))
                   (negb (Z.land flags 8 =? 0)) pid)).

Definition parse_ack (version : Version) (build : Z -> Z -> Packet) : io CodecError Packet :=
  let! pid := read_pid in
  let! r := remaining in
  let! reason :=
    if is_v5 version && (0 <? r) then
      let! reason := byte in
      let! r := remaining in
      (if 0 <? r then skip_properties ;;; ret tt else ret tt) ;;;
      ret reason
    else ret 0 in
  ret (build pid reason).

Definition subscribe_filter (version : Version) (filters : list (bytes * QoS))
    : io CodecError (list (bytes * QoS)) :=
  let! filter := string in
  let! b := byte in
  ensure (negb (is_v3 version && negb (Z.land b 252 =? 0))) (Malformed "subscription options") ;;;
  ret (filters ++ [(filter, from_u8 (Z.land b 3))]).

(** [while c.remaining() > 0]: the length of the data is fuel enough. *)
Definition while_some {S} (body : S -> io CodecError S) (st : S) : io CodecError S := fun s =>
  while_remaining (length s) body st s.

Definition parse_subscribe (version : Version) (flags : Z) : io CodecError Packet :=
  ensure (flags =? 2) (Malformed "SUBSCRIBE reserved flags") ;;;
  let! pid := read_pid in
  skip_v5 version ;;;
  let! filters := while_some (subscribe_filter version) [] in
  ensure (negb (len filters =? 0)) (Malformed "SUBSCRIBE without filters") ;;;
  ret (PSubscribe pid filters).

Definition parse_suback (version : Version) : io CodecError Packet :=
  let! pid := read_pid in
  skip_v5 version ;;;
  let! reasons := rest in
  ret (PSubAck pid reasons).

Definition unsubscribe_filter (filters : list bytes) : io CodecError (list bytes) :=
  let! filter := string in ret (filters ++ [filter]).

Definition parse_unsubscribe (version : Version) (flags : Z) : io CodecError Packet :=
  ensure (flags =? 2) (Malformed "UNSUBSCRIBE reserved flags") ;;;
  let! pid := read_pid in
  skip_v5 version ;;;
  let! filters := while_some unsubscribe_filter [] in
  ret (PUnsubscribe pid filters).

Definition parse_unsuback (version : Version) : io CodecError Packet :=
  let! pid := read_pid in
  let! reasons := if is_v5 version then skip_properties ;;; rest else ret [] in
  ret (PUnsubAck pid reasons).

Definition parse_disconnect (version : Version) : io CodecError Packet :=
  let! r := remaining in
  let! reason := if is_v5 version && (0 <? r) then byte else ret 0 in
  ret (PDisconnect reason).

Definition parse_body (version : Version) (header : Z) : io CodecError Packet :=
  let kind := Z.shiftr header 4 in
  let flags := Z.land header 15 in
  match kind with
  | 1 => parse_connect version flags
  | 2 => parse_connack version
  | 3 => parse_publish version flags
  | 4 => parse_ack version PPubAck
  | 5 => parse_ack version PPubRec
  | 6 =>
      ensure (flags =? 2) (Malformed "PUBREL reserved flags") ;;;
      parse_ack version PPubRel
  | 7 => parse_ack version PPubComp
  | 8 => parse_subscribe version flags
  | 9 => parse_suback version
  | 10 => parse_unsubscribe version flags
  | 11 => parse_unsuback version
  | 12 => ret PPingReq
  | 13 => ret PPingResp
  | 14 => parse_disconnect version
  | _ => throw (Malformed "reserved packet type")
  end.

(** The cursor is dropped: bytes that a packet leaves are ignored. *)
Definition parse (version : Version) (header : Z) (body : bytes) : outcome CodecError Packet :=
  fst (parse_body version header body).
End decode.

(** ** [mod.rs] *)

Record Codec : Type := mkCodec {
  version : Version;
  max_packet_size : Z;
  want : Z;
}.

Definition Codec_new (version : Version) (max_packet_size : Z) : Codec :=
  mkCodec version (Z.max max_packet_size 64) 0.

Definition frame_hint (c : Codec) : Z := want c.

Definition set_want (c : Codec) (w : Z) : Codec := mkCodec (version c) (max_packet_size c) w.

(** [dst.truncate(n)]. *)
Definition truncate (n : Z) (dst : bytes) : bytes := take (Z.to_nat n) dst.

(** The size reported is computed after the buffer was truncated. *)
Definition Codec_encode (c : Codec) (pkt : Packet) (dst : bytes)
    : outcome CodecError unit * bytes :=
  let before := len dst in
  match encode.encode (version c) pkt dst with
  | (Err e, dst) => (Err e, truncate before dst)
  | (Ok _, dst) =>
      if max_packet_size c <? len dst - before then
        let dst := truncate before dst in
        (Err (PacketTooLarge (len dst - before) (max_packet_size c)), dst)
      else (Ok tt, dst)
  | (o, dst) => (o, dst)
  end.

Fixpoint peek_loop (i value shift : Z) (src : bytes) : outcome CodecError (option (Z * Z)) :=
  match src with
  | [] => Ok None
  | b :: src =>
      let value := Z.lor value (Z.shiftl (Z.land b 127) shift) in
      let shift := shift + 7 in
      if Z.land b 128 =? 0 then Ok (Some (value, i + 1))
      else if i =? 3 then Err (Malformed "variable length integer too long")
      else peek_loop (i + 1) value shift src
  end.

Definition peek_remaining_length (src : bytes) : outcome CodecError (option (Z * Z)) :=
  peek_loop 0 0 0 src.

(** The result, the codec and the buffer afterwards. *)
Definition Codec_decode (c : Codec) (src : bytes)
    : outcome CodecError (option Packet) * Codec * bytes :=
  if len src <? 2 then (Ok None, set_want c 2, src)
  else
    match src with
    | [] => (Panic, c, src)
    | header :: tail =>
        match peek_remaining_length tail with
        | Ok (Some (n, header_len)) =>
            let total := 1 + header_len + n in
            if max_packet_size c <? n then
              (Err (PacketTooLarge n (max_packet_size c)), c, src)
            else if len src <? total then (Ok None, set_want c total, src)
            else
              let c := set_want c 0 in
              match split_to (E := CodecError) total src with
              | (Ok frame, src) =>
                  match decode.parse (version c) header (drop (Z.to_nat (1 + header_len)) frame) with
                  | Ok p => (Ok (Some p), c, src)
                  | Err e => (Err e, c, src)
                  | Panic => (Panic, c, src)
                  | Diverged => (Diverged, c, src)
                  end
              | (_, src) => (Panic, c, src)
              end
        | Ok None => (Ok None, set_want c (len src + 1), src)
        | Err e => (Err e, c, src)
        | Panic => (Panic, c, src)
        | Diverged => (Diverged, c, src)
        end
    end.
