(* ===== verification/BenchCodecProofs.v ===== *)
(** * The load generator's codec against its wire format

    [image] is the frame of every packet that [mqtt-bench] sends;
    [encode] writes it and [parse] reads it back, up to what the version
    does not carry ([normalize]). On arbitrary bytes the parser returns,
    and so does the framing codec. *)

From stdpp Require Import prelude list strings.
From Stdlib Require Import ZArith Lia.
From S2P Require Import Prelude CodecTypes CodecUtils BenchCodec.
Import types.

Local Open Scope Z_scope.

Module BenchProofs.

(** ** Well-formed packets

    The values of the Rust types whose strings fit their length prefix.
    CONNACK cannot be sent; a SUBSCRIBE has a filter. *)

Definition opt_wf {A} (P : A -> Prop) (o : option A) : Prop :=
  match o with Some a => P a | None => True end.

Record wf_connect (c : Connect) : Prop := {
  wfc_keepalive : u16 (keepalive c);
  wfc_client_id : wf_str (client_id c);
  wfc_username : opt_wf wf_str (username c);
  wfc_password : opt_wf wf_bytes (password c);
  wfc_will : opt_wf (fun w => wf_str (w_topic w) /\ wf_bytes (w_payload w)) (will c);
  wfc_expiry : opt_wf u32 (session_expiry c);
}.

Record wf_publish (p : Publish) : Prop := {
  wfp_topic : wf_str (topic p);
  wfp_topic_ne : topic p <> [];
  wfp_payload : u8s (payload p);
  wfp_pid : match qos p with
            | AtMostOnce => pid p = None
            | _ => exists id, pid p = Some id /\ nz u16 id
            end;
}.

Definition wf_packet (p : Packet) : Prop :=
  match p with
  | PConnect c => wf_connect c
  | PConnAck _ _ _ => False
  | PPublish p => wf_publish p
  | PPubAck id r | PPubRec id r | PPubRel id r | PPubComp id r => nz u16 id /\ u8 r
  | PSubscribe id fs => nz u16 id /\ fs <> [] /\ Forall (fun f => wf_str f.1) fs
  | PSubAck id rs | PUnsubAck id rs => nz u16 id /\ u8s rs
  | PUnsubscribe id fs => nz u16 id /\ Forall wf_str fs
  | PPingReq | PPingResp => True
  | PDisconnect r => u8 r
  end.

(** ** The wire format *)

Definition opt_image {A} (f : A -> bytes) (o : option A) : bytes :=
  match o with Some a => f a | None => [] end.

(** The property block of the packets that have no property. *)
Definition no_props (v : Version) : bytes := if is_v5 v then [0] else [].

Definition connect_props (v : Version) (c : Connect) : bytes :=
  match v, session_expiry c with
  | V3, _ => []
  | V5, None => [0]
  | V5, Some se => 5 :: 17 :: be32 se
  end.

Definition will_image (v : Version) (w : Will) : bytes :=
  no_props v ++ str_image (w_topic w) ++ str_image (w_payload w).

(** The reason code is left out when it is zero, or in MQTT 3. *)
Definition reason_image (v : Version) (r : Z) : bytes :=
  if is_v5 v && negb (r =? 0) then [r; 0] else [].

Definition body_image (v : Version) (p : Packet) : bytes :=
  match p with
  | PConnect c =>
      str_image MQTT ++ [level v] ++ [encode.connect_flags c] ++ be16 (keepalive c)
      ++ connect_props v c ++ str_image (client_id c) ++ opt_image (will_image v) (will c)
      ++ opt_image str_image (encode.connect_username c) ++ opt_image str_image (password c)
  | PConnAck _ _ _ => []
  | PPublish p =>
      str_image (topic p) ++ opt_image be16 (pid p) ++ no_props v ++ payload p
  | PPubAck id r | PPubRec id r | PPubRel id r | PPubComp id r => be16 id ++ reason_image v r
  | PSubscribe id fs =>
      be16 id ++ no_props v ++ concat ((fun f => str_image f.1 ++ [as_u8 f.2]) <$> fs)
  | PSubAck id rs => be16 id ++ no_props v ++ rs
  | PUnsubscribe id fs => be16 id ++ no_props v ++ concat (str_image <$> fs)
  | PUnsubAck id rs => be16 id ++ (if is_v5 v then 0 :: rs else [])
  | PPingReq | PPingResp => []
  | PDisconnect r => reason_image v r
  end.

Definition first_byte_of (p : Packet) : Z :=
  match p with
  | PConnect _ => 16
  | PConnAck _ _ _ => 32
  | PPublish p => encode.publish_flags p
  | PPubAck _ _ => 64
  | PPubRec _ _ => 80
  | PPubRel _ _ => 98
  | PPubComp _ _ => 112
  | PSubscribe _ _ => 130
  | PSubAck _ _ => 144
  | PUnsubscribe _ _ => 162
  | PUnsubAck _ _ => 176
  | PPingReq => 192
  | PPingResp => 208
  | PDisconnect _ => 224
  end.

Definition frame (fb : Z) (b : bytes) : bytes := [fb] ++ var_int_image 3 (len b) ++ b.

Definition image (v : Version) (p : Packet) : bytes := frame (first_byte_of p) (body_image v p).

(** What comes back: MQTT 3 carries no reason codes, a password brings a
    user name with it, and the parser skips the properties of CONNECT. *)
Definition normalize (v : Version) (p : Packet) : Packet :=
  let reason r := if is_v5 v then r else 0 in
  match p with
  | PConnect c => PConnect {|
      clean := clean c; keepalive := keepalive c; client_id := client_id c;
      username := encode.connect_username c; password := password c; will := will c;
      session_expiry := None |}
  | PPubAck id r => PPubAck id (reason r)
  | PPubRec id r => PPubRec id (reason r)
  | PPubRel id r => PPubRel id (reason r)
  | PPubComp id r => PPubComp id (reason r)
  | PUnsubAck id rs => PUnsubAck id (if is_v5 v then rs else [])
  | PDisconnect r => PDisconnect (reason r)
  | _ => p
  end.

(** ** The encoder *)

Lemma wf_str_wf_bytes s : wf_str s -> wf_bytes s.
Proof. by intros [? _]. Qed.

Lemma nz_is_u16 v : nz u16 v -> u16 v.
Proof. by intros [? _]. Qed.

Section writing.
Context {E : Type}.

Lemma put_string_writes s : wf_bytes s -> writes (E := E) (encode.put_string s) (str_image s) tt.
Proof.
  intros [_ Hl]. unfold encode.put_string, U16_MAX in *. pose proof (len_nonneg s).
  assert (Hu : u16 (len s)) by (unfold is_u; change (2 ^ 16) with 65536; lia).
  rewrite wrap_small by done.
  eapply writes_bind; [by apply writes_put_u16|apply writes_put_slice].
Qed.

Lemma put_u16_nz_writes v : nz u16 v -> writes (E := E) (put_u16 v) (be16 v) tt.
Proof. intros [Hv _]. by apply writes_put_u16. Qed.

Lemma empty_props_writes v : writes (E := E) (encode.empty_props v) (no_props v) tt.
Proof. destruct v; [apply writes_ret|apply writes_put_u8]. Qed.

Lemma if_some_writes {A} (o : option A) f (w : A -> bytes) :
  opt_wf (fun a => writes (E := E) (f a) (w a) tt) o ->
  writes (encode.if_some o f) (opt_image w o) tt.
Proof. destruct o; [done|intros _; apply writes_ret]. Qed.

Lemma put_u8s_writes (l : bytes) : writes (E := E) (for_each (fun r => put_u8 r) l) l tt.
Proof.
  replace l with (concat ((fun r : Z => [r]) <$> l)) at 2.
  2: { clear. induction l as [|x l IH]; [done|]. csimpl. by rewrite IH. }
  apply writes_for_each. intros x _. apply writes_put_u8.
Qed.

(** The digits, as long as they are the four of the protocol. *)
Lemma put_remaining_length_loop_writes fuel d n :
  (d < fuel)%nat -> 0 <= n < 128 ^ (Z.of_nat d + 1) ->
  writes (E := E) (encode.put_remaining_length_loop fuel n) (var_int_image d n) tt.
Proof.
  revert fuel n. induction d as [|d IH]; intros [|fuel] n Hf Hn; try lia;
    cbn [encode.put_remaining_length_loop var_int_image];
    rewrite land_127, Z.shiftr_div_pow2 by lia; change (2 ^ 7) with 128.
  - change (128 ^ (Z.of_nat 0 + 1)) with 128 in Hn.
    rewrite Z.div_small, Z.mod_small by lia. simpl.
    eapply writes_last; [apply writes_put_u8|apply writes_ret].
  - destruct (Z.ltb_spec n 128).
    { rewrite Z.div_small, Z.mod_small by lia. simpl.
      eapply writes_last; [apply writes_put_u8|apply writes_ret]. }
    assert (0 < n / 128) by (apply Z.div_str_pos; lia).
    rewrite (proj2 (Z.ltb_lt _ _)), (proj2 (Z.eqb_neq (n / 128) 0)) by lia.
    rewrite lor_128 by (apply Z.mod_pos_bound; lia).
    eapply (writes_bind _ _ [_]); [apply writes_put_u8|]. apply IH; [lia|].
    replace (Z.of_nat (S d) + 1) with (1 + (Z.of_nat d + 1)) in Hn by lia.
    rewrite Z.pow_add_r, Z.pow_1_r in Hn by lia.
    split; [lia|apply Z.div_lt_upper_bound; lia].
Qed.

Lemma put_remaining_length_writes n :
  0 <= n <= MAX_PACKET_SIZE ->
  writes (E := E) (encode.put_remaining_length n) (var_int_image 3 n) tt.
Proof.
  intros Hn. apply put_remaining_length_loop_writes; [lia|].
  unfold MAX_PACKET_SIZE in Hn. change (128 ^ (Z.of_nat 3 + 1)) with 268435456. lia.
Qed.
End writing.

Create HintDb bench.
#[export] Hint Resolve wf_str_wf_bytes nz_is_u16 put_string_writes put_u16_nz_writes
  empty_props_writes put_u8s_writes writes_ret writes_put_u8 writes_put_slice
  writes_put_u16 writes_put_u32 : bench.

(** [writes_go]: one field after the other. *)
Ltac writes_go := repeat (eapply writes_bind; [solve [eauto with bench]|]).

Lemma reason_writes {E} v r :
  writes (E := E) (encode.when (is_v5 v && negb (r =? 0)) (put_u8 r ;;; put_u8 encode.EMPTY_PROPS))
    (reason_image v r) tt.
Proof.
  unfold reason_image, encode.when. destruct (is_v5 v && _); [|apply writes_ret].
  eapply (writes_bind _ _ [r] [0]); apply writes_put_u8.
Qed.

Lemma encode_ack_writes v id r :
  nz u16 id -> writes (encode.encode_ack v id r) (be16 id ++ reason_image v r) tt.
Proof.
  intros Hid. apply writes_ensure; [by destruct (Z.eqb_spec id 0), Hid|].
  eapply writes_bind; [eauto with bench|apply reason_writes].
Qed.

Lemma connect_props_writes {E} v c :
  opt_wf u32 (session_expiry c) ->
  writes (E := E) (encode.when (is_v5 v)
    (encode.put_remaining_length (encode.prop_len_u32 (session_expiry c)) ;;;
     encode.if_some (session_expiry c) (fun se => put_u8 17 ;;; put_u32 se)))
    (connect_props v c) tt.
Proof.
  intros Hse. destruct v; [apply writes_ret|]. unfold connect_props. cbn [is_v5 encode.when].
  destruct (session_expiry c) as [se|].
  - eapply (writes_bind _ _ [5]); [by apply (put_remaining_length_writes 5)|].
    eapply (writes_bind _ _ [17]); eauto with bench.
  - eapply writes_last; [by apply (put_remaining_length_writes 0)|apply writes_ret].
Qed.

Lemma connect_username_wf c :
  opt_wf wf_str (username c) -> opt_wf wf_str (encode.connect_username c).
Proof.
  intros H. unfold encode.connect_username.
  destruct (username c); [done|]. destruct (password c); [|done]. by repeat split; try apply Forall_nil.
Qed.

Lemma bench_encode_connect_writes v c :
  wf_connect c -> writes (encode.encode_connect v c) (body_image v (PConnect c)) tt.
Proof.
  intros [Hk Hc Hu Hp Hw Hse]. unfold encode.encode_connect, body_image.
  apply writes_ensure; [by apply Z.leb_le, Hc|].
  eapply writes_bind; [apply put_string_writes; split; [repeat constructor; done|done]|].
  writes_go. eapply writes_bind; [by apply connect_props_writes|].
  writes_go. eapply writes_bind.
  { apply if_some_writes. destruct (will c); [|done]. destruct Hw. simpl.
    unfold will_image. writes_go. eauto with bench. }
  eapply writes_bind.
  { apply if_some_writes. apply connect_username_wf in Hu.
    destruct (encode.connect_username c); simpl in *; eauto with bench. }
  apply if_some_writes. destruct (password c); simpl in *; eauto with bench.
Qed.

Lemma bench_encode_publish_writes v p :
  wf_publish p -> writes (encode.encode_publish v p) (body_image v (PPublish p)) tt.
Proof.
  intros [Ht _ _ Hid]. unfold encode.encode_publish, body_image.
  apply writes_ensure; [by destruct (qos p); [rewrite Hid| |]; try destruct Hid as (? & -> & ?)|].
  apply writes_ensure; [by destruct (qos p); [rewrite Hid| |]; try destruct Hid as (? & -> & ?)|].
  writes_go. eapply writes_bind; [|writes_go; eauto with bench].
  apply if_some_writes.
  assert (Hpid : opt_wf (nz u16) (pid p))
    by (destruct (qos p); [by rewrite Hid|by destruct Hid as (? & -> & ?)..]).
  destruct (pid p) as [id|]; [|done]. simpl in *.
  apply writes_ensure; [by destruct (Z.eqb_spec id 0), Hpid|]. eauto with bench.
Qed.

Lemma writes_ret_value {E A} (m : io E unit) w (a : A) :
  writes m w tt -> writes (m ;;; ret a) w a.
Proof. intros H. eapply writes_last; [done|apply writes_ret]. Qed.

Lemma encode_body_writes v p :
  wf_packet p -> writes (encode.encode_body v p) (body_image v p) (first_byte_of p).
Proof.
  destruct p; intros Hwf; cbn [wf_packet] in Hwf;
    cbn [encode.encode_body body_image first_byte_of]; try done; try apply writes_ret;
    try (destruct Hwf; by apply writes_ret_value, encode_ack_writes).
  - by apply writes_ret_value, bench_encode_connect_writes.
  - by apply writes_ret_value, bench_encode_publish_writes.
  - destruct Hwf as (Hid & _ & Hfs). rewrite Forall_forall in Hfs. writes_go.
    apply writes_ret_value, writes_for_each. intros f Hf. specialize (Hfs f Hf).
    writes_go. eauto with bench.
  - destruct Hwf. unfold encode.suback_body. writes_go. apply writes_ret_value. eauto with bench.
  - destruct Hwf as (Hid & Hfs). rewrite Forall_forall in Hfs. writes_go.
    apply writes_ret_value, writes_for_each. intros f Hf. eauto with bench.
  - destruct Hwf. writes_go. apply writes_ret_value. destruct v; [apply writes_ret|].
    eapply (writes_bind _ _ [0]); eauto with bench.
  - apply writes_ret_value, reason_writes.
Qed.

Lemma bench_encode_writes v p :
  wf_packet p -> len (body_image v p) <= MAX_PACKET_SIZE ->
  writes (encode.encode v p) (image v p) tt.
Proof.
  intros Hwf Hl s. unfold encode.encode. rewrite (encode_body_writes v p Hwf []). simpl app.
  unfold image, frame. eapply writes_bind; [apply writes_put_u8|].
  eapply writes_bind; [|apply writes_put_slice].
  apply put_remaining_length_writes. pose proof (len_nonneg (body_image v p)). lia.
Qed.

(** ** Integers of seven bits a digit *)

Lemma lor_shiftl a b k : 0 <= k -> is_u k a -> Z.lor a (Z.shiftl b k) = a + b * 2 ^ k.
Proof.
  intros Hk Ha. rewrite <- Z.shiftl_mul_pow2 by done.
  assert (Hand : Z.land a (Z.shiftl b k) = 0).
  { apply Z.bits_inj'. intros i Hi. rewrite Z.land_spec, Z.bits_0.
    destruct (Z.lt_ge_cases i k).
    - by rewrite Z.shiftl_spec_low, andb_false_r by lia.
    - rewrite <- (Z.mod_small a (2 ^ k)) by done.
      by rewrite Z.mod_pow2_bits_high by lia. }
  rewrite Z.add_nocarry_lxor by done. symmetry. by apply Z.lxor_lor.
Qed.

(** One more digit. *)
Lemma digit_acc value shift b :
  0 <= shift -> is_u shift value ->
  Z.lor value (Z.shiftl (Z.land b 127) shift) = value + b mod 128 * 2 ^ shift /\
  is_u (shift + 7) (value + b mod 128 * 2 ^ shift).
Proof.
  intros Hs Hv. rewrite land_127, lor_shiftl by done. split; [done|].
  unfold is_u in *. rewrite Z.pow_add_r by lia. change (2 ^ 7) with 128.
  pose proof (Z.mod_pos_bound b 128 ltac:(lia)). nia.
Qed.

(** The digit [n mod 128] with its continuation bit. *)
Lemma digit_more n :
  u8 (n mod 128 + 128) /\ (n mod 128 + 128) mod 128 = n mod 128 /\
  (Z.land (n mod 128 + 128) 128 =? 0) = false.
Proof.
  pose proof (Z.mod_pos_bound n 128 ltac:(lia)).
  assert (Hu : u8 (n mod 128 + 128)) by (unfold is_u; lia). split_and!; [done| |].
  - symmetry. apply (Z.mod_unique_pos _ _ 1); lia.
  - rewrite land_128 by done. apply Z.ltb_ge. lia.
Qed.

Lemma digit_last n :
  0 <= n < 128 -> n mod 128 = n /\ (Z.land n 128 =? 0) = true.
Proof.
  intros Hn. split; [by apply Z.mod_small|].
  rewrite land_128 by (unfold is_u; lia). apply Z.ltb_lt. lia.
Qed.

Lemma digits_rest d n :
  128 <= n < 128 ^ (Z.of_nat (S d) + 1) -> 0 <= n / 128 < 128 ^ (Z.of_nat d + 1).
Proof.
  intros Hn. replace (Z.of_nat (S d) + 1) with (1 + (Z.of_nat d + 1)) in Hn by lia.
  rewrite Z.pow_add_r, Z.pow_1_r in Hn by lia.
  split; [apply Z.div_pos; lia|apply Z.div_lt_upper_bound; lia].
Qed.

Lemma digits_value value shift n :
  0 <= shift -> value + n mod 128 * 2 ^ shift + n / 128 * 2 ^ (shift + 7) = value + n * 2 ^ shift.
Proof.
  intros Hs. rewrite Z.pow_add_r by lia. change (2 ^ 7) with 128.
  pose proof (Z.div_mod n 128 ltac:(lia)). nia.
Qed.

Lemma varint_loop_cons n value shift b s :
  decode.varint_loop (S n) value shift (b :: s) =
    let value := Z.lor value (Z.shiftl (Z.land b 127) shift) in
    if Z.land b 128 =? 0 then (Ok value, s) else decode.varint_loop n value (shift + 7) s.
Proof. cbn [decode.varint_loop]. unfold bind. simpl. by destruct (_ =? 0). Qed.

Lemma varint_loop_image d value shift n s :
  0 <= n < 128 ^ (Z.of_nat d + 1) -> 0 <= shift -> is_u shift value ->
  decode.varint_loop (S d) value shift (var_int_image d n ++ s) = (Ok (value + n * 2 ^ shift), s).
Proof.
  revert value shift n. induction d as [|d IH]; intros value shift n Hn Hs Hv.
  - change (128 ^ (Z.of_nat 0 + 1)) with 128 in Hn. destruct (digit_last n Hn) as [Hm Hb].
    cbn [var_int_image app]. rewrite varint_loop_cons, Hb.
    destruct (digit_acc value shift n Hs Hv) as [-> _]. by rewrite Hm.
  - cbn [var_int_image]. destruct (Z.ltb_spec n 128) as [Hlt|Hge]; cbn [app];
      rewrite varint_loop_cons.
    + destruct (digit_last n ltac:(lia)) as [Hm Hb]. rewrite Hb.
      destruct (digit_acc value shift n Hs Hv) as [-> _]. by rewrite Hm.
    + destruct (digit_more n) as (_ & Hm & Hb). rewrite Hb.
      destruct (digit_acc value shift (n mod 128 + 128) Hs Hv) as [-> Hv']. rewrite Hm in *.
      cbn zeta. rewrite IH; [by rewrite digits_value|by apply digits_rest; lia|lia|done].
Qed.

Lemma varint_reads n : 0 <= n <= MAX_PACKET_SIZE -> reads decode.varint (var_int_image 3 n) n.
Proof.
  intros Hn s. unfold decode.varint, MAX_PACKET_SIZE in *.
  rewrite varint_loop_image; [by rewrite Z.mul_1_r|simpl; lia|lia|done].
Qed.

(** The header: complete, or cut short. *)
Lemma peek_loop_image d i value shift n s :
  0 <= n < 128 ^ (Z.of_nat d + 1) -> 0 <= shift -> is_u shift value -> i + Z.of_nat d <= 3 ->
  peek_loop i value shift (var_int_image d n ++ s) =
    Ok (Some (value + n * 2 ^ shift, i + len (var_int_image d n))).
Proof.
  revert i value shift n. induction d as [|d IH]; intros i value shift n Hn Hs Hv Hi.
  - change (128 ^ (Z.of_nat 0 + 1)) with 128 in Hn. destruct (digit_last n Hn) as [Hm Hb].
    simpl. rewrite Hb. destruct (digit_acc value shift n Hs Hv) as [-> _]. by rewrite Hm.
  - cbn [var_int_image]. destruct (Z.ltb_spec n 128) as [Hlt|Hge].
    + destruct (digit_last n ltac:(lia)) as [Hm Hb]. cbn [peek_loop app]. rewrite Hb.
      destruct (digit_acc value shift n Hs Hv) as [-> _]. by rewrite Hm.
    + destruct (digit_more n) as (_ & Hm & Hb). cbn [peek_loop app]. rewrite Hb.
      rewrite (proj2 (Z.eqb_neq i 3)) by lia.
      destruct (digit_acc value shift (n mod 128 + 128) Hs Hv) as [-> Hv']. rewrite Hm in *.
      rewrite IH; [|by apply digits_rest; lia|lia|done|lia].
      rewrite digits_value, len_cons by done. do 3 f_equal. lia.
Qed.

Lemma peek_image n s :
  0 <= n <= MAX_PACKET_SIZE ->
  peek_remaining_length (var_int_image 3 n ++ s) = Ok (Some (n, len (var_int_image 3 n))).
Proof.
  intros Hn. unfold peek_remaining_length, MAX_PACKET_SIZE in *.
  rewrite peek_loop_image; [by rewrite Z.mul_1_r|simpl; lia|lia|done|lia].
Qed.

(** A strict prefix of the digits is no integer yet. *)
Lemma peek_loop_prefix d i value shift n k :
  0 <= n < 128 ^ (Z.of_nat d + 1) -> i + Z.of_nat d <= 3 ->
  (k < length (var_int_image d n))%nat ->
  peek_loop i value shift (take k (var_int_image d n)) = Ok None.
Proof.
  revert i value shift n k. induction d as [|d IH]; intros i value shift n k Hn Hi Hk.
  - simpl in Hk. by replace k with 0%nat by lia.
  - cbn [var_int_image] in *. destruct (Z.ltb_spec n 128).
    { simpl in Hk. by replace k with 0%nat by lia. }
    destruct k as [|k]; [done|]. destruct (digit_more n) as (_ & Hm & Hb).
    cbn [take peek_loop]. rewrite Hb, (proj2 (Z.eqb_neq i 3)) by lia.
    apply IH; [by apply digits_rest; lia|lia|simpl in Hk; lia].
Qed.

(** ** The parser

    The property block is any block: the load generator skips it. *)

Lemma remaining_reads {A B} (k : Z -> io CodecError B) (w : A) s :
  bind decode.remaining k s = k (len s) s.
Proof. done. Qed.

Lemma take_reads w : reads (decode.take (len w)) w w.
Proof.
  intros s. unfold decode.take, bind, ensure. cbn [decode.remaining].
  rewrite len_app. pose proof (len_nonneg s). rewrite (proj2 (Z.ltb_ge _ _)) by lia.
  apply reads_split_to.
Qed.

Lemma u16_reads v : reads decode.u16 (be16 v) v.
Proof.
  intros s. unfold decode.u16, bind, ensure. cbn [decode.remaining].
  rewrite len_app. pose proof (len_nonneg s). change (len (be16 v)) with 2.
  rewrite (proj2 (Z.ltb_ge _ _)) by lia. apply reads_get_u16.
Qed.

Lemma byte_reads b : reads decode.byte [b] b.
Proof. done. Qed.

Lemma binary_reads b : reads decode.binary (str_image b) b.
Proof. eapply reads_bind; [apply u16_reads|apply take_reads]. Qed.

Lemma string_reads s : wf_str s -> reads decode.string (str_image s) s.
Proof.
  intros [_ Hu]. unfold decode.string, str_image.
  eapply reads_bind; [apply u16_reads|]. eapply reads_last; [apply take_reads|].
  apply reads_ensure; [done|apply reads_ret].
Qed.

Lemma read_pid_reads id : nz u16 id -> reads decode.read_pid (be16 id) id.
Proof.
  intros [_ Hid]. eapply reads_last; [apply u16_reads|].
  apply reads_ensure; [by apply negb_true_iff, Z.eqb_neq|apply reads_ret].
Qed.

Definition props_block (w : bytes) : bytes := var_int_image 3 (len w) ++ w.

Lemma skip_properties_reads w :
  len w <= MAX_PACKET_SIZE -> reads decode.skip_properties (props_block w) (len w).
Proof.
  intros Hw. pose proof (len_nonneg w). eapply reads_bind; [by apply varint_reads|].
  intros s. unfold bind, ensure. cbn [decode.remaining]. rewrite len_app.
  pose proof (len_nonneg s). rewrite (proj2 (Z.ltb_ge _ _)) by lia.
  simpl. by rewrite reads_advance.
Qed.

(** [ps] is what a packet of version [v] has for its properties. *)
Definition block_of (v : Version) (ps : bytes) : Prop :=
  match v with
  | V3 => ps = []
  | V5 => exists w, len w <= MAX_PACKET_SIZE /\ ps = props_block w
  end.

Lemma skip_v5_reads v ps : block_of v ps -> reads (decode.skip_v5 v) ps tt.
Proof.
  destruct v; [intros ->; apply reads_ret|]. intros (w & Hw & ->).
  eapply reads_last; [by apply skip_properties_reads|apply reads_ret].
Qed.

Lemma no_props_block v : block_of v (no_props v).
Proof. destruct v; [done|]. by exists []. Qed.

Lemma connect_props_block v c : block_of v (connect_props v c).
Proof. destruct v; [done|]. simpl. destruct (session_expiry c) as [se|]; [by exists (17 :: be32 se)|by exists []]. Qed.

#[export] Hint Resolve take_reads u16_reads byte_reads binary_reads string_reads read_pid_reads
  skip_v5_reads no_props_block connect_props_block : bench.

Ltac reads_go := repeat (eapply reads_bind; [solve [eauto with bench]|]).
Ltac reads_all_go := repeat (eapply reads_all_bind; [solve [eauto with bench]|]).

Lemma opt_if_reads {A} (m : io CodecError A) (o : option A) (img : A -> bytes) (c : bool) :
  c = bool_decide (is_Some o) -> opt_wf (fun a => reads m (img a) a) o ->
  reads (decode.opt_if c m) (opt_image img o) o.
Proof.
  intros ->. destruct o; simpl; intros H; [|apply reads_ret].
  eapply reads_last; [done|apply reads_ret].
Qed.

(** Every flag of a CONNECT comes back. *)
Lemma bench_connect_flags_ok c :
  let flags := encode.connect_flags c in
  negb (Z.land flags 2 =? 0) = clean c /\
  negb (Z.land flags 4 =? 0) = bool_decide (is_Some (will c)) /\
  negb (Z.land flags 128 =? 0) = bool_decide (is_Some (encode.connect_username c)) /\
  negb (Z.land flags 64 =? 0) = bool_decide (is_Some (password c)) /\
  match will c with
  | Some w =>
      from_u8 (Z.land (Z.shiftr flags 3) 3) = w_qos w /\ negb (Z.land flags 32 =? 0) = w_retain w
  | None => True
  end.
Proof.
  destruct c as [cl ? ? u p w ?]. unfold encode.connect_flags, encode.connect_username. simpl.
  destruct u, p, cl, w as [[? ? [] []]|]; vm_compute; auto 10.
Qed.

Lemma parse_connect_reads v c ps wps :
  wf_connect c -> block_of v ps -> block_of v wps ->
  reads (decode.parse_connect v 0)
    (str_image MQTT ++ [level v] ++ [encode.connect_flags c] ++ be16 (keepalive c)
     ++ ps ++ str_image (client_id c)
     ++ opt_image (fun w => wps ++ str_image (w_topic w) ++ str_image (w_payload w)) (will c)
     ++ opt_image str_image (encode.connect_username c) ++ opt_image str_image (password c))
    (normalize v (PConnect c)).
Proof.
  intros [Hk Hc Hu Hp Hw _] Hps Hwps. unfold decode.parse_connect.
  destruct (bench_connect_flags_ok c) as (Hcl & Hwill & Huser & Hpass & Hwf). cbn zeta in Hwf.
  eapply reads_bind; [apply string_reads; split; [repeat split; repeat constructor; done|done]|].
  apply reads_ensure; [done|]. reads_go. apply reads_ensure; [by destruct v|].
  apply reads_ensure; [by rewrite andb_false_r|]. reads_go.
  eapply reads_bind.
  { apply opt_if_reads; [done|]. destruct (will c) as [w|]; [|done]. destruct Hwf as [Hq Hr], Hw.
    reads_go. rewrite Hq, Hr. eapply reads_last; [eauto with bench|]. by destruct w. }
  eapply reads_bind.
  { apply opt_if_reads; [done|]. apply connect_username_wf in Hu.
    destruct (encode.connect_username c); simpl in *; eauto with bench. }
  eapply reads_last.
  { apply opt_if_reads; [done|]. destruct (password c); simpl in *; eauto with bench. }
  rewrite Hcl. apply reads_ret.
Qed.

Lemma publish_flags_ok p :
  let flags := Z.land (encode.publish_flags p) 15 in
  Z.shiftr (encode.publish_flags p) 4 = 3 /\
  Z.land (Z.shiftr flags 1) 3 = as_u8 (qos p) /\
  negb (Z.land flags 1 =? 0) = retain p /\ negb (Z.land flags 8 =? 0) = dup p.
Proof. destruct p as [? ? q r d ?]. destruct q, r, d; vm_compute; auto. Qed.

Lemma as_u8_from_u8 q : from_u8 (as_u8 q) = q.
Proof. by destruct q. Qed.

Lemma reads_all_ensure {A} c e (m : io CodecError A) w a :
  c = true -> reads_all m w a -> reads_all (ensure c e ;;; m) w a.
Proof. by intros ->. Qed.

Lemma parse_publish_reads v p ps :
  wf_publish p -> block_of v ps ->
  reads_all (decode.parse_publish v (Z.land (encode.publish_flags p) 15))
    (str_image (topic p) ++ opt_image be16 (pid p) ++ ps ++ payload p) (PPublish p).
Proof.
  intros [Ht Hne _ Hid] Hps. unfold decode.parse_publish.
  destruct (publish_flags_ok p) as (_ & Hq & Hr & Hd). cbn zeta in *.
  rewrite Hq, Hr, Hd, as_u8_from_u8.
  apply reads_all_ensure; [by destruct (qos p)|].
  eapply reads_all_bind; [eauto with bench|].
  apply reads_all_ensure.
  { destruct (topic p) as [|x l]; [done|]. rewrite len_cons. pose proof (len_nonneg l).
    by rewrite (proj2 (Z.eqb_neq _ _)) by lia. }
  eapply reads_all_bind.
  { apply (opt_if_reads decode.read_pid (pid p) be16);
      destruct (qos p); try (by rewrite Hid); destruct Hid as (id & -> & Hid);
      try done; simpl; eauto with bench. }
  reads_all_go. unfold reads_all, bind, decode.rest, take_rest, ret. by destruct p.
Qed.

(** An acknowledgement: the identifier, and in MQTT 5 possibly a reason
    and a block. *)
Lemma parse_ack_reads v build id r tail :
  nz u16 id ->
  (tail = [] /\ r = 0 \/
   v = V5 /\ exists ps, tail = r :: ps /\ (ps = [] \/ block_of V5 ps)) ->
  reads_all (decode.parse_ack v build) (be16 id ++ tail) (build id r).
Proof.
  intros Hid Ht. eapply reads_all_bind; [eauto with bench|]. unfold reads_all.
  rewrite (remaining_reads _ tt).
  destruct Ht as [[-> ->]|(-> & ps & -> & Hps)].
  { by rewrite andb_false_r. }
  rewrite len_cons. pose proof (len_nonneg ps). rewrite (proj2 (Z.ltb_lt _ _)) by lia.
  cbn [is_v5 andb]. unfold bind at 1 2. cbn [decode.byte]. rewrite (remaining_reads _ tt).
  destruct Hps as [-> |(w & Hw & ->)]; [done|].
  replace (0 <? len (props_block w)) with true.
  2: { symmetry. apply Z.ltb_lt. unfold props_block. rewrite len_app.
       pose proof (var_int_image_len 3 (len w)). pose proof (len_nonneg w). lia. }
  unfold bind. rewrite <- (app_nil_r (props_block w)).
  by rewrite skip_properties_reads.
Qed.

Lemma while_some_reads {A} (body : list A -> io CodecError (list A)) (w : A -> bytes) l :
  (forall x, x ∈ l -> w x <> [] /\ forall acc, reads (body acc) (w x) (acc ++ [x])) ->
  reads_all (decode.while_some body []) (concat (w <$> l)) l.
Proof.
  intros H. unfold reads_all, decode.while_some.
  rewrite <- (list_fmap_id l) at 3. rewrite <- (app_nil_l (id <$> l)), <- foldl_snoc.
  apply (reads_while_remaining body w (fun x acc => acc ++ [id x])); [done|].
  apply length_concat_ge. intros x Hx. by apply H.
Qed.

Lemma parse_subscribe_reads v id fs ps (opts : bytes * QoS -> Z) :
  nz u16 id -> fs <> [] -> Forall (fun f => wf_str f.1) fs -> block_of v ps ->
  (forall f, from_u8 (Z.land (opts f) 3) = f.2) ->
  (v = V3 -> forall f, Z.land (opts f) 252 = 0) ->
  reads_all (decode.parse_subscribe v 2)
    (be16 id ++ ps ++ concat ((fun f => str_image f.1 ++ [opts f]) <$> fs)) (PSubscribe id fs).
Proof.
  intros Hid Hne Hfs Hps Hq Hres. rewrite Forall_forall in Hfs.
  apply reads_all_ensure; [done|]. reads_all_go. eapply reads_all_last.
  { apply while_some_reads. intros f Hf. specialize (Hfs f Hf).
    split; [by intros [? _]%app_nil|]. intros acc. unfold decode.subscribe_filter.
    eapply reads_bind; [eauto with bench|]. eapply reads_last; [eauto with bench|].
    apply reads_ensure; [|intros s; rewrite Hq; by destruct f].
    destruct v; [|done]. by rewrite Hres. }
  apply reads_all_ensure; [|done]. destruct fs as [|f fs]; [done|]. rewrite len_cons.
  pose proof (len_nonneg fs). by rewrite (proj2 (Z.eqb_neq _ _)) by lia.
Qed.

Lemma parse_unsubscribe_reads v id fs ps :
  nz u16 id -> Forall wf_str fs -> block_of v ps ->
  reads_all (decode.parse_unsubscribe v 2) (be16 id ++ ps ++ concat (str_image <$> fs))
    (PUnsubscribe id fs).
Proof.
  intros Hid Hfs Hps. rewrite Forall_forall in Hfs.
  apply reads_all_ensure; [done|]. reads_all_go. eapply reads_all_last; [|done].
  apply while_some_reads. intros f Hf. specialize (Hfs f Hf). split; [done|]. intros acc.
  eapply reads_last; [eauto with bench|done].
Qed.

Lemma parse_suback_reads v id rs ps :
  nz u16 id -> block_of v ps ->
  reads_all (decode.parse_suback v) (be16 id ++ ps ++ rs) (PSubAck id rs).
Proof. intros Hid Hps. unfold decode.parse_suback. by reads_all_go. Qed.

Lemma parse_unsuback_reads id rs ps :
  nz u16 id -> block_of V5 ps ->
  reads_all (decode.parse_unsuback V5) (be16 id ++ ps ++ rs) (PUnsubAck id rs).
Proof.
  intros Hid (w & Hw & ->). unfold decode.parse_unsuback. reads_all_go.
  eapply reads_all_last; [|done].
  eapply reads_all_bind; [by apply skip_properties_reads|done].
Qed.

Lemma parse_of {A} (m : io CodecError A) w a : reads_all m w a -> fst (m w) = Ok a.
Proof. intros H. by rewrite H. Qed.

(** What the encoder writes the parser reads. *)
Lemma parse_image v p :
  wf_packet p -> decode.parse v (first_byte_of p) (body_image v p) = Ok (normalize v p).
Proof.
  assert (Hack : forall (build : Z -> Z -> Packet) id r, nz u16 id ->
    reads_all (decode.parse_ack v build) (be16 id ++ reason_image v r)
      (build id (if is_v5 v then r else 0))).
  { intros build id r Hid. apply parse_ack_reads; [done|]. unfold reason_image.
    destruct v; [by left|]. destruct (Z.eqb_spec r 0); [by left|right]. split; [done|].
    exists [0]. split; [done|right]. apply (no_props_block V5). }
  destruct p; intros Hwf; cbn [wf_packet] in Hwf; try done; unfold decode.parse;
    try (destruct Hwf as [? ?]; by apply parse_of, (Hack (fun a b => _ a b)));
    lazymatch goal with |- context [PDisconnect] => idtac | _ => apply parse_of end.
  - apply reads_all_intro. apply (parse_connect_reads v c _ _ Hwf); eauto with bench.
  - destruct (publish_flags_ok p) as (Hk & _). unfold decode.parse_body. cbn [first_byte_of].
    rewrite Hk. eapply parse_publish_reads; eauto with bench.
  - destruct Hwf as (Hid & Hne & Hfs).
    eapply (parse_subscribe_reads v _ filters _ (fun f => as_u8 f.2)); eauto with bench;
      intros; [by destruct f as [? []]|by destruct f as [? []]].
  - destruct Hwf. eapply parse_suback_reads; eauto with bench.
  - destruct Hwf. eapply parse_unsubscribe_reads; eauto with bench.
  - destruct Hwf. destruct v; [by apply reads_all_intro, (reads_last _ _ _ _ _ (read_pid_reads _ H))|].
    eapply (parse_unsuback_reads _ reasons [0]); [done|apply (no_props_block V5)].
  - cbn [body_image]. unfold reason_image.
    destruct v; [done|]. cbn [is_v5 andb normalize]. by destruct (Z.eqb_spec reason 0) as [->|].
Qed.

(** ** The parser on arbitrary bytes

    No read passes the end of the body, and every loop reads a byte per
    iteration. *)

Definition reads_some {A} (m : io CodecError A) : Prop :=
  forall s, wp m s (fun _ s' => (length s' < length s)%nat).
Definition reads_any {A} (m : io CodecError A) : Prop :=
  forall s, wp m s (fun _ s' => (length s' <= length s)%nat).

Lemma some_any {A} (m : io CodecError A) : reads_some m -> reads_any m.
Proof. intros H s. eapply wp_mono; [|apply H]. simpl. lia. Qed.

Lemma any_bind {A B} (m : io CodecError A) (k : A -> io CodecError B) :
  reads_any m -> (forall a, reads_any (k a)) -> reads_any (bind m k).
Proof.
  intros Hm Hk s. apply wp_bind. eapply wp_mono; [|apply Hm]. intros a s' Hl.
  eapply wp_mono; [|apply Hk]. simpl in *. intros _ s'' ?. lia.
Qed.

Lemma some_bind {A B} (m : io CodecError A) (k : A -> io CodecError B) :
  reads_some m -> (forall a, reads_any (k a)) -> reads_some (bind m k).
Proof.
  intros Hm Hk s. apply wp_bind. eapply wp_mono; [|apply Hm]. intros a s' Hl.
  eapply wp_mono; [|apply Hk]. simpl in *. intros _ s'' ?. lia.
Qed.

Lemma any_ret {A} (a : A) : reads_any (ret a).
Proof. intros s. by apply wp_ret. Qed.

Lemma any_throw {A} e : reads_any (throw (A := A) e).
Proof. by intros s. Qed.

Lemma any_ensure c e : reads_any (ensure c e).
Proof. intros s. apply wp_ensure. lia. Qed.

Lemma any_remaining : reads_any decode.remaining.
Proof. intros s. unfold wp. simpl. lia. Qed.

Lemma any_rest : reads_any decode.rest.
Proof. intros s. unfold wp. simpl. lia. Qed.

Lemma some_byte : reads_some decode.byte.
Proof. intros [|b s]; unfold wp; simpl; [done|lia]. Qed.

Lemma some_u16 : reads_some decode.u16.
Proof.
  intros s. apply wp_bind, wp_bind, wp_ensure. intros H. apply negb_true_iff, Z.ltb_ge in H.
  unfold len in H. destruct s as [|? [|? s]]; simpl in H; try lia. unfold wp. simpl. lia.
Qed.

Lemma any_take n : reads_any (decode.take n).
Proof.
  intros s. apply wp_bind, wp_bind, wp_ensure. intros H. apply negb_true_iff, Z.ltb_ge in H.
  apply wp_split_to; [done|]. rewrite length_drop. lia.
Qed.

Lemma any_varint_loop n : forall value shift, reads_any (decode.varint_loop n value shift).
Proof.
  induction n as [|n IH]; intros value shift; [apply any_throw|].
  apply any_bind; [apply some_any, some_byte|]. intros b. cbn zeta.
  destruct (_ =? 0); [apply any_ret|apply IH].
Qed.

Lemma some_varint : reads_some decode.varint.
Proof.
  apply some_bind; [apply some_byte|]. intros b. cbn zeta.
  destruct (_ =? 0); [apply any_ret|apply (any_varint_loop 3)].
Qed.

Create HintDb bench_any.
#[export] Hint Resolve any_bind some_bind any_ret any_throw any_ensure any_remaining any_rest
  some_byte some_u16 any_take some_varint : bench_any.
#[export] Hint Extern 3 (reads_any _) => (apply some_any) : bench_any.

Lemma some_skip_properties : reads_some decode.skip_properties.
Proof.
  intros s. apply wp_bind. eapply wp_mono; [|apply some_varint]. intros n s' Hl.
  do 2 apply wp_bind. apply wp_ensure. intros H. apply negb_true_iff, Z.ltb_ge in H.
  apply wp_bind, wp_advance; [done|]. apply wp_ret. rewrite length_drop. simpl in *. lia.
Qed.

Lemma some_string : reads_some decode.string.
Proof. unfold decode.string. auto 10 with bench_any. Qed.

Lemma some_binary : reads_some decode.binary.
Proof. unfold decode.binary. auto 10 with bench_any. Qed.

Lemma some_read_pid : reads_some decode.read_pid.
Proof. unfold decode.read_pid. auto 10 with bench_any. Qed.

#[export] Hint Resolve some_skip_properties some_string some_binary some_read_pid : bench_any.

Lemma any_skip_v5 v : reads_any (decode.skip_v5 v).
Proof. unfold decode.skip_v5. destruct v; simpl; auto with bench_any. Qed.

Lemma any_opt_if {A} c (m : io CodecError A) : reads_any m -> reads_any (decode.opt_if c m).
Proof. unfold decode.opt_if. destruct c; auto with bench_any. Qed.

#[export] Hint Resolve any_skip_v5 any_opt_if : bench_any.

Lemma any_while_some {S} (body : S -> io CodecError S) st :
  (forall st, reads_some (body st)) -> reads_any (decode.while_some body st).
Proof.
  intros Hb s. unfold decode.while_some.
  eapply wp_mono, (wp_while_remaining (fun _ s' => (length s' <= length s)%nat)); [|..]; try lia.
  - by intros a s' [? _].
  - intros st' s' _ Hl. eapply wp_mono; [|apply Hb]. simpl. lia.
Qed.

Lemma some_connack_property m : reads_some (decode.connack_property m).
Proof.
  apply some_bind; [apply some_byte|]. intros id.
  repeat (case_match; auto 10 with bench_any).
Qed.

(** The loop of [parse_connack_properties] ends: a byte per iteration. *)
Lemma wp_connack_loop fuel rem_end m s :
  (length s <= fuel)%nat -> 0 <= rem_end ->
  wp (decode.connack_loop fuel rem_end m) s (fun _ s' => (length s' <= length s)%nat).
Proof.
  intros Hf Hr. revert m s Hf. induction fuel as [|fuel IH]; intros m s Hf; simpl.
  - destruct s; [|simpl in Hf; lia]. unfold wp, len. simpl.
    by rewrite (proj2 (Z.ltb_ge _ _)) by lia.
  - unfold wp. destruct (rem_end <? len s); [|done].
    apply wp_bind. eapply wp_mono; [|apply some_connack_property].
    intros m' s' Hl. eapply wp_mono; [|apply IH; simpl in Hl; lia].
    simpl in *. intros _ s'' ?. lia.
Qed.

Lemma any_connack_properties : reads_any decode.parse_connack_properties.
Proof.
  intros s. apply wp_bind. eapply wp_mono; [|apply some_varint]. intros n s' Hl.
  do 2 apply wp_bind. apply wp_ensure. intros H. apply negb_true_iff, Z.ltb_ge in H.
  apply wp_bind. eapply wp_mono; [|apply wp_connack_loop; [unfold len; lia|lia]].
  intros m s'' Hl'. apply wp_bind, wp_bind, wp_ensure. intros _. apply wp_ret.
  simpl in *. lia.
Qed.

Lemma any_parse_ack v build : reads_any (decode.parse_ack v build).
Proof.
  unfold decode.parse_ack. apply any_bind; [auto with bench_any|]. intros id.
  apply any_bind; [auto with bench_any|]. intros r. apply any_bind; [|auto with bench_any].
  case_match; [|auto with bench_any]. apply any_bind; [auto with bench_any|]. intros code.
  apply any_bind; [auto with bench_any|]. intros r'. apply any_bind; [|auto with bench_any].
  case_match; auto with bench_any.
Qed.

#[export] Hint Resolve any_connack_properties any_parse_ack any_while_some : bench_any.

(** [any_go]: one statement after the other. *)
Ltac any_go :=
  repeat first [apply any_bind; [solve [auto 12 with bench_any]|intros ?]
               |apply any_opt_if | progress cbn zeta].

Lemma some_subscribe_filter v fs : reads_some (decode.subscribe_filter v fs).
Proof. unfold decode.subscribe_filter. auto 10 with bench_any. Qed.

Lemma some_unsubscribe_filter fs : reads_some (decode.unsubscribe_filter fs).
Proof. unfold decode.unsubscribe_filter. auto 10 with bench_any. Qed.

Lemma any_if {A} (c : bool) (m1 m2 : io CodecError A) :
  reads_any m1 -> reads_any m2 -> reads_any (if c then m1 else m2).
Proof. by destruct c. Qed.

#[export] Hint Resolve some_subscribe_filter some_unsubscribe_filter any_if : bench_any.

Lemma any_parse_body v h : reads_any (decode.parse_body v h).
Proof.
  unfold decode.parse_body. cbn zeta.
  repeat (case_match; auto with bench_any);
    unfold decode.parse_connect, decode.parse_connack, decode.parse_publish,
      decode.parse_subscribe, decode.parse_suback, decode.parse_unsubscribe,
      decode.parse_unsuback, decode.parse_disconnect.
  all: try (destruct (is_v3 v)); any_go; auto 12 with bench_any.
Qed.

(** ** The frames of [Codec] *)

Lemma frame_len fb b : len (frame fb b) = 1 + len (var_int_image 3 (len b)) + len b.
Proof. unfold frame. rewrite !len_app. change (len [fb]) with 1. lia. Qed.

Lemma var_int_image_size n :
  0 <= n <= MAX_PACKET_SIZE -> len (var_int_image 3 n) = encode.remaining_length_len n.
Proof.
  intros Hn. unfold encode.remaining_length_len, between. cbn [var_int_image].
  destruct (Z.ltb_spec n 128) as [H1|H1]; [by rewrite (proj2 (Z.leb_le 0 n)), (proj2 (Z.leb_le n 127)) by lia|].
  rewrite (proj2 (Z.leb_gt n 127)), andb_false_r, (proj2 (Z.leb_le 128 n)), len_cons by lia.
  destruct (Z.ltb_spec (n / 128) 128) as [H2|H2].
  { rewrite (proj2 (Z.leb_le n 16383)); [done|]. pose proof (Z.div_mod n 128). pose proof (Z.mod_pos_bound n 128). lia. }
  assert (16384 <= n) by (pose proof (Z.div_mod n 128); pose proof (Z.mod_pos_bound n 128); lia).
  rewrite (proj2 (Z.leb_gt n 16383)), (proj2 (Z.leb_le 16384 n)), len_cons by lia. simpl andb. cbv iota.
  rewrite Z.div_div by lia. change (128 * 128) with 16384.
  pose proof (Z.div_mod n 16384). pose proof (Z.mod_pos_bound n 16384).
  destruct (Z.ltb_spec (n / 16384) 128).
  - rewrite (proj2 (Z.leb_le n 2097151)) by lia. done.
  - rewrite (proj2 (Z.leb_gt n 2097151)) by lia. by rewrite len_cons.
Qed.

(** The bytes that the statistics count for a PUBLISH are those of its frame. *)
Lemma publish_wire_size_exact v p :
  wf_packet (PPublish p) -> len (body_image v (PPublish p)) <= MAX_PACKET_SIZE ->
  encode.publish_wire_size v (topic p) (len (payload p)) (as_u8 (qos p)) = len (image v (PPublish p)).
Proof.
  intros [Ht _ _ Hid] Hl. unfold image. rewrite frame_len.
  pose proof (len_nonneg (body_image v (PPublish p))).
  rewrite var_int_image_size by done. unfold encode.publish_wire_size, encode.string_len.
  assert (Hb : len (body_image v (PPublish p)) =
    2 + len (topic p) + (if 0 <? as_u8 (qos p) then 1 else 0) * 2 + len (payload p)
    + (if is_v5 v then 1 else 0)).
  { cbn [body_image]. unfold str_image, no_props. rewrite !len_app. change (len (be16 (len (topic p)))) with 2.
    assert (Ho : len (opt_image be16 (pid p)) = (if 0 <? as_u8 (qos p) then 1 else 0) * 2)
      by (destruct (qos p); [by rewrite Hid|by destruct Hid as (id & -> & _)..]).
    rewrite Ho. destruct (is_v5 v); [change (len [0]) with 1|change (len []) with 0]; lia. }
  rewrite Hb. cbv zeta. lia.
Qed.

Lemma frame_min fb b : 2 <= len (frame fb b) /\ len b < len (frame fb b).
Proof.
  rewrite frame_len. pose proof (var_int_image_len 3 (len b)). pose proof (len_nonneg b). lia.
Qed.

Lemma put_remaining_length_loop_grows {E} fuel n s s' :
  encode.put_remaining_length_loop (E := E) fuel n s = (Ok tt, s') -> len s <= len s'.
Proof.
  revert n s. induction fuel as [|fuel IH]; intros n s; [done|].
  cbn [encode.put_remaining_length_loop]. unfold bind. cbn [put_u8 put_slice].
  destruct (_ =? 0); [intros [= <-]|intros H%IH]; rewrite len_app in *;
    [change (len [_]) with 1|change (len [_]) with 1 in H]; lia.
Qed.

(** What the encoder accepts fits the limit of the codec. *)
Lemma Codec_encode_accepts c p dst dst' :
  wf_packet p -> max_packet_size c <= MAX_PACKET_SIZE ->
  Codec_encode c p dst = (Ok tt, dst') ->
  dst' = dst ++ image (version c) p /\ len (image (version c) p) <= max_packet_size c.
Proof.
  intros Hwf Hmax. unfold Codec_encode.
  destruct (Z.le_gt_cases (len (body_image (version c) p)) MAX_PACKET_SIZE) as [Hb|Hb].
  - rewrite (bench_encode_writes (version c) p Hwf Hb dst). rewrite len_app.
    destruct (Z.ltb_spec (max_packet_size c) (len dst + len (image (version c) p) - len dst));
      [done|]. intros [= <-]. split; [done|lia].
  - unfold encode.encode. rewrite (encode_body_writes (version c) p Hwf []). simpl app.
    unfold bind. cbn [put_u8 put_slice]. unfold encode.put_remaining_length.
    destruct (encode.put_remaining_length_loop _ _ _) as [[[]|e| |] s] eqn:Hs; try done.
    apply put_remaining_length_loop_grows in Hs. rewrite len_app in Hs.
    change (len [first_byte_of p]) with 1 in Hs. cbn [put_slice]. rewrite len_app.
    rewrite (proj2 (Z.ltb_lt _ _)) by lia. done.
Qed.

(** And the other way round. *)
Lemma Codec_encode_image c p dst :
  wf_packet p -> len (image (version c) p) <= max_packet_size c <= MAX_PACKET_SIZE ->
  Codec_encode c p dst = (Ok tt, dst ++ image (version c) p).
Proof.
  intros Hwf Hl. pose proof (frame_min (first_byte_of p) (body_image (version c) p)) as [_ Hb].
  fold (image (version c) p) in Hb. unfold Codec_encode.
  rewrite (bench_encode_writes (version c) p Hwf ltac:(lia) dst), len_app.
  by rewrite (proj2 (Z.ltb_ge _ _)) by lia.
Qed.

(** A complete frame, whatever follows it. *)
Lemma Codec_decode_parses c fb b s :
  len b <= max_packet_size c <= MAX_PACKET_SIZE ->
  Codec_decode c (frame fb b ++ s) =
    (match decode.parse (version c) fb b with
     | Ok q => Ok (Some q) | Err e => Err e | Panic => Panic | Diverged => Diverged
     end, set_want c 0, s).
Proof.
  intros Hl. pose proof (frame_len fb b) as Hlen.
  pose proof (var_int_image_len 3 (len b)). pose proof (len_nonneg s). pose proof (len_nonneg b).
  unfold Codec_decode. rewrite len_app, (proj2 (Z.ltb_ge _ _)) by lia.
  assert (Himg : frame fb b ++ s = fb :: var_int_image 3 (len b) ++ b ++ s)
    by (unfold frame; by rewrite <- !app_assoc).
  rewrite Himg at 1. rewrite peek_image by lia.
  rewrite (proj2 (Z.ltb_ge (max_packet_size c) (len b))) by lia.
  rewrite (proj2 (Z.ltb_ge (len (frame fb b) + len s) _)) by lia.
  rewrite <- Hlen, reads_split_to. cbn [version set_want].
  replace (drop _ (frame fb b)) with b; [by destruct (decode.parse _ _ _)|].
  unfold frame. rewrite app_assoc.
  replace (1 + len (var_int_image 3 (len b))) with (len ([fb] ++ var_int_image 3 (len b)))
    by (by rewrite len_app).
  by rewrite drop_len.
Qed.

Lemma Codec_decode_frame c fb b q s :
  decode.parse (version c) fb b = Ok q -> len b <= max_packet_size c <= MAX_PACKET_SIZE ->
  Codec_decode c (frame fb b ++ s) = (Ok (Some q), set_want c 0, s).
Proof. intros Hq Hl. rewrite Codec_decode_parses by done. by rewrite Hq. Qed.

(** A frame cut short: nothing is consumed, and the hint asks for more. *)
Lemma Codec_decode_prefix c fb b k :
  len b <= max_packet_size c <= MAX_PACKET_SIZE -> (k < length (frame fb b))%nat ->
  exists h, Codec_decode c (take k (frame fb b)) = (Ok None, set_want c h, take k (frame fb b)) /\
            Z.of_nat k < h <= len (frame fb b).
Proof.
  intros Hl Hk. pose proof (frame_min fb b) as [Hmin _].
  pose proof (frame_len fb b) as Hlen. revert Hk Hlen Hmin. unfold frame.
  set (vi := var_int_image 3 (len b)). simpl app.
  set (img := vi ++ b). intros Hk Hlen Hmin. pose proof (len_nonneg b).
  pose proof (var_int_image_len 3 (len b)) as Hvi. fold vi in Hvi, Hlen.
  assert (Htk : len (take k (fb :: img)) = Z.of_nat k)
    by (unfold len; rewrite length_take; lia).
  unfold Codec_decode. rewrite Htk.
  destruct (Z.ltb_spec (Z.of_nat k) 2); [exists 2; split; [done|lia]|].
  destruct k as [|k]; [lia|]. cbn [take]. unfold img.
  destruct (decide (k < length vi)%nat) as [Hs|Hge].
  - rewrite take_app_le by lia. unfold peek_remaining_length, vi.
    rewrite peek_loop_prefix; [|unfold MAX_PACKET_SIZE in *; simpl; lia|lia|done].
    eexists. split; [done|]. fold vi img. rewrite Hlen. unfold len in *. lia.
  - rewrite take_app_ge by lia. unfold vi at 1 3. rewrite peek_image by lia. fold vi.
    rewrite (proj2 (Z.ltb_ge (max_packet_size c) (len b))) by lia.
    rewrite len_cons in Hlen. simpl length in Hk.
    rewrite (proj2 (Z.ltb_lt _ _)).
    2: { unfold img, len in *. lia. }
    eexists. split; [done|]. fold img. rewrite len_cons, Hlen. unfold img, len in *. lia.
Qed.

(** On any bytes the codec returns; without a packet it keeps the bytes
    and asks for more than it has. *)
Lemma Codec_decode_total c src :
  match Codec_decode c src with
  | (Ok (Some _), c', src') =>
      c' = set_want c 0 /\ exists frame, src = frame ++ src' /\ 2 <= len frame
  | (Ok None, c', src') => src' = src /\ exists h, c' = set_want c h /\ len src < h
  | (Err _, _, src') => exists frame, src = frame ++ src'
  | (Panic, _, _) | (Diverged, _, _) => False
  end.
Proof.
  unfold Codec_decode. destruct (Z.ltb_spec (len src) 2).
  { split; [done|]. by exists 2. }
  destruct src as [|h tail]; [done|].
  assert (Hpeek : forall i value shift s, 0 <= i -> 0 <= value -> 0 <= shift ->
    match peek_loop i value shift s with
    | Ok (Some (n, k)) => 0 <= n /\ i < k
    | Ok None | Err _ => True
    | _ => False
    end).
  { clear. intros i value shift s. revert i value shift.
    induction s as [|b s IH]; intros i value shift Hi Hv Hs; simpl; [done|].
    assert (0 <= Z.lor value (Z.shiftl (Z.land b 127) shift)).
    { apply Z.lor_nonneg. split; [done|]. apply Z.shiftl_nonneg. rewrite land_127.
      pose proof (Z.mod_pos_bound b 128). lia. }
    destruct (_ =? 0); [split; [done|lia]|]. destruct (i =? 3); [done|].
    specialize (IH (i + 1) (Z.lor value (Z.shiftl (Z.land b 127) shift)) (shift + 7)
                  ltac:(lia) ltac:(done) ltac:(lia)).
    destruct (peek_loop _ _ _ _) as [[[n k]|]|e| |]; try done. destruct IH. split; [done|lia]. }
  specialize (Hpeek 0 0 0 tail ltac:(lia) ltac:(lia) ltac:(lia)). fold (peek_remaining_length tail) in Hpeek.
  destruct (peek_remaining_length tail) as [[[n k]|]|e| |]; try done.
  2: { split; [done|]. eexists. split; [done|lia]. }
  2: { by exists []. }
  destruct (max_packet_size c <? n); [by exists []|].
  destruct (Z.ltb_spec (len (h :: tail)) (1 + k + n)).
  { split; [done|]. by eexists. }
  unfold split_to. rewrite (proj2 (Z.leb_le _ _)) by lia.
  pose proof (wp_returns _ _ _ (any_parse_body (version c) h
    (drop (Z.to_nat (1 + k)) (take (Z.to_nat (1 + k + n)) (h :: tail))))) as Hret.
  fold (decode.parse (version c) h (drop (Z.to_nat (1 + k)) (take (Z.to_nat (1 + k + n)) (h :: tail)))) in Hret.
  cbn [version set_want].
  assert (Hcut : h :: tail = take (Z.to_nat (1 + k + n)) (h :: tail) ++ drop (Z.to_nat (1 + k + n)) (h :: tail))
    by (by rewrite take_drop).
  destruct (decode.parse _ _ _); try done.
  - split; [done|]. eexists. split; [apply Hcut|]. unfold len in *. rewrite length_take. lia.
  - eexists. apply Hcut.
Qed.
(** ** Images are bytes *)

Lemma bench_opt_image_u8s {A} (f : A -> bytes) o :
  opt_wf (fun a => u8s (f a)) o -> u8s (opt_image f o).
Proof. destruct o; [done|constructor]. Qed.

Lemma str_u8s s : wf_bytes s -> u8s (str_image s).
Proof. auto with wire. Qed.

Lemma nz_be16_u8s v : nz u16 v -> u8s (be16 v).
Proof. intros [? _]. auto with wire. Qed.

Lemma u8s_one b : u8 b -> u8s [b].
Proof. intros. by apply Forall_singleton. Qed.

Lemma no_props_u8s v : u8s (no_props v).
Proof. destruct v; [constructor|by apply u8s_one]. Qed.

Lemma reason_u8s v r : u8 r -> u8s (reason_image v r).
Proof.
  intros Hr. unfold reason_image. destruct (_ && _); [|constructor].
  apply Forall_cons. split; [done|by apply u8s_one].
Qed.

Lemma bench_connect_flags_u8 c : u8 (encode.connect_flags c).
Proof.
  destruct c as [cl ? ? u p w ?]. unfold encode.connect_flags, encode.connect_username. simpl.
  destruct u, p, cl, w as [[? ? [] []]|]; done.
Qed.

Lemma connect_props_u8s v c : opt_wf u32 (session_expiry c) -> u8s (connect_props v c).
Proof.
  unfold connect_props. destruct v; [constructor|].
  destruct (session_expiry c) as [se|]; [|by intros _; apply u8s_one]. intros Hse. simpl in Hse.
  apply Forall_cons. split; [done|]. apply Forall_cons. split; [done|]. unfold be32, is_u in *.
  change (2 ^ 32) with 4294967296 in Hse.
  repeat (apply Forall_cons; split); [..|constructor]; change (2 ^ 8) with 256;
    try (apply Z.mod_pos_bound; lia).
  split; [apply Z.div_pos; lia|apply Z.div_lt_upper_bound; lia].
Qed.

#[export] Hint Resolve bench_opt_image_u8s str_u8s nz_be16_u8s u8s_one no_props_u8s reason_u8s
  bench_connect_flags_u8 connect_props_u8s be16_u8s : bench.

Ltac u8s_go :=
  repeat lazymatch goal with |- u8s (_ ++ _) => apply u8s_app; split end; auto with bench.

Lemma bench_body_image_u8s v p : wf_packet p -> u8s (body_image v p).
Proof.
  assert (Hl : forall A (f : A -> bytes) l, Forall (fun x => u8s (f x)) l -> u8s (concat (f <$> l))).
  { intros A f l H. rewrite Forall_forall in H. by apply u8s_concat. }
  destruct p as [c| |p| | | | |id fs|id rs|id fs|id rs| | |]; intros Hwf; cbn [wf_packet] in Hwf;
    cbn [body_image]; try (by constructor); try (destruct Hwf; by u8s_go); try by u8s_go.
  - destruct Hwf as [Hk Hc Hu Hp Hw Hse]. apply connect_username_wf in Hu. u8s_go.
    + apply str_u8s. split; [by repeat constructor|done].
    + by destruct v; apply u8s_one.
    + apply bench_opt_image_u8s. destruct (will c) as [w|]; [|done]. destruct Hw. cbn [opt_wf].
      unfold will_image. u8s_go.
    + apply bench_opt_image_u8s. destruct (encode.connect_username c); [|done]. simpl in *. auto with bench.
    + apply bench_opt_image_u8s. destruct (password c); [|done]. simpl in *. auto with bench.
  - destruct Hwf as [Ht _ Hpl Hid]. u8s_go. apply bench_opt_image_u8s.
    destruct (qos p); [by rewrite Hid|by destruct Hid as (? & -> & ?); simpl; auto with bench..].
  - destruct Hwf as (Hid & _ & Hfs). u8s_go. apply Hl. eapply Forall_impl; [done|].
    intros f Hf. simpl in Hf. cbn beta. u8s_go. apply u8s_one. by destruct f as [? []].
  - destruct Hwf as (Hid & Hfs). u8s_go. apply Hl. eapply Forall_impl; [done|].
    intros f Hf. simpl in Hf. auto with bench.
  - destruct Hwf as (Hid & Hrs). u8s_go. destruct v; [constructor|]. by apply Forall_cons.
Qed.

Lemma bench_first_byte_u8 p : u8 (first_byte_of p).
Proof. destruct p as [c| |p| | | | |id fs|id rs|id fs|id rs| | |]; try done.
  destruct p as [? ? q r d ?]. by destruct q, r, d. Qed.
End BenchProofs.
