(* ===== verification/BenchTransport.v ===== *)
(** * The load generator's transport: [oximqtt-bench/src/transport.rs]

    [Reader] and [Writer] over the two halves of a TCP stream. The stream
    of a reader is the segments the socket will deliver, one [read] taking
    from one segment at most, and whether it ends by a reset; that of a
    writer is what has been written to the socket. Waiting for the socket
    is not modelled: a read that has to wait returns what arrives. *)

From stdpp Require Import prelude list strings.
From Stdlib Require Import ZArith Lia.
From S2P Require Import Prelude CodecTypes CodecUtils BenchCodec BenchCodecProofs.
Import types BenchProofs.

Local Open Scope Z_scope.

Definition TRANSPORT_MAX_PACKET_SIZE : Z := 4 * 1024 * 1024.
Definition FLUSH_THRESHOLD : Z := 32 * 1024.

(** The [io::Error]s: of the two [map_err]s, the two that [read_packet]
    makes, and those of the socket. *)
Inductive IoError : Type :=
| DecodeFailed (e : CodecError)
| EncodeFailed (e : CodecError)
| FrameTooLarge
| ConnectionClosed
| SocketError.

(** ** Reading *)

Record Stream : Type := mkStream {
  segments : list bytes;
  reset : bool;
}.

Fixpoint next_segment (n : nat) (segs : list bytes) : bytes * list bytes :=
  match segs with
  | [] => ([], [])
  | [] :: segs => next_segment n segs
  | seg :: segs => (take n seg, drop n seg :: segs)
  end.

(** [stream.read(&mut [0u8; n])]: no bytes when the peer has closed. *)
Definition read (n : Z) (s : Stream) : outcome IoError bytes * Stream :=
  match next_segment (Z.to_nat n) (segments s) with
  | ([], segs) => (if reset s then Err SocketError else Ok [], mkStream segs (reset s))
  | (tmp, segs) => (Ok tmp, mkStream segs (reset s))
  end.

Record Reader : Type := mkReader {
  rd_stream : Stream;
  rd_buf : bytes;
  rd_codec : Codec;
}.

Definition connect_reader (s : Stream) (version : Version) : Reader :=
  mkReader s [] (Codec_new version TRANSPORT_MAX_PACKET_SIZE).

(** [x.clamp(lo, hi)]. *)
Definition clamp (x lo hi : Z) : Z := if x <? lo then lo else if hi <? x then hi else x.

Fixpoint read_packet_loop (fuel : nat) (r : Reader) : outcome IoError Packet * Reader :=
  match fuel with
  | O => (Diverged, r)
  | S fuel =>
      match Codec_decode (rd_codec r) (rd_buf r) with
      | (Ok (Some pkt), codec, buf) => (Ok pkt, mkReader (rd_stream r) buf codec)
      | (Ok None, codec, buf) =>
          if TRANSPORT_MAX_PACKET_SIZE <=? len buf then
            (Err FrameTooLarge, mkReader (rd_stream r) buf codec)
          else
            let want := clamp (frame_hint codec) 1 (16 * 1024) in
            match read want (rd_stream r) with
            | (Ok tmp, stream) =>
                if len tmp =? 0 then (Err ConnectionClosed, mkReader stream buf codec)
                else read_packet_loop fuel (mkReader stream (buf ++ tmp) codec)
            | (Err e, stream) => (Err e, mkReader stream buf codec)
            | (Panic, stream) => (Panic, mkReader stream buf codec)
            | (Diverged, stream) => (Diverged, mkReader stream buf codec)
            end
      | (Err e, codec, buf) => (Err (DecodeFailed e), mkReader (rd_stream r) buf codec)
      | (Panic, codec, buf) => (Panic, mkReader (rd_stream r) buf codec)
      | (Diverged, codec, buf) => (Diverged, mkReader (rd_stream r) buf codec)
      end
  end.

(** The bytes that the socket has yet to deliver. *)
Definition pending (s : Stream) : nat := length (concat (segments s)).

(** A round reads a byte or returns: the bytes to come are fuel enough. *)
Definition read_packet (r : Reader) : outcome IoError Packet * Reader :=
  read_packet_loop (S (pending (rd_stream r))) r.

Definition Reader_close (r : Reader) : Reader := mkReader (rd_stream r) [] (rd_codec r).

(** A client reads until it is told of an error. *)
Fixpoint read_packets (fuel : nat) (r : Reader) : list Packet * outcome IoError unit :=
  match fuel with
  | O => ([], Diverged)
  | S fuel =>
      match read_packet r with
      | (Ok p, r) => let '(ps, e) := read_packets fuel r in (p :: ps, e)
      | (Err e, _) => ([], Err e)
      | (Panic, _) => ([], Panic)
      | (Diverged, _) => ([], Diverged)
      end
  end.

(** ** Writing *)

Record Writer : Type := mkWriter {
  wr_sent : bytes;
  wr_broken : bool;
  wr_shutdown : bool;
  wr_buf : bytes;
  wr_codec : Codec;
}.

Definition connect_writer (version : Version) : Writer :=
  mkWriter [] false false [] (Codec_new version TRANSPORT_MAX_PACKET_SIZE).

(** [buf.split().freeze()] takes the bytes out before they are written. *)
Definition flush (w : Writer) : outcome IoError unit * Writer :=
  if len (wr_buf w) =? 0 then (Ok tt, w)
  else if wr_broken w then
    (Err SocketError, mkWriter (wr_sent w) true (wr_shutdown w) [] (wr_codec w))
  else
    (Ok tt, mkWriter (wr_sent w ++ wr_buf w) false (wr_shutdown w) [] (wr_codec w)).

Definition send (w : Writer) (pkt : Packet) : outcome IoError unit * Writer :=
  match Codec_encode (wr_codec w) pkt (wr_buf w) with
  | (Ok _, buf) =>
      let w := mkWriter (wr_sent w) (wr_broken w) (wr_shutdown w) buf (wr_codec w) in
      if FLUSH_THRESHOLD <=? len buf then flush w else (Ok tt, w)
  | (Err e, buf) =>
      (Err (EncodeFailed e), mkWriter (wr_sent w) (wr_broken w) (wr_shutdown w) buf (wr_codec w))
  | (Panic, buf) => (Panic, mkWriter (wr_sent w) (wr_broken w) (wr_shutdown w) buf (wr_codec w))
  | (Diverged, buf) =>
      (Diverged, mkWriter (wr_sent w) (wr_broken w) (wr_shutdown w) buf (wr_codec w))
  end.

(** [let _ = self.flush().await; let _ = self.stream.shutdown().await]. *)
Definition Writer_close (w : Writer) : Writer :=
  let '(_, w) := flush w in
  mkWriter (wr_sent w) (wr_broken w) true (wr_buf w) (wr_codec w).

(** [for pkt in pending.drain(..) { wr.send(&pkt).await?; }]. *)
Fixpoint send_all (w : Writer) (ps : list Packet) : outcome IoError unit * Writer :=
  match ps with
  | [] => (Ok tt, w)
  | p :: ps =>
      match send w p with
      | (Ok _, w) => send_all w ps
      | stop => stop
      end
  end.

(** ** The writer *)

Definition writer_ok (v : Version) (w : Writer) : Prop :=
  version (wr_codec w) = v /\ max_packet_size (wr_codec w) = TRANSPORT_MAX_PACKET_SIZE.

Definition stream_image (v : Version) (ps : list Packet) : bytes := concat (image v <$> ps).

Lemma flush_ok w w' :
  flush w = (Ok tt, w') ->
  wr_sent w' ++ wr_buf w' = wr_sent w ++ wr_buf w /\ wr_buf w' = [] /\ wr_codec w' = wr_codec w.
Proof.
  unfold flush. destruct (Z.eqb_spec (len (wr_buf w)) 0) as [H|H].
  - intros [= <-]. split; [done|]. split; [|done]. destruct (wr_buf w); [done|].
    rewrite len_cons in H. pose proof (len_nonneg l). lia.
  - destruct (wr_broken w); [done|]. intros [= <-]. cbn [wr_sent wr_buf wr_codec].
    by rewrite app_nil_r.
Qed.

(** An accepted packet is appended to what was sent and is buffered. *)
Lemma send_ok v w p w' :
  writer_ok v w -> wf_packet p -> send w p = (Ok tt, w') ->
  writer_ok v w' /\ wr_sent w' ++ wr_buf w' = (wr_sent w ++ wr_buf w) ++ image v p /\
  len (image v p) <= TRANSPORT_MAX_PACKET_SIZE.
Proof.
  intros [Hv Hm] Hwf. unfold send.
  destruct (Codec_encode (wr_codec w) p (wr_buf w)) as [[[]|e| |] buf] eqn:He; try done.
  apply Codec_encode_accepts in He as [-> Hl]; [|done|by rewrite Hm].
  rewrite Hv, Hm in *. destruct (_ <=? _).
  - intros (Hs & _ & Hc)%flush_ok. cbn [wr_sent wr_buf wr_codec] in *.
    unfold writer_ok. rewrite Hc, Hs, app_assoc. by repeat split.
  - intros [= <-]. cbn [wr_sent wr_buf wr_codec]. rewrite app_assoc. by repeat split.
Qed.

Lemma send_all_ok v w ps w' :
  writer_ok v w -> Forall wf_packet ps -> send_all w ps = (Ok tt, w') ->
  wr_sent w' ++ wr_buf w' = (wr_sent w ++ wr_buf w) ++ stream_image v ps /\
  Forall (fun p => len (image v p) <= TRANSPORT_MAX_PACKET_SIZE) ps.
Proof.
  intros Hw Hps. revert w Hw. induction Hps as [|p ps Hp Hps IH]; intros w Hw; simpl.
  - intros [= <-]. unfold stream_image. simpl. by rewrite app_nil_r.
  - destruct (send w p) as [[[]|e| |] w1] eqn:Hs; try done.
    destruct (send_ok v w p w1 Hw Hp Hs) as (Hw1 & Heq & Hl). intros H.
    destruct (IH w1 Hw1 H) as [IHeq IHl]. split; [|by constructor].
    rewrite IHeq, Heq, <- !app_assoc. unfold stream_image. by csimpl.
Qed.

(** ** The reader *)

Definition reader_ok (v : Version) (r : Reader) : Prop :=
  version (rd_codec r) = v /\ max_packet_size (rd_codec r) = TRANSPORT_MAX_PACKET_SIZE.

(** What is buffered and what is to come. *)
Definition to_read (r : Reader) : bytes := rd_buf r ++ concat (segments (rd_stream r)).

Lemma next_segment_spec n segs tmp segs' :
  (0 < n)%nat -> next_segment n segs = (tmp, segs') ->
  concat segs = tmp ++ concat segs' /\ (tmp = [] -> concat segs = []).
Proof.
  intros Hn. induction segs as [|[|b seg] segs IH]; simpl.
  - by intros [= <- <-].
  - done.
  - destruct n as [|n]; [lia|]. intros [= <- <-]. simpl.
    rewrite app_assoc, take_drop. by split.
Qed.

Lemma clamp_pos x : 0 < clamp x 1 (16 * 1024).
Proof. unfold clamp. destruct (Z.ltb_spec x 1); [lia|]. destruct (_ <? _); lia. Qed.

Lemma read_spec n s :
  0 < n ->
  match read n s with
  | (Ok [], s') => concat (segments s) = [] /\ reset s = false
  | (Ok tmp, s') => concat (segments s) = tmp ++ concat (segments s') /\ reset s' = reset s
  | (Err e, s') => concat (segments s) = [] /\ reset s = true /\ e = SocketError
  | _ => False
  end.
Proof.
  intros Hn. unfold read. destruct (next_segment _ _) as [tmp segs] eqn:Hs.
  apply next_segment_spec in Hs as [Heq Hnil]; [|lia].
  destruct tmp as [|b tmp]; [|done]. destruct (reset s); auto.
Qed.

(** The buffer holds the frame that the stream begins with, or a strict
    prefix of it. *)
Lemma buffer_cases (img buf later rest : bytes) :
  buf ++ later = img ++ rest ->
  (exists k, buf = img ++ k /\ rest = k ++ later) \/
  ((length buf < length img)%nat /\ buf = take (length buf) img /\ later <> []).
Proof.
  intros H. apply app_eq_inv in H as [H|(k & Hk & Hl)]; [by left|].
  destruct k as [|b k].
  - left. exists []. rewrite app_nil_r in *. by subst.
  - right. rewrite Hk, length_app, take_app_length, Hl. simpl. split_and!; [lia|done|done].
Qed.

(** One packet from a stream that begins with its frame. *)
Lemma read_packet_frame v fb b q rest fuel r :
  reader_ok v r -> decode.parse v fb b = Ok q ->
  len (frame fb b) <= TRANSPORT_MAX_PACKET_SIZE ->
  to_read r = frame fb b ++ rest -> (pending (rd_stream r) < fuel)%nat ->
  exists r', read_packet_loop fuel r = (Ok q, r') /\
    reader_ok v r' /\ to_read r' = rest /\ reset (rd_stream r') = reset (rd_stream r).
Proof.
  intros Hr Hq Hl. revert r Hr. induction fuel as [|fuel IH]; intros r [Hv Hm] Hto Hf; [lia|].
  pose proof (frame_min fb b) as [Hmin Hb]. cbn [read_packet_loop].
  assert (Hlim : len b <= max_packet_size (rd_codec r) <= MAX_PACKET_SIZE)
    by (rewrite Hm; split; [lia|done]).
  destruct (buffer_cases _ _ _ _ Hto) as [(k & Hk & Hrest)|(Hshort & Hbuf & Hlater)].
  - rewrite Hk, (Codec_decode_frame _ _ _ q) by (rewrite ?Hv; done). eexists. split; [done|].
    unfold to_read. by repeat split.
  - destruct (Codec_decode_prefix (rd_codec r) fb b (length (rd_buf r)) Hlim) as (h & Hd & Hh);
      [done|].
    rewrite <- Hbuf in Hd. rewrite Hd.
    rewrite (proj2 (Z.leb_gt _ _)) by (unfold len in *; lia).
    pose proof (read_spec _ (rd_stream r) (clamp_pos (frame_hint (set_want (rd_codec r) h)))) as Hread.
    destruct (read _ _) as [[[|x tmp]|e| |] s'] eqn:Hrd; try done; try (by destruct Hread).
    destruct Hread as [Hcat Hres]. rewrite len_cons. pose proof (len_nonneg tmp).
    rewrite (proj2 (Z.eqb_neq _ _)) by lia.
    destruct (IH (mkReader s' (rd_buf r ++ x :: tmp) (set_want (rd_codec r) h)))
      as (r' & Hr' & Hok & Hto' & Hres').
    { done. }
    { rewrite <- Hto. unfold to_read. cbn [rd_buf rd_stream]. by rewrite Hcat, <- app_assoc. }
    { unfold pending in *. rewrite Hcat, length_app in Hf. simpl in *. lia. }
    exists r'. split_and!; try done. by rewrite Hres'.
Qed.

(** How the stream ends. *)
Definition end_of (s : Stream) : IoError := if reset s then SocketError else ConnectionClosed.

Lemma read_packet_end v r :
  reader_ok v r -> to_read r = [] ->
  exists r', read_packet r = (Err (end_of (rd_stream r)), r').
Proof.
  intros Hr Hto. unfold to_read in Hto. apply app_eq_nil in Hto as [Hbuf Hcat].
  unfold read_packet. cbn [read_packet_loop]. rewrite Hbuf. cbn [Codec_decode len length].
  change (Codec_decode (rd_codec r) []) with (@Ok CodecError _ (@None Packet), set_want (rd_codec r) 2, @nil Z).
  cbv iota beta. change (TRANSPORT_MAX_PACKET_SIZE <=? len []) with false. cbv iota.
  unfold end_of.
  pose proof (read_spec _ (rd_stream r) (clamp_pos (frame_hint (set_want (rd_codec r) 2)))) as Hread.
  destruct (read _ _) as [[[|b tmp]|e| |] s'] eqn:Hrd; try done.
  - destruct Hread as [_ ->]. by eexists.
  - destruct Hread as [Hc _]. by rewrite Hcat in Hc.
  - destruct Hread as (_ & -> & ->). by eexists.
Qed.

(** A stream of frames, each of which the parser reads. *)
Lemma read_packets_frames {A} v (fb : A -> Z) (b : A -> bytes) (q : A -> Packet) l fuel r :
  reader_ok v r ->
  Forall (fun x => decode.parse v (fb x) (b x) = Ok (q x) /\
                   len (frame (fb x) (b x)) <= TRANSPORT_MAX_PACKET_SIZE) l ->
  to_read r = concat ((fun x => frame (fb x) (b x)) <$> l) -> (length l < fuel)%nat ->
  read_packets fuel r = (q <$> l, Err (end_of (rd_stream r))).
Proof.
  intros Hr Hl. revert fuel r Hr. induction Hl as [|x l [Hq Hx] Hl IH]; intros [|fuel] r Hr Hto Hf;
    simpl in Hf; try lia; cbn [read_packets].
  - by destruct (read_packet_end v r Hr Hto) as (r' & ->).
  - csimpl in Hto.
    destruct (read_packet_frame v (fb x) (b x) (q x) (concat ((fun x => frame (fb x) (b x)) <$> l))
                (S (pending (rd_stream r))) r)
      as (r' & Heq & Hr' & Hto' & Hres); try done; [lia|].
    unfold read_packet. rewrite Heq, (IH fuel r' Hr' Hto') by lia.
    unfold end_of. by rewrite Hres.
Qed.

(** ** Properties *)

(** The load generator reads what a load generator sends: well-formed
    packets that [Writer::send] accepts one after the other, with [flush]
    or without, and then the flush of the rest put the bytes on the socket;
    however the network cuts these bytes into segments, [read_packet] gives
    every packet, in order and up to what the protocol version does not
    carry, and then the end of the connection. No frame is lost, waits
    for bytes it does not need, or runs into the size limit. *)
Theorem bench_stream_delivery (v : Version) (ps : list Packet) (w w' : Writer)
    (segs : list bytes) (rst : bool) (fuel : nat) :
  Forall wf_packet ps -> send_all (connect_writer v) ps = (Ok tt, w) -> flush w = (Ok tt, w') ->
  concat segs = wr_sent w' -> (length ps < fuel)%nat ->
  read_packets fuel (connect_reader (mkStream segs rst) v) =
    (normalize v <$> ps, Err (if rst then SocketError else ConnectionClosed)).
Proof.
  intros Hwf Hsend (Hs & Hb & _)%flush_ok Hsegs Hf.
  apply (send_all_ok v) in Hsend as [Hcat Hl]; [|done|done].
  rewrite Hb, app_nil_r in Hs.
  apply (read_packets_frames v first_byte_of (body_image v) (normalize v)); try done.
  { rewrite Forall_forall in *. intros p Hp. split; [by apply parse_image, Hwf|by apply Hl]. }
  unfold to_read. cbn [rd_buf connect_reader rd_stream segments app].
  by rewrite Hsegs, Hs, Hcat.
Qed.

Definition sample_stream : list Packet :=
  [PConnect (mkConnect true 60 (bytes_of_string "c1") None (Some (bytes_of_string "pw"))
      (Some (mkWill (bytes_of_string "w") (bytes_of_string "bye") AtLeastOnce true)) None);
   PPublish (mkPublish (bytes_of_string "a/b") (bytes_of_string "hi") ExactlyOnce false true (Some 600));
   PPubRel 600 2;
   PSubscribe 3 [(bytes_of_string "a/#", AtLeastOnce)];
   PPingReq].

Lemma sample_stream_wf : Forall wf_packet sample_stream.
Proof.
  assert (Hs : forall s : bytes, bool_decide (Forall (fun b => 0 <= b < 256) s) = true ->
    (len s <=? U16_MAX) = true -> from_utf8 s = true -> wf_str s).
  { intros s H1 H2 H3. repeat split; [|by apply Z.leb_le|done].
    apply bool_decide_eq_true in H1. done. }
  repeat (apply Forall_cons; split); [| | | | |constructor]; simpl; try done.
  - split; simpl; try done; [by apply Hs| |split; [by apply Hs|]];
      apply wf_str_wf_bytes; by apply Hs.
  - split; simpl; [by apply Hs|done| |by exists 600]. by apply (Hs (bytes_of_string "hi")).
  - split; [done|]. split; [done|]. apply Forall_singleton. by apply Hs.
Qed.

(** The same stream byte by byte and in one piece, in MQTT 3 and 5. *)
Lemma bench_stream_delivery_witness :
  let v3 := stream_image V3 sample_stream in let v5 := stream_image V5 sample_stream in
  read_packets 6 (connect_reader (mkStream ((fun b => [b]) <$> v3) false) V3) =
    (normalize V3 <$> sample_stream, Err ConnectionClosed) /\
  read_packets 6 (connect_reader (mkStream [v5] true) V5) =
    (normalize V5 <$> sample_stream, Err SocketError).
Proof.
  split.
  - eapply (bench_stream_delivery V3 sample_stream _ _ _ false 6 sample_stream_wf); 
      [reflexivity|reflexivity|vm_compute; reflexivity|simpl; lia].
  - eapply (bench_stream_delivery V5 sample_stream _ _ _ true 6 sample_stream_wf);
      [reflexivity|reflexivity|vm_compute; reflexivity|simpl; lia].
Defined.
