(* ===== verification/BenchBroker.v ===== *)
(** * The load generator against the broker's codec

    [mqtt-bench] encodes and decodes with a codec of its own. Here the two
    codecs meet: the broker's [decode_packet] on what the load generator
    writes, and the load generator's [parse] on what the broker writes.
    The one packet on which they disagree is the CONNACK of MQTT 5. *)

From stdpp Require Import prelude list strings.
From Stdlib Require Import ZArith Lia.
From S2P Require Import Prelude CodecTypes CodecUtils CodecV3 CodecV3Proofs CodecV5Types CodecV5 CodecV5Lemmas CodecV5Format CodecV5Encode CodecV5Decode CodecV5Proofs BenchCodec BenchCodecProofs BenchTransport CodecFraming CodecMqtt.
Import types.

Local Open Scope Z_scope.

Module BenchBroker.
Import V5Codec V5Lemmas V5Decode V5Framed BenchProofs.

Definition to_qos (q : QoS) : CodecTypes.QoS :=
  match q with
  | AtMostOnce => CodecTypes.AtMostOnce
  | AtLeastOnce => CodecTypes.AtLeastOnce
  | ExactlyOnce => CodecTypes.ExactlyOnce
  end.

Definition of_qos (q : CodecTypes.QoS) : QoS :=
  match q with
  | CodecTypes.AtMostOnce => AtMostOnce
  | CodecTypes.AtLeastOnce => AtLeastOnce
  | CodecTypes.ExactlyOnce => ExactlyOnce
  end.

(** ** From the load generator to the broker *)

Definition to_publish (p : Publish) (props : option PublishProperties) : CodecTypes.Publish := {|
  CodecTypes.dup := dup p; CodecTypes.retain := retain p; CodecTypes.qos := to_qos (qos p);
  CodecTypes.topic := topic p; CodecTypes.packet_id := pid p; CodecTypes.payload := payload p;
  CodecTypes.properties := props |}.

Definition to_v3_connect (c : Connect) : V3.Connect := {|
  V3.protocol := MQTT_LEVEL_311; V3.clean_session := clean c; V3.keep_alive := keepalive c;
  V3.last_will :=
    (fun w => V3.mkLastWill (to_qos (w_qos w)) (w_retain w) (w_topic w) (w_payload w)) <$> will c;
  V3.client_id := client_id c; V3.username := encode.connect_username c;
  V3.password := password c; V3.cert := None |}.

(** The packets of a client, as the broker sees them. *)
Definition to_v3 (p : Packet) : option V3.Packet :=
  match p with
  | PConnect c => Some (V3.PConnect (to_v3_connect c))
  | PPublish p => Some (V3.PPublish (to_publish p None))
  | PPubAck id _ => Some (V3.PPublishAck id)
  | PPubRec id _ => Some (V3.PPublishReceived id)
  | PPubRel id _ => Some (V3.PPublishRelease id)
  | PPubComp id _ => Some (V3.PPublishComplete id)
  | PSubscribe id fs => Some (V3.PSubscribe id ((fun f => (f.1, to_qos f.2)) <$> fs))
  | PUnsubscribe id fs => Some (V3.PUnsubscribe id fs)
  | PPingReq => Some V3.PPingRequest
  | PDisconnect _ => Some V3.PDisconnect
  | PConnAck _ _ _ | PSubAck _ _ | PUnsubAck _ _ | PPingResp => None
  end.

Definition to_will (w : Will) : V5.LastWill := {|
  V5.lw_qos := to_qos (w_qos w); V5.lw_retain := w_retain w; V5.lw_topic := w_topic w;
  V5.lw_message := w_payload w; V5.lw_will_delay_interval_sec := None;
  V5.lw_correlation_data := None; V5.lw_message_expiry_interval := None;
  V5.lw_content_type := None; V5.lw_user_properties := []; V5.lw_is_utf8_payload := None;
  V5.lw_response_topic := None |}.

Definition to_v5_connect (c : Connect) : V5.Connect := {|
  V5.c_clean_start := clean c; V5.c_keep_alive := keepalive c;
  V5.c_session_expiry_interval_secs := default 0 (session_expiry c);
  V5.c_auth_method := None; V5.c_auth_data := None; V5.c_request_problem_info := true;
  V5.c_request_response_info := false; V5.c_receive_max := None; V5.c_topic_alias_max := 0;
  V5.c_user_properties := []; V5.c_max_packet_size := None;
  V5.c_last_will := to_will <$> will c; V5.c_client_id := client_id c;
  V5.c_username := encode.connect_username c; V5.c_password := password c; V5.c_cert := None |}.

Definition reason_of {A} `{PrimEnum A} (r : Z) : option A :=
  match try_from r with Ok a => Some a | _ => None end.

Definition plain_options (q : QoS) : V5.SubscriptionOptions :=
  V5.mkSubscriptionOptions (to_qos q) false false RetainHandlingM.AtSubscribe.

(** [None] for a reason code that the broker does not know. *)
Definition to_v5 (p : Packet) : option V5.Packet :=
  match p with
  | PConnect c => Some (V5.PConnect (to_v5_connect c))
  | PPublish p => Some (V5.PPublish (to_publish p (Some V5.PublishProperties_default)))
  | PPubAck id r => (fun c => V5.PPublishAck (V5.mkPublishAck id c [] None)) <$> reason_of r
  | PPubRec id r => (fun c => V5.PPublishReceived (V5.mkPublishAck id c [] None)) <$> reason_of r
  | PPubRel id r => (fun c => V5.PPublishRelease (V5.mkPublishAck2 id c [] None)) <$> reason_of r
  | PPubComp id r => (fun c => V5.PPublishComplete (V5.mkPublishAck2 id c [] None)) <$> reason_of r
  | PSubscribe id fs =>
      Some (V5.PSubscribe (V5.mkSubscribe id None [] ((fun f => (f.1, plain_options f.2)) <$> fs)))
  | PUnsubscribe id fs => Some (V5.PUnsubscribe (V5.mkUnsubscribe id [] fs))
  | PPingReq => Some V5.PPingRequest
  | PDisconnect r => (fun c => V5.PDisconnect (V5.mkDisconnect c None None None [])) <$> reason_of r
  | PConnAck _ _ _ | PSubAck _ _ | PUnsubAck _ _ | PPingResp => None
  end.

(** A CONNECT that the broker does not refuse: an identifier, or a clean
    session. An expiry of zero is the absence of the property. *)
Definition broker_accepts (p : Packet) : Prop :=
  match p with
  | PConnect c => (client_id c <> [] \/ clean c = true) /\ session_expiry c <> Some 0
  | _ => True
  end.

Lemma to_qos_value q : QoS_value (to_qos q) = as_u8 q.
Proof. by destruct q. Qed.

(** *** MQTT 3: the same bytes *)

Lemma connect_flags_v3 c : V3.connect_flags (to_v3_connect c) = encode.connect_flags c.
Proof.
  destruct c as [cl ? ? u p w ?]. unfold V3.connect_flags, encode.connect_flags, encode.connect_username.
  simpl. destruct u, p, cl, w as [[? ? [] []]|]; reflexivity.
Qed.

Lemma first_byte_v3 p : V3.publish_first_byte (to_publish p None) = encode.publish_flags p.
Proof. destruct p as [? ? q r d ?]. destruct q, r, d; reflexivity. Qed.

Lemma body_v3 p q :
  wf_packet p -> to_v3 p = Some q ->
  V3Proofs.body_image q = body_image V3 p /\
  V3Proofs.first_byte_of q = first_byte_of p.
Proof.
  destruct p; intros Hwf [= <-]; cbn [V3Proofs.first_byte_of V3Proofs.body_image
    body_image first_byte_of V3.packet_type_of];
    rewrite ?connect_flags_v3, ?first_byte_v3, ?app_nil_r; try done.
  - split; [|done]. cbn [to_v3_connect V3.last_will V3.username V3.password V3.client_id].
    destruct (will c); [|done]. done.
  - split; [|done]. rewrite <- list_fmap_compose. do 2 f_equal.
    cbn [no_props is_v5 app]. f_equal.
    apply list_fmap_ext. intros _ f _. simpl. by rewrite to_qos_value.
Qed.

Lemma to_v3_wf p q :
  wf_packet p -> broker_accepts p -> to_v3 p = Some q -> V3Proofs.wf_packet q.
Proof.
  destruct p; intros Hwf Hacc [= <-]; cbn in Hwf |- *; try done; try by destruct Hwf.
  - destruct Hwf as [Hk Hc Hu Hp Hw Hse]. destruct Hacc. split; simpl; try done; [by left| |].
    + by destruct (will c).
    + by apply connect_username_wf in Hu.
  - destruct Hwf as [Ht _ Hpl Hid]. split; simpl; try done. by destruct (qos p).
  - destruct Hwf as (Hid & _ & Hfs). split; [done|]. by apply Forall_fmap.
Qed.

(** *** MQTT 5: the short forms *)

Ltac code_of tf :=
  let H := fresh "H" in
  intros H; lazymatch goal with r : Z, c : _ |- to_u8 ?c = ?r => change (tf r = Ok c) in H end;
  unfold tf in H; repeat case_match; by simplify_eq.

Lemma ack_code r (c : PublishAckReason) : try_from r = Ok c -> to_u8 c = r.
Proof. code_of PublishAckReasonM.PublishAckReason_try_from. Qed.

Lemma ack2_code r (c : PublishAck2Reason) : try_from r = Ok c -> to_u8 c = r.
Proof. code_of PublishAck2ReasonM.PublishAck2Reason_try_from. Qed.

Lemma disconnect_code r (c : DisconnectReasonCode) : try_from r = Ok c -> to_u8 c = r.
Proof. code_of DisconnectReasonCodeM.DisconnectReasonCode_try_from. Qed.

Lemma connect_flags_v5 c : connect_flags (to_v5_connect c) = encode.connect_flags c.
Proof.
  destruct c as [cl ? ? u p w ?]. unfold connect_flags, encode.connect_flags, encode.connect_username.
  simpl. destruct u, p, cl, w as [[? ? [] []]|]; reflexivity.
Qed.

Lemma first_byte_v5 p props : publish_first_byte (to_publish p props) = encode.publish_flags p.
Proof. destruct p as [? ? q r d ?]. destruct q, r, d; reflexivity. Qed.

Lemma options_v5 q : SubscriptionOptions_byte (plain_options q) = as_u8 q.
Proof. by destruct q. Qed.

Lemma connect_body_v5 c :
  session_expiry c <> Some 0 ->
  V5Format.body_image (V5.PConnect (to_v5_connect c)) = body_image V5 (PConnect c).
Proof.
  intros Hse. cbn [V5Format.body_image body_image]. rewrite connect_flags_v5.
  assert (Hps : block (V5Format.connect_props_image (to_v5_connect c)) = connect_props V5 c).
  { unfold V5Format.connect_props_image, connect_props, to_v5_connect. simpl.
    destruct (session_expiry c) as [se|]; [|done]. simpl.
    unfold nondefault at 1. rewrite bool_decide_false by congruence. done. }
  rewrite Hps. cbn [to_v5_connect V5.c_keep_alive V5.c_client_id V5.c_last_will V5.c_username
    V5.c_password]. by destruct (will c).
Qed.

Lemma publish_body_v5 p :
  V5Format.body_image (V5.PPublish (to_publish p (Some V5.PublishProperties_default))) =
    body_image V5 (PPublish p).
Proof. done. Qed.

Lemma to_v5_connect_wf c :
  wf_connect c -> broker_accepts (PConnect c) -> V5Format.wf_connect (to_v5_connect c).
Proof.
  intros [Hk Hc Hu Hp Hw Hse] [Hacc _]. split; simpl; try done.
  - destruct (session_expiry c); [done|]. done.
  - destruct (will c) as [w|]; [|done]. destruct Hw. by split.
  - by apply connect_username_wf in Hu.
Qed.

Lemma to_publish_wf_v5 p :
  wf_publish p ->
  V5Format.wf_publish (to_publish p (Some V5.PublishProperties_default)).
Proof.
  intros [Ht _ Hpl Hid]. split; simpl; try done. by destruct (qos p).
Qed.

(** The short form of an acknowledgement, or the full one without
    properties. *)
Lemma ack_short {A B} `{PrimEnumOk A} (mk : Z -> A -> list (bytes * bytes) -> option bytes -> B)
    id r (c0 c : A) :
  nz u16 id -> (forall r c, try_from r = Ok c -> to_u8 c = r) -> try_from 0 = Ok c0 ->
  try_from r = Ok c -> forall x,
  reads_all
    (let! packet_id := NonZeroU16_decode in
     let! more := has_remaining in
     if more then
       let! b := get_u8 in
       let! reason_code := lift (try_from b) in
       let! more := has_remaining in
       if more then
         let! props := ack_props_decode in
         ensure_empty InvalidLength ;;;
         ret (mk packet_id reason_code props.1 props.2)
       else x packet_id reason_code
     else ret (mk packet_id c0 [] None)) (be16 id ++ reason_image V5 r) (mk id c [] None).
Proof.
  intros Hid Hcode Hz Hr x. unfold reason_image. cbn [is_v5 andb].
  destruct (Z.eqb_spec r 0) as [->|Hne].
  - eapply reads_all_bind; [by apply V3Proofs.reads_wire_id|]. rewrite Hz in Hr. by simplify_eq.
  - apply (ack_decode_reads mk id c [] None); [done|by repeat split| |done].
    unfold V5Format.ack_image. by rewrite (Hcode r c Hr).
Qed.

(** The broker reads what the load generator writes. *)
Lemma v5_reads_body p q :
  wf_packet p -> broker_accepts p -> to_v5 p = Some q ->
  len (body_image V5 p) <= MAX_PACKET_SIZE ->
  decode_packet (body_image V5 p) (first_byte_of p) = Ok q.
Proof.
  assert (Hack : forall (A : Type) (f : A -> V5.Packet) m w a, reads_all (E := DecodeError) m w a ->
                   fst (fmap_io f m w) = Ok (f a)).
  { intros A f m w a H. unfold fmap_io, bind. by rewrite H. }
  destruct p as [c| |p|id reason|id reason|id reason|id reason|id filters| |id filters| | | |reason];
    intros Hwf Hacc Hq Hl; cbn [to_v5] in Hq; try done;
    cbn [wf_packet] in Hwf; unfold reason_of in Hq;
    try (destruct (try_from reason) as [code| | |] eqn:Hr; [|done..]);
    injection Hq as <-; try done.
  - rewrite <- connect_body_v5 in Hl |- * by apply Hacc.
    by apply (v5_decode_packet_image (V5.PConnect _)), Hl; apply to_v5_connect_wf.
  - rewrite <- publish_body_v5 in Hl |- *.
    change (first_byte_of (PPublish p)) with (encode.publish_flags p).
    rewrite <- (first_byte_v5 p (Some V5.PublishProperties_default)).
    apply (v5_decode_packet_image
      (V5.PPublish (to_publish p (Some V5.PublishProperties_default)))), Hl.
    by apply to_publish_wf_v5.
  - destruct Hwf. apply (Hack _ V5.PPublishAck).
    eapply (ack_short V5.mkPublishAck); [done|apply ack_code|done|done].
  - destruct Hwf. apply (Hack _ V5.PPublishReceived).
    eapply (ack_short V5.mkPublishAck); [done|apply ack_code|done|done].
  - destruct Hwf. apply (Hack _ V5.PPublishRelease).
    eapply (ack_short V5.mkPublishAck2); [done|apply ack2_code|done|done].
  - destruct Hwf. apply (Hack _ V5.PPublishComplete).
    eapply (ack_short V5.mkPublishAck2); [done|apply ack2_code|done|done].
  - destruct Hwf as (Hid & _ & Hfs).
    assert (Hb : V5Format.body_image (V5.PSubscribe (V5.mkSubscribe id None []
                   ((fun f => (f.1, plain_options f.2)) <$> filters))) =
                 body_image V5 (PSubscribe id filters)).
    { cbn [V5Format.body_image body_image V5.s_topic_filters V5.s_packet_id].
      rewrite <- list_fmap_compose.
      rewrite (list_fmap_ext _ (fun f : bytes * QoS => str_image f.1 ++ [as_u8 f.2])); [done|].
      intros _ f _. unfold compose, V5Format.filter_image. simpl. by rewrite options_v5. }
    rewrite <- Hb in Hl |- *. apply (v5_decode_packet_image (V5.PSubscribe _)), Hl.
    split; [done|]. split; [done|]. split; [done|]. by apply Forall_fmap.
  - destruct Hwf as (Hid & Hfs).
    apply (v5_decode_packet_image (V5.PUnsubscribe (V5.mkUnsubscribe id [] filters))), Hl. done.
  - apply (Hack _ V5.PDisconnect). unfold body_image, reason_image.
    cbn [is_v5 andb]. destruct (Z.eqb_spec reason 0) as [->|Hne].
    + injection Hr as <-. reflexivity.
    + cbn [negb]. unfold Disconnect_decode. rewrite <- (disconnect_code _ _ Hr).
      apply (Disconnect_reads (V5.mkDisconnect code None None None [])); done.
Qed.

(** ** From the broker to the load generator

    The packets a server sends, as the load generator sees them: it drops
    every property. A PUBLISH without a topic it refuses; the broker sends
    one only with a topic alias, which the load generator never offers. *)

Definition of_publish (p : CodecTypes.Publish) : Publish := {|
  topic := CodecTypes.topic p; payload := CodecTypes.payload p; qos := of_qos (CodecTypes.qos p);
  retain := CodecTypes.retain p; dup := CodecTypes.dup p; pid := CodecTypes.packet_id p |}.

Definition of_v3 (p : V3.Packet) : option Packet :=
  match p with
  | V3.PConnectAck a =>
      Some (PConnAck (V3.ConnectAckReason_to_u8 (V3.return_code a)) (V3.session_present a) None)
  | V3.PPublish p => Some (PPublish (of_publish p))
  | V3.PPublishAck id => Some (PPubAck id 0)
  | V3.PPublishReceived id => Some (PPubRec id 0)
  | V3.PPublishRelease id => Some (PPubRel id 0)
  | V3.PPublishComplete id => Some (PPubComp id 0)
  | V3.PSubscribeAck id status => Some (PSubAck id (V3.return_code_to_u8 <$> status))
  | V3.PUnsubscribeAck id => Some (PUnsubAck id [])
  | V3.PPingResponse => Some PPingResp
  | _ => None
  end.

Definition of_v5 (p : V5.Packet) : option Packet :=
  match p with
  | V5.PPublish p => Some (PPublish (of_publish p))
  | V5.PPublishAck a => Some (PPubAck (V5.pa_packet_id a) (to_u8 (V5.pa_reason_code a)))
  | V5.PPublishReceived a => Some (PPubRec (V5.pa_packet_id a) (to_u8 (V5.pa_reason_code a)))
  | V5.PPublishRelease a => Some (PPubRel (V5.pa2_packet_id a) (to_u8 (V5.pa2_reason_code a)))
  | V5.PPublishComplete a => Some (PPubComp (V5.pa2_packet_id a) (to_u8 (V5.pa2_reason_code a)))
  | V5.PSubscribeAck a => Some (PSubAck (V5.sa_packet_id a) (to_u8 <$> V5.sa_status a))
  | V5.PUnsubscribeAck a => Some (PUnsubAck (V5.ua_packet_id a) (to_u8 <$> V5.ua_status a))
  | V5.PPingResponse => Some PPingResp
  | V5.PDisconnect d => Some (PDisconnect (to_u8 (V5.d_reason_code d)))
  | _ => None
  end.

Definition has_topic (p : CodecTypes.Publish) : Prop := CodecTypes.topic p <> [].

Lemma of_publish_flags p : encode.publish_flags (of_publish p) = V3.publish_first_byte p.
Proof. destruct p as [d r q ? ? ? ?]. destruct q, r, d; reflexivity. Qed.

Lemma of_publish_wf_v3 p :
  V3Proofs.wf_publish p -> has_topic p -> wf_publish (of_publish p).
Proof. intros [Ht Hid Hpl _] Hne. split; simpl; try done. by destruct (CodecTypes.qos p). Qed.

Lemma of_publish_wf_v5 p :
  V5Format.wf_publish p -> has_topic p -> wf_publish (of_publish p).
Proof. intros [Ht Hid Hpl _] Hne. split; simpl; try done. by destruct (CodecTypes.qos p). Qed.

Lemma parse_publish_body v (p : Publish) ps :
  wf_publish p -> block_of v ps ->
  decode.parse v (encode.publish_flags p)
    (str_image (topic p) ++ opt_image be16 (pid p) ++ ps ++ payload p) =
  Ok (PPublish p).
Proof.
  intros Hwf Hps. unfold decode.parse, decode.parse_body.
  destruct (publish_flags_ok p) as (-> & _). cbn zeta iota.
  by apply parse_of, parse_publish_reads.
Qed.

Lemma bench_parses_v3 p q :
  V3Proofs.wf_packet p -> of_v3 p = Some q ->
  match p with V3.PPublish p => has_topic p | _ => True end ->
  decode.parse V3 (V3Proofs.first_byte_of p) (V3Proofs.body_image p) = Ok q.
Proof.
  destruct p as [c|a|p|id|id|id|id| |id st| |id| | |]; intros Hwf [= <-] Hne;
    cbn [V3Proofs.wf_packet] in Hwf; try done.
  - by destruct a as [[] []].
  - cbn [V3Proofs.first_byte_of V3Proofs.body_image].
    rewrite <- of_publish_flags. by apply (parse_publish_body V3 (of_publish p) []); [apply of_publish_wf_v3|].
  - by apply parse_of, (parse_ack_reads V3 PPubAck id 0 []); [|left].
  - by apply parse_of, (parse_ack_reads V3 PPubRec id 0 []); [|left].
  - by apply parse_of, (parse_ack_reads V3 PPubRel id 0 []); [|left].
  - by apply parse_of, (parse_ack_reads V3 PPubComp id 0 []); [|left].
  - by apply parse_of, (parse_suback_reads V3 id _ []).
  - apply parse_of, reads_all_intro.
    apply (reads_last _ _ _ _ _ (read_pid_reads _ Hwf)). done.
Qed.

Lemma block_is_block w : len w <= MAX_PACKET_SIZE -> block_of V5 (block w).
Proof. intros H. by exists w. Qed.

(** The acknowledgements of MQTT 5, the broker's full form. *)
Lemma parse_ack_v5 build id r ups reason :
  nz u16 id -> len (V5Format.ack_image id r ups reason) <= MAX_PACKET_SIZE ->
  fst (decode.parse_ack V5 build (V5Format.ack_image id r ups reason)) = Ok (build id r).
Proof.
  intros Hid Hl. apply parse_of. unfold V5Format.ack_image in *.
  rewrite !len_app in Hl. pose proof (block_len_ge (diag_image (ups, reason))). pose_lens Hl.
  apply parse_ack_reads; [done|]. right. split; [done|].
  exists (block (diag_image (ups, reason))). split; [done|right]. apply block_is_block. lia.
Qed.

Lemma bench_parses_v5 p q :
  V5Format.wf_packet p -> of_v5 p = Some q ->
  match p with V5.PPublish p => has_topic p | _ => True end ->
  len (V5Format.body_image p) <= MAX_PACKET_SIZE ->
  decode.parse V5 (V5Format.first_byte_of p) (V5Format.body_image p) = Ok q.
Proof.
  assert (Hblock : forall a w b : bytes, len (a ++ block w ++ b) <= MAX_PACKET_SIZE ->
                     block_of V5 (block w)).
  { intros a w b H. apply block_is_block. rewrite !len_app in H.
    pose proof (block_len_ge w). pose_lens H. lia. }
  destruct p as [c|a|p|a|a|a|a| |a| |a| | |d|]; intros Hwf [= <-] Hne Hl;
    cbn [V5Format.wf_packet] in Hwf; try done.
  - cbn [V5Format.first_byte_of V5Format.body_image] in *.
    change (publish_first_byte p) with (V3.publish_first_byte p). rewrite <- of_publish_flags.
    apply (parse_publish_body V5 (of_publish p)); [by apply of_publish_wf_v5|].
    rewrite app_assoc in Hl. by apply Hblock in Hl.
  - destruct Hwf. by apply parse_ack_v5.
  - destruct Hwf. by apply parse_ack_v5.
  - destruct Hwf. by apply parse_ack_v5.
  - destruct Hwf. by apply parse_ack_v5.
  - destruct Hwf. apply Hblock in Hl. by apply parse_of, parse_suback_reads.
  - destruct Hwf. apply Hblock in Hl. by apply parse_of, parse_unsuback_reads.
Qed.

(** ** Whole streams *)

Abbreviation BrokerPacket := (V3.Packet + V5.Packet)%type.

Definition to_broker (v : Version) (p : Packet) : option BrokerPacket :=
  match v with V3 => inl <$> to_v3 p | V5 => inr <$> to_v5 p end.

(** The broker's decoder of version [v], fed chunk by chunk: the packets,
    the outcome and the bytes left. *)
Definition broker_read (v : Version) (m : Z) (chunks : list bytes)
    : list BrokerPacket * outcome DecodeError unit * bytes :=
  match v with
  | V3 =>
      let '(xs, r, _, rest) := feed V3.decode_packet (CodecFraming.Codec_new m) [] chunks in
      ((fun x => inl x.1) <$> xs, r, rest)
  | V5 =>
      let '(xs, r, _, rest) :=
        v5_feed (mkCodec5 FrameHeader m 0 0) [] chunks in
      ((fun x => inr x.1) <$> xs, r, rest)
  end.

(** The frame and the packet, for the broker's decoder. *)
Definition broker_decodes (v : Version) (fb : Z) (w : bytes) : outcome DecodeError BrokerPacket :=
  match v with
  | V3 => match V3.decode_packet w fb with
          | Ok q => Ok (inl q) | Err e => Err e | Panic => Panic | Diverged => Diverged end
  | V5 => match decode_packet w fb with
          | Ok q => Ok (inr q) | Err e => Err e | Panic => Panic | Diverged => Diverged end
  end.

Lemma broker_read_frames {A} v m (l : list A) (fb : A -> Z) (w : A -> bytes)
    (q : A -> BrokerPacket) chunks :
  0 <= m ->
  Forall (fun x => u8 (fb x) /\ u8s (w x) /\ len (w x) <= MAX_PACKET_SIZE /\
                   (m = 0 \/ len (w x) <= m) /\ broker_decodes v (fb x) (w x) = Ok (q x)) l ->
  concat chunks = concat ((fun x => frame (fb x) (w x)) <$> l) ->
  broker_read v m chunks = (q <$> l, Ok tt, []).
Proof.
  intros Hm Hl Hch. destruct v; unfold broker_read.
  - rewrite (feed_frames V3.decode_packet V3Codec.v3_decode_packet_returns m l fb w
      (fun x => match q x with inl p => p | inr _ => V3.PPingRequest end)); [|done| |done].
    + f_equal. f_equal. rewrite <- list_fmap_compose. apply Forall_fmap_ext_1.
      eapply Forall_impl; [done|]. simpl. intros x (_ & _ & _ & _ & H). unfold compose. simpl.
      destruct (V3.decode_packet (w x) (fb x)); try done. injection H as H. by rewrite <- H.
    + eapply Forall_impl; [done|]. simpl. intros x (? & ? & ? & ? & H). split_and!; try done.
      destruct (V3.decode_packet (w x) (fb x)); try done. injection H as H. by rewrite <- H.
  - rewrite v5_feed_eq. cbn [frame_codec state5 max_in_size].
    rewrite (feed_frames decode_packet v5_decode_packet_returns m l fb w
      (fun x => match q x with inr p => p | inl _ => V5.PPingRequest end)); [|done| |done].
    + f_equal. f_equal. rewrite <- list_fmap_compose. apply Forall_fmap_ext_1.
      eapply Forall_impl; [done|]. simpl. intros x (_ & _ & _ & _ & H). unfold compose. simpl.
      destruct (decode_packet (w x) (fb x)); try done. injection H as H. by rewrite <- H.
    + eapply Forall_impl; [done|]. simpl. intros x (? & ? & ? & ? & H). split_and!; try done.
      destruct (decode_packet (w x) (fb x)); try done. injection H as H. by rewrite <- H.
Qed.

Lemma broker_decodes_client v p q :
  wf_packet p -> broker_accepts p -> to_broker v p = Some q ->
  len (body_image v p) <= MAX_PACKET_SIZE ->
  broker_decodes v (first_byte_of p) (body_image v p) = Ok q.
Proof.
  intros Hwf Hacc Hq Hl. destruct v; cbn [to_broker broker_decodes] in *.
  - destruct (to_v3 p) as [q'|] eqn:Hq'; [|done]. injection Hq as <-.
    destruct (body_v3 p q' Hwf Hq') as [<- <-].
    rewrite V3Proofs.decode_packet_image by (by eapply to_v3_wf).
    destruct p; try done; by injection Hq' as <-.
  - destruct (to_v5 p) as [q'|] eqn:Hq'; [|done]. injection Hq as <-.
    by rewrite (v5_reads_body p q').
Qed.

(** Every packet of a run has a counterpart. *)
Definition counterparts (v : Version) (ps : list Packet) : list BrokerPacket :=
  omap (to_broker v) ps.

Lemma counterparts_all v ps :
  Forall (fun p => is_Some (to_broker v p)) ps ->
  counterparts v ps =
    (fun p => default (inl V3.PPingRequest) (to_broker v p)) <$> ps.
Proof.
  unfold counterparts. induction 1 as [|p ps [q Hq] _ IH]; [done|]. csimpl. by rewrite Hq, IH.
Qed.

(** C34. The broker understands the load generator, whose encoder is not its
    own: whatever well-formed client packets [Writer::send] accepts (the
    version's reason codes, a client identifier or a clean session), the
    broker's decoder of the same protocol version, fed the bytes in any
    chunks and under any packet limit that admits them, yields exactly
    their counterparts in order and leaves nothing: flags, strings, packet
    identifiers, wills and properties mean the same on both sides. *)
Theorem broker_reads_bench (v : Version) (ps : list Packet) (m : Z) (w w' : Writer)
    (chunks : list bytes) :
  Forall (fun p => wf_packet p /\ broker_accepts p /\ is_Some (to_broker v p) /\
                   (m = 0 \/ len (body_image v p) <= m)) ps ->
  0 <= m -> send_all (connect_writer v) ps = (Ok tt, w) -> flush w = (Ok tt, w') ->
  concat chunks = wr_sent w' ->
  broker_read v m chunks = (counterparts v ps, Ok tt, []).
Proof.
  intros Hps Hm Hsend (Hs & Hb & _)%flush_ok Hch.
  apply (send_all_ok v) in Hsend as [Hcat Hl]; [|done|eapply (Forall_impl _ _ _ Hps); by intros p (? & _)].
  rewrite Hb, app_nil_r in Hs. rewrite Hs, Hcat in Hch. simpl in Hch.
  rewrite counterparts_all by (eapply (Forall_impl _ _ _ Hps); by intros p (_ & _ & ? & _)).
  apply (broker_read_frames v m ps first_byte_of (body_image v)); [done| |done].
  rewrite Forall_forall in *. intros p Hp. destruct (Hps p Hp) as (Hwf & Hacc & [q Hq] & Hlim).
  specialize (Hl p Hp).
  pose proof (frame_min (first_byte_of p) (body_image v p)) as [_ Hmin].
  fold (image v p) in Hmin.
  assert (Hle : len (body_image v p) <= MAX_PACKET_SIZE)
    by (unfold TRANSPORT_MAX_PACKET_SIZE, MAX_PACKET_SIZE in *; lia).
  split_and!; try done; [apply bench_first_byte_u8|by apply bench_body_image_u8s|].
  rewrite Hq. by apply broker_decodes_client.
Qed.

(** The sample stream of [BenchTransport], in MQTT 5, in two chunks. *)
Lemma broker_reads_bench_witness :
  let out := stream_image V5 sample_stream in
  broker_read V5 0 [take 7 out; drop 7 out] = (counterparts V5 sample_stream, Ok tt, []) /\
  omap (fun q => match q with inr (V5.PPublishRelease a) => Some (V5.pa2_reason_code a) | _ => None end)
    (counterparts V5 sample_stream) = [PublishAck2ReasonM.SendOnward].
Proof.
  split; [|by vm_compute].
  eapply (broker_reads_bench V5 sample_stream 0);
    [|done|reflexivity|reflexivity|vm_compute; reflexivity].
  pose proof sample_stream_wf as Hwf. rewrite Forall_forall in *. intros p Hp.
  split; [by apply Hwf|]. unfold sample_stream in Hp. rewrite !elem_of_cons in Hp.
  destruct Hp as [-> |[-> |[-> |[-> |[-> |Hp]]]]]; try (by apply elem_of_nil in Hp);
    (split; [simpl; split; [by right|done] || done|]); (split; [by eexists|by left]).
Defined.

(** *** What the broker's encoders write *)

Definition of_broker (v : Version) (p : BrokerPacket) : option Packet :=
  match v, p with
  | V3, inl p => of_v3 p
  | V5, inr p => of_v5 p
  | _, _ => None
  end.

Definition broker_encode (oc : bool) (c : Codec5) (p : BrokerPacket) : io EncodeError unit :=
  match p with
  | inl p => V3Codec.v3_encode p
  | inr p => v5_encode oc c p
  end.

(** A well-formed packet of the server, a PUBLISH with its topic. *)
Definition server_packet (p : BrokerPacket) : Prop :=
  match p with
  | inl p => V3Codec.fits 0 p /\ match p with V3.PPublish p => has_topic p | _ => True end
  | inr p => V5Format.wf_packet p /\ match p with V5.PPublish p => has_topic p | _ => True end
  end.

(** The frame on the wire. *)
Definition broker_frame (c : Codec5) (p : BrokerPacket) : Z * bytes :=
  match p with
  | inl p => (V3Proofs.first_byte_of p, V3Proofs.body_image p)
  | inr p =>
      let p := V5Format.trim (prepare c p) (out_limit c) in
      (V5Format.first_byte_of p, V5Format.body_image p)
  end.

Definition broker_image (c : Codec5) (p : BrokerPacket) : bytes :=
  frame (broker_frame c p).1 (broker_frame c p).2.

Lemma broker_encode_frame oc c p dst dst' :
  wf_out c -> server_packet p -> broker_encode oc c p dst = (Ok tt, dst') ->
  dst' = dst ++ broker_image c p.
Proof.
  intros Hout Hp. destruct p as [p|p]; cbn [broker_encode server_packet] in *.
  - destruct Hp as [Hf _]. rewrite (V3Codec.v3_encode_writes 0 p Hf dst). by intros [= <-].
  - destruct Hp as [Hwf _]. intros H.
    destruct (Packet_encoded_size oc (prepare c p) (out_limit c)) as [n|e| |] eqn:Hn;
      try (unfold v5_encode, bind, lift in H; by rewrite Hn in H).
    rewrite (v5_encode_eq oc c p n dst Hwf Hout Hn) in H. destruct (_ <? _); [done|].
    by injection H as <-.
Qed.

Lemma broker_encodes oc c ps dst dst' :
  wf_out c -> Forall server_packet ps -> for_each (broker_encode oc c) ps dst = (Ok tt, dst') ->
  dst' = dst ++ concat (broker_image c <$> ps).
Proof.
  intros Hout Hps. revert dst. induction Hps as [|p ps Hp Hps IH]; intros dst; simpl.
  - intros [= <-]. by rewrite app_nil_r.
  - unfold bind. destruct (broker_encode oc c p dst) as [[[]|e| |] d] eqn:He; try done.
    apply broker_encode_frame in He as ->; [|done..]. intros H%IH. rewrite H; by rewrite <- app_assoc.
Qed.

(** Dropping diagnostics does not change what the load generator sees. *)
Lemma of_v5_trim c p l : of_v5 (V5Format.trim (prepare c p) l) = of_v5 p.
Proof. unfold prepare. destruct (CodecFlags.contains _ _); by destruct p. Qed.

Lemma has_topic_trim c p l :
  match p with V5.PPublish p => has_topic p | _ => True end ->
  match V5Format.trim (prepare c p) l with V5.PPublish p => has_topic p | _ => True end.
Proof. unfold prepare. destruct (CodecFlags.contains _ _); by destruct p. Qed.

Lemma bench_parses v c p q :
  server_packet p -> of_broker v p = Some q ->
  len (broker_frame c p).2 <= MAX_PACKET_SIZE ->
  decode.parse v (broker_frame c p).1 (broker_frame c p).2 = Ok q.
Proof.
  intros Hp Hq Hl. destruct v, p as [p|p]; try done; cbn [server_packet of_broker] in *.
  - destruct Hp as [(Hwf & _) Hne]. by apply bench_parses_v3.
  - destruct Hp as [Hwf Hne]. apply bench_parses_v5; [|by rewrite of_v5_trim|by apply has_topic_trim|done].
    by apply V5Proofs.trim_wf, prepare_wf.
Qed.


(** A SUBACK with a reason string, a message and a PINGRESP, in pieces;
    the limit of 9 bytes cuts the reason string of the PUBACK. *)
Definition sample_server : list BrokerPacket :=
  [inr (V5.PPublishAck (V5.mkPublishAck 7 PublishAckReasonM.QuotaExceeded []
          (Some (bytes_of_string "slow down"))));
   inr (V5.PPublish (CodecTypes.mkPublish false false CodecTypes.AtLeastOnce (bytes_of_string "a/b")
          (Some 9) (bytes_of_string "hi") None));
   inr V5.PPingResponse].


(** ** The CONNACK of MQTT 5

    The body is the acknowledge flags, the reason code and the property
    block; the parser takes the flags for the reason and the reason for
    the first byte of the block's length. *)

(** A digit more than needed changes nothing. *)
Lemma var_int_image_digit d n :
  0 <= n < 128 ^ (Z.of_nat d + 1) -> var_int_image (S d) n = var_int_image d n.
Proof.
  revert n. induction d as [|d IH]; intros n Hn.
  - change (128 ^ (Z.of_nat 0 + 1)) with 128 in Hn. simpl. by rewrite (proj2 (Z.ltb_lt _ _)) by lia.
  - change (var_int_image (S (S d)) n)
      with (if n <? 128 then [n] else (n mod 128 + 128) :: var_int_image (S d) (n / 128)).
    change (var_int_image (S d) n)
      with (if n <? 128 then [n] else (n mod 128 + 128) :: var_int_image d (n / 128)).
    destruct (Z.ltb_spec n 128); [done|]. f_equal. apply IH, digits_rest. lia.
Qed.

(** More digits than the loop reads are an error. *)
Lemma varint_loop_long k d value shift n s :
  (k <= d)%nat -> 128 ^ Z.of_nat k <= n ->
  exists e s', decode.varint_loop k value shift (var_int_image d n ++ s) = (Err e, s').
Proof.
  revert d value shift n. induction k as [|k IH]; intros [|d] value shift n Hk Hn; try lia;
    try (by eexists _, _).
  replace (Z.of_nat (S k)) with (1 + Z.of_nat k) in Hn by lia.
  rewrite Z.pow_add_r, Z.pow_1_r in Hn by lia.
  assert (0 < 128 ^ Z.of_nat k) by lia. cbn [var_int_image].
  rewrite (proj2 (Z.ltb_ge _ _)) by nia. cbn [app]. rewrite varint_loop_cons.
  destruct (digit_more n) as (_ & _ & ->). cbn zeta. apply IH; [lia|].
  apply Z.div_le_lower_bound; lia.
Qed.

Lemma connack_varint r n s :
  128 <= r < 256 -> 0 <= n <= MAX_PACKET_SIZE ->
  (exists e s', decode.varint (r :: var_int_image 3 n ++ s) = (Err e, s')) \/
  decode.varint (r :: var_int_image 3 n ++ s) = (Ok (r - 128 + 128 * n), s).
Proof.
  intros Hr Hn. unfold decode.varint. rewrite varint_loop_cons.
  rewrite land_128, (proj2 (Z.ltb_ge r 128)) by (unfold is_u; lia). cbn zeta.
  destruct (digit_acc 0 0 r ltac:(lia) ltac:(done)) as [-> Hu].
  replace (r mod 128) with (r - 128) in * by (apply (Z.mod_unique_pos r 128 1); lia).
  destruct (Z.lt_ge_cases n (128 ^ 3)) as [Hlt|Hge].
  - right. rewrite (var_int_image_digit 2) by (change (Z.of_nat 2 + 1) with 3; lia).
    rewrite (varint_loop_image 2); [|change (Z.of_nat 2 + 1) with 3; lia|lia|done].
    do 2 f_equal. change (2 ^ (0 + 7)) with 128. change (2 ^ 0) with 1. lia.
  - left. by apply varint_loop_long; [lia|].
Qed.

(** The property block of a CONNACK. *)
Definition connack_block (a : V5.ConnectAck) : bytes :=
  V5Format.connack_props_image a ++ diag_image (V5.ca_user_properties a, V5.ca_reason_string a).

Lemma connack_codes (c : ConnectAckReason) :
  to_u8 c = 0 /\ c = ConnectAckReasonM.Success \/
  to_u8 c = 128 /\ c = ConnectAckReasonM.UnspecifiedError \/
  128 < to_u8 c < 256 /\ c <> ConnectAckReasonM.Success /\ c <> ConnectAckReasonM.UnspecifiedError.
Proof. destruct c; first [by left|right; by left|right; right; split_and!; done]. Qed.

(** Only a success, or an unspecified error without properties, is read
    as a packet at all: one whose reason is the session-present flag. *)
Definition connack_misread (a : V5.ConnectAck) : bool :=
  match V5.ca_reason_code a with
  | ConnectAckReasonM.Success => true
  | ConnectAckReasonM.UnspecifiedError => len (connack_block a) =? 0
  | _ => false
  end.

(** An empty block, whatever follows. *)
Lemma connack_props_empty s : decode.parse_connack_properties (0 :: s) = (Ok None, s).
Proof.
  pose proof (len_nonneg s).
  assert (Hloop : decode.connack_loop (Z.to_nat (len s)) (len s) None s = (Ok None, s))
    by (destruct (Z.to_nat (len s)); simpl; by rewrite Z.ltb_irrefl).
  assert (Hv : decode.varint (0 :: s) = (Ok 0, s)) by done.
  unfold decode.parse_connack_properties, bind at 1. rewrite Hv.
  unfold bind, ensure. cbn [decode.remaining]. rewrite (proj2 (Z.ltb_ge (len s) 0)) by lia.
  cbn [negb ret]. by rewrite Z.sub_0_r, Hloop, Z.ltb_irrefl.
Qed.

(** A refusal's code is a continuation digit: the length it makes is more
    than what follows. *)
Lemma connack_props_refused r w :
  128 <= r < 256 -> len w <= MAX_PACKET_SIZE -> r <> 128 \/ w <> [] ->
  exists e s', decode.parse_connack_properties (r :: block w) = (Err e, s').
Proof.
  intros Hr Hl Hne. pose proof (len_nonneg w). unfold decode.parse_connack_properties, bind at 1.
  destruct (connack_varint r (len w) w Hr ltac:(lia)) as [(e & s' & He)|He];
    unfold block; rewrite He; [by eexists _, _|].
  unfold bind, ensure. cbn [decode.remaining]. rewrite (proj2 (Z.ltb_lt _ _)); [by eexists _, _|].
  destruct Hne as [Hne|Hne]; [lia|]. destruct w as [|x w]; [done|].
  rewrite len_cons in *. pose proof (len_nonneg w). lia.
Qed.

Lemma parse_connack_v5 a :
  len (connack_block a) <= MAX_PACKET_SIZE ->
  match decode.parse V5 32 (V5Format.body_image (V5.PConnectAck a)) with
  | Ok q => connack_misread a = true /\ q = PConnAck (V3.b2z (V5.ca_session_present a)) false None
  | Err _ => connack_misread a = false
  | _ => False
  end.
Proof.
  intros Hl. cbn [V5Format.body_image]. fold (connack_block a).
  unfold decode.parse. change (decode.parse_body V5 32) with (decode.parse_connack V5).
  unfold decode.parse_connack, connack_misread. cbn [is_v3]. unfold bind at 1.
  cbn [app decode.byte]. cbv iota beta. unfold bind.
  destruct (connack_codes (V5.ca_reason_code a)) as [[Hr Hc]|[[Hr Hc]|(Hr & Hc & Hc')]].
  - rewrite Hr, Hc. by rewrite connack_props_empty.
  - rewrite Hr, Hc. destruct (connack_block a) as [|x w] eqn:Hw.
    + by vm_compute.
    + destruct (connack_props_refused 128 (x :: w)) as (e & s' & ->); [lia|done|by right|].
      rewrite len_cons. pose proof (len_nonneg w). apply Z.eqb_neq. lia.
  - destruct (connack_props_refused (to_u8 (V5.ca_reason_code a)) (connack_block a))
      as (e & s' & ->); [lia|done|left; lia|]. by destruct (V5.ca_reason_code a).
Qed.
End BenchBroker.
