(* ===== verification/BenchOptions.v ===== *)
(** * The load generator's options: [oximqtt-bench/src/options.rs]

    The options and their validation, the random numbers of a client, the
    expansion of patterns, and the payloads that carry a time stamp. The
    process id, which the expansion asks the system for, is a parameter. *)

From stdpp Require Import prelude list strings.
From Stdlib Require Import ZArith Lia SpecFloat.
From S2P Require Import Prelude CodecTypes CodecUtils Connection Floats BenchCodec.
Import types.

Local Open Scope Z_scope.

Inductive Protocol : Type := ProtoV3 | ProtoV5.

#[global] Instance Protocol_eq_dec : EqDecision Protocol.
Proof. solve_decision. Defined.

Definition Protocol_version (p : Protocol) : Version :=
  match p with ProtoV3 => V3 | ProtoV5 => V5 end.

Definition Protocol_display (p : Protocol) : bytes :=
  match p with ProtoV3 => text "3.1.1" | ProtoV5 => text "5.0" end.

(** ** [Opts] *)

Record Opts : Type := mkOpts {
  addrs : list bytes;
  ifaddrs : list bytes;
  conns : Z;
  conn_interval : Z;
  duration : Z;
  id_pattern : bytes;
  o_username : option bytes;
  o_password : option bytes;
  handshake_timeout : Z;
  o_keepalive : Z;
  o_clean : bool;
  sub : bool;
  pub_switch : bool;
  topic_pattern : bytes;
  o_qos : Z;
  o_retain : bool;
  reconn_interval : Z;
  pub_interval : Z;
  o_size : Z;
  message : option bytes;
  max_limit : Z;
  topic_no_range : list Z;
  max_inflight : Z;
  ack_timeout : Z;
  drain : Z;
  v5_pubrel_reason : Z;
  output_interval : Z;
  control : bool;
  ctrl_disconn_ratio : F64.t;
  ctrl_interval : Z;
  lw_topic : option bytes;
  lw_msg : option bytes;
  lw_qos : Z;
  lw_retain : bool;
  json : option bytes;
}.

Definition Opts_default : Opts := {|
  addrs := [text "127.0.0.1:1883"]; ifaddrs := []; conns := 1000; conn_interval := 0;
  duration := 0; id_pattern := text "bench-{pid}-{no}"; o_username := None; o_password := None;
  handshake_timeout := 30; o_keepalive := 60; o_clean := true; sub := false;
  pub_switch := false; topic_pattern := text "{cid}"; o_qos := 1; o_retain := false;
  reconn_interval := 5000; pub_interval := 1000; o_size := 256; message := None; max_limit := 0;
  topic_no_range := [0; 0]; max_inflight := 100; ack_timeout := 30; drain := 0;
  v5_pubrel_reason := 2; output_interval := 5; control := false;
  ctrl_disconn_ratio := F64.div (F64.of_Z 4) (F64.of_Z 10); ctrl_interval := 1000;
  lw_topic := None; lw_msg := None; lw_qos := 0; lw_retain := false; json := None |}.

Definition LATENCY_HEADER_LEN : Z := 10.

(** The two intervals that are raised to one at the end of [validate]. *)
Definition normalized (a : Opts) : Opts := {|
  addrs := addrs a; ifaddrs := ifaddrs a; conns := conns a; conn_interval := conn_interval a;
  duration := duration a; id_pattern := id_pattern a; o_username := o_username a;
  o_password := o_password a; handshake_timeout := handshake_timeout a;
  o_keepalive := o_keepalive a; o_clean := o_clean a; sub := sub a; pub_switch := pub_switch a;
  topic_pattern := topic_pattern a; o_qos := o_qos a; o_retain := o_retain a;
  reconn_interval := reconn_interval a; pub_interval := pub_interval a; o_size := o_size a;
  message := message a; max_limit := max_limit a; topic_no_range := topic_no_range a;
  max_inflight := max_inflight a; ack_timeout := ack_timeout a; drain := drain a;
  v5_pubrel_reason := v5_pubrel_reason a;
  output_interval := if output_interval a =? 0 then 1 else output_interval a;
  control := control a; ctrl_disconn_ratio := ctrl_disconn_ratio a;
  ctrl_interval := if ctrl_interval a =? 0 then 1 else ctrl_interval a;
  lw_topic := lw_topic a; lw_msg := lw_msg a; lw_qos := lw_qos a; lw_retain := lw_retain a;
  json := json a |}.

(** [x < 0.0 || x > 1.0]: false on a NaN. *)
Definition ratio_out_of_range (x : F64.t) : bool :=
  SFltb x F64.zero || SFltb (F64.of_Z 1) x.

(** The [ensure]s of [validate], in their order: each with its message. *)
Definition checks (a : Opts) : list (bool * bytes) :=
  [(conns a =? 0, text "-c/--conns must be greater than 0");
   (2 <? o_qos a, text "-q/--qos must be 0, 1 or 2");
   (len (addrs a) =? 0, text "--addrs must not be empty");
   ((o_size a <? LATENCY_HEADER_LEN) && bool_decide (message a = None),
    text "-s/--size must be at least 10 bytes to carry the latency stamp");
   (ratio_out_of_range (ctrl_disconn_ratio a),
    text "-D/--ctrl-disconn-ratio must be within 0.0..=1.0");
   (negb (len (topic_no_range a) =? 2),
    text "-R/--topic-no-range takes exactly two values: FROM TO");
   (match topic_no_range a with lo :: hi :: _ => hi <? lo | _ => false end,
    text "-R FROM must be <= TO");
   (negb (v5_pubrel_reason a =? 0) && negb (v5_pubrel_reason a =? 2),
    text "--v5-pubrel-reason must be 0 or 2 (Send Onward)");
   ((max_inflight a =? 0) || (65535 <? max_inflight a),
    text "--max-inflight must be within 1..=65535")].

(** The first check that fails. *)
Fixpoint first_failed (l : list (bool * bytes)) : option bytes :=
  match l with
  | [] => None
  | (true, msg) :: _ => Some msg
  | (false, _) :: l => first_failed l
  end.

Definition validate (a : Opts) : outcome bytes Opts :=
  match first_failed (checks a) with
  | Some msg => Err msg
  | None => Ok (normalized a)
  end.

(** [self.topic_no_range[0]], [[1]]: a panic unless there are two. *)
Definition topic_range (a : Opts) : outcome Empty_set (Z * Z) :=
  match topic_no_range a with lo :: hi :: _ => Ok (lo, hi) | _ => Panic end.

Definition payload_len (a : Opts) : Z :=
  match message a with Some m => len m | None => o_size a end.

(** ** [Rng] *)

Definition Rng_new (seed : Z) : Z := Z.lor (wrap 64 (seed * 11400714819323198485)) 1.

(** The new state, and the number. *)
Definition next_u64 (s : Z) : Z * Z :=
  let s := Z.lxor s (Z.shiftr s 12) in
  let s := Z.lxor s (wrap 64 (Z.shiftl s 25)) in
  let s := Z.lxor s (Z.shiftr s 27) in
  (s, wrap 64 (s * 2685821657736535405)).

(** [range.1 - range.0 + 1] panics or wraps where it does not fit a
    [usize]; the remainder panics on a span of zero. *)
Definition next_in (overflow_checks : bool) (s : Z) (range : Z * Z) : outcome Empty_set (Z * Z) :=
  let span := range.2 - range.1 + 1 in
  if overflow_checks && negb ((0 <=? range.2 - range.1) && (span <? 2 ^ 64)) then Panic
  else
    let span := wrap 64 span in
    let '(s, v) := next_u64 s in
    if span =? 0 then Panic else Ok (s, wrap 64 (range.1 + v mod span)).

Definition hex_digit (d : Z) : Z := if d <? 10 then 48 + d else 87 + d.

(** [format!("{:08x}", (next >> 32) as u32)]. *)
Definition token (s : Z) : Z * bytes :=
  let '(s, v) := next_u64 s in
  let w := wrap 32 (Z.shiftr v 32) in
  (s, (fun i => hex_digit (Z.land (Z.shiftr w (4 * i)) 15)) <$> [7; 6; 5; 4; 3; 2; 1; 0]).

(** ** [expand] *)

(** [s.find(c)]: what is before the first [c], and what is after it. *)
Fixpoint find (c : Z) (s : bytes) : option (bytes * bytes) :=
  match s with
  | [] => None
  | x :: s =>
      if x =? c then Some ([], s)
      else match find c s with Some (a, b) => Some (x :: a, b) | None => None end
  end.

Section expansion.
Context (pid_token : bytes).

Definition OPEN : Z := 123.
Definition CLOSE : Z := 125.

(** One name between braces. *)
Definition expand_name (name : bytes) (no : Z) (cid : bytes) (rnd : Z) : Z * bytes :=
  if bool_decide (name = text "no") then (rnd, format_int no)
  else if bool_decide (name = text "cid") then (rnd, cid)
  else if bool_decide (name = text "random") then token rnd
  else if bool_decide (name = text "pid") then (rnd, pid_token)
  else (rnd, [OPEN] ++ name ++ [CLOSE]).

(** The [while let Some(pos) = rest.find('{')]: every iteration takes a
    byte of [rest] at least. *)
Fixpoint expand_loop (fuel : nat) (out rest : bytes) (no : Z) (cid : bytes) (rnd : Z)
    : outcome Empty_set (Z * bytes) :=
  match fuel with
  | O => Diverged
  | S fuel =>
      match find OPEN rest with
      | Some (before, tail) =>
          let out := out ++ before in
          match find CLOSE tail with
          | Some (name, after) =>
              let '(rnd, value) := expand_name name no cid rnd in
              expand_loop fuel (out ++ value) after no cid rnd
          | None => expand_loop fuel (out ++ [OPEN]) tail no cid rnd
          end
      | None => Ok (rnd, out ++ rest)
      end
  end.

Definition expand (pattern : bytes) (no : Z) (cid : bytes) (rnd : Z)
    : outcome Empty_set (Z * bytes) :=
  match find OPEN pattern with
  | None => Ok (rnd, pattern)
  | Some _ => expand_loop (S (length pattern)) [] pattern no cid rnd
  end.
End expansion.

(** ** [PayloadBuilder] *)

Definition LATENCY_MAGIC : bytes := [181; 76].

Record PayloadBuilder : Type := mkPayloadBuilder {
  template : bytes;
  stamped : bool;
}.

(** [buf[from..from + len(w)].copy_from_slice(w)] within the buffer. *)
Definition copy_at (from : nat) (w buf : bytes) : bytes :=
  take from buf ++ w ++ drop (from + length w) buf.

Definition PayloadBuilder_new (a : Opts) : PayloadBuilder :=
  let template := match message a with Some m => m | None => replicate (Z.to_nat (o_size a)) 120 end in
  let stamped := LATENCY_HEADER_LEN <=? len template in
  mkPayloadBuilder (if stamped then copy_at 0 LATENCY_MAGIC template else template) stamped.

(** [ts_us.to_be_bytes()]. *)
Fixpoint to_be_bytes (n : nat) (v : Z) : bytes :=
  match n with
  | O => []
  | S n => to_be_bytes n (v / 256) ++ [v mod 256]
  end.

Definition from_be_bytes (s : bytes) : Z := foldl (fun n b => n * 256 + b) 0 s.

Definition build (pb : PayloadBuilder) (ts_us : Z) : bytes :=
  if stamped pb then copy_at 2 (to_be_bytes 8 ts_us) (template pb) else template pb.

Definition MAX_TS : Z := 3600000000000.

Definition parse_payload (payload : bytes) : option Z :=
  if (len payload <? LATENCY_HEADER_LEN) || negb (bool_decide (take 2 payload = LATENCY_MAGIC)) then
    None
  else
    let ts := from_be_bytes (take 8 (drop 2 payload)) in
    if (ts =? 0) || (MAX_TS <? ts) then None else Some ts.

(** ** Facts *)

Lemma find_length c s a b : find c s = Some (a, b) -> (length b < length s)%nat.
Proof.
  revert a b. induction s as [|x s IH]; intros a b; simpl; [done|].
  destruct (x =? c); [intros [= <- <-]; lia|].
  destruct (find c s) as [[a' b']|]; [|done]. intros [= <- <-]. specialize (IH _ _ eq_refl). lia.
Qed.

Lemma expand_loop_returns pid fuel out rest no cid rnd :
  (length rest < fuel)%nat ->
  exists rnd' s, expand_loop pid fuel out rest no cid rnd = Ok (rnd', s).
Proof.
  revert out rest rnd. induction fuel as [|fuel IH]; intros out rest rnd Hf; [lia|].
  cbn [expand_loop]. destruct (find OPEN rest) as [[before tail]|] eqn:Ho; [|eauto].
  apply find_length in Ho. destruct (find CLOSE tail) as [[name after]|] eqn:Hc.
  - apply find_length in Hc. destruct (expand_name pid name no cid rnd) as [rnd' value].
    apply IH. lia.
  - apply IH. lia.
Qed.

(** The expansion ends, whatever the pattern. *)
Lemma expand_returns pid pattern no cid rnd :
  exists rnd' s, expand pid pattern no cid rnd = Ok (rnd', s).
Proof.
  unfold expand. destruct (find OPEN pattern); [apply expand_loop_returns; lia|eauto].
Qed.

(** The examples of the module's tests. *)
Lemma expand_examples :
  expand (text "77") (text "iot/{no}") 42 (text "c-1") 1 = Ok (1, text "iot/42") /\
  expand (text "77") (text "{cid}/up") 7 (text "abc") 1 = Ok (1, text "abc/up") /\
  expand (text "77") (text "p-{pid}") 1 (text "x") 1 = Ok (1, text "p-77") /\
  expand (text "77") (text "{unknown}/{no}") 3 (text "x") 1 = Ok (1, text "{unknown}/3") /\
  expand (text "77") (text "broken/{no") 3 (text "x") 1 = Ok (1, text "broken/{no").
Proof. by vm_compute. Qed.

Lemma validate_ok a a' :
  validate a = Ok a' ->
  a' = normalized a /\ conns a <> 0 /\ o_qos a <= 2 /\ addrs a <> [] /\
  (exists lo hi, topic_no_range a = [lo; hi] /\ lo <= hi) /\
  (v5_pubrel_reason a = 0 \/ v5_pubrel_reason a = 2) /\
  (0 <= max_inflight a -> 1 <= max_inflight a <= 65535).
Proof.
  unfold validate. destruct (first_failed (checks a)) as [|] eqn:Hc; [done|]. intros [= <-].
  unfold checks in Hc. cbn [first_failed] in Hc.
  repeat match type of Hc with match ?b with _ => _ end = _ => destruct b eqn:?; [done|] end.
  repeat match goal with
  | H : negb _ = false |- _ => apply negb_false_iff in H
  | H : (_ && _) = false |- _ => apply andb_false_iff in H
  | H : (_ || _) = false |- _ => apply orb_false_iff in H; destruct H
  | H : (_ =? _) = false |- _ => apply Z.eqb_neq in H
  | H : (_ =? _) = true |- _ => apply Z.eqb_eq in H
  | H : (_ <? _) = false |- _ => apply Z.ltb_ge in H
  end.
  split_and!; try done.
  - intros Ha. by rewrite Ha in *.
  - destruct (topic_no_range a) as [|lo [|hi [|? l]]]; try done.
    + exists lo, hi. split; [done|]. lia.
    + rewrite !len_cons in *. pose proof (len_nonneg l). lia.
  - match goal with H : _ \/ _ |- _ => revert H end.
    destruct (Z.eqb_spec (v5_pubrel_reason a) 0), (Z.eqb_spec (v5_pubrel_reason a) 2); auto.
    intros [?|?]; done.
  - lia.
Qed.

(** A range that the options allow has no span in 64 bits. *)
Lemma next_in_full_range :
  exists a a' range, validate a = Ok a' /\ topic_range a' = Ok range /\
    forall oc s, next_in oc s range = Panic.
Proof.
  exists {|
    addrs := [text "a"]; ifaddrs := []; conns := 1; conn_interval := 0; duration := 0;
    id_pattern := []; o_username := None; o_password := None; handshake_timeout := 30;
    o_keepalive := 60; o_clean := true; sub := false; pub_switch := true;
    topic_pattern := text "t/{no}"; o_qos := 1; o_retain := false; reconn_interval := 5000;
    pub_interval := 1000; o_size := 256; message := None; max_limit := 0;
    topic_no_range := [0; 18446744073709551615]; max_inflight := 100; ack_timeout := 30;
    drain := 0; v5_pubrel_reason := 2; output_interval := 5; control := false;
    ctrl_disconn_ratio := F64.zero; ctrl_interval := 1000; lw_topic := None; lw_msg := None;
    lw_qos := 0; lw_retain := false; json := None |}.
  eexists _, _. split; [by vm_compute|]. split; [by vm_compute|]. intros [] s; [done|].
  unfold next_in. by destruct (next_u64 s).
Qed.

(** Every other range gives a number of it. *)
Lemma next_in_bounds oc s lo hi :
  0 <= lo <= hi -> hi < 2 ^ 64 -> hi - lo + 1 < 2 ^ 64 ->
  exists s' n, next_in oc s (lo, hi) = Ok (s', n) /\ lo <= n <= hi.
Proof.
  intros Hlo Hhi Hspan. unfold next_in. cbn [fst snd].
  rewrite (proj2 (Z.leb_le 0 (hi - lo))), (proj2 (Z.ltb_lt _ _)), andb_false_r by lia.
  destruct (next_u64 s) as [s' v]. rewrite (wrap_small 64 (hi - lo + 1)) by (unfold is_u; lia).
  rewrite (proj2 (Z.eqb_neq _ 0)) by lia.
  pose proof (Z.mod_pos_bound v (hi - lo + 1) ltac:(lia)).
  rewrite wrap_small by (unfold is_u; lia). eexists _, _. split; [done|lia].
Qed.

(** The generator is never seeded with zero, its one fixed point. *)
Lemma Rng_new_odd seed : Z.testbit (Rng_new seed) 0 = true.
Proof. unfold Rng_new. by rewrite Z.lor_spec, orb_true_r. Qed.

Lemma length_to_be_bytes n v : length (to_be_bytes n v) = n.
Proof. revert v. induction n as [|n IH]; intros v; [done|]. simpl. rewrite length_app, IH. simpl. lia. Qed.

Lemma from_to_be_bytes n v : 0 <= v < 256 ^ Z.of_nat n -> from_be_bytes (to_be_bytes n v) = v.
Proof.
  unfold from_be_bytes. revert v. induction n as [|n IH]; intros v Hv.
  - change (256 ^ Z.of_nat 0) with 1 in Hv. simpl. lia.
  - cbn [to_be_bytes]. rewrite foldl_app. replace (Z.of_nat (S n)) with (Z.of_nat n + 1) in Hv by lia.
    rewrite Z.pow_add_r, Z.pow_1_r in Hv by lia. rewrite IH; [simpl; pose proof (Z.div_mod v 256); lia|].
    split; [apply Z.div_pos; lia|apply Z.div_lt_upper_bound; lia].
Qed.

(** The content that the options ask for. *)
Definition content (a : Opts) : bytes :=
  match message a with Some m => m | None => replicate (Z.to_nat (o_size a)) 120 end.

Lemma content_len a : 0 <= o_size a -> len (content a) = payload_len a.
Proof.
  intros H. unfold content, payload_len. destruct (message a); [done|].
  unfold len. rewrite length_replicate. lia.
Qed.

(** Stamping keeps all but the first ten bytes. *)
Lemma build_stamped a ts :
  LATENCY_HEADER_LEN <= len (content a) ->
  build (PayloadBuilder_new a) ts = LATENCY_MAGIC ++ to_be_bytes 8 ts ++ drop 10 (content a).
Proof.
  intros Hl. unfold build, PayloadBuilder_new. fold (content a).
  rewrite (proj2 (Z.leb_le _ _)) by done. cbn [stamped template]. unfold copy_at.
  rewrite length_to_be_bytes. change (take 0 (content a)) with (@nil Z).
  change (length LATENCY_MAGIC) with 2%nat. cbn [app Nat.add].
  change (drop 10 (LATENCY_MAGIC ++ drop 2 (content a))) with (drop 8 (drop 2 (content a))).
  by rewrite drop_drop.
Qed.

(** The time stamp of the load generator survives the broker: a
    payload of ten bytes or more has the size that the options ask for,
    its content from the eleventh byte on, and the receiver reads from it
    the microseconds with which it was built, if they are between one and
    3 600 000 000 000; a shorter message is sent as it is and is
    never taken for a stamp. *)
Theorem payload_stamp_roundtrip (a : Opts) (ts : Z) :
  0 <= o_size a -> 0 <= ts < 2 ^ 64 ->
  let payload := build (PayloadBuilder_new a) ts in
  len payload = payload_len a /\
  if LATENCY_HEADER_LEN <=? payload_len a then
    drop 10 payload = drop 10 (content a) /\
    parse_payload payload = if (0 <? ts) && (ts <=? MAX_TS) then Some ts else None
  else payload = content a /\ parse_payload payload = None.
Proof.
  intros Hsize Hts payload. rewrite <- (content_len a Hsize).
  destruct (Z.leb_spec LATENCY_HEADER_LEN (len (content a))) as [Hl|Hl].
  - assert (Hp : payload = LATENCY_MAGIC ++ to_be_bytes 8 ts ++ drop 10 (content a))
      by (by apply build_stamped).
    assert (Hlen : length (to_be_bytes 8 ts) = 8%nat) by apply length_to_be_bytes.
    assert (Hpl : len payload = len (content a)).
    { rewrite Hp. unfold len, LATENCY_HEADER_LEN in *. rewrite !length_app, Hlen, length_drop.
      change (length LATENCY_MAGIC) with 2%nat. lia. }
    split; [done|]. split.
    + rewrite Hp, app_assoc. by rewrite drop_app_length' by (rewrite length_app, Hlen; done).
    + unfold parse_payload. rewrite Hpl, (proj2 (Z.ltb_ge _ _)) by done. rewrite Hp.
      change (take 2 (LATENCY_MAGIC ++ to_be_bytes 8 ts ++ drop 10 (content a))) with LATENCY_MAGIC.
      change (drop 2 (LATENCY_MAGIC ++ to_be_bytes 8 ts ++ drop 10 (content a)))
        with (to_be_bytes 8 ts ++ drop 10 (content a)).
      rewrite take_app_length' by done. rewrite from_to_be_bytes by (change (256 ^ Z.of_nat 8) with (2 ^ 64); lia).
      cbn [orb]. rewrite bool_decide_true by done. cbn [negb]. unfold MAX_TS.
      destruct (Z.eqb_spec ts 0), (Z.ltb_spec 0 ts), (Z.ltb_spec 3600000000000 ts),
        (Z.leb_spec ts 3600000000000); try lia; done.
  - assert (Hp : payload = content a).
    { unfold payload, build, PayloadBuilder_new. fold (content a).
      by rewrite (proj2 (Z.leb_gt _ _)) by done. }
    rewrite Hp. split; [done|]. split; [done|]. unfold parse_payload.
    by rewrite (proj2 (Z.ltb_lt _ _)) by done.
Qed.

Lemma payload_stamp_roundtrip_witness :
  build (PayloadBuilder_new Opts_default) 1234567 =
    LATENCY_MAGIC ++ [0; 0; 0; 0; 0; 18; 214; 135] ++ replicate 246 120 /\
  parse_payload (build (PayloadBuilder_new Opts_default) 1234567) = Some 1234567.
Proof.
  split; [by vm_compute|].
  by apply (payload_stamp_roundtrip Opts_default 1234567).
Defined.

(** [--message] of ten bytes or more is not sent as it was given. *)
Definition message_opts (m : bytes) : Opts := {|
  addrs := []; ifaddrs := []; conns := 1; conn_interval := 0; duration := 0; id_pattern := [];
  o_username := None; o_password := None; handshake_timeout := 30; o_keepalive := 60;
  o_clean := true; sub := false; pub_switch := true; topic_pattern := []; o_qos := 1;
  o_retain := false; reconn_interval := 5000; pub_interval := 1000; o_size := 256;
  message := Some m; max_limit := 0; topic_no_range := [0; 0]; max_inflight := 100;
  ack_timeout := 30; drain := 0; v5_pubrel_reason := 2; output_interval := 5; control := false;
  ctrl_disconn_ratio := F64.zero; ctrl_interval := 1000; lw_topic := None; lw_msg := None;
  lw_qos := 0; lw_retain := false; json := None |}.

Lemma fixed_message_overwritten :
  build (PayloadBuilder_new (message_opts (text "hello world"))) 7 =
    [181; 76; 0; 0; 0; 0; 0; 0; 0; 7; 100].
Proof. by vm_compute. Qed.
