(* ===== verification/BenchClient.v ===== *)
(** * The clients of the load generator: [oximqtt-bench/src/client.rs],
    [oximqtt-bench/src/packets.rs], [oximqtt-bench/src/churn.rs]

    A client connects, subscribes, publishes within its window of packet
    identifiers and answers what it receives. The branches of its
    [select!] are the events of [traffic_step]; the clock, the process id
    and the packets that arrive are arguments. The counters are those of
    [Bench.Histogram], which all clients share. *)

From stdpp Require Import prelude list gmap fin_maps strings.
From Stdlib Require Import ZArith Lia.
From S2P Require Import Prelude CodecTypes CodecUtils Connection Floats Utils BrokerTypes Bench BenchCodec BenchTransport BenchOptions.
Import types.
Import BrokerTypes.
Import Histogram(Stats, conn_attempt, conn_established, conn_failed, conn_closed, reconnected, subscribed, sent, acked, inflight_inc, inflight_dec, inflight_blocked, pinged, duplicated, received, record_latency).
Import Window(Slots, release, in_use).

Local Open Scope Z_scope.

(** ** [packets.rs] *)

Inductive Ack : Type := AckPubAck | AckPubRec | AckPubRel | AckPubComp.

Record Ctx : Type := mkCtx {
  args : Opts;
  proto : Protocol;
  peers : list bytes;
  binds : list bytes;
  payloads : PayloadBuilder;
}.

Definition run_qos (ctx : Ctx) : QoS := from_u8 (o_qos (args ctx)).

Definition will_of (a : Opts) : option Will :=
  match lw_topic a with
  | None => None
  | Some topic => Some (mkWill topic (default [] (lw_msg a)) (from_u8 (lw_qos a)) (lw_retain a))
  end.

Definition connect_packet (ctx : Ctx) (client_id : bytes) : Packet :=
  let a := args ctx in
  PConnect (mkConnect (o_clean a) (o_keepalive a) client_id (o_username a) (o_password a) (will_of a)
    (if bool_decide (proto ctx = ProtoV5) then if o_clean a then None else Some 7200 else None)).

Definition subscribe_packet (ctx : Ctx) (filter : bytes) (pid : Z) : Packet :=
  PSubscribe pid [(filter, run_qos ctx)].

Definition publish_packet (ctx : Ctx) (topic payload : bytes) (pid : option Z) : Packet :=
  PPublish (mkPublish topic payload (run_qos ctx) (o_retain (args ctx)) false pid).

Definition ack_packet (ctx : Ctx) (kind : Ack) (pid : Z) : Packet :=
  match kind with
  | AckPubAck => PPubAck pid 0
  | AckPubRec => PPubRec pid 0
  | AckPubRel => PPubRel pid (v5_pubrel_reason (args ctx))
  | AckPubComp => PPubComp pid 0
  end.

Definition reply_for (qos : Z) (packet_id : option Z) : option (Ack * Z) :=
  match qos, packet_id with
  | 1, Some pid => Some (AckPubAck, pid)
  | 2, Some pid => Some (AckPubRec, pid)
  | _, _ => None
  end.

Inductive Incoming : Type :=
| InConnAck (accepted : bool) (reason : bytes) (receive_max : option Z)
| InSubAck (granted : list (option Z))
| InPublish (topic payload : bytes) (qos : Z) (retain : bool) (packet_id : option Z)
| InPubAck (pid : Z)
| InPubRec (pid : Z)
| InPubRel (pid : Z)
| InPubComp (pid : Z)
| InPingResp
| ServerDisconnect (reason : bytes)
| Ignored.

Definition connack_name (code : Z) : bytes :=
  match code with
  | 0 => text "Accepted"
  | 1 => text "UnacceptableProtocolVersion"
  | 2 => text "IdentifierRejected"
  | 3 => text "ServerUnavailable"
  | 4 => text "BadUserNameOrPassword"
  | 5 => text "NotAuthorized"
  | 128 => text "UnspecifiedError"
  | 129 => text "MalformedPacket"
  | 130 => text "ProtocolError"
  | 131 => text "ImplementationSpecificError"
  | 132 => text "UnsupportedProtocolVersion"
  | 133 => text "ClientIdentifierNotValid"
  | 134 => text "BadAuthenticationMethod"
  | 135 => text "NotAuthorized"
  | 136 => text "ServerUnavailable"
  | 137 => text "ServerBusy"
  | 138 => text "Banned"
  | 140 => text "BadUserNameOrPassword"
  | 144 => text "TopicNameInvalid"
  | 149 => text "QuotaExceeded"
  | 151 => text "PayloadFormatInvalid"
  | 153 => text "TopicFilterInvalid"
  | _ => if between 6 code 127 then text "ReservedSuccess" else text "Unknown"
  end.

Definition classify (pkt : Packet) : Incoming :=
  match pkt with
  | PConnAck reason _ receive_max => InConnAck (reason =? 0) (connack_name reason) receive_max
  | PSubAck _ reasons => InSubAck ((fun r => if r <? 128 then Some r else None) <$> reasons)
  | PPublish p => InPublish (topic p) (payload p) (as_u8 (qos p)) (retain p) (pid p)
  | PPubAck pid _ => InPubAck pid
  | PPubRec pid _ => InPubRec pid
  | PPubRel pid _ => InPubRel pid
  | PPubComp pid _ => InPubComp pid
  | PPingResp => InPingResp
  | PDisconnect reason => ServerDisconnect (connack_name reason)
  | PUnsubAck _ _ | PConnect _ | PSubscribe _ _ | PUnsubscribe _ _ | PPingReq => Ignored
  end.

(** ** [Ctx] *)

(** A computation that has no error of its own. *)
Definition never {E A} (o : outcome Empty_set A) : outcome E A :=
  match o with
  | Ok a => Ok a | Err e => match e with end | Panic => Panic | Diverged => Diverged
  end.

(** The broker and the local address of connection [no]: the remainder
    panics when no broker was resolved, which [Ctx::build] excludes. *)
Definition endpoints (ctx : Ctx) (no : nat) : option (bytes * option bytes) :=
  match peers ctx !! (no mod length (peers ctx))%nat with
  | None => None
  | Some peer =>
      Some (peer, match binds ctx with
                  | [] => None
                  | _ => binds ctx !! (no mod length (binds ctx))%nat
                  end)
  end.

(** ** [Outbound] *)

Record InflightMsg : Type := mkInflightMsg { ts_us : Z; pubrel_sent : bool }.

Record Outbound : Type := mkOutbound {
  ob_qos : Z;
  slots : Slots;
  inflight : gmap Z InflightMsg;
  ob_sent : Z;
  rnd : Z;
}.

Definition set_slots (o : Outbound) (s : Slots) (m : gmap Z InflightMsg) : Outbound :=
  mkOutbound (ob_qos o) s m (ob_sent o) (rnd o).

(** The window of a connection: the option, or less if the broker says so. *)
Definition window_of (a : Opts) (receive_max : option Z) : Z :=
  match receive_max with
  | Some broker => Z.max (Z.min (max_inflight a) broker) 1
  | None => max_inflight a
  end.

Definition Outbound_new (ctx : Ctx) (no : Z) (receive_max : option Z) : Outbound :=
  mkOutbound (o_qos (args ctx)) (Window.new (Z.to_nat (window_of (args ctx) receive_max))) ∅ 0
    (Rng_new (no + 1)).

Definition limit_reached (o : Outbound) (ctx : Ctx) : bool :=
  (0 <? max_limit (args ctx)) && (max_limit (args ctx) <=? ob_sent o).

Section client.
Context (pid_token : bytes) (overflow_checks : bool).

Definition Ctx_client_id (ctx : Ctx) (no : Z) : outcome Empty_set bytes :=
  match expand pid_token (id_pattern (args ctx)) no (text "bench-" ++ format_int no)
          (Rng_new (no + 1)) with
  | Ok (_, id) => Ok id
  | Err e => Err e | Panic => Panic | Diverged => Diverged
  end.

(** One iteration of the [while] of [fill] once the identifier [pid] is
    taken, 0 in QoS 0. *)
Definition fill_one (ctx : Ctx) (id : bytes) (range : Z * Z) (ts : Z) (pid : Z)
    (o : Outbound) (pending : list Packet) (st : Stats)
    : outcome Empty_set (Outbound * list Packet * Stats) :=
  match next_in overflow_checks (rnd o) range with
  | Ok (rnd, no) =>
      match expand pid_token (topic_pattern (args ctx)) no id rnd with
      | Ok (rnd, topic) =>
          let payload := build (payloads ctx) ts in
          let wire := encode.publish_wire_size (Protocol_version (proto ctx)) topic (len payload)
                        (ob_qos o) in
          let '(m, st) :=
            if 0 <? ob_qos o then
              (<[pid := mkInflightMsg ts false]> (inflight o), inflight_inc st)
            else (inflight o, st) in
          let pending := pending ++
            [publish_packet ctx topic payload (if 0 <? ob_qos o then Some pid else None)] in
          Ok (mkOutbound (ob_qos o) (slots o) m (wrap 64 (ob_sent o + 1)) rnd, pending, sent st wire)
      | Err e => Err e | Panic => Panic | Diverged => Diverged
      end
  | Err e => Err e | Panic => Panic | Diverged => Diverged
  end.

(** [fuel] is what the batch has left; [clock] gives the time of each
    iteration. *)
Fixpoint fill_loop (fuel : nat) (ctx : Ctx) (id : bytes) (range : Z * Z) (clock : nat -> Z)
    (o : Outbound) (pending : list Packet) (st : Stats)
    : outcome Empty_set (Outbound * list Packet * Stats) :=
  match fuel with
  | O => Ok (o, pending, st)
  | S fuel =>
      if limit_reached o ctx then Ok (o, pending, st)
      else
        let claim :=
          if 0 <? ob_qos o then
            match Window.take (slots o) with
            | (Some pid, slots) => Some (pid, set_slots o slots (inflight o))
            | (None, _) => None
            end
          else Some (0, o) in
        match claim with
        | None => Ok (o, pending, inflight_blocked st)
        | Some (pid, o) =>
            match fill_one ctx id range (clock fuel) pid o pending st with
            | Ok (o, pending, st) => fill_loop fuel ctx id range clock o pending st
            | stop => stop
            end
        end
  end.

Definition fill (ctx : Ctx) (id : bytes) (clock : nat -> Z) (o : Outbound)
    (pending : list Packet) (st : Stats) : outcome Empty_set (Outbound * list Packet * Stats) :=
  match topic_range (args ctx) with
  | Ok range =>
      let batch := if pub_interval (args ctx) =? 0 then max_inflight (args ctx) else 1 in
      fill_loop (Z.to_nat batch) ctx id range clock o pending st
  | Err e => Err e | Panic => Panic | Diverged => Diverged
  end.

Definition on_ack (o : Outbound) (pid : Z) (st : Stats) : Outbound * Stats :=
  match inflight o !! pid with
  | Some _ =>
      (set_slots o (release (slots o) pid) (delete pid (inflight o)), acked (inflight_dec st))
  | None => (o, Histogram.error st (text "ack for unknown packet id " ++ format_int pid))
  end.

Definition stuck (o : Outbound) : nat := in_use (slots o).

Definition on_pubrec (ctx : Ctx) (o : Outbound) (pid : Z) (pending : list Packet)
    : Outbound * list Packet :=
  match inflight o !! pid with
  | Some msg =>
      (set_slots o (slots o) (<[pid := mkInflightMsg (ts_us msg) true]> (inflight o)),
       pending ++ [ack_packet ctx AckPubRel pid])
  | None => (o, pending)
  end.

Definition unreleased_pubrel (o : Outbound) : nat :=
  length (filter (fun m : Z * InflightMsg => pubrel_sent m.2 = true) (map_to_list (inflight o))).

Fixpoint drop_stale (pids : list Z) (o : Outbound) (st : Stats) : Outbound * Stats :=
  match pids with
  | [] => (o, st)
  | pid :: pids =>
      drop_stale pids (set_slots o (release (slots o) pid) (delete pid (inflight o)))
        (Histogram.ack_timeout (inflight_dec st))
  end.

Definition stale (o : Outbound) (cutoff : Z) : list Z :=
  fst <$> filter (fun m : Z * InflightMsg => ts_us m.2 < cutoff) (map_to_list (inflight o)).

Definition sweep_timeouts (ctx : Ctx) (now_us : Z) (o : Outbound) (st : Stats)
    : outcome Empty_set (Outbound * Stats) :=
  if ack_timeout (args ctx) =? 0 then Ok (o, st)
  else
    match fit overflow_checks (ack_timeout (args ctx) * 1000000) with
    | Ok d => Ok (drop_stale (stale o (Z.max 0 (now_us - d))) o st)
    | Err e => Err e | Panic => Panic | Diverged => Diverged
    end.

(** ** Receiving *)

Inductive ClientError : Type :=
| TcpConnectFailed
| ConnAckTimeout
| SubAckTimeout
| ConnectionRefused (reason : bytes)
| ConnectionDropped (reason : bytes)
| SubscriptionRefused
| DisconnectedDuringSetup (reason : bytes)
| ServerSentDisconnect (reason : bytes)
| ReadError (e : IoError) (hint : bool)
| WriteError (e : IoError).

(** [ctx.stats.received(…)] and the latency of a stamped payload. *)
Definition count_publish (now : Z) (payload : bytes) (retain : bool) (st : Stats) : Stats :=
  let st := received st (len payload) retain in
  match parse_payload payload with
  | Some ts => record_latency st (Z.max 0 (now - ts))
  | None => st
  end.

(** [v.swap_remove(pos)]: the last element takes the place of the removed one. *)
Definition swap_remove {A} (pos : nat) (v : list A) : list A :=
  match last v with
  | Some x => removelast (<[pos := x]> v)
  | None => v
  end.

(** [v.iter().position(|p| *p == pid)]. *)
Fixpoint position (pid : Z) (v : list Z) : option nat :=
  match v with
  | [] => None
  | x :: v => if x =? pid then Some O else S <$> position pid v
  end.

Definition remove_pid (pid : Z) (v : list Z) : list Z :=
  match position pid v with Some pos => swap_remove pos v | None => v end.

(** What a connection owns in its steady state, and the counters. *)
Record Session : Type := mkSession {
  out : Outbound;
  awaiting_rel : list Z;
  pending : list Packet;
  stats : Stats;
}.

Definition push (s : Session) (p : Packet) : Session :=
  mkSession (out s) (awaiting_rel s) (pending s ++ [p]) (stats s).

Definition on_incoming (ctx : Ctx) (now : Z) (pkt : Incoming) (s : Session)
    : outcome ClientError Session :=
  match pkt with
  | InPublish _ payload qos retain packet_id =>
      let st := count_publish now payload retain (stats s) in
      match qos, packet_id with
      | 1, Some pid =>
          Ok (push (mkSession (out s) (awaiting_rel s) (pending s) st) (ack_packet ctx AckPubAck pid))
      | 2, Some pid =>
          let '(awaiting, st) :=
            if bool_decide (pid ∈ awaiting_rel s) then (awaiting_rel s, duplicated st)
            else (awaiting_rel s ++ [pid], st) in
          Ok (push (mkSession (out s) awaiting (pending s) st) (ack_packet ctx AckPubRec pid))
      | _, _ => Ok (mkSession (out s) (awaiting_rel s) (pending s) st)
      end
  | InPubRel pid =>
      Ok (push (mkSession (out s) (remove_pid pid (awaiting_rel s)) (pending s) (stats s))
            (ack_packet ctx AckPubComp pid))
  | InPubAck pid | InPubComp pid =>
      let '(o, st) := on_ack (out s) pid (stats s) in
      Ok (mkSession o (awaiting_rel s) (pending s) st)
  | InPubRec pid =>
      let '(o, pending) := on_pubrec ctx (out s) pid (pending s) in
      Ok (mkSession o (awaiting_rel s) pending (stats s))
  | ServerDisconnect reason => Err (ServerSentDisconnect reason)
  | InConnAck false reason _ => Err (ConnectionDropped reason)
  | _ => Ok s
  end.

(** ** The steady state *)

(** [for pkt in pending.drain(..) { wr.send(&pkt)?; } wr.flush()]. *)
Definition flush_pending (w : Writer) (pending : list Packet) : outcome ClientError Writer * Writer :=
  match send_all w pending with
  | (Ok _, w) =>
      match BenchTransport.flush w with
      | (Ok _, w) => (Ok w, w)
      | (Err e, w) => (Err (WriteError e), w)
      | (Panic, w) => (Panic, w)
      | (Diverged, w) => (Diverged, w)
      end
  | (Err e, w) => (Err (WriteError e), w)
  | (Panic, w) => (Panic, w)
  | (Diverged, w) => (Diverged, w)
  end.

Record Traffic : Type := mkTraffic {
  session : Session;
  pub_done : bool;
  writer : Writer;
}.

(** The branch that the [select!] takes, with what it reads of the clock:
    [due] is [last_write.elapsed() >= keepalive]. [StopTick] carries what
    [drain] still receives. *)
Inductive Event : Type :=
| PacketRead (pkt : Packet) (now : Z)
| ReadFailed (e : IoError)
| PubTick (clock : nat -> Z)
| PingTick (due : bool)
| SweepTick (now : Z)
| StopTick (drained : list (Packet * Z)).

Inductive SessionEnd : Type := Reconnect | Finished.

(** [Ok(None)] when the loop goes on. *)
Definition Step : Type := outcome ClientError (option SessionEnd) * Traffic.

Definition clear (t : Traffic) : Session :=
  mkSession (out (session t)) (awaiting_rel (session t)) [] (stats (session t)).

(** A flush of what is pending, and then the result [r]. *)
Definition flush_then (s : Session) (done : bool) (w : Writer) (r : option SessionEnd) : Step :=
  match flush_pending w (pending s) with
  | (Ok _, w) => (Ok r, mkTraffic (mkSession (out s) (awaiting_rel s) [] (stats s)) done w)
  | (Err e, w) => (Err e, mkTraffic s done w)
  | (Panic, w) => (Panic, mkTraffic s done w)
  | (Diverged, w) => (Diverged, mkTraffic s done w)
  end.

Fixpoint drain_packets (ctx : Ctx) (inputs : list (Packet * Z)) (s : Session) (done : bool)
    (w : Writer) : Step :=
  match inputs with
  | [] => flush_then s done w (Some Reconnect)
  | (pkt, now) :: inputs =>
      match on_incoming ctx now (classify pkt) s with
      | Ok s =>
          match flush_then s done w None with
          | (Ok _, t) => drain_packets ctx inputs (session t) done (writer t)
          | stop => stop
          end
      | Err e => (Err e, mkTraffic s done w)
      | Panic => (Panic, mkTraffic s done w)
      | Diverged => (Diverged, mkTraffic s done w)
      end
  end.

(** The hint of a read error: a PUBREL that was never confirmed. *)
Definition read_error_hint (ctx : Ctx) (o : Outbound) : bool :=
  bool_decide (proto ctx = ProtoV5) && (0 <? unreleased_pubrel o)%nat.

(** One iteration of the loop of [traffic]; [kicked] is [take_kick]. *)
Definition traffic_step (ctx : Ctx) (id : bytes) (e : Event) (kicked : bool) (t : Traffic) : Step :=
  let s := clear t in
  let go_on s done := flush_then s done (writer t) (if kicked then Some Reconnect else None) in
  let fail o : Step := (o, mkTraffic s (pub_done t) (writer t)) in
  match e with
  | PacketRead pkt now =>
      match on_incoming ctx now (classify pkt) s with
      | Ok s => go_on s (pub_done t)
      | Err e => fail (Err e) | Panic => fail Panic | Diverged => fail Diverged
      end
  | ReadFailed e =>
      let '(_, w) := BenchTransport.flush (writer t) in
      (Err (ReadError e (read_error_hint ctx (out s))), mkTraffic s (pub_done t) w)
  | PubTick clock =>
      if negb (pub_switch (args ctx) && negb (pub_done t)) then (Ok None, t)
      else
        match fill ctx id clock (out s) [] (stats s) with
        | Ok (o, pending, st) =>
            let s := mkSession o (awaiting_rel s) pending st in
            let done := limit_reached o ctx in
            if done && negb (sub (args ctx)) then flush_then s done (writer t) (Some Finished)
            else go_on s done
        | Err e => match e with end | Panic => fail Panic | Diverged => fail Diverged
        end
  | PingTick due =>
      if due then
        go_on (push (mkSession (out s) (awaiting_rel s) [] (pinged (stats s))) PPingReq) (pub_done t)
      else go_on s (pub_done t)
  | SweepTick now =>
      match sweep_timeouts ctx now (out s) (stats s) with
      | Ok (o, st) => go_on (mkSession o (awaiting_rel s) [] st) (pub_done t)
      | Err e => match e with end | Panic => fail Panic | Diverged => fail Diverged
      end
  | StopTick drained =>
      match flush_then s (pub_done t) (writer t) None with
      | (Ok _, t) =>
          if 0 <? drain (args ctx) then drain_packets ctx drained (session t) (pub_done t) (writer t)
          else (Ok (Some Reconnect), t)
      | stop => stop
      end
  end.

(** ** Setting up *)

Inductive Want : Type := WantConnAck | WantSubAck.

Inductive Input : Type :=
| Got (pkt : Packet) (now : Z)
| Broken (e : IoError).

(** [Ok None] when the inputs end before the packet that is wanted. *)
Fixpoint wait_for (ctx : Ctx) (want : Want) (inputs : list Input) (w : Writer) (st : Stats)
    : outcome ClientError (option (option Z)) * Writer * Stats :=
  match inputs with
  | [] => (Ok None, w, st)
  | Broken e :: _ => (Err (ReadError e false), w, st)
  | Got pkt now :: inputs =>
      match classify pkt, want with
      | InConnAck accepted reason receive_max, WantConnAck =>
          if accepted then (Ok (Some receive_max), w, st)
          else (Err (ConnectionRefused reason), w, st)
      | InSubAck granted, WantSubAck =>
          if bool_decide (None ∈ granted) then (Err SubscriptionRefused, w, st)
          else (Ok (Some None), w, st)
      | InPublish _ payload qos retain packet_id, _ =>
          let st := count_publish now payload retain st in
          match reply_for qos packet_id with
          | Some (kind, pid) =>
              match flush_pending w [ack_packet ctx kind pid] with
              | (Ok _, w) => wait_for ctx want inputs w st
              | (Err e, w) => (Err e, w, st)
              | (Panic, w) => (Panic, w, st)
              | (Diverged, w) => (Diverged, w, st)
              end
          | None => wait_for ctx want inputs w st
          end
      | ServerDisconnect reason, _ => (Err (DisconnectedDuringSetup reason), w, st)
      | _, _ => wait_for ctx want inputs w st
      end
  end.

(** [connect] has succeeded: CONNECT to the steady state. The result is the
    receive maximum that CONNACK gave. *)
Definition establish (ctx : Ctx) (no : Z) (id : bytes) (acks subacks : list Input)
    (w : Writer) (st : Stats) : outcome ClientError (option Z) * Writer * Stats :=
  match flush_pending w [connect_packet ctx id] with
  | (Ok _, w) =>
      match wait_for ctx WantConnAck acks w st with
      | (Ok None, w, st) => (Err ConnAckTimeout, w, st)
      | (Ok (Some receive_max), w, st) =>
          let st := conn_established st in
          if sub (args ctx) then
            match expand pid_token (topic_pattern (args ctx)) no id (Rng_new (no + 1)) with
            | Ok (_, filter) =>
                match flush_pending w [subscribe_packet ctx filter 1] with
                | (Ok _, w) =>
                    match wait_for ctx WantSubAck subacks w st with
                    | (Ok None, w, st) => (Err SubAckTimeout, w, st)
                    | (Ok (Some _), w, st) => (Ok receive_max, w, subscribed st)
                    | (Err e, w, st) => (Err e, w, st)
                    | (Panic, w, st) => (Panic, w, st)
                    | (Diverged, w, st) => (Diverged, w, st)
                    end
                | (Err e, w) => (Err e, w, st)
                | (Panic, w) => (Panic, w, st)
                | (Diverged, w) => (Diverged, w, st)
                end
            | Err e => match e with end | Panic => (Panic, w, st) | Diverged => (Diverged, w, st)
            end
          else (Ok receive_max, w, st)
      | (Err e, w, st) => (Err e, w, st)
      | (Panic, w, st) => (Panic, w, st)
      | (Diverged, w, st) => (Diverged, w, st)
      end
  | (Err e, w) => (Err e, w, st)
  | (Panic, w) => (Panic, w, st)
  | (Diverged, w) => (Diverged, w, st)
  end.

(** The state in which [traffic] enters its loop. *)
Definition traffic_start (ctx : Ctx) (no : Z) (receive_max : option Z) (w : Writer) (st : Stats)
    : Traffic :=
  mkTraffic (mkSession (Outbound_new ctx no receive_max) [] [] st) false w.

(** The loop of [traffic] over the events of one connection; [Ok None] when
    they end before it does. *)
Fixpoint traffic_loop (ctx : Ctx) (id : bytes) (events : list (Event * bool)) (t : Traffic) : Step :=
  match events with
  | [] => (Ok None, t)
  | (e, kicked) :: events =>
      match traffic_step ctx id e kicked t with
      | (Ok None, t) => traffic_loop ctx id events t
      | stop => stop
      end
  end.

(** The end of [session]: DISCONNECT if it can be sent, and both halves
    closed. *)
Definition closing (w : Writer) : Writer :=
  let '(_, w) := send w (PDisconnect 0) in
  let '(_, w) := BenchTransport.flush w in
  Writer_close w.

(** One connection, from the TCP connect to its end: the result, what was
    written and the counters. *)
Definition run_session (ctx : Ctx) (no : Z) (id : bytes) (tcp : bool) (acks subacks : list Input)
    (events : list (Event * bool)) (st : Stats)
    : outcome ClientError (option SessionEnd) * option Writer * Stats :=
  let st := conn_attempt st in
  if negb tcp then (Err TcpConnectFailed, None, st)
  else
    match establish ctx no id acks subacks (connect_writer (Protocol_version (proto ctx))) st with
    | (Ok receive_max, w, st) =>
        match traffic_loop ctx id events (traffic_start ctx no receive_max w st) with
        | (Panic, t) => (Panic, Some (writer t), stats (session t))
        | (Diverged, t) => (Diverged, Some (writer t), stats (session t))
        | (r, t) => (r, Some (closing (writer t)), conn_closed (stats (session t)))
        end
    | (Err e, w, st) => (Err e, Some (closing w), conn_closed st)
    | (Panic, w, st) => (Panic, Some w, st)
    | (Diverged, w, st) => (Diverged, Some w, st)
    end.

(** [run] after a session: whether another one follows. *)
Definition after_session (ctx : Ctx) (stopped : bool) (err_text : ClientError -> bytes)
    (r : outcome ClientError (option SessionEnd)) (st : Stats) : bool * Stats :=
  let again st :=
    if stopped || (reconn_interval (args ctx) =? 0) then (false, st) else (true, reconnected st) in
  match r with
  | Ok (Some Reconnect) => again st
  | Err e => again (conn_failed st (err_text e))
  | Ok (Some Finished) | Ok None | Panic | Diverged => (false, st)
  end.
End client.

(** ** [churn.rs] *)

(** How many connections a round drops. *)
Definition churn_hits (a : Opts) : Z :=
  to_u64 (F64.ceil (F64.mul (F64.of_Z (conns a)) (ctrl_disconn_ratio a))).

(** One round of [controller]: [hits] draws from the connections. *)
Fixpoint churn_round (oc : bool) (hits : nat) (last : Z) (rnd : Z) (kicks : list bool)
    : outcome Empty_set (Z * list bool) :=
  match hits with
  | O => Ok (rnd, kicks)
  | S hits =>
      match next_in oc rnd (0, last) with
      | Ok (rnd, no) => churn_round oc hits last rnd (<[Z.to_nat no := true]> kicks)
      | Err e => Err e | Panic => Panic | Diverged => Diverged
      end
  end.
