(* ===== verification/BenchSession.v ===== *)
(** * What the clients of the load generator guarantee

    The window of packet identifiers over a whole connection, what a batch
    publishes, the counters of connections, and how the CONNACK of MQTT 5
    is misread. The definitions are those of [BenchClient]. *)

From stdpp Require Import prelude list gmap fin_maps strings.
From Stdlib Require Import ZArith Lia.
From S2P Require Import Prelude CodecTypes CodecUtils Connection Floats Utils BrokerTypes CodecV3 CodecV5Types CodecV5 CodecV5Lemmas CodecV5Format CodecV5Encode CodecV5Proofs CodecFraming CodecMqtt Bench BenchCodec BenchCodecProofs BenchTransport BenchBroker BenchOptions BenchClient.
Import types.
Import BrokerTypes.
Import Histogram(Stats, conn_attempt, conn_established, conn_failed, conn_closed, reconnected, subscribed, sent, acked, inflight_inc, inflight_dec, inflight_blocked, pinged, duplicated, received, record_latency).
Import Window(Slots, taken, valid, capacity, release, in_use).

Local Open Scope Z_scope.

(** A run of two connections in QoS 1, for the witnesses. *)
Definition demo_opts : Opts := {|
  addrs := [text "a"]; ifaddrs := []; conns := 2; conn_interval := 0; duration := 0;
  id_pattern := text "c-{no}"; o_username := None; o_password := None; handshake_timeout := 30;
  o_keepalive := 60; o_clean := true; sub := false; pub_switch := true;
  topic_pattern := text "t/{no}"; o_qos := 1; o_retain := false; reconn_interval := 5000;
  pub_interval := 0; o_size := 10; message := None; max_limit := 0;
  topic_no_range := [0; 9]; max_inflight := 4; ack_timeout := 30;
  drain := 0; v5_pubrel_reason := 0; output_interval := 5; control := false;
  ctrl_disconn_ratio := F64.zero; ctrl_interval := 1000; lw_topic := None; lw_msg := None;
  lw_qos := 0; lw_retain := false; json := None |}.

Definition demo_ctx : Ctx :=
  mkCtx demo_opts ProtoV5 [text "a"] [] (PayloadBuilder_new demo_opts).

(** ** The CONNACK of MQTT 5 *)

(** What the diagnostics of a CONNACK leave unchanged. *)
Lemma connack_trimmed cb a : exists a',
  V5Format.trim (V5Framed.prepare cb (V5.PConnectAck a)) (V5Framed.out_limit cb) = V5.PConnectAck a' /\
  V5.ca_session_present a' = V5.ca_session_present a /\ V5.ca_reason_code a' = V5.ca_reason_code a.
Proof. unfold V5Framed.prepare. destruct (CodecFlags.contains _ _); by eexists. Qed.

(** C36. The load generator does not understand the CONNACK of the broker in
    MQTT 5, whatever its properties: a success is taken for a refusal if a
    session is present, and else for a success without a receive maximum;
    a refusal, but for an unspecified error, is a malformed packet instead
    of a refused connection. *)
Theorem bench_connack_v5 (oc : bool) (cb : Codec5) (a : V5.ConnectAck) (wire : bytes) (c : Codec)
    (rest : bytes) (ctx : Ctx) (now : Z) (inputs : list Input) (w : Writer) (st : Stats) :
  V5Framed.wf_out cb -> V5Format.wf_packet (V5.PConnectAck a) ->
  BenchBroker.broker_encode oc cb (inr (V5.PConnectAck a)) [] = (Ok tt, wire) ->
  version c = V5 -> max_packet_size c = TRANSPORT_MAX_PACKET_SIZE ->
  len wire <= TRANSPORT_MAX_PACKET_SIZE ->
  (V5.ca_reason_code a = ConnectAckReasonM.Success ->
   exists pkt, Codec_decode c (wire ++ rest) = (Ok (Some pkt), set_want c 0, rest) /\
     wait_for ctx WantConnAck (Got pkt now :: inputs) w st =
       (if V5.ca_session_present a
        then Err (ConnectionRefused (text "UnacceptableProtocolVersion"))
        else Ok (Some None), w, st)) /\
  (V5.ca_reason_code a <> ConnectAckReasonM.Success ->
   V5.ca_reason_code a <> ConnectAckReasonM.UnspecifiedError ->
   exists e, Codec_decode c (wire ++ rest) = (Err e, set_want c 0, rest)).
Proof.
  intros Hout Hwf Henc Hv Hm Hl.
  apply BenchBroker.broker_encode_frame in Henc as ->; [|done|by split].
  rewrite app_nil_l in *. unfold BenchBroker.broker_image in *. cbn [BenchBroker.broker_frame fst snd] in *.
  destruct (connack_trimmed cb a) as (a' & Ht & Hsp & Hr). rewrite Ht in *.
  rewrite <- Hsp, <- Hr. change (V5Format.first_byte_of (V5.PConnectAck a')) with 32 in *.
  pose proof (BenchProofs.frame_min 32 (V5Format.body_image (V5.PConnectAck a'))) as [_ Hmin].
  assert (Hb : len (V5Format.body_image (V5.PConnectAck a')) <= max_packet_size c <= MAX_PACKET_SIZE)
    by (rewrite Hm; unfold TRANSPORT_MAX_PACKET_SIZE, MAX_PACKET_SIZE in *; lia).
  rewrite BenchProofs.Codec_decode_parses, Hv by done.
  assert (Hblock : len (BenchBroker.connack_block a') <= MAX_PACKET_SIZE).
  { assert (len (BenchBroker.connack_block a') <= len (V5Format.body_image (V5.PConnectAck a'))); [|lia].
    cbn [V5Format.body_image]. fold (BenchBroker.connack_block a'). unfold V5Lemmas.block. rewrite !len_app.
    pose proof (len_nonneg (var_int_image 3 (len (BenchBroker.connack_block a')))).
    match goal with |- _ <= len ?x + _ => pose proof (len_nonneg x) end. lia. }
  pose proof (BenchBroker.parse_connack_v5 a' Hblock) as Hp. unfold BenchBroker.connack_misread in Hp.
  destruct (decode.parse V5 32 _) as [q|e| |]; [| |done|done].
  - destruct Hp as [Hmis ->]. split.
    + intros _. eexists. split; [done|]. by destruct (V5.ca_session_present a').
    + intros H1 H2. by destruct (V5.ca_reason_code a').
  - split; [intros Hs; by rewrite Hs in Hp|]. intros _ _. by exists e.
Qed.

(** A CONNACK of the broker, as small as it gets. *)
Definition demo_connack (present : bool) (reason : ConnectAckReason) : V5.ConnectAck :=
  V5.mkConnectAck present reason None 16 CodecTypes.ExactlyOnce None None 0 true true true true None None None
    None None None [].

Lemma demo_connack_wf present reason : V5Format.wf_packet (V5.PConnectAck (demo_connack present reason)).
Proof. cbn. by repeat split. Qed.

Lemma bench_connack_v5_witness :
  let c := Codec_new V5 TRANSPORT_MAX_PACKET_SIZE in
  (exists pkt, Codec_decode c ([32; 6; 1; 0; 3; 33; 0; 16] ++ []) = (Ok (Some pkt), c, []) /\
     wait_for demo_ctx WantConnAck [Got pkt 0] (connect_writer V5) Histogram.new =
       (Err (ConnectionRefused (text "UnacceptableProtocolVersion")), connect_writer V5, Histogram.new)) /\
  exists e, Codec_decode c ([32; 6; 0; 135; 3; 33; 0; 16] ++ []) = (Err e, c, []).
Proof.
  intros c. pose (cb := mkCodec5 FrameHeader 0 0 0).
  pose proof (bench_connack_v5 true cb (demo_connack true ConnectAckReasonM.Success)
    [32; 6; 1; 0; 3; 33; 0; 16] c [] demo_ctx 0 [] (connect_writer V5) Histogram.new ltac:(by split)
    (demo_connack_wf _ _) ltac:(by vm_compute) eq_refl eq_refl ltac:(by vm_compute)) as [H1 _].
  pose proof (bench_connack_v5 true cb (demo_connack false ConnectAckReasonM.NotAuthorized)
    [32; 6; 0; 135; 3; 33; 0; 16] c [] demo_ctx 0 [] (connect_writer V5) Histogram.new ltac:(by split)
    (demo_connack_wf _ _) ltac:(by vm_compute) eq_refl eq_refl ltac:(by vm_compute)) as [_ H2].
  split; [exact (H1 eq_refl)|]. by apply H2.
Defined.

(** ** The window of a connection *)

(** The identifiers in flight are the slots that are taken. *)
Definition tracked (o : Outbound) : Prop :=
  valid (slots o) /\ forall pid, is_Some (inflight o !! pid) <-> taken (slots o) pid.

(** The gauge of all connections counts those of this one, on top of
    [base]. *)
Definition gauge (base : Z) (o : Outbound) (st : Stats) : Prop :=
  Histogram.inflight st = isize (base + Z.of_nat (size (inflight o))).

Section window.
Context (pid_token : bytes) (overflow_checks : bool) (ctx : Ctx).

(** What every operation keeps: the capacity of the window too. *)
Definition out_ok (base : Z) (cap : nat) (o : Outbound) (st : Stats) : Prop :=
  tracked o /\ capacity (slots o) = cap /\ gauge base o st.

Lemma out_ok_stats base cap o st st' :
  Histogram.inflight st' = Histogram.inflight st -> out_ok base cap o st -> out_ok base cap o st'.
Proof. unfold out_ok, gauge. intros ->. done. Qed.

(** A message is claimed: a free slot and a new entry. *)
Lemma claim_ok base cap o st pid slots' msg :
  out_ok base cap o st -> Window.take (slots o) = (Some pid, slots') ->
  inflight o !! pid = None /\ 1 <= pid <= Z.of_nat cap /\
  out_ok base cap (set_slots o slots' (<[pid := msg]> (inflight o))) (inflight_inc st).
Proof.
  intros ((Hv & Htr) & Hcap & Hg) Ht. pose proof (Window.take_fresh (slots o) Hv) as H.
  rewrite Ht in H. destruct H as (Hr & Hfree & Htaken & Hv' & Hc').
  assert (Hnone : inflight o !! pid = None).
  { apply eq_None_not_Some. by rewrite Htr. }
  split; [done|]. split; [by rewrite <- Hcap|]. split_and!; cbn [set_slots slots inflight].
  - split; [done|]. intros q. cbn [slots inflight set_slots].
    rewrite Htaken, <- Htr, lookup_insert_is_Some.
    split; [intros [-> |[_ ?]]; auto|]. destruct (decide (pid = q)); [by left|]. intros [?| ->]; auto.
  - by rewrite Hc'.
  - unfold gauge in *. cbn [inflight_inc Histogram.inflight inflight set_slots]. rewrite Hg.
    rewrite Counter.isize_add, map_size_insert_None by done. f_equal. lia.
Qed.

(** A message is completed or given up. *)
Lemma remove_ok base cap o st pid :
  0 <= pid -> is_Some (inflight o !! pid) -> out_ok base cap o st ->
  out_ok base cap (set_slots o (release (slots o) pid) (delete pid (inflight o))) (inflight_dec st).
Proof.
  intros Hpid [m Hm] ((Hv & Htr) & Hcap & Hg). split_and!; cbn [set_slots slots inflight].
  - split; [by apply Window.release_valid|]. intros q. cbn [slots inflight set_slots].
    rewrite Window.release_taken, <- Htr, lookup_delete_is_Some by done.
    split; intros [? ?]; auto.
  - by rewrite Window.release_capacity.
  - unfold gauge in *. cbn [inflight_dec Histogram.inflight inflight set_slots]. rewrite Hg.
    change (isize (base + Z.of_nat (size (inflight o))) - 1)
      with (isize (base + Z.of_nat (size (inflight o))) + -1).
    rewrite Counter.isize_add, map_size_delete, Hm.
    assert (size (inflight o) <> 0%nat); [|f_equal; lia].
    intros H0%map_size_empty_inv. rewrite H0 in Hm. done.
Qed.

Lemma tracked_pos o pid : tracked o -> is_Some (inflight o !! pid) -> 1 <= pid.
Proof. intros [_ Htr] H. apply Htr in H. apply H. Qed.

Lemma on_ack_ok base cap o pid st :
  out_ok base cap o st -> out_ok base cap (on_ack o pid st).1 (on_ack o pid st).2.
Proof.
  intros Hok. unfold on_ack. destruct (inflight o !! pid) as [m|] eqn:Hm; [|by eapply out_ok_stats].
  eapply out_ok_stats; [|apply remove_ok; [|by rewrite Hm|done]]; [done|].
  pose proof (tracked_pos o pid (proj1 Hok) ltac:(by rewrite Hm)). lia.
Qed.

Lemma on_pubrec_ok base cap o pid pend st :
  out_ok base cap o st -> out_ok base cap (on_pubrec ctx o pid pend).1 st.
Proof.
  intros ((Hv & Htr) & Hcap & Hg). unfold on_pubrec.
  destruct (inflight o !! pid) as [m|] eqn:Hm; [|by split_and!].
  split_and!; cbn [fst set_slots slots inflight]; [|done|].
  - split; [done|]. intros q. cbn [slots inflight set_slots].
    rewrite <- Htr, lookup_insert_is_Some. split; [intros [<- |[_ ?]]; [by rewrite Hm|done]|].
    intros ?. destruct (decide (pid = q)); auto.
  - unfold gauge in *. cbn [inflight set_slots]. rewrite map_size_insert_Some; [done|by rewrite Hm].
Qed.

Lemma drop_stale_ok base cap pids o st :
  NoDup pids -> Forall (fun pid => is_Some (inflight o !! pid)) pids -> out_ok base cap o st ->
  out_ok base cap (drop_stale pids o st).1 (drop_stale pids o st).2.
Proof.
  intros Hnd. revert o st. induction Hnd as [|pid pids Hni Hnd IH]; intros o st Hall Hok; [done|].
  apply Forall_cons in Hall as [Hpid Hall]. cbn [drop_stale]. apply IH.
  - rewrite Forall_forall in *. intros q Hq. cbn [inflight set_slots].
    rewrite lookup_delete_ne; [by apply Hall|]. intros ->. done.
  - eapply out_ok_stats; [|apply remove_ok; [|done|done]]; [done|].
    pose proof (tracked_pos o pid (proj1 Hok) Hpid). lia.
Qed.

Lemma sweep_ok base cap o st now o' st' :
  out_ok base cap o st -> sweep_timeouts overflow_checks ctx now o st = Ok (o', st') ->
  out_ok base cap o' st'.
Proof.
  intros Hok. unfold sweep_timeouts. destruct (_ =? 0); [by intros [= <- <-]|].
  destruct (fit _ _) as [d|e| |]; try done. intros [= H].
  rewrite (surjective_pairing (drop_stale _ _ _)) in H. injection H as <- <-.
  apply drop_stale_ok; [| |done]; unfold stale.
  - eapply sublist_NoDup; [apply (NoDup_fst_map_to_list (inflight o))|].
    apply fmap_sublist, sublist_filter.
  - rewrite Forall_forall. intros q Hq. apply list_elem_of_fmap in Hq as ([q' m] & -> & Hq).
    apply list_elem_of_filter in Hq as [_ Hq]. apply elem_of_map_to_list in Hq. simpl. by rewrite Hq.
Qed.
(** *** Publishing *)

Definition publish_pid (p : Packet) : option Z := match p with PPublish p => pid p | _ => None end.

(** [o'] has in flight what [o] had and [ids], which are new. *)
Definition claims (o o' : Outbound) (ids : list Z) : Prop :=
  NoDup ids /\ Forall (fun pid => inflight o !! pid = None) ids /\
  forall pid, is_Some (inflight o' !! pid) <-> is_Some (inflight o !! pid) \/ pid ∈ ids.

Lemma claims_nil o : claims o o [].
Proof. split; [constructor|]. split; [constructor|]. intros pid. rewrite elem_of_nil. tauto. Qed.

Lemma claims_cons o o1 o' pid ids :
  inflight o !! pid = None ->
  (forall q, is_Some (inflight o1 !! q) <-> q = pid \/ is_Some (inflight o !! q)) ->
  claims o1 o' ids -> claims o o' (pid :: ids).
Proof.
  intros Hpid H1 (Hnd & Hnew & Hall). rewrite Forall_forall in Hnew. split_and!.
  - apply NoDup_cons. split; [|done]. intros Hin. specialize (Hnew pid Hin).
    destruct (proj2 (H1 pid)) as [? ?]; [by left|]. congruence.
  - constructor; [done|]. rewrite Forall_forall. intros q Hq. specialize (Hnew q Hq).
    apply eq_None_not_Some. intros H. destruct (proj2 (H1 q)) as [? ?]; [by right|]. congruence.
  - intros q. rewrite Hall, H1, elem_of_cons. tauto.
Qed.

(** What a batch does: the packets it appends are PUBLISHes with the
    identifiers it claims. *)
Definition fill_spec (base : Z) (cap : nat) (o o' : Outbound) (pend pend' : list Packet)
    (n : nat) (st' : Stats) : Prop :=
  out_ok base cap o' st' /\ ob_qos o' = ob_qos o /\
  exists new, pend' = pend ++ new /\ (length new <= n)%nat /\
    Forall (fun p => match p with PPublish p => qos p = run_qos ctx | _ => False end) new /\
    if 0 <? ob_qos o then
      exists ids, publish_pid <$> new = Some <$> ids /\ claims o o' ids /\
                  Forall (fun pid => 1 <= pid <= Z.of_nat cap) ids
    else Forall (fun p => publish_pid p = None) new /\ inflight o' = inflight o.

Lemma fill_one_ok base cap id range ts o pid slots' pend st o' pend' st' :
  out_ok base cap o st -> 0 < ob_qos o -> Window.take (slots o) = (Some pid, slots') ->
  fill_one pid_token overflow_checks ctx id range ts pid (set_slots o slots' (inflight o)) pend st
    = Ok (o', pend', st') ->
  out_ok base cap o' st' /\ ob_qos o' = ob_qos o /\ 1 <= pid <= Z.of_nat cap /\
  inflight o !! pid = None /\
  (forall q, is_Some (inflight o' !! q) <-> q = pid \/ is_Some (inflight o !! q)) /\
  exists p, pend' = pend ++ [PPublish p] /\ qos p = run_qos ctx /\ BenchCodec.types.pid p = Some pid.
Proof.
  intros Hok Hq Ht. unfold fill_one. cbn [set_slots ob_qos rnd].
  destruct (next_in _ _ _) as [[r no]|e| |]; try done.
  destruct (expand _ _ _ _ _) as [[r' tp]|e| |]; try done.
  rewrite (proj2 (Z.ltb_lt _ _)) by done. cbn [inflight slots ob_sent]. intros [= <- <- <-].
  destruct (claim_ok base cap o st pid slots' (mkInflightMsg ts false) Hok Ht) as (Hnone & Hr & Hok').
  cbn [ob_qos inflight]. split; [exact Hok'|]. split; [done|]. split; [done|]. split; [done|]. split.
  - intros q. rewrite lookup_insert_is_Some.
    split; [intros [-> |[_ ?]]; auto|]. destruct (decide (pid = q)); [by left|].
    intros [-> |?]; auto.
  - eexists. split; [done|]. by split.
Qed.

Lemma fill_one_qos0 base cap id range ts o pend st o' pend' st' :
  out_ok base cap o st -> ob_qos o <= 0 ->
  fill_one pid_token overflow_checks ctx id range ts 0 o pend st = Ok (o', pend', st') ->
  out_ok base cap o' st' /\ ob_qos o' = ob_qos o /\ inflight o' = inflight o /\
  exists p, pend' = pend ++ [PPublish p] /\ qos p = run_qos ctx /\ BenchCodec.types.pid p = None.
Proof.
  intros Hok Hq. unfold fill_one.
  destruct (next_in _ _ _) as [[r no]|e| |]; try done.
  destruct (expand _ _ _ _ _) as [[r' tp]|e| |]; try done.
  rewrite (proj2 (Z.ltb_ge _ _)) by done. intros [= <- <- <-].
  split; [exact Hok|]. split; [done|]. split; [done|].
  eexists. split; [done|]. by split.
Qed.

Lemma fill_spec_stop base cap o pend n st st' :
  out_ok base cap o st -> Histogram.inflight st' = Histogram.inflight st ->
  fill_spec base cap o o pend pend n st'.
Proof.
  intros Hok Hst. split; [by eapply out_ok_stats|]. split; [done|]. exists [].
  rewrite app_nil_r. split; [done|]. split; [simpl; lia|]. split; [constructor|].
  destruct (0 <? ob_qos o); [|by split; [constructor|]].
  exists []. split; [done|]. split; [apply claims_nil|constructor].
Qed.

Lemma fill_loop_ok fuel base cap id range clock o pend st o' pend' st' :
  out_ok base cap o st ->
  fill_loop pid_token overflow_checks fuel ctx id range clock o pend st = Ok (o', pend', st') ->
  fill_spec base cap o o' pend pend' fuel st'.
Proof.
  revert o pend st. induction fuel as [|fuel IH]; intros o pend st Hok; cbn [fill_loop].
  { intros [= <- <- <-]. by eapply fill_spec_stop. }
  destruct (limit_reached o ctx); [intros [= <- <- <-]; by eapply fill_spec_stop|].
  destruct (Z.ltb_spec 0 (ob_qos o)) as [Hq|Hq].
  - destruct (Window.take (slots o)) as [[pid|] slots'] eqn:Ht;
      [|intros [= <- <- <-]; by eapply fill_spec_stop].
    destruct (fill_one _ _ _ _ _ _ _ _ _ _) as [[[o1 pend1] st1]|e| |] eqn:Hone; try done.
    destruct (fill_one_ok _ _ _ _ _ _ _ _ _ _ _ _ _ Hok Hq Ht Hone)
      as (Hok1 & Hq1 & Hpid & Hnone & Hin & p & -> & Hpq & Hpp).
    intros Hrest. destruct (IH _ _ _ Hok1 Hrest) as (Hok' & Hq' & new & -> & Hlen & Hnew & Hids).
    split; [done|]. split; [congruence|]. exists (PPublish p :: new).
    rewrite <- app_assoc. split; [done|]. split; [simpl; lia|]. split; [by constructor|].
    rewrite Hq1 in Hids. rewrite (proj2 (Z.ltb_lt _ _)) in Hids |- * by done.
    destruct Hids as (ids & Heq & Hcl & Hb). exists (pid :: ids). csimpl. rewrite Hpp, Heq.
    split; [done|]. split; [by eapply claims_cons|by constructor].
  - destruct (fill_one _ _ _ _ _ _ _ _ _ _) as [[[o1 pend1] st1]|e| |] eqn:Hone; try done.
    destruct (fill_one_qos0 _ _ _ _ _ _ _ _ _ _ _ Hok Hq Hone)
      as (Hok1 & Hq1 & Hin & p & -> & Hpq & Hpp).
    intros Hrest. destruct (IH _ _ _ Hok1 Hrest) as (Hok' & Hq' & new & -> & Hlen & Hnew & Hids).
    split; [done|]. split; [congruence|]. exists (PPublish p :: new).
    rewrite <- app_assoc. split; [done|]. split; [simpl; lia|]. split; [by constructor|].
    rewrite Hq1 in Hids. rewrite (proj2 (Z.ltb_ge _ _)) in Hids |- * by done.
    destruct Hids as [Hn Hi]. split; [by constructor|congruence].
Qed.

(** A range from which [next_in] can draw. *)
Definition drawable (range : Z * Z) : Prop :=
  0 <= range.1 <= range.2 /\ range.2 < 2 ^ 64 /\ range.2 - range.1 + 1 < 2 ^ 64.

Lemma fill_one_returns id range ts pid o pend st :
  drawable range ->
  exists o' p st', fill_one pid_token overflow_checks ctx id range ts pid o pend st
                     = Ok (o', pend ++ [p], st').
Proof.
  destruct range as [lo hi]. intros (Hlo & Hhi & Hspan). unfold fill_one.
  destruct (next_in_bounds overflow_checks (rnd o) lo hi Hlo Hhi Hspan) as (r & n & -> & _).
  destruct (expand_returns pid_token (topic_pattern (args ctx)) n id r) as (r' & tp & ->).
  destruct (0 <? ob_qos o); by eexists _, _, _.
Qed.

(** A batch is always produced, and is not empty if there is room. *)
Lemma fill_loop_returns fuel id range clock o pend st :
  drawable range ->
  exists o' new st',
    fill_loop pid_token overflow_checks fuel ctx id range clock o pend st = Ok (o', pend ++ new, st') /\
    (fuel <> 0%nat -> limit_reached o ctx = false ->
     (0 < ob_qos o -> (Window.take (slots o)).1 <> None) -> new <> []).
Proof.
  intros Hr. revert o pend st. induction fuel as [|fuel IH]; intros o pend st; cbn [fill_loop].
  { exists o, [], st. by rewrite app_nil_r. }
  destruct (limit_reached o ctx) eqn:Hl; [exists o, [], st; by rewrite app_nil_r|].
  assert (Hnext : forall pid o1, exists o' new st',
    match fill_one pid_token overflow_checks ctx id range (clock fuel) pid o1 pend st with
    | Ok (o, pending, st) => fill_loop pid_token overflow_checks fuel ctx id range clock o pending st
    | stop => stop
    end = Ok (o', pend ++ new, st') /\ new <> []).
  { intros pid o1. destruct (fill_one_returns id range (clock fuel) pid o1 pend st Hr)
      as (o2 & p & st2 & ->).
    destruct (IH o2 (pend ++ [p]) st2) as (o' & new & st' & -> & _).
    exists o', (p :: new), st'. by rewrite <- app_assoc. }
  destruct (Z.ltb_spec 0 (ob_qos o)) as [Hq|Hq].
  - destruct (Window.take (slots o)) as [[pid|] slots'] eqn:Ht.
    + destruct (Hnext pid (set_slots o slots' (inflight o))) as (o' & new & st' & -> & Hne).
      by exists o', new, st'.
    + exists o, [], (inflight_blocked st). rewrite app_nil_r. split; [done|].
      intros _ _ Hfree. by destruct (Hfree Hq).
  - destruct (Hnext 0 o) as (o' & new & st' & -> & Hne). by exists o', new, st'.
Qed.

(** *** The whole session *)

Definition session_ok (base : Z) (cap : nat) (s : Session) : Prop :=
  out_ok base cap (out s) (stats s) /\ NoDup (awaiting_rel s).

Lemma count_publish_inflight now pl r st :
  Histogram.inflight (count_publish now pl r st) = Histogram.inflight st.
Proof. unfold count_publish. by destruct (parse_payload pl). Qed.

Lemma swap_remove_perm {A} (v : list A) pos x :
  v !! pos = Some x -> v ≡ₚ x :: swap_remove pos v.
Proof.
  intros Hx. unfold swap_remove.
  destruct (exists_last (l := v)) as (w & y & ->); [by intros ->|]. rewrite last_snoc.
  destruct (decide (pos < length w)%nat) as [Hlt|Hge].
  - rewrite lookup_app_l in Hx by done. rewrite insert_app_l, removelast_last by done.
    rewrite <- (take_drop_middle w pos x Hx) at 1. rewrite insert_take_drop by done.
    rewrite (Permutation_app_comm _ [y]). simpl.
    by rewrite <- !Permutation_middle, (Permutation_swap x y).
  - assert (Hlen : pos = length w).
    { apply lookup_lt_Some in Hx. rewrite length_app in Hx. simpl in Hx. lia. }
    subst pos. rewrite lookup_app_r, Nat.sub_diag in Hx by lia. injection Hx as ->.
    rewrite insert_app_r_alt, Nat.sub_diag by lia. simpl. rewrite removelast_last.
    apply Permutation_app_comm.
Qed.

Lemma position_lookup pid v pos : position pid v = Some pos -> v !! pos = Some pid.
Proof.
  revert pos. induction v as [|x v IH]; intros pos; [done|]. simpl.
  destruct (Z.eqb_spec x pid) as [->|]; [by intros [= <-]|].
  destruct (position pid v) as [q|]; [|done]. intros [= <-]. by apply IH.
Qed.

Lemma position_none pid v : position pid v = None -> pid ∉ v.
Proof.
  induction v as [|x v IH]; [intros _; apply not_elem_of_nil|]. simpl.
  destruct (Z.eqb_spec x pid); [done|]. destruct (position pid v) as [q|]; [done|].
  intros _. apply not_elem_of_cons. by split; [|apply IH].
Qed.

(** What is left of identifiers that occur once. *)
Lemma remove_pid_ok pid v :
  NoDup v -> NoDup (remove_pid pid v) /\ forall q, q ∈ remove_pid pid v <-> q ∈ v /\ q <> pid.
Proof.
  intros Hnd. unfold remove_pid. destruct (position pid v) as [pos|] eqn:Hp.
  - pose proof (swap_remove_perm v pos pid (position_lookup _ _ _ Hp)) as Hperm.
    rewrite Hperm in Hnd. apply NoDup_cons in Hnd as [Hni Hnd]. split; [done|].
    set (w := swap_remove pos v) in *. clearbody w.
    intros q. rewrite Hperm, elem_of_cons. split; [|tauto]. intros Hq. split; [by right|]. congruence.
  - apply position_none in Hp. split; [done|]. intros q. split; [|tauto]. split; congruence.
Qed.

Lemma on_incoming_ok base cap now pkt s s' :
  session_ok base cap s -> on_incoming ctx now pkt s = Ok s' -> session_ok base cap s'.
Proof.
  intros [Hok Hnd]. pose proof Hok as [Ht [Hc Hg]].
  destruct pkt as [[] ? ?| |? pl q r mid|pid|pid|pid|pid| |?|]; cbn [on_incoming]; try done;
    try (intros [= <-]; by split).
  - pose proof (fun st => out_ok_stats base cap (out s) (stats s) st) as Hst.
    assert (Hcp : out_ok base cap (out s) (count_publish now pl r (stats s)))
      by (apply Hst; [apply count_publish_inflight|done]).
    destruct q as [|[|[]|]|], mid as [pid|]; intros H;
      try (injection H as <-; by split).
    case_bool_decide; injection H as <-; cbn [push].
    + split; [|done]. cbn [out stats]. apply Hst; [|done]. apply count_publish_inflight.
    + split; [done|]. cbn [awaiting_rel]. apply NoDup_app. split; [done|].
      split; [intros x ? ->%list_elem_of_singleton; done|apply NoDup_singleton].
  - intros H. pose proof (on_ack_ok base cap (out s) pid (stats s) Hok) as Hack.
    destruct (on_ack _ _ _). injection H as <-. by split.
  - intros H. pose proof (on_pubrec_ok base cap (out s) pid (pending s) (stats s) Hok) as Hrec.
    destruct (on_pubrec _ _ _ _). injection H as <-. by split.
  - intros [= <-]. split; [done|]. by apply remove_pid_ok.
  - intros H. pose proof (on_ack_ok base cap (out s) pid (stats s) Hok) as Hack.
    destruct (on_ack _ _ _). injection H as <-. by split.
Qed.

Lemma flush_then_ok base cap s done w r :
  session_ok base cap s -> session_ok base cap (session (flush_then s done w r).2).
Proof. intros H. unfold flush_then. by destruct (flush_pending w (pending s)) as [[] ?]. Qed.

Lemma drain_packets_ok base cap inputs s done w :
  session_ok base cap s -> session_ok base cap (session (drain_packets ctx inputs s done w).2).
Proof.
  revert s w. induction inputs as [|[pkt now] inputs IH]; intros s w Hs; cbn [drain_packets].
  { by apply flush_then_ok. }
  destruct (on_incoming _ _ _ _) as [s'|e| |] eqn:Hi; try done.
  pose proof (on_incoming_ok _ _ _ _ _ _ Hs Hi) as Hs'.
  pose proof (flush_then_ok base cap s' done w None Hs') as Hf.
  destruct (flush_then s' done w None) as [[r|e| |] t]; try done. by apply IH.
Qed.

Lemma fill_ok base cap id clock o st o' pend' st' :
  out_ok base cap o st ->
  fill pid_token overflow_checks ctx id clock o [] st = Ok (o', pend', st') ->
  exists n, fill_spec base cap o o' [] pend' n st'.
Proof.
  intros Hok. unfold fill. destruct (topic_range _) as [range|e| |]; try done.
  intros H. eexists. by eapply fill_loop_ok.
Qed.

Lemma traffic_step_ok base cap id e kicked t :
  session_ok base cap (session t) ->
  session_ok base cap
    (session (traffic_step pid_token overflow_checks ctx id e kicked t).2).
Proof.
  intros Hs. assert (Hclear : session_ok base cap (clear t)) by exact Hs.
  pose proof Hclear as [Hout Hnd].
  destruct e as [pkt now|e|clock|due|now|drained]; unfold traffic_step.
  - destruct (on_incoming _ _ _ _) as [s'|e| |] eqn:Hi; try done.
    apply flush_then_ok. by eapply on_incoming_ok.
  - by destruct (BenchTransport.flush _).
  - destruct (negb _); [done|].
    destruct (fill _ _ _ _ _ _ _ _) as [[[o p] st]|[]| |] eqn:Hf; try done.
    destruct (fill_ok _ _ _ _ _ _ _ _ _ Hout Hf) as (n & Hok & _).
    destruct (_ && _); by apply flush_then_ok.
  - destruct due; [|by apply flush_then_ok]. apply flush_then_ok. split; [|done].
    by eapply out_ok_stats, Hout.
  - destruct (sweep_timeouts _ _ _ _ _) as [[o st]|[]| |] eqn:Hsw; try done.
    apply flush_then_ok. split; [|done]. by eapply sweep_ok.
  - pose proof (flush_then_ok base cap (clear t) (pub_done t) (writer t) None Hclear) as Hf.
    destruct (flush_then _ _ _ _) as [[r|e| |] t']; try done.
    destruct (0 <? _); [by apply drain_packets_ok|done].
Qed.

Lemma traffic_loop_ok base cap id events t :
  session_ok base cap (session t) ->
  session_ok base cap (session (traffic_loop pid_token overflow_checks ctx id events t).2).
Proof.
  revert t. induction events as [|[e kicked] events IH]; intros t Hs; [done|]. cbn [traffic_loop].
  pose proof (traffic_step_ok base cap id e kicked t Hs) as Hstep.
  destruct (traffic_step _ _ _ _ _ _ _) as [[[r|]|err| |] t']; try done. by apply IH.
Qed.

Lemma new_not_taken count pid : ~ taken (Window.new count) pid.
Proof.
  intros [_ H]. cbn [Window.new Window.used] in H. apply lookup_replicate in H as [H _]. done.
Qed.

Lemma start_ok no receive_max w st :
  1 <= max_inflight (args ctx) <= 65535 -> Histogram.inflight st = isize (Histogram.inflight st) ->
  session_ok (Histogram.inflight st) (Z.to_nat (window_of (args ctx) receive_max))
    (session (traffic_start ctx no receive_max w st)).
Proof.
  intros Hm Hst. assert (Hw : 1 <= window_of (args ctx) receive_max <= 65535).
  { unfold window_of. destruct receive_max; lia. }
  split; [|constructor]. cbn [traffic_start session out stats].
  split; [split|split].
  - apply Window.new_valid. lia.
  - intros pid. cbn [Outbound_new inflight slots]. rewrite lookup_empty. split; [by intros [? ?]|].
    by intros ?%new_not_taken.
  - cbn. unfold capacity, Window.new. cbn. rewrite length_replicate. lia.
  - unfold gauge. cbn [Outbound_new inflight]. rewrite map_size_empty. by rewrite Z.add_0_r.
Qed.

(** No more identifiers are in flight than the window holds. *)
Lemma tracked_bounded o : tracked o ->
  Forall (fun pid => 1 <= pid <= Z.of_nat (capacity (slots o))) (fst <$> map_to_list (inflight o)) /\
  (size (inflight o) <= capacity (slots o))%nat.
Proof.
  intros [Hv Htr].
  assert (Hr : forall pid, is_Some (inflight o !! pid) -> 1 <= pid <= Z.of_nat (capacity (slots o))).
  { intros pid [H1 H2%lookup_lt_Some]%Htr. unfold capacity. lia. }
  split.
  - rewrite Forall_forall. intros q Hq. apply list_elem_of_fmap in Hq as ([q' m] & -> & Hq).
    apply elem_of_map_to_list in Hq. apply Hr. simpl. by rewrite Hq.
  - rewrite <- (size_dom (D := gset Z)).
    trans (size (list_to_set (seqZ 1 (Z.of_nat (capacity (slots o)))) : gset Z)).
    + apply subseteq_size. intros pid Hp%elem_of_dom. apply elem_of_list_to_set, elem_of_seqZ.
      specialize (Hr pid Hp). lia.
    + rewrite size_list_to_set by apply NoDup_seqZ. rewrite length_seqZ. lia.
Qed.
End window.

(** C37. The window of the load generator, whatever a connection goes through:
    the events of its loop in any order, with any packets from the broker.
    The identifiers in flight are those whose slots are taken, they lie in
    the window, which is that of the options or the broker's receive
    maximum, and are never more than it; the shared gauge has moved by what
    is in flight; and no identifier waits for its PUBREL twice. *)
Theorem bench_window_invariant (pid_token : bytes) (oc : bool) (ctx : Ctx) (a : Opts) (no : Z)
    (receive_max : option Z) (w : Writer) (st : Stats) (id : bytes) (events : list (Event * bool)) :
  validate a = Ok (args ctx) -> 0 <= max_inflight a ->
  isize (Histogram.inflight st) = Histogram.inflight st ->
  let t := (traffic_loop pid_token oc ctx id events (traffic_start ctx no receive_max w st)).2 in
  let o := out (session t) in
  let window := window_of (args ctx) receive_max in
  1 <= window <= max_inflight a /\
  (forall r, receive_max = Some r -> 1 <= r -> window <= r) /\
  (forall pid, is_Some (inflight o !! pid) <-> taken (slots o) pid) /\
  Forall (fun pid => 1 <= pid <= window) (fst <$> map_to_list (inflight o)) /\
  Z.of_nat (size (inflight o)) <= window /\
  Histogram.inflight (stats (session t)) =
    isize (Histogram.inflight st + Z.of_nat (size (inflight o))) /\
  NoDup (awaiting_rel (session t)).
Proof.
  intros Hval Ha Hst t o window. destruct (validate_ok _ _ Hval) as (Hargs & _ & _ & _ & _ & _ & Hm).
  specialize (Hm Ha). assert (Hmax : max_inflight (args ctx) = max_inflight a) by by rewrite Hargs.
  pose proof (traffic_loop_ok pid_token oc ctx (Histogram.inflight st) (Z.to_nat window) id events _
    (start_ok ctx no receive_max w st ltac:(by rewrite Hmax) (eq_sym Hst))) as [(Htr & Hcap & Hg) Hnd].
  fold t o in Htr, Hcap, Hg, Hnd. pose proof (tracked_bounded o Htr) as [Hr Hs].
  assert (Hw : 1 <= window <= max_inflight a).
  { unfold window, window_of. rewrite Hmax. destruct receive_max; lia. }
  rewrite Hcap, Z2Nat.id in Hr by lia. rewrite Hcap in Hs. destruct Htr as [_ Htr].
  split; [done|]. split; [|split; [done|split; [done|split; [lia|by split]]]].
  intros r Hrm Hr1. unfold window, window_of. rewrite Hrm. lia.
Qed.

Lemma bench_window_invariant_witness :
  let events := [(PubTick (fun _ => 7), false); (PacketRead (PPubAck 2 0) 9, false)] in
  let t := (traffic_loop (text "77") true demo_ctx (text "c-0") events
              (traffic_start demo_ctx 0 (Some 3) (connect_writer V5) Histogram.new)).2 in
  (fst <$> map_to_list (inflight (out (session t)))) ≡ₚ [1; 3] /\
  Forall (fun pid => 1 <= pid <= 3) (fst <$> map_to_list (inflight (out (session t)))) /\
  Histogram.inflight (stats (session t)) = 2.
Proof.
  intros events t.
  destruct (bench_window_invariant (text "77") true demo_ctx demo_opts 0 (Some 3) (connect_writer V5)
    Histogram.new (text "c-0") events ltac:(by vm_compute) ltac:(by vm_compute) ltac:(by vm_compute))
    as (_ & _ & _ & Hr & _ & Hg & _).
  assert (Hm : (fst <$> map_to_list (inflight (out (session t)))) = [1; 3] \/
               (fst <$> map_to_list (inflight (out (session t)))) = [3; 1])
    by (vm_compute; tauto).
  split; [destruct Hm as [-> | ->]; [done|constructor]|].
  split; [exact Hr|]. etrans; [exact Hg|]. by vm_compute.
Defined.

(** A batch of PUBLISHes, for options that [validate] accepted and a topic
    range short of all of [usize]: [fill] returns; every packet it queues is
    a PUBLISH in the QoS of the run; in QoS 1 and 2 their identifiers are
    distinct, in the window, free before and exactly what is in flight
    afterwards besides what was; in QoS 0 they have none. The gauge moves by
    what was added. Something is queued unless the limit is reached or the
    window is full. *)
Theorem fill_batch (pid_token : bytes) (oc : bool) (ctx : Ctx) (a : Opts) (id : bytes)
    (clock : nat -> Z) (o : Outbound) (st : Stats) (lo hi : Z) :
  validate a = Ok (args ctx) -> 0 <= max_inflight a -> topic_no_range a = [lo; hi] ->
  0 <= lo -> hi < 2 ^ 64 -> hi - lo + 1 < 2 ^ 64 ->
  tracked o -> isize (Histogram.inflight st) = Histogram.inflight st ->
  exists o' new st', fill pid_token oc ctx id clock o [] st = Ok (o', new, st') /\
    tracked o' /\
    Forall (fun p => match p with PPublish p => qos p = run_qos ctx | _ => False end) new /\
    (if 0 <? ob_qos o then
       exists ids, publish_pid <$> new = Some <$> ids /\ claims o o' ids /\
                   Forall (fun pid => 1 <= pid <= Z.of_nat (capacity (slots o))) ids
     else Forall (fun p => publish_pid p = None) new /\ inflight o' = inflight o) /\
    Histogram.inflight st' =
      isize (Histogram.inflight st + (Z.of_nat (size (inflight o')) - Z.of_nat (size (inflight o)))) /\
    (limit_reached o ctx = false ->
     (0 < ob_qos o -> exists pid, 1 <= pid <= Z.of_nat (capacity (slots o)) /\ ~ taken (slots o) pid) ->
     new <> []).
Proof.
  intros Hval Ha Hrange Hlo Hhi Hspan Htr Hst.
  destruct (validate_ok _ _ Hval) as (Hargs & _ & _ & _ & (l & h & Hlh & Hle) & _ & Hm).
  specialize (Hm Ha). rewrite Hrange in Hlh. injection Hlh as <- <-.
  unfold fill, topic_range. rewrite Hargs. cbn [normalized topic_no_range]. rewrite Hrange, <- Hargs.
  assert (Hmax : max_inflight (args ctx) = max_inflight a) by by rewrite Hargs.
  set (fuel := Z.to_nat _). assert (Hfuel : fuel <> 0%nat) by (unfold fuel; destruct (_ =? 0); lia).
  clearbody fuel.
  destruct (fill_loop_returns pid_token oc ctx fuel id (lo, hi) clock o [] st) as (o' & new & st' & Hf & Hprog);
    [by split_and!|].
  set (base := Histogram.inflight st - Z.of_nat (size (inflight o))).
  assert (Hok : out_ok base (capacity (slots o)) o st).
  { split; [done|]. split; [done|]. unfold gauge, base. rewrite <- Hst at 1. f_equal. lia. }
  destruct (fill_loop_ok pid_token oc ctx _ _ _ _ _ _ _ _ _ _ _ _ Hok Hf)
    as ((Htr' & Hcap' & Hg') & Hq' & new' & [= <-] & _ & Hall & Hids).
  exists o', new, st'. split; [done|]. split; [done|]. split; [done|]. split; [done|]. split.
  { rewrite Hg'. f_equal. unfold base. lia. }
  intros Hl Hfree. apply Hprog; [done|done|]. intros Hq. destruct (Hfree Hq) as (pid & Hp & Hnt).
  pose proof (Window.take_fresh (slots o) (proj1 Htr)) as Ht.
  destruct (Window.take (slots o)) as [[q|] s']; [done|]. destruct Ht as [_ Ht].
  by destruct Hnt; apply Ht.
Qed.

Lemma fill_batch_witness :
  exists o' new st',
    fill (text "77") true demo_ctx (text "c-0") (fun _ => 7) (Outbound_new demo_ctx 0 (Some 3)) []
      Histogram.new = Ok (o', new, st') /\ length new = 3%nat /\ new <> [] /\
    exists ids, publish_pid <$> new = Some <$> ids /\ NoDup ids.
Proof.
  assert (Htr : tracked (Outbound_new demo_ctx 0 (Some 3)))
    by (apply (start_ok demo_ctx 0 (Some 3) (connect_writer V5) Histogram.new); by vm_compute).
  destruct (fill_batch (text "77") true demo_ctx demo_opts (text "c-0") (fun _ => 7)
    (Outbound_new demo_ctx 0 (Some 3)) Histogram.new 0 9 ltac:(by vm_compute) ltac:(by vm_compute)
    ltac:(by vm_compute) ltac:(by vm_compute) ltac:(by vm_compute) ltac:(by vm_compute) Htr
    ltac:(by vm_compute)) as (o' & new & st' & Hf & _ & _ & Hids & _ & Hne).
  exists o', new, st'. split; [exact Hf|]. split.
  { vm_compute in Hf. by injection Hf as <- <- <-. }
  split.
  - apply Hne; [by vm_compute|]. intros _. exists 1. split; [by vm_compute|]. apply new_not_taken.
  - destruct Hids as (ids & Hi & Hc & _). exists ids. split; [exact Hi|apply Hc].
Defined.

(** ** The connection counters *)

(** The counters that only the start and the end of a session touch. *)
Definition conns_of (st : Stats) : Z * Z * Z :=
  (Histogram.conn_ok st, Histogram.active_conns st, Histogram.closes st).

Section counters.
Context (pid_token : bytes) (overflow_checks : bool) (ctx : Ctx).

Lemma count_publish_conns now pl r st : conns_of (count_publish now pl r st) = conns_of st.
Proof. unfold count_publish. by destruct (parse_payload pl). Qed.

Lemma on_ack_conns o pid st : conns_of (on_ack o pid st).2 = conns_of st.
Proof. unfold on_ack. by destruct (inflight o !! pid). Qed.

Lemma drop_stale_conns pids o st : conns_of (drop_stale pids o st).2 = conns_of st.
Proof. revert o st. induction pids as [|pid pids IH]; intros o st; [done|]. cbn [drop_stale]. by rewrite IH. Qed.

Lemma fill_loop_conns fuel id range clock o pend st o' pend' st' :
  fill_loop pid_token overflow_checks fuel ctx id range clock o pend st = Ok (o', pend', st') ->
  conns_of st' = conns_of st.
Proof.
  revert o pend st. induction fuel as [|fuel IH]; intros o pend st; cbn [fill_loop].
  { by intros [= <- <- <-]. }
  destruct (limit_reached o ctx); [by intros [= <- <- <-]|].
  assert (Hnext : forall pid o1,
    match fill_one pid_token overflow_checks ctx id range (clock fuel) pid o1 pend st with
    | Ok (o, pending, st) => fill_loop pid_token overflow_checks fuel ctx id range clock o pending st
    | stop => stop
    end = Ok (o', pend', st') -> conns_of st' = conns_of st).
  { intros pid o1. destruct (fill_one _ _ _ _ _ _ _ _ _ _) as [[[o2 p2] st2]|e| |] eqn:Hone; try done.
    intros ->%IH. revert Hone. unfold fill_one.
    destruct (next_in _ _ _) as [[r no]|e| |]; try done.
    destruct (expand _ _ _ _ _) as [[r' tp]|e| |]; try done.
    destruct (0 <? _); by intros [= <- <- <-]. }
  destruct (0 <? _); [|apply Hnext].
  destruct (Window.take (slots o)) as [[pid|] s']; [apply Hnext|by intros [= <- <- <-]].
Qed.

Lemma on_incoming_conns now pkt s s' :
  on_incoming ctx now pkt s = Ok s' -> conns_of (stats s') = conns_of (stats s).
Proof.
  assert (Hack : forall pid, (let '(o, st) := on_ack (out s) pid (stats s) in
    Ok (E := ClientError) (mkSession o (awaiting_rel s) (pending s) st)) = Ok s' ->
    conns_of (stats s') = conns_of (stats s)).
  { intros pid. pose proof (on_ack_conns (out s) pid (stats s)) as H.
    destruct (on_ack _ _ _). by intros [= <-]. }
  destruct pkt as [[] ? ?| |? pl q r mid|pid|pid|pid|pid| |?|]; cbn [on_incoming]; try done;
    try (by intros [= <-]); try apply Hack.
  - pose proof (count_publish_conns now pl r (stats s)) as Hc. revert Hc.
    generalize (count_publish now pl r (stats s)). intros st1 Hc.
    destruct q as [|[|[]|]|], mid as [pid|]; try (by intros [= <-]).
    case_bool_decide; by intros [= <-].
  - destruct (on_pubrec _ _ _ _). by intros [= <-].
Qed.

Lemma flush_then_conns s done w r :
  stats (session (flush_then s done w r).2) = stats s.
Proof. unfold flush_then. by destruct (flush_pending w (pending s)) as [[] ?]. Qed.

Lemma drain_packets_conns inputs s done w :
  conns_of (stats (session (drain_packets ctx inputs s done w).2)) = conns_of (stats s).
Proof.
  revert s w. induction inputs as [|[pkt now] inputs IH]; intros s w; cbn [drain_packets].
  { by rewrite flush_then_conns. }
  destruct (on_incoming _ _ _ _) as [s'|e| |] eqn:Hi; try done.
  pose proof (flush_then_conns s' done w None) as Hf. apply on_incoming_conns in Hi.
  destruct (flush_then s' done w None) as [[r|e| |] t]; cbn [snd] in *; by rewrite <- Hi, <- Hf.
Qed.

Lemma traffic_step_conns id e kicked t :
  conns_of (stats (session (traffic_step pid_token overflow_checks ctx id e kicked t).2)) =
    conns_of (stats (session t)).
Proof.
  change (stats (session t)) with (stats (clear t)).
  destruct e as [pkt now|e|clock|due|now|drained]; unfold traffic_step.
  - destruct (on_incoming _ _ _ _) as [s'|e| |] eqn:Hi; try done.
    rewrite flush_then_conns. by eapply on_incoming_conns.
  - by destruct (BenchTransport.flush _).
  - destruct (negb _); [done|]. unfold fill. destruct (topic_range _) as [range|[]| |]; try done.
    destruct (fill_loop _ _ _ _ _ _ _ _ _ _) as [[[o p] st]|[]| |] eqn:Hf; try done.
    apply fill_loop_conns in Hf. destruct (_ && _); by rewrite flush_then_conns.
  - destruct due; by rewrite flush_then_conns.
  - unfold sweep_timeouts. destruct (_ =? 0); [by rewrite flush_then_conns|].
    destruct (fit _ _) as [d|[]| |]; try done.
    match goal with |- context [drop_stale ?l ?o ?st] => pose proof (drop_stale_conns l o st) as H end.
    destruct (drop_stale _ _ _) as [o st]. by rewrite flush_then_conns.
  - pose proof (flush_then_conns (clear t) (pub_done t) (writer t) None) as Hf.
    destruct (flush_then _ _ _ _) as [[r|e| |] t']; cbn [snd] in *; rewrite <- Hf; try done.
    destruct (0 <? _); [by rewrite drain_packets_conns|done].
Qed.

Lemma traffic_loop_conns id events t :
  conns_of (stats (session (traffic_loop pid_token overflow_checks ctx id events t).2)) =
    conns_of (stats (session t)).
Proof.
  revert t. induction events as [|[e kicked] events IH]; intros t; [done|]. cbn [traffic_loop].
  pose proof (traffic_step_conns id e kicked t) as Hstep.
  destruct (traffic_step _ _ _ _ _ _ _) as [[[r|]|err| |] t']; try done. by rewrite IH.
Qed.

Lemma wait_for_conns want inputs w st :
  conns_of (wait_for ctx want inputs w st).2 = conns_of st.
Proof.
  revert w st. induction inputs as [|[pkt now|e] inputs IH]; intros w st; [done| |done].
  cbn [wait_for].
  destruct (classify pkt) as [acc reason rm|granted|tp pl q r mid|pid|pid|pid|pid| |reason|];
    try (apply IH); try done; [destruct want; [by destruct acc|apply IH]|
      destruct want; [apply IH|by case_bool_decide]|].
  rewrite <- (count_publish_conns now pl r st). destruct (reply_for _ _) as [[kind pid]|]; [|apply IH].
  by destruct (flush_pending _ _) as [[] ?].
Qed.

(** The handshake counts the connection if it was accepted, and only then. *)
Lemma establish_conns no id acks subacks w st :
  let r := establish pid_token ctx no id acks subacks w st in
  conns_of r.2 = conns_of (conn_established st) \/
  conns_of r.2 = conns_of st /\ forall receive_max, r.1.1 <> Ok receive_max.
Proof.
  unfold establish. destruct (flush_pending w _) as [[?|e| |] w1]; [|right; by split..].
  pose proof (wait_for_conns WantConnAck acks w1 st) as Hw.
  destruct (wait_for ctx WantConnAck acks w1 st) as [[[[rm|]|e| |] w2] st2]; cbn [fst snd] in Hw;
    [|right; by split..].
  assert (He : conns_of (conn_established st2) = conns_of (conn_established st)).
  { unfold conns_of in *. injection Hw as Ha Hb Hc. cbn. by rewrite Ha, Hb, Hc. }
  left. cbn zeta. destruct (sub (args ctx)); [|done].
  destruct (expand _ _ _ _ _) as [[rnd filter]|[]| |]; [|done..].
  destruct (flush_pending w2 _) as [[?|e| |] w3]; [|done..].
  pose proof (wait_for_conns WantSubAck subacks w3 (conn_established st2)) as Hs.
  destruct (wait_for ctx WantSubAck subacks w3 _) as [[[[?|]|e| |] w4] st4]; cbn [fst snd] in *;
    by rewrite <- He, <- Hs.
Qed.
End counters.

(** The connection counters over one session, from the TCP connect to its
    end, whatever the broker sends and however it ends: without a socket
    nothing is counted; else one close is counted, and either the
    connection was accepted, is counted as such and leaves the gauge of
    active connections where it was, or the handshake failed, nothing is
    established and the gauge ends one lower than before the session. *)
Theorem session_counters (pid_token : bytes) (oc : bool) (ctx : Ctx) (no : Z) (id : bytes)
    (tcp : bool) (acks subacks : list Input) (events : list (Event * bool)) (st st' : Stats)
    (r : outcome ClientError (option SessionEnd)) (w : option Writer) :
  isize (Histogram.active_conns st) = Histogram.active_conns st ->
  run_session pid_token oc ctx no id tcp acks subacks events st = (r, w, st') ->
  r <> Panic -> r <> Diverged ->
  if tcp then
    Histogram.closes st' = wrap 64 (Histogram.closes st + 1) /\
    (Histogram.conn_ok st' = wrap 64 (Histogram.conn_ok st + 1) /\
       Histogram.active_conns st' = Histogram.active_conns st \/
     Histogram.conn_ok st' = Histogram.conn_ok st /\
       Histogram.active_conns st' = isize (Histogram.active_conns st - 1) /\ exists e, r = Err e)
  else r = Err TcpConnectFailed /\ conns_of st' = conns_of st.
Proof.
  intros Hst. unfold run_session. destruct tcp; cbn [negb]; [|by intros [= <- <- <-]].
  pose proof (establish_conns pid_token ctx no id acks subacks
    (connect_writer (Protocol_version (proto ctx))) (conn_attempt st)) as He.
  change (conns_of (conn_attempt st)) with (conns_of st) in He.
  change (conns_of (conn_established (conn_attempt st))) with (conns_of (conn_established st)) in He.
  assert (Hback : isize (isize (Histogram.active_conns st + 1) - 1) = Histogram.active_conns st).
  { etrans; [exact (Counter.isize_add _ (-1))|]. rewrite <- Hst at 2. f_equal. lia. }
  assert (Hok : forall st1, conns_of st1 = conns_of (conn_established st) ->
    Histogram.closes (conn_closed st1) = wrap 64 (Histogram.closes st + 1) /\
    Histogram.conn_ok (conn_closed st1) = wrap 64 (Histogram.conn_ok st + 1) /\
    Histogram.active_conns (conn_closed st1) = Histogram.active_conns st).
  { intros st1 [= Ha Hb Hc]. cbn. by rewrite Ha, Hb, Hc. }
  destruct (establish _ _ _ _ _ _ _ _) as [[[rm|e| |] w1] st1]; cbn [fst snd] in He.
  - destruct He as [He|[_ He]]; [|by destruct (He rm)].
    pose proof (traffic_loop_conns pid_token oc ctx id events (traffic_start ctx no rm w1 st1)) as Hl.
    cbn [traffic_start session stats] in Hl. rewrite He in Hl. apply Hok in Hl as (H1 & H2 & H3).
    destruct (traffic_loop _ _ _ _ _ _) as [[x|e| |] t]; intros [= <- <- <-]; try done; auto.
  - intros [= <- <- <-] _ _. destruct He as [He|[He _]].
    + apply Hok in He as (H1 & H2 & H3). auto.
    + injection He as Ha Hb Hc. cbn. rewrite Ha, Hb, Hc. split; [done|]. right. eauto.
  - by intros [= <- <- <-].
  - by intros [= <- <- <-].
Qed.

(** A refused connection: the gauge of active connections is -1. *)
Lemma session_counters_witness :
  let run := run_session (text "77") true demo_ctx 0 (text "c-0") true [Got (PConnAck 135 false None) 0]
               [] [] Histogram.new in
  run.1.1 = Err (ConnectionRefused (text "NotAuthorized")) /\ Histogram.closes run.2 = 1 /\
  Histogram.active_conns run.2 = -1.
Proof.
  intros run. assert (Hr : run.1.1 = Err (ConnectionRefused (text "NotAuthorized"))) by by vm_compute.
  assert (Hok : Histogram.conn_ok run.2 = 0) by by vm_compute.
  assert (Hrun : run = (run.1.1, run.1.2, run.2)) by by destruct run as [[? ?] ?].
  split; [done|].
  destruct (session_counters (text "77") true demo_ctx 0 (text "c-0") true _ _ _ Histogram.new _ _ _ eq_refl Hrun
    ltac:(by rewrite Hr) ltac:(by rewrite Hr)) as [Hc [[H1 _]|(_ & H2 & _)]].
  - rewrite Hok in H1. by vm_compute in H1.
  - split; [exact Hc|exact H2].
Defined.

(** What a session leaves in flight when it ends stays in the gauge. *)
Lemma inflight_leaks :
  let r := run_session (text "77") true demo_ctx 0 (text "c-0") true [Got (PConnAck 0 false None) 0] []
             [(PubTick (fun _ => 7), true)] Histogram.new in
  r.1.1 = Ok (Some Reconnect) /\ Histogram.inflight r.2 = 4 /\ Histogram.closes r.2 = 1.
Proof. by vm_compute. Qed.

(** A PUBREL that comes before the SUBACK is not answered, though the
    PUBLISH was. *)
Lemma early_pubrel :
  let r := wait_for demo_ctx WantSubAck
             [Got (PPublish (mkPublish (text "t") (text "x") ExactlyOnce false false (Some 5))) 0;
              Got (PPubRel 5 0) 0; Got (PSubAck 1 [2]) 0] (connect_writer V5) Histogram.new in
  r.1.1 = Ok (Some None) /\ wr_sent r.1.2 = BenchProofs.image V5 (PPubRec 5 0).
Proof. by vm_compute. Qed.

(** Names that are not those of the specification. *)
Lemma connack_names_swapped :
  connack_name (to_u8 ConnectAckReasonM.BadUserNameOrPassword) = text "BadAuthenticationMethod" /\
  connack_name (to_u8 ConnectAckReasonM.BadAuthenticationMethod) = text "BadUserNameOrPassword" /\
  connack_name (to_u8 ConnectAckReasonM.PacketTooLarge) = text "QuotaExceeded" /\
  connack_name (to_u8 ConnectAckReasonM.QuotaExceeded) = text "PayloadFormatInvalid" /\
  connack_name (to_u8 ConnectAckReasonM.PayloadFormatInvalid) = text "TopicFilterInvalid".
Proof. by vm_compute. Qed.
