(* ===== verification/Messages.v ===== *)
(** * Stored messages: [message.rs], [shared.rs], [session.rs]

    The interface of the message store with its default, which stores
    nothing; loading what is stored for a subscription into the mailbox of
    its client; and what else is read of the table of sessions. The store
    itself is a plugin: the theorems assume of it what [message.rs]
    documents ([MessageManagerOk]). *)

From stdpp Require Import prelude list strings gmap.
From Stdlib Require Import ZArith Lia.
From S2P Require Import Prelude CodecTypes CodecV5Types Topic Trie BrokerTypes Subscription Router RouterAdmin Retain RetainStorage Inflight Connection Fitter Delayed Session SessionSubs Shared SharedRouting Node NodeForward SessionWitness.

Local Open Scope Z_scope.

(** ** The trait and its default *)

(** A message with its id and origin. *)
Definition Stored : Type := Z * From * BPublish.

Class MessageManager (M : Type) := {
  next_msg_id : M -> Z * M;
  store : M -> Z -> From -> BPublish -> Z -> option (list Recipient) -> outcome Error unit * M;
  get : M -> bytes -> string -> option string -> outcome Error (list Stored);
  mark_forwarded : M -> Z -> list Recipient -> outcome Error unit * M;
  merge_on_read : M -> bool;
  count : M -> Z;
  max : M -> Z;
  enable : M -> bool;
}.

#[export] Instance DefaultMessageManager : MessageManager unit := {|
  next_msg_id m := (0, m);
  store m _ _ _ _ _ := (Ok tt, m);
  get _ _ _ _ := Ok [];
  mark_forwarded m _ _ := (Ok tt, m);
  merge_on_read _ := false;
  count _ := -1;
  max _ := -1;
  enable _ := false;
|}.

(** The recipient that a subscription stands for. *)
Definition recipient (client : bytes) (topic_filter : string) (group : option string) : Recipient :=
  (client, pair topic_filter <$> group).

(** What the documentation of [mark_forwarded] promises: what a recipient
    has received it does not get again; the other messages stay. *)
Class MessageManagerOk (M : Type) `{!MessageManager M} : Prop := {
  get_marked m client topic_filter group l msg_id :
    get m client topic_filter group = Ok l ->
    get (mark_forwarded m msg_id [recipient client topic_filter group]).2 client topic_filter group =
      Ok (filter (fun x : Stored => x.1.1 <> msg_id) l);
}.

#[export] Instance DefaultMessageManager_ok : MessageManagerOk unit.
Proof. split. simpl. by intros ? ? ? ? l ? [= <-]. Qed.

(** ** Loading *)

Section loading.
Context {S H M : Type} `{!SharedSubscription S} `{!BinaryHeap H} `{!MessageManager M}.
Implicit Type n : Node S H.

(** [DefaultShared::message_load]. *)
Definition message_load (m : M) (client : bytes) (topic_filter : string) (group : option string)
    : outcome Error (list Stored) := get m client topic_filter group.

(** The calls of the store's [mark_forwarded] between two states of the
    node, as the store sees them. *)
Definition mark_calls (n n' : Node S H) : list (Z * list Recipient) :=
  drop (length (Shared.marked (n_shared n))) (Shared.marked (n_shared n')).

Definition apply_marks (m : M) (calls : list (Z * list Recipient)) : M :=
  foldl (fun m c => (mark_forwarded m c.1 c.2).2) m calls.

(** [DefaultShared::message_load_with] with a [SendStoragedMessagesHandler]
    as its callback. *)
Definition message_load_with (n : Node S H) (m : M) (id : Id) (q : QoS)
    (excludeds : option (list (Z * Z))) (topic_filter : string) (group : option string)
    : outcome Error unit * Node S H * M :=
  match message_load m (client_id id) topic_filter group with
  | Ok msgs =>
      let n' := send_stored_messages n id msgs q excludeds topic_filter group in
      (Ok tt, n', apply_marks m (mark_calls n n'))
  | Err e => (Err e, n, m)
  | Panic => (Panic, n, m)
  | Diverged => (Diverged, n, m)
  end.

(** [SessionState::send_storaged_messages]: a task of its own, whose error
    is logged. *)
Definition send_storaged_messages (n : Node S H) (m : M) (id : Id) (topic_filter : string) (q : QoS)
    (group : option string) (excludeds : option (list (Z * Z))) : Node S H * M :=
  let '(_, n, m) := message_load_with n m id q excludeds topic_filter group in (n, m).

(** [_send_subscribe_messages] with the store. *)
Definition subscribe_messages (n : Node S H) (m : M) (id : Id) (topic_filter : string)
    (group : option string) (handling : option RetainHandling) (prev_opts_is_none : bool) (q : QoS)
    : Node S H * M :=
  let n := send_retained n id topic_filter handling prev_opts_is_none q in
  if enable m then send_storaged_messages n m id topic_filter q group None else (n, m).

(** ** What else is read of the table of sessions *)

Definition online (b : Shared.t (S := S)) (client : bytes) : bool := Shared.is_connected b client.

Definition session (b : Shared.t (S := S)) (client : bytes) : option Peer := Shared.peers b !! client.

(** [Entry::subscriptions]. *)
Definition entry_subscriptions (b : Shared.t (S := S)) (client : bytes) : option (list SubsSearchResult) :=
  (fun p => (fun '(tf, opts) =>
       mkResult (node_id (peer_id p)) (client_id (peer_id p)) (remote_addr (peer_id p)) tf opts)
     <$> map_to_list (peer_subs p)) <$> session b client.

(** [DefaultIter]: the entries, in the order of the map. *)
Definition iter (b : Shared.t (S := S)) : list Id := peer_id <$> (map_to_list (Shared.peers b)).*2.

(** [rnd] is what [rand] draws. *)
Definition random_session (b : Shared.t (S := S)) (rnd : Z) : option Peer :=
  let sessions := (map_to_list (Shared.peers b)).*2 in
  if 0 <? len sessions then sessions !! Z.to_nat (rnd mod len sessions) else None.

Definition client_states_count (b : Shared.t (S := S)) : Z := Shared.sessions_count b.

(** ** Facts *)

Lemma filter_everything {A} (P : A -> Prop) `{!forall x, Decision (P x)} l :
  Forall P l -> filter P l = l.
Proof. induction 1 as [|x l Hx _ IH]; [done|]. rewrite filter_cons_True by done. by rewrite IH. Qed.

Lemma filter_nothing {A} (P : A -> Prop) `{!forall x, Decision (P x)} l :
  Forall (fun x => ~ P x) l -> filter P l = [].
Proof. induction 1 as [|x l Hx _ IH]; [done|]. by rewrite filter_cons_False. Qed.

(** Sending to a mailbox touches neither the store nor its marks. *)
Lemma send_to_marks n id from p :
  Shared.marked (n_shared (send_to n id from p).2) = Shared.marked (n_shared n) /\
  Shared.this_node (n_shared (send_to n id from p).2) = Shared.this_node (n_shared n).
Proof.
  unfold send_to, Shared.publish, Shared.tx, Shared.unbounded_send.
  destruct (Shared.peers (n_shared n) !! client_id id) as [peer|]; [|done]. simpl.
  by destruct (tx_closed peer).
Qed.

Definition stored_mails (q : QoS) (msgs : list Stored) : list Message :=
  (fun x : Stored => MForward x.1.2 (stored_copy x.2 q)) <$> msgs.

(** The messages that this node took. *)
Definition of_this_node n (msgs : list Stored) : Prop :=
  Forall (fun x : Stored => node_id (BrokerTypes.id x.1.2) = Shared.this_node (n_shared n)) msgs.

Lemma send_stored_cons n id i from p msgs q topic_filter group :
  send_stored_messages n id ((i, from, p) :: msgs) q None topic_filter group =
    send_stored_messages
      (let '(sent, n') := send_to n id from (stored_copy p q) in
       if sent then Node.mark_forwarded n' (node_id (BrokerTypes.id from)) i
                      [recipient (client_id id) topic_filter group] else n')
      id msgs q None topic_filter group.
Proof.
  unfold send_stored_messages. cbn [foldl]. simpl default.
  by rewrite (bool_decide_false (_ ∈ [])) by apply not_elem_of_nil.
Qed.

(** To an open mailbox: every message goes in and is marked. *)
Lemma send_stored_open n id msgs q topic_filter group :
  Shared.reachable (n_shared n) (client_id id) = true -> of_this_node n msgs ->
  let n' := send_stored_messages n id msgs q None topic_filter group in
  n_events n' = n_events n /\
  (forall c, Shared.peers (n_shared n') !! c =
     Shared.add_mails (if bool_decide (c = client_id id) then stored_mails q msgs else []) <$>
     Shared.peers (n_shared n) !! c) /\
  Shared.marked (n_shared n') = Shared.marked (n_shared n) ++
    ((fun x : Stored => (x.1.1, [recipient (client_id id) topic_filter group])) <$> msgs).
Proof.
  unfold of_this_node. revert n.
  induction msgs as [|[[i from] p] msgs IH]; intros n Hr Hnode; cbv zeta.
  { split; [done|]. rewrite app_nil_r. split; [|done]. intros c.
    destruct (_ !! c); simpl; [|done]. case_bool_decide; by rewrite Shared.add_mails_nil. }
  apply Forall_cons in Hnode as [Hfrom Hnode]. cbn [fst snd] in Hfrom. rewrite send_stored_cons.
  pose proof (send_to_marks n id from (stored_copy p q)) as [Hmk Hth].
  destruct (send_to_open n id from (stored_copy p q) Hr) as (n1 & Hs & _ & He & Hp). rewrite Hs in *. cbn [snd] in *.
  unfold Node.mark_forwarded. rewrite Hth, Hfrom, Z.eqb_refl.
  set (n2 := set_shared n1 (Shared.mark _ _ _)).
  assert (Hp2 : Shared.peers (n_shared n2) = Shared.peers (n_shared n1)) by done.
  destruct (IH n2) as (He' & Hp' & Hm').
  { unfold Shared.reachable in *. rewrite Hp2, Hp. by destruct (_ !! client_id id). }
  { eapply Forall_impl; [exact Hnode|]. intros x ->. by rewrite <- Hth. }
  split; [by rewrite He'|]. split.
  - intros c. rewrite Hp', Hp2, Hp. destruct (Shared.peers (n_shared n) !! c); [|done]. simpl.
    rewrite Shared.add_mails_app. by case_bool_decide.
  - rewrite Hm'. unfold n2. cbn [set_shared n_shared Shared.mark Shared.marked]. by rewrite Hmk, <- app_assoc.
Qed.

(** To a closed one: nothing is marked, every message is reported. *)
Lemma send_stored_closed n id msgs q topic_filter group :
  Shared.reachable (n_shared n) (client_id id) = false ->
  let n' := send_stored_messages n id msgs q None topic_filter group in
  n_shared n' = n_shared n /\ exists es, n_events n' = n_events n ++ es /\
    event_of <$> es = (fun x : Stored => inr (x.1.2, stored_copy x.2 q)) <$> msgs.
Proof.
  revert n.
  induction msgs as [|[[i from] p] msgs IH]; intros n Hr; cbv zeta.
  { split; [done|]. exists []. by rewrite app_nil_r. }
  rewrite send_stored_cons.
  destruct (send_to_closed n id from (stored_copy p q) Hr) as (n1 & e & -> & _ & Hs & He & Hev).
  destruct (IH n1) as [Hs' (es & He' & Hes)]; [by rewrite Hs|]. split; [congruence|].
  exists (e :: es). split; [by rewrite He', He, <- app_assoc|]. by apply (f_equal2 cons).
Qed.

Context `{!MessageManagerOk M}.

(** Marking what was loaded leaves nothing to load. *)
Lemma apply_marks_get (m : M) client topic_filter group l ids :
  get m client topic_filter group = Ok l ->
  get (apply_marks m ((fun i => (i, [recipient client topic_filter group])) <$> ids)) client topic_filter group =
    Ok (filter (fun x : Stored => x.1.1 ∉ ids) l).
Proof.
  revert m l. induction ids as [|i ids IH]; intros m l Hl.
  { simpl. rewrite Hl. f_equal. symmetry. apply filter_everything. rewrite Forall_forall. intros x _. apply not_elem_of_nil. }
  rewrite fmap_cons. change (apply_marks m (?c :: ?cs)) with (apply_marks (mark_forwarded m c.1 c.2).2 cs).
  cbn [fst snd]. rewrite (IH _ _ (get_marked _ _ _ _ _ i Hl)). f_equal. rewrite list_filter_filter.
  apply list_filter_iff. intros x. rewrite not_elem_of_cons. tauto.
Qed.
End loading.

(** What is stored for a subscription reaches its client once. Where the
    store keeps its promise and the messages are of this node: if the
    client's mailbox is open every stored message is appended to it, in
    their order, with the lower of the two qualities of service, no one
    else is sent anything, and loading again finds nothing; if it is closed
    every message is reported as dropped, nothing else changes and loading
    again finds them all. *)
Theorem stored_reach_once {S H M : Type} `{!SharedSubscription S} `{!BinaryHeap H} `{!MessageManager M}
    `{!MessageManagerOk M} (n : Node S H) (m : M) (id : Id) (topic_filter : string)
    (group : option string) (q : QoS) (msgs : list Stored) :
  message_load m (client_id id) topic_filter group = Ok msgs -> of_this_node n msgs ->
  let r := send_storaged_messages n m id topic_filter q group None in
  let n' := r.1 in
  let m' := r.2 in
  if Shared.reachable (n_shared n) (client_id id) then
    n_events n' = n_events n /\
    (forall c, Shared.peers (n_shared n') !! c =
       Shared.add_mails (if bool_decide (c = client_id id) then stored_mails q msgs else []) <$>
       Shared.peers (n_shared n) !! c) /\
    message_load m' (client_id id) topic_filter group = Ok []
  else
    n_shared n' = n_shared n /\
    (exists es, n_events n' = n_events n ++ es /\
       event_of <$> es = (fun x : Stored => inr (x.1.2, stored_copy x.2 q)) <$> msgs) /\
    message_load m' (client_id id) topic_filter group = Ok msgs.
Proof.
  intros Hl Hnode. unfold send_storaged_messages, message_load_with. rewrite Hl. cbv zeta. cbn [fst snd].
  unfold message_load in *. destruct (Shared.reachable _ _) eqn:Hr.
  - destruct (send_stored_open n id msgs q topic_filter group Hr Hnode) as (He & Hp & Hm).
    split; [done|]. split; [done|]. unfold mark_calls. rewrite Hm, drop_app_length.
    rewrite (list_fmap_compose (fun x : Stored => x.1.1) (fun i => (i, [recipient (client_id id) topic_filter group]))).
    rewrite (apply_marks_get m _ _ _ msgs _ Hl). f_equal. apply filter_nothing.
    rewrite Forall_forall. intros x Hx Hni. apply Hni. by apply (list_elem_of_fmap_2 (fun x : Stored => x.1.1)).
  - destruct (send_stored_closed n id msgs q topic_filter group Hr) as (Hs & He).
    split; [done|]. split; [done|]. unfold mark_calls. by rewrite Hs, drop_all.
Qed.

(** ** A store in memory *)

(** The messages with who has received them. *)
Definition MemoryStore : Type := list (Stored * list Recipient).

#[export] Instance memory_store : MessageManager MemoryStore := {|
  next_msg_id m := (len m, m);
  store m i from p _ rs := (Ok tt, m ++ [(i, from, p, default [] rs)]);
  get m client topic_filter group :=
    Ok (fst <$> filter (fun e : Stored * list Recipient =>
      topic_of e.1.2 = topic_filter /\ recipient client topic_filter group ∉ e.2) m);
  mark_forwarded m i rs :=
    (Ok tt, (fun e : Stored * list Recipient => (e.1, if e.1.1.1 =? i then e.2 ++ rs else e.2)) <$> m);
  merge_on_read _ := false;
  count m := len m;
  max _ := -1;
  enable _ := true;
|}.

#[export] Instance memory_store_ok : MessageManagerOk MemoryStore.
Proof.
  split. intros m client tf group l i. cbn [get mark_forwarded memory_store snd]. intros [= <-]. f_equal.
  set (P := fun e : Stored * list Recipient => topic_of e.1.2 = tf /\ recipient client tf group ∉ e.2).
  set (mark := fun e : Stored * list Recipient =>
         (e.1, if e.1.1.1 =? i then e.2 ++ [recipient client tf group] else e.2)).
  change (fst <$> filter P (mark <$> m) =
          filter (fun x : Stored => x.1.1 <> i) (fst <$> filter P m)).
  induction m as [|e m IH]; [done|]. rewrite fmap_cons, filter_cons.
  assert (Hm : P (mark e) <-> P e /\ e.1.1.1 <> i).
  { unfold P, mark. cbn [fst snd]. destruct (Z.eqb_spec e.1.1.1 i); [|tauto].
    rewrite elem_of_app, list_elem_of_singleton. tauto. }
  destruct (decide (P e)) as [He|He].
  - rewrite (filter_cons_True P e m He), fmap_cons. destruct (decide (e.1.1.1 <> i)) as [Hi|Hi].
    + rewrite decide_True by tauto. by rewrite fmap_cons, IH, (filter_cons_True _ e.1) by exact Hi.
    + rewrite decide_False by tauto. by rewrite IH, (filter_cons_False _ e.1) by exact Hi.
  - rewrite (filter_cons_False P e m He), decide_False by tauto. exact IH.
Qed.

Definition stored_message : Stored :=
  (7, mkFrom Custom id_b,
   BPublish.mk (mkPublish false true ExactlyOnce (text "t") (Some 3) (text "hi") None) None None None).

Lemma stored_reach_once_witness :
  let m : MemoryStore := [(stored_message, [])] in
  let r := send_storaged_messages node_sub m id_a "t" AtLeastOnce None None in
  let n' := r.1 in
  let m' := r.2 in
  message_load m (client_id id_a) "t" None = Ok [stored_message] /\
  message_load m' (client_id id_a) "t" None = Ok [] /\
  (Shared.mailbox <$> Shared.peers (n_shared n') !! client_id id_a) =
    Some [MForward (mkFrom Custom id_b)
            (BPublish.mk (mkPublish false false AtLeastOnce (text "t") None (text "hi") None) None None None)].
Proof.
  intros m r n' m'.
  pose proof (stored_reach_once node_sub m id_a "t" None AtLeastOnce [stored_message] eq_refl
    ltac:(by repeat constructor)) as H. cbv zeta in H. fold r n' m' in H.
  change (Shared.reachable (n_shared node_sub) (client_id id_a)) with true in H. destruct H as (_ & Hp & Hl).
  split; [by vm_compute|]. split; [exact Hl|]. rewrite Hp. by vm_compute.
Defined.
